(* ===== verification/_CoqProject ===== *)
-Q . S2P
Prelude.v
Memory.v
Text.v
Types.v
Mbuf.v
Headers.v
Parse.v
ParseSpec.v
Checksum.v
ChecksumSpec.v
Logic.v
Build.v
BuildSpec.v
Edit.v
EditSpec.v
FlatMem.v
FlatMemSpec.v
Split.v
SplitSpec.v
Scanner.v
IntSet.v
IntSetSpec.v
CpuMap.v
Echo.v
EchoSpec.v
Util.v
UtilSpec.v
EthStats.v
EthStatsSpec.v
Sniffer.v
SnifferSpec.v
Registry.v
RegistrySpec.v
Errno.v
ErrnoSpec.v
Flow.v
FlowSpec.v
FlowRss.v
Eal.v
EalSpec.v
Trace.v
Json.v
Alloc.v
AllocSpec.v
Framework.v
Pipeline.v
FrameworkSpec.v
PipelineSpec.v
Ethdev.v
EthdevSpec.v
Lpm.v
LpmSpec.v
Acl.v
AclSpec.v
Ring.v
RingSpec.v
Pools.v
PoolsSpec.v
MbufPool.v
Loop.v
LoopSpec.v
Exporter.v
ExporterSpec.v
LcoreThread.v
EalInit.v
CommandLine.v
App.v
RxBuffer.v
Meter.v
FlowRules.v
HeaderText.v
Prom.v
SnifferMain.v
Telemetry.v
EalCalls.v
ExporterMain.v
Hello.v
Views.v
DevQuery.v
AppStart.v
