(* ===== verification/Prelude.v ===== *)
(** * go-dpdk: a verification library (root file)

    The repository binds DPDK to Go. Most of its packages pass arguments to one C
    function; this library models the code that does work of its own, and proves
    what it computes. Paths below are relative to [src/].

    ** Parts, and where they are modelled

    Each component has a file with its data and operations, translated function by
    function, and (where it is long) a [...Spec] file with the theorems.

    - [Prelude], [Memory], [Text]: machine integers that wrap, bits, Internet
      checksums as sums; the byte memory that unsafe pointers read and write (a
      finite map from addresses to bytes, [None] being a fault), the state monad
      with faults; text as lists of bytes. They model the language, not a file.
    - [Types]: [types/*.go], constants and addresses.
    - [Mbuf]: [mbuf/mbuf.go]. A descriptor is a record of its lengths and offsets.
    - [Headers], [Parse]: [packet/packet.go]. A [World] is the memory, the mbufs
      and the one [Packet] structure the methods work on; a header field is an
      offset and a width. [ParseSpec] has a reference parser over the bytes of the
      frame ([wire_layout]) and shows that the pointer code follows it.
    - [Checksum]: [packet/checksum.go]. [ChecksumSpec] has RFC 1071 as one sum.
    - [Logic]: Hoare-style lemmas for the monad, for the packet files after it.
    - [Build]: the [InitEmpty*] builders, [packet/arp.go], [packet/icmp6.go].
    - [Edit]: encapsulation and decapsulation of [packet/packet.go].
    - [FlatMem]: [mem/mem.go] (word-wise copies, moves, comparison) and
      [mem/flat.go] (rows of flat structs, with the tables of functions that [Parse]
      fills in).
    - [IntSet]: [common/set.go]; the interface [Set] is a class with its laws,
      [SetLaws]. [CpuMap]: [lcore/lcore.go], [lcore/lcore_linux.go] on [Scanner].
    - [Echo]: the answers of [app/test-sniffer/lcores.go] to received packets, on
      top of [Parse], [Checksum] and [Build].
    - [Util]: [util/*.go] and [hash/crc.go].
    - [EthStats]: [ethdev/stats.go], [ethdev/rxtx.go], [app/test-sniffer/stats.go].
    - [Sniffer]: queues, ports, pools and flags of [app/test-sniffer]; [SnifferMain]:
      its [stats.go], [queue_count.go] and the jobs of [main.go].
    - [Registry]: [common/objects.go], two instances of one class with laws.
    - [Errno]: [common/common.go].
    - [Flow], [FlowSpec], [FlowRss]: [ethdev/flow]. Go objects with their cached C
      structure, and a C heap of blocks; the layout of the C structures is a
      parameter ([layout_ok] is what the compiler guarantees); [view] says, apart from
      the code, what each structure shows of its Go object. [FlowRules]: the rest
      of [ethdev/flow/flow.go] and the rules of the sniffer, [app/test-sniffer/util.go].
    - [Eal]: [eal/eal.go], [eal/init.go], [eal/init_once.go]. Goroutines and lcore
      threads are events; a run is any interleaving in which each event is
      possible. A channel is its queue and its capacity. [EalCalls]: a goroutine that
      makes one [ExecOnLcore] after the other; [Hello]: [app/helloworld] on it.
    - [Trace]: panics, stacks and assertions as text, [eal/init.go], [common/assert.go].
    - [Json]: the [UnmarshalJSON] methods of [types/*.go].
    - [Split]: [common/parse.go], with UTF-8 decoding. [Scanner]: [eal/parse.go] on the
      [bufio.Scanner] of Go, whose buffer cuts its input anywhere.
    - [Alloc]: [common/allocator.go], [endian.go], [pointers.go]; the allocator
      below a session is a class with laws, [AllocLaws].

    - [Framework]: [port/*.go] and [table/*.go]. Parameters become structures in a
      C heap of typed blocks; a class [Transformer] has one instance per kind of
      parameters, its laws are [Lawful].
    - [Pipeline]: [pipeline/pipeline.go], [port.go], [table.go], the loop of
      [pipeline_loop.go] with the C function it calls, from [pipeline_loop.h].
    - [Ethdev]: options, configuration, queues, hairpin queues and state of
      [ethdev/ethdev.go]; [ethdev/mtr.go].
    - [Lpm]: [lpm/*.go]; the two tables of DPDK are one class, [RteLpm]; [LpmSpec]
      has what is documented of them as laws. [Acl]: [acl/acl.go], [table/acl_params.go].
    - [Ring]: [ring/ring.go], [enqueue.go], [dequeue.go]; the ring of DPDK is a
      class with its twelve functions, each beside the calls under way elsewhere; what
      the documentation promises, of which variants may overlap too, are the laws
      [RteRingLaws].
    - [Pools]: [mempool/*.go], [memzone/memzone.go]; walks go through the callbacks
      of [Registry].
    - [MbufPool]: the buffers of pools in [mbuf/mbuf.go] and the C functions in its
      preamble; the pool is a class with laws, [RteMbufLaws].
    - [Loop]: the receive loop [LcoreFunc] of [app/test-sniffer/lcores.go] around
      [Echo], with [ethdev/rxtx.go]; DPDK and the other owners of packets are one
      state, the class [Dpdk], whose functions may change any packet.
    - [Exporter]: the collections of [app/dpdk-exporter/metrics.go]; a gauge is an
      entry of a map, values go through [float64]. [Prom] is the interface of the
      registry of Prometheus with its laws, [ExporterMain] the constructors of
      [metrics.go] over it and the loop of [app/dpdk-exporter/main.go] on [EalCalls].
    - [LcoreThread]: [lcore/thread.go], a step relation over the channel; the calls
      on the affinity of the thread.
    - [EalInit]: [ealInit] of [eal/init.go] on [Alloc] with the allocator of
      [common/allocator_std.go]; [InitOnceSafe]. [CommandLine]: [InitCmd] on both, from
      the text to the C strings.
    - [App]: [newApp] of [app/test-sniffer/init.go], which puts the parts above
      together, and the two loops of [app/ring/main.go] on [Ring]. [AppStart]: the
      parts that [newApp] calls, in their place.
    - [RxBuffer]: [util/rx_buffer.go], [util/mbuf_array.h]. [Telemetry]:
      [ethdev/lsc_telemetry.go], [.h], [ring/ring_telemetry.go], [.h].
    - [Meter]: [ethdev/mtr.go], [ethdev/flow/errors.go]. [HeaderText]: the [String]
      methods of [packet/packet.go] and [packet/arp.go].
    - [DevQuery]: the queries of [ethdev/ethdev.go], [stats.go] and [rxtx.go]; where
      Go leaves the order of evaluation open it is an argument. [Views]: the slices
      made over C memory in [ethdev], [mempool] and [memzone].

    ** What the theorems show

    - Packets: parsing finds what the reference parser finds on any frame with at
      least [MaxHeaders] bytes, VXLAN included; builders give packets that the
      parser accepts, with the lengths and, for neighbour discovery, all the bytes
      of the RFC; editing moves the bytes it should, or ([EncapsulateHead]) does
      not; checksums are those of the RFC and a receiver accepts them; the echo
      program answers with the right frame and a panic is located.
    - Descriptors: an invariant over all operations, exact success conditions.
    - Concurrency of lcores: jobs of an lcore run in their order whatever the
      interleaving, results are neither lost nor doubled and belong to their jobs,
      stopping ends all threads within a computed number of actions, also while
      others go on to submit jobs, of which those behind the end are never run; the
      two ways to wait for ever are exhibited.
    - C memory: sessions, RSS actions, and the creation of ports, tables and
      pipelines leak nothing and free nothing twice; the cases that do are
      exhibited. Flow rules, device configurations and ACL rules reach DPDK as
      they were written, the fields at the places of the C headers; networks reach [lpm] as their address and prefix length, so
      that a lookup finds the longest network in Go's sense.
    - Text: a command line reaches DPDK as its words, whatever pieces the scanner read
      it in, and what it refuses is said exactly; masks of cores and addresses in
      JSON are read as they are printed, but for IPv6.
    - The pipeline loop stops when its control function says so, and only then;
      hairpin queues are paired in order; rings are bounded queues for clients that
      call the variants they may;
      a walk over pools conserves the registry its callback goes through.
    - A goroutine that calls functions on lcores gets every answer; so the exporter
      collects once per tick until the shutdown and shows the last collection; the start of
      the sniffer serves each queue by one worker, and nobody waits. The vectors of
      metrics fit what the collections set; registering twice panics.
    - A rule that is validated is the rule that is created, where no structure has
      pointers. Link changes are counted for the port that was registered, receive
      buffers free what they received, but for the last burst.
    - The receive loop gives back every packet once and counts it, its length too
      late; a thread with a
      channel runs its jobs in order and ends once the channel is closed; the
      start of the EAL leaves no C memory behind; a collection of the exporter
      sets the gauges it should and no others; the start of the application makes
      the calls of its plan up to the first failure; the loops of the ring sample
      end under a fair schedule.
    - Sets, maps, registries, statistics, splitting and queue distribution: each
      against an abstract description (a finite set, a map of live objects, a word
      splitter over runes, the list of a socket's queues).

    ** Bounds and fuel

    Integers have Go's widths and wrap ([u8] to [u64], [i64]). Loops that are not
    structural take fuel computed from their data, and the theorems give a result,
    not "if it returns": [SplitFunc] takes the length of its data (each round
    consumes a rune), [parseCmd] that of the input (each word does, and each refill
    reads a byte or finds the end), [getLcores] the number of lcores, [reduce_loop]
    two rounds (a 32-bit sum folds twice), the word loops of [FlatMem] the length.
    [copySet] has the fuel as an argument; [copySet_diverges] holds for any. So
    have [run_pipeline_loop] and [hairpin_loop], which need not end: more fuel than
    the iteration that stops the loop, or than there are hairpin queues, is enough,
    and the inputs on which no fuel is enough are given.

    ** Not modelled

    What DPDK does: its functions are arguments of the definitions, so the content
    of pools, zones, tables and tries is not modelled; the constants that only name
    numbers of C headers ([flow/constants.go]);
    logging, HTTP, signals and flag registration; the registry of Prometheus, which
    is a class with laws and a list as an instance; files of sysfs, system calls and
    the frames of program counters, which are arguments. Within modelled files:
    result channels without a buffer (Go code that passes one to [ExecOnLcoreAsync]
    hands over instead of storing), and finalizers (when the garbage collector runs
    is not determined; [ActionRSS_no_leak] shows what one does). *)

From Stdlib Require Import ZArith Lia.
From stdpp Require Import base list numbers option gmap fin_sets.

Open Scope Z_scope.

(** ** Machine integers

    A [w]-bit unsigned Go integer is a [Z] in [0, 2^w); [u8] ... [u64] are the
    conversions Go writes [uint8(x)] ... [uint64(x)], which wrap. *)

Definition u8 (x : Z) : Z := x mod 256.
Definition u16 (x : Z) : Z := x mod 65536.
Definition u32 (x : Z) : Z := x mod 4294967296.
Definition u64 (x : Z) : Z := x mod 18446744073709551616.

(** Signed conversions, [C.int(x)] and Go's [int(x)]. *)
Definition i32 (x : Z) : Z := (x + 2147483648) mod 4294967296 - 2147483648.
Definition i64 (x : Z) : Z :=
  (x + 9223372036854775808) mod 18446744073709551616 - 9223372036854775808.

(** Linear arithmetic with [/] and [mod] by constants and the wrapping
    conversions unfolded. *)
Ltac zlia :=
  unfold u8, u16, u32, u64, i64 in *; Z.div_mod_to_equations; lia.

Lemma u8_small x : 0 <= x < 256 -> u8 x = x.
Proof. intros. unfold u8. by apply Z.mod_small. Qed.

Lemma u16_small x : 0 <= x < 65536 -> u16 x = x.
Proof. intros. unfold u16. by apply Z.mod_small. Qed.

Lemma u32_small x : 0 <= x < 4294967296 -> u32 x = x.
Proof. intros. unfold u32. by apply Z.mod_small. Qed.

Lemma u64_small x : 0 <= x < 18446744073709551616 -> u64 x = x.
Proof. intros. unfold u64. by apply Z.mod_small. Qed.

Lemma i64_small x : -9223372036854775808 <= x < 9223372036854775808 -> i64 x = x.
Proof. zlia. Qed.

Lemma u8_range x : 0 <= u8 x < 256.
Proof. unfold u8. apply Z.mod_pos_bound. lia. Qed.

Lemma u16_range x : 0 <= u16 x < 65536.
Proof. unfold u16. apply Z.mod_pos_bound. lia. Qed.

Lemma u32_range x : 0 <= u32 x < 4294967296.
Proof. unfold u32. apply Z.mod_pos_bound. lia. Qed.

Lemma u64_range x : 0 <= u64 x < 18446744073709551616.
Proof. unfold u64. apply Z.mod_pos_bound. lia. Qed.

Create HintDb words.
Create Rewrite HintDb words.
#[export] Hint Resolve u8_range u16_range u32_range u64_range : words.
#[export] Hint Rewrite u8_small u16_small u32_small u64_small using lia : words.

(** ** Bits

    The source masks, shifts and or-s fields together; these lemmas turn that
    into the arithmetic the proofs use. *)

Lemma land_ones_mod x k n :
  0 <= k -> n = 2 ^ k - 1 -> Z.land x n = x mod 2 ^ k.
Proof.
  intros Hk ->. replace (2 ^ k - 1) with (Z.ones k).
  - by apply Z.land_ones.
  - rewrite Z.ones_equiv. lia.
Qed.

Lemma land_ff x : Z.land x 255 = x mod 256.
Proof. by apply (land_ones_mod x 8). Qed.

Lemma land_ffff x : Z.land x 65535 = x mod 65536.
Proof. by apply (land_ones_mod x 16). Qed.

Lemma land_0f x : Z.land x 15 = x mod 16.
Proof. by apply (land_ones_mod x 4). Qed.

Lemma land_07 x : Z.land x 7 = x mod 8.
Proof. by apply (land_ones_mod x 3). Qed.

(** Or-ing a low part into a shifted high part is adding it. *)
Lemma lor_shiftl_add a b k :
  0 <= k -> 0 <= b < 2 ^ k -> Z.lor (Z.shiftl a k) b = a * 2 ^ k + b.
Proof.
  intros Hk Hb. rewrite <- Z.shiftl_mul_pow2 by lia.
  rewrite <- Z.lxor_lor; [symmetry; apply Z.add_nocarry_lxor|].
  all: apply Z.bits_inj'; intros n Hn; rewrite Z.land_spec, Z.bits_0.
  all: destruct (Z.lt_ge_cases n k).
  all: try (rewrite Z.shiftl_spec_low by lia; done).
  all: replace (Z.testbit b n) with false; [by rewrite andb_false_r|].
  all: symmetry; destruct (decide (b = 0)) as [->|]; [apply Z.bits_0|].
  all: apply Z.bits_above_log2; [lia|].
  all: apply Z.log2_lt_pow2; [lia|].
  all: eapply Z.lt_le_trans; [apply Hb|apply Z.pow_le_mono_r; lia].
Qed.

Lemma lor_add_shiftl a b k :
  0 <= k -> 0 <= b < 2 ^ k -> Z.lor b (Z.shiftl a k) = b + a * 2 ^ k.
Proof. intros. rewrite Z.lor_comm, lor_shiftl_add by done. lia. Qed.

(** ** Little-endian byte lists

    A value of [n] bytes in memory is the list of its bytes, least significant
    first: the byte order of the machines the program runs on (its [Swap*]
    constants are the byte-swapped EtherTypes). *)

Definition byte_ok (b : Z) : Prop := 0 <= b < 256.

#[export] Instance byte_ok_dec b : Decision (byte_ok b).
Proof. unfold byte_ok. apply _. Defined.

Fixpoint le_val (l : list Z) : Z :=
  match l with
  | [] => 0
  | b :: r => b + 256 * le_val r
  end.

Fixpoint le_bytes (n : nat) (v : Z) : list Z :=
  match n with
  | O => []
  | S k => v mod 256 :: le_bytes k (v / 256)
  end.

(** [Forall byte_ok] of an explicit list, from the hypotheses on its elements,
    and the elements' bounds from such a hypothesis. *)
Ltac bytes := repeat first [apply Forall_nil_2 | apply Forall_cons_2; [assumption|]].
Ltac bytes_inv :=
  repeat match goal with
         | H : Forall byte_ok (_ :: _) |- _ => apply Forall_cons in H as [? H]
         | H : Forall byte_ok [] |- _ => clear H
         end.

(** The value of a byte list read in network order. *)
Fixpoint be_val (l : list Z) : Z :=
  match l with
  | [] => 0
  | b :: r => b * 256 ^ Z.of_nat (length r) + be_val r
  end.

Lemma length_le_bytes n v : length (le_bytes n v) = n.
Proof. revert v; induction n; intros; simpl; auto. Qed.

Lemma le_bytes_ok n v : Forall byte_ok (le_bytes n v).
Proof.
  revert v; induction n; intros; simpl; constructor; auto.
  unfold byte_ok. apply Z.mod_pos_bound. lia.
Qed.

Lemma le_val_bytes n v : le_val (le_bytes n v) = v mod 256 ^ Z.of_nat n.
Proof.
  revert v; induction n as [|n IH]; intros v.
  - simpl. by rewrite Z.mod_1_r.
  - cbn [le_bytes le_val]. rewrite IH, Nat2Z.inj_succ, Z.pow_succ_r by lia.
    rewrite Z.rem_mul_r by lia. lia.
Qed.

Lemma le_bytes_val l : Forall byte_ok l -> le_bytes (length l) (le_val l) = l.
Proof.
  induction 1 as [|b l Hb _ IH]; simpl; [done|]. unfold byte_ok in Hb.
  replace ((b + 256 * le_val l) mod 256) with b by zlia.
  replace ((b + 256 * le_val l) / 256) with (le_val l) by zlia.
  by rewrite IH.
Qed.

Lemma le_val_range l : Forall byte_ok l -> 0 <= le_val l < 256 ^ Z.of_nat (length l).
Proof.
  induction 1 as [|b l Hb _ IH]; [simpl; lia|]. unfold byte_ok in Hb.
  cbn [le_val length]. rewrite Nat2Z.inj_succ, Z.pow_succ_r by lia. lia.
Qed.

#[export] Hint Rewrite length_le_bytes : words.
#[export] Hint Resolve le_bytes_ok : words.

(** What C takes for the string that [C.CString] makes of [name]. *)
Fixpoint c_str (name : list Z) : list Z := match name with [] => [] | b :: r => if b =? 0 then [] else b :: c_str r end.

(** ** State and failure

    Code that dereferences pointers and mutates the packet runs in [M S]:
    [None] is a run-time panic (nil dereference, unmapped address, index out
    of range), [Some] a normal return with the new state. *)

Definition M (S A : Type) : Type := S -> option (A * S).

Definition ret {S A} (a : A) : M S A := fun s => Some (a, s).
Definition bind {S A B} (m : M S A) (k : A -> M S B) : M S B :=
  fun s => match m s with
           | None => None
           | Some (a, s') => k a s'
           end.
Definition panic {S A} : M S A := fun _ => None.
Definition gets {S A} (f : S -> A) : M S A := fun s => Some (f s, s).
Definition modify {S} (f : S -> S) : M S unit := fun s => Some (tt, f s).
Definition lift {S A} (o : option A) : M S A :=
  fun s => match o with
           | None => None
           | Some a => Some (a, s)
           end.

Declare Scope go_scope.
Delimit Scope go_scope with go.
Notation "'let!' x ':=' m 'in' k" := (bind m (fun x => k))
  (at level 10, x pattern, m at level 100, k at level 200) : go_scope.
Notation "m1 ;; m2" := (bind m1 (fun _ => m2))
  (at level 100, right associativity) : go_scope.

(** A loop over a list that collects results. *)
Fixpoint mapM_ {S A B} (f : A -> M S B) (l : list A) : M S (list B) :=
  match l with
  | [] => ret []
  | a :: l => bind (f a) (fun b => bind (mapM_ f l) (fun bs => ret (b :: bs)))
  end.

Section MonadLaws.
Context {S A B C : Type}.

Lemma bind_ret_l (a : A) (k : A -> M S B) s : bind (ret a) k s = k a s.
Proof. done. Qed.

Lemma bind_assoc (m : M S A) (f : A -> M S B) (g : B -> M S C) s :
  bind (bind m f) g s = bind m (fun a => bind (f a) g) s.
Proof. unfold bind. by destruct (m s) as [[??]|]. Qed.

Lemma bind_some (m : M S A) (k : A -> M S B) s a s' :
  m s = Some (a, s') -> bind m k s = k a s'.
Proof. intros E. unfold bind. by rewrite E. Qed.

Lemma bind_none (m : M S A) (k : A -> M S B) s :
  m s = None -> bind m k s = None.
Proof. intros E. unfold bind. by rewrite E. Qed.
End MonadLaws.

(** ** Lists *)

Definition sumZ (l : list Z) : Z := foldr Z.add 0 l.

Lemma sumZ_app l k : sumZ (l ++ k) = sumZ l + sumZ k.
Proof. induction l as [|x l IH]; simpl; [done|]. rewrite IH. lia. Qed.

Lemma sumZ_nonneg l : Forall (fun x => 0 <= x) l -> 0 <= sumZ l.
Proof. induction 1; simpl; lia. Qed.

Lemma sumZ_bound l b : Forall (fun x => 0 <= x <= b) l -> 0 <= sumZ l <= b * Z.of_nat (length l).
Proof. induction 1; simpl; lia. Qed.

(** ** Free addresses

    The first unused address of a heap, as an allocator for concrete inputs. *)

Fixpoint first_free_from {V} (h : gmap Z V) (fuel : nat) (p : Z) : Z :=
  match fuel with
  | O => p
  | S k => match h !! p with None => p | Some _ => first_free_from h k (p + 1) end
  end.
Definition first_free {V} (h : gmap Z V) (n : Z) : Z := first_free_from h (size h) 1.

Lemma first_free_from_spec {V} (h : gmap Z V) fuel : forall p,
  p <= first_free_from h fuel p <= p + Z.of_nat fuel /\
  (forall q, p <= q < first_free_from h fuel p -> is_Some (h !! q)) /\
  (first_free_from h fuel p < p + Z.of_nat fuel -> h !! first_free_from h fuel p = None).
Proof.
  induction fuel as [|k IH]; intros p; cbn [first_free_from]; [split_and!; [lia|lia|intros; lia|intros; lia]|].
  destruct (h !! p) as [b|] eqn:E; [|split_and!; [lia|lia|intros; lia|done]].
  destruct (IH (p + 1)) as (A & B & C). split_and!; [lia|lia| |intros; apply C; lia].
  intros q Hq. destruct (Z.eq_dec q p) as [->|]; [by exists b|]. apply B. lia.
Qed.

(** Were all the addresses tried in use, there would be too many. *)
Lemma first_free_ok {V} (h : gmap Z V) n : 0 < first_free h n <= Z.of_nat (size h) + 1 /\ h !! first_free h n = None.
Proof.
  unfold first_free. destruct (first_free_from_spec h (size h) 1) as (A & B & C). split; [lia|].
  destruct (Z.lt_ge_cases (first_free_from h (size h) 1) (1 + Z.of_nat (size h))) as [H|H]; [by apply C|].
  replace (first_free_from h (size h) 1) with (1 + Z.of_nat (size h)) in * by lia.
  apply eq_None_not_Some. intros Used.
  assert (I : (list_to_set (map (fun k => 1 + Z.of_nat k) (seq 0 (S (size h)))) : gset Z) ⊆ dom h).
  { intros q Hq. apply elem_of_list_to_set, list_elem_of_fmap in Hq as (k & -> & Hk). apply elem_of_seq in Hk.
    apply elem_of_dom. destruct (Nat.eq_dec k (size h)) as [->|]; [done|]. apply B. lia. }
  apply subseteq_size in I. rewrite size_list_to_set in I.
  - rewrite length_map, length_seq, size_dom in I. lia.
  - apply NoDup_fmap_2; [intros ? ?; lia|]. apply NoDup_seq.
Qed.
