(* ===== verification/Memory.v ===== *)
(** * Byte-addressed memory

    The process memory the Go code reaches through [unsafe.Pointer]: a finite
    map from addresses to bytes. A load or store of an address outside the map
    is a fault ([None]). A multi-byte access is the little-endian sequence of
    its bytes. *)

From Stdlib Require Import ZArith Lia.
From stdpp Require Import base list numbers option gmap fin_maps.
From S2P Require Import Prelude.

Open Scope Z_scope.

Abbreviation mem := (gmap Z Z).

(** [uintptr] arithmetic wraps at 64 bits. *)
Definition ptr_add (p n : Z) : Z := u64 (p + n).

Fixpoint load_bytes (m : mem) (p : Z) (n : nat) : option (list Z) :=
  match n with
  | O => Some []
  | S k =>
      match m !! p with
      | None => None
      | Some b =>
          match load_bytes m (p + 1) k with
          | None => None
          | Some l => Some (b :: l)
          end
      end
  end.

Fixpoint store_bytes (m : mem) (p : Z) (bs : list Z) : option mem :=
  match bs with
  | [] => Some m
  | b :: r =>
      match m !! p with
      | None => None
      | Some _ => store_bytes (<[p := b]> m) (p + 1) r
      end
  end.

Definition load_le (m : mem) (p : Z) (n : nat) : option Z := le_val <$> load_bytes m p n.
Definition store_le (m : mem) (p : Z) (n : nat) (v : Z) : option mem :=
  store_bytes m p (le_bytes n v).

(** The memory a store that does not fault leaves behind. *)
Fixpoint write (m : mem) (p : Z) (bs : list Z) : mem :=
  match bs with
  | [] => m
  | b :: r => write (<[p := b]> m) (p + 1) r
  end.

Definition mapped (m : mem) (p : Z) (n : Z) : Prop :=
  forall i, p <= i < p + n -> is_Some (m !! i).

Definition wf_mem (m : mem) : Prop := forall p b, m !! p = Some b -> byte_ok b.

Definition agree_on (m1 m2 : mem) (p n : Z) : Prop :=
  forall i, p <= i < p + n -> m1 !! i = m2 !! i.

Lemma lookup_write m p bs q :
  write m p bs !! q =
  if decide (p <= q < p + Z.of_nat (length bs)) then bs !! Z.to_nat (q - p) else m !! q.
Proof.
  revert m p; induction bs as [|b bs IH]; intros m p; simpl.
  - case_decide; [lia|done].
  - rewrite IH. case_decide; case_decide; try lia.
    + replace (Z.to_nat (q - p)) with (S (Z.to_nat (q - (p + 1)))) by lia. done.
    + replace (q - p) with 0 by lia. simpl. replace q with p by lia.
      by rewrite lookup_insert_eq.
    + by rewrite lookup_insert_ne by lia.
Qed.

Lemma lookup_write_out m p bs q :
  q < p \/ p + Z.of_nat (length bs) <= q -> write m p bs !! q = m !! q.
Proof. intros. rewrite lookup_write. case_decide; [lia|done]. Qed.

Lemma mapped_sub m p n q k :
  mapped m p n -> p <= q -> q + k <= p + n -> mapped m q k.
Proof. intros H ?? i Hi. apply H. lia. Qed.

Lemma mapped_write m p bs q n : mapped m q n -> mapped (write m p bs) q n.
Proof.
  intros H i Hi. rewrite lookup_write. case_decide; [|by apply H].
  apply lookup_lt_is_Some_2. lia.
Qed.

Lemma store_bytes_mapped m p bs :
  mapped m p (Z.of_nat (length bs)) -> store_bytes m p bs = Some (write m p bs).
Proof.
  revert m p; induction bs as [|b bs IH]; intros m p H; simpl; [done|].
  destruct (H p) as [x ->]; [simpl; lia|]. apply IH.
  intros i Hi. destruct (decide (i = p)) as [->|].
  - rewrite lookup_insert_eq. eauto.
  - rewrite lookup_insert_ne by done. apply H. simpl. lia.
Qed.

Lemma store_bytes_inv m p bs m' :
  store_bytes m p bs = Some m' ->
  m' = write m p bs /\ mapped m p (Z.of_nat (length bs)).
Proof.
  revert m p; induction bs as [|b bs IH]; intros m p H; simpl in *.
  - split; [congruence|]. intros i Hi; lia.
  - destruct (m !! p) as [x|] eqn:E; [|done].
    apply IH in H as [-> H]. split; [done|]. intros i Hi.
    destruct (decide (i = p)) as [->|]; [eauto|].
    destruct (H i) as [y Hy]; [lia|]. rewrite lookup_insert_ne in Hy by done. eauto.
Qed.

Lemma load_bytes_agree m1 m2 p n :
  agree_on m1 m2 p (Z.of_nat n) -> load_bytes m1 p n = load_bytes m2 p n.
Proof.
  revert p; induction n as [|n IH]; intros p H; simpl; [done|].
  rewrite (H p) by lia. destruct (m2 !! p); [|done].
  rewrite (IH (p + 1)); [done|]. intros i Hi. apply H. lia.
Qed.

Lemma load_bytes_mapped m p n :
  mapped m p (Z.of_nat n) -> exists l, load_bytes m p n = Some l /\ length l = n.
Proof.
  revert p; induction n as [|n IH]; intros p H; simpl; [by exists []|].
  destruct (H p) as [b ->]; [lia|].
  destruct (IH (p + 1)) as (l & -> & Hl); [intros i Hi; apply H; lia|].
  exists (b :: l). simpl. auto.
Qed.

Lemma load_bytes_length m p n l : load_bytes m p n = Some l -> length l = n.
Proof.
  revert p l; induction n as [|n IH]; intros p l H; simpl in *; [by simplify_eq|].
  destruct (m !! p); [|done]. destruct (load_bytes m (p + 1) n) eqn:E; [|done].
  simplify_eq. simpl. f_equal. eauto.
Qed.

Lemma load_bytes_ok m p n l : wf_mem m -> load_bytes m p n = Some l -> Forall byte_ok l.
Proof.
  intros W; revert p l; induction n as [|n IH]; intros p l H; simpl in *; [by simplify_eq|].
  destruct (m !! p) eqn:E; [|done]. destruct (load_bytes m (p + 1) n) eqn:F; [|done].
  simplify_eq. constructor; eauto.
Qed.

Lemma load_bytes_lookup m p n l k :
  load_bytes m p n = Some l -> (k < n)%nat -> l !! k = m !! (p + Z.of_nat k).
Proof.
  revert p l k; induction n as [|n IH]; intros p l k H Hk; simpl in *; [lia|].
  destruct (m !! p) eqn:E; [|done]. destruct (load_bytes m (p + 1) n) eqn:F; [|done].
  simplify_eq. destruct k as [|k]; simpl.
  - by rewrite Z.add_0_r.
  - rewrite (IH _ _ _ F) by lia. f_equal. lia.
Qed.

(** A list is what is loaded iff it has the bytes of the range. *)
Lemma load_bytes_intro m p l :
  (forall k, (k < length l)%nat -> m !! (p + Z.of_nat k) = l !! k) ->
  load_bytes m p (length l) = Some l.
Proof.
  revert p; induction l as [|b l IH]; intros p H; simpl; [done|].
  pose proof (H 0%nat) as H0. simpl in H0. rewrite Z.add_0_r in H0. rewrite H0 by lia.
  rewrite IH; [done|]. intros k Hk. replace (p + 1 + Z.of_nat k) with (p + Z.of_nat (S k)) by lia.
  rewrite H; [done|simpl; lia].
Qed.

Lemma load_bytes_app m p a b l :
  load_bytes m p (a + b) = Some l <->
  exists x y, load_bytes m p a = Some x /\ load_bytes m (p + Z.of_nat a) b = Some y /\ l = x ++ y.
Proof.
  revert p l; induction a as [|a IH]; intros p l; simpl.
  - rewrite Z.add_0_r. split; [intros; by exists [], l|]. intros (x&y&Hx&Hy&->). by simplify_eq.
  - destruct (m !! p) as [c|]; [|split; [done|by intros (?&?&?&_)]].
    replace (p + Z.of_nat (S a)) with (p + 1 + Z.of_nat a) by lia.
    split.
    + intros H. destruct (load_bytes m (p + 1) (a + b)) as [z|] eqn:E; [|done].
      injection H as <-. apply (proj1 (IH (p + 1) z)) in E as (x & y & E1 & E2 & Ez). subst z.
      exists (c :: x), y. by rewrite E1.
    + intros (x & y & E1 & E2 & ->).
      destruct (load_bytes m (p + 1) a) as [x'|] eqn:E3; [|done]. simplify_eq.
      by rewrite (proj2 (IH (p + 1) (x' ++ y))) by eauto.
Qed.

(** ** Loads after writes *)

Lemma load_write_disj m p bs q n :
  q + Z.of_nat n <= p \/ p + Z.of_nat (length bs) <= q ->
  load_bytes (write m p bs) q n = load_bytes m q n.
Proof.
  intros H. apply load_bytes_agree. intros i Hi. apply lookup_write_out. lia.
Qed.

Lemma load_write_in m p bs q n :
  p <= q -> q + Z.of_nat n <= p + Z.of_nat (length bs) ->
  load_bytes (write m p bs) q n = Some (take n (drop (Z.to_nat (q - p)) bs)).
Proof.
  intros H1 H2.
  assert (Hl : length (take n (drop (Z.to_nat (q - p)) bs)) = n)
    by (rewrite length_take, length_drop; lia).
  rewrite <- Hl at 1. apply load_bytes_intro. intros k Hk. rewrite Hl in Hk.
  rewrite lookup_write, decide_True by lia.
  rewrite lookup_take_lt by lia. rewrite lookup_drop. f_equal. lia.
Qed.

Lemma load_write_same m p bs n :
  n = length bs -> load_bytes (write m p bs) p n = Some bs.
Proof.
  intros ->. rewrite load_write_in by lia.
  rewrite Z.sub_diag. simpl. rewrite drop_0. by rewrite firstn_all.
Qed.

Lemma load_le_write_disj m p bs q n :
  q + Z.of_nat n <= p \/ p + Z.of_nat (length bs) <= q ->
  load_le (write m p bs) q n = load_le m q n.
Proof. intros. unfold load_le. by rewrite load_write_disj. Qed.

Lemma load_le_write_same m p n v :
  0 <= v < 256 ^ Z.of_nat n -> load_le (write m p (le_bytes n v)) p n = Some v.
Proof.
  intros. unfold load_le. rewrite load_write_same by (by rewrite length_le_bytes).
  simpl. rewrite le_val_bytes. f_equal. by apply Z.mod_small.
Qed.

Lemma load_le_range m p n v :
  wf_mem m -> load_le m p n = Some v -> 0 <= v < 256 ^ Z.of_nat n.
Proof.
  intros W H. unfold load_le in H. destruct (load_bytes m p n) as [l|] eqn:E; [|done].
  simpl in H. simplify_eq. rewrite <- (load_bytes_length _ _ _ _ E).
  apply le_val_range. eapply load_bytes_ok; eauto.
Qed.

Lemma wf_mem_write m p bs : wf_mem m -> Forall byte_ok bs -> wf_mem (write m p bs).
Proof.
  intros W F q b. rewrite lookup_write. case_decide; [|apply W].
  intros E. by eapply Forall_lookup_1 in F.
Qed.

Lemma write_write_comm m p bs q cs :
  p + Z.of_nat (length bs) <= q \/ q + Z.of_nat (length cs) <= p ->
  write (write m p bs) q cs = write (write m q cs) p bs.
Proof.
  intros H. apply map_eq. intros i. rewrite !lookup_write.
  repeat case_decide; try lia; done.
Qed.

Create Rewrite HintDb mem.
#[export] Hint Rewrite load_le_write_disj load_write_disj
  using (rewrite ?length_le_bytes; simpl; lia) : mem.

Create HintDb mem.
#[export] Hint Resolve mapped_write wf_mem_write : mem.
