(* ===== verification/Text.v ===== *)
(** * Go strings and number formatting

    A Go string is its list of bytes. [str] turns a literal into bytes; [fmt_d]
    and [fmt_x] are the [fmt] verbs ["%d"], ["%x"], ["%02x"] and ["%04x"] the
    source prints numbers with, and [xtoi2] the digit parser of package [net]. *)

From Stdlib Require Import ZArith Lia Ascii String.
From stdpp Require Import base list numbers option strings pretty.
From S2P Require Import Prelude.

Open Scope Z_scope.

Definition byte_of_ascii (a : ascii) : Z := Z.of_N (N_of_ascii a).

Fixpoint str (s : string) : list Z :=
  match s with
  | EmptyString => []
  | String a r => byte_of_ascii a :: str r
  end.

(** ["%d"] *)
Definition fmt_d (x : Z) : list Z := str (pretty x).

(** The lower-case hexadecimal digit of [0 <= d < 16]. *)
Definition hex_digit (d : Z) : Z := if d <? 10 then 48 + d else 87 + d.

(** ["%x"] padded with zeroes to [n] digits, for values below [16^n]. *)
Fixpoint fmt_x (n : nat) (x : Z) : list Z :=
  match n with
  | O => []
  | S k => fmt_x k (x / 16) ++ [hex_digit (x mod 16)]
  end.

(** [strings.Join] *)
Fixpoint join (sep : list Z) (ls : list (list Z)) : list Z :=
  match ls with
  | [] => []
  | [l] => l
  | l :: r => l ++ sep ++ join sep r
  end.

(** The value of a hexadecimal digit, upper or lower case. *)
Definition hex_val (c : Z) : option Z :=
  if (48 <=? c) && (c <=? 57) then Some (c - 48)
  else if (97 <=? c) && (c <=? 102) then Some (c - 87)
  else if (65 <=? c) && (c <=? 70) then Some (c - 55)
  else None.

Lemma hex_val_digit d : 0 <= d < 16 -> hex_val (hex_digit d) = Some d.
Proof.
  intros H. unfold hex_val, hex_digit.
  destruct (d <? 10) eqn:E; [apply Z.ltb_lt in E|apply Z.ltb_ge in E].
  - replace (48 <=? 48 + d) with true by lia. replace (48 + d <=? 57) with true by lia.
    simpl. f_equal. lia.
  - replace (87 + d <=? 57) with false by lia. rewrite andb_false_r.
    replace (97 <=? 87 + d) with true by lia. replace (87 + d <=? 102) with true by lia.
    simpl. f_equal. lia.
Qed.

(** [net.xtoi2]: the two digits at the head of [s]; if more follows, the third
    byte has to be [e]. *)
Definition xtoi2 (s : list Z) (e : Z) : option Z :=
  match s with
  | a :: b :: r =>
      if match r with [] => true | c :: _ => c =? e end then
        match hex_val a, hex_val b with
        | Some x, Some y => Some (16 * x + y)
        | _, _ => None
        end
      else None
  | _ => None
  end.

Lemma length_fmt_x n x : length (fmt_x n x) = n.
Proof. revert x; induction n; intros; simpl; [done|]. rewrite length_app, IHn. simpl. lia. Qed.

Lemma xtoi2_fmt_x x e r :
  0 <= x < 256 -> (r = [] \/ exists t, r = e :: t) -> xtoi2 (fmt_x 2 x ++ r) e = Some x.
Proof.
  intros Hx Hr. unfold fmt_x. simpl.
  assert (E : (match r with [] => true | c :: _ => c =? e end) = true).
  { destruct Hr as [->|[t ->]]; [done|]. apply Z.eqb_refl. }
  rewrite E, !hex_val_digit by (Z.div_mod_to_equations; lia).
  f_equal. Z.div_mod_to_equations. lia.
Qed.

(** ** Different numbers have different texts *)

Lemma byte_of_ascii_inj a b : byte_of_ascii a = byte_of_ascii b -> a = b.
Proof. unfold byte_of_ascii. intros E. apply N2Z.inj in E. by rewrite <- (ascii_N_embedding a), E, ascii_N_embedding. Qed.

Lemma str_inj s t : str s = str t -> s = t.
Proof.
  revert t. induction s as [|a s IH]; intros [|b t]; cbn; try done. intros [= E1 E2]. apply byte_of_ascii_inj in E1 as ->.
  by rewrite (IH t).
Qed.

Lemma fmt_d_inj x y : fmt_d x = fmt_d y -> x = y.
Proof. unfold fmt_d. intros E. apply str_inj in E. by apply (inj pretty) in E. Qed.
