(* ===== verification/Types.v ===== *)
(** * Package types: protocol constants and addresses

    [src/types/const.go], [ipv4.go], [ipv6.go] and [mac.go]. An [IPv4Address]
    is a [uint32]; an [IPv6Address] is its 16 bytes and a [MACAddress] its 6. *)

From Stdlib Require Import ZArith Lia String.
From stdpp Require Import base list numbers option strings.
From S2P Require Import Prelude Text.

Open Scope Z_scope.

(* go: types/const.go EtherAddrLen *)
Definition EtherAddrLen : Z := 6.
(* go: types/const.go IPv4AddrLen *)
Definition IPv4AddrLen : Z := 4.
(* go: types/const.go IPv6AddrLen *)
Definition IPv6AddrLen : Z := 16.

(* go: types/const.go IPV4Number *)
Definition IPV4Number : Z := 0x0800.
(* go: types/const.go ARPNumber *)
Definition ARPNumber : Z := 0x0806.
(* go: types/const.go VLANNumber *)
Definition VLANNumber : Z := 0x8100.
(* go: types/const.go MPLSNumber *)
Definition MPLSNumber : Z := 0x8847.
(* go: types/const.go IPV6Number *)
Definition IPV6Number : Z := 0x86dd.
(* go: types/const.go SwapIPV4Number *)
Definition SwapIPV4Number : Z := 0x0008.
(* go: types/const.go SwapARPNumber *)
Definition SwapARPNumber : Z := 0x0608.
(* go: types/const.go SwapVLANNumber *)
Definition SwapVLANNumber : Z := 0x0081.
(* go: types/const.go SwapMPLSNumber *)
Definition SwapMPLSNumber : Z := 0x4788.
(* go: types/const.go SwapIPV6Number *)
Definition SwapIPV6Number : Z := 0xdd86.

(* go: types/const.go ICMPNumber *)
Definition ICMPNumber : Z := 0x01.
(* go: types/const.go IPNumber *)
Definition IPNumber : Z := 0x04.
(* go: types/const.go TCPNumber *)
Definition TCPNumber : Z := 0x06.
(* go: types/const.go UDPNumber *)
Definition UDPNumber : Z := 0x11.
(* go: types/const.go GRENumber *)
Definition GRENumber : Z := 0x2f.
(* go: types/const.go ICMPv6Number *)
Definition ICMPv6Number : Z := 0x3a.
(* go: types/const.go NoNextHeader *)
Definition NoNextHeader : Z := 0x3b.

(* go: types/const.go ICMPTypeEchoRequest *)
Definition ICMPTypeEchoRequest : Z := 8.
(* go: types/const.go ICMPTypeEchoResponse *)
Definition ICMPTypeEchoResponse : Z := 0.
(* go: types/const.go ICMPv6TypeEchoRequest *)
Definition ICMPv6TypeEchoRequest : Z := 128.
(* go: types/const.go ICMPv6TypeEchoResponse *)
Definition ICMPv6TypeEchoResponse : Z := 129.
(* go: types/const.go ICMPv6TypeRouterSolicitation *)
Definition ICMPv6TypeRouterSolicitation : Z := 133.
(* go: types/const.go ICMPv6TypeRouterAdvertisement *)
Definition ICMPv6TypeRouterAdvertisement : Z := 134.
(* go: types/const.go ICMPv6NeighborSolicitation *)
Definition ICMPv6NeighborSolicitation : Z := 135.
(* go: types/const.go ICMPv6NeighborAdvertisement *)
Definition ICMPv6NeighborAdvertisement : Z := 136.

(* go: types/const.go EtherLen *)
Definition EtherLen : Z := 14.
(* go: types/const.go VLANLen *)
Definition VLANLen : Z := 4.
(* go: types/const.go MPLSLen *)
Definition MPLSLen : Z := 4.
(* go: types/const.go IPv4MinLen *)
Definition IPv4MinLen : Z := 20.
(* go: types/const.go IPv6Len *)
Definition IPv6Len : Z := 40.
(* go: types/const.go ICMPLen *)
Definition ICMPLen : Z := 8.
(* go: types/const.go TCPMinLen *)
Definition TCPMinLen : Z := 20.
(* go: types/const.go UDPLen *)
Definition UDPLen : Z := 8.
(* go: types/const.go ARPLen *)
Definition ARPLen : Z := 28.
(* go: types/const.go VXLANLen *)
Definition VXLANLen : Z := 8.

(* go: types/const.go TCPMinDataOffset *)
Definition TCPMinDataOffset : Z := 0x50.
(* go: types/const.go IPv4VersionIhl *)
Definition IPv4VersionIhl : Z := 0x45.
(* go: types/const.go IPv6VtcFlow *)
Definition IPv6VtcFlow : Z := 0x60.

(** ** IPv4 *)

(* go: types/ipv4.go BytesToIPv4 *)
Definition BytesToIPv4 (a b c d : Z) : Z :=
  Z.lor (Z.lor (Z.lor (u32 (Z.shiftl d 24)) (u32 (Z.shiftl c 16))) (u32 (Z.shiftl b 8))) a.

(* go: types/ipv4.go ArrayToIPv4 *)
Definition ArrayToIPv4 (a : list Z) : Z :=
  Z.lor (Z.lor (Z.lor (u32 (Z.shiftl (a !!! 3%nat) 24)) (u32 (Z.shiftl (a !!! 2%nat) 16)))
          (u32 (Z.shiftl (a !!! 1%nat) 8))) (a !!! 0%nat).

(** Indexing past the end of a slice panics. *)
(* go: types/ipv4.go SliceToIPv4 *)
Definition SliceToIPv4 (s : list Z) : option Z :=
  match s !! 3%nat, s !! 2%nat, s !! 1%nat, s !! 0%nat with
  | Some d, Some c, Some b, Some a =>
      Some (Z.lor (Z.lor (Z.lor (u32 (Z.shiftl d 24)) (u32 (Z.shiftl c 16)))
              (u32 (Z.shiftl b 8))) a)
  | _, _, _, _ => None
  end.

(* go: types/ipv4.go IPv4ToBytes *)
Definition IPv4ToBytes (v : Z) : list Z :=
  [u8 v; u8 (Z.shiftr v 8); u8 (Z.shiftr v 16); u8 (Z.shiftr v 24)].

Definition dot : list Z := str ".".
Definition colon : list Z := str ":".

(* go: types/ipv4.go IPv4Address.String *)
Definition IPv4Address_String (addr : Z) : list Z :=
  fmt_d (u8 addr) ++ dot ++ fmt_d (u8 (Z.shiftr addr 8)) ++ dot ++
  fmt_d (u8 (Z.shiftr addr 16)) ++ dot ++ fmt_d (u8 (Z.shiftr addr 24)).

(* go: types/ipv4.go IPv4ArrayToString *)
Definition IPv4ArrayToString (addr : list Z) : list Z :=
  fmt_d (addr !!! 0%nat) ++ dot ++ fmt_d (addr !!! 1%nat) ++ dot ++
  fmt_d (addr !!! 2%nat) ++ dot ++ fmt_d (addr !!! 3%nat).

(** ** IPv6 *)

(* go: types/ipv6.go IPv6Address.String *)
Definition IPv6Address_String (addr : list Z) : list Z :=
  let g i := fmt_x 2 (addr !!! i) ++ fmt_x 2 (addr !!! S i) in
  str "[" ++ g 0%nat ++ colon ++ g 2%nat ++ colon ++ g 4%nat ++ colon ++ g 6%nat ++ colon ++
  g 8%nat ++ colon ++ g 10%nat ++ colon ++ g 12%nat ++ colon ++ g 14%nat ++ str "]".

(** ** MAC *)

(* go: types/mac.go MACAddress.String *)
Definition MACAddress_String (mac : list Z) : list Z :=
  fmt_x 2 (mac !!! 0%nat) ++ colon ++ fmt_x 2 (mac !!! 1%nat) ++ colon ++
  fmt_x 2 (mac !!! 2%nat) ++ colon ++ fmt_x 2 (mac !!! 3%nat) ++ colon ++
  fmt_x 2 (mac !!! 4%nat) ++ colon ++ fmt_x 2 (mac !!! 5%nat).

(** [net.ParseMAC] of the standard library: groups of two digits split by [':']
    or ['-'], or of four split by ['.'], for 6, 8 or 20 bytes. *)
Fixpoint parse_pairs (n : nat) (s : list Z) (sep : Z) : option (list Z) :=
  match n with
  | O => Some []
  | S k =>
      match xtoi2 s sep, parse_pairs k (drop 3 s) sep with
      | Some b, Some r => Some (b :: r)
      | _, _ => None
      end
  end.

Fixpoint parse_quads (n : nat) (s : list Z) (sep : Z) : option (list Z) :=
  match n with
  | O => Some []
  | S k =>
      match xtoi2 (take 2 s) 0, xtoi2 (drop 2 s) sep, parse_quads k (drop 5 s) sep with
      | Some a, Some b, Some r => Some (a :: b :: r)
      | _, _, _ => None
      end
  end.

Definition mac_len (n : nat) : bool := ((n =? 6) || (n =? 8) || (n =? 20))%nat.

Definition ParseMAC (s : list Z) : option (list Z) :=
  if (length s <? 14)%nat then None
  else
    let c2 := s !!! 2%nat in
    let c4 := s !!! 4%nat in
    if (c2 =? 58) || (c2 =? 45) then
      let n := ((length s + 1) / 3)%nat in
      if negb ((length s + 1) mod 3 =? 0)%nat || negb (mac_len n) then None
      else parse_pairs n s c2
    else if c4 =? 46 then
      let n := (2 * (length s + 1) / 5)%nat in
      if negb ((length s + 1) mod 5 =? 0)%nat || negb (mac_len n) then None
      else parse_quads (n / 2) s c4
    else None.

(** [copy] into the zeroed [MACAddress]: the first six bytes of the address. *)
(* go: types/mac.go StringToMACAddress *)
Definition StringToMACAddress (s : list Z) : option (list Z) :=
  match ParseMAC s with
  | None => None
  | Some hw => Some (take 6 hw ++ replicate (6 - length hw) 0)
  end.

(** ** Properties *)

Lemma IPv4ToBytes_le v : 0 <= v < 4294967296 -> IPv4ToBytes v = le_bytes 4 v.
Proof.
  intros Hv. unfold IPv4ToBytes, u8. rewrite !Z.shiftr_div_pow2 by lia.
  change (2 ^ 16) with (2 ^ 8 * 2 ^ 8). change (2 ^ 24) with (2 ^ 8 * (2 ^ 8 * 2 ^ 8)).
  rewrite <- !Z.div_div by lia. done.
Qed.

Lemma BytesToIPv4_le a b c d :
  byte_ok a -> byte_ok b -> byte_ok c -> byte_ok d ->
  BytesToIPv4 a b c d = le_val [a; b; c; d].
Proof.
  unfold byte_ok. intros Ha Hb Hc Hd. unfold BytesToIPv4.
  rewrite !u32_small by (rewrite Z.shiftl_mul_pow2 by lia; lia).
  replace (Z.shiftl d 24) with (Z.shiftl (Z.shiftl d 8) 16) by (by rewrite Z.shiftl_shiftl).
  rewrite <- Z.shiftl_lor, (lor_shiftl_add d c 8) by lia.
  replace (Z.shiftl ((d * 2 ^ 8 + c)) 16) with (Z.shiftl (Z.shiftl ((d * 2 ^ 8 + c)) 8) 8)
    by (by rewrite Z.shiftl_shiftl).
  rewrite <- Z.shiftl_lor, (lor_shiftl_add _ b 8) by lia.
  rewrite (lor_shiftl_add _ a 8) by lia. simpl. lia.
Qed.

(** Converting an IPv4 address to its bytes and back, and back again. *)
Theorem IPv4_bytes_roundtrip v bs :
  0 <= v < 4294967296 -> Forall byte_ok bs -> length bs = 4%nat ->
  ArrayToIPv4 (IPv4ToBytes v) = v /\ SliceToIPv4 (IPv4ToBytes v) = Some v /\
  IPv4ToBytes (ArrayToIPv4 bs) = bs.
Proof.
  intros Hv Hbs Hlen.
  assert (A : forall a b c d, Forall byte_ok [a;b;c;d] -> ArrayToIPv4 [a;b;c;d] = le_val [a;b;c;d]).
  { intros a b c d F. rewrite !Forall_cons in F. destruct F as (?&?&?&?&_).
    by apply BytesToIPv4_le. }
  assert (B : ArrayToIPv4 (IPv4ToBytes v) = v).
  { unfold IPv4ToBytes at 1. rewrite A.
    - change [_; _; _; _] with (IPv4ToBytes v). rewrite IPv4ToBytes_le, le_val_bytes by done.
      by apply Z.mod_small.
    - repeat constructor; apply u8_range. }
  split_and!; [done| |].
  - unfold SliceToIPv4. simpl. f_equal. exact B.
  - destruct bs as [|a [|b [|c [|d [|]]]]]; try done.
    rewrite A, IPv4ToBytes_le by (first [done|exact (le_val_range _ Hbs)]).
    exact (le_bytes_val _ Hbs).
Qed.

(** Printing a MAC address and parsing it gives the address back. *)
Theorem MACAddress_String_roundtrip mac :
  length mac = 6%nat -> Forall byte_ok mac ->
  StringToMACAddress (MACAddress_String mac) = Some mac.
Proof.
  intros Hl F.
  destruct mac as [|a [|b [|c [|d [|e [|f [|]]]]]]]; try done.
  repeat (apply Forall_cons in F as [? F]). unfold byte_ok in *.
  assert (P : parse_pairs 6 (MACAddress_String [a;b;c;d;e;f]) 58 = Some [a;b;c;d;e;f]).
  { unfold MACAddress_String, colon. cbn [parse_pairs].
    rewrite !(xtoi2_fmt_x a), ?drop_app_length' by eauto.
    repeat match goal with
    | |- context [drop 3 (fmt_x 2 ?x ++ str ":" ++ ?r)] =>
        change (drop 3 (fmt_x 2 x ++ str ":" ++ r)) with r
    | |- context [xtoi2 (fmt_x 2 ?x ++ ?r) 58] =>
        rewrite (xtoi2_fmt_x x 58 r) by (auto; right; eauto)
    end.
    rewrite <- (app_nil_r (fmt_x 2 _)). rewrite xtoi2_fmt_x by auto. done. }
  unfold StringToMACAddress, ParseMAC.
  change (length (MACAddress_String [a; b; c; d; e; f])) with 17%nat.
  change (MACAddress_String [a; b; c; d; e; f] !!! 2%nat) with 58.
  simpl ((17 <? 14)%nat). cbv iota zeta. simpl (58 =? 58). cbn [orb].
  change ((17 + 1) / 3)%nat with 6%nat. change (negb ((17 + 1) mod 3 =? 0)%nat || negb (mac_len 6)) with false.
  cbv iota. rewrite P. done.
Qed.
