(* ===== verification/Mbuf.v ===== *)
(** * Package mbuf: the packet buffer descriptor

    [src/mbuf/mbuf.go]. An [Mbuf] is the part of [struct rte_mbuf] the Go code
    touches: the buffer address and length, the data offset and length (all
    [uint16]), the total packet length ([uint32]) and the links. Operations that
    succeed or refuse return the Go [bool] with the new descriptor; the ones
    that touch packet bytes take and return the memory. *)

From Stdlib Require Import ZArith Lia String.
From stdpp Require Import base list numbers option gmap.
From S2P Require Import Prelude Memory Text.

Open Scope Z_scope.

(* go: mbuf/mbuf.go 65-66 Mbuf *)
Record Mbuf := mkMbuf {
  buf_addr : Z;
  data_off : Z;
  data_len : Z;
  pkt_len : Z;
  buf_len : Z;
  next : Z;
  pool : Z;
  priv_size : Z;
  hash_rss : Z
}.

Definition set_data (off len plen : Z) (mb : Mbuf) : Mbuf :=
  mkMbuf (buf_addr mb) off len plen (buf_len mb) (next mb) (pool mb) (priv_size mb)
    (hash_rss mb).

(** A slice whose bytes stay in the buffer: its address and length. *)
Record Slice := mkSlice { s_ptr : Z; s_len : Z }.

Definition slice_bytes (m : mem) (s : Slice) : option (list Z) :=
  load_bytes m (s_ptr s) (Z.to_nat (s_len s)).

Section PacketStructSize.
(** [C.RTE_PKTMBUF_HEADROOM], a build-time constant of DPDK. *)
Variable RTE_PKTMBUF_HEADROOM : Z.

(** The error, whether the warning about a small headroom is printed, and the
    new value of the package variable. *)
(* go: mbuf/mbuf.go SetPacketStructSize *)
Definition SetPacketStructSize (t packetStructSize : Z) : option (list Z) * bool * Z :=
  if RTE_PKTMBUF_HEADROOM <? t then
    (Some (str "Packet structure can't be placed inside mbuf."), false, packetStructSize)
  else
    let minPacketHeadroom := 64 in
    (None, RTE_PKTMBUF_HEADROOM - t <? minPacketHeadroom, t).
End PacketStructSize.

(* go: mbuf/mbuf.go PrependMbuf *)
Definition PrependMbuf (packetStructSize : Z) (mb : Mbuf) (length : Z) : bool * Mbuf :=
  if u16 (data_off mb - u16 packetStructSize) <? u16 length then (false, mb)
  else
    (true, set_data (u16 (data_off mb - u16 length)) (u16 (data_len mb + u16 length))
             (u32 (pkt_len mb + u32 length)) mb).

(* go: mbuf/mbuf.go AppendMbuf *)
Definition AppendMbuf (mb : Mbuf) (length : Z) : bool * Mbuf :=
  if u16 (u16 (buf_len mb - data_off mb) - data_len mb) <? u16 length then (false, mb)
  else
    (true, set_data (data_off mb) (u16 (data_len mb + u16 length))
             (u32 (pkt_len mb + u32 length)) mb).

(* go: mbuf/mbuf.go AdjMbuf *)
Definition AdjMbuf (m : Mbuf) (length : Z) : bool * Mbuf :=
  if data_len m <? u16 length then (false, m)
  else
    (true, set_data (u16 (data_off m + u16 length)) (u16 (data_len m - u16 length))
             (u32 (pkt_len m - u32 length)) m).

(* go: mbuf/mbuf.go TrimMbuf *)
Definition TrimMbuf (m : Mbuf) (length : Z) : bool * Mbuf :=
  if data_len m <? u16 length then (false, m)
  else
    (true, set_data (data_off m) (u16 (data_len m - u16 length))
             (u32 (pkt_len m - u32 length)) m).

(* go: mbuf/mbuf.go GetPacketDataStartPointer *)
Definition GetPacketDataStartPointer (mb : Mbuf) : Z := ptr_add (buf_addr mb) (data_off mb).

(** Slicing past [types.MaxLength] panics; [copy] stores the whole of [data]. *)
(* go: mbuf/mbuf.go WriteDataToMbuf *)
Definition WriteDataToMbuf (m : mem) (mb : Mbuf) (data : list Z) : option mem :=
  let d := GetPacketDataStartPointer mb in
  if (d =? 0) || (2147483647 <? Z.of_nat (length data)) then None
  else store_bytes m d data.

(* go: mbuf/mbuf.go SetNextMbuf *)
Definition SetNextMbuf (nxt : Z) (prev : Mbuf) : Mbuf :=
  mkMbuf (buf_addr prev) (data_off prev) (data_len prev) (pkt_len prev) (buf_len prev) nxt
    (pool prev) (priv_size prev) (hash_rss prev).

(* go: mbuf/mbuf.go GetRawPacketBytesMbuf *)
Definition GetRawPacketBytesMbuf (mb : Mbuf) : Slice :=
  mkSlice (ptr_add (buf_addr mb) (data_off mb)) (data_len mb).

(* go: mbuf/mbuf.go GetPktLenMbuf *)
Definition GetPktLenMbuf (mb : Mbuf) : Z := pkt_len mb.
(* go: mbuf/mbuf.go GetDataLenMbuf *)
Definition GetDataLenMbuf (mb : Mbuf) : Z := data_len mb.
(* go: mbuf/mbuf.go Mbuf.Mempool *)
Definition Mempool (m : Mbuf) : Z := pool m.
(* go: mbuf/mbuf.go Mbuf.PrivSize *)
Definition PrivSize (m : Mbuf) : Z := priv_size m.
(* go: mbuf/mbuf.go Mbuf.L2 *)
Definition Mbuf_L2 (m : Mbuf) : Z := ptr_add (buf_addr m) (data_off m).
(* go: mbuf/mbuf.go Mbuf.Data *)
Definition Mbuf_Data (m : Mbuf) : Slice :=
  mkSlice (ptr_add (buf_addr m) (data_off m)) (data_len m).
(* go: mbuf/mbuf.go Mbuf.PktLen *)
Definition PktLen (m : Mbuf) : Z := pkt_len m.
(* go: mbuf/mbuf.go Mbuf.Next *)
Definition Next (m : Mbuf) : Z := next m.
(* go: mbuf/mbuf.go Mbuf.HeadRoomSize *)
Definition HeadRoomSize (m : Mbuf) : Z := data_off m.
(* go: mbuf/mbuf.go Mbuf.TailRoomSize *)
Definition TailRoomSize (m : Mbuf) : Z := u16 (u16 (buf_len m - data_off m) - data_len m).
(* go: mbuf/mbuf.go Mbuf.BufLen *)
Definition BufLen (m : Mbuf) : Z := buf_len m.
(* go: mbuf/mbuf.go Mbuf.HashRss *)
Definition HashRss (m : Mbuf) : Z := hash_rss m.

(** [PrivData] points [ptr] at the private area, right behind the descriptor
    at address [self]; [sizeof_mbuf] is [unsafe.Sizeof( *m)]. *)
(* go: mbuf/mbuf.go Mbuf.PrivData *)
Definition PrivData (sizeof_mbuf self : Z) (m : Mbuf) : Slice :=
  mkSlice (ptr_add self sizeof_mbuf) (priv_size m).

(** ** Invariant

    The data area lies in the buffer, the buffer does not wrap around the
    address space, and the packet is one segment. *)
Record wf_mbuf (mb : Mbuf) : Prop := {
  wf_off : 0 <= data_off mb;
  wf_len : 0 <= data_len mb;
  wf_fit : data_off mb + data_len mb <= buf_len mb;
  wf_buf : buf_len mb < 65536;
  wf_seg : pkt_len mb = data_len mb;
  wf_addr : 0 < buf_addr mb;
  wf_nowrap : buf_addr mb + buf_len mb < 18446744073709551616
}.

Lemma Mbuf_L2_wf mb : wf_mbuf mb -> Mbuf_L2 mb = buf_addr mb + data_off mb.
Proof. intros []. unfold Mbuf_L2, ptr_add. apply u64_small. lia. Qed.

(** What the four length operations do on a descriptor in the invariant and a
    length that fits a [uint16]: each succeeds exactly when the room it needs
    is there, moves the data window by [length] and leaves the rest alone. *)
Definition shifted (mb mb' : Mbuf) (doff dlen : Z) : Prop :=
  mb' = set_data (data_off mb + doff) (data_len mb + dlen) (pkt_len mb + dlen) mb.

Lemma TailRoomSize_wf mb :
  wf_mbuf mb -> TailRoomSize mb = buf_len mb - data_off mb - data_len mb.
Proof. intros []. unfold TailRoomSize. rewrite (u16_small (buf_len _ - _)), u16_small; lia. Qed.

Ltac mbuf_op :=
  match goal with
  | |- (if ?a <? ?b then _ else _) = _ => destruct (Z.ltb_spec a b); try lia
  end;
  first [done | unfold set_data; do 2 f_equal; zlia].

Lemma AppendMbuf_ok mb n :
  wf_mbuf mb -> 0 <= n <= TailRoomSize mb ->
  AppendMbuf mb n =
    (true, set_data (data_off mb) (data_len mb + n) (data_len mb + n) mb).
Proof.
  intros W Hn. rewrite TailRoomSize_wf in Hn by done. unfold AppendMbuf.
  fold (TailRoomSize mb). rewrite TailRoomSize_wf by done. destruct W.
  rewrite (u16_small n), (u32_small n) by lia. mbuf_op.
Qed.

Lemma AppendMbuf_fail mb n :
  wf_mbuf mb -> TailRoomSize mb < n < 65536 -> AppendMbuf mb n = (false, mb).
Proof.
  intros W Hn. unfold AppendMbuf. fold (TailRoomSize mb). rewrite TailRoomSize_wf in * by done.
  destruct W. rewrite u16_small by lia. mbuf_op.
Qed.

Lemma PrependMbuf_ok pss mb n :
  wf_mbuf mb -> 0 <= pss <= data_off mb -> 0 <= n <= data_off mb - pss ->
  PrependMbuf pss mb n =
    (true, set_data (data_off mb - n) (data_len mb + n) (data_len mb + n) mb).
Proof.
  intros [] ? ?. unfold PrependMbuf.
  rewrite (u16_small pss), (u16_small (_ - pss)), (u16_small n), (u32_small n) by lia. mbuf_op.
Qed.

Lemma PrependMbuf_fail pss mb n :
  wf_mbuf mb -> 0 <= pss <= data_off mb -> data_off mb - pss < n < 65536 ->
  PrependMbuf pss mb n = (false, mb).
Proof.
  intros [] ? ?. unfold PrependMbuf.
  rewrite (u16_small pss), (u16_small (_ - pss)), (u16_small n) by lia. mbuf_op.
Qed.

Lemma AdjMbuf_ok mb n :
  wf_mbuf mb -> 0 <= n <= data_len mb ->
  AdjMbuf mb n = (true, set_data (data_off mb + n) (data_len mb - n) (data_len mb - n) mb).
Proof.
  intros [] ?. unfold AdjMbuf. rewrite (u16_small n), (u32_small n) by lia. mbuf_op.
Qed.

Lemma AdjMbuf_fail mb n :
  wf_mbuf mb -> data_len mb < n < 65536 -> AdjMbuf mb n = (false, mb).
Proof. intros [] ?. unfold AdjMbuf. rewrite (u16_small n) by lia. mbuf_op. Qed.

Lemma TrimMbuf_ok mb n :
  wf_mbuf mb -> 0 <= n <= data_len mb ->
  TrimMbuf mb n = (true, set_data (data_off mb) (data_len mb - n) (data_len mb - n) mb).
Proof.
  intros [] ?. unfold TrimMbuf. rewrite (u16_small n), (u32_small n) by lia. mbuf_op.
Qed.

Lemma TrimMbuf_fail mb n :
  wf_mbuf mb -> data_len mb < n < 65536 -> TrimMbuf mb n = (false, mb).
Proof. intros [] ?. unfold TrimMbuf. rewrite (u16_small n) by lia. mbuf_op. Qed.

Lemma wf_set_data mb off len :
  wf_mbuf mb -> 0 <= off -> 0 <= len -> off + len <= buf_len mb ->
  wf_mbuf (set_data off len len mb).
Proof. intros [] ???. by split. Qed.

(** The length operations of the package, as one transition relation on
    descriptors. *)
Inductive mbuf_step (pss : Z) : Mbuf -> Mbuf -> Prop :=
| step_prepend mb n b mb' : 0 <= n < 65536 -> PrependMbuf pss mb n = (b, mb') -> mbuf_step pss mb mb'
| step_append mb n b mb' : 0 <= n < 65536 -> AppendMbuf mb n = (b, mb') -> mbuf_step pss mb mb'
| step_adj mb n b mb' : 0 <= n < 65536 -> AdjMbuf mb n = (b, mb') -> mbuf_step pss mb mb'
| step_trim mb n b mb' : 0 <= n < 65536 -> TrimMbuf mb n = (b, mb') -> mbuf_step pss mb mb'.

Definition reachable (pss : Z) : Mbuf -> Mbuf -> Prop := rtc (mbuf_step pss).

Lemma mbuf_step_inv pss mb mb' :
  0 <= pss -> mbuf_step pss mb mb' -> wf_mbuf mb -> pss <= data_off mb ->
  wf_mbuf mb' /\ pss <= data_off mb' /\ buf_addr mb' = buf_addr mb /\ buf_len mb' = buf_len mb.
Proof.
  intros Hp S W Ho. pose proof W as W'. destruct W'.
  destruct S as [mb n b mb' Hn E|mb n b mb' Hn E|mb n b mb' Hn E|mb n b mb' Hn E].
  - destruct (decide (n <= data_off mb - pss)).
    + rewrite PrependMbuf_ok in E by (done || lia). simplify_eq. simpl.
      split_and!; [apply wf_set_data|..]; (done || lia).
    + rewrite PrependMbuf_fail in E by (done || lia). by simplify_eq.
  - destruct (decide (n <= TailRoomSize mb)) as [Ht|].
    + rewrite AppendMbuf_ok in E by (done || lia). rewrite TailRoomSize_wf in Ht by done.
      simplify_eq. simpl. split_and!; [apply wf_set_data|..]; (done || lia).
    + rewrite AppendMbuf_fail in E by (done || lia). by simplify_eq.
  - destruct (decide (n <= data_len mb)).
    + rewrite AdjMbuf_ok in E by (done || lia). simplify_eq. simpl.
      split_and!; [apply wf_set_data|..]; (done || lia).
    + rewrite AdjMbuf_fail in E by (done || lia). by simplify_eq.
  - destruct (decide (n <= data_len mb)).
    + rewrite TrimMbuf_ok in E by (done || lia). simplify_eq. simpl.
      split_and!; [apply wf_set_data|..]; (done || lia).
    + rewrite TrimMbuf_fail in E by (done || lia). by simplify_eq.
Qed.

(** ** Properties *)

(** On a descriptor in the invariant and a length that fits a [uint16],
    each of the four length operations succeeds exactly when the room it needs
    is there; then it moves the data window by [n] and keeps [pkt_len] in step
    with [data_len], and otherwise it changes nothing. *)
Theorem mbuf_ops_spec pss mb n :
  wf_mbuf mb -> 0 <= pss <= data_off mb -> 0 <= n < 65536 ->
  PrependMbuf pss mb n =
    (if n <=? HeadRoomSize mb - pss
     then (true, set_data (data_off mb - n) (data_len mb + n) (pkt_len mb + n) mb)
     else (false, mb)) /\
  AppendMbuf mb n =
    (if n <=? TailRoomSize mb
     then (true, set_data (data_off mb) (data_len mb + n) (pkt_len mb + n) mb)
     else (false, mb)) /\
  AdjMbuf mb n =
    (if n <=? GetDataLenMbuf mb
     then (true, set_data (data_off mb + n) (data_len mb - n) (pkt_len mb - n) mb)
     else (false, mb)) /\
  TrimMbuf mb n =
    (if n <=? GetDataLenMbuf mb
     then (true, set_data (data_off mb) (data_len mb - n) (pkt_len mb - n) mb)
     else (false, mb)).
Proof.
  intros W Hp Hn. unfold HeadRoomSize, GetDataLenMbuf. rewrite (wf_seg _ W).
  split_and!; destruct (Z.leb_spec n (data_off mb - pss)), (Z.leb_spec n (TailRoomSize mb)),
    (Z.leb_spec n (data_len mb));
    first [apply PrependMbuf_ok|apply PrependMbuf_fail|apply AppendMbuf_ok|apply AppendMbuf_fail
          |apply AdjMbuf_ok|apply AdjMbuf_fail|apply TrimMbuf_ok|apply TrimMbuf_fail];
    (done || lia).
Qed.

Definition sample_mbuf : Mbuf := mkMbuf 4096 128 60 60 2048 0 0 64 0.

Lemma sample_mbuf_wf : wf_mbuf sample_mbuf.
Proof. split; simpl; lia. Qed.

Lemma mbuf_ops_spec_witness :
  PrependMbuf 120 sample_mbuf 8 = (true, mkMbuf 4096 120 68 68 2048 0 0 64 0) /\
  PrependMbuf 120 sample_mbuf 9 = (false, sample_mbuf).
Proof.
  split.
  - rewrite (proj1 (mbuf_ops_spec 120 sample_mbuf 8 sample_mbuf_wf ltac:(simpl; lia) ltac:(lia))).
    reflexivity.
  - rewrite (proj1 (mbuf_ops_spec 120 sample_mbuf 9 sample_mbuf_wf ltac:(simpl; lia) ltac:(lia))).
    reflexivity.
Defined.

(** C37. Whatever sequence of length operations runs on a descriptor, with
    lengths that fit a [uint16], the data window stays inside the buffer, the
    packet stays one consistent segment, and the bytes reserved for the Go
    [Packet] structure at the head are never given away. *)
Theorem mbuf_reachable_invariant pss mb mb' :
  0 <= pss -> wf_mbuf mb -> pss <= data_off mb -> reachable pss mb mb' ->
  wf_mbuf mb' /\ pss <= data_off mb' /\ buf_addr mb' = buf_addr mb /\ buf_len mb' = buf_len mb.
Proof.
  intros Hp W Ho R. induction R as [mb|mb mb1 mb2 S _ IH]; [done|].
  destruct (mbuf_step_inv _ _ _ Hp S W Ho) as (W1 & O1 & A1 & L1).
  destruct (IH W1 O1) as (? & ? & ? & ?). split_and!; (done || congruence).
Qed.

Lemma mbuf_reachable_invariant_witness :
  exists mb', reachable 120 sample_mbuf mb' /\ data_len mb' = 48 /\ wf_mbuf mb'.
Proof.
  assert (R : reachable 120 sample_mbuf (mkMbuf 4096 140 48 48 2048 0 0 64 0)).
  { eapply rtc_l; [apply (step_adj _ _ 12 true)|apply rtc_refl]; [lia|reflexivity]. }
  exists (mkMbuf 4096 140 48 48 2048 0 0 64 0). split_and!; [done|done|].
  apply (mbuf_reachable_invariant 120 sample_mbuf);
    [lia|apply sample_mbuf_wf|simpl; lia|exact R].
Defined.

(** The head and the tail of a packet give back what was taken: trimming
    undoes appending and adjusting undoes prepending. *)
Theorem mbuf_roundtrip pss mb n :
  wf_mbuf mb -> 0 <= pss <= data_off mb -> 0 <= n ->
  (n <= TailRoomSize mb ->
   exists mb1, AppendMbuf mb n = (true, mb1) /\ TrimMbuf mb1 n = (true, mb)) /\
  (n <= HeadRoomSize mb - pss ->
   exists mb1, PrependMbuf pss mb n = (true, mb1) /\ AdjMbuf mb1 n = (true, mb)).
Proof.
  intros W Hp Hn. pose proof W as []. split; intros H.
  - pose proof (TailRoomSize_wf mb W). eexists. split; [by apply AppendMbuf_ok|].
    rewrite TrimMbuf_ok by (simpl; first [apply wf_set_data; (done || lia)|lia]).
    f_equal. destruct mb; unfold set_data; simpl in *. f_equal; lia.
  - unfold HeadRoomSize in H. eexists. split; [by apply PrependMbuf_ok; (done || lia)|].
    rewrite AdjMbuf_ok by (simpl; first [apply wf_set_data; (done || lia)|lia]).
    f_equal. destruct mb; unfold set_data; simpl in *. f_equal; lia.
Qed.

Lemma mbuf_roundtrip_witness :
  exists mb1, AppendMbuf sample_mbuf 100 = (true, mb1) /\ TrimMbuf mb1 100 = (true, sample_mbuf).
Proof.
  apply (mbuf_roundtrip 120 sample_mbuf 100 sample_mbuf_wf); [simpl; lia|lia|].
  vm_compute; discriminate.
Defined.

(** A length that does not fit a [uint16] is truncated before it is checked
    against the room: appending or prepending 65536 bytes always reports
    success, gives no room and leaves a packet whose [pkt_len] is 65536 past
    its only segment. *)
Theorem AppendMbuf_truncates pss mb :
  wf_mbuf mb -> 0 <= pss <= data_off mb ->
  AppendMbuf mb 65536 = (true, set_data (data_off mb) (data_len mb) (data_len mb + 65536) mb) /\
  PrependMbuf pss mb 65536 = (true, set_data (data_off mb) (data_len mb) (data_len mb + 65536) mb) /\
  ~ wf_mbuf (snd (AppendMbuf mb 65536)).
Proof.
  intros [] ?.
  assert (A : AppendMbuf mb 65536 =
    (true, set_data (data_off mb) (data_len mb) (data_len mb + 65536) mb)).
  { unfold AppendMbuf. fold (TailRoomSize mb). change (u16 65536) with 0. change (u32 65536) with 65536.
    pose proof (u16_range (u16 (buf_len mb - data_off mb) - data_len mb)).
    unfold TailRoomSize. mbuf_op. }
  split_and!; [done| |].
  - unfold PrependMbuf. change (u16 65536) with 0. change (u32 65536) with 65536.
    pose proof (u16_range (data_off mb - u16 pss)). mbuf_op.
  - rewrite A. intros []. simpl in *. lia.
Qed.

Lemma AppendMbuf_truncates_witness :
  fst (AppendMbuf sample_mbuf 65536) = true /\ pkt_len (snd (AppendMbuf sample_mbuf 65536)) = 65596.
Proof.
  destruct (AppendMbuf_truncates 120 sample_mbuf sample_mbuf_wf) as (-> & _ & _); [simpl; lia|].
  split; reflexivity.
Defined.
