(* ===== verification/Headers.v ===== *)
(** * Package packet: the Packet structure and its headers

    [src/packet/packet.go], the types. A [Packet] holds pointers into the packet
    buffer ([0] is nil). Header structures are read and written through those
    pointers, field by field, in the memory of the [World]; a [field] is a
    header field's offset and size in the Go structure, whose layout has no
    padding. The header records are the values of whole headers, for the code
    that only reads them. *)

From Stdlib Require Import ZArith Lia String.
From stdpp Require Import base list numbers option gmap.
From S2P Require Import Prelude Memory Text Types Mbuf.

Open Scope Z_scope.
Open Scope go_scope.

(** ** The Packet structure *)

(* go: packet/packet.go Packet *)
Record Packet := mkPacket {
  L2 : Z;
  L3 : Z;
  L4 : Z;
  Data : Z;
  OuterL2 : Z;
  OuterL3 : Z;
  OuterL4 : Z;
  OuterEther : Z;
  OuterIPv4Hdr : Z;
  OuterUDPHdr : Z;
  VxlanHeader : Z;
  Overlay : bool;
  Ether : Z;
  CMbuf : Z;
  NextPkt : Z
}.

(** Assignments to one field. *)

Definition set_L2 (v : Z) (p : Packet) : Packet :=
  mkPacket v (L3 p) (L4 p) (Data p) (OuterL2 p) (OuterL3 p) (OuterL4 p) (OuterEther p) (OuterIPv4Hdr p) (OuterUDPHdr p) (VxlanHeader p) (Overlay p) (Ether p) (CMbuf p) (NextPkt p).
Definition set_L3 (v : Z) (p : Packet) : Packet :=
  mkPacket (L2 p) v (L4 p) (Data p) (OuterL2 p) (OuterL3 p) (OuterL4 p) (OuterEther p) (OuterIPv4Hdr p) (OuterUDPHdr p) (VxlanHeader p) (Overlay p) (Ether p) (CMbuf p) (NextPkt p).
Definition set_L4 (v : Z) (p : Packet) : Packet :=
  mkPacket (L2 p) (L3 p) v (Data p) (OuterL2 p) (OuterL3 p) (OuterL4 p) (OuterEther p) (OuterIPv4Hdr p) (OuterUDPHdr p) (VxlanHeader p) (Overlay p) (Ether p) (CMbuf p) (NextPkt p).
Definition set_Data (v : Z) (p : Packet) : Packet :=
  mkPacket (L2 p) (L3 p) (L4 p) v (OuterL2 p) (OuterL3 p) (OuterL4 p) (OuterEther p) (OuterIPv4Hdr p) (OuterUDPHdr p) (VxlanHeader p) (Overlay p) (Ether p) (CMbuf p) (NextPkt p).
Definition set_OuterL2 (v : Z) (p : Packet) : Packet :=
  mkPacket (L2 p) (L3 p) (L4 p) (Data p) v (OuterL3 p) (OuterL4 p) (OuterEther p) (OuterIPv4Hdr p) (OuterUDPHdr p) (VxlanHeader p) (Overlay p) (Ether p) (CMbuf p) (NextPkt p).
Definition set_OuterL3 (v : Z) (p : Packet) : Packet :=
  mkPacket (L2 p) (L3 p) (L4 p) (Data p) (OuterL2 p) v (OuterL4 p) (OuterEther p) (OuterIPv4Hdr p) (OuterUDPHdr p) (VxlanHeader p) (Overlay p) (Ether p) (CMbuf p) (NextPkt p).
Definition set_OuterL4 (v : Z) (p : Packet) : Packet :=
  mkPacket (L2 p) (L3 p) (L4 p) (Data p) (OuterL2 p) (OuterL3 p) v (OuterEther p) (OuterIPv4Hdr p) (OuterUDPHdr p) (VxlanHeader p) (Overlay p) (Ether p) (CMbuf p) (NextPkt p).
Definition set_OuterEther (v : Z) (p : Packet) : Packet :=
  mkPacket (L2 p) (L3 p) (L4 p) (Data p) (OuterL2 p) (OuterL3 p) (OuterL4 p) v (OuterIPv4Hdr p) (OuterUDPHdr p) (VxlanHeader p) (Overlay p) (Ether p) (CMbuf p) (NextPkt p).
Definition set_OuterIPv4Hdr (v : Z) (p : Packet) : Packet :=
  mkPacket (L2 p) (L3 p) (L4 p) (Data p) (OuterL2 p) (OuterL3 p) (OuterL4 p) (OuterEther p) v (OuterUDPHdr p) (VxlanHeader p) (Overlay p) (Ether p) (CMbuf p) (NextPkt p).
Definition set_OuterUDPHdr (v : Z) (p : Packet) : Packet :=
  mkPacket (L2 p) (L3 p) (L4 p) (Data p) (OuterL2 p) (OuterL3 p) (OuterL4 p) (OuterEther p) (OuterIPv4Hdr p) v (VxlanHeader p) (Overlay p) (Ether p) (CMbuf p) (NextPkt p).
Definition set_VxlanHeader (v : Z) (p : Packet) : Packet :=
  mkPacket (L2 p) (L3 p) (L4 p) (Data p) (OuterL2 p) (OuterL3 p) (OuterL4 p) (OuterEther p) (OuterIPv4Hdr p) (OuterUDPHdr p) v (Overlay p) (Ether p) (CMbuf p) (NextPkt p).
Definition set_Overlay (v : bool) (p : Packet) : Packet :=
  mkPacket (L2 p) (L3 p) (L4 p) (Data p) (OuterL2 p) (OuterL3 p) (OuterL4 p) (OuterEther p) (OuterIPv4Hdr p) (OuterUDPHdr p) (VxlanHeader p) v (Ether p) (CMbuf p) (NextPkt p).
Definition set_Ether (v : Z) (p : Packet) : Packet :=
  mkPacket (L2 p) (L3 p) (L4 p) (Data p) (OuterL2 p) (OuterL3 p) (OuterL4 p) (OuterEther p) (OuterIPv4Hdr p) (OuterUDPHdr p) (VxlanHeader p) (Overlay p) v (CMbuf p) (NextPkt p).

(** A [Packet] literal [packet.Packet{CMbuf: m}]: every other field is zero. *)
Definition zero_packet (m : Z) : Packet := mkPacket 0 0 0 0 0 0 0 0 0 0 0 false 0 m 0.

(** The process state the packet code works on: memory, the mbuf descriptors by
    address, the packet at hand, and the package variables. *)
Record World := mkWorld {
  heap : mem;
  mbufs : gmap Z Mbuf;
  pkt : Packet;
  hwtxchecksum : bool;
  packetStructSize : Z
}.

Definition set_heap (m : mem) (w : World) : World :=
  mkWorld m (mbufs w) (pkt w) (hwtxchecksum w) (packetStructSize w).
Definition set_mbufs (ms : gmap Z Mbuf) (w : World) : World :=
  mkWorld (heap w) ms (pkt w) (hwtxchecksum w) (packetStructSize w).
Definition set_pkt (p : Packet) (w : World) : World :=
  mkWorld (heap w) (mbufs w) p (hwtxchecksum w) (packetStructSize w).
Definition set_hwtxchecksum (b : bool) (w : World) : World :=
  mkWorld (heap w) (mbufs w) (pkt w) b (packetStructSize w).

Definition getP {A} (f : Packet -> A) : M World A := gets (fun w => f (pkt w)).
Definition putP (f : Packet -> Packet) : M World unit := modify (fun w => set_pkt (f (pkt w)) w).

(** Run a descriptor operation on the mbuf at address [a]; nil panics. *)
Definition on_mbuf {A} (a : Z) (f : Mbuf -> A * Mbuf) : M World A :=
  fun w => match mbufs w !! a with
           | None => None
           | Some mb => let '(r, mb') := f mb in Some (r, set_mbufs (<[a := mb']> (mbufs w)) w)
           end.
Definition of_mbuf {A} (a : Z) (f : Mbuf -> A) : M World A :=
  fun w => match mbufs w !! a with
           | None => None
           | Some mb => Some (f mb, w)
           end.

(** ** Header fields in memory *)

Record field := Field { f_off : Z; f_size : nat }.

(** [h.f] for a header pointer [h]. *)
Definition rd (h : Z) (f : field) : M World Z :=
  fun w => if h =? 0 then None
           else match load_le (heap w) (ptr_add h (f_off f)) (f_size f) with
                | None => None
                | Some v => Some (v, w)
                end.
Definition wr (h : Z) (f : field) (v : Z) : M World unit :=
  fun w => if h =? 0 then None
           else match store_le (heap w) (ptr_add h (f_off f)) (f_size f) v with
                | None => None
                | Some m => Some (tt, set_heap m w)
                end.

(** The same for array fields, which are byte lists. *)
Definition rdb (h : Z) (f : field) : M World (list Z) :=
  fun w => if h =? 0 then None
           else match load_bytes (heap w) (ptr_add h (f_off f)) (f_size f) with
                | None => None
                | Some v => Some (v, w)
                end.
Definition wrb (h : Z) (f : field) (v : list Z) : M World unit :=
  fun w => if h =? 0 then None
           else match store_bytes (heap w) (ptr_add h (f_off f)) v with
                | None => None
                | Some m => Some (tt, set_heap m w)
                end.

(** Loads and stores through a bare pointer: a nil pointer faults because no
    memory is mapped there. *)
Definition peek (p : Z) (n : nat) : M World Z := fun w =>
  match load_le (heap w) p n with
  | None => None
  | Some v => Some (v, w)
  end.

Definition poke (p : Z) (n : nat) (v : Z) : M World unit := fun w =>
  match store_le (heap w) p n v with
  | None => None
  | Some m => Some (tt, set_heap m w)
  end.

(* go: packet/packet.go EtherHdr *)
Module EtherHdr.
Record t := mk {
  DAddr : list Z;
  SAddr : list Z;
  EtherType : Z
}.

Definition DAddr_ : field := Field 0 6.
Definition SAddr_ : field := Field 6 6.
Definition EtherType_ : field := Field 12 2.

Definition size : nat := 14.

Definition encode (h : t) : list Z :=
  DAddr h ++
  SAddr h ++
  le_bytes 2 (EtherType h).

Definition decode (l : list Z) : t :=
  mk (take 6 (drop 0 l))
     (take 6 (drop 6 l))
     (le_val (take 2 (drop 12 l))).

Definition load (m : mem) (p : Z) : option t :=
  if p =? 0 then None else decode <$> load_bytes m p size.
End EtherHdr.

(* go: packet/packet.go IPv4Hdr *)
Module IPv4Hdr.
Record t := mk {
  VersionIhl : Z;
  TypeOfService : Z;
  TotalLength : Z;
  PacketID : Z;
  FragmentOffset : Z;
  TimeToLive : Z;
  NextProtoID : Z;
  HdrChecksum : Z;
  SrcAddr : Z;
  DstAddr : Z
}.

Definition VersionIhl_ : field := Field 0 1.
Definition TypeOfService_ : field := Field 1 1.
Definition TotalLength_ : field := Field 2 2.
Definition PacketID_ : field := Field 4 2.
Definition FragmentOffset_ : field := Field 6 2.
Definition TimeToLive_ : field := Field 8 1.
Definition NextProtoID_ : field := Field 9 1.
Definition HdrChecksum_ : field := Field 10 2.
Definition SrcAddr_ : field := Field 12 4.
Definition DstAddr_ : field := Field 16 4.

Definition size : nat := 20.

Definition encode (h : t) : list Z :=
  le_bytes 1 (VersionIhl h) ++
  le_bytes 1 (TypeOfService h) ++
  le_bytes 2 (TotalLength h) ++
  le_bytes 2 (PacketID h) ++
  le_bytes 2 (FragmentOffset h) ++
  le_bytes 1 (TimeToLive h) ++
  le_bytes 1 (NextProtoID h) ++
  le_bytes 2 (HdrChecksum h) ++
  le_bytes 4 (SrcAddr h) ++
  le_bytes 4 (DstAddr h).

Definition decode (l : list Z) : t :=
  mk (le_val (take 1 (drop 0 l)))
     (le_val (take 1 (drop 1 l)))
     (le_val (take 2 (drop 2 l)))
     (le_val (take 2 (drop 4 l)))
     (le_val (take 2 (drop 6 l)))
     (le_val (take 1 (drop 8 l)))
     (le_val (take 1 (drop 9 l)))
     (le_val (take 2 (drop 10 l)))
     (le_val (take 4 (drop 12 l)))
     (le_val (take 4 (drop 16 l))).

Definition load (m : mem) (p : Z) : option t :=
  if p =? 0 then None else decode <$> load_bytes m p size.
End IPv4Hdr.

(* go: packet/packet.go IPv6Hdr *)
Module IPv6Hdr.
Record t := mk {
  VtcFlow : Z;
  PayloadLen : Z;
  Proto : Z;
  HopLimits : Z;
  SrcAddr : list Z;
  DstAddr : list Z
}.

Definition VtcFlow_ : field := Field 0 4.
Definition PayloadLen_ : field := Field 4 2.
Definition Proto_ : field := Field 6 1.
Definition HopLimits_ : field := Field 7 1.
Definition SrcAddr_ : field := Field 8 16.
Definition DstAddr_ : field := Field 24 16.

Definition size : nat := 40.

Definition encode (h : t) : list Z :=
  le_bytes 4 (VtcFlow h) ++
  le_bytes 2 (PayloadLen h) ++
  le_bytes 1 (Proto h) ++
  le_bytes 1 (HopLimits h) ++
  SrcAddr h ++
  DstAddr h.

Definition decode (l : list Z) : t :=
  mk (le_val (take 4 (drop 0 l)))
     (le_val (take 2 (drop 4 l)))
     (le_val (take 1 (drop 6 l)))
     (le_val (take 1 (drop 7 l)))
     (take 16 (drop 8 l))
     (take 16 (drop 24 l)).

Definition load (m : mem) (p : Z) : option t :=
  if p =? 0 then None else decode <$> load_bytes m p size.
End IPv6Hdr.

(* go: packet/packet.go TCPHdr *)
Module TCPHdr.
Record t := mk {
  SrcPort : Z;
  DstPort : Z;
  SentSeq : Z;
  RecvAck : Z;
  DataOff : Z;
  TCPFlags : Z;
  RxWin : Z;
  Cksum : Z;
  TCPUrp : Z
}.

Definition SrcPort_ : field := Field 0 2.
Definition DstPort_ : field := Field 2 2.
Definition SentSeq_ : field := Field 4 4.
Definition RecvAck_ : field := Field 8 4.
Definition DataOff_ : field := Field 12 1.
Definition TCPFlags_ : field := Field 13 1.
Definition RxWin_ : field := Field 14 2.
Definition Cksum_ : field := Field 16 2.
Definition TCPUrp_ : field := Field 18 2.

Definition size : nat := 20.

Definition encode (h : t) : list Z :=
  le_bytes 2 (SrcPort h) ++
  le_bytes 2 (DstPort h) ++
  le_bytes 4 (SentSeq h) ++
  le_bytes 4 (RecvAck h) ++
  le_bytes 1 (DataOff h) ++
  le_bytes 1 (TCPFlags h) ++
  le_bytes 2 (RxWin h) ++
  le_bytes 2 (Cksum h) ++
  le_bytes 2 (TCPUrp h).

Definition decode (l : list Z) : t :=
  mk (le_val (take 2 (drop 0 l)))
     (le_val (take 2 (drop 2 l)))
     (le_val (take 4 (drop 4 l)))
     (le_val (take 4 (drop 8 l)))
     (le_val (take 1 (drop 12 l)))
     (le_val (take 1 (drop 13 l)))
     (le_val (take 2 (drop 14 l)))
     (le_val (take 2 (drop 16 l)))
     (le_val (take 2 (drop 18 l))).

Definition load (m : mem) (p : Z) : option t :=
  if p =? 0 then None else decode <$> load_bytes m p size.
End TCPHdr.

(* go: packet/packet.go UDPHdr *)
Module UDPHdr.
Record t := mk {
  SrcPort : Z;
  DstPort : Z;
  DgramLen : Z;
  DgramCksum : Z
}.

Definition SrcPort_ : field := Field 0 2.
Definition DstPort_ : field := Field 2 2.
Definition DgramLen_ : field := Field 4 2.
Definition DgramCksum_ : field := Field 6 2.

Definition size : nat := 8.

Definition encode (h : t) : list Z :=
  le_bytes 2 (SrcPort h) ++
  le_bytes 2 (DstPort h) ++
  le_bytes 2 (DgramLen h) ++
  le_bytes 2 (DgramCksum h).

Definition decode (l : list Z) : t :=
  mk (le_val (take 2 (drop 0 l)))
     (le_val (take 2 (drop 2 l)))
     (le_val (take 2 (drop 4 l)))
     (le_val (take 2 (drop 6 l))).

Definition load (m : mem) (p : Z) : option t :=
  if p =? 0 then None else decode <$> load_bytes m p size.
End UDPHdr.

(* go: packet/packet.go ICMPHdr *)
Module ICMPHdr.
Record t := mk {
  MsgType : Z;
  Code : Z;
  Cksum : Z;
  Identifier : Z;
  SeqNum : Z
}.

Definition MsgType_ : field := Field 0 1.
Definition Code_ : field := Field 1 1.
Definition Cksum_ : field := Field 2 2.
Definition Identifier_ : field := Field 4 2.
Definition SeqNum_ : field := Field 6 2.

Definition size : nat := 8.

Definition encode (h : t) : list Z :=
  le_bytes 1 (MsgType h) ++
  le_bytes 1 (Code h) ++
  le_bytes 2 (Cksum h) ++
  le_bytes 2 (Identifier h) ++
  le_bytes 2 (SeqNum h).

Definition decode (l : list Z) : t :=
  mk (le_val (take 1 (drop 0 l)))
     (le_val (take 1 (drop 1 l)))
     (le_val (take 2 (drop 2 l)))
     (le_val (take 2 (drop 4 l)))
     (le_val (take 2 (drop 6 l))).

Definition load (m : mem) (p : Z) : option t :=
  if p =? 0 then None else decode <$> load_bytes m p size.
End ICMPHdr.

(* go: packet/packet.go VXLANHeader *)
Module VXLANHeader.
Record t := mk {
  Flags : Z;
  VNI : Z
}.

Definition Flags_ : field := Field 0 4.
Definition VNI_ : field := Field 4 4.

Definition size : nat := 8.

Definition encode (h : t) : list Z :=
  le_bytes 4 (Flags h) ++
  le_bytes 4 (VNI h).

Definition decode (l : list Z) : t :=
  mk (le_val (take 4 (drop 0 l)))
     (le_val (take 4 (drop 4 l))).

Definition load (m : mem) (p : Z) : option t :=
  if p =? 0 then None else decode <$> load_bytes m p size.
End VXLANHeader.

(* go: packet/arp.go ARPHdr *)
Module ARPHdr.
Record t := mk {
  HType : Z;
  PType : Z;
  HLen : Z;
  PLen : Z;
  Operation : Z;
  SHA : list Z;
  SPA : list Z;
  THA : list Z;
  TPA : list Z
}.

Definition HType_ : field := Field 0 2.
Definition PType_ : field := Field 2 2.
Definition HLen_ : field := Field 4 1.
Definition PLen_ : field := Field 5 1.
Definition Operation_ : field := Field 6 2.
Definition SHA_ : field := Field 8 6.
Definition SPA_ : field := Field 14 4.
Definition THA_ : field := Field 18 6.
Definition TPA_ : field := Field 24 4.

Definition size : nat := 28.

Definition encode (h : t) : list Z :=
  le_bytes 2 (HType h) ++
  le_bytes 2 (PType h) ++
  le_bytes 1 (HLen h) ++
  le_bytes 1 (PLen h) ++
  le_bytes 2 (Operation h) ++
  SHA h ++
  SPA h ++
  THA h ++
  TPA h.

Definition decode (l : list Z) : t :=
  mk (le_val (take 2 (drop 0 l)))
     (le_val (take 2 (drop 2 l)))
     (le_val (take 1 (drop 4 l)))
     (le_val (take 1 (drop 5 l)))
     (le_val (take 2 (drop 6 l)))
     (take 6 (drop 8 l))
     (take 4 (drop 14 l))
     (take 6 (drop 18 l))
     (take 4 (drop 24 l)).

Definition load (m : mem) (p : Z) : option t :=
  if p =? 0 then None else decode <$> load_bytes m p size.
End ARPHdr.

(** ** Running the monad one step at a time *)

Lemma bind_getP {A B} (f : Packet -> A) (k : A -> M World B) w :
  bind (getP f) k w = k (f (pkt w)) w.
Proof. done. Qed.

Lemma bind_putP {B} f (k : unit -> M World B) w :
  bind (putP f) k w = k tt (set_pkt (f (pkt w)) w).
Proof. done. Qed.

Lemma bind_ret {A B} (a : A) (k : A -> M World B) w : bind (ret a) k w = k a w.
Proof. done. Qed.

Lemma bind_on_mbuf {A B} a (f : Mbuf -> A * Mbuf) (k : A -> M World B) w mb :
  mbufs w !! a = Some mb ->
  bind (on_mbuf a f) k w = k (fst (f mb)) (set_mbufs (<[a := snd (f mb)]> (mbufs w)) w).
Proof. intros E. unfold bind, on_mbuf. rewrite E. by destruct (f mb). Qed.

Lemma bind_of_mbuf {A B} a (f : Mbuf -> A) (k : A -> M World B) w mb :
  mbufs w !! a = Some mb -> bind (of_mbuf a f) k w = k (f mb) w.
Proof. intros E. unfold bind, of_mbuf. by rewrite E. Qed.

(** [run E] steps over the first action of a sequence, whose result [E] gives;
    [run_pure] over the ones that cannot fail. *)
Ltac run E := rewrite (bind_some _ _ _ _ _ E); cbv beta iota.
Ltac run_pure := repeat first [rewrite bind_getP|rewrite bind_putP|rewrite bind_ret]; cbv beta iota.
