(* ===== verification/Parse.v ===== *)
(** * Package packet: parsing

    The methods of [src/packet/packet.go] that fill the header pointers of a
    [Packet] and find its payload, with [GeneratePacketFromByte] and the byte
    swaps. A method that returns a header pointer returns [0] for nil. *)

From Stdlib Require Import ZArith Lia String.
From stdpp Require Import base list numbers option gmap.
From S2P Require Import Prelude Memory Text Types Mbuf Headers.

Open Scope Z_scope.
Open Scope go_scope.

(* go: packet/packet.go SwapBytesUint16 *)
Definition SwapBytesUint16 (x : Z) : Z := Z.lor (u16 (Z.shiftl x 8)) (Z.shiftr x 8).

(* go: packet/packet.go SwapBytesUint32 *)
Definition SwapBytesUint32 (x : Z) : Z :=
  Z.lor (Z.lor (Z.lor (u32 (Z.shiftl (Z.land x 0x000000ff) 24))
                      (u32 (Z.shiftl (Z.land x 0x0000ff00) 8)))
               (Z.shiftr (Z.land x 0x00ff0000) 8))
        (Z.shiftr (Z.land x 0xff000000) 24).

(* go: packet/packet.go SwapBytesIPv4Addr *)
Definition SwapBytesIPv4Addr (x : Z) : Z :=
  Z.lor (Z.lor (Z.lor (u32 (Z.shiftl (Z.land x 0x000000ff) 24))
                      (u32 (Z.shiftl (Z.land x 0x0000ff00) 8)))
               (Z.shiftr (Z.land x 0x00ff0000) 8))
        (Z.shiftr (Z.land x 0xff000000) 24).

(** ** Pointers *)

(* go: packet/packet.go Packet.ParseL2 *)
Definition ParseL2 : M World unit :=
  let! c := getP CMbuf in
  let! p := of_mbuf c Mbuf_L2 in
  putP (set_L2 p).

(* go: packet/packet.go Packet.GetEther *)
Definition GetEther : M World Z := getP L2.

(* go: packet/packet.go Packet.unparsed *)
Definition unparsed : M World Z := getP (fun p => ptr_add (L2 p) EtherLen).

(* go: packet/packet.go Packet.StartAtOffset *)
Definition StartAtOffset (offset : Z) : M World Z := getP (fun p => ptr_add (L2 p) offset).

(* go: packet/packet.go Packet.ParseL3 *)
Definition ParseL3 : M World unit :=
  let! u := unparsed in putP (set_L3 u).

(* go: packet/packet.go Packet.GetIPv4 *)
Definition GetIPv4 : M World Z :=
  let! e := GetEther in
  let! t := rd e EtherHdr.EtherType_ in
  if t =? SwapBytesUint16 IPV4Number then getP L3 else ret 0.

(* go: packet/packet.go Packet.GetIPv4NoCheck *)
Definition GetIPv4NoCheck : M World Z := getP L3.

(* go: packet/packet.go Packet.GetARP *)
Definition GetARP : M World Z :=
  let! e := GetEther in
  let! t := rd e EtherHdr.EtherType_ in
  if t =? SwapBytesUint16 ARPNumber then getP L3 else ret 0.

(* go: packet/packet.go Packet.GetARPNoCheck *)
Definition GetARPNoCheck : M World Z := getP L3.

(* go: packet/packet.go Packet.GetIPv6 *)
Definition GetIPv6 : M World Z :=
  let! e := GetEther in
  let! t := rd e EtherHdr.EtherType_ in
  if t =? SwapBytesUint16 IPV6Number then getP L3 else ret 0.

(* go: packet/packet.go Packet.GetIPv6NoCheck *)
Definition GetIPv6NoCheck : M World Z := getP L3.

(* go: packet/packet.go Packet.ParseL4ForIPv4 *)
Definition ParseL4ForIPv4 : M World unit :=
  let! h := GetIPv4NoCheck in
  let! v := rd h IPv4Hdr.VersionIhl_ in
  putP (fun p => set_L4 (ptr_add (L3 p) (u8 (Z.shiftl (Z.land v 0x0f) 2))) p).

(* go: packet/packet.go Packet.ParseL4ForIPv6 *)
Definition ParseL4ForIPv6 : M World unit :=
  putP (fun p => set_L4 (ptr_add (L3 p) IPv6Len) p).

(* go: packet/packet.go Packet.GetTCPForIPv4 *)
Definition GetTCPForIPv4 : M World Z :=
  let! h := GetIPv4NoCheck in
  let! n := rd h IPv4Hdr.NextProtoID_ in
  if n =? TCPNumber then getP L4 else ret 0.

(* go: packet/packet.go Packet.GetTCPNoCheck *)
Definition GetTCPNoCheck : M World Z := getP L4.

(* go: packet/packet.go Packet.GetTCPForIPv6 *)
Definition GetTCPForIPv6 : M World Z :=
  let! h := GetIPv6NoCheck in
  let! n := rd h IPv6Hdr.Proto_ in
  if n =? TCPNumber then getP L4 else ret 0.

(* go: packet/packet.go Packet.GetUDPForIPv4 *)
Definition GetUDPForIPv4 : M World Z :=
  let! h := GetIPv4NoCheck in
  let! n := rd h IPv4Hdr.NextProtoID_ in
  if n =? UDPNumber then getP L4 else ret 0.

(* go: packet/packet.go Packet.GetUDPNoCheck *)
Definition GetUDPNoCheck : M World Z := getP L4.

(* go: packet/packet.go Packet.GetUDPForIPv6 *)
Definition GetUDPForIPv6 : M World Z :=
  let! h := GetIPv6NoCheck in
  let! n := rd h IPv6Hdr.Proto_ in
  if n =? UDPNumber then getP L4 else ret 0.

(* go: packet/packet.go Packet.GetICMPForIPv4 *)
Definition GetICMPForIPv4 : M World Z :=
  let! h := GetIPv4NoCheck in
  let! n := rd h IPv4Hdr.NextProtoID_ in
  if n =? ICMPNumber then getP L4 else ret 0.

(* go: packet/packet.go Packet.GetICMPNoCheck *)
Definition GetICMPNoCheck : M World Z := getP L4.

(* go: packet/packet.go Packet.GetICMPForIPv6 *)
Definition GetICMPForIPv6 : M World Z :=
  let! h := GetIPv6NoCheck in
  let! n := rd h IPv6Hdr.Proto_ in
  if n =? ICMPv6Number then getP L4 else ret 0.

(** ** Layers *)

(** The IPv4, IPv6 and ARP header pointers. *)
(* go: packet/packet.go Packet.ParseAllKnownL3 *)
Definition ParseAllKnownL3 : M World (Z * Z * Z) :=
  ParseL3 ;;
  let! ipv4 := GetIPv4 in
  if negb (ipv4 =? 0) then let! p := GetIPv4NoCheck in ret (p, 0, 0)
  else
    let! arp := GetARP in
    if negb (arp =? 0) then let! p := GetARPNoCheck in ret (0, 0, p)
    else
      let! ipv6 := GetIPv6 in
      if negb (ipv6 =? 0) then let! p := GetIPv6NoCheck in ret (0, p, 0)
      else ret (0, 0, 0).

(** The TCP, UDP and ICMP header pointers. *)
(* go: packet/packet.go Packet.ParseAllKnownL4ForIPv4 *)
Definition ParseAllKnownL4ForIPv4 : M World (Z * Z * Z) :=
  ParseL4ForIPv4 ;;
  let! udp := GetUDPForIPv4 in
  if negb (udp =? 0) then let! p := GetUDPNoCheck in ret (0, p, 0)
  else
    let! tcp := GetTCPForIPv4 in
    if negb (tcp =? 0) then let! p := GetTCPNoCheck in ret (p, 0, 0)
    else
      let! icmp := GetICMPForIPv4 in
      if negb (icmp =? 0) then let! p := GetICMPNoCheck in ret (0, 0, p)
      else ret (0, 0, 0).

(* go: packet/packet.go Packet.ParseAllKnownL4ForIPv6 *)
Definition ParseAllKnownL4ForIPv6 : M World (Z * Z * Z) :=
  ParseL4ForIPv6 ;;
  let! tcp := GetTCPForIPv6 in
  if negb (tcp =? 0) then let! p := GetTCPNoCheck in ret (p, 0, 0)
  else
    let! udp := GetUDPForIPv6 in
    if negb (udp =? 0) then let! p := GetUDPNoCheck in ret (0, p, 0)
    else
      let! icmp := GetICMPForIPv6 in
      if negb (icmp =? 0) then let! p := GetICMPNoCheck in ret (0, 0, p)
      else ret (0, 0, 0).

(** [packet.Data = L4 + (DataOff & 0xf0) >> 2], where [>>] binds tighter. *)
Definition DataAfterTCP : M World unit :=
  let! l4 := getP L4 in
  let! d := rd l4 TCPHdr.DataOff_ in
  putP (fun p => set_Data (ptr_add (L4 p) (Z.shiftr (Z.land d 0xf0) 2)) p).
Definition DataAfter (len : Z) : M World unit :=
  putP (fun p => set_Data (ptr_add (L4 p) len) p).

(* go: packet/packet.go Packet.ParseL7 *)
Definition ParseL7 (protocol : Z) : M World unit :=
  if protocol =? TCPNumber then DataAfterTCP
  else if protocol =? UDPNumber then DataAfter UDPLen
  else if (protocol =? ICMPNumber) || (protocol =? ICMPv6Number) then DataAfter ICMPLen
  else ret tt.

(* go: packet/packet.go Packet.ParseData *)
Definition ParseData : M World Z :=
  let! (pktIPv4, pktIPv6, _) := ParseAllKnownL3 in
  let! (pktTCP, pktUDP, pktICMP) :=
    (if negb (pktIPv4 =? 0) then ParseAllKnownL4ForIPv4
     else if negb (pktIPv6 =? 0) then ParseAllKnownL4ForIPv6
     else ret (0, 0, 0)) in
  if negb (pktTCP =? 0) then DataAfterTCP ;; ret 0
  else if negb (pktUDP =? 0) then DataAfter UDPLen ;; ret 0
  else if negb (pktICMP =? 0) then DataAfter ICMPLen ;; ret 0
  else ret (-1).

(** The payload behind the inner headers, once the tunnel is removed. The
    variables [pktTCP], [pktUDP] and [pktICMP] are only assigned again for an
    inner IP packet: [pktUDP] enters as the outer UDP header. *)
Definition VxlanInner (pktIPv4 pktIPv6 pktARP pktUDP : Z) : M World Z :=
  if negb (pktARP =? 0) then ret 0
  else
    let! (pktTCP, pktUDP, pktICMP) :=
      (if negb (pktIPv4 =? 0) then ParseAllKnownL4ForIPv4
       else if negb (pktIPv6 =? 0) then ParseAllKnownL4ForIPv6
       else ret (0, pktUDP, 0)) in
    if negb (pktTCP =? 0) then DataAfterTCP ;; ret 0
    else if negb (pktUDP =? 0) then DataAfter UDPLen ;; ret 0
    else if negb (pktICMP =? 0) then DataAfter ICMPLen ;; ret 0
    else ret (-1).

(** The assignments that record the outer headers and move [L2] to the inner
    frame. *)
Definition enter_overlay (ether pktIPv4 pktUDP : Z) (p : Packet) : Packet :=
  let p := set_Overlay true p in
  let p := set_OuterEther ether p in
  let p := set_OuterIPv4Hdr pktIPv4 p in
  let p := set_OuterUDPHdr pktUDP p in
  let p := set_VxlanHeader (ptr_add (L4 p) UDPLen) p in
  let p := set_OuterL2 (L2 p) p in
  let p := set_OuterL3 (L3 p) p in
  let p := set_OuterL4 (L4 p) p in
  let p := set_L3 0 p in
  let p := set_L4 0 p in
  set_L2 (ptr_add (OuterL4 p) (UDPLen + VXLANLen)) p.

(* go: packet/packet.go Packet.VxlanDecap *)
Definition VxlanDecap : M World Z :=
  putP (set_Overlay false) ;;
  ParseL2 ;;
  let! ether := GetEther in
  let! etherType := rd ether EtherHdr.EtherType_ in
  if (etherType =? SwapARPNumber) || (etherType =? SwapIPV6Number) then
    ParseL3 ;; ret (-1)
  else
    (if etherType =? SwapIPV4Number then ParseL3 else ret tt) ;;
    let! (pktIPv4, _, _) := ParseAllKnownL3 in
    if pktIPv4 =? 0 then ret (-1)
    else
      let! (_, pktUDP, _) := ParseAllKnownL4ForIPv4 in
      if pktUDP =? 0 then ret (-1)
      else
        let! port := rd pktUDP UDPHdr.DstPort_ in
        if negb (SwapBytesUint16 port =? 4789) then ret (-1)
        else
          putP (enter_overlay ether pktIPv4 pktUDP) ;;
          let! (inIPv4, inIPv6, inARP) := ParseAllKnownL3 in
          VxlanInner inIPv4 inIPv6 inARP pktUDP.

(** ** The packet as a whole *)

(** [unsafe.Sizeof(mbuf.Mbuf{})], fixed by the DPDK build. *)
(* go: packet/packet.go ExtractPacketAddr *)
Definition ExtractPacketAddr (mbufStructSize IN : Z) : Z := ptr_add IN mbufStructSize.

(* go: packet/packet.go ToPacket *)
Definition ToPacket (IN : Z) : Z := IN.

(* go: packet/packet.go ExtractPacket *)
Definition ExtractPacket (mbufStructSize IN : Z) : Z :=
  ToPacket (ExtractPacketAddr mbufStructSize IN).

(** Stores into [packet[0..n)]; an index past either slice panics. *)
(* go: packet/packet.go ExtractPackets *)
Fixpoint ExtractPackets (mbufStructSize : Z) (packet IN : list Z) (n : nat) : option (list Z) :=
  match n with
  | O => Some packet
  | S k =>
      match ExtractPackets mbufStructSize packet IN k with
      | None => None
      | Some out =>
          match IN !! k with
          | None => None
          | Some a =>
              if (k <? length out)%nat then Some (<[k := ExtractPacket mbufStructSize a]> out)
              else None
          end
      end
  end.

(* go: packet/packet.go SetHWTXChecksumFlag *)
Definition SetHWTXChecksumFlag (flag : bool) : M World unit := modify (set_hwtxchecksum flag).

(* go: packet/packet.go Packet.ToUintptr *)
Definition ToUintptr : M World Z := getP CMbuf.

(* go: packet/packet.go GeneratePacketFromByte *)
Definition GeneratePacketFromByte (data : list Z) : M World bool :=
  let! c := getP CMbuf in
  let! ok := on_mbuf c (fun mb => AppendMbuf mb (Z.of_nat (length data))) in
  if negb ok then ret false
  else
    let! mb := of_mbuf c (fun mb => mb) in
    (fun w => match WriteDataToMbuf (heap w) mb data with
              | None => None
              | Some m => Some (true, set_heap m w)
              end).

(* go: packet/packet.go Packet.GetRawPacketBytes *)
Definition GetRawPacketBytes : M World Slice :=
  let! c := getP CMbuf in of_mbuf c GetRawPacketBytesMbuf.

(* go: packet/packet.go Packet.GetPacketLen *)
Definition GetPacketLen : M World Z := let! c := getP CMbuf in of_mbuf c GetPktLenMbuf.

(* go: packet/packet.go Packet.GetPacketSegmentLen *)
Definition GetPacketSegmentLen : M World Z := let! c := getP CMbuf in of_mbuf c GetDataLenMbuf.

(** [pktBytes[hdrsLen:]] panics when the headers end past the slice. *)
(* go: packet/packet.go Packet.GetPacketPayload *)
Definition GetPacketPayload : M World (Slice * bool) :=
  let! pktStartAddr := StartAtOffset 0 in
  let! pktBytes := GetRawPacketBytes in
  let! rc := ParseData in
  if rc =? -1 then ret (mkSlice 0 0, false)
  else
    let! data := getP Data in
    let hdrsLen := u64 (data - pktStartAddr) in
    if s_len pktBytes <? hdrsLen then panic
    else ret (mkSlice (s_ptr pktBytes + hdrsLen) (s_len pktBytes - hdrsLen), true).
