(* ===== verification/ParseSpec.v ===== *)
(** * What the parser promises: a reference parser on wire bytes

    [wire_layout] reads a frame as the protocol standards lay it out, from a
    byte list in network order and without pointers. The theorems show that the
    pointer code of [Parse] finds exactly those offsets, on every branch, and
    changes nothing but the header pointers. *)

From Stdlib Require Import ZArith Lia String.
From stdpp Require Import base list numbers option gmap.
From S2P Require Import Prelude Memory Text Types Mbuf Headers Parse.

Open Scope Z_scope.
Open Scope go_scope.

(** ** Byte swapping *)

Lemma SwapBytesUint16_arith a b :
  byte_ok a -> byte_ok b -> SwapBytesUint16 (a + 256 * b) = b + 256 * a.
Proof.
  unfold byte_ok, SwapBytesUint16. intros Ha Hb.
  rewrite Z.shiftr_div_pow2, Z.shiftl_mul_pow2 by lia.
  replace (u16 ((a + 256 * b) * 2 ^ 8)) with (Z.shiftl a 8)
    by (rewrite Z.shiftl_mul_pow2 by lia; unfold u16; Z.div_mod_to_equations; lia).
  replace ((a + 256 * b) / 2 ^ 8) with b by (Z.div_mod_to_equations; lia).
  rewrite lor_shiftl_add by lia. lia.
Qed.

Lemma u16_split x : 0 <= x < 65536 -> x = x mod 256 + 256 * (x / 256) /\
  byte_ok (x mod 256) /\ byte_ok (x / 256).
Proof. unfold byte_ok. intros. zlia. Qed.

Lemma SwapBytesUint16_range x : 0 <= x < 65536 -> 0 <= SwapBytesUint16 x < 65536.
Proof.
  intros H. destruct (u16_split x H) as (E & A & B). rewrite E, SwapBytesUint16_arith by done.
  unfold byte_ok in *. lia.
Qed.

Lemma SwapBytesUint16_invol x : 0 <= x < 65536 -> SwapBytesUint16 (SwapBytesUint16 x) = x.
Proof.
  intros H. destruct (u16_split x H) as (E & A & B).
  rewrite E, !SwapBytesUint16_arith by done. done.
Qed.

Lemma SwapBytesUint16_inj x y :
  0 <= x < 65536 -> 0 <= y < 65536 -> SwapBytesUint16 x = SwapBytesUint16 y -> x = y.
Proof.
  intros Hx Hy E. rewrite <- (SwapBytesUint16_invol x Hx), E. by apply SwapBytesUint16_invol.
Qed.

(** The field of a header read from its two bytes, swapped, is the value the
    bytes spell in network order. *)
Lemma SwapBytesUint16_be l :
  Forall byte_ok l -> length l = 2%nat -> SwapBytesUint16 (le_val l) = be_val l.
Proof.
  intros F Hl. destruct l as [|a [|b [|]]]; try done.
  apply Forall_cons in F as [Ha F]. apply Forall_cons in F as [Hb _].
  cbn [le_val be_val length Z.of_nat]. replace (a + 256 * (b + 256 * 0)) with (a + 256 * b) by lia.
  rewrite SwapBytesUint16_arith by done. lia.
Qed.

Lemma testbit_mod256 x i : 0 <= i < 8 -> Z.testbit (x mod 256) i = Z.testbit x i.
Proof. intros. change 256 with (2 ^ 8). by rewrite Z.mod_pow2_bits_low by lia. Qed.

Lemma SwapBytesUint32_arith a b c d :
  byte_ok a -> byte_ok b -> byte_ok c -> byte_ok d ->
  SwapBytesUint32 (le_val [a; b; c; d]) = le_val [d; c; b; a].
Proof.
  intros Ha Hb Hc Hd. pose proof (BytesToIPv4_le d c b a Hd Hc Hb Ha) as E. rewrite <- E.
  unfold BytesToIPv4, SwapBytesUint32. unfold byte_ok in *.
  set (x := le_val [a; b; c; d]).
  assert (Hx : x = a + 256 * b + 65536 * c + 16777216 * d) by (unfold x; simpl; lia).
  assert (M : forall k, 0 <= k -> Z.land x (Z.shiftl 255 k) = Z.shiftl ((x / 2 ^ k) mod 256) k).
  { intros k Hk. rewrite <- land_ff, <- Z.shiftr_div_pow2 by lia.
    apply Z.bits_inj'. intros n Hn. rewrite Z.land_spec.
    destruct (Z.lt_ge_cases n k).
    - rewrite !Z.shiftl_spec_low by lia. by rewrite andb_false_r.
    - rewrite !Z.shiftl_spec by lia. rewrite Z.land_spec, Z.shiftr_spec by lia.
      by rewrite Z.sub_add. }
  change 0xff with (Z.shiftl 255 0). change 0xff00 with (Z.shiftl 255 8).
  change 0xff0000 with (Z.shiftl 255 16). change 0xff000000 with (Z.shiftl 255 24).
  rewrite !M by lia.
  replace ((x / 2 ^ 0) mod 256) with a by (rewrite Hx; Z.div_mod_to_equations; lia).
  replace ((x / 2 ^ 8) mod 256) with b by (rewrite Hx; Z.div_mod_to_equations; lia).
  replace ((x / 2 ^ 16) mod 256) with c by (rewrite Hx; Z.div_mod_to_equations; lia).
  replace ((x / 2 ^ 24) mod 256) with d by (rewrite Hx; Z.div_mod_to_equations; lia).
  rewrite Z.shiftl_0_r, Z.shiftl_shiftl, !Z.shiftr_shiftl_l by lia.
  change (16 - 8) with 8. change (24 - 24) with 0. change (8 + 8) with 16.
  by rewrite (u32_small (Z.shiftl c 8)), Z.shiftl_0_r by (rewrite Z.shiftl_mul_pow2 by lia; lia).
Qed.

(** ** Frames in memory *)

(** The bytes [bs] of a frame lie at the (non-nil, non-wrapping) address [q]. *)
Record frame (m : mem) (q : Z) (bs : list Z) : Prop := {
  frame_load : load_bytes m q (length bs) = Some bs;
  frame_pos : 0 < q;
  frame_top : q + Z.of_nat (length bs) < 18446744073709551616;
  frame_ok : Forall byte_ok bs
}.

Lemma frame_ptr m q bs o :
  frame m q bs -> 0 <= o <= Z.of_nat (length bs) -> ptr_add q o = q + o.
Proof. intros []?. unfold ptr_add. apply u64_small. lia. Qed.

Lemma frame_bytes m q bs o n :
  frame m q bs -> (o + n <= length bs)%nat ->
  load_bytes m (q + Z.of_nat o) n = Some (take n (drop o bs)).
Proof.
  intros [L _ _ _] H. assert (Hl : length (take n (drop o bs)) = n)
    by (rewrite length_take, length_drop; lia).
  rewrite <- Hl at 1. apply load_bytes_intro. intros k Hk. rewrite Hl in Hk.
  rewrite lookup_take_lt, lookup_drop by lia.
  rewrite (load_bytes_lookup _ _ _ _ (o + k) L) by lia. f_equal. lia.
Qed.

Lemma frame_drop m q bs o :
  frame m q bs -> (o <= length bs)%nat -> frame m (q + Z.of_nat o) (drop o bs).
Proof.
  intros F H. pose proof F as []. split.
  - rewrite (frame_bytes _ _ _ _ _ F) by (rewrite length_drop; lia).
    f_equal. apply firstn_all.
  - lia.
  - rewrite length_drop. lia.
  - by apply Forall_drop.
Qed.

Lemma rd_frame w q bs o f :
  frame (heap w) q bs -> (o + Z.to_nat (f_off f) + f_size f <= length bs)%nat -> 0 <= f_off f ->
  rd (q + Z.of_nat o) f w =
    Some (le_val (take (f_size f) (drop (o + Z.to_nat (f_off f)) bs)), w).
Proof.
  intros F H Hf. pose proof F as []. unfold rd.
  replace (q + Z.of_nat o =? 0) with false by lia.
  unfold ptr_add. rewrite u64_small by lia.
  replace (q + Z.of_nat o + f_off f) with (q + Z.of_nat (o + Z.to_nat (f_off f))) by lia.
  unfold load_le. by rewrite (frame_bytes _ _ _ _ _ F).
Qed.

Lemma take_drop_one (l : list Z) i :
  (i < length l)%nat -> take 1 (drop i l) = [l !!! i].
Proof.
  intros H. destruct (lookup_lt_is_Some_2 _ _ H) as [x Hx].
  rewrite (drop_S l x i Hx). simpl. by rewrite (list_lookup_total_correct _ _ _ Hx).
Qed.

Lemma take_drop_two (l : list Z) i :
  (S i < length l)%nat -> take 2 (drop i l) = [l !!! i; l !!! S i].
Proof.
  intros H. destruct (lookup_lt_is_Some_2 l i) as [x Hx]; [lia|].
  rewrite (drop_S l x i Hx). cbn [take]. rewrite (take_drop_one l (S i)) by lia.
  by rewrite (list_lookup_total_correct _ _ _ Hx).
Qed.

Lemma byte_at (l : list Z) i : Forall byte_ok l -> byte_ok (l !!! i).
Proof.
  intros F. destruct (decide (i < length l)%nat) as [H|H].
  - destruct (lookup_lt_is_Some_2 _ _ H) as [x Hx].
    rewrite (list_lookup_total_correct _ _ _ Hx). by eapply Forall_lookup_1.
  - rewrite list_lookup_total_alt, lookup_ge_None_2 by lia. simpl. unfold byte_ok.
    unfold inhabitant; simpl. lia.
Qed.

(** One-byte and two-byte fields at frame offset [o]. *)
Lemma rd8_frame w q bs o k :
  frame (heap w) q bs -> (o + k < length bs)%nat ->
  rd (q + Z.of_nat o) (Field (Z.of_nat k) 1) w = Some (bs !!! (o + k)%nat, w).
Proof.
  intros F H. rewrite (rd_frame _ _ bs) by (simpl; first [done|lia]). simpl.
  rewrite Nat2Z.id, take_drop_one by lia. simpl. by rewrite Z.add_0_r.
Qed.

Lemma rd16_frame w q bs o k :
  frame (heap w) q bs -> (S (o + k) < length bs)%nat ->
  rd (q + Z.of_nat o) (Field (Z.of_nat k) 2) w =
    Some (bs !!! (o + k)%nat + 256 * bs !!! S (o + k), w).
Proof.
  intros F H. rewrite (rd_frame _ _ bs) by (simpl; first [done|lia]). simpl.
  rewrite Nat2Z.id, take_drop_two by lia. simpl. do 2 f_equal. lia.
Qed.

(** ** The reference parser *)

Section Wire.
Variable l : list Z.
Definition b (i : nat) : Z := l !!! i.
Definition be16 (i : nat) : Z := b i * 256 + b (S i).

(** Payload of the transport header of protocol [proto] at [o]. *)
Definition wire_payload (icmp proto : Z) (o : nat) : option nat :=
  if proto =? 17 then Some (o + 8)%nat
  else if proto =? 6 then Some (o + 4 * Z.to_nat (b (o + 12) / 16))%nat
  else if proto =? icmp then Some (o + 8)%nat
  else None.

(** Offsets of the transport header and of the payload of the Ethernet frame. *)
Definition wire_layout : option nat * option nat :=
  if be16 12 =? 0x0800 then
    let o := (14 + 4 * Z.to_nat (b 14 mod 16))%nat in
    (Some o, wire_payload 1 (b 23) o)
  else if be16 12 =? 0x86dd then
    (Some 54%nat, wire_payload 58 (b 20) 54)
  else (None, None).
End Wire.

(** The header pointers a frame at [q] with the offsets [lay] gets. *)
Definition with_layout (q : Z) (lay : option nat * option nat) (p : Packet) : Packet :=
  let p := set_L3 (q + 14) p in
  let p := match fst lay with Some o => set_L4 (q + Z.of_nat o) p | None => p end in
  match snd lay with Some o => set_Data (q + Z.of_nat o) p | None => p end.

Definition MaxHeaders : nat := 94.

Lemma rd_EtherType w q bs :
  frame (heap w) q bs -> (14 <= length bs)%nat ->
  rd q EtherHdr.EtherType_ w = Some (b bs 12 + 256 * b bs 13, w).
Proof.
  intros F H. pose proof (rd16_frame w q bs 0 12 F ltac:(lia)) as E.
  rewrite Z.add_0_r in E. exact E.
Qed.

Lemma be16_swap bs i c :
  Forall byte_ok bs -> 0 <= c < 65536 ->
  (b bs i + 256 * b bs (S i) =? SwapBytesUint16 c) = (be16 bs i =? c).
Proof.
  intros F Hc. pose proof (byte_at bs i F) as A. pose proof (byte_at bs (S i) F) as B.
  unfold be16, b in *. unfold byte_ok in *.
  rewrite <- (SwapBytesUint16_invol (_ + _)) by lia. rewrite SwapBytesUint16_arith by done.
  replace (bs !!! S i + 256 * bs !!! i) with (bs !!! i * 256 + bs !!! S i) by lia.
  destruct (Z.eqb_spec (bs !!! i * 256 + bs !!! S i) c) as [->|N]; [apply Z.eqb_refl|].
  apply Z.eqb_neq. intros E. apply N. by apply SwapBytesUint16_inj; [lia|lia|].
Qed.

Section EtherTypes.
Variables (w : World) (bs : list Z).
Hypothesis F : frame (heap w) (L2 (pkt w)) bs.
Hypothesis H : (14 <= length bs)%nat.

Lemma GetIPv4_frame :
  GetIPv4 w = Some (if be16 bs 12 =? 0x0800 then L3 (pkt w) else 0, w).
Proof.
  unfold GetIPv4, GetEther. run_pure. run (rd_EtherType _ _ _ F H).
  rewrite be16_swap by (apply F || (unfold IPV4Number; lia)). unfold IPV4Number. by case_match.
Qed.

Lemma GetARP_frame :
  GetARP w = Some (if be16 bs 12 =? 0x0806 then L3 (pkt w) else 0, w).
Proof.
  unfold GetARP, GetEther. run_pure. run (rd_EtherType _ _ _ F H).
  rewrite be16_swap by (apply F || (unfold ARPNumber; lia)). unfold ARPNumber. by case_match.
Qed.

Lemma GetIPv6_frame :
  GetIPv6 w = Some (if be16 bs 12 =? 0x86dd then L3 (pkt w) else 0, w).
Proof.
  unfold GetIPv6, GetEther. run_pure. run (rd_EtherType _ _ _ F H).
  rewrite be16_swap by (apply F || (unfold IPV6Number; lia)). unfold IPV6Number. by case_match.
Qed.

Lemma ParseL3_frame : ParseL3 w = Some (tt, set_pkt (set_L3 (L2 (pkt w) + 14) (pkt w)) w).
Proof.
  unfold ParseL3, unparsed. run_pure. unfold EtherLen.
  by rewrite (frame_ptr _ _ _ 14 F) by lia.
Qed.
End EtherTypes.

Definition l3_result (bs : list Z) (l3 : Z) : Z * Z * Z :=
  if be16 bs 12 =? 0x0800 then (l3, 0, 0)
  else if be16 bs 12 =? 0x0806 then (0, 0, l3)
  else if be16 bs 12 =? 0x86dd then (0, l3, 0)
  else (0, 0, 0).

Lemma ParseAllKnownL3_frame w bs :
  frame (heap w) (L2 (pkt w)) bs -> (14 <= length bs)%nat ->
  ParseAllKnownL3 w =
    Some (l3_result bs (L2 (pkt w) + 14), set_pkt (set_L3 (L2 (pkt w) + 14) (pkt w)) w).
Proof.
  intros F H. pose proof (frame_pos _ _ _ F) as Pos. unfold ParseAllKnownL3.
  run (ParseL3_frame w bs F H). set (w1 := set_pkt _ w).
  assert (F1 : frame (heap w1) (L2 (pkt w1)) bs) by exact F.
  assert (N : (L3 (pkt w1) =? 0) = false) by (simpl; lia).
  run (GetIPv4_frame w1 bs F1 H). unfold l3_result.
  destruct (be16 bs 12 =? 0x0800); [by rewrite N|]. simpl (negb (0 =? 0)). cbv iota.
  run (GetARP_frame w1 bs F1 H).
  destruct (be16 bs 12 =? 0x0806); [by rewrite N|]. simpl (negb (0 =? 0)). cbv iota.
  run (GetIPv6_frame w1 bs F1 H).
  destruct (be16 bs 12 =? 0x86dd); [by rewrite N|]. done.
Qed.

(** ** Transport headers *)

Lemma nonnil q n : 0 < q -> (q + Z.of_nat n =? 0) = false.
Proof. intros. apply Z.eqb_neq. lia. Qed.

Definition l4_result (icmp proto l4 : Z) : Z * Z * Z :=
  if proto =? 17 then (0, l4, 0)
  else if proto =? 6 then (l4, 0, 0)
  else if proto =? icmp then (0, 0, l4)
  else (0, 0, 0).

Section Layer4.
Variables (w : World) (q : Z) (bs : list Z).
Hypothesis F : frame (heap w) q bs.
Hypothesis H : (MaxHeaders <= length bs)%nat.
Hypothesis E3 : L3 (pkt w) = q + 14.

Lemma rd_l3_8 k : (k < 40)%nat ->
  rd (L3 (pkt w)) (Field (Z.of_nat k) 1) w = Some (b bs (14 + k), w).
Proof.
  intros Hk. rewrite E3. apply (rd8_frame w q bs 14 k F). unfold MaxHeaders in H. lia.
Qed.

Lemma ParseL4ForIPv4_frame :
  ParseL4ForIPv4 w =
    Some (tt, set_pkt (set_L4 (q + Z.of_nat (14 + 4 * Z.to_nat (b bs 14 mod 16))) (pkt w)) w).
Proof.
  unfold ParseL4ForIPv4, GetIPv4NoCheck. run_pure. run (rd_l3_8 0 ltac:(lia)).
  unfold putP, modify. do 3 f_equal. rewrite E3, land_0f, Z.shiftl_mul_pow2 by lia.
  pose proof (frame_top _ _ _ F). pose proof (frame_pos _ _ _ F). unfold MaxHeaders in H.
  change (14 + 0)%nat with 14%nat.
  assert (0 <= b bs 14 mod 16 < 16) by (apply Z.mod_pos_bound; lia).
  unfold ptr_add. f_equal. rewrite u8_small, u64_small by lia. lia.
Qed.

Lemma ParseL4ForIPv6_frame :
  ParseL4ForIPv6 w = Some (tt, set_pkt (set_L4 (q + Z.of_nat 54) (pkt w)) w).
Proof.
  unfold ParseL4ForIPv6, putP, modify. do 3 f_equal. rewrite E3.
  pose proof (frame_top _ _ _ F). pose proof (frame_pos _ _ _ F). unfold MaxHeaders in H.
  unfold ptr_add, IPv6Len. f_equal. rewrite u64_small by lia. lia.
Qed.

Hypothesis N4 : (L4 (pkt w) =? 0) = false.

Lemma ParseL4v4_tail :
  (let! udp := GetUDPForIPv4 in
   if negb (udp =? 0) then let! p := GetUDPNoCheck in ret (0, p, 0)
   else
     let! tcp := GetTCPForIPv4 in
     if negb (tcp =? 0) then let! p := GetTCPNoCheck in ret (p, 0, 0)
     else
       let! icmp := GetICMPForIPv4 in
       if negb (icmp =? 0) then let! p := GetICMPNoCheck in ret (0, 0, p)
       else ret (0, 0, 0)) w = Some (l4_result 1 (b bs 23) (L4 (pkt w)), w).
Proof.
  unfold GetUDPForIPv4, GetTCPForIPv4, GetICMPForIPv4, GetIPv4NoCheck, l4_result,
    UDPNumber, TCPNumber, ICMPNumber.
  assert (R : rd (L3 (pkt w)) IPv4Hdr.NextProtoID_ w = Some (b bs 23, w))
    by exact (rd_l3_8 9 ltac:(lia)).
  unfold bind, getP, gets, ret. simpl. rewrite !R.
  destruct (b bs 23 =? 17); simpl; [by rewrite N4|]. rewrite ?R.
  destruct (b bs 23 =? 6); simpl; [by rewrite N4|]. rewrite ?R.
  destruct (b bs 23 =? 1); simpl; [rewrite N4|]; done.
Qed.

Lemma ParseL4v6_tail :
  (let! tcp := GetTCPForIPv6 in
   if negb (tcp =? 0) then let! p := GetTCPNoCheck in ret (p, 0, 0)
   else
     let! udp := GetUDPForIPv6 in
     if negb (udp =? 0) then let! p := GetUDPNoCheck in ret (0, p, 0)
     else
       let! icmp := GetICMPForIPv6 in
       if negb (icmp =? 0) then let! p := GetICMPNoCheck in ret (0, 0, p)
       else ret (0, 0, 0)) w = Some (l4_result 58 (b bs 20) (L4 (pkt w)), w).
Proof.
  unfold GetUDPForIPv6, GetTCPForIPv6, GetICMPForIPv6, GetIPv6NoCheck, l4_result,
    UDPNumber, TCPNumber, ICMPv6Number.
  assert (R : rd (L3 (pkt w)) IPv6Hdr.Proto_ w = Some (b bs 20, w))
    by exact (rd_l3_8 6 ltac:(lia)).
  unfold bind, getP, gets, ret. simpl. rewrite !R.
  destruct (Z.eqb_spec (b bs 20) 6) as [->|]; simpl; [by rewrite N4|]. rewrite ?R.
  destruct (b bs 20 =? 17); simpl; [by rewrite N4|]. rewrite ?R.
  destruct (b bs 20 =? 58); simpl; [rewrite N4|]; done.
Qed.
End Layer4.

Lemma ParseAllKnownL4ForIPv4_frame w q bs :
  frame (heap w) q bs -> (MaxHeaders <= length bs)%nat -> L3 (pkt w) = q + 14 ->
  let l4 := q + Z.of_nat (14 + 4 * Z.to_nat (b bs 14 mod 16)) in
  ParseAllKnownL4ForIPv4 w =
    Some (l4_result 1 (b bs 23) l4, set_pkt (set_L4 l4 (pkt w)) w).
Proof.
  intros F H E l4. unfold ParseAllKnownL4ForIPv4. run (ParseL4ForIPv4_frame w q bs F H E).
  fold l4. pose proof (frame_pos _ _ _ F).
  apply (ParseL4v4_tail (set_pkt (set_L4 l4 (pkt w)) w) q bs F H E). by apply nonnil.
Qed.

Lemma ParseAllKnownL4ForIPv6_frame w q bs :
  frame (heap w) q bs -> (MaxHeaders <= length bs)%nat -> L3 (pkt w) = q + 14 ->
  let l4 := q + Z.of_nat 54 in
  ParseAllKnownL4ForIPv6 w =
    Some (l4_result 58 (b bs 20) l4, set_pkt (set_L4 l4 (pkt w)) w).
Proof.
  intros F H E l4. unfold ParseAllKnownL4ForIPv6. run (ParseL4ForIPv6_frame w q bs F H E).
  fold l4. pose proof (frame_pos _ _ _ F).
  apply (ParseL4v6_tail (set_pkt (set_L4 l4 (pkt w)) w) q bs F H E). by apply nonnil.
Qed.

(** ** The payload *)

Definition payload_rc (lay : option nat * option nat) : Z :=
  match snd lay with Some _ => 0 | None => -1 end.

(** The last step of [ParseData], given the three transport header pointers. *)
Definition data_tail (r : Z * Z * Z) : M World Z :=
  let '(pktTCP, pktUDP, pktICMP) := r in
  if negb (pktTCP =? 0) then DataAfterTCP ;; ret 0
  else if negb (pktUDP =? 0) then DataAfter UDPLen ;; ret 0
  else if negb (pktICMP =? 0) then DataAfter ICMPLen ;; ret 0
  else ret (-1).

Definition with_data (q : Z) (d : option nat) (p : Packet) : Packet :=
  match d with Some o => set_Data (q + Z.of_nat o) p | None => p end.

Lemma DataAfterTCP_frame w q bs o :
  frame (heap w) q bs -> (o + 13 <= length bs)%nat ->
  L4 (pkt w) = q + Z.of_nat o ->
  q + Z.of_nat o + 60 < 18446744073709551616 ->
  DataAfterTCP w =
    Some (tt, set_pkt (set_Data (q + Z.of_nat (o + 4 * Z.to_nat (b bs (o + 12) / 16))) (pkt w)) w).
Proof.
  intros F H E T. unfold DataAfterTCP. run_pure. rewrite E.
  run (rd8_frame w q bs o 12 F ltac:(lia)). unfold putP, modify. do 3 f_equal.
  rewrite E. pose proof (byte_at bs (o + 12) (frame_ok _ _ _ F)) as B. unfold byte_ok in B.
  pose proof (frame_pos _ _ _ F). unfold b. set (d := bs !!! (o + 12)%nat) in *.
  replace (Z.land d 0xf0) with (Z.shiftl (d / 16) 4).
  - rewrite Z.shiftr_shiftl_l by lia. change (4 - 2) with 2. rewrite Z.shiftl_mul_pow2 by lia.
    unfold ptr_add. f_equal. rewrite u64_small; zlia.
  - change 0xf0 with (Z.shiftl 15 4). change 16 with (2 ^ 4).
    rewrite <- Z.shiftr_div_pow2 by lia. clearbody d. clear -B.
    apply Z.bits_inj'. intros n Hn. rewrite Z.land_spec.
    destruct (Z.lt_ge_cases n 4).
    + rewrite !Z.shiftl_spec_low by lia. by rewrite andb_false_r.
    + rewrite !Z.shiftl_spec, Z.shiftr_spec by lia. rewrite Z.sub_add.
      destruct (Z.lt_ge_cases n 8).
      * replace (Z.testbit 15 (n - 4)) with true; [by rewrite andb_true_r|].
        change 15 with (Z.ones 4). by rewrite Z.ones_spec_low by lia.
      * replace (Z.testbit d n) with false; [done|]. symmetry.
        destruct (decide (d = 0)) as [->|]; [apply Z.bits_0|].
        apply Z.bits_above_log2; [lia|]. apply Z.log2_lt_pow2; [lia|].
        apply Z.lt_le_trans with (2 ^ 8); [lia|]. apply Z.pow_le_mono_r; lia.
Qed.

Lemma data_tail_frame w q bs icmp proto o :
  frame (heap w) q bs -> (o + 20 <= length bs)%nat ->
  L4 (pkt w) = q + Z.of_nat o -> q + Z.of_nat o + 60 < 18446744073709551616 ->
  data_tail (l4_result icmp proto (q + Z.of_nat o)) w =
    Some (match wire_payload bs icmp proto o with Some _ => 0 | None => -1 end,
          set_pkt (with_data q (wire_payload bs icmp proto o) (pkt w)) w).
Proof.
  intros F H E T. pose proof (frame_pos _ _ _ F).
  pose proof (nonnil q o) as N.  specialize (N ltac:(done)).
  assert (D8 : DataAfter 8 w = Some (tt, set_pkt (set_Data (q + Z.of_nat (o + 8)) (pkt w)) w)).
  { unfold DataAfter, putP, modify. do 3 f_equal. rewrite E. unfold ptr_add. f_equal.
    rewrite u64_small; lia. }
  unfold data_tail, l4_result, wire_payload, UDPLen, ICMPLen.
  destruct (proto =? 17); [|destruct (proto =? 6); [|destruct (proto =? icmp)]];
    simpl (negb (0 =? 0)); rewrite ?N; cbn [negb].
  - by run D8.
  - run (DataAfterTCP_frame w q bs o F ltac:(lia) E T). done.
  - by run D8.
  - unfold ret, with_data. by destruct w.
Qed.

(** The frame's headers end below the top of the address space. *)
Definition roomy (q : Z) : Prop := q + 134 < 18446744073709551616.

Lemma wire_ip_offset bs : (14 + 4 * Z.to_nat (b bs 14 mod 16) <= 74)%nat.
Proof. pose proof (Z.mod_pos_bound (b bs 14) 16 ltac:(lia)). lia. Qed.

Definition wire_is_ip (l : list Z) : bool := (be16 l 12 =? 0x0800) || (be16 l 12 =? 0x86dd).

Lemma l3_result_shape bs l3 :
  l3_result bs l3 =
    (if be16 bs 12 =? 0x0800 then l3 else 0, if be16 bs 12 =? 0x86dd then l3 else 0,
     if be16 bs 12 =? 0x0806 then l3 else 0).
Proof.
  unfold l3_result.
  destruct (Z.eqb_spec (be16 bs 12) 0x0800), (Z.eqb_spec (be16 bs 12) 0x0806),
    (Z.eqb_spec (be16 bs 12) 0x86dd); (done || lia).
Qed.

(** What follows the network layer, for both callers: [r0] is what the
    transport pointers are when the packet is not IP. *)
Lemma ip_tail_frame w q bs r0 :
  frame (heap w) q bs -> (MaxHeaders <= length bs)%nat -> roomy q -> L3 (pkt w) = q + 14 ->
  wire_is_ip bs = true ->
  (let! r := (if negb ((if be16 bs 12 =? 0x0800 then q + 14 else 0) =? 0)
              then ParseAllKnownL4ForIPv4
              else if negb ((if be16 bs 12 =? 0x86dd then q + 14 else 0) =? 0)
              then ParseAllKnownL4ForIPv6 else ret r0) in
   data_tail r) w =
    Some (payload_rc (wire_layout bs), set_pkt (with_layout q (wire_layout bs) (pkt w)) w).
Proof.
  intros F H T E3 IP. pose proof (frame_pos _ _ _ F) as Pos. unfold roomy in T.
  pose proof (wire_ip_offset bs) as O. unfold wire_is_ip in IP. unfold wire_layout.
  assert (N : (q + 14 =? 0) = false) by (apply Z.eqb_neq; lia).
  assert (S3 : set_L3 (q + 14) (pkt w) = pkt w) by (rewrite <- E3; by destruct (pkt w)).
  unfold with_layout. rewrite S3.
  destruct (be16 bs 12 =? 0x0800).
  - rewrite N. cbn [negb]. run (ParseAllKnownL4ForIPv4_frame w q bs F H E3).
    set (o := (14 + 4 * Z.to_nat (b bs 14 mod 16))%nat) in *. set (w2 := set_pkt _ w).
    etransitivity; [apply (data_tail_frame w2 q bs 1 (b bs 23) o F)|];
      unfold MaxHeaders in H; (done || lia).
  - simpl in IP. rewrite IP, N. cbn [negb]. simpl (negb (0 =? 0)). cbv iota.
    run (ParseAllKnownL4ForIPv6_frame w q bs F H E3). set (w2 := set_pkt _ w).
    etransitivity; [apply (data_tail_frame w2 q bs 58 (b bs 20) 54 F)|];
      unfold MaxHeaders in H; (done || lia).
Qed.

Lemma not_ip_layout bs : wire_is_ip bs = false -> wire_layout bs = (None, None).
Proof.
  unfold wire_is_ip, wire_layout. intros [-> ->]%orb_false_iff. done.
Qed.

(** [ParseData] on any frame of at least [MaxHeaders] bytes. *)
Lemma ParseData_frame w bs :
  frame (heap w) (L2 (pkt w)) bs -> (MaxHeaders <= length bs)%nat -> roomy (L2 (pkt w)) ->
  ParseData w =
    Some (payload_rc (wire_layout bs),
          set_pkt (with_layout (L2 (pkt w)) (wire_layout bs) (pkt w)) w).
Proof.
  intros F H T. set (q := L2 (pkt w)) in *.
  unfold ParseData. run (ParseAllKnownL3_frame w bs F ltac:(unfold MaxHeaders in H; lia)).
  fold q. set (w1 := set_pkt _ w). rewrite l3_result_shape. cbv beta iota.
  destruct (wire_is_ip bs) eqn:IP.
  - exact (ip_tail_frame w1 q bs (0, 0, 0) F H T eq_refl IP).
  - rewrite not_ip_layout by done. unfold wire_is_ip in IP.
    by apply orb_false_iff in IP as [-> ->].
Qed.

(** ** Tunnels *)

(** Offset of the outer UDP header, when the frame is a VXLAN frame. *)
Definition wire_vxlan (l : list Z) : option nat :=
  let o := (14 + 4 * Z.to_nat (b l 14 mod 16))%nat in
  if (be16 l 12 =? 0x0800) && (b l 23 =? 17) && (be16 l (o + 2) =? 4789) then Some o else None.

(** The packet once the outer headers are recorded. *)
Definition overlay_packet (q : Z) (o : nat) (p : Packet) : Packet :=
  let p := set_L4 (q + Z.of_nat o) (set_L3 (q + 14) (set_L2 q (set_Overlay false p))) in
  enter_overlay q (q + 14) (q + Z.of_nat o) p.

Definition vxlan_rc (inner : list Z) : Z :=
  if wire_is_ip inner then payload_rc (wire_layout inner) else 0.

Definition vxlan_packet (q : Z) (inner : list Z) (p : Packet) : Packet :=
  let p := with_layout q (wire_layout inner) p in
  if wire_is_ip inner || (be16 inner 12 =? 0x0806) then p else set_Data 8 p.

Lemma VxlanInner_frame w bs u :
  frame (heap w) (L2 (pkt w)) bs -> (MaxHeaders <= length bs)%nat -> roomy (L2 (pkt w)) ->
  L4 (pkt w) = 0 -> u <> 0 ->
  (let! (inIPv4, inIPv6, inARP) := ParseAllKnownL3 in VxlanInner inIPv4 inIPv6 inARP u) w =
    Some (vxlan_rc bs, set_pkt (vxlan_packet (L2 (pkt w)) bs (pkt w)) w).
Proof.
  intros F H T E4 Hu. set (q := L2 (pkt w)) in *. pose proof (frame_pos _ _ _ F) as Pos.
  run (ParseAllKnownL3_frame w bs F ltac:(unfold MaxHeaders in H; lia)).
  fold q. set (w1 := set_pkt _ w). rewrite l3_result_shape. cbv beta iota.
  unfold VxlanInner, vxlan_rc, vxlan_packet.
  assert (N : (q + 14 =? 0) = false) by (apply Z.eqb_neq; lia).
  destruct (wire_is_ip bs) eqn:IP.
  - replace (be16 bs 12 =? 0x0806) with false.
    + exact (ip_tail_frame w1 q bs (0, u, 0) F H T eq_refl IP).
    + symmetry. apply Z.eqb_neq. intros E. unfold wire_is_ip in IP. by rewrite E in IP.
  - rewrite not_ip_layout by done. unfold wire_is_ip in IP.
    apply orb_false_iff in IP as [-> ->]. cbn [orb].
    destruct (be16 bs 12 =? 0x0806); [by rewrite N|].
    simpl (negb (0 =? 0)). cbv iota. rewrite bind_ret. cbv beta iota.
    simpl (negb (0 =? 0)). cbv iota. replace (u =? 0) with false by (symmetry; by apply Z.eqb_neq).
    cbn [negb]. unfold DataAfter. rewrite bind_putP. unfold ret. do 2 f_equal.
    unfold set_pkt, w1, with_layout. simpl. by rewrite E4.
Qed.

Section Vxlan.
Variables (w : World) (q : Z) (mb : Mbuf) (bs : list Z).
Hypothesis Hmb : mbufs w !! CMbuf (pkt w) = Some mb.
Hypothesis Hq : Mbuf_L2 mb = q.
Hypothesis F : frame (heap w) q bs.
Hypothesis H : (MaxHeaders <= length bs)%nat.
Hypothesis T : roomy q.

(** The state after [Overlay] is cleared and [L2] set, and after the network
    layer is parsed. *)
Let w0 : World := set_pkt (set_L2 q (set_Overlay false (pkt w))) w.
Let w1 : World := set_pkt (set_L3 (q + 14) (pkt w0)) w0.

(** The part of [VxlanDecap] behind its first test of the EtherType. *)
Definition vxlan_rest (ether : Z) : M World Z :=
  let! (pktIPv4, _, _) := ParseAllKnownL3 in
  if pktIPv4 =? 0 then ret (-1)
  else
    let! (_, pktUDP, _) := ParseAllKnownL4ForIPv4 in
    if pktUDP =? 0 then ret (-1)
    else
      let! port := rd pktUDP UDPHdr.DstPort_ in
      if negb (SwapBytesUint16 port =? 4789) then ret (-1)
      else
        putP (enter_overlay ether pktIPv4 pktUDP) ;;
        let! (inIPv4, inIPv6, inARP) := ParseAllKnownL3 in
        VxlanInner inIPv4 inIPv6 inARP pktUDP.

Lemma VxlanDecap_head :
  VxlanDecap w =
    if (be16 bs 12 =? 0x0806) || (be16 bs 12 =? 0x86dd) then Some (-1, w1)
    else ((if be16 bs 12 =? 0x0800 then ParseL3 else ret tt) ;; vxlan_rest q) w0.
Proof.
  assert (L : (14 <= length bs)%nat) by (unfold MaxHeaders in H; lia).
  unfold VxlanDecap, vxlan_rest. rewrite bind_putP. unfold ParseL2. rewrite !bind_assoc, bind_getP.
  cbv beta. rewrite !bind_assoc, (bind_of_mbuf _ _ _ _ mb) by exact Hmb.
  cbv beta. rewrite bind_putP, Hq. unfold GetEther. rewrite bind_getP.
  change (set_pkt _ (set_pkt _ w)) with w0. change (L2 (pkt w0)) with q.
  rewrite (bind_some _ _ _ _ _ (rd_EtherType w0 q bs F L)). cbv beta iota.
  change SwapARPNumber with (SwapBytesUint16 0x0806).
  change SwapIPV6Number with (SwapBytesUint16 0x86dd).
  change SwapIPV4Number with (SwapBytesUint16 0x0800).
  rewrite !be16_swap by (apply F || lia).
  destruct (_ || _); [|done].
  by rewrite (bind_some _ _ _ _ _ (ParseL3_frame w0 bs F L)).
Qed.

Lemma vxlan_rest_not_ipv4 w' : be16 bs 12 <> 0x0800 -> heap w' = heap w -> L2 (pkt w') = q ->
  vxlan_rest q w' = Some (-1, set_pkt (set_L3 (q + 14) (pkt w')) w').
Proof.
  intros N Eh El. unfold vxlan_rest.
  assert (F' : frame (heap w') (L2 (pkt w')) bs) by (by rewrite Eh, El).
  run (ParseAllKnownL3_frame w' bs F' ltac:(unfold MaxHeaders in H; lia)).
  rewrite l3_result_shape, El. apply Z.eqb_neq in N. by rewrite N.
Qed.

Lemma be16_swap_port o :
  (SwapBytesUint16 (bs !!! (o + 2)%nat + 256 * bs !!! S (o + 2)) =? 4789) =
  (be16 bs (o + 2) =? 4789).
Proof.
  pose proof (byte_at bs (o + 2) (frame_ok _ _ _ F)).
  pose proof (byte_at bs (S (o + 2)) (frame_ok _ _ _ F)).
  rewrite SwapBytesUint16_arith by done. unfold be16, b. f_equal. lia.
Qed.

Lemma vxlan_rest_ipv4 :
  let o := (14 + 4 * Z.to_nat (b bs 14 mod 16))%nat in
  let w2 := set_pkt (set_L4 (q + Z.of_nat o) (pkt w1)) w1 in
  be16 bs 12 = 0x0800 ->
  (ParseL3 ;; vxlan_rest q) w0 =
    if (b bs 23 =? 17) && (be16 bs (o + 2) =? 4789) then
      let w3 := set_pkt (overlay_packet q o (pkt w)) w in
      (let! (inIPv4, inIPv6, inARP) := ParseAllKnownL3 in
       VxlanInner inIPv4 inIPv6 inARP (q + Z.of_nat o)) w3
    else Some (-1, w2).
Proof.
  intros o w2 E. pose proof (frame_pos _ _ _ F) as Pos.
  rewrite (bind_some _ _ _ _ _ (ParseL3_frame w0 bs F ltac:(unfold MaxHeaders in H; lia))).
  change (set_pkt _ w0) with w1. unfold vxlan_rest.
  run (ParseAllKnownL3_frame w1 bs F ltac:(unfold MaxHeaders in H; lia)).
  change (set_pkt _ w1) with w1. rewrite l3_result_shape, E. cbv beta iota. rewrite Z.eqb_refl.
  change (L2 (pkt w1)) with q.
  replace (q + 14 =? 0) with false by (symmetry; apply Z.eqb_neq; lia).
  run (ParseAllKnownL4ForIPv4_frame w1 q bs F H eq_refl). fold o. fold w2.
  unfold l4_result. pose proof (nonnil q o Pos) as N. pose proof (wire_ip_offset bs) as O.
  destruct (b bs 23 =? 17); [|by destruct (b bs 23 =? 6); [|destruct (b bs 23 =? 1)]].
  rewrite N. cbn [andb].
  assert (L : (S (o + 2) < length bs)%nat) by (unfold MaxHeaders in H; lia).
  assert (R : rd (q + Z.of_nat o) UDPHdr.DstPort_ w2 =
    Some (bs !!! (o + 2)%nat + 256 * bs !!! S (o + 2), w2)).
  { assert (F2 : frame (heap w2) q bs) by exact F. clearbody w2.
    exact (rd16_frame w2 q bs o 2 F2 L). }
  run R. rewrite be16_swap_port. destruct (be16 bs (o + 2) =? 4789); cbn [negb]; [|done].
  rewrite bind_putP. cbv zeta. f_equal.
Qed.
End Vxlan.

Lemma VxlanDecap_none w q mb bs :
  mbufs w !! CMbuf (pkt w) = Some mb -> Mbuf_L2 mb = q ->
  frame (heap w) q bs -> (MaxHeaders <= length bs)%nat -> roomy q -> wire_vxlan bs = None ->
  exists p, VxlanDecap w = Some (-1, set_pkt p w) /\ Overlay p = false /\ L2 p = q /\
    CMbuf p = CMbuf (pkt w).
Proof.
  intros Hmb Hq F H T N. rewrite (VxlanDecap_head w q mb bs Hmb Hq F H).
  destruct (_ || _) eqn:E1; [by eexists|].
  destruct (Z.eqb_spec (be16 bs 12) 0x0800) as [E|E].
  - rewrite (vxlan_rest_ipv4 w q bs F H E). unfold wire_vxlan in N. rewrite E, Z.eqb_refl in N.
    cbn [andb] in N.
    destruct (_ && _) eqn:E2 in N; [done|]. rewrite E2. by eexists.
  - rewrite bind_ret. rewrite (vxlan_rest_not_ipv4 w q bs F H _ E) by done. by eexists.
Qed.

Lemma VxlanDecap_some w q mb bs o :
  mbufs w !! CMbuf (pkt w) = Some mb -> Mbuf_L2 mb = q ->
  frame (heap w) q bs -> (MaxHeaders <= length bs)%nat -> wire_vxlan bs = Some o ->
  let inner := drop (o + 16) bs in
  (MaxHeaders <= length inner)%nat -> roomy (q + Z.of_nat (o + 16)) ->
  VxlanDecap w =
    Some (vxlan_rc inner,
          set_pkt (vxlan_packet (q + Z.of_nat (o + 16)) inner (overlay_packet q o (pkt w))) w).
Proof.
  intros Hmb Hq F H V inner Hi T. rewrite (VxlanDecap_head w q mb bs Hmb Hq F H).
  unfold wire_vxlan in V. pose proof (frame_pos _ _ _ F) as Pos. pose proof (wire_ip_offset bs) as O.
  destruct (_ && _) eqn:E in V; [|done]. apply andb_true_iff in E as [[E1 E2]%andb_true_iff E3].
  rewrite E1. apply Z.eqb_eq in E1. rewrite E1. simpl (_ || _). cbv iota.
  rewrite (vxlan_rest_ipv4 w q bs F H E1). rewrite E2, E3. cbn [andb].
  apply (inj Some) in V. rewrite V. rewrite V in O. set (w3 := set_pkt (overlay_packet q o (pkt w)) w).
  assert (E : L2 (pkt w3) = q + Z.of_nat (o + 16)).
  { simpl. unfold ptr_add, UDPLen, VXLANLen. unfold roomy in T. rewrite u64_small; lia. }
  assert (F3 : frame (heap w3) (L2 (pkt w3)) inner).
  { rewrite E. apply (frame_drop _ _ _ _ F). unfold inner in Hi. rewrite length_drop in Hi.
    unfold MaxHeaders in *. lia. }
  rewrite (VxlanInner_frame w3 inner (q + Z.of_nat o) F3 Hi) by (rewrite ?E; (done || lia)).
  by rewrite E.
Qed.

(** ** Properties *)

(** The 16- and 32-bit swaps are the conversion between the host order a
    header field is loaded in and the network order the wire bytes spell, and
    swapping twice gives the value back. *)
Theorem SwapBytes_spec l :
  Forall byte_ok l ->
  (length l = 2%nat ->
   SwapBytesUint16 (le_val l) = be_val l /\
   SwapBytesUint16 (SwapBytesUint16 (le_val l)) = le_val l) /\
  (length l = 4%nat ->
   SwapBytesUint32 (le_val l) = be_val l /\ SwapBytesIPv4Addr (le_val l) = be_val l /\
   SwapBytesUint32 (SwapBytesUint32 (le_val l)) = le_val l).
Proof.
  intros F. split; intros Hl.
  - split; [by apply SwapBytesUint16_be|]. apply SwapBytesUint16_invol.
    pose proof (le_val_range _ F) as R. by rewrite Hl in R.
  - destruct l as [|a [|x [|c [|d [|]]]]]; try done.
    bytes_inv.
    change SwapBytesIPv4Addr with SwapBytesUint32. rewrite !SwapBytesUint32_arith by done.
    split_and!; [cbn [le_val be_val length]; lia..|done].
Qed.

Lemma SwapBytes_spec_witness :
  SwapBytesUint16 (le_val [0x12; 0x34]) = 0x1234 /\
  SwapBytesUint32 (le_val [192; 168; 0; 1]) = 0xc0a80001.
Proof.
  destruct (SwapBytes_spec [0x12; 0x34]) as [H _]; [repeat constructor; (done || lia)|].
  destruct (SwapBytes_spec [192; 168; 0; 1]) as [_ K]; [repeat constructor; (done || lia)|].
  split; [exact (proj1 (H eq_refl))|exact (proj1 (K eq_refl))].
Defined.

(** C1. On any frame of at least [MaxHeaders] bytes, [ParseData] finds the
    network header, the transport header and the payload exactly where the
    reference parser finds them in the wire bytes, returns [0] when the frame
    carries TCP, UDP or ICMP over IPv4 or IPv6 and [-1] otherwise, never panics,
    and changes nothing but the header pointers. *)
Theorem ParseData_spec w bs :
  frame (heap w) (L2 (pkt w)) bs -> (MaxHeaders <= length bs)%nat -> roomy (L2 (pkt w)) ->
  ParseData w =
    Some (payload_rc (wire_layout bs),
          set_pkt (with_layout (L2 (pkt w)) (wire_layout bs) (pkt w)) w).
Proof. apply ParseData_frame. Qed.

(** A frame with an Ethernet header of type [et], and sample worlds. *)
Definition sample_frame (l3 : list Z) (et : list Z) : list Z :=
  replicate 12 17 ++ et ++ l3 ++ replicate (100 - length l3) 0.

Definition sample_world (bs : list Z) : World :=
  mkWorld (write ∅ 4224 bs) {[ 8 := mkMbuf 4096 128 (Z.of_nat (length bs)) (Z.of_nat (length bs)) 2048 0 0 64 0 ]}
    (set_L2 4224 (zero_packet 8)) false 120.

Lemma sample_world_frame bs :
  Forall byte_ok bs -> (length bs < 2000)%nat -> frame (heap (sample_world bs)) 4224 bs.
Proof. intros. split; [by apply load_write_same|lia|lia|done]. Qed.

(** UDP over IPv4 with a header of 24 bytes. *)
Definition udp_frame : list Z :=
  sample_frame ([0x46; 0; 0; 90; 0; 0; 0; 0; 64; 17; 0; 0; 10; 0; 0; 1; 10; 0; 0; 2; 1; 1; 1; 1;
                 0; 53; 0; 53; 0; 66; 0; 0]) [8; 0].

Lemma udp_frame_ok : frame (heap (sample_world udp_frame)) 4224 udp_frame.
Proof.
  apply sample_world_frame; [|vm_compute; lia].
  apply (bool_decide_unpack _). vm_compute. exact I.
Qed.

Lemma ParseData_spec_witness :
  exists w', ParseData (sample_world udp_frame) = Some (0, w') /\
    L3 (pkt w') = 4238 /\ L4 (pkt w') = 4262 /\ Data (pkt w') = 4270.
Proof.
  eexists. split; [|split_and!].
  1: rewrite (ParseData_spec (sample_world udp_frame) udp_frame udp_frame_ok); [reflexivity|vm_compute; lia|vm_compute; reflexivity].
  all: vm_compute; reflexivity.
Defined.

(** [VxlanDecap] returns [-1] without entering an overlay on every frame the
    reference parser does not take for a VXLAN frame. On a VXLAN frame with an
    inner frame of at least [MaxHeaders] bytes it records the outer headers,
    moves [L2] to the inner frame, and lays the inner headers out as the
    reference parser does on the inner bytes. *)
Theorem VxlanDecap_spec w q mb bs :
  mbufs w !! CMbuf (pkt w) = Some mb -> Mbuf_L2 mb = q ->
  frame (heap w) q bs -> (MaxHeaders <= length bs)%nat -> roomy q ->
  match wire_vxlan bs with
  | None =>
      exists p, VxlanDecap w = Some (-1, set_pkt p w) /\ Overlay p = false /\ L2 p = q
  | Some o =>
      let inner := drop (o + 16) bs in
      let qi := q + Z.of_nat (o + 16) in
      (MaxHeaders <= length inner)%nat -> roomy qi ->
      VxlanDecap w =
        Some (vxlan_rc inner, set_pkt (vxlan_packet qi inner (overlay_packet q o (pkt w))) w) /\
      let p := vxlan_packet qi inner (overlay_packet q o (pkt w)) in
      Overlay p = true /\ OuterEther p = q /\ OuterIPv4Hdr p = q + 14 /\
      OuterUDPHdr p = q + Z.of_nat o /\ VxlanHeader p = q + Z.of_nat (o + 8) /\
      L3 p = qi + 14
  end.
Proof.
  intros Hmb Hq F H T. destruct (wire_vxlan bs) as [o|] eqn:V.
  - intros inner qi Hi Ti. split; [by eapply VxlanDecap_some|].
    pose proof (frame_pos _ _ _ F) as Pos. unfold roomy, qi in Ti.
    assert (A : ptr_add (q + Z.of_nat o) UDPLen = q + Z.of_nat (o + 8)).
    { unfold ptr_add, UDPLen. rewrite u64_small; lia. }
    unfold vxlan_packet, with_layout, overlay_packet, enter_overlay. cbn zeta.
    destruct (_ || _), (wire_layout inner) as [[?|] [?|]]; cbn -[Z.add Z.of_nat ptr_add]; auto 10.
  - destruct (VxlanDecap_none w q mb bs Hmb Hq F H T V) as (p & E & O & L & _). by exists p.
Qed.

(** A VXLAN frame around a UDP frame, and around one with an EtherType the
    parser does not know. *)
Definition vxlan_frame (inner : list Z) : list Z :=
  replicate 12 17 ++ [8; 0; 0x45; 0; 0; 90; 0; 0; 0; 0; 64; 17; 0; 0; 10; 0; 0; 1; 10; 0; 0; 2;
                      0; 53; 0x12; 0xb5; 0; 66; 0; 0; 8; 0; 0; 0; 0; 0; 1; 0] ++ inner.

Lemma vxlan_frame_ok inner :
  Forall byte_ok inner -> (length inner < 1900)%nat ->
  frame (heap (sample_world (vxlan_frame inner))) 4224 (vxlan_frame inner).
Proof.
  intros F H. apply sample_world_frame; [|unfold vxlan_frame; rewrite !length_app; simpl; lia].
  unfold vxlan_frame. apply Forall_app; split; [apply (bool_decide_unpack _); exact I|].
  apply Forall_app; split; [apply (bool_decide_unpack _); exact I|done].
Qed.

Lemma VxlanDecap_spec_witness :
  let bs := vxlan_frame udp_frame in
  exists w', VxlanDecap (sample_world bs) = Some (0, w') /\ Overlay (pkt w') = true /\
    L2 (pkt w') = 4224 + 50.
Proof.
  intros bs.
  assert (F : frame (heap (sample_world bs)) 4224 bs).
  { apply vxlan_frame_ok; [apply udp_frame_ok|vm_compute; lia]. }
  pose proof (VxlanDecap_spec (sample_world bs) 4224 (mkMbuf 4096 128 164 164 2048 0 0 64 0) bs
    eq_refl eq_refl F ltac:(vm_compute; lia) ltac:(vm_compute; reflexivity)) as S.
  replace (wire_vxlan bs) with (Some 34%nat) in S by reflexivity.
  destruct S as (E & S); [vm_compute; lia|vm_compute; reflexivity|].
  eexists. split; [exact E|]. split; [exact (proj1 S)|vm_compute; reflexivity].
Defined.

(** A VXLAN frame whose inner EtherType is neither IPv4, IPv6 nor ARP is
    reported as parsed: the outer UDP header is still in [pktUDP], so the
    function returns [0] with [Data] eight bytes past a nil [L4]. *)
Theorem VxlanDecap_unknown_inner w q mb bs o :
  mbufs w !! CMbuf (pkt w) = Some mb -> Mbuf_L2 mb = q ->
  frame (heap w) q bs -> wire_vxlan bs = Some o -> (o + 16 + MaxHeaders <= length bs)%nat ->
  roomy (q + Z.of_nat (o + 16)) ->
  let inner := drop (o + 16) bs in
  be16 inner 12 ∉ [0x0800; 0x86dd; 0x0806] ->
  exists p, VxlanDecap w = Some (0, set_pkt p w) /\ L4 p = 0 /\ Data p = 8.
Proof.
  intros Hmb Hq F V H T inner N.
  assert (N1 : wire_is_ip inner = false /\ (be16 inner 12 =? 0x0806) = false).
  { unfold wire_is_ip. rewrite !not_elem_of_cons in N. destruct N as (A & B & C & _).
    apply Z.eqb_neq in A, B, C. by rewrite A, B, C. }
  destruct N1 as [N1 N2].
  pose proof (VxlanDecap_some w q mb bs o Hmb Hq F ltac:(lia) V) as E. fold inner in E.
  rewrite E by (unfold inner; rewrite ?length_drop; (done || lia)).
  unfold vxlan_rc, vxlan_packet. rewrite N1, N2, not_ip_layout by done.
  eexists; split_and!; reflexivity.
Qed.

Lemma VxlanDecap_unknown_inner_witness :
  let bs := vxlan_frame (sample_frame [] [0x88; 0xcc]) in
  exists p, VxlanDecap (sample_world bs) = Some (0, set_pkt p (sample_world bs)) /\ Data p = 8.
Proof.
  intros bs.
  assert (F : frame (heap (sample_world bs)) 4224 bs).
  { apply vxlan_frame_ok; [apply (bool_decide_unpack _); vm_compute; exact I|vm_compute; lia]. }
  destruct (VxlanDecap_unknown_inner (sample_world bs) 4224 (mkMbuf 4096 128 164 164 2048 0 0 64 0)
    bs 34 eq_refl eq_refl F) as (p & E & _ & D).
  - reflexivity.
  - vm_compute. lia.
  - vm_compute. reflexivity.
  - vm_compute. intros K. repeat (apply elem_of_cons in K as [K|K]; [discriminate|]).
    by apply elem_of_nil in K.
  - by exists p.
Defined.

(** The payload slice of a frame of at least [MaxHeaders] bytes is exactly
    the frame without its headers, [false] is returned for frames without a
    known payload, and a frame whose headers claim more bytes than it has makes
    the slice expression panic. *)
Theorem GetPacketPayload_spec w mb bs :
  let q := L2 (pkt w) in
  mbufs w !! CMbuf (pkt w) = Some mb -> Mbuf_L2 mb = q -> data_len mb = Z.of_nat (length bs) ->
  frame (heap w) q bs -> (MaxHeaders <= length bs)%nat -> roomy q ->
  match snd (wire_layout bs) with
  | None => exists w', GetPacketPayload w = Some (mkSlice 0 0, false, w')
  | Some o =>
      if (length bs <? o)%nat then GetPacketPayload w = None
      else exists s w', GetPacketPayload w = Some (s, true, w') /\ heap w' = heap w /\
             slice_bytes (heap w') s = Some (drop o bs)
  end.
Proof.
  intros q Hmb Hq Hl F H T. pose proof (frame_pos _ _ _ F) as Pos.
  pose proof (frame_top _ _ _ F) as Top.
  assert (E : GetPacketPayload w =
    if payload_rc (wire_layout bs) =? -1 then
      Some (mkSlice 0 0, false, set_pkt (with_layout q (wire_layout bs) (pkt w)) w)
    else
      let w' := set_pkt (with_layout q (wire_layout bs) (pkt w)) w in
      let h := u64 (Data (pkt w') - q) in
      if Z.of_nat (length bs) <? h then None
      else Some (mkSlice (q + h) (Z.of_nat (length bs) - h), true, w')).
  { unfold GetPacketPayload, StartAtOffset. rewrite bind_getP. cbv beta.
    unfold GetRawPacketBytes. rewrite bind_assoc, bind_getP, (bind_of_mbuf _ _ _ _ mb) by done.
    unfold GetRawPacketBytesMbuf. fold (Mbuf_L2 mb). rewrite Hq, Hl.
    run (ParseData_frame w bs F H T). unfold q.
    assert (P0 : ptr_add (L2 (pkt w)) 0 = L2 (pkt w))
      by (unfold ptr_add; rewrite u64_small; fold q; lia).
    rewrite P0. destruct (_ =? -1); [done|]. rewrite bind_getP. cbn [s_len s_ptr]. cbv zeta.
    by destruct (Z.of_nat (length bs) <? _). }
  rewrite E. unfold payload_rc, with_layout. destruct (snd (wire_layout bs)) as [o|] eqn:L.
  - simpl (_ =? -1). cbv iota zeta. cbn [pkt set_pkt Data set_Data].
    replace (q + Z.of_nat o - q) with (Z.of_nat o) by lia.
    assert (O : (o <= 134)%nat).
    { revert L. unfold wire_layout, wire_payload. pose proof (wire_ip_offset bs).
      assert (forall k, (4 * Z.to_nat (b bs k / 16) <= 60)%nat).
      { intros k. pose proof (byte_at bs k (frame_ok _ _ _ F)) as B. unfold byte_ok, b in *.
        assert (bs !!! k / 16 <= 15) by zlia. lia. }
      repeat case_match; simpl; intros; simplify_eq; try lia;
        match goal with H : forall k, _ |- context [b bs ?k / 16] => pose proof (H k); lia end. }
    rewrite u64_small by lia.
    destruct (Nat.ltb_spec (length bs) o), (Z.ltb_spec (Z.of_nat (length bs)) (Z.of_nat o));
      try lia; [done|].
    eexists _, _. split; [done|]. split; [done|]. unfold slice_bytes. simpl.
    rewrite (frame_bytes _ _ bs) by (done || lia). f_equal. apply take_ge.
    rewrite length_drop. lia.
  - simpl. eauto.
Qed.

Lemma GetPacketPayload_spec_witness :
  exists s w', GetPacketPayload (sample_world udp_frame) = Some (s, true, w') /\
    slice_bytes (heap w') s = Some (replicate 68 0).
Proof.
  pose proof (GetPacketPayload_spec (sample_world udp_frame) (mkMbuf 4096 128 114 114 2048 0 0 64 0)
    udp_frame eq_refl eq_refl eq_refl udp_frame_ok ltac:(vm_compute; lia) ltac:(vm_compute; reflexivity)) as P.
  replace (snd (wire_layout udp_frame)) with (Some 46%nat) in P by reflexivity.
  destruct P as (s & w' & E & _ & S). by exists s, w'.
Defined.

(** [GeneratePacketFromByte] on an empty packet buffer stores the bytes so
    that [GetRawPacketBytes] reads them back, refuses data that does not fit
    without changing anything, and never writes outside the data area. *)
Theorem GeneratePacketFromByte_spec w mb data :
  mbufs w !! CMbuf (pkt w) = Some mb -> wf_mbuf mb -> data_len mb = 0 ->
  mapped (heap w) (buf_addr mb) (buf_len mb) -> Z.of_nat (length data) < 65536 ->
  if Z.of_nat (length data) <=? TailRoomSize mb then
    exists w' s, GeneratePacketFromByte data w = Some (true, w') /\
      GetRawPacketBytes w' = Some (s, w') /\ slice_bytes (heap w') s = Some data /\
      (forall a, a < Mbuf_L2 mb \/ Mbuf_L2 mb + Z.of_nat (length data) <= a ->
                 heap w' !! a = heap w !! a)
  else GeneratePacketFromByte data w = Some (false, w).
Proof.
  intros Hmb W Hl Mp Hd. pose proof (TailRoomSize_wf mb W) as Tr. pose proof W as [].
  pose proof (Mbuf_L2_wf mb W) as EL.
  destruct (Z.leb_spec (Z.of_nat (length data)) (TailRoomSize mb)).
  - set (mb' := set_data (data_off mb) (Z.of_nat (length data)) (Z.of_nat (length data)) mb).
    set (w' := set_heap (write (heap w) (Mbuf_L2 mb) data)
                 (set_mbufs (<[CMbuf (pkt w) := mb']> (mbufs w)) w)).
    assert (G : GeneratePacketFromByte data w = Some (true, w')).
    { unfold GeneratePacketFromByte. rewrite bind_getP, (bind_on_mbuf _ _ _ _ mb) by done.
      rewrite AppendMbuf_ok by (done || lia). cbn [fst snd negb]. cbv iota.
      rewrite Hl. simpl (0 + _). fold mb'.
      rewrite (bind_of_mbuf _ _ _ _ mb') by (apply lookup_insert_eq).
      unfold WriteDataToMbuf. change (GetPacketDataStartPointer mb') with (Mbuf_L2 mb).
      replace (Mbuf_L2 mb =? 0) with false by (symmetry; apply Z.eqb_neq; lia).
      replace (2147483647 <? Z.of_nat (length data)) with false by (symmetry; apply Z.ltb_ge; lia).
      cbn [orb]. simpl heap. rewrite store_bytes_mapped; [done|].
      eapply mapped_sub; [apply Mp|..]; lia. }
    exists w', (mkSlice (Mbuf_L2 mb) (Z.of_nat (length data))). split_and!.
    + done.
    + unfold GetRawPacketBytes. rewrite bind_getP. unfold of_mbuf. simpl.
      by rewrite lookup_insert_eq.
    + unfold slice_bytes. simpl. apply load_write_same. lia.
    + intros a Ha. simpl. by apply lookup_write_out.
  - unfold GeneratePacketFromByte. rewrite bind_getP, (bind_on_mbuf _ _ _ _ mb) by done.
    rewrite AppendMbuf_fail by (done || lia). simpl. unfold ret. do 3 f_equal.
    rewrite insert_id by done. by destruct w.
Qed.

Lemma GeneratePacketFromByte_spec_witness :
  let w := mkWorld (write ∅ 4096 (replicate 64 0)) {[ 8 := mkMbuf 4096 16 0 0 64 0 0 64 0 ]}
             (zero_packet 8) false 0 in
  exists w' s, GeneratePacketFromByte [1; 2; 3] w = Some (true, w') /\
    slice_bytes (heap w') s = Some [1; 2; 3].
Proof.
  intros w.
  assert (Mp : mapped (heap w) 4096 64).
  { intros i Hi. change (heap w) with (write ∅ 4096 (replicate 64 0)).
    rewrite lookup_write, length_replicate, decide_True by lia.
    apply lookup_lt_is_Some_2. rewrite length_replicate. lia. }
  pose proof (GeneratePacketFromByte_spec w (mkMbuf 4096 16 0 0 64 0 0 64 0) [1; 2; 3]
    eq_refl ltac:(split; simpl; lia) eq_refl Mp ltac:(simpl; lia)) as P.
  replace (_ <=? _) with true in P by reflexivity.
  destruct P as (w' & s & G & _ & S & _). by exists w', s.
Defined.
