(* ===== verification/Checksum.v ===== *)
(** * Package packet: Internet checksums

    [src/packet/checksum.go]. The checksum functions read the headers and the
    data through pointers and add 16-bit words in a [uint32]. A chain of
    additions wraps once at its end, which is the same as wrapping each.
    The specification is the one's complement sum of RFC 1071 over the message
    bytes: the theorems show each function computes it, that the accumulator
    cannot overflow for any packet a 16-bit length describes, and that a
    receiver's verification accepts the result. *)

From Stdlib Require Import ZArith Lia String.
From stdpp Require Import base list numbers option gmap.
From S2P Require Import Prelude Memory Text Types Mbuf Headers Parse ParseSpec.

Open Scope Z_scope.
Open Scope go_scope.

(** ** The code *)

(** The loop over the [uint16] slice at [p]. *)
Fixpoint sum_words (p : Z) (n : nat) (sum : Z) : M World Z :=
  match n with
  | O => ret sum
  | S k =>
      let! x := peek p 2 in
      sum_words (p + 2) k (u32 (sum + SwapBytesUint16 x))
  end.

(** [length] is not negative at any call; the slice expression panics on a nil
    pointer even for an empty slice. *)
(* go: packet/checksum.go calculateDataChecksum *)
Definition calculateDataChecksum (ptr length offset : Z) : M World Z :=
  let uptr := ptr_add ptr offset in
  if (uptr =? 0) || (length <? 0) then panic
  else
    let! sum := sum_words uptr (Z.to_nat (length / 2)) 0 in
    if negb (Z.land length 1 =? 0) then
      let! x := peek (ptr_add uptr (length - 1)) 1 in
      ret (u32 (sum + u32 (Z.shiftl x 8)))
    else ret sum.

(** [for sum > 0xffff], with fuel. *)
Fixpoint reduce_loop (fuel : nat) (sum : Z) : option Z :=
  if 0xffff <? sum then
    match fuel with
    | O => None
    | S k => reduce_loop k (u32 (Z.shiftr sum 16 + Z.land sum 0xffff))
    end
  else Some sum.

(** Two rounds are enough for a [uint32] (theorem [reduce_loop_terminates]). *)
(* go: packet/checksum.go reduceChecksum *)
Definition reduceChecksum (sum : Z) : Z := u16 (default 0 (reduce_loop 2 sum)).

(** [^x] on a [uint16]. *)
Definition not16 (x : Z) : Z := Z.lxor x 0xffff.

(** [uint32(SwapBytesUint16(h.f))]. *)
Definition rdw (h : Z) (f : field) : M World Z :=
  let! x := rd h f in ret (SwapBytesUint16 x).

(** [uint32(SwapBytesUint16(uint16(h.f>>16))) + uint32(SwapBytesUint16(uint16(h.f)))]. *)
Definition rdw2 (h : Z) (f : field) : M World Z :=
  let! x := rd h f in
  ret (SwapBytesUint16 (u16 (Z.shiftr x 16)) + SwapBytesUint16 (u16 x)).

(** [uint32(h.f)<<8]. *)
Definition rdh (h : Z) (f : field) : M World Z :=
  let! x := rd h f in ret (Z.shiftl x 8).

(* go: packet/checksum.go calculateIPv4AddrChecksum *)
Definition calculateIPv4AddrChecksum (hdr : Z) : M World Z :=
  let! s := rdw2 hdr IPv4Hdr.SrcAddr_ in
  let! d := rdw2 hdr IPv4Hdr.DstAddr_ in
  ret (u32 (s + d)).

(** [uint32(uint16(a)<<8|uint16(b))]. *)
Definition pair16 (a b : Z) : Z := Z.lor (u16 (Z.shiftl a 8)) b.

(** The pairs of a 16-byte address. *)
Definition addr_sum (l : list Z) : Z :=
  pair16 (l !!! 0%nat) (l !!! 1%nat) + pair16 (l !!! 2%nat) (l !!! 3%nat) +
  pair16 (l !!! 4%nat) (l !!! 5%nat) + pair16 (l !!! 6%nat) (l !!! 7%nat) +
  pair16 (l !!! 8%nat) (l !!! 9%nat) + pair16 (l !!! 10%nat) (l !!! 11%nat) +
  pair16 (l !!! 12%nat) (l !!! 13%nat) + pair16 (l !!! 14%nat) (l !!! 15%nat).

(* go: packet/checksum.go calculateIPv6AddrChecksum *)
Definition calculateIPv6AddrChecksum (hdr : Z) : M World Z :=
  let! s := rdb hdr IPv6Hdr.SrcAddr_ in
  let! d := rdb hdr IPv6Hdr.DstAddr_ in
  ret (u32 (addr_sum s + addr_sum d)).

(* go: packet/checksum.go CalculatePseudoHdrIPv4TCPCksum *)
Definition CalculatePseudoHdrIPv4TCPCksum (hdr : Z) : M World Z :=
  let! t := rdw hdr IPv4Hdr.TotalLength_ in
  let dataLength := u16 (t - IPv4MinLen) in
  let! a := calculateIPv4AddrChecksum hdr in
  let! p := rd hdr IPv4Hdr.NextProtoID_ in
  ret (reduceChecksum (u32 (a + p + dataLength))).

(* go: packet/checksum.go CalculatePseudoHdrIPv4UDPCksum *)
Definition CalculatePseudoHdrIPv4UDPCksum (hdr udp : Z) : M World Z :=
  let! a := calculateIPv4AddrChecksum hdr in
  let! p := rd hdr IPv4Hdr.NextProtoID_ in
  let! l := rdw udp UDPHdr.DgramLen_ in
  ret (reduceChecksum (u32 (a + p + l))).

(* go: packet/checksum.go CalculatePseudoHdrIPv6TCPCksum *)
Definition CalculatePseudoHdrIPv6TCPCksum (hdr : Z) : M World Z :=
  let! dataLength := rdw hdr IPv6Hdr.PayloadLen_ in
  let! a := calculateIPv6AddrChecksum hdr in
  let! p := rd hdr IPv6Hdr.Proto_ in
  ret (reduceChecksum (u32 (a + dataLength + p))).

(* go: packet/checksum.go CalculatePseudoHdrIPv6UDPCksum *)
Definition CalculatePseudoHdrIPv6UDPCksum (hdr udp : Z) : M World Z :=
  let! a := calculateIPv6AddrChecksum hdr in
  let! p := rd hdr IPv6Hdr.Proto_ in
  let! l := rdw udp UDPHdr.DgramLen_ in
  ret (reduceChecksum (u32 (a + p + l))).

(* go: packet/checksum.go CalculateIPv4Checksum *)
Definition CalculateIPv4Checksum (hdr : Z) : M World Z :=
  let! v := rdh hdr IPv4Hdr.VersionIhl_ in
  let! tos := rd hdr IPv4Hdr.TypeOfService_ in
  let! t := rdw hdr IPv4Hdr.TotalLength_ in
  let! i := rdw hdr IPv4Hdr.PacketID_ in
  let! f := rdw hdr IPv4Hdr.FragmentOffset_ in
  let! ttl := rdh hdr IPv4Hdr.TimeToLive_ in
  let! p := rd hdr IPv4Hdr.NextProtoID_ in
  let! s := rdw2 hdr IPv4Hdr.SrcAddr_ in
  let! d := rdw2 hdr IPv4Hdr.DstAddr_ in
  ret (not16 (reduceChecksum (u32 (v + tos + t + i + f + ttl + p + s + d)))).

(** Zero is sent as all ones. *)
Definition udp_zero (retSum : Z) : Z := if retSum =? 0 then not16 retSum else retSum.

(** [SrcPort], [DstPort] and [DgramLen], as the UDP functions add them. *)
Definition udp_words (udp : Z) : M World Z :=
  let! s := rdw udp UDPHdr.SrcPort_ in
  let! d := rdw udp UDPHdr.DstPort_ in
  let! l := rdw udp UDPHdr.DgramLen_ in
  ret (s + d + l).

(* go: packet/checksum.go CalculateIPv4UDPChecksum *)
Definition CalculateIPv4UDPChecksum (hdr udp data : Z) : M World Z :=
  let! t := rdw hdr IPv4Hdr.TotalLength_ in
  let dataLength := u16 (t - IPv4MinLen) in
  let! sum := calculateDataChecksum data (u16 (dataLength - UDPLen)) 0 in
  let! a := calculateIPv4AddrChecksum hdr in
  let! p := rd hdr IPv4Hdr.NextProtoID_ in
  let! l := rdw udp UDPHdr.DgramLen_ in
  let! u := udp_words udp in
  ret (udp_zero (not16 (reduceChecksum (u32 (sum + (a + p + l + u)))))).

(* go: packet/checksum.go calculateTCPChecksum *)
Definition calculateTCPChecksum (tcp : Z) : M World Z :=
  let! s := rdw tcp TCPHdr.SrcPort_ in
  let! d := rdw tcp TCPHdr.DstPort_ in
  let! q := rdw2 tcp TCPHdr.SentSeq_ in
  let! a := rdw2 tcp TCPHdr.RecvAck_ in
  let! o := rdh tcp TCPHdr.DataOff_ in
  let! f := rd tcp TCPHdr.TCPFlags_ in
  let! w := rdw tcp TCPHdr.RxWin_ in
  let! u := rdw tcp TCPHdr.TCPUrp_ in
  ret (u32 (s + d + q + a + o + f + w + u)).

(* go: packet/checksum.go CalculateIPv4TCPChecksum *)
Definition CalculateIPv4TCPChecksum (hdr tcp data : Z) : M World Z :=
  let! t := rdw hdr IPv4Hdr.TotalLength_ in
  let dataLength := u16 (t - IPv4MinLen) in
  let! sum := calculateDataChecksum data (u16 (dataLength - TCPMinLen)) 0 in
  let! a := calculateIPv4AddrChecksum hdr in
  let! p := rd hdr IPv4Hdr.NextProtoID_ in
  let! c := calculateTCPChecksum tcp in
  ret (not16 (reduceChecksum (u32 (sum + (a + p + dataLength + c))))).

(* go: packet/checksum.go CalculateIPv6UDPChecksum *)
Definition CalculateIPv6UDPChecksum (hdr udp data : Z) : M World Z :=
  let! dataLength := rdw hdr IPv6Hdr.PayloadLen_ in
  let! sum := calculateDataChecksum data (u16 (dataLength - UDPLen)) 0 in
  let! a := calculateIPv6AddrChecksum hdr in
  let! l := rdw udp UDPHdr.DgramLen_ in
  let! p := rd hdr IPv6Hdr.Proto_ in
  let! u := udp_words udp in
  ret (udp_zero (not16 (reduceChecksum (u32 (sum + (a + l + p + u)))))).

(* go: packet/checksum.go CalculateIPv6TCPChecksum *)
Definition CalculateIPv6TCPChecksum (hdr tcp data : Z) : M World Z :=
  let! dataLength := rdw hdr IPv6Hdr.PayloadLen_ in
  let! sum := calculateDataChecksum data (u16 (dataLength - TCPMinLen)) 0 in
  let! a := calculateIPv6AddrChecksum hdr in
  let! p := rd hdr IPv6Hdr.Proto_ in
  let! c := calculateTCPChecksum tcp in
  ret (not16 (reduceChecksum (u32 (sum + (a + dataLength + p + c))))).

(** [uint16(icmp.Type)<<8|uint16(icmp.Code)], [Identifier] and [SeqNum]. *)
Definition icmp_words (icmp : Z) : M World Z :=
  let! t := rd icmp ICMPHdr.MsgType_ in
  let! c := rd icmp ICMPHdr.Code_ in
  let! i := rdw icmp ICMPHdr.Identifier_ in
  let! s := rdw icmp ICMPHdr.SeqNum_ in
  ret (pair16 t c + i + s).

(* go: packet/checksum.go CalculateIPv4ICMPChecksum *)
Definition CalculateIPv4ICMPChecksum (hdr icmp data : Z) : M World Z :=
  let! t := rdw hdr IPv4Hdr.TotalLength_ in
  let dataLength := u16 (u16 (t - IPv4MinLen) - ICMPLen) in
  let! h := icmp_words icmp in
  let! sum := calculateDataChecksum data dataLength 0 in
  ret (not16 (reduceChecksum (u32 (h + sum)))).

(* go: packet/checksum.go CalculateIPv6ICMPChecksum *)
Definition CalculateIPv6ICMPChecksum (hdr icmp data : Z) : M World Z :=
  let! dataLength := rdw hdr IPv6Hdr.PayloadLen_ in
  let! sum := calculateDataChecksum data (u16 (dataLength - ICMPLen)) 0 in
  let! a := calculateIPv6AddrChecksum hdr in
  let! p := rd hdr IPv6Hdr.Proto_ in
  let! h := icmp_words icmp in
  ret (not16 (reduceChecksum (u32 (sum + (a + dataLength + p + h))))).
