(* ===== verification/ChecksumSpec.v ===== *)
(** * What the checksums promise: RFC 1071

    The one's complement sum of the 16-bit words of a message, in network
    order, an odd last byte padded with zero; and the proofs that the functions
    of [Checksum] compute its complement over the pseudo header, the transport
    header and the data. *)

From Stdlib Require Import ZArith Lia String.
From stdpp Require Import base list numbers option gmap.
From S2P Require Import Prelude Memory Text Types Mbuf Headers Parse ParseSpec Checksum.

Open Scope Z_scope.
Open Scope go_scope.

(** ** One's complement arithmetic *)

Fixpoint be_words (l : list Z) : list Z :=
  match l with
  | a :: x :: r => (256 * a + x) :: be_words r
  | [a] => [256 * a]
  | [] => []
  end.

(** Addition with end-around carry. *)
Definition ones_add (x y : Z) : Z := if 0xffff <? x + y then x + y - 0xffff else x + y.
Definition ones_sum (ws : list Z) : Z := foldr ones_add 0 ws.

(** The checksum of a message whose checksum field holds zero. *)
Definition inet_checksum (bs : list Z) : Z := 0xffff - ones_sum (be_words bs).

(** A receiver sums the message with the checksum [c] between [x] and [y]. *)
Definition accepts (x y : list Z) (c : Z) : Prop :=
  ones_sum (be_words (x ++ [c / 256; c mod 256] ++ y)) = 0xffff.

Definition wsum (l : list Z) : Z := sumZ (be_words l).

(** The residue of a sum modulo [0xffff], with [0xffff] for its nonzero
    multiples. *)
Definition norm16 (s : Z) : Z := if s =? 0 then 0 else (s - 1) mod 0xffff + 1.

Definition word_ok (x : Z) : Prop := 0 <= x <= 0xffff.

Lemma list_ind2 (P : list Z -> Prop) :
  P [] -> (forall a, P [a]) -> (forall a x r, P r -> P (a :: x :: r)) -> forall l, P l.
Proof.
  intros H0 H1 H2. refine (fix F l := match l with [] => H0 | [a] => H1 a | a :: x :: r => H2 a x r (F r) end).
Qed.

Lemma be_words_ok l : Forall byte_ok l -> Forall word_ok (be_words l).
Proof.
  induction l as [|a|a x r IH] using list_ind2; intros F; [constructor|..];
    bytes_inv; constructor; unfold byte_ok, word_ok in *; (done || lia || by apply IH).
Qed.

Lemma length_be_words l : Z.of_nat (length (be_words l)) = (Z.of_nat (length l) + 1) / 2.
Proof. induction l as [|a|a x r IH] using list_ind2; cbn [length be_words]; [done..|]. zlia. Qed.

Lemma wsum_bound l :
  Forall byte_ok l -> 0 <= wsum l <= 0xffff * ((Z.of_nat (length l) + 1) / 2).
Proof. intros F. rewrite <- length_be_words. by apply sumZ_bound, be_words_ok. Qed.

Lemma be_words_app l k :
  Nat.even (length l) = true -> be_words (l ++ k) = be_words l ++ be_words k.
Proof.
  induction l as [|a|a x r IH] using list_ind2; intros E; [done..|]. simpl. f_equal. by apply IH.
Qed.

Lemma wsum_app l k : Nat.even (length l) = true -> wsum (l ++ k) = wsum l + wsum k.
Proof. intros. unfold wsum. by rewrite be_words_app, sumZ_app. Qed.

Lemma wsum_cons2 a x r : wsum (a :: x :: r) = 256 * a + x + wsum r.
Proof. done. Qed.

Lemma wsum_nil : wsum [] = 0.
Proof. done. Qed.

Lemma ones_sum_norm ws : Forall word_ok ws -> ones_sum ws = norm16 (sumZ ws).
Proof.
  induction 1 as [|x ws Hx F IH]; [done|]. cbn [ones_sum foldr sumZ].
  fold (ones_sum ws). fold (sumZ ws). rewrite IH. unfold word_ok in Hx.
  assert (0 <= sumZ ws) by (apply sumZ_nonneg; eapply Forall_impl; [exact F|by intros ? []]).
  unfold ones_add, norm16. repeat case_match; zlia.
Qed.

Lemma norm16_range s : 0 <= s -> word_ok (norm16 s).
Proof. unfold norm16, word_ok. case_match; zlia. Qed.

Lemma reduce_loop_norm s : 0 <= s < 4294967296 -> reduce_loop 2 s = Some (norm16 s).
Proof.
  intros H. unfold norm16. cbn [reduce_loop].
  rewrite !land_ffff, !Z.shiftr_div_pow2 by lia. change (2 ^ 16) with 65536.
  repeat match goal with |- context [?a <? ?c] => destruct (Z.ltb_spec a c) end;
    destruct (Z.eqb_spec s 0); first [exfalso; zlia | f_equal; zlia].
Qed.

Lemma reduceChecksum_norm s : 0 <= s < 4294967296 -> reduceChecksum s = norm16 s.
Proof.
  intros H. unfold reduceChecksum. rewrite reduce_loop_norm by done. simpl.
  pose proof (norm16_range s). unfold word_ok in *. apply u16_small. lia.
Qed.

Lemma not16_sub x : word_ok x -> not16 x = 0xffff - x.
Proof.
  unfold word_ok, not16. intros H. change 0xffff with (Z.ones 16) at 1.
  assert (E : Z.land x (Z.lxor x (Z.ones 16)) = 0).
  { apply Z.bits_inj'. intros n Hn. rewrite Z.land_spec, Z.lxor_spec, Z.bits_0.
    destruct (Z.lt_ge_cases n 16).
    - rewrite Z.ones_spec_low by lia. by destruct (Z.testbit x n).
    - rewrite Z.ones_spec_high by lia. destruct (decide (x = 0)) as [->|]; [by rewrite Z.bits_0|].
      rewrite (Z.bits_above_log2 x n); [done|lia|].
      apply Z.log2_lt_pow2; [lia|]. apply Z.lt_le_trans with (2 ^ 16); [lia|].
      apply Z.pow_le_mono_r; lia. }
  pose proof (Z.add_nocarry_lxor _ _ E) as A. rewrite <- Z.lxor_assoc, Z.lxor_nilpotent in A.
  rewrite Z.lxor_0_l in A. change (Z.ones 16) with 65535 in *. lia.
Qed.

(** What the code does with its accumulator is the RFC's checksum. *)
Lemma checksum_correct bs :
  Forall byte_ok bs -> Z.of_nat (length bs) <= 131000 ->
  not16 (reduceChecksum (wsum bs)) = inet_checksum bs /\ word_ok (inet_checksum bs).
Proof.
  intros F H. pose proof (wsum_bound bs F) as B.
  assert (0 <= wsum bs < 4294967296) by zlia. unfold inet_checksum.
  rewrite reduceChecksum_norm by done.
  rewrite not16_sub by (apply norm16_range; lia).
  rewrite ones_sum_norm by (by apply be_words_ok). fold (wsum bs).
  pose proof (norm16_range (wsum bs) ltac:(lia)). split; [done|]. unfold word_ok in *. lia.
Qed.

(** A receiver accepts a message whose checksum field holds the checksum, and
    also one where zero was replaced by all ones. *)
Lemma checksum_accepts x y :
  Forall byte_ok x -> Forall byte_ok y -> Nat.even (length x) = true ->
  let c := inet_checksum (x ++ [0; 0] ++ y) in accepts x y c /\ accepts x y (udp_zero c).
Proof.
  intros Fx Fy E c.
  assert (Fm : forall a d, byte_ok a -> byte_ok d -> Forall byte_ok (x ++ [a; d] ++ y)).
  { intros. apply Forall_app; split; [done|]. by do 2 (constructor; [done|]). }
  assert (S : forall a d, wsum (x ++ [a; d] ++ y) = wsum x + wsum y + 256 * a + d).
  { intros. rewrite wsum_app by done. change ([a; d] ++ y) with (a :: d :: y).
    rewrite wsum_cons2. lia. }
  assert (P : 0 <= wsum x + wsum y).
  { pose proof (wsum_bound x Fx). pose proof (wsum_bound y Fy). lia. }
  assert (Z0 : byte_ok 0) by (unfold byte_ok; lia).
  assert (Hc : c = 0xffff - norm16 (wsum x + wsum y)).
  { unfold c, inet_checksum. rewrite ones_sum_norm by (apply be_words_ok, Fm; done).
    change (sumZ (be_words (x ++ [0; 0] ++ y))) with (wsum (x ++ [0; 0] ++ y)). rewrite S.
    do 2 f_equal. lia. }
  clearbody c.
  pose proof (norm16_range _ P) as R. unfold word_ok in R.
  assert (A : forall v, 0 <= v <= 0xffff -> norm16 (wsum x + wsum y + v) = 0xffff -> accepts x y v).
  { intros v Hv N. unfold accepts. assert (byte_ok (v / 256) /\ byte_ok (v mod 256)) as [??]
      by (unfold byte_ok; zlia).
    rewrite ones_sum_norm by (apply be_words_ok, Fm; done).
    change (sumZ (be_words ?l)) with (wsum l). rewrite S.
    replace (_ + 256 * (v / 256) + v mod 256) with (wsum x + wsum y + v) by zlia. done. }
  unfold udp_zero. split.
  - apply A; [lia|]. rewrite Hc. unfold norm16 in *. repeat case_match; zlia.
  - destruct (Z.eqb_spec c 0) as [E0|].
    + change (not16 c) with (Z.lxor c 0xffff). rewrite E0. change (Z.lxor 0 0xffff) with 0xffff.
      apply A; [lia|]. rewrite E0 in Hc. unfold norm16 in *. repeat case_match; zlia.
    + apply A; [lia|]. rewrite Hc. unfold norm16 in *. repeat case_match; zlia.
Qed.

(** ** Reading words *)

Section Words.
Variables (w : World) (q : Z) (bs : list Z).
Hypothesis F : frame (heap w) q bs.

Lemma rd_at o n : 0 <= o -> (Z.to_nat o + n <= length bs)%nat ->
  rd q (Field o n) w = Some (le_val (take n (drop (Z.to_nat o) bs)), w).
Proof.
  intros Ho H. pose proof (rd_frame w q bs 0 (Field o n) F H Ho) as E.
  by rewrite Z.add_0_r in E.
Qed.

Lemma rdb_at o n : 0 <= o -> (Z.to_nat o + n <= length bs)%nat ->
  rdb q (Field o n) w = Some (take n (drop (Z.to_nat o) bs), w).
Proof.
  intros Ho H. pose proof F as []. unfold rdb. replace (q =? 0) with false by lia. simpl.
  unfold ptr_add. rewrite u64_small by lia.
  replace (q + o) with (q + Z.of_nat (Z.to_nat o)) by lia. by rewrite (frame_bytes _ _ bs).
Qed.

Lemma rd1_at o : 0 <= o -> (Z.to_nat o < length bs)%nat ->
  rd q (Field o 1) w = Some (b bs (Z.to_nat o), w).
Proof.
  intros Ho H. rewrite rd_at by lia. rewrite take_drop_one by lia. unfold b. simpl.
  by rewrite Z.add_0_r.
Qed.

Lemma rdw_at o : 0 <= o -> (S (Z.to_nat o) < length bs)%nat ->
  rdw q (Field o 2) w = Some (be16 bs (Z.to_nat o), w).
Proof.
  intros Ho H. unfold rdw. run (rd_at o 2 Ho ltac:(lia)). rewrite take_drop_two by lia.
  pose proof (byte_at bs (Z.to_nat o) (frame_ok _ _ _ F)).
  pose proof (byte_at bs (S (Z.to_nat o)) (frame_ok _ _ _ F)).
  unfold ret, be16, b. do 2 f_equal.
  rewrite SwapBytesUint16_be by (done || bytes). simpl. lia.
Qed.

Lemma rdw2_at o : 0 <= o -> (S (S (S (Z.to_nat o))) < length bs)%nat ->
  rdw2 q (Field o 4) w = Some (be16 bs (Z.to_nat o + 2) + be16 bs (Z.to_nat o), w).
Proof.
  intros Ho H. unfold rdw2. run (rd_at o 4 Ho ltac:(lia)). set (i := Z.to_nat o) in *.
  assert (B : forall k, byte_ok (bs !!! k)) by (intros; apply byte_at, F).
  pose proof (B i) as B0. pose proof (B (i + 1)%nat) as B1. pose proof (B (i + 2)%nat) as B2.
  pose proof (B (i + 3)%nat) as B3. unfold byte_ok in B0, B1, B2, B3.
  assert (E : le_val (take 4 (drop i bs)) = bs !!! i + 256 * bs !!! (i + 1)%nat +
    65536 * bs !!! (i + 2)%nat + 16777216 * bs !!! (i + 3)%nat).
  { replace 4%nat with (2 + 2)%nat by done. rewrite <- take_take_drop, drop_drop.
    rewrite !take_drop_two by lia. simpl. replace (S i) with (i + 1)%nat by lia.
    replace (S (i + 2)) with (i + 3)%nat by lia. lia. }
  rewrite E, Z.shiftr_div_pow2 by lia. change (2 ^ 16) with 65536. unfold ret, be16, b.
  replace (S (i + 2)) with (i + 3)%nat by lia. replace (S i) with (i + 1)%nat by lia.
  do 2 f_equal.
  replace (u16 _) with (bs !!! (i + 2)%nat + 256 * bs !!! (i + 3)%nat) at 1 by zlia.
  replace (u16 _) with (bs !!! i + 256 * bs !!! (i + 1)%nat) by zlia.
  rewrite !SwapBytesUint16_arith by done. lia.
Qed.

Lemma rdh_at o : 0 <= o -> (Z.to_nat o < length bs)%nat ->
  rdh q (Field o 1) w = Some (256 * b bs (Z.to_nat o), w).
Proof.
  intros Ho H. unfold rdh. run (rd1_at o Ho H). rewrite Z.shiftl_mul_pow2 by lia.
  unfold ret. do 2 f_equal. lia.
Qed.
End Words.

Lemma pair16_eq x y : byte_ok x -> byte_ok y -> pair16 x y = x * 256 + y.
Proof.
  unfold pair16, byte_ok. intros. rewrite u16_small by (rewrite Z.shiftl_mul_pow2; lia).
  apply lor_shiftl_add; lia.
Qed.

Lemma be16_range bs i : Forall byte_ok bs -> word_ok (be16 bs i).
Proof.
  intros F. pose proof (byte_at bs i F). pose proof (byte_at bs (S i) F).
  unfold be16, b, byte_ok, word_ok in *. lia.
Qed.

(** ** The data *)

Lemma sum_words_frame w p n s l :
  load_bytes (heap w) p (2 * n) = Some l -> Forall byte_ok l -> 0 <= s < 4294967296 ->
  sum_words p n s w = Some (u32 (s + wsum l), w).
Proof.
  revert p s l; induction n as [|n IH]; intros p s l L Fl Hs.
  - simpl in L. simplify_eq. rewrite wsum_nil, Z.add_0_r. by rewrite u32_small.
  - replace (2 * S n)%nat with (2 + 2 * n)%nat in L by lia.
    apply load_bytes_app in L as (x & y & Lx & Ly & ->).
    pose proof (load_bytes_length _ _ _ _ Lx) as Hx. destruct x as [|a [|d [|]]]; try done.
    apply Forall_app in Fl as [Fx Fy]. apply Forall_cons in Fx as [Ha Fx].
    apply Forall_cons in Fx as [Hd _].
    simpl sum_words. unfold peek at 1, load_le. unfold bind at 1. rewrite Lx. simpl fmap. cbv beta iota.
    rewrite Z.mul_0_r, Z.add_0_r. rewrite SwapBytesUint16_arith by done.
    rewrite (IH _ _ y Ly Fy) by apply u32_range. do 2 f_equal.
    simpl. rewrite wsum_cons2. zlia.
Qed.

Lemma data_split (l : list Z) n :
  length l = (2 * n + 1)%nat -> exists x a, l = x ++ [a] /\ length x = (2 * n)%nat.
Proof.
  intros H. exists (take (2 * n) l). destruct (drop (2 * n) l) as [|a [|]] eqn:E.
  all: pose proof (f_equal length E) as El; rewrite length_drop in El; simpl in El; try lia.
  exists a. rewrite <- E, take_drop, length_take. split; [done|lia].
Qed.

Lemma calculateDataChecksum_frame w p l :
  frame (heap w) p l -> Z.of_nat (length l) < 65536 ->
  calculateDataChecksum p (Z.of_nat (length l)) 0 w = Some (wsum l, w).
Proof.
  intros F H. pose proof F as [L Pos Top Ok]. unfold calculateDataChecksum.
  assert (P0 : ptr_add p 0 = p) by (unfold ptr_add; rewrite Z.add_0_r; apply u64_small; lia).
  rewrite P0. replace (p =? 0) with false by lia.
  replace (Z.of_nat (length l) <? 0) with false by lia. cbn [orb]. cbv iota.
  pose proof (wsum_bound l Ok) as B.
  assert (Bs : 0 <= wsum l < 4294967296) by zlia.
  change 1 with (2 ^ 1 - 1) at 1. rewrite (land_ones_mod _ 1) by lia. change (2 ^ 1) with 2.
  set (n := Z.to_nat (Z.of_nat (length l) / 2)).
  destruct (Z.eqb_spec (Z.of_nat (length l) mod 2) 0) as [E|E]; cbn [negb].
  - assert (Hn : length l = (2 * n)%nat) by (unfold n; zlia). rewrite Hn in L.
    run (sum_words_frame w p n 0 l L Ok ltac:(lia)). by rewrite Z.add_0_l, u32_small.
  - assert (Hn : length l = (2 * n + 1)%nat) by (unfold n; zlia).
    destruct (data_split l n Hn) as (x & a & -> & Hx). clearbody n.
    apply Forall_app in Ok as [Fx Fa]. apply Forall_cons in Fa as [Ha _].
    rewrite Hn in L. apply load_bytes_app in L as (x' & y & Lx & Ly & El).
    pose proof (load_bytes_length _ _ _ _ Lx).
    apply app_inj_1 in El as [<- <-]; [|lia].
    run (sum_words_frame w p n 0 x Lx Fx ltac:(lia)).
    rewrite Hn. unfold ptr_add. rewrite u64_small by lia.
    replace (p + (Z.of_nat (2 * n + 1) - 1)) with (p + Z.of_nat (2 * n)) by lia.
    unfold peek at 1, load_le, bind at 1. rewrite Ly. simpl fmap. cbv beta iota.
    rewrite wsum_app in Bs |- * by (rewrite Hx; apply Nat.even_spec; by exists n).
    change (wsum [a]) with (256 * a + 0) in *. pose proof (wsum_bound x Fx). unfold byte_ok in Ha.
    unfold ret. do 2 f_equal. simpl. rewrite Z.shiftl_mul_pow2 by lia.
    rewrite (u32_small (_ * _)), (u32_small (0 + _)), u32_small by lia. lia.
Qed.

(** ** Headers *)

(** Take a list of known length apart, and read its words. *)
Ltac explode l H :=
  repeat (destruct l as [|? l]; [discriminate H|]); destruct l as [|? ?]; [|discriminate H].
Ltac words := repeat (rewrite wsum_cons2); rewrite ?wsum_nil; unfold be16, b; simpl; lia.

Lemma wsum_addr4 hb :
  length hb = 20%nat ->
  wsum (drop 12 hb) = (be16 hb 14 + be16 hb 12) + (be16 hb 18 + be16 hb 16).
Proof. intros H. explode hb H. simpl drop. words. Qed.

Lemma wsum_udp ub :
  length ub = 8%nat -> wsum (take 6 ub) = be16 ub 0 + be16 ub 2 + be16 ub 4.
Proof. intros H. explode ub H. simpl take. words. Qed.

Lemma wsum_tcp tb :
  length tb = 20%nat ->
  wsum (take 16 tb) + wsum (drop 18 tb) =
    be16 tb 0 + be16 tb 2 + (be16 tb 6 + be16 tb 4) + (be16 tb 10 + be16 tb 8) +
    256 * b tb 12 + b tb 13 + be16 tb 14 + be16 tb 18.
Proof. intros H. explode tb H. simpl take. simpl drop. words. Qed.

Lemma wsum_icmp ib :
  length ib = 8%nat ->
  wsum (take 2 ib) + wsum (drop 4 ib) = (b ib 0 * 256 + b ib 1) + be16 ib 4 + be16 ib 6.
Proof. intros H. explode ib H. simpl take. simpl drop. words. Qed.

Lemma wsum_addr6 hb :
  length hb = 40%nat -> Forall byte_ok hb ->
  wsum (drop 8 hb) = addr_sum (take 16 (drop 8 hb)) + addr_sum (take 16 (drop 24 hb)).
Proof.
  intros H F. explode hb H. bytes_inv. simpl drop. simpl take. unfold addr_sum. simpl.
  rewrite !pair16_eq by done. words.
Qed.

Section Fields.
Variable w : World.

Lemma ipv4_addr_sum hdr hb :
  frame (heap w) hdr hb -> length hb = 20%nat ->
  calculateIPv4AddrChecksum hdr w = Some (wsum (drop 12 hb), w).
Proof.
  intros F H. unfold calculateIPv4AddrChecksum.
  run (rdw2_at w hdr hb F 12 ltac:(lia) ltac:(simpl; lia)).
  run (rdw2_at w hdr hb F 16 ltac:(lia) ltac:(simpl; lia)).
  rewrite (wsum_addr4 hb H). unfold ret. do 2 f_equal. apply u32_small.
  pose proof (be16_range hb 12 (frame_ok _ _ _ F)). pose proof (be16_range hb 14 (frame_ok _ _ _ F)).
  pose proof (be16_range hb 16 (frame_ok _ _ _ F)). pose proof (be16_range hb 18 (frame_ok _ _ _ F)).
  unfold word_ok in *. simpl. lia.
Qed.

Lemma ipv6_addr_sum hdr hb :
  frame (heap w) hdr hb -> length hb = 40%nat ->
  calculateIPv6AddrChecksum hdr w = Some (wsum (drop 8 hb), w).
Proof.
  intros F H. unfold calculateIPv6AddrChecksum.
  run (rdb_at w hdr hb F 8 16 ltac:(lia) ltac:(simpl; lia)).
  run (rdb_at w hdr hb F 24 16 ltac:(lia) ltac:(simpl; lia)).
  unfold ret. do 2 f_equal. pose proof (wsum_addr6 hb H (frame_ok _ _ _ F)) as E.
  change (Z.to_nat 8) with 8%nat. change (Z.to_nat 24) with 24%nat. rewrite <- E.
  apply u32_small.
  pose proof (wsum_bound (drop 8 hb) ltac:(apply Forall_drop, F)) as B.
  rewrite length_drop, H in B. zlia.
Qed.

Lemma udp_words_sum udp ub :
  frame (heap w) udp ub -> length ub = 8%nat -> udp_words udp w = Some (wsum (take 6 ub), w).
Proof.
  intros F H. unfold udp_words.
  run (rdw_at w udp ub F 0 ltac:(lia) ltac:(simpl; lia)).
  run (rdw_at w udp ub F 2 ltac:(lia) ltac:(simpl; lia)).
  run (rdw_at w udp ub F 4 ltac:(lia) ltac:(simpl; lia)).
  by rewrite wsum_udp.
Qed.

Lemma tcp_words_sum tcp tb :
  frame (heap w) tcp tb -> length tb = 20%nat ->
  calculateTCPChecksum tcp w = Some (wsum (take 16 tb) + wsum (drop 18 tb), w).
Proof.
  intros F H. pose proof (frame_ok _ _ _ F) as Ok. unfold calculateTCPChecksum.
  run (rdw_at w tcp tb F 0 ltac:(lia) ltac:(simpl; lia)).
  run (rdw_at w tcp tb F 2 ltac:(lia) ltac:(simpl; lia)).
  run (rdw2_at w tcp tb F 4 ltac:(lia) ltac:(simpl; lia)).
  run (rdw2_at w tcp tb F 8 ltac:(lia) ltac:(simpl; lia)).
  run (rdh_at w tcp tb F 12 ltac:(lia) ltac:(simpl; lia)).
  run (rd1_at w tcp tb F 13 ltac:(lia) ltac:(simpl; lia)).
  run (rdw_at w tcp tb F 14 ltac:(lia) ltac:(simpl; lia)).
  run (rdw_at w tcp tb F 18 ltac:(lia) ltac:(simpl; lia)).
  pose proof (wsum_bound (take 16 tb) ltac:(by apply Forall_take)) as B1.
  pose proof (wsum_bound (drop 18 tb) ltac:(by apply Forall_drop)) as B2.
  rewrite length_take, H in B1. rewrite length_drop, H in B2.
  assert (R : 0 <= wsum (take 16 tb) + wsum (drop 18 tb) < 4294967296) by zlia.
  rewrite (wsum_tcp tb H) in *. unfold ret. do 2 f_equal. apply u32_small, R.
Qed.

Lemma icmp_words_sum icmp ib :
  frame (heap w) icmp ib -> length ib = 8%nat ->
  icmp_words icmp w = Some (wsum (take 2 ib) + wsum (drop 4 ib), w).
Proof.
  intros F H. pose proof (frame_ok _ _ _ F) as Ok. unfold icmp_words.
  run (rd1_at w icmp ib F 0 ltac:(lia) ltac:(simpl; lia)).
  run (rd1_at w icmp ib F 1 ltac:(lia) ltac:(simpl; lia)).
  run (rdw_at w icmp ib F 4 ltac:(lia) ltac:(simpl; lia)).
  run (rdw_at w icmp ib F 6 ltac:(lia) ltac:(simpl; lia)).
  rewrite pair16_eq by apply (byte_at ib _ Ok). by rewrite wsum_icmp.
Qed.
End Fields.

(** ** Messages

    [x] is what comes before the checksum field (pseudo header included), [y]
    what comes after it. *)

Record message (x y : list Z) : Prop := {
  msg_x : Forall byte_ok x;
  msg_y : Forall byte_ok y;
  msg_even : Nat.even (length x) = true;
  msg_len : Z.of_nat (length x) + Z.of_nat (length y) <= 130000
}.

Lemma checksum_close x y s :
  message x y -> s = wsum x + wsum y ->
  let c := inet_checksum (x ++ [0; 0] ++ y) in
  not16 (reduceChecksum (u32 s)) = c /\ accepts x y c /\ accepts x y (udp_zero c).
Proof.
  intros [Fx Fy E L] -> c. split; [|by apply checksum_accepts].
  assert (Fm : Forall byte_ok (x ++ [0; 0] ++ y)).
  { apply Forall_app; split; [done|]. do 2 (constructor; [unfold byte_ok; lia|]). done. }
  assert (Em : wsum (x ++ [0; 0] ++ y) = wsum x + wsum y).
  { rewrite wsum_app by done. change ([0; 0] ++ y) with (0 :: 0 :: y). rewrite wsum_cons2. lia. }
  assert (Lm : Z.of_nat (length (x ++ [0; 0] ++ y)) <= 131000).
  { rewrite !length_app. simpl length. lia. }
  pose proof (wsum_bound _ Fm) as B. destruct (checksum_correct _ Fm Lm) as [C _].
  rewrite <- Em, u32_small by zlia. exact C.
Qed.

Lemma wsum_pair a d : wsum [a; d] = 256 * a + d.
Proof. unfold wsum. simpl. lia. Qed.

Lemma wsum_be16 l i : (S i < length l)%nat -> wsum (take 2 (drop i l)) = be16 l i.
Proof. intros. rewrite take_drop_two by done. rewrite wsum_pair. unfold be16, b. lia. Qed.

Ltac len := rewrite ?length_app, ?length_take, ?length_drop; simpl length; lia.
Ltac wsums := rewrite ?wsum_app by (rewrite ?length_app, ?length_take, ?length_drop;
  repeat match goal with H : length _ = _ |- _ => rewrite H end; done).
Ltac bytes_app :=
  repeat first [apply Forall_app_2 | apply Forall_take | apply Forall_drop | assumption
               | apply Forall_cons_2; [first [by apply byte_at | unfold byte_ok; lia]|]
               | apply Forall_nil_2].

(** The big-endian bytes of a 16-bit length. *)
Definition be_len (n : Z) : list Z := [n / 256; n mod 256].

Lemma be_len_ok n : 0 <= n < 65536 -> Forall byte_ok (be_len n) /\ wsum (be_len n) = n.
Proof.
  intros. split; [repeat constructor; zlia|]. unfold be_len. rewrite wsum_pair. zlia.
Qed.

(** The IPv4 pseudo header: addresses, zero, protocol, transport length. *)
Definition pseudo4 (hb len : list Z) : list Z := drop 12 hb ++ [0; b hb 9] ++ len.

(** The IPv6 pseudo header: addresses, transport length, zeroes, protocol. *)
Definition pseudo6 (hb len : list Z) : list Z := drop 8 hb ++ [0; 0] ++ len ++ [0; 0] ++ [0; b hb 6].

Lemma pseudo4_ok hb len :
  length hb = 20%nat -> length len = 2%nat -> Forall byte_ok hb -> Forall byte_ok len ->
  length (pseudo4 hb len) = 12%nat /\ Forall byte_ok (pseudo4 hb len) /\
  wsum (pseudo4 hb len) = wsum (drop 12 hb) + b hb 9 + wsum len.
Proof.
  intros H Hl F Fl. unfold pseudo4. split_and!; [len|bytes_app|]. wsums. rewrite wsum_pair. lia.
Qed.

Lemma pseudo6_ok hb len :
  length hb = 40%nat -> length len = 2%nat -> Forall byte_ok hb -> Forall byte_ok len ->
  length (pseudo6 hb len) = 40%nat /\ Forall byte_ok (pseudo6 hb len) /\
  wsum (pseudo6 hb len) = wsum (drop 8 hb) + b hb 6 + wsum len.
Proof.
  intros H Hl F Fl. unfold pseudo6. split_and!; [len|bytes_app|]. wsums. rewrite !wsum_pair. lia.
Qed.

(** ** Properties *)

(** [reduceChecksum] leaves its loop within two rounds for every [uint32],
    and on a sum of 16-bit words that did not overflow it is their one's
    complement sum. *)
Theorem reduceChecksum_spec ws :
  Forall word_ok ws -> sumZ ws < 4294967296 ->
  reduceChecksum (sumZ ws) = ones_sum ws /\ is_Some (reduce_loop 2 (sumZ ws)).
Proof.
  intros F H. assert (0 <= sumZ ws) by (apply sumZ_nonneg; eapply Forall_impl; [exact F|by intros ? []]).
  rewrite reduceChecksum_norm, ones_sum_norm by (done || lia). split; [done|].
  rewrite reduce_loop_norm by lia. eauto.
Qed.

Lemma reduceChecksum_spec_witness : reduceChecksum (0xffff + 0xffff) = 0xffff.
Proof. apply (reduceChecksum_spec [0xffff; 0xffff]); [repeat constructor; lia|reflexivity]. Defined.

Lemma ipv4_header_checksum w hdr hb :
  frame (heap w) hdr hb -> length hb = 20%nat ->
  let x := take 10 hb in let y := drop 12 hb in
  let c := inet_checksum (x ++ [0; 0] ++ y) in
  CalculateIPv4Checksum hdr w = Some (c, w) /\ accepts x y c.
Proof.
  intros F H x y c. pose proof (frame_ok _ _ _ F) as Ok.
  destruct (checksum_close x y (wsum x + wsum y)) as (C & A & _); [|done|].
  { split; unfold x, y; [bytes_app|bytes_app|rewrite length_take, H; done|len]. }
  split; [|exact A]. unfold CalculateIPv4Checksum.
  run (rdh_at w hdr hb F 0 ltac:(lia) ltac:(simpl; lia)).
  run (rd1_at w hdr hb F 1 ltac:(lia) ltac:(simpl; lia)).
  run (rdw_at w hdr hb F 2 ltac:(lia) ltac:(simpl; lia)).
  run (rdw_at w hdr hb F 4 ltac:(lia) ltac:(simpl; lia)).
  run (rdw_at w hdr hb F 6 ltac:(lia) ltac:(simpl; lia)).
  run (rdh_at w hdr hb F 8 ltac:(lia) ltac:(simpl; lia)).
  run (rd1_at w hdr hb F 9 ltac:(lia) ltac:(simpl; lia)).
  run (rdw2_at w hdr hb F 12 ltac:(lia) ltac:(simpl; lia)).
  run (rdw2_at w hdr hb F 16 ltac:(lia) ltac:(simpl; lia)).
  fold c in C. rewrite <- C. unfold ret. do 5 f_equal.
  unfold x, y. clear C A c x y F Ok. explode hb H. simpl take. simpl drop. words.
Qed.


(** [CalculateIPv4Checksum] is the RFC 1071 checksum of the header bytes with
    a zero checksum field, and a receiver that sums the header with that
    checksum in place accepts it. *)
Theorem CalculateIPv4Checksum_spec w hdr hb :
  frame (heap w) hdr hb -> length hb = 20%nat ->
  let x := take 10 hb in let y := drop 12 hb in
  let c := inet_checksum (x ++ [0; 0] ++ y) in
  CalculateIPv4Checksum hdr w = Some (c, w) /\ accepts x y c.
Proof. apply ipv4_header_checksum. Qed.

Section Transport4.
Variables (w : World) (hdr data : Z) (hb db : list Z).
Hypothesis Fh : frame (heap w) hdr hb.
Hypothesis Hh : length hb = 20%nat.
Hypothesis Fd : frame (heap w) data db.
Let n : Z := Z.of_nat (length db).

Lemma data4 hlen :
  0 <= hlen -> be16 hb 2 = 20 + hlen + n ->
  rdw hdr IPv4Hdr.TotalLength_ w = Some (20 + hlen + n, w) /\
  u16 (20 + hlen + n - IPv4MinLen) = hlen + n /\ u16 (hlen + n - hlen) = n /\
  calculateDataChecksum data n 0 w = Some (wsum db, w).
Proof.
  intros Hp E. pose proof (be16_range hb 2 (frame_ok _ _ _ Fh)) as R. unfold word_ok in R.
  unfold n in *. split_and!.
  - rewrite <- E. exact (rdw_at w hdr hb Fh 2 ltac:(lia) ltac:(simpl; lia)).
  - unfold IPv4MinLen. apply u16_small || (rewrite u16_small; lia).
  - rewrite u16_small; lia.
  - apply calculateDataChecksum_frame; [done|lia].
Qed.

Lemma udp4_sum udp ub :
  frame (heap w) udp ub -> length ub = 8%nat -> be16 hb 2 = 28 + n ->
  CalculateIPv4UDPChecksum hdr udp data w =
    Some (udp_zero (not16 (reduceChecksum (u32 (wsum db +
      (wsum (drop 12 hb) + b hb 9 + be16 ub 4 + wsum (take 6 ub)))))), w).
Proof.
  intros Fu Hu E. destruct (data4 8 ltac:(lia) ltac:(lia)) as (T & E1 & E2 & D).
  unfold CalculateIPv4UDPChecksum. run T. rewrite E1. unfold UDPLen. rewrite E2. run D.
  run (ipv4_addr_sum w hdr hb Fh Hh).
  run (rd1_at w hdr hb Fh 9 ltac:(lia) ltac:(simpl; lia)).
  run (rdw_at w udp ub Fu 4 ltac:(lia) ltac:(simpl; lia)).
  by run (udp_words_sum w udp ub Fu Hu).
Qed.

Lemma tcp4_sum tcp tb :
  frame (heap w) tcp tb -> length tb = 20%nat -> be16 hb 2 = 40 + n ->
  CalculateIPv4TCPChecksum hdr tcp data w =
    Some (not16 (reduceChecksum (u32 (wsum db +
      (wsum (drop 12 hb) + b hb 9 + (20 + n) + (wsum (take 16 tb) + wsum (drop 18 tb)))))), w).
Proof.
  intros Ft Ht E. destruct (data4 20 ltac:(lia) ltac:(lia)) as (T & E1 & E2 & D).
  unfold CalculateIPv4TCPChecksum. run T. rewrite E1. unfold TCPMinLen. rewrite E2. run D.
  run (ipv4_addr_sum w hdr hb Fh Hh).
  run (rd1_at w hdr hb Fh 9 ltac:(lia) ltac:(simpl; lia)).
  by run (tcp_words_sum w tcp tb Ft Ht).
Qed.

Lemma icmp4_sum icmp ib :
  frame (heap w) icmp ib -> length ib = 8%nat -> be16 hb 2 = 28 + n ->
  CalculateIPv4ICMPChecksum hdr icmp data w =
    Some (not16 (reduceChecksum (u32 (wsum (take 2 ib) + wsum (drop 4 ib) + wsum db))), w).
Proof.
  intros Fi Hi E. destruct (data4 8 ltac:(lia) ltac:(lia)) as (T & E1 & E2 & D).
  unfold CalculateIPv4ICMPChecksum. run T. rewrite E1. unfold ICMPLen. rewrite E2.
  run (icmp_words_sum w icmp ib Fi Hi). by run D.
Qed.
End Transport4.

Section Transport6.
Variables (w : World) (hdr data : Z) (hb db : list Z).
Hypothesis Fh : frame (heap w) hdr hb.
Hypothesis Hh : length hb = 40%nat.
Hypothesis Fd : frame (heap w) data db.
Let n : Z := Z.of_nat (length db).

Lemma data6 hlen :
  0 <= hlen -> be16 hb 4 = hlen + n ->
  rdw hdr IPv6Hdr.PayloadLen_ w = Some (hlen + n, w) /\ u16 (hlen + n - hlen) = n /\
  calculateDataChecksum data n 0 w = Some (wsum db, w).
Proof.
  intros Hp E. pose proof (be16_range hb 4 (frame_ok _ _ _ Fh)) as R. unfold word_ok in R.
  unfold n in *. split_and!.
  - rewrite <- E. exact (rdw_at w hdr hb Fh 4 ltac:(lia) ltac:(simpl; lia)).
  - rewrite u16_small; lia.
  - apply calculateDataChecksum_frame; [done|lia].
Qed.

Lemma udp6_sum udp ub :
  frame (heap w) udp ub -> length ub = 8%nat -> be16 hb 4 = 8 + n ->
  CalculateIPv6UDPChecksum hdr udp data w =
    Some (udp_zero (not16 (reduceChecksum (u32 (wsum db +
      (wsum (drop 8 hb) + be16 ub 4 + b hb 6 + wsum (take 6 ub)))))), w).
Proof.
  intros Fu Hu E. destruct (data6 8 ltac:(lia) ltac:(lia)) as (T & E2 & D).
  unfold CalculateIPv6UDPChecksum. run T. unfold UDPLen. rewrite E2. run D.
  run (ipv6_addr_sum w hdr hb Fh Hh).
  run (rdw_at w udp ub Fu 4 ltac:(lia) ltac:(simpl; lia)).
  run (rd1_at w hdr hb Fh 6 ltac:(lia) ltac:(simpl; lia)).
  by run (udp_words_sum w udp ub Fu Hu).
Qed.

Lemma tcp6_sum tcp tb :
  frame (heap w) tcp tb -> length tb = 20%nat -> be16 hb 4 = 20 + n ->
  CalculateIPv6TCPChecksum hdr tcp data w =
    Some (not16 (reduceChecksum (u32 (wsum db +
      (wsum (drop 8 hb) + (20 + n) + b hb 6 + (wsum (take 16 tb) + wsum (drop 18 tb)))))), w).
Proof.
  intros Ft Ht E. destruct (data6 20 ltac:(lia) ltac:(lia)) as (T & E2 & D).
  unfold CalculateIPv6TCPChecksum. run T. unfold TCPMinLen. rewrite E2. run D.
  run (ipv6_addr_sum w hdr hb Fh Hh).
  run (rd1_at w hdr hb Fh 6 ltac:(lia) ltac:(simpl; lia)).
  by run (tcp_words_sum w tcp tb Ft Ht).
Qed.

Lemma icmp6_sum icmp ib :
  frame (heap w) icmp ib -> length ib = 8%nat -> be16 hb 4 = 8 + n ->
  CalculateIPv6ICMPChecksum hdr icmp data w =
    Some (not16 (reduceChecksum (u32 (wsum db +
      (wsum (drop 8 hb) + (8 + n) + b hb 6 + (wsum (take 2 ib) + wsum (drop 4 ib)))))), w).
Proof.
  intros Fi Hi E. destruct (data6 8 ltac:(lia) ltac:(lia)) as (T & E2 & D).
  unfold CalculateIPv6ICMPChecksum. run T. unfold ICMPLen. rewrite E2. run D.
  run (ipv6_addr_sum w hdr hb Fh Hh).
  run (rd1_at w hdr hb Fh 6 ltac:(lia) ltac:(simpl; lia)).
  by run (icmp_words_sum w icmp ib Fi Hi).
Qed.
End Transport6.

(** C26. Over IPv4 and over IPv6, the UDP checksum is the RFC 768 one: the RFC 1071
    checksum of pseudo header, UDP header and data, with zero sent as all ones,
    and the receiver accepts the datagram. The lengths in the IP header are those
    of the datagram. *)
Theorem UDPChecksum_spec w udp ub data db :
  frame (heap w) udp ub -> length ub = 8%nat -> frame (heap w) data db ->
  let n := Z.of_nat (length db) in
  let spec (pseudo : list Z) (r : option (Z * World)) :=
    let x := pseudo ++ take 6 ub in
    let c := udp_zero (inet_checksum (x ++ [0; 0] ++ db)) in
    r = Some (c, w) /\ accepts x db c in
  (forall hdr hb, frame (heap w) hdr hb -> length hb = 20%nat -> be16 hb 2 = 28 + n ->
   spec (pseudo4 hb (take 2 (drop 4 ub))) (CalculateIPv4UDPChecksum hdr udp data w)) /\
  (forall hdr hb, frame (heap w) hdr hb -> length hb = 40%nat -> be16 hb 4 = 8 + n ->
   spec (pseudo6 hb (take 2 (drop 4 ub))) (CalculateIPv6UDPChecksum hdr udp data w)).
Proof.
  intros Fu Hu Fd n spec. pose proof (frame_ok _ _ _ Fu) as Ou. pose proof (frame_ok _ _ _ Fd) as Od.
  assert (Lw : wsum (take 2 (drop 4 ub)) = be16 ub 4) by (apply wsum_be16; lia).
  split; intros hdr hb Fh Hh E; pose proof (frame_ok _ _ _ Fh) as Oh; unfold spec.
  - destruct (pseudo4_ok hb (take 2 (drop 4 ub)) Hh ltac:(len) Oh ltac:(bytes_app)) as (P1 & P2 & P3).
    pose proof (be16_range hb 2 Oh) as R. unfold word_ok in R.
    destruct (checksum_close (pseudo4 hb (take 2 (drop 4 ub)) ++ take 6 ub) db
      (wsum db + (wsum (drop 12 hb) + b hb 9 + be16 ub 4 + wsum (take 6 ub)))) as (C & _ & A);
      [split; [bytes_app|done|rewrite length_app, P1, length_take, Hu; done|len]|
       wsums; rewrite P3; lia|].
    rewrite (udp4_sum w hdr data hb db Fh Hh Fd udp ub Fu Hu E), C. done.
  - destruct (pseudo6_ok hb (take 2 (drop 4 ub)) Hh ltac:(len) Oh ltac:(bytes_app)) as (P1 & P2 & P3).
    pose proof (be16_range hb 4 Oh) as R. unfold word_ok in R.
    destruct (checksum_close (pseudo6 hb (take 2 (drop 4 ub)) ++ take 6 ub) db
      (wsum db + (wsum (drop 8 hb) + be16 ub 4 + b hb 6 + wsum (take 6 ub)))) as (C & _ & A);
      [split; [bytes_app|done|rewrite length_app, P1, length_take, Hu; done|len]|
       wsums; rewrite P3; lia|].
    rewrite (udp6_sum w hdr data hb db Fh Hh Fd udp ub Fu Hu E), C. done.
Qed.

(** Over IPv4 and over IPv6, the TCP checksum is the RFC 1071 checksum of
    pseudo header, minimal TCP header and what follows it (options included),
    and the receiver accepts the segment. *)
Theorem TCPChecksum_spec w tcp tb data db :
  frame (heap w) tcp tb -> length tb = 20%nat -> frame (heap w) data db ->
  let n := Z.of_nat (length db) in
  let spec (pseudo : list Z) (r : option (Z * World)) :=
    let x := pseudo ++ take 16 tb in
    let y := drop 18 tb ++ db in
    let c := inet_checksum (x ++ [0; 0] ++ y) in
    r = Some (c, w) /\ accepts x y c in
  (forall hdr hb, frame (heap w) hdr hb -> length hb = 20%nat -> be16 hb 2 = 40 + n ->
   spec (pseudo4 hb (be_len (20 + n))) (CalculateIPv4TCPChecksum hdr tcp data w)) /\
  (forall hdr hb, frame (heap w) hdr hb -> length hb = 40%nat -> be16 hb 4 = 20 + n ->
   spec (pseudo6 hb (be_len (20 + n))) (CalculateIPv6TCPChecksum hdr tcp data w)).
Proof.
  intros Ft Ht Fd n spec. pose proof (frame_ok _ _ _ Ft) as Ot. pose proof (frame_ok _ _ _ Fd) as Od.
  split; intros hdr hb Fh Hh E; pose proof (frame_ok _ _ _ Fh) as Oh; unfold spec.
  - pose proof (be16_range hb 2 Oh) as R. unfold word_ok in R.
    destruct (be_len_ok (20 + n)) as [L1 L2]; [lia|].
    destruct (pseudo4_ok hb (be_len (20 + n)) Hh eq_refl Oh L1) as (P1 & P2 & P3).
    destruct (checksum_close (pseudo4 hb (be_len (20 + n)) ++ take 16 tb) (drop 18 tb ++ db)
      (wsum db + (wsum (drop 12 hb) + b hb 9 + (20 + n) + (wsum (take 16 tb) + wsum (drop 18 tb)))))
      as (C & A & _);
      [split; [bytes_app|bytes_app|rewrite length_app, P1, length_take, Ht; done|len]|
       wsums; rewrite P3; lia|].
    rewrite (tcp4_sum w hdr data hb db Fh Hh Fd tcp tb Ft Ht E). fold n. rewrite C. done.
  - pose proof (be16_range hb 4 Oh) as R. unfold word_ok in R.
    destruct (be_len_ok (20 + n)) as [L1 L2]; [lia|].
    destruct (pseudo6_ok hb (be_len (20 + n)) Hh eq_refl Oh L1) as (P1 & P2 & P3).
    destruct (checksum_close (pseudo6 hb (be_len (20 + n)) ++ take 16 tb) (drop 18 tb ++ db)
      (wsum db + (wsum (drop 8 hb) + (20 + n) + b hb 6 + (wsum (take 16 tb) + wsum (drop 18 tb)))))
      as (C & A & _);
      [split; [bytes_app|bytes_app|rewrite length_app, P1, length_take, Ht; done|len]|
       wsums; rewrite P3; lia|].
    rewrite (tcp6_sum w hdr data hb db Fh Hh Fd tcp tb Ft Ht E). fold n. rewrite C. done.
Qed.

Lemma icmp4_checksum w hdr hb icmp ib data db :
  frame (heap w) icmp ib -> length ib = 8%nat -> frame (heap w) data db ->
  frame (heap w) hdr hb -> length hb = 20%nat -> be16 hb 2 = 28 + Z.of_nat (length db) ->
  let x := take 2 ib in let y := drop 4 ib ++ db in
  let c := inet_checksum (x ++ [0; 0] ++ y) in
  CalculateIPv4ICMPChecksum hdr icmp data w = Some (c, w) /\ accepts x y c.
Proof.
  intros Fi Hi Fd Fh Hh E x y. pose proof (frame_ok _ _ _ Fi) as Oi. pose proof (frame_ok _ _ _ Fd) as Od.
  pose proof (be16_range hb 2 (frame_ok _ _ _ Fh)) as R. unfold word_ok in R.
  destruct (checksum_close x y (wsum (take 2 ib) + wsum (drop 4 ib) + wsum db)) as (C & A & _);
    [split; unfold x, y; [bytes_app|bytes_app|rewrite length_take, Hi; done|len]|
     unfold x, y; wsums; rewrite ?wsum_nil; lia|].
  cbv zeta. rewrite (icmp4_sum w hdr data hb db Fh Hh Fd icmp ib Fi Hi E). by rewrite C.
Qed.

Lemma icmp6_checksum w hdr hb icmp ib data db :
  frame (heap w) icmp ib -> length ib = 8%nat -> frame (heap w) data db ->
  frame (heap w) hdr hb -> length hb = 40%nat -> be16 hb 4 = 8 + Z.of_nat (length db) ->
  let x := pseudo6 hb (be_len (8 + Z.of_nat (length db))) ++ take 2 ib in
  let y := drop 4 ib ++ db in
  let c := inet_checksum (x ++ [0; 0] ++ y) in
  CalculateIPv6ICMPChecksum hdr icmp data w = Some (c, w) /\ accepts x y c.
Proof.
  intros Fi Hi Fd Fh Hh E x y. pose proof (frame_ok _ _ _ Fi) as Oi. pose proof (frame_ok _ _ _ Fd) as Od.
  pose proof (frame_ok _ _ _ Fh) as Oh. set (n := Z.of_nat (length db)) in *.
  pose proof (be16_range hb 4 Oh) as R. unfold word_ok in R.
  destruct (be_len_ok (8 + n)) as [L1 L2]; [lia|].
  destruct (pseudo6_ok hb (be_len (8 + n)) Hh eq_refl Oh L1) as (P1 & P2 & P3).
  destruct (checksum_close x y
    (wsum db + (wsum (drop 8 hb) + (8 + n) + b hb 6 + (wsum (take 2 ib) + wsum (drop 4 ib)))))
    as (C & A & _);
    [split; unfold x, y; [bytes_app|bytes_app|rewrite length_app, P1, length_take, Hi; done|len]|
     unfold x, y; wsums; rewrite P3; lia|].
  cbv zeta. rewrite (icmp6_sum w hdr data hb db Fh Hh Fd icmp ib Fi Hi E). fold n. by rewrite C.
Qed.

(** The ICMP checksum covers the ICMP message, the ICMPv6 one also the IPv6
    pseudo header, and the receiver accepts the message. *)
Theorem ICMPChecksum_spec w icmp ib data db :
  frame (heap w) icmp ib -> length ib = 8%nat -> frame (heap w) data db ->
  let n := Z.of_nat (length db) in
  let spec (pseudo : list Z) (r : option (Z * World)) :=
    let x := pseudo ++ take 2 ib in
    let y := drop 4 ib ++ db in
    let c := inet_checksum (x ++ [0; 0] ++ y) in
    r = Some (c, w) /\ accepts x y c in
  (forall hdr hb, frame (heap w) hdr hb -> length hb = 20%nat -> be16 hb 2 = 28 + n ->
   spec [] (CalculateIPv4ICMPChecksum hdr icmp data w)) /\
  (forall hdr hb, frame (heap w) hdr hb -> length hb = 40%nat -> be16 hb 4 = 8 + n ->
   spec (pseudo6 hb (be_len (8 + n))) (CalculateIPv6ICMPChecksum hdr icmp data w)).
Proof.
  intros Fi Hi Fd n spec. split; intros hdr hb Fh Hh E.
  - by apply (icmp4_checksum w hdr hb).
  - by apply (icmp6_checksum w hdr hb).
Qed.

(** ** A sample packet: an IPv4 header, a transport header and three bytes of
    data, and the same over IPv6. *)

Definition sample_ipv4 (proto total : Z) : list Z :=
  [0x45; 0; 0; total; 0x12; 0x34; 0; 0; 64; proto; 0; 0; 10; 0; 0; 1; 192; 168; 0; 199].
Definition sample_ipv6 (proto len : Z) : list Z :=
  [0x60; 0; 0; 0; 0; len; proto; 255] ++ replicate 15 254 ++ [1] ++ replicate 15 254 ++ [2].
Definition sample_udp : list Z := [0; 53; 0x12; 0xb5; 0; 11; 0; 0].
Definition sample_tcp : list Z := [0; 80; 1; 2; 1; 2; 3; 4; 5; 6; 7; 8; 0x50; 24; 1; 0; 0; 0; 0; 0].
Definition sample_icmp : list Z := [8; 0; 0; 0; 0; 7; 0; 1].
Definition sample_data : list Z := [0xab; 0xcd; 0xef].

Definition sample_mem (hb tb : list Z) : World :=
  set_heap (write (write (write ∅ 1000 hb) 2000 tb) 3000 sample_data) (sample_world []).

Ltac sample_frame_tac :=
  split; [vm_compute; reflexivity | lia | vm_compute; reflexivity
         | apply (bool_decide_unpack _); vm_compute; exact I].

Lemma CalculateIPv4Checksum_spec_witness :
  exists c, CalculateIPv4Checksum 1000 (sample_mem (sample_ipv4 17 31) []) =
    Some (c, sample_mem (sample_ipv4 17 31) []) /\
    accepts (take 10 (sample_ipv4 17 31)) (drop 12 (sample_ipv4 17 31)) c.
Proof.
  eexists. apply (CalculateIPv4Checksum_spec _ 1000 (sample_ipv4 17 31)); [|reflexivity].
  sample_frame_tac.
Defined.

Lemma UDPChecksum_spec_witness :
  exists c, CalculateIPv4UDPChecksum 1000 2000 3000 (sample_mem (sample_ipv4 17 31) sample_udp) =
    Some (c, sample_mem (sample_ipv4 17 31) sample_udp).
Proof.
  destruct (UDPChecksum_spec (sample_mem (sample_ipv4 17 31) sample_udp) 2000 sample_udp 3000
    sample_data) as [H _]; [sample_frame_tac|reflexivity|sample_frame_tac|].
  eexists. apply (H 1000 (sample_ipv4 17 31)); [sample_frame_tac|reflexivity|reflexivity].
Defined.

Lemma TCPChecksum_spec_witness :
  exists c, CalculateIPv6TCPChecksum 1000 2000 3000 (sample_mem (sample_ipv6 6 23) sample_tcp) =
    Some (c, sample_mem (sample_ipv6 6 23) sample_tcp).
Proof.
  destruct (TCPChecksum_spec (sample_mem (sample_ipv6 6 23) sample_tcp) 2000 sample_tcp 3000
    sample_data) as [_ H]; [sample_frame_tac|reflexivity|sample_frame_tac|].
  eexists. apply (H 1000 (sample_ipv6 6 23)); [sample_frame_tac|reflexivity|reflexivity].
Defined.

Lemma ICMPChecksum_spec_witness :
  exists c, CalculateIPv6ICMPChecksum 1000 2000 3000 (sample_mem (sample_ipv6 58 11) sample_icmp) =
    Some (c, sample_mem (sample_ipv6 58 11) sample_icmp).
Proof.
  destruct (ICMPChecksum_spec (sample_mem (sample_ipv6 58 11) sample_icmp) 2000 sample_icmp 3000
    sample_data) as [_ H]; [sample_frame_tac|reflexivity|sample_frame_tac|].
  eexists. apply (H 1000 (sample_ipv6 58 11)); [sample_frame_tac|reflexivity|reflexivity].
Defined.

Lemma reduce_ones bs s :
  Forall byte_ok bs -> Z.of_nat (length bs) <= 131000 -> s = wsum bs ->
  reduceChecksum (u32 s) = ones_sum (be_words bs).
Proof.
  intros F H ->. pose proof (wsum_bound bs F) as B.
  assert (0 <= wsum bs < 4294967296) by zlia.
  rewrite u32_small, reduceChecksum_norm by done. symmetry. by apply ones_sum_norm, be_words_ok.
Qed.

(** The partial checksums prepared for hardware offload are the (not
    complemented) one's complement sums of the pseudo headers. *)
Theorem PseudoHdrCksum_spec w udp ub :
  frame (heap w) udp ub -> length ub = 8%nat ->
  let spec (pseudo : list Z) (r : option (Z * World)) :=
    r = Some (ones_sum (be_words pseudo), w) in
  (forall hdr hb, frame (heap w) hdr hb -> length hb = 20%nat ->
   spec (pseudo4 hb (take 2 (drop 4 ub))) (CalculatePseudoHdrIPv4UDPCksum hdr udp w) /\
   (20 <= be16 hb 2 ->
    spec (pseudo4 hb (be_len (be16 hb 2 - 20))) (CalculatePseudoHdrIPv4TCPCksum hdr w))) /\
  (forall hdr hb, frame (heap w) hdr hb -> length hb = 40%nat ->
   spec (pseudo6 hb (take 2 (drop 4 ub))) (CalculatePseudoHdrIPv6UDPCksum hdr udp w) /\
   spec (pseudo6 hb (take 2 (drop 4 hb))) (CalculatePseudoHdrIPv6TCPCksum hdr w)).
Proof.
  intros Fu Hu spec. pose proof (frame_ok _ _ _ Fu) as Ou. unfold spec.
  assert (Lw : wsum (take 2 (drop 4 ub)) = be16 ub 4) by (apply wsum_be16; lia).
  split; intros hdr hb Fh Hh; pose proof (frame_ok _ _ _ Fh) as Oh; split.
  - destruct (pseudo4_ok hb (take 2 (drop 4 ub)) Hh ltac:(len) Oh ltac:(bytes_app)) as (P1 & P2 & P3).
    unfold CalculatePseudoHdrIPv4UDPCksum. run (ipv4_addr_sum w hdr hb Fh Hh).
    run (rd1_at w hdr hb Fh 9 ltac:(lia) ltac:(simpl; lia)).
    run (rdw_at w udp ub Fu 4 ltac:(lia) ltac:(simpl; lia)).
    unfold ret. do 2 f_equal. apply reduce_ones; [done|lia|]. rewrite P3, Lw. done.
  - intros T. pose proof (be16_range hb 2 Oh) as R. unfold word_ok in R.
    destruct (be_len_ok (be16 hb 2 - 20)) as [L1 L2]; [lia|].
    destruct (pseudo4_ok hb (be_len (be16 hb 2 - 20)) Hh eq_refl Oh L1) as (P1 & P2 & P3).
    unfold CalculatePseudoHdrIPv4TCPCksum.
    run (rdw_at w hdr hb Fh 2 ltac:(lia) ltac:(simpl; lia)). run (ipv4_addr_sum w hdr hb Fh Hh).
    run (rd1_at w hdr hb Fh 9 ltac:(lia) ltac:(simpl; lia)).
    unfold ret. do 2 f_equal. apply reduce_ones; [done|lia|]. rewrite P3, L2.
    change (Z.to_nat 2) with 2%nat. unfold IPv4MinLen. by rewrite u16_small by lia.
  - destruct (pseudo6_ok hb (take 2 (drop 4 ub)) Hh ltac:(len) Oh ltac:(bytes_app)) as (P1 & P2 & P3).
    unfold CalculatePseudoHdrIPv6UDPCksum. run (ipv6_addr_sum w hdr hb Fh Hh).
    run (rd1_at w hdr hb Fh 6 ltac:(lia) ltac:(simpl; lia)).
    run (rdw_at w udp ub Fu 4 ltac:(lia) ltac:(simpl; lia)).
    unfold ret. do 2 f_equal. apply reduce_ones; [done|lia|]. rewrite P3, Lw. done.
  - destruct (pseudo6_ok hb (take 2 (drop 4 hb)) Hh ltac:(len) Oh ltac:(bytes_app)) as (P1 & P2 & P3).
    unfold CalculatePseudoHdrIPv6TCPCksum. 
    run (rdw_at w hdr hb Fh 4 ltac:(lia) ltac:(simpl; lia)). run (ipv6_addr_sum w hdr hb Fh Hh).
    run (rd1_at w hdr hb Fh 6 ltac:(lia) ltac:(simpl; lia)).
    unfold ret. do 2 f_equal. apply reduce_ones; [done|lia|].
    rewrite P3, wsum_be16 by lia. change (Z.to_nat 4) with 4%nat. change (Z.to_nat 6) with 6%nat. lia.
Qed.

Lemma PseudoHdrCksum_spec_witness :
  exists c, CalculatePseudoHdrIPv4TCPCksum 1000 (sample_mem (sample_ipv4 6 43) sample_udp) =
    Some (c, sample_mem (sample_ipv4 6 43) sample_udp).
Proof.
  destruct (PseudoHdrCksum_spec (sample_mem (sample_ipv4 6 43) sample_udp) 2000 sample_udp) as [H _];
    [sample_frame_tac|reflexivity|].
  eexists. apply (H 1000 (sample_ipv4 6 43)); [sample_frame_tac|reflexivity|vm_compute; discriminate].
Defined.
