(* ===== verification/Logic.v ===== *)
(** * A program logic for the packet code

    [wp m Q w]: run in [w], [m] does not panic and its result and final state
    satisfy [Q]. The rules step over one action of a monadic program; those for
    header fields read and write a frame of bytes known to lie in memory, so a
    proof about code that fills headers only handles byte lists. *)

From Stdlib Require Import ZArith Lia String.
From stdpp Require Import base list numbers option gmap.
From S2P Require Import Prelude Memory Text Types Mbuf Headers Parse ParseSpec.

Open Scope Z_scope.
Open Scope go_scope.

(** ** Overwriting part of a list *)

Definition splice (o : nat) (v bs : list Z) : list Z :=
  take o bs ++ v ++ drop (o + length v) bs.

Lemma length_splice o v bs :
  (o + length v <= length bs)%nat -> length (splice o v bs) = length bs.
Proof. intros. unfold splice. rewrite !length_app, length_take, length_drop. lia. Qed.

Lemma splice_at o v bs i :
  (o + length v <= length bs)%nat ->
  b (splice o v bs) i = if decide (o <= i < o + length v)%nat then b v (i - o) else b bs i.
Proof.
  intros H. unfold b, splice. rewrite !list_lookup_total_alt. f_equal.
  assert (Ht : length (take o bs) = o) by (rewrite length_take; lia).
  case_decide as D.
  - rewrite lookup_app_r by lia. rewrite Ht. by rewrite lookup_app_l by lia.
  - destruct (decide (i < o)%nat).
    + rewrite lookup_app_l by lia. by rewrite lookup_take_lt by lia.
    + rewrite lookup_app_r by lia. rewrite Ht, lookup_app_r, lookup_drop by lia.
      by replace (o + length v + (i - o - length v))%nat with i by lia.
Qed.

Lemma splice_in o v bs i :
  (o + length v <= length bs)%nat -> (o <= i < o + length v)%nat ->
  b (splice o v bs) i = b v (i - o).
Proof. intros. rewrite splice_at by done. by rewrite decide_True by done. Qed.

Lemma splice_out o v bs i :
  (o + length v <= length bs)%nat -> (i < o \/ o + length v <= i)%nat ->
  b (splice o v bs) i = b bs i.
Proof. intros. rewrite splice_at by done. by rewrite decide_False by lia. Qed.

Lemma splice_ok o v bs : Forall byte_ok v -> Forall byte_ok bs -> Forall byte_ok (splice o v bs).
Proof. intros. unfold splice. apply Forall_app_2; [by apply Forall_take|]. apply Forall_app_2; [done|by apply Forall_drop]. Qed.

Lemma frame_write m q bs o v :
  frame m q bs -> (o + length v <= length bs)%nat -> Forall byte_ok v ->
  frame (write m (q + Z.of_nat o) v) q (splice o v bs).
Proof.
  intros [L P T Ok] H Fv. split; [|done|by rewrite length_splice|by apply splice_ok].
  apply load_bytes_intro. intros k Hk. rewrite length_splice in Hk by done.
  rewrite lookup_write. unfold splice.
  assert (Ht : length (take o bs) = o) by (rewrite length_take; lia).
  case_decide as D.
  - rewrite lookup_app_r by lia. rewrite Ht, lookup_app_l by lia. f_equal. lia.
  - rewrite <- (load_bytes_lookup _ _ _ _ k L) by done. symmetry.
    destruct (decide (k < o)%nat).
    + rewrite lookup_app_l by lia. by rewrite lookup_take_lt by lia.
    + rewrite lookup_app_r by lia. rewrite Ht, lookup_app_r, lookup_drop by lia.
      by replace (o + length v + (k - o - length v))%nat with k by lia.
Qed.

(** The bytes of a swapped 16-bit field. *)
Lemma le_bytes_swap x :
  0 <= x < 65536 -> le_bytes 2 (SwapBytesUint16 x) = [x / 256; x mod 256].
Proof.
  intros H. destruct (u16_split x H) as (E & A & B).
  rewrite E at 1. rewrite SwapBytesUint16_arith by done. unfold byte_ok in *. simpl.
  f_equal; [zlia|f_equal; zlia].
Qed.

Lemma frame_mapped m q bs : frame m q bs -> mapped m q (Z.of_nat (length bs)).
Proof.
  intros [L _ _ _] i Hi. destruct (lookup_lt_is_Some_2 bs (Z.to_nat (i - q))) as [x Hx]; [lia|].
  rewrite (load_bytes_lookup _ _ _ _ _ L) in Hx by lia.
  replace (q + Z.of_nat (Z.to_nat (i - q))) with i in Hx by lia. eauto.
Qed.

(** ** Weakest preconditions *)

Definition wp {A} (m : M World A) (Q : A -> World -> Prop) (w : World) : Prop :=
  match m w with
  | Some (a, w') => Q a w'
  | None => False
  end.

Lemma wp_run {A} (m : M World A) Q w :
  wp m Q w <-> exists a w', m w = Some (a, w') /\ Q a w'.
Proof.
  unfold wp. destruct (m w) as [[a w']|]; split; try done; [eauto|..].
  - by intros (? & ? & [= <- <-] & ?).
  - by intros (? & ? & ? & _).
Qed.

Lemma wp_bind {A B} (m : M World A) (k : A -> M World B) Q w :
  wp m (fun a w' => wp (k a) Q w') w -> wp (bind m k) Q w.
Proof. unfold wp, bind. by destruct (m w) as [[??]|]. Qed.

Lemma wp_mono {A} (m : M World A) (P Q : A -> World -> Prop) w :
  wp m P w -> (forall a w', P a w' -> Q a w') -> wp m Q w.
Proof. unfold wp. destruct (m w) as [[??]|]; auto. Qed.

Lemma wp_ret {A} (a : A) (Q : A -> World -> Prop) w : Q a w -> wp (ret a) Q w.
Proof. done. Qed.

Lemma wp_getP {A} (f : Packet -> A) (Q : A -> World -> Prop) w : Q (f (pkt w)) w -> wp (getP f) Q w.
Proof. done. Qed.

Lemma wp_gets {A} (f : World -> A) (Q : A -> World -> Prop) w : Q (f w) w -> wp (gets f) Q w.
Proof. done. Qed.

Lemma wp_putP f (Q : unit -> World -> Prop) w :
  Q tt (set_pkt (f (pkt w)) w) -> wp (putP f) Q w.
Proof. done. Qed.

Lemma wp_on_mbuf {A} a (f : Mbuf -> A * Mbuf) (Q : A -> World -> Prop) w mb :
  mbufs w !! a = Some mb ->
  Q (fst (f mb)) (set_mbufs (<[a := snd (f mb)]> (mbufs w)) w) -> wp (on_mbuf a f) Q w.
Proof. intros E. unfold wp, on_mbuf. rewrite E. by destruct (f mb). Qed.

Lemma wp_of_mbuf {A} a (f : Mbuf -> A) (Q : A -> World -> Prop) w mb :
  mbufs w !! a = Some mb -> Q (f mb) w -> wp (of_mbuf a f) Q w.
Proof. intros E. unfold wp, of_mbuf. by rewrite E. Qed.

Section FieldRules.
Variables (w : World) (q : Z) (bs : list Z) (h : Z) (o : nat) (f : field).
Hypothesis F : frame (heap w) q bs.
Hypothesis Eh : h = q + Z.of_nat o.
Hypothesis Hf : 0 <= f_off f.

Lemma field_ptr n : (o + Z.to_nat (f_off f) + n <= length bs)%nat ->
  (h =? 0) = false /\ ptr_add h (f_off f) = q + Z.of_nat (o + Z.to_nat (f_off f)).
Proof.
  intros H. destruct F as [_ P T _]. rewrite Eh. split; [by apply nonnil|].
  unfold ptr_add. rewrite u64_small; lia.
Qed.

Lemma wp_wr v (Q : unit -> World -> Prop) :
  (o + Z.to_nat (f_off f) + f_size f <= length bs)%nat ->
  (forall m', frame m' q (splice (o + Z.to_nat (f_off f)) (le_bytes (f_size f) v) bs) ->
              Q tt (set_heap m' w)) ->
  wp (wr h f v) Q w.
Proof.
  intros H HQ. destruct (field_ptr _ H) as [E1 E2]. unfold wp, wr, store_le. rewrite E1, E2.
  rewrite store_bytes_mapped.
  - apply HQ. apply frame_write; [done|by rewrite length_le_bytes|apply le_bytes_ok].
  - rewrite length_le_bytes. eapply mapped_sub; [apply frame_mapped, F|lia|lia].
Qed.

Lemma wp_wrb v (Q : unit -> World -> Prop) :
  (o + Z.to_nat (f_off f) + length v <= length bs)%nat -> Forall byte_ok v ->
  (forall m', frame m' q (splice (o + Z.to_nat (f_off f)) v bs) -> Q tt (set_heap m' w)) ->
  wp (wrb h f v) Q w.
Proof.
  intros H Fv HQ. destruct (field_ptr _ H) as [E1 E2]. unfold wp, wrb. rewrite E1, E2.
  rewrite store_bytes_mapped.
  - apply HQ. by apply frame_write.
  - eapply mapped_sub; [apply frame_mapped, F|lia|lia].
Qed.

Lemma wp_rd1 (Q : Z -> World -> Prop) :
  f_size f = 1%nat -> (o + Z.to_nat (f_off f) < length bs)%nat ->
  Q (b bs (o + Z.to_nat (f_off f))) w -> wp (rd h f) Q w.
Proof.
  intros Hs H HQ. unfold wp. rewrite Eh, (rd_frame _ _ bs _ _ F) by lia. rewrite Hs.
  rewrite take_drop_one by lia. simpl. by rewrite Z.add_0_r.
Qed.
End FieldRules.

(** ** Frames step by step

    The same rules with the new frame named, so that its bytes are looked up one
    write at a time. *)

Lemma splice_look_in x o v y i :
  x = splice o v y -> (o + length v <= length y)%nat -> (o <= i < o + length v)%nat ->
  b x i = b v (i - o).
Proof. intros ->. apply splice_in. Qed.

Lemma splice_look_out x o v y i :
  x = splice o v y -> (o + length v <= length y)%nat -> (i < o \/ o + length v <= i)%nat ->
  b x i = b y i.
Proof. intros ->. apply splice_out. Qed.

Section NamedRules.
Variables (w : World) (q : Z) (bs : list Z) (h : Z) (o : nat) (f : field).
Hypothesis F : frame (heap w) q bs.
Hypothesis Eh : h = q + Z.of_nat o.
Hypothesis Hf : 0 <= f_off f.

Let next (v : list Z) (Q : unit -> World -> Prop) : Prop :=
  forall m' bs', bs' = splice (o + Z.to_nat (f_off f)) v bs -> length bs' = length bs ->
    frame m' q bs' -> Q tt (set_heap m' w).

Lemma wpn_wr v (Q : unit -> World -> Prop) :
  (o + Z.to_nat (f_off f) + f_size f <= length bs)%nat ->
  next (le_bytes (f_size f) v) Q -> wp (wr h f v) Q w.
Proof.
  intros H HQ. apply (wp_wr w q bs h o f F Eh Hf); [done|]. intros m' F'.
  eapply HQ; [done| |exact F']. apply length_splice. by rewrite length_le_bytes.
Qed.

Lemma wpn_wr_swap x (Q : unit -> World -> Prop) :
  0 <= x < 65536 -> f_size f = 2%nat -> (o + Z.to_nat (f_off f) + 2 <= length bs)%nat ->
  next [x / 256; x mod 256] Q -> wp (wr h f (SwapBytesUint16 x)) Q w.
Proof.
  intros Hx Hs H HQ. apply wpn_wr; [by rewrite Hs|]. by rewrite Hs, le_bytes_swap.
Qed.

Lemma wpn_wrb v (Q : unit -> World -> Prop) :
  (o + Z.to_nat (f_off f) + length v <= length bs)%nat -> Forall byte_ok v ->
  next v Q -> wp (wrb h f v) Q w.
Proof.
  intros H Fv HQ. apply (wp_wrb w q bs h o f F Eh Hf); [done|done|]. intros m' F'.
  eapply HQ; [done| |exact F']. by apply length_splice.
Qed.
End NamedRules.

Lemma wp_rdb w q bs h o f (Q : list Z -> World -> Prop) :
  frame (heap w) q bs -> h = q + Z.of_nat o -> 0 <= f_off f ->
  (o + Z.to_nat (f_off f) + f_size f <= length bs)%nat ->
  Q (take (f_size f) (drop (o + Z.to_nat (f_off f)) bs)) w -> wp (rdb h f) Q w.
Proof.
  intros F E Hf H HQ. destruct (field_ptr w q bs h o f F E Hf _ H) as [E1 E2].
  unfold wp, rdb. rewrite E1, E2. by rewrite (frame_bytes _ _ bs).
Qed.

Lemma wp_StartAtOffset n (Q : Z -> World -> Prop) w :
  Q (ptr_add (L2 (pkt w)) n) w -> wp (StartAtOffset n) Q w.
Proof. done. Qed.

(** Bring a world built by updates to normal form. *)
Ltac wcbn :=
  cbn [pkt heap mbufs hwtxchecksum set_heap set_pkt set_mbufs
       L2 L3 L4 Data Ether CMbuf Overlay set_L2 set_L3 set_L4 set_Data set_Ether set_Overlay].

(** Offset arithmetic on pointers into a frame. *)
Ltac ptr_tac := first [assumption | lia | unfold ptr_add; rewrite ?u64_small; lia].

(** Steps that need no argument, and a write at frame offset [o]. *)
Ltac wp_pure :=
  repeat (lazymatch goal with
          | |- wp (bind _ _) _ _ => apply wp_bind
          | |- wp (ret _) _ _ => apply wp_ret
          | |- wp (getP _) _ _ => apply wp_getP
          | |- wp (gets _) _ _ => apply wp_gets
          | |- wp (putP _) _ _ => apply wp_putP
          end; wcbn).
Ltac wp_write o :=
  eapply (wpn_wr _ _ _ _ o); [eassumption|ptr_tac|cbn; lia|cbn; lia|intros ? ? ? ? ?; wcbn].
Ltac wp_write_swap o :=
  eapply (wpn_wr_swap _ _ _ _ o);
    [eassumption|ptr_tac|cbn; lia|first [assumption|done|cbn; lia|zlia]|reflexivity|cbn; lia
    |intros ? ? ? ? ?; wcbn].
Ltac wp_writeb o :=
  eapply (wpn_wrb _ _ _ _ o);
    [eassumption|ptr_tac|cbn; lia|cbn -[length]; lia|assumption|intros ? ? ? ? ?; wcbn].

(** The byte at a concrete offset of the last frame. *)
Ltac look :=
  repeat match goal with
         | E : ?x = splice ?o ?v ?y |- context [b ?x ?i] =>
             first [ rewrite (splice_look_in x o v y i E) by (cbn; rewrite ?length_le_bytes; lia)
                   | rewrite (splice_look_out x o v y i E) by (cbn; rewrite ?length_le_bytes; lia) ]
         end.
