(* ===== verification/Build.v ===== *)
(** * Package packet: building packets

    [InitEmpty*] of [src/packet/packet.go], the ARP packets of
    [src/packet/arp.go] and the neighbour discovery packets of
    [src/packet/icmp6.go]. MAC and IPv6 addresses are byte lists, IPv4 addresses
    [uint32] values in memory order. [true] is success; the log lines of the
    failure branches are not modelled. *)

From Stdlib Require Import ZArith Lia String.
From stdpp Require Import base list numbers option gmap.
From S2P Require Import Prelude Memory Text Types Mbuf Headers Parse.

Open Scope Z_scope.
Open Scope go_scope.

(** [mbuf.AppendMbuf(packet.CMbuf, n)]. *)
Definition append_packet (n : Z) : M World bool :=
  let! c := getP CMbuf in on_mbuf c (fun mb => AppendMbuf mb n).

(** [packet.Ether.EtherType = SwapBytesUint16(t)]. *)
Definition set_EtherType (t : Z) : M World unit :=
  let! e := getP Ether in wr e EtherHdr.EtherType_ (SwapBytesUint16 t).

(** [packet.Data = unparsed + n]. *)
Definition data_at (n : Z) : M World unit :=
  let! u := unparsed in putP (set_Data (ptr_add u n)).

(* go: packet/packet.go InitEmptyPacket *)
Definition InitEmptyPacket (plSize : Z) : M World bool :=
  let! ok := append_packet (u64 (plSize + EtherLen)) in
  if negb ok then ret false
  else
    let! u := unparsed in
    putP (set_Data u) ;;
    ret true.

(* go: packet/packet.go fillIPv4Default *)
Definition fillIPv4Default (plLen nextProto : Z) : M World unit :=
  let! h := GetIPv4NoCheck in wr h IPv4Hdr.VersionIhl_ IPv4VersionIhl ;;
  let! h := GetIPv4NoCheck in wr h IPv4Hdr.TotalLength_ (SwapBytesUint16 plLen) ;;
  let! h := GetIPv4NoCheck in wr h IPv4Hdr.NextProtoID_ nextProto ;;
  let! h := GetIPv4NoCheck in wr h IPv4Hdr.TimeToLive_ 64.

(* go: packet/packet.go fillIPv6Default *)
Definition fillIPv6Default (totalLen nextProto : Z) : M World unit :=
  let! h := GetIPv6NoCheck in wr h IPv6Hdr.PayloadLen_ (SwapBytesUint16 totalLen) ;;
  let! h := GetIPv6NoCheck in wr h IPv6Hdr.VtcFlow_ IPv6VtcFlow ;;
  let! h := GetIPv6NoCheck in wr h IPv6Hdr.Proto_ nextProto ;;
  let! h := GetIPv6NoCheck in wr h IPv6Hdr.HopLimits_ 255.

(** [if hwtxchecksum { packet.GetIPv4NoCheck().HdrChecksum = 0 }]. *)
Definition offload_IPv4 : M World unit :=
  let! hw := gets hwtxchecksum in
  if hw then let! h := GetIPv4NoCheck in wr h IPv4Hdr.HdrChecksum_ 0 else ret tt.

(* go: packet/packet.go InitEmptyIPv4Packet *)
Definition InitEmptyIPv4Packet (plSize : Z) : M World bool :=
  let! ok := append_packet (u64 (plSize + EtherLen + IPv4MinLen)) in
  if negb ok then ret false
  else
    set_EtherType IPV4Number ;;
    data_at IPv4MinLen ;;
    ParseL3 ;;
    fillIPv4Default (u16 (IPv4MinLen + plSize)) NoNextHeader ;;
    offload_IPv4 ;;
    ret true.

(* go: packet/packet.go InitEmptyIPv6Packet *)
Definition InitEmptyIPv6Packet (plSize : Z) : M World bool :=
  let! ok := append_packet (u64 (plSize + EtherLen + IPv6Len)) in
  if negb ok then ret false
  else
    set_EtherType IPV6Number ;;
    data_at IPv6Len ;;
    ParseL3 ;;
    fillIPv6Default (u16 plSize) NoNextHeader ;;
    ret true.

(* go: packet/packet.go InitEmptyARPPacket *)
Definition InitEmptyARPPacket : M World bool :=
  let! ok := append_packet (EtherLen + ARPLen) in
  if negb ok then ret false
  else
    set_EtherType ARPNumber ;;
    ParseL3 ;;
    ret true.

(** [packet.GetTCPNoCheck().DataOff = types.TCPMinDataOffset] and the payload
    pointer behind it. *)
Definition min_tcp_data : M World unit :=
  let! t := GetTCPNoCheck in
  wr t TCPHdr.DataOff_ TCPMinDataOffset ;;
  DataAfterTCP.

(* go: packet/packet.go InitEmptyIPv4TCPPacket *)
Definition InitEmptyIPv4TCPPacket (plSize : Z) : M World bool :=
  let! ok := append_packet (u64 (plSize + EtherLen + IPv4MinLen + TCPMinLen)) in
  if negb ok then ret false
  else
    set_EtherType IPV4Number ;;
    ParseL3 ;;
    fillIPv4Default (u16 (IPv4MinLen + TCPMinLen + plSize)) TCPNumber ;;
    ParseL4ForIPv4 ;;
    min_tcp_data ;;
    offload_IPv4 ;;
    ret true.

(** [packet.GetUDPNoCheck().DgramLen = SwapBytesUint16(uint16(types.UDPLen + plSize))]. *)
Definition set_DgramLen (plSize : Z) : M World unit :=
  let! u := GetUDPNoCheck in
  wr u UDPHdr.DgramLen_ (SwapBytesUint16 (u16 (UDPLen + plSize))).

(* go: packet/packet.go InitEmptyIPv4UDPPacket *)
Definition InitEmptyIPv4UDPPacket (plSize : Z) : M World bool :=
  let! ok := append_packet (u64 (plSize + EtherLen + IPv4MinLen + UDPLen)) in
  if negb ok then ret false
  else
    set_EtherType IPV4Number ;;
    data_at (IPv4MinLen + UDPLen) ;;
    ParseL3 ;;
    fillIPv4Default (u16 (IPv4MinLen + UDPLen + plSize)) UDPNumber ;;
    ParseL4ForIPv4 ;;
    set_DgramLen plSize ;;
    offload_IPv4 ;;
    ret true.

(* go: packet/packet.go InitEmptyIPv4ICMPPacket *)
Definition InitEmptyIPv4ICMPPacket (plSize : Z) : M World bool :=
  let! ok := append_packet (u64 (plSize + EtherLen + IPv4MinLen + ICMPLen)) in
  if negb ok then ret false
  else
    set_EtherType IPV4Number ;;
    data_at (IPv4MinLen + ICMPLen) ;;
    ParseL3 ;;
    fillIPv4Default (u16 (IPv4MinLen + ICMPLen + plSize)) ICMPNumber ;;
    ParseL4ForIPv4 ;;
    ret true.

(* go: packet/packet.go InitEmptyIPv6TCPPacket *)
Definition InitEmptyIPv6TCPPacket (plSize : Z) : M World bool :=
  let! ok := append_packet (u64 (plSize + EtherLen + IPv6Len + TCPMinLen)) in
  if negb ok then ret false
  else
    set_EtherType IPV6Number ;;
    ParseL3 ;;
    fillIPv6Default (u16 (TCPMinLen + plSize)) TCPNumber ;;
    ParseL4ForIPv6 ;;
    min_tcp_data ;;
    ret true.

(* go: packet/packet.go InitEmptyIPv6UDPPacket *)
Definition InitEmptyIPv6UDPPacket (plSize : Z) : M World bool :=
  let! ok := append_packet (u64 (plSize + EtherLen + IPv6Len + UDPLen)) in
  if negb ok then ret false
  else
    set_EtherType IPV6Number ;;
    data_at (IPv6Len + UDPLen) ;;
    ParseL3 ;;
    fillIPv6Default (u16 (UDPLen + plSize)) UDPNumber ;;
    ParseL4ForIPv6 ;;
    set_DgramLen plSize ;;
    ret true.

(* go: packet/packet.go InitEmptyIPv6ICMPPacket *)
Definition InitEmptyIPv6ICMPPacket (plSize : Z) : M World bool :=
  let! ok := append_packet (u64 (plSize + EtherLen + IPv6Len + ICMPLen)) in
  if negb ok then ret false
  else
    set_EtherType IPV6Number ;;
    data_at (IPv6Len + ICMPLen) ;;
    ParseL3 ;;
    fillIPv6Default (u16 (ICMPLen + plSize)) ICMPv6Number ;;
    ParseL4ForIPv6 ;;
    ret true.

(** ** ARP *)

(* go: packet/arp.go ARPRequest *)
Definition ARPRequest : Z := 1.
(* go: packet/arp.go ARPReply *)
Definition ARPReply : Z := 2.

Definition broadcast_mac : list Z := [0xff; 0xff; 0xff; 0xff; 0xff; 0xff].

(* go: packet/arp.go initARPCommonData *)
Definition initARPCommonData : M World bool :=
  let! ok := InitEmptyARPPacket in
  if negb ok then ret false
  else
    let! arp := GetARPNoCheck in
    wr arp ARPHdr.HType_ (SwapBytesUint16 1) ;;
    wr arp ARPHdr.PType_ (SwapBytesUint16 IPV4Number) ;;
    wr arp ARPHdr.HLen_ EtherAddrLen ;;
    wr arp ARPHdr.PLen_ IPv4AddrLen ;;
    ret true.

(** The part the four constructors share: the Ethernet addresses, the operation
    and the four address fields. *)
Definition fillARP (op : Z) (SHA DA THA : list Z) (SPA TPA : Z) : M World bool :=
  let! ok := initARPCommonData in
  if negb ok then ret false
  else
    let! e := getP Ether in wrb e EtherHdr.SAddr_ SHA ;;
    let! e := getP Ether in wrb e EtherHdr.DAddr_ DA ;;
    let! arp := GetARPNoCheck in
    wr arp ARPHdr.Operation_ (SwapBytesUint16 op) ;;
    wrb arp ARPHdr.SHA_ SHA ;;
    wrb arp ARPHdr.SPA_ (IPv4ToBytes SPA) ;;
    wrb arp ARPHdr.THA_ THA ;;
    wrb arp ARPHdr.TPA_ (IPv4ToBytes TPA) ;;
    ret true.

(* go: packet/arp.go InitARPRequestPacket *)
Definition InitARPRequestPacket (SHA : list Z) (SPA TPA : Z) : M World bool :=
  fillARP ARPRequest SHA broadcast_mac broadcast_mac SPA TPA.

(* go: packet/arp.go InitARPReplyPacket *)
Definition InitARPReplyPacket (SHA THA : list Z) (SPA TPA : Z) : M World bool :=
  fillARP ARPReply SHA THA THA SPA TPA.

(* go: packet/arp.go InitGARPAnnouncementRequestPacket *)
Definition InitGARPAnnouncementRequestPacket (SHA : list Z) (SPA : Z) : M World bool :=
  fillARP ARPRequest SHA broadcast_mac broadcast_mac SPA SPA.

(* go: packet/arp.go InitGARPAnnouncementReplyPacket *)
Definition InitGARPAnnouncementReplyPacket (SHA : list Z) (SPA : Z) : M World bool :=
  fillARP ARPReply SHA broadcast_mac broadcast_mac SPA SPA.

(** ** Neighbour discovery *)

(* go: packet/icmp6.go ICMPv6NDSourceLinkLayerAddress *)
Definition ICMPv6NDSourceLinkLayerAddress : Z := 1.
(* go: packet/icmp6.go ICMPv6NDTargetLinkLayerAddress *)
Definition ICMPv6NDTargetLinkLayerAddress : Z := 2.
(* go: packet/icmp6.go ICMPv6NDSolicitedFlag *)
Definition ICMPv6NDSolicitedFlag : Z := 0x4000.
(* go: packet/icmp6.go ICMPv6NDOverrideFlag *)
Definition ICMPv6NDOverrideFlag : Z := 0x2000.
(* go: packet/icmp6.go ICMPv6NDMessageOptionUnitSize *)
Definition ICMPv6NDMessageOptionUnitSize : Z := 8.

(* go: packet/icmp6.go ipv6LinkLocalPrefix *)
Definition ipv6LinkLocalPrefix : list Z := [0xfe; 0x80; 0; 0; 0; 0; 0; 0].
(* go: packet/icmp6.go ipv6LinkLocalMulticastPrefix *)
Definition ipv6LinkLocalMulticastPrefix : list Z :=
  [0xff; 0x02; 0; 0; 0; 0; 0; 0; 0; 0; 0; 0x01; 0xff].
(* go: packet/icmp6.go ipv6EtherMulticastPrefix *)
Definition ipv6EtherMulticastPrefix : list Z := [0x33; 0x33].

(** The messages hold one address, the options a type, a length and a MAC. *)
(* go: packet/icmp6.go ICMPv6NeighborSolicitationMessage *)
Definition NS_TargetAddr_ : field := Field 0 16.
(* go: packet/icmp6.go ICMPv6NeighborAdvertisementMessage *)
Definition NA_TargetAddr_ : field := Field 0 16.
(* go: packet/icmp6.go ICMPv6NDSourceLinkLayerAddressOption *)
Definition Option_Type_ : field := Field 0 1.
Definition Option_Length_ : field := Field 1 1.
Definition Option_LinkLayerAddress_ : field := Field 2 6.

(* go: packet/icmp6.go ICMPv6NeighborSolicitationMessageSize *)
Definition ICMPv6NeighborSolicitationMessageSize : Z := 16.
(* go: packet/icmp6.go ICMPv6NeighborAdvertisementMessageSize *)
Definition ICMPv6NeighborAdvertisementMessageSize : Z := 16.
(* go: packet/icmp6.go ICMPv6NDSourceLinkLayerAddressOptionSize *)
Definition ICMPv6NDSourceLinkLayerAddressOptionSize : Z := 8.
(* go: packet/icmp6.go ICMPv6NDTargetLinkLayerAddressOptionSize *)
Definition ICMPv6NDTargetLinkLayerAddressOptionSize : Z := 8.

(* go: packet/icmp6.go Packet.GetICMPv6NeighborSolicitationMessage *)
Definition GetICMPv6NeighborSolicitationMessage : M World Z := getP Data.
(* go: packet/icmp6.go Packet.GetICMPv6NeighborAdvertisementMessage *)
Definition GetICMPv6NeighborAdvertisementMessage : M World Z := getP Data.

(* go: packet/icmp6.go Packet.checkEnoughSpace *)
Definition checkEnoughSpace (space : Z) : M World bool :=
  let! pktStartAddr := StartAtOffset 0 in
  let! data := getP Data in
  let hdrsLen := i64 (u64 (data - pktStartAddr)) in
  let! len := GetPacketSegmentLen in
  let packetLength := i64 len in
  ret (0 <? i64 (packetLength - hdrsLen - i64 space)).

(* go: packet/icmp6.go Packet.GetICMPv6NDSourceLinkLayerAddressOption *)
Definition GetICMPv6NDSourceLinkLayerAddressOption (msgLength : Z) : M World Z :=
  let! ok := checkEnoughSpace msgLength in
  if ok then getP (fun p => ptr_add (Data p) msgLength) else ret 0.

(* go: packet/icmp6.go Packet.GetICMPv6NDTargetLinkLayerAddressOption *)
Definition GetICMPv6NDTargetLinkLayerAddressOption (msgLength : Z) : M World Z :=
  let! ok := checkEnoughSpace msgLength in
  if ok then getP (fun p => ptr_add (Data p) msgLength) else ret 0.

(** The functions below assign to an array behind a pointer: they take its old
    value and return the new one. *)
(* go: packet/icmp6.go CalculateIPv6LinkLocalAddrForMAC *)
Definition CalculateIPv6LinkLocalAddrForMAC (llAddr mac : list Z) : list Z :=
  let a := ipv6LinkLocalPrefix ++ drop 8 llAddr in
  <[15%nat := mac !!! 5%nat]> (<[14%nat := mac !!! 4%nat]> (<[13%nat := mac !!! 3%nat]>
    (<[12%nat := 0xfe]> (<[11%nat := 0xff]> (<[10%nat := mac !!! 2%nat]>
      (<[9%nat := mac !!! 1%nat]> (<[8%nat := Z.lxor (mac !!! 0%nat) 0x02]> a))))))).

(* go: packet/icmp6.go CalculateIPv6MulticastAddrForDstIP *)
Definition CalculateIPv6MulticastAddrForDstIP (muticastAddr dstIP : list Z) : list Z :=
  let a := ipv6LinkLocalMulticastPrefix ++ drop 13 muticastAddr in
  <[15%nat := dstIP !!! 15%nat]> (<[14%nat := dstIP !!! 14%nat]> (<[13%nat := dstIP !!! 13%nat]> a)).

(* go: packet/icmp6.go CalculateIPv6BroadcastMACForDstMulticastIP *)
Definition CalculateIPv6BroadcastMACForDstMulticastIP (dstMAC dstIP : list Z) : list Z :=
  let a := ipv6EtherMulticastPrefix ++ drop 2 dstMAC in
  <[5%nat := dstIP !!! 15%nat]> (<[4%nat := dstIP !!! 14%nat]> (<[3%nat := dstIP !!! 13%nat]>
    (<[2%nat := dstIP !!! 12%nat]> a))).

(** The option behind the message; its length is counted in units of 8 bytes. *)
Definition fillOption (option type size : Z) (mac : list Z) : M World unit :=
  wr option Option_Type_ type ;;
  wr option Option_Length_ (u8 (size / ICMPv6NDMessageOptionUnitSize)) ;;
  wrb option Option_LinkLayerAddress_ mac.

(** The result of [InitEmptyIPv6ICMPPacket] is ignored. *)
(* go: packet/icmp6.go InitICMPv6NeighborSolicitationPacket *)
Definition InitICMPv6NeighborSolicitationPacket (srcMAC srcIP dstIP : list Z) : M World unit :=
  InitEmptyIPv6ICMPPacket
    (ICMPv6NeighborSolicitationMessageSize + ICMPv6NDSourceLinkLayerAddressOptionSize) ;;
  let targetMulticastAddr := CalculateIPv6MulticastAddrForDstIP (replicate 16 0) dstIP in
  let! e := getP Ether in
  let! old := rdb e EtherHdr.DAddr_ in
  wrb e EtherHdr.DAddr_ (CalculateIPv6BroadcastMACForDstMulticastIP old targetMulticastAddr) ;;
  let! e := getP Ether in wrb e EtherHdr.SAddr_ srcMAC ;;
  let! ipv6 := GetIPv6NoCheck in
  wrb ipv6 IPv6Hdr.DstAddr_ targetMulticastAddr ;;
  wrb ipv6 IPv6Hdr.SrcAddr_ srcIP ;;
  let! icmp := GetICMPNoCheck in
  wr icmp ICMPHdr.MsgType_ ICMPv6NeighborSolicitation ;;
  wr icmp ICMPHdr.Identifier_ 0 ;;
  wr icmp ICMPHdr.SeqNum_ 0 ;;
  ParseL7 ICMPv6Number ;;
  let! msg := GetICMPv6NeighborSolicitationMessage in
  wrb msg NS_TargetAddr_ dstIP ;;
  let! option := GetICMPv6NDSourceLinkLayerAddressOption ICMPv6NeighborSolicitationMessageSize in
  fillOption option ICMPv6NDSourceLinkLayerAddress ICMPv6NDSourceLinkLayerAddressOptionSize srcMAC.

(* go: packet/icmp6.go InitICMPv6NeighborAdvertisementPacket *)
Definition InitICMPv6NeighborAdvertisementPacket (srcMAC dstMAC srcIP dstIP : list Z) :
    M World unit :=
  InitEmptyIPv6ICMPPacket
    (ICMPv6NeighborAdvertisementMessageSize + ICMPv6NDTargetLinkLayerAddressOptionSize) ;;
  let! e := getP Ether in wrb e EtherHdr.DAddr_ dstMAC ;;
  let! e := getP Ether in wrb e EtherHdr.SAddr_ srcMAC ;;
  let! ipv6 := GetIPv6NoCheck in
  wrb ipv6 IPv6Hdr.DstAddr_ dstIP ;;
  wrb ipv6 IPv6Hdr.SrcAddr_ srcIP ;;
  let! icmp := GetICMPNoCheck in
  wr icmp ICMPHdr.MsgType_ ICMPv6NeighborAdvertisement ;;
  wr icmp ICMPHdr.Identifier_ (SwapBytesUint16 (Z.lor ICMPv6NDSolicitedFlag ICMPv6NDOverrideFlag)) ;;
  wr icmp ICMPHdr.SeqNum_ 0 ;;
  ParseL7 ICMPv6Number ;;
  let! msg := GetICMPv6NeighborAdvertisementMessage in
  wrb msg NA_TargetAddr_ srcIP ;;
  let! option := GetICMPv6NDTargetLinkLayerAddressOption ICMPv6NeighborAdvertisementMessageSize in
  fillOption option ICMPv6NDTargetLinkLayerAddress ICMPv6NDTargetLinkLayerAddressOptionSize srcMAC.
