(* ===== verification/BuildSpec.v ===== *)
(** * What the builders promise

    A packet built by an [InitEmpty*] function carries consistent headers: the
    parser, run on it, finds the pointers the builder has already set. The ARP
    and neighbour discovery packets have, byte by byte, the contents of their
    standards. *)

From Stdlib Require Import ZArith Lia String.
From stdpp Require Import base list numbers option gmap.
From S2P Require Import Prelude Memory Text Types Mbuf Headers Parse ParseSpec Logic Build.

Open Scope Z_scope.
Open Scope go_scope.

(** A packet about to be built at [q]: its buffer is mapped for at least
    [MaxHeaders] bytes, and [Ether] is set, as the [Init*] functions expect. *)
Record building (w : World) (q : Z) (bs : list Z) (mb : Mbuf) : Prop := {
  bd_mb : mbufs w !! CMbuf (pkt w) = Some mb;
  bd_wf : wf_mbuf mb;
  bd_q : Mbuf_L2 mb = q;
  bd_l2 : L2 (pkt w) = q;
  bd_ether : Ether (pkt w) = q;
  bd_frame : frame (heap w) q bs;
  bd_len : (MaxHeaders <= length bs)%nat;
  bd_room : roomy q
}.

Definition appended (mb : Mbuf) (n : Z) : Mbuf :=
  set_data (data_off mb) (data_len mb + n) (data_len mb + n) mb.

Definition with_appended (n : Z) (mb : Mbuf) (w : World) : World :=
  set_mbufs (<[CMbuf (pkt w) := appended mb n]> (mbufs w)) w.

Lemma append_packet_ok w mb n :
  mbufs w !! CMbuf (pkt w) = Some mb -> wf_mbuf mb -> 0 <= n <= TailRoomSize mb ->
  append_packet n w = Some (true, with_appended n mb w).
Proof.
  intros E W H. unfold append_packet. rewrite bind_getP. unfold on_mbuf. rewrite E.
  by rewrite AppendMbuf_ok.
Qed.

Lemma append_packet_fail w mb n :
  mbufs w !! CMbuf (pkt w) = Some mb -> wf_mbuf mb -> TailRoomSize mb < n < 65536 ->
  append_packet n w = Some (false, w).
Proof.
  intros E W H. unfold append_packet. rewrite bind_getP. unfold on_mbuf. rewrite E.
  rewrite AppendMbuf_fail by done. rewrite insert_id by done. by destruct w.
Qed.

(** ** The six transport packets *)

Inductive kind := TCP4 | UDP4 | ICMP4 | TCP6 | UDP6 | ICMP6.

Definition init (k : kind) : Z -> M World bool :=
  match k with
  | TCP4 => InitEmptyIPv4TCPPacket
  | UDP4 => InitEmptyIPv4UDPPacket
  | ICMP4 => InitEmptyIPv4ICMPPacket
  | TCP6 => InitEmptyIPv6TCPPacket
  | UDP6 => InitEmptyIPv6UDPPacket
  | ICMP6 => InitEmptyIPv6ICMPPacket
  end.

Definition ip_hdr (k : kind) : nat := match k with TCP4 | UDP4 | ICMP4 => 20 | _ => 40 end.
Definition l4_hdr (k : kind) : nat := match k with TCP4 | TCP6 => 20 | _ => 8 end.
Definition hdrs (k : kind) : nat := 14 + ip_hdr k + l4_hdr k.

(** The length field of the IP header of a packet with [pl] bytes of payload. *)
Definition ip_length (k : kind) (bs : list Z) (pl : Z) : Prop :=
  match k with
  | TCP4 | UDP4 | ICMP4 => be16 bs 16 = Z.of_nat (ip_hdr k + l4_hdr k) + pl
  | _ => be16 bs 18 = Z.of_nat (l4_hdr k) + pl
  end.

(** The length field of the UDP header. *)
Definition udp_length (k : kind) (bs : list Z) (pl : Z) : Prop :=
  match k with
  | UDP4 => be16 bs 38 = 8 + pl
  | UDP6 => be16 bs 58 = 8 + pl
  | _ => True
  end.

Record built (k : kind) (pl : Z) (w0 : World) (q : Z) (mb : Mbuf) (w : World) (bs : list Z) : Prop := {
  bt_frame : frame (heap w) q bs;
  bt_len : (MaxHeaders <= length bs)%nat;
  bt_pkt : pkt w = set_Data (q + Z.of_nat (hdrs k)) (set_L4 (q + Z.of_nat (14 + ip_hdr k))
             (set_L3 (q + 14) (pkt w0)));
  bt_mbufs : mbufs w = mbufs (with_appended (Z.of_nat (hdrs k) + pl) mb w0);
  bt_layout : wire_layout bs = (Some (14 + ip_hdr k)%nat, Some (hdrs k));
  bt_ip : ip_length k bs pl;
  bt_udp : udp_length k bs pl
}.

Lemma be16_look bs i x :
  b bs i = x / 256 -> b bs (S i) = x mod 256 -> be16 bs i = x.
Proof. unfold be16. intros -> ->. pose proof (Z_div_mod_eq_full x 256). lia. Qed.

Lemma wp_set_EtherType w q bs t (Q : unit -> World -> Prop) :
  frame (heap w) q bs -> Ether (pkt w) = q -> (14 <= length bs)%nat -> 0 <= t < 65536 ->
  (forall m' bs', bs' = splice 12 [t / 256; t mod 256] bs -> length bs' = length bs ->
     frame m' q bs' -> Q tt (set_heap m' w)) ->
  wp (set_EtherType t) Q w.
Proof.
  intros F E H Ht HQ. unfold set_EtherType. wp_pure. rewrite E.
  wp_write_swap 0%nat. by eapply HQ.
Qed.

Lemma wp_fillIPv4Default w q bs len proto (Q : unit -> World -> Prop) :
  frame (heap w) q bs -> (MaxHeaders <= length bs)%nat -> L3 (pkt w) = q + 14 ->
  roomy q -> 0 <= len < 65536 -> 0 <= proto < 256 ->
  (forall m' bs', frame m' q bs' -> length bs' = length bs -> b bs' 14 = 0x45 ->
     be16 bs' 16 = len -> b bs' 23 = proto -> b bs' 22 = 64 ->
     (forall i, (i < 14 \/ 24 <= i)%nat -> b bs' i = b bs i) -> Q tt (set_heap m' w)) ->
  wp (fillIPv4Default len proto) Q w.
Proof.
  intros F H E T Hl Hp HQ. unfold MaxHeaders, roomy in *. unfold fillIPv4Default, GetIPv4NoCheck.
  wp_pure. rewrite E. wp_write 14%nat.
  wp_pure. rewrite E. wp_write_swap 14%nat.
  wp_pure. rewrite E. wp_write 14%nat.
  wp_pure. rewrite E. wp_write 14%nat.
  eapply (HQ m'2 bs'2); [done|lia| | | | |].
  - by look.
  - apply be16_look; by look.
  - look. simpl. by apply Z.mod_small.
  - by look.
  - intros i Hi. by look.
Qed.

Lemma wp_fillIPv6Default w q bs len proto (Q : unit -> World -> Prop) :
  frame (heap w) q bs -> (MaxHeaders <= length bs)%nat -> L3 (pkt w) = q + 14 ->
  roomy q -> 0 <= len < 65536 -> 0 <= proto < 256 ->
  (forall m' bs', frame m' q bs' -> length bs' = length bs ->
     be16 bs' 18 = len -> b bs' 20 = proto -> b bs' 21 = 255 -> b bs' 14 = 0x60 ->
     (forall i, (i < 14 \/ 22 <= i)%nat -> b bs' i = b bs i) -> Q tt (set_heap m' w)) ->
  wp (fillIPv6Default len proto) Q w.
Proof.
  intros F H E T Hl Hp HQ. unfold MaxHeaders, roomy in *. unfold fillIPv6Default, GetIPv6NoCheck.
  wp_pure. rewrite E. wp_write_swap 14%nat.
  wp_pure. rewrite E. wp_write 14%nat.
  wp_pure. rewrite E. wp_write 14%nat.
  wp_pure. rewrite E. wp_write 14%nat.
  eapply (HQ m'2 bs'2); [done|lia| | | | |].
  - apply be16_look; by look.
  - look. simpl. by apply Z.mod_small.
  - by look.
  - by look.
  - intros i Hi. by look.
Qed.

Lemma wp_append_packet w mb n (Q : bool -> World -> Prop) :
  mbufs w !! CMbuf (pkt w) = Some mb -> wf_mbuf mb -> 0 <= n <= TailRoomSize mb ->
  Q true (with_appended n mb w) -> wp (append_packet n) Q w.
Proof. intros. unfold wp. by rewrite (append_packet_ok w mb n). Qed.

Lemma ptr2 q x y :
  0 < q -> 0 <= x -> 0 <= y -> q + x + y < 18446744073709551616 -> ptr_add (ptr_add q x) y = q + (x + y).
Proof. intros. unfold ptr_add. rewrite (u64_small (q + x)), u64_small by lia. lia. Qed.

Lemma ptr1 q x : 0 < q -> 0 <= x -> q + x < 18446744073709551616 -> ptr_add q x = q + x.
Proof. intros. unfold ptr_add. rewrite u64_small; lia. Qed.

Lemma ParseL4ForIPv4_built (Q : unit -> World -> Prop) w q bs :
  frame (heap w) q bs -> (MaxHeaders <= length bs)%nat -> L3 (pkt w) = q + 14 -> b bs 14 = 0x45 ->
  Q tt (set_pkt (set_L4 (q + Z.of_nat 34) (pkt w)) w) -> wp ParseL4ForIPv4 Q w.
Proof. intros F H E V HQ. unfold wp. rewrite (ParseL4ForIPv4_frame w q bs F H E), V. exact HQ. Qed.

Lemma ParseL4ForIPv6_built (Q : unit -> World -> Prop) w q bs :
  frame (heap w) q bs -> (MaxHeaders <= length bs)%nat -> L3 (pkt w) = q + 14 ->
  Q tt (set_pkt (set_L4 (q + Z.of_nat 54) (pkt w)) w) -> wp ParseL4ForIPv6 Q w.
Proof. intros F H E HQ. unfold wp. by rewrite (ParseL4ForIPv6_frame w q bs F H E). Qed.

Lemma DataAfterTCP_built (Q : unit -> World -> Prop) w q bs o :
  frame (heap w) q bs -> (o + 20 <= length bs)%nat -> L4 (pkt w) = q + Z.of_nat o ->
  q + Z.of_nat o + 60 < 18446744073709551616 -> b bs (o + 12) = 0x50 ->
  Q tt (set_pkt (set_Data (q + Z.of_nat (o + 20)) (pkt w)) w) -> wp DataAfterTCP Q w.
Proof.
  intros F H E T V HQ. unfold wp. rewrite (DataAfterTCP_frame w q bs o F ltac:(lia) E T), V. exact HQ.
Qed.

(** The last writes: [DataOff] of a TCP header, [DgramLen] of a UDP header, and
    the IPv4 header checksum for hardware offload. *)
Lemma wp_min_tcp_data (Q : unit -> World -> Prop) w q bs o :
  frame (heap w) q bs -> (o + 20 <= length bs)%nat -> L4 (pkt w) = q + Z.of_nat o ->
  q + Z.of_nat o + 60 < 18446744073709551616 ->
  (forall m' bs', frame m' q bs' -> length bs' = length bs -> b bs' (o + 12) = 0x50 ->
     (forall i, i <> (o + 12)%nat -> b bs' i = b bs i) ->
     Q tt (set_pkt (set_Data (q + Z.of_nat (o + 20)) (pkt w)) (set_heap m' w))) ->
  wp min_tcp_data Q w.
Proof.
  intros F H E T HQ. unfold min_tcp_data, GetTCPNoCheck. wp_pure. rewrite E. wp_write o.
  assert (V : b bs' (o + 12) = 0x50) by (look; by rewrite Nat.sub_diag).
  eapply (DataAfterTCP_built _ _ q bs' o); [done|lia|done|done|done|].
  eapply HQ; [done|done|done|]. intros i Hi. by look.
Qed.

Lemma wp_set_DgramLen (Q : unit -> World -> Prop) w q bs o pl :
  frame (heap w) q bs -> (o + 8 <= length bs)%nat -> L4 (pkt w) = q + Z.of_nat o ->
  0 <= pl -> 8 + pl < 65536 ->
  (forall m' bs', frame m' q bs' -> length bs' = length bs -> be16 bs' (o + 4) = 8 + pl ->
     (forall i, (i < o + 4 \/ o + 6 <= i)%nat -> b bs' i = b bs i) -> Q tt (set_heap m' w)) ->
  wp (set_DgramLen pl) Q w.
Proof.
  intros F H E Hp Hl HQ. unfold set_DgramLen, GetUDPNoCheck, UDPLen. wp_pure. rewrite E.
  rewrite (u16_small (8 + pl)) by lia. wp_write_swap o.
  eapply HQ; [done|done| |].
  - apply be16_look; look; [by rewrite Nat.sub_diag|].
    by replace (S (o + 4) - (o + Z.to_nat (f_off UDPHdr.DgramLen_)))%nat with 1%nat by (cbn; lia).
  - intros i Hi. by look.
Qed.

Lemma wp_offload_IPv4 (Q : unit -> World -> Prop) w q bs :
  frame (heap w) q bs -> (MaxHeaders <= length bs)%nat -> L3 (pkt w) = q + 14 -> roomy q ->
  (forall m' bs', frame m' q bs' -> length bs' = length bs ->
     (forall i, (i < 24 \/ 26 <= i)%nat -> b bs' i = b bs i) -> Q tt (set_heap m' w)) ->
  wp offload_IPv4 Q w.
Proof.
  intros F H E T HQ. unfold MaxHeaders, roomy in *. unfold offload_IPv4, GetIPv4NoCheck. wp_pure.
  destruct (hwtxchecksum w); wp_pure.
  - rewrite E. wp_write 14%nat. eapply HQ; [done|done|]. intros i Hi. by look.
  - assert (Ew : set_heap (heap w) w = w) by (by destruct w). rewrite <- Ew. by eapply HQ.
Qed.

Section Init.
Variables (w : World) (q : Z) (bs : list Z) (mb : Mbuf) (pl : Z).
Hypothesis B : building w q bs mb.
Hypothesis Hpl : 0 <= pl.

Lemma building_facts : 0 < q /\ roomy q /\ (MaxHeaders <= length bs)%nat /\ frame (heap w) q bs /\
  L2 (pkt w) = q /\ Ether (pkt w) = q.
Proof. destruct B. split_and!; try done. by eapply frame_pos. Qed.

(** The common head: room is taken and the EtherType is written. *)
Lemma wp_head n t (Q : bool -> World -> Prop) (k : M World bool) :
  0 <= n <= TailRoomSize mb -> 0 <= t < 65536 ->
  (forall m' bs', frame m' q bs' -> length bs' = length bs -> be16 bs' 12 = t ->
     (forall i, (14 <= i)%nat -> b bs' i = b bs i) -> wp k Q (set_heap m' (with_appended n mb w))) ->
  wp (let! ok := append_packet n in
      if negb ok then ret false else set_EtherType t ;; k) Q w.
Proof.
  intros Hn Ht HQ. destruct building_facts as (P & T & L & F & E2 & Ee). unfold MaxHeaders in L.
  wp_pure. apply (wp_append_packet w mb n); [apply B|apply B|done|]. simpl negb. cbv iota.
  wp_pure. apply (wp_set_EtherType (with_appended n mb w) q bs); [exact F|exact Ee|lia|done|].
  intros m' bs' Eb Lb F'. eapply HQ; [done|done| |].
  - apply be16_look; by look.
  - intros i Hi. by look.
Qed.

Lemma uint_sum (k : kind) :
  Z.of_nat (hdrs k) + pl <= TailRoomSize mb -> Z.of_nat (hdrs k) + pl < 65536.
Proof. intros H. pose proof (TailRoomSize_wf mb (bd_wf _ _ _ _ B)). destruct (bd_wf _ _ _ _ B). lia. Qed.
End Init.

Ltac layout := unfold wire_layout, wire_payload.

Ltac bcbn := unfold with_appended; wcbn.

(** The layout of a finished frame, from the bytes that decide it. *)
Lemma layout4 bs proto hdr :
  be16 bs 12 = 0x0800 -> b bs 14 = 0x45 -> b bs 23 = proto ->
  wire_payload bs 1 proto 34 = Some hdr -> wire_layout bs = (Some 34%nat, Some hdr).
Proof. intros E V P H. unfold wire_layout. rewrite E, V, P. rewrite <- H. reflexivity. Qed.

Lemma layout6 bs proto hdr :
  be16 bs 12 = 0x86dd -> b bs 20 = proto ->
  wire_payload bs 58 proto 54 = Some hdr -> wire_layout bs = (Some 54%nat, Some hdr).
Proof. intros E P H. unfold wire_layout. rewrite E, P. rewrite <- H. reflexivity. Qed.

Lemma be16_same x y i : b x i = b y i -> b x (S i) = b y (S i) -> be16 x i = be16 y i.
Proof. unfold be16. by intros -> ->. Qed.


(** Carry the bytes of the last frame back to the step that wrote them. *)
Ltac back :=
  unfold be16 in *;
  repeat match goal with
         | O : forall i : nat, _ -> b ?x i = b _ i |- context [b ?x _] => rewrite O by lia
         end; try done.
Ltac l3_tac := unfold with_appended; wcbn; match goal with E : L2 _ = _ |- _ => rewrite E end;
  first [apply ptr1; lia | apply ptr2; lia].
Ltac mbufs_tac := unfold with_appended; wcbn;
  match goal with |- <[_ := appended _ ?x]> _ = <[_ := appended _ ?y]> _ =>
    replace x with y by (cbn; lia); done end.
Ltac pkt_tac := unfold with_appended; wcbn; match goal with E : L2 _ = _ |- _ => rewrite E end;
  rewrite ?ptr2, ?ptr1 by lia; done.
(** The head, with the arithmetic on the sizes discharged. *)
Ltac head_tac B :=
  unfold EtherLen; rewrite u64_small by lia; apply (wp_head _ _ _ _ B); [lia|done|];
  intros m1 bs1 F1 L1 T1 O1; unfold data_at, ParseL3, unparsed, EtherLen; wp_pure.
Ltac fill4_tac :=
  eapply wp_fillIPv4Default; [eassumption|lia|l3_tac|done|zlia|done|];
  intros m2 bs2 F2 L2' V2 T2 P2 _ O2; rewrite u16_small in T2 by lia; wp_pure;
  eapply ParseL4ForIPv4_built; [eassumption|lia|l3_tac|done|]; wp_pure.
Ltac fill6_tac :=
  eapply wp_fillIPv6Default; [eassumption|lia|l3_tac|done|zlia|done|];
  intros m2 bs2 F2 L2' T2 P2 _ _ O2; rewrite u16_small in T2 by lia; wp_pure;
  eapply ParseL4ForIPv6_built; [eassumption|lia|l3_tac|]; wp_pure.
Ltac tcp_tac o :=
  eapply (wp_min_tcp_data _ _ _ _ o); [eassumption|lia|done|lia|]; intros m3 bs3 F3 L3' D3 O3; wp_pure.
Ltac udp_tac o :=
  eapply (wp_set_DgramLen _ _ _ _ o); [eassumption|lia|done|lia|lia|]; intros m3 bs3 F3 L3' D3 O3; wp_pure.
Ltac offload_tac :=
  eapply wp_offload_IPv4; [eassumption|lia|l3_tac|done|]; intros m4 bs4 F4 L4' O4; wp_pure.
(** The final frame [x] and what [built] asks of it; [t] settles the payload offset. *)
Ltac payload_tac := unfold wire_payload; simpl Z.eqb; cbv iota; back.
Ltac built_tac x lay :=
  split; [done|]; exists x; split;
  [eassumption|unfold MaxHeaders; lia|pkt_tac|mbufs_tac
  |eapply lay; [back..|payload_tac]; try match goal with D : b _ _ = 0x50 |- _ => by rewrite D end
  |unfold ip_length; back|unfold udp_length; back].

Section InitKinds.
Variables (w : World) (q : Z) (bs : list Z) (mb : Mbuf) (pl : Z).
Hypothesis B : building w q bs mb.
Hypothesis Hp : 0 <= pl.

Let goal (k : kind) : Prop :=
  Z.of_nat (hdrs k) + pl <= TailRoomSize mb ->
  wp (init k pl) (fun r w' => r = true /\ exists bs', built k pl w q mb w' bs') w.

Ltac begin k :=
  intros Hr; pose proof (uint_sum w q bs mb pl B k Hr) as Hu;
  destruct (building_facts w q bs mb B) as (P & T & L & F & E2 & Ee); cbn in Hr, Hu;
  pose proof T as T'; unfold roomy in T'; pose proof L as L'; unfold MaxHeaders in L'.

Lemma init_TCP4 : goal TCP4.
Proof.
  begin TCP4. unfold init, InitEmptyIPv4TCPPacket, IPv4MinLen, TCPMinLen.
  head_tac B. fill4_tac. tcp_tac 34%nat. offload_tac. built_tac bs4 layout4.
Qed.

Lemma init_UDP4 : goal UDP4.
Proof.
  begin UDP4. unfold init, InitEmptyIPv4UDPPacket, IPv4MinLen, UDPLen.
  head_tac B. fill4_tac. udp_tac 34%nat. offload_tac. built_tac bs4 layout4.
Qed.

Lemma init_ICMP4 : goal ICMP4.
Proof.
  begin ICMP4. unfold init, InitEmptyIPv4ICMPPacket, IPv4MinLen, ICMPLen.
  head_tac B. fill4_tac. built_tac bs2 layout4.
Qed.

Lemma init_TCP6 : goal TCP6.
Proof.
  begin TCP6. unfold init, InitEmptyIPv6TCPPacket, IPv6Len, TCPMinLen.
  head_tac B. fill6_tac. tcp_tac 54%nat. built_tac bs3 layout6.
Qed.

Lemma init_UDP6 : goal UDP6.
Proof.
  begin UDP6. unfold init, InitEmptyIPv6UDPPacket, IPv6Len, UDPLen.
  head_tac B. fill6_tac. udp_tac 54%nat. built_tac bs3 layout6.
Qed.

Lemma init_ICMP6 : goal ICMP6.
Proof.
  begin ICMP6. unfold init, InitEmptyIPv6ICMPPacket, IPv6Len, ICMPLen.
  head_tac B. fill6_tac. built_tac bs2 layout6.
Qed.

Lemma init_built k : goal k.
Proof.
  destruct k; [exact init_TCP4|exact init_UDP4|exact init_ICMP4
              |exact init_TCP6|exact init_UDP6|exact init_ICMP6].
Qed.
End InitKinds.

Lemma init_fail k w q bs mb pl :
  building w q bs mb -> 0 <= pl -> TailRoomSize mb < Z.of_nat (hdrs k) + pl < 65536 ->
  init k pl w = Some (false, w).
Proof.
  intros B Hp H. pose proof (bd_mb _ _ _ _ B) as E. pose proof (bd_wf _ _ _ _ B) as W.
  destruct k; cbn in H; unfold init, InitEmptyIPv4TCPPacket, InitEmptyIPv4UDPPacket,
    InitEmptyIPv4ICMPPacket, InitEmptyIPv6TCPPacket, InitEmptyIPv6UDPPacket,
    InitEmptyIPv6ICMPPacket, EtherLen, IPv4MinLen, IPv6Len, TCPMinLen, UDPLen, ICMPLen;
    rewrite u64_small by lia;
    (erewrite bind_some; [|by apply (append_packet_fail w mb); [done|done|lia]]); done.
Qed.

Lemma built_parses k pl w0 q mb w bs :
  built k pl w0 q mb w bs -> L2 (pkt w0) = q -> roomy q -> ParseData w = Some (0, w).
Proof.
  intros [F L P _ Y _ _] E2 T.
  assert (E : L2 (pkt w) = q) by (rewrite P; exact E2).
  rewrite <- E in F, T. rewrite (ParseData_frame w bs F L T), Y. unfold payload_rc, with_layout.
  cbn [fst snd]. rewrite E, P. do 2 f_equal.
  transitivity (set_pkt (pkt w) w); [|by destruct w]. rewrite P. done.
Qed.

(** C38. Each of the six transport packet builders, on a packet whose [Ether] and [L2]
    are the start of the data of its mbuf and whose buffer has [MaxHeaders] bytes
    from there, and for headers and payload of less than 65536 bytes together:
    it takes exactly the room they need, or, without that room, leaves everything
    unchanged and returns [false]. On success the parser run on the built packet
    accepts it and moves no pointer: [L3], [L4] and [Data] are already where the
    bytes say, and the IP and UDP length fields count the payload. Without these
    conditions it does not hold: a nil [Ether] makes the builders panic
    ([InitEmpty_nil_Ether]) and a longer payload is cut to 16 bits
    ([AppendMbuf_truncates]). *)
Theorem InitEmpty_built k w q bs mb pl :
  building w q bs mb -> 0 <= pl -> Z.of_nat (hdrs k) + pl < 65536 ->
  if Z.of_nat (hdrs k) + pl <=? TailRoomSize mb then
    exists w' bs', init k pl w = Some (true, w') /\ frame (heap w') q bs' /\
      ParseData w' = Some (0, w') /\ Data (pkt w') = q + Z.of_nat (hdrs k) /\
      ip_length k bs' pl /\ udp_length k bs' pl /\
      GetPacketLen w' = Some (data_len mb + Z.of_nat (hdrs k) + pl, w')
  else init k pl w = Some (false, w).
Proof.
  intros B Hp Hs. destruct (Z.leb_spec (Z.of_nat (hdrs k) + pl) (TailRoomSize mb)) as [H|H].
  - pose proof (init_built w q bs mb pl B Hp k H) as Wp.
    apply wp_run in Wp as (r & w' & E & -> & bs' & Bt). exists w', bs'.
    destruct (building_facts w q bs mb B) as (P & T & L & F & E2 & Ee).
    pose proof Bt as [F' L' P' M' Y I U]. split_and!; try done.
    + by apply (built_parses k pl w q mb w' bs').
    + by rewrite P'.
    + unfold GetPacketLen. rewrite bind_getP. unfold of_mbuf. rewrite M', P'. unfold with_appended.
      wcbn. rewrite lookup_insert_eq. unfold GetPktLenMbuf, appended. simpl. do 2 f_equal. lia.
  - apply (init_fail k w q bs mb pl B Hp). lia.
Qed.

Definition sample_build : World :=
  mkWorld (write ∅ 4224 (replicate 200 0)) {[ 8 := mkMbuf 4096 128 0 0 2048 0 0 64 0 ]}
    (set_Ether 4224 (set_L2 4224 (zero_packet 8))) true 120.

Lemma sample_building :
  building sample_build 4224 (replicate 200 0) (mkMbuf 4096 128 0 0 2048 0 0 64 0).
Proof.
  split; try reflexivity.
  - split; simpl; lia.
  - split; [by apply load_write_same|lia|rewrite length_replicate; lia|].
    apply Forall_replicate. unfold byte_ok. lia.
  - rewrite length_replicate. unfold MaxHeaders. lia.
Qed.

Lemma InitEmpty_built_witness :
  exists w', init UDP4 18 sample_build = Some (true, w') /\ ParseData w' = Some (0, w') /\
    Data (pkt w') = 4266.
Proof.
  pose proof (InitEmpty_built UDP4 sample_build _ _ _ 18 sample_building ltac:(lia) ltac:(cbn; lia)) as P.
  replace (_ <=? _) with true in P by reflexivity.
  destruct P as (w' & bs' & E & _ & D & A & _). exists w'.
  split; [exact E|]. split; [exact D|]. rewrite A. reflexivity.
Defined.

(** [packet.Ether] must be set before a builder runs: with [Ether] nil, which
    is how every [Packet] starts and how parsing leaves it, the builders take
    the room and then panic. *)
Theorem InitEmpty_nil_Ether k w mb pl :
  mbufs w !! CMbuf (pkt w) = Some mb -> wf_mbuf mb -> Ether (pkt w) = 0 -> 0 <= pl ->
  Z.of_nat (hdrs k) + pl <= TailRoomSize mb -> init k pl w = None.
Proof.
  intros E W N Hp H. pose proof (TailRoomSize_wf mb W). pose proof W as [].
  assert (X : forall t n (m : M World bool),
    (set_EtherType t ;; m) (with_appended n mb w) = None).
  { intros. unfold set_EtherType. rewrite bind_assoc, bind_getP. unfold with_appended. wcbn.
    by rewrite N. }
  destruct k; cbn in H; unfold init, InitEmptyIPv4TCPPacket, InitEmptyIPv4UDPPacket,
    InitEmptyIPv4ICMPPacket, InitEmptyIPv6TCPPacket, InitEmptyIPv6UDPPacket,
    InitEmptyIPv6ICMPPacket, EtherLen, IPv4MinLen, IPv6Len, TCPMinLen, UDPLen, ICMPLen;
    rewrite u64_small by lia;
    (erewrite bind_some; [|by apply (append_packet_ok w mb); [done|done|lia]]);
    apply X.
Qed.

Lemma InitEmpty_nil_Ether_witness : init TCP6 10 (set_pkt (zero_packet 8) sample_build) = None.
Proof.
  apply (InitEmpty_nil_Ether TCP6 _ (mkMbuf 4096 128 0 0 2048 0 0 64 0));
    [reflexivity|split; simpl; lia|reflexivity|lia|vm_compute; discriminate].
Defined.

(** ** ARP *)

Record arp_args (SHA DA THA : list Z) (SPA TPA : Z) : Prop := {
  aa_sha : Forall byte_ok SHA; aa_sha_len : length SHA = 6%nat;
  aa_da : Forall byte_ok DA; aa_da_len : length DA = 6%nat;
  aa_tha : Forall byte_ok THA; aa_tha_len : length THA = 6%nat
}.

(** The packet of RFC 826 for IPv4 over Ethernet. *)
Definition arp_wire (op : Z) (SHA DA THA : list Z) (SPA TPA : Z) : list Z :=
  DA ++ SHA ++ [0x08; 0x06] ++
  [0; 1; 0x08; 0x00; 6; 4; 0; op] ++ SHA ++ IPv4ToBytes SPA ++ THA ++ IPv4ToBytes TPA.

Lemma IPv4ToBytes_ok v : Forall byte_ok (IPv4ToBytes v) /\ length (IPv4ToBytes v) = 4%nat.
Proof. split; [|done]. unfold IPv4ToBytes. repeat constructor; apply u8_range. Qed.

Lemma take_ext (l k : list Z) n :
  (n <= length l)%nat -> length k = n -> (forall i, (i < n)%nat -> b l i = b k i) -> take n l = k.
Proof.
  intros Hl Hk H. apply list_eq_same_length with n; [done|by rewrite length_take; lia|].
  intros i x y Hi Hx Hy. rewrite lookup_take_lt in Hx by lia. specialize (H i Hi). unfold b in H.
  by rewrite (list_lookup_total_correct _ _ _ Hx), (list_lookup_total_correct _ _ _ Hy) in H.
Qed.

Ltac explode l H :=
  repeat (destruct l as [|? l]; [discriminate H|]); destruct l as [|? ?]; [|discriminate H].

Ltac upto H :=
  repeat match type of H with
         | (?i < 0)%nat => exfalso; lia
         | (?i < _)%nat => destruct i as [|i]; [|apply Nat.succ_lt_mono in H]
         end.

Lemma wp_fillARP w q bs mb op SHA DA THA SPA TPA :
  building w q bs mb -> 42 <= TailRoomSize mb -> arp_args SHA DA THA SPA TPA -> 0 <= op < 256 ->
  wp (fillARP op SHA DA THA SPA TPA) (fun r w' => r = true /\ exists bs',
    frame (heap w') q bs' /\ take 42 bs' = arp_wire op SHA DA THA SPA TPA /\
    mbufs w' = mbufs (with_appended 42 mb w) /\ L3 (pkt w') = q + 14) w.
Proof.
  intros B Hr A Hop. destruct (building_facts w q bs mb B) as (P & T & L & F & E2 & Ee).
  unfold roomy in T. unfold MaxHeaders in L. destruct A as [S1 S2 D1 D2 T1 T2].
  destruct (IPv4ToBytes_ok SPA) as [P1 P2]. destruct (IPv4ToBytes_ok TPA) as [Q1 Q2].
  unfold fillARP. apply wp_bind. unfold initARPCommonData. apply wp_bind. unfold InitEmptyARPPacket.
  apply (wp_head w q bs mb B); [done|done|]. intros m1 bs1 F1 L1 E1 O1.
  unfold ParseL3, unparsed, EtherLen, GetARPNoCheck. wp_pure. simpl negb. cbv iota. wp_pure.
  unfold with_appended; wcbn. rewrite E2, ptr1 by lia.
  wp_write_swap 14%nat. wp_pure. wp_write_swap 14%nat. wp_pure. wp_write 14%nat. wp_pure.
  wp_write 14%nat. wp_pure. simpl negb. cbv iota. wp_pure. rewrite Ee.
  wp_writeb 0%nat. wp_pure. rewrite Ee. wp_writeb 0%nat. wp_pure.
  wp_write_swap 14%nat. wp_pure. wp_writeb 14%nat. wp_pure. wp_writeb 14%nat. wp_pure.
  wp_writeb 14%nat. wp_pure. wp_writeb 14%nat. wp_pure.
  split; [done|]. eexists. split; [eassumption|]. split_and!; [|done|done].
  assert (b bs1 12 = 0x08 /\ b bs1 13 = 0x06) as [EA EB].
  { pose proof (byte_at bs1 12 (frame_ok _ _ _ F1)). pose proof (byte_at bs1 13 (frame_ok _ _ _ F1)).
    unfold be16, b, byte_ok, ARPNumber in *. lia. }
  assert (Eop : op / 256 = 0 /\ op mod 256 = op) by zlia. destruct Eop as [Eo1 Eo2].
  unfold arp_wire. set (spa := IPv4ToBytes SPA) in *. set (tpa := IPv4ToBytes TPA) in *.
  clearbody spa tpa. rewrite L1 in *. clear B F Hr E1 O1.
  explode SHA S2. explode DA D2. explode THA T2. explode spa P2. explode tpa Q2.
  do 42 (destruct bs1 as [|? bs1]; [cbn in L1; lia|]).
  unfold b in EA, EB. simpl in EA, EB. subst. rewrite Eo1, Eo2. reflexivity.
Qed.

Lemma fillARP_fail w q bs mb op SHA DA THA SPA TPA :
  building w q bs mb -> TailRoomSize mb < 42 -> fillARP op SHA DA THA SPA TPA w = Some (false, w).
Proof.
  intros B H. pose proof (append_packet_fail w mb 42 (bd_mb _ _ _ _ B) (bd_wf _ _ _ _ B) ltac:(lia)) as E.
  unfold fillARP, initARPCommonData, InitEmptyARPPacket. rewrite !bind_assoc.
  change (EtherLen + ARPLen) with 42. run E. done.
Qed.

(** The four ARP constructors produce exactly the 42 bytes of an RFC 826
    packet for IPv4 over Ethernet, with the sender's addresses, the operation
    and the addresses each of them announces; the target hardware address of a
    request and of both announcements is the broadcast address, not zero. With
    too little room they return [false] and change nothing. *)
Theorem InitARP_spec w q bs mb SHA THA SPA TPA :
  building w q bs mb -> Forall byte_ok SHA -> length SHA = 6%nat ->
  Forall byte_ok THA -> length THA = 6%nat ->
  let spec (m : M World bool) (wire : list Z) :=
    if 42 <=? TailRoomSize mb then
      exists w' bs', m w = Some (true, w') /\ frame (heap w') q bs' /\ take 42 bs' = wire /\
        mbufs w' = mbufs (with_appended 42 mb w)
    else m w = Some (false, w) in
  spec (InitARPRequestPacket SHA SPA TPA) (arp_wire 1 SHA broadcast_mac broadcast_mac SPA TPA) /\
  spec (InitARPReplyPacket SHA THA SPA TPA) (arp_wire 2 SHA THA THA SPA TPA) /\
  spec (InitGARPAnnouncementRequestPacket SHA SPA)
    (arp_wire 1 SHA broadcast_mac broadcast_mac SPA SPA) /\
  spec (InitGARPAnnouncementReplyPacket SHA SPA)
    (arp_wire 2 SHA broadcast_mac broadcast_mac SPA SPA).
Proof.
  intros B S1 S2 T1 T2 spec.
  assert (M : forall op DA HA TP, Forall byte_ok DA -> length DA = 6%nat -> Forall byte_ok HA ->
    length HA = 6%nat -> 0 <= op < 256 ->
    spec (fillARP op SHA DA HA SPA TP) (arp_wire op SHA DA HA SPA TP)).
  { intros op DA HA TP D1 D2 H1 H2 Ho. unfold spec.
    destruct (Z.leb_spec 42 (TailRoomSize mb)) as [R|R].
    - pose proof (wp_fillARP w q bs mb op SHA DA HA SPA TP B R ltac:(by split) Ho) as Wp.
      apply wp_run in Wp as (r & w' & E & -> & bs' & F & T & Em & _). by exists w', bs'.
    - by eapply fillARP_fail. }
  assert (Bc : Forall byte_ok broadcast_mac) by (apply (bool_decide_unpack _); exact I).
  split_and!; by apply M.
Qed.

Lemma InitARP_spec_witness :
  exists w' bs', InitARPRequestPacket [2; 0; 0; 0; 0; 1] 0x0100000a 0x0200000a sample_build =
    Some (true, w') /\ frame (heap w') 4224 bs' /\
    take 42 bs' = arp_wire 1 [2; 0; 0; 0; 0; 1] broadcast_mac broadcast_mac 0x0100000a 0x0200000a.
Proof.
  destruct (InitARP_spec sample_build _ _ _ [2; 0; 0; 0; 0; 1] broadcast_mac 0x0100000a 0x0200000a
    sample_building) as [P _]; [apply (bool_decide_unpack _); exact I|reflexivity
    |apply (bool_decide_unpack _); exact I|reflexivity|].
  replace (_ <=? _) with true in P by reflexivity.
  destruct P as (w' & bs' & E & F & T & _). exists w', bs'. split; [exact E|]. split; [exact F|exact T].
Defined.

(** ** Neighbour discovery *)

(** The solicited-node multicast address of RFC 4291 and its Ethernet address. *)
Definition solicited (ip : list Z) : list Z :=
  [0xff; 0x02; 0; 0; 0; 0; 0; 0; 0; 0; 0; 0x01; 0xff] ++ drop 13 ip.
Definition solicited_mac (ip : list Z) : list Z := [0x33; 0x33; 0xff] ++ drop 13 ip.

(** An ICMPv6 neighbour discovery packet of RFC 4861 with one link-layer address
    option; [rest] are the code and the checksum, which the builder leaves. *)
Definition nd_wire (DA SA src dst : list Z) (type : Z) (rest flags target : list Z) (opt : Z)
    (mac : list Z) : list Z :=
  DA ++ SA ++ [0x86; 0xdd] ++ [0x60; 0; 0; 0; 0; 32; 58; 255] ++ src ++ dst ++
  [type] ++ rest ++ flags ++ target ++ [opt; 1] ++ mac.

Definition code_cksum (bs : list Z) : list Z := [b bs 55; b bs 56; b bs 57].


Lemma wp_option_ptr w mb (f : Z -> M World Z) msg (Q : Z -> World -> Prop) :
  f = GetICMPv6NDSourceLinkLayerAddressOption \/ f = GetICMPv6NDTargetLinkLayerAddressOption ->
  mbufs w !! CMbuf (pkt w) = Some mb -> wf_mbuf mb -> 0 < L2 (pkt w) -> 0 <= msg ->
  (exists n, Data (pkt w) = L2 (pkt w) + n /\ 0 <= n /\ n + msg < data_len mb /\
             L2 (pkt w) + n + msg < 18446744073709551616) ->
  Q (Data (pkt w) + msg) w -> wp (f msg) Q w.
Proof.
  intros Hf E W P Hm (n & Ed & Hn & Hl & T) HQ. pose proof W as [].
  assert (C : checkEnoughSpace msg w = Some (true, w)).
  { unfold checkEnoughSpace, StartAtOffset. rewrite !bind_getP. unfold GetPacketSegmentLen.
    rewrite bind_assoc, bind_getP, (bind_of_mbuf _ _ _ _ mb) by done. unfold GetDataLenMbuf, ret.
    rewrite ptr1 by lia. rewrite Ed.
    replace (L2 (pkt w) + n - (L2 (pkt w) + 0)) with n by lia.
    rewrite (u64_small n), (i64_small n), (i64_small (data_len mb)), (i64_small msg) by lia.
    rewrite i64_small by lia. do 2 f_equal. lia. }
  destruct Hf as [-> | ->]; unfold wp, GetICMPv6NDSourceLinkLayerAddressOption,
    GetICMPv6NDTargetLinkLayerAddressOption; rewrite (bind_some _ _ _ _ _ C); unfold getP, gets;
    unfold ptr_add; rewrite u64_small by lia; exact HQ.
Qed.

Ltac lens := rewrite ?length_app, ?length_take, ?length_drop; simpl length; lia.

Record nd_start (w0 : World) (q : Z) (bs : list Z) (mb : Mbuf) (w : World) (bs' : list Z) : Prop := {
  ns_frame : frame (heap w) q bs';
  ns_len : length bs' = length bs;
  ns_pkt : pkt w = set_L4 (q + 54) (set_L3 (q + 14) (set_Data (q + 62) (pkt w0)));
  ns_mbufs : mbufs w = <[CMbuf (pkt w0) := appended mb 86]> (mbufs w0);
  ns_head : take 10 (drop 12 bs') = [0x86; 0xdd; 0x60; 0; 0; 0; 0; 32; 58; 255];
  ns_rest : forall i, (22 <= i)%nat -> b bs' i = b bs i
}.

Lemma wp_nd_init w q bs mb (Q : bool -> World -> Prop) :
  building w q bs mb -> 86 <= TailRoomSize mb ->
  (forall w' bs', nd_start w q bs mb w' bs' -> Q true w') -> wp (InitEmptyIPv6ICMPPacket 24) Q w.
Proof.
  intros B Hr HQ. destruct (building_facts w q bs mb B) as (P & T & L & F & E2 & Ee).
  unfold roomy in T. unfold MaxHeaders in L.
  unfold InitEmptyIPv6ICMPPacket. change (u64 _) with 86. apply (wp_head w q bs mb B); [lia|done|].
  intros m1 bs1 F1 L1 T1 O1. unfold data_at, ParseL3, unparsed, EtherLen, fillIPv6Default, GetIPv6NoCheck.
  wp_pure. unfold with_appended; wcbn. rewrite E2, ptr2, ptr1 by (unfold IPv6Len, ICMPLen; lia).
  change (u16 (ICMPLen + 24)) with 32.
  wp_write_swap 14%nat. wp_pure. wp_write 14%nat. wp_pure. wp_write 14%nat. wp_pure. wp_write 14%nat.
  wp_pure. eapply ParseL4ForIPv6_built; [eassumption|unfold MaxHeaders; lia|done|]. wp_pure.
  eapply HQ. split; wcbn; [eassumption|lia|done|done| |].
  - assert (b bs1 12 = 0x86 /\ b bs1 13 = 0xdd) as [EA EB].
    { pose proof (byte_at bs1 12 (frame_ok _ _ _ F1)). pose proof (byte_at bs1 13 (frame_ok _ _ _ F1)).
      unfold be16, b, byte_ok, IPV6Number in *. lia. }
    clear B F Hr T1 O1 HQ. do 22 (destruct bs1 as [|? bs1]; [cbn in L1; lia|]).
    unfold b in EA, EB. simpl in EA, EB. subst. reflexivity.
  - intros i Hi. look. apply O1. lia.
Qed.

(** The bytes both constructors leave, as one list. *)
Lemma nd_bytes bs DA SA src dst type f0 f1 target opt :
  (94 <= length bs)%nat -> length DA = 6%nat -> length SA = 6%nat -> length src = 16%nat ->
  length dst = 16%nat -> length target = 16%nat ->
  take 10 (drop 12 bs) = [0x86; 0xdd; 0x60; 0; 0; 0; 0; 32; 58; 255] ->
  take 86 (splice 80 SA (splice 79 [1] (splice 78 [opt] (splice 62 target
    (splice 60 [0; 0] (splice 58 [f0; f1] (splice 54 [type]
      (splice 22 src (splice 38 dst (splice 6 SA (splice 0 DA bs))))))))))) =
  nd_wire DA SA src dst type (code_cksum bs) [f0; f1; 0; 0] target opt SA.
Proof.
  intros L A1 A2 A3 A4 A5 H. unfold nd_wire, code_cksum, b.
  explode DA A1. explode SA A2. explode src A3. explode dst A4. explode target A5.
  do 86 (destruct bs as [|? bs]; [cbn in L; lia|]).
  simpl in H. simplify_eq. reflexivity.
Qed.

Lemma multicast_solicited ip :
  length ip = 16%nat -> CalculateIPv6MulticastAddrForDstIP (replicate 16 0) ip = solicited ip.
Proof. intros H. explode ip H. reflexivity. Qed.

Lemma broadcast_solicited old ip :
  length ip = 16%nat -> length old = 6%nat ->
  CalculateIPv6BroadcastMACForDstMulticastIP old (solicited ip) = solicited_mac ip.
Proof. intros H K. explode ip H. explode old K. reflexivity. Qed.

Lemma solicited_ok ip :
  Forall byte_ok ip -> length ip = 16%nat ->
  Forall byte_ok (solicited ip) /\ length (solicited ip) = 16%nat /\
  Forall byte_ok (solicited_mac ip) /\ length (solicited_mac ip) = 6%nat.
Proof.
  intros F H. unfold solicited, solicited_mac. rewrite !length_app, length_drop, H.
  split_and!; try done; apply Forall_app_2; try (by apply Forall_drop);
    apply (bool_decide_unpack _); exact I.
Qed.

Section ND.
Variables (w : World) (q : Z) (bs : list Z) (mb : Mbuf) (srcMAC dstMAC srcIP dstIP : list Z).
Hypothesis B : building w q bs mb.
Hypothesis Hr : 86 <= TailRoomSize mb.
Hypothesis Hn : 0 <= data_len mb.
Hypothesis S1 : Forall byte_ok srcMAC.
Hypothesis S2 : length srcMAC = 6%nat.
Hypothesis D1 : Forall byte_ok dstMAC.
Hypothesis D2 : length dstMAC = 6%nat.
Hypothesis I1 : Forall byte_ok srcIP.
Hypothesis I2 : length srcIP = 16%nat.
Hypothesis J1 : Forall byte_ok dstIP.
Hypothesis J2 : length dstIP = 16%nat.

Let post (wire : list Z) (w' : World) : Prop :=
  exists bs', frame (heap w') q bs' /\ take 86 bs' = wire /\ mbufs w' = mbufs (with_appended 86 mb w).

Lemma appended_wf n : 0 <= n <= TailRoomSize mb -> wf_mbuf (appended mb n).
Proof.
  intros H. pose proof (bd_wf _ _ _ _ B) as W. rewrite (TailRoomSize_wf mb W) in H.
  apply wf_set_data; [exact W|destruct W; lia..].
Qed.

Lemma ParseL7_ICMPv6 : ParseL7 ICMPv6Number = DataAfter 8.
Proof. done. Qed.

Lemma code_cksum_same bs' : (forall i, (22 <= i)%nat -> b bs' i = b bs i) -> code_cksum bs = code_cksum bs'.
Proof. intros R. unfold code_cksum. by rewrite !R by lia. Qed.

Ltac nd_packet := match goal with P : pkt _ = _ |- _ => rewrite P end; wcbn;
  try match goal with E : Ether _ = _ |- _ => rewrite E end.

(** What both constructors do behind the ICMP header: the target, then the
    option. *)
Lemma wp_nd_body w1 bs1 f msgf opt target k (Q : unit -> World -> Prop) :
  f = GetICMPv6NDSourceLinkLayerAddressOption \/ f = GetICMPv6NDTargetLinkLayerAddressOption ->
  msgf = getP Data -> Forall byte_ok target -> length target = 16%nat -> 0 <= opt < 256 ->
  frame (heap w1) q bs1 -> length bs1 = length bs ->
  pkt w1 = set_L4 (q + 54) (set_L3 (q + 14) (set_Data k (pkt w))) ->
  mbufs w1 = mbufs (with_appended 86 mb w) ->
  (forall w2 m bs2 bs3 bs4 bs5, 
     w2 = set_heap m (set_pkt (set_Data (q + 62) (pkt w1)) w1) -> frame m q bs5 ->
     bs2 = splice 62 target bs1 -> bs3 = splice 78 [opt] bs2 -> bs4 = splice 79 [1] bs3 ->
     bs5 = splice 80 srcMAC bs4 -> Q tt w2) ->
  wp (ParseL7 ICMPv6Number ;;
      let! msg := msgf in
      wrb msg NS_TargetAddr_ target ;;
      let! option := f 16 in
      fillOption option opt 8 srcMAC) Q w1.
Proof.
  intros Hf -> G1 G2 Ho F1 L1 P1 M1 HQ.
  destruct (building_facts w q bs mb B) as (P & T & L & F & E2 & Ee).
  unfold roomy in T. unfold MaxHeaders in L.
  rewrite ParseL7_ICMPv6. unfold DataAfter, fillOption. wp_pure. rewrite P1. wcbn.
  rewrite ptr1 by lia. wp_writeb 62%nat. wp_pure.
  eapply (wp_option_ptr _ (appended mb 86)); [done| |by apply appended_wf| | | |].
  - wcbn. rewrite M1. unfold with_appended. wcbn. apply lookup_insert_eq.
  - wcbn. rewrite E2. lia.
  - lia.
  - wcbn. rewrite E2. exists 62. simpl. lia.
  - wcbn. replace (q + 54 + 8) with (q + 62) by lia.
    wp_pure. wp_write 78%nat. wp_pure. wp_write 78%nat. wp_pure. wp_writeb 78%nat.
    eapply HQ; [by rewrite P1|eassumption|..].
    4: eassumption. 3: eassumption. 1: eassumption.
    etransitivity; [eassumption|]. simpl. by rewrite Z.mod_small.
Qed.

Lemma wp_NA :
  wp (InitICMPv6NeighborAdvertisementPacket srcMAC dstMAC srcIP dstIP)
    (fun _ => post (nd_wire dstMAC srcMAC srcIP dstIP 136 (code_cksum bs) [0x60; 0; 0; 0] srcIP 2 srcMAC)) w.
Proof.
  destruct (building_facts w q bs mb B) as (P & T & L & F & E2 & Ee).
  unfold roomy in T. unfold MaxHeaders in L. unfold InitICMPv6NeighborAdvertisementPacket.
  apply wp_bind. apply (wp_nd_init w q bs mb); [done|done|].
  intros w1 bs1 [F1 L1 P1 M1 H1 R1]. unfold GetIPv6NoCheck, GetICMPNoCheck.
  wp_pure. nd_packet. wp_writeb 0%nat. wp_pure. nd_packet. wp_writeb 0%nat. wp_pure.
  nd_packet. wp_writeb 14%nat. wp_pure. wp_writeb 14%nat. wp_pure. nd_packet.
  wp_write 54%nat. wp_pure. wp_write_swap 54%nat. wp_pure. wp_write 54%nat.
  eapply wp_nd_body; [by right|done|done|done|done|eassumption|lia|exact P1|exact M1|].
  intros w2 m b1 b2 b3 b4 -> Fm -> -> -> ->. eexists. split; [exact Fm|]. split; [|by wcbn].
  rewrite (code_cksum_same bs1 R1). subst. apply (nd_bytes bs1); (done || lia).
Qed.

Lemma wp_NS :
  wp (InitICMPv6NeighborSolicitationPacket srcMAC srcIP dstIP)
    (fun _ => post (nd_wire (solicited_mac dstIP) srcMAC srcIP (solicited dstIP) 135 (code_cksum bs)
       [0; 0; 0; 0] dstIP 1 srcMAC)) w.
Proof.
  destruct (building_facts w q bs mb B) as (P & T & L & F & E2 & Ee).
  unfold roomy in T. unfold MaxHeaders in L. unfold InitICMPv6NeighborSolicitationPacket.
  apply wp_bind. apply (wp_nd_init w q bs mb); [done|done|].
  intros w1 bs1 [F1 L1 P1 M1 H1 R1]. unfold GetIPv6NoCheck, GetICMPNoCheck.
  rewrite (multicast_solicited dstIP J2).
  destruct (solicited_ok dstIP J1 J2) as (K1 & K2 & K3 & K4).
  wp_pure. nd_packet. apply (wp_rdb _ q bs1 _ 0); [exact F1|lia|done|simpl; lia|].
  rewrite (broadcast_solicited _ dstIP); [|done|rewrite length_take, length_drop; cbn [f_size f_off EtherHdr.DAddr_]; lia].
  set (dmac := solicited_mac dstIP) in *. set (dip := solicited dstIP) in *. clearbody dmac dip.
  wp_pure. wp_writeb 0%nat. wp_pure. nd_packet. wp_writeb 0%nat. wp_pure.
  nd_packet. wp_writeb 14%nat. wp_pure. wp_writeb 14%nat. wp_pure. nd_packet.
  wp_write 54%nat. wp_pure. wp_write 54%nat. wp_pure. wp_write 54%nat.
  eapply wp_nd_body; [by left|done|done|done|done|eassumption|lia|exact P1|exact M1|].
  intros w2 m b1 b2 b3 b4 -> Fm -> -> -> ->. eexists. split; [exact Fm|]. split; [|by wcbn].
  rewrite (code_cksum_same bs1 R1). subst. apply (nd_bytes bs1); (done || lia).
Qed.
End ND.

(** The neighbour discovery packets are, byte for byte, the ones of RFC 4861:
    a solicitation goes to the solicited-node multicast address and its Ethernet
    address, carries the target and the sender's link-layer address; an
    advertisement is unicast with the Solicited and Override flags. Only the
    code and the checksum bytes are left as they were. *)
Theorem InitICMPv6ND_spec w q bs mb srcMAC dstMAC srcIP dstIP :
  building w q bs mb -> 86 <= TailRoomSize mb -> 0 <= data_len mb ->
  Forall byte_ok srcMAC -> length srcMAC = 6%nat -> Forall byte_ok dstMAC -> length dstMAC = 6%nat ->
  Forall byte_ok srcIP -> length srcIP = 16%nat -> Forall byte_ok dstIP -> length dstIP = 16%nat ->
  let spec (m : M World unit) (wire : list Z) :=
    exists w' bs', m w = Some (tt, w') /\ frame (heap w') q bs' /\ take 86 bs' = wire /\
      mbufs w' = mbufs (with_appended 86 mb w) in
  spec (InitICMPv6NeighborSolicitationPacket srcMAC srcIP dstIP)
    (nd_wire (solicited_mac dstIP) srcMAC srcIP (solicited dstIP) 135 (code_cksum bs)
       [0; 0; 0; 0] dstIP 1 srcMAC) /\
  spec (InitICMPv6NeighborAdvertisementPacket srcMAC dstMAC srcIP dstIP)
    (nd_wire dstMAC srcMAC srcIP dstIP 136 (code_cksum bs) [0x60; 0; 0; 0] srcIP 2 srcMAC).
Proof.
  intros B Hr Hn S1 S2 D1 D2 I1 I2 J1 J2 spec. unfold spec. split.
  - destruct (proj1 (wp_run _ _ _) (wp_NS w q bs mb srcMAC dstMAC srcIP dstIP B Hr Hn S1 S2 D2
      I1 I2 J1 J2)) as ([] & w' & E & bs' & X). by exists w', bs'.
  - destruct (proj1 (wp_run _ _ _) (wp_NA w q bs mb srcMAC dstMAC srcIP dstIP B Hr Hn S1 S2 D1 D2
      I1 I2 J1 J2)) as ([] & w' & E & bs' & X). by exists w', bs'.
Qed.

Lemma InitICMPv6ND_spec_witness :
  let mac := [2; 0; 0; 0; 0; 1] in let ip := [0xfe; 0x80] ++ replicate 13 0 ++ [9] in
  exists w' bs', InitICMPv6NeighborSolicitationPacket mac ip ip sample_build = Some (tt, w') /\
    frame (heap w') 4224 bs' /\ take 6 (take 86 bs') = [0x33; 0x33; 0xff; 0; 0; 9].
Proof.
  intros mac ip.
  destruct (InitICMPv6ND_spec sample_build _ _ _ mac mac ip ip sample_building) as [P _];
    [vm_compute; discriminate|simpl; lia|apply (bool_decide_unpack _); exact I|reflexivity
    |apply (bool_decide_unpack _); exact I|reflexivity|apply (bool_decide_unpack _); exact I
    |reflexivity|apply (bool_decide_unpack _); exact I|reflexivity|].
  destruct P as (w' & bs' & E & F & T & _). exists w', bs'.
  split; [exact E|]. split; [exact F|]. rewrite T. reflexivity.
Defined.
