(* ===== verification/Edit.v ===== *)
(** * Package packet: adding, removing and changing bytes

    [Encapsulate*], [Decapsulate*] and [PacketBytesChange] of
    [src/packet/packet.go]. They move bytes one at a time, at offsets from
    [L2]. Loops run on fuel; a loop that used it up would be [None], and the
    theorems show it never does. *)

From Stdlib Require Import ZArith Lia String.
From stdpp Require Import base list numbers option gmap.
From S2P Require Import Prelude Memory Text Types Mbuf Headers Parse.

Open Scope Z_scope.
Open Scope go_scope.

(** One assignment of the byte at offset [src] from [L2] to offset [dst]. *)
Definition move_byte (dst src : Z) : M World unit :=
  let! d := StartAtOffset dst in
  let! s := StartAtOffset src in
  let! x := peek s 1 in
  poke d 1 x.

(** [for i := i0; i < n; i++] moving byte [i + length] to [i]. *)
Fixpoint move_down (fuel : nat) (i n length : Z) : M World unit :=
  if negb (i <? n) then ret tt
  else
    match fuel with
    | O => panic
    | S k => move_byte i (u64 (i + length)) ;; move_down k (u64 (i + 1)) n length
    end.

(** [for i := i0; int(i) >= stop; i--] moving byte [i - length] to [i]. *)
Fixpoint move_up (fuel : nat) (i stop length : Z) : M World unit :=
  if i64 i <? stop then ret tt
  else
    match fuel with
    | O => panic
    | S k => move_byte i (u64 (i - length)) ;; move_up k (u64 (i - 1)) stop length
    end.

(** [for i := i0; i >= 0; i--] moving byte [i] to [i + length], on [int]. *)
Fixpoint move_head (fuel : nat) (i length : Z) : M World unit :=
  if i <? 0 then ret tt
  else
    match fuel with
    | O => panic
    | S k => move_byte (u64 (i + length)) (u64 i) ;; move_head k (i64 (i - 1)) length
    end.

(* go: packet/packet.go Packet.EncapsulateHead *)
Definition EncapsulateHead (start length : Z) : M World bool :=
  let! c := getP CMbuf in
  let! pss := gets packetStructSize in
  let! ok := on_mbuf c (fun mb => PrependMbuf pss mb length) in
  if negb ok then ret false
  else
    putP (fun p => set_Ether (u64 (Ether p - length)) p) ;;
    move_down (Z.to_nat start) 0 start length ;;
    ret true.

(* go: packet/packet.go Packet.EncapsulateTail *)
Definition EncapsulateTail (start length : Z) : M World bool :=
  let! c := getP CMbuf in
  let! ok := on_mbuf c (fun mb => AppendMbuf mb length) in
  if negb ok then ret false
  else
    let! packetLength := GetPacketLen in
    move_up (Z.to_nat packetLength) (u64 (packetLength - 1)) (i64 (u64 (start + length))) length ;;
    ret true.

(* go: packet/packet.go Packet.DecapsulateHead *)
Definition DecapsulateHead (start length : Z) : M World bool :=
  let! c := getP CMbuf in
  let! ok := on_mbuf c (fun mb => AdjMbuf mb length) in
  if negb ok then ret false
  else
    move_head (Z.to_nat start) (i64 (u64 (start - 1))) (i64 length) ;;
    putP (fun p => set_Ether (u64 (Ether p + length)) p) ;;
    ret true.

(* go: packet/packet.go Packet.DecapsulateTail *)
Definition DecapsulateTail (start length : Z) : M World bool :=
  let! packetLength := GetPacketLen in
  let! c := getP CMbuf in
  let! ok := on_mbuf c (fun mb => TrimMbuf mb length) in
  if negb ok then ret false
  else
    move_down (Z.to_nat packetLength) start packetLength length ;;
    ret true.

(** Storing the bytes one by one. *)
Fixpoint change_bytes (i start : Z) (bytes : list Z) : M World unit :=
  match bytes with
  | [] => ret tt
  | x :: r =>
      let! d := StartAtOffset (u64 (start + i)) in
      poke d 1 x ;;
      change_bytes (i + 1) start r
  end.

(* go: packet/packet.go Packet.PacketBytesChange *)
Definition PacketBytesChange (start : Z) (bytes : list Z) : M World bool :=
  let length := Z.of_nat (length bytes) in
  let! n := GetPacketLen in
  if n <? u64 (start + length) then ret false
  else
    change_bytes 0 start bytes ;;
    ret true.
