(* ===== verification/EditSpec.v ===== *)
(** * What the editing functions promise

    The loops never run out of fuel and never fault inside the packet; what each
    function does to the packet bytes is stated on the byte lists a reader of
    the packet sees before and after. *)

From Stdlib Require Import ZArith Lia String.
From stdpp Require Import base list numbers option gmap.
From S2P Require Import Prelude Memory Text Types Mbuf Headers Parse ParseSpec Logic Build BuildSpec Edit.

Open Scope Z_scope.
Open Scope go_scope.

(** ** The loops *)

Lemma b_insert (l : list Z) i j x :
  (i < length l)%nat -> b (<[i := x]> l) j = if decide (i = j) then x else b l j.
Proof.
  intros H. unfold b. rewrite !list_lookup_total_alt. case_decide as D.
  - subst. by rewrite list_lookup_insert_eq.
  - by rewrite list_lookup_insert_ne.
Qed.

Lemma splice_insert (l : list Z) i x : (i < length l)%nat -> splice i [x] l = <[i := x]> l.
Proof.
  intros H. unfold splice. rewrite (insert_take_drop l i x) by done. simpl.
  by rewrite Nat.add_1_r.
Qed.

Section Loops.
Variables (w : World) (q : Z).
Hypothesis E2 : L2 (pkt w) = q.

(** [bs] may start [k] bytes before [L2]. *)
Lemma wp_move_byte_at p k h bs d s (Q : unit -> World -> Prop) :
  q = p + Z.of_nat k ->
  frame h p bs -> (k + d < length bs)%nat -> (k + s < length bs)%nat ->
  (forall m', frame m' p (<[(k + d)%nat := b bs (k + s)]> bs) ->
     (forall a, a < p \/ p + Z.of_nat (length bs) <= a -> m' !! a = h !! a) ->
     Q tt (set_heap m' w)) ->
  wp (move_byte (Z.of_nat d) (Z.of_nat s)) Q (set_heap h w).
Proof.
  intros Eq F Hd Hs HQ. pose proof F as [L P T Ok]. unfold move_byte. wp_pure.
  apply wp_StartAtOffset. wp_pure. apply wp_StartAtOffset. wp_pure. rewrite E2, Eq.
  rewrite !ptr1 by lia. unfold wp, peek, bind, poke, load_le, store_le. cbn [heap set_heap].
  replace (p + Z.of_nat k + Z.of_nat s) with (p + Z.of_nat (k + s)) by lia.
  replace (p + Z.of_nat k + Z.of_nat d) with (p + Z.of_nat (k + d)) by lia.
  rewrite (frame_bytes _ _ bs (k + s) 1 F) by lia. rewrite take_drop_one by lia.
  fold (b bs (k + s)).
  assert (Ev : le_val [b bs (k + s)] = b bs (k + s)) by (simpl; lia).
  cbn -[le_val le_bytes Nat.add]. rewrite Ev.
  pose proof (byte_at bs (k + s) Ok) as B.
  assert (Eb : le_bytes 1 (b bs (k + s)) = [b bs (k + s)]).
  { simpl. unfold byte_ok, b in *. by rewrite Z.mod_small. }
  rewrite Eb, store_bytes_mapped.
  - apply HQ; [|intros a Ha; apply lookup_write_out; simpl; lia].
    rewrite <- splice_insert by done. apply frame_write; [done|simpl; lia|].
    by apply Forall_singleton.
  - eapply mapped_sub; [apply frame_mapped, F|lia|simpl; lia].
Qed.

Lemma wp_move_byte h bs d s (Q : unit -> World -> Prop) :
  frame h q bs -> (d < length bs)%nat -> (s < length bs)%nat ->
  (forall m', frame m' q (<[d := b bs s]> bs) -> Q tt (set_heap m' w)) ->
  wp (move_byte (Z.of_nat d) (Z.of_nat s)) Q (set_heap h w).
Proof. intros F Hd Hs HQ. eapply (wp_move_byte_at q 0); [lia|exact F|done|done|]. intros; by apply HQ. Qed.

Lemma set_heap_set m1 m2 : set_heap m1 (set_heap m2 w) = set_heap m1 w.
Proof. done. Qed.

Lemma wp_move_down_at p k len n fuel i bs h (Q : unit -> World -> Prop) :
  q = p + Z.of_nat k ->
  frame h p bs -> (i <= n)%nat -> (k + n + len <= length bs)%nat -> (n - i <= fuel)%nat ->
  (forall m' bs', frame m' p bs' -> length bs' = length bs ->
     (forall j, b bs' j = if decide (k + i <= j < k + n)%nat then b bs (j + len) else b bs j) ->
     Q tt (set_heap m' w)) ->
  wp (move_down fuel (Z.of_nat i) (Z.of_nat n) (Z.of_nat len)) Q (set_heap h w).
Proof.
  intros Eq. revert i bs h; induction fuel as [|fuel IH]; intros i bs h F Hi Hn Hf HQ; simpl.
  - assert (i = n) by lia. subst i. rewrite Z.ltb_irrefl. simpl. eapply HQ; [done|done|].
    intros j. by rewrite decide_False by lia.
  - destruct (Z.ltb_spec (Z.of_nat i) (Z.of_nat n)) as [Hlt|Hge]; simpl.
    + pose proof (frame_top _ _ _ F). pose proof (frame_pos _ _ _ F).
      apply wp_bind. replace (u64 (Z.of_nat i + Z.of_nat len)) with (Z.of_nat (i + len)%nat)
        by (rewrite u64_small; lia).
      apply (wp_move_byte_at p k h bs); [done|done|lia|lia|]. intros m' F' _.
      replace (u64 (Z.of_nat i + 1)) with (Z.of_nat (S i)) by (rewrite u64_small; lia).
      apply (IH (S i) (<[(k + i)%nat := b bs (k + (i + len))]> bs) m');
        rewrite ?length_insert; try done; try lia.
      intros m2 bs2 F2 L2' R2. eapply HQ; [done|lia|]. intros j. rewrite R2.
      rewrite !b_insert by lia. repeat case_decide; try lia; try done. f_equal. lia.
    + eapply HQ; [done|done|]. intros j. by rewrite decide_False by lia.
Qed.

Lemma wp_move_down len n fuel i bs h (Q : unit -> World -> Prop) :
  frame h q bs -> (i <= n)%nat -> (n + len <= length bs)%nat -> (n - i <= fuel)%nat ->
  (forall m' bs', frame m' q bs' -> length bs' = length bs ->
     (forall j, b bs' j = if decide (i <= j < n)%nat then b bs (j + len) else b bs j) ->
     Q tt (set_heap m' w)) ->
  wp (move_down fuel (Z.of_nat i) (Z.of_nat n) (Z.of_nat len)) Q (set_heap h w).
Proof. intros. eapply (wp_move_down_at q 0); [lia|eassumption|done..]. Qed.

(** Moving bytes down from beyond the end of what is mapped. *)
Lemma move_down_fault len n fuel i bs h :
  frame h q bs -> length bs = n -> h !! (q + Z.of_nat n) = None -> (0 < len)%nat ->
  (i + len <= n)%nat -> q + Z.of_nat n < 18446744073709551616 ->
  move_down fuel (Z.of_nat i) (Z.of_nat n) (Z.of_nat len) (set_heap h w) = None.
Proof.
  revert i bs h; induction fuel as [|fuel IH]; intros i bs h F L Hn Hl Hi T; simpl;
    (destruct (Z.ltb_spec (Z.of_nat i) (Z.of_nat n)); [|lia]); simpl; [done|].
  pose proof (frame_pos _ _ _ F).
  replace (u64 (Z.of_nat i + Z.of_nat len)) with (Z.of_nat (i + len)%nat) by (rewrite u64_small; lia).
  destruct (decide (i + len = n)%nat) as [E|E].
  - apply bind_none. unfold move_byte, StartAtOffset. rewrite !bind_getP. cbn [pkt set_heap].
    rewrite E2, !ptr1 by lia. unfold bind, peek, load_le. cbn [heap set_heap]. rewrite E. simpl.
    by rewrite Hn.
  - assert (Wp : wp (move_byte (Z.of_nat i) (Z.of_nat (i + len))) (fun _ w' => exists m' bs',
      w' = set_heap m' w /\ frame m' q bs' /\ length bs' = n /\ m' !! (q + Z.of_nat n) = None)
      (set_heap h w)).
    { eapply (wp_move_byte_at q 0 h bs); [lia|done|lia|lia|]. intros m' F' O. eexists m', _.
      split; [done|]. split; [exact F'|]. rewrite length_insert. split; [done|].
      rewrite O by lia. done. }
    apply wp_run in Wp as ([] & w' & R & m' & bs' & -> & F' & L' & N').
    rewrite (bind_some _ _ _ _ _ R).
    replace (u64 (Z.of_nat i + 1)) with (Z.of_nat (S i)) by (rewrite u64_small; lia).
    by apply (IH (S i) bs'); try lia.
Qed.

Lemma wp_move_up len stop fuel i bs h (Q : unit -> World -> Prop) :
  frame h q bs -> (len <= stop)%nat -> (i <= length bs)%nat -> (i - stop <= fuel)%nat ->
  Z.of_nat (length bs) < 9223372036854775808 -> (1 <= i)%nat ->
  (forall m' bs', frame m' q bs' -> length bs' = length bs ->
     (forall j, b bs' j = if decide (stop <= j < i)%nat then b bs (j - len) else b bs j) ->
     Q tt (set_heap m' w)) ->
  wp (move_up fuel (u64 (Z.of_nat i - 1)) (Z.of_nat stop) (Z.of_nat len)) Q (set_heap h w).
Proof.
  revert i bs h; induction fuel as [|fuel IH]; intros i bs h F Hs Hi Hf Hb H1 HQ; simpl;
    rewrite u64_small, i64_small by lia.
  - replace (Z.of_nat i - 1 <? Z.of_nat stop) with true by (symmetry; apply Z.ltb_lt; lia).
    eapply HQ; [done|done|]. intros j. by rewrite decide_False by lia.
  - destruct (Z.ltb_spec (Z.of_nat i - 1) (Z.of_nat stop)) as [Hlt|Hge].
    + eapply HQ; [done|done|]. intros j. by rewrite decide_False by lia.
    + apply wp_bind. replace (Z.of_nat i - 1) with (Z.of_nat (i - 1)%nat) by lia.
      replace (u64 (Z.of_nat (i - 1) - Z.of_nat len)) with (Z.of_nat (i - 1 - len)%nat)
        by (rewrite u64_small; lia).
      apply (wp_move_byte h bs); [done|lia|lia|]. intros m' F'.
      destruct (decide (i = 1)%nat) as [->|].
      { destruct fuel; simpl; (assert (stop = 0)%nat by lia); subst stop.
        all: assert (len = 0)%nat by lia; subst len.
        all: change (i64 (u64 (Z.of_nat (1 - 1) - 1)) <? Z.of_nat 0) with true; cbv iota.
        all: eapply HQ; [done|by rewrite length_insert|]; intros j; rewrite b_insert by lia.
        all: repeat case_decide; try lia; try done; by subst. }
      apply (IH (i - 1)%nat (<[(i - 1)%nat := b bs (i - 1 - len)]> bs) m');
        rewrite ?length_insert; try done; try lia.
      intros m2 bs2 F2 L2' R2. eapply HQ; [done|lia|]. intros j. rewrite R2.
      rewrite !b_insert by lia. repeat case_decide; try lia; try done. by subst.
Qed.

(** [i] bytes are left to move. *)
Lemma wp_move_head len fuel i bs h (Q : unit -> World -> Prop) :
  frame h q bs -> (i + len <= length bs)%nat -> (i <= fuel)%nat ->
  Z.of_nat (length bs) < 9223372036854775808 ->
  (forall m' bs', frame m' q bs' -> length bs' = length bs ->
     (forall j, b bs' j = if decide (len <= j < i + len)%nat then b bs (j - len) else b bs j) ->
     Q tt (set_heap m' w)) ->
  wp (move_head fuel (Z.of_nat i - 1) (Z.of_nat len)) Q (set_heap h w).
Proof.
  revert i bs h; induction fuel as [|fuel IH]; intros i bs h F Hi Hf Hb HQ; simpl.
  - assert (i = 0)%nat by lia. subst i. simpl. eapply HQ; [done|done|].
    intros j. by rewrite decide_False by lia.
  - destruct (Z.ltb_spec (Z.of_nat i - 1) 0) as [Hlt|Hge].
    + eapply HQ; [done|done|]. intros j. by rewrite decide_False by lia.
    + apply wp_bind.
      replace (u64 (Z.of_nat i - 1 + Z.of_nat len)) with (Z.of_nat (i - 1 + len)%nat)
        by (rewrite u64_small; lia).
      replace (u64 (Z.of_nat i - 1)) with (Z.of_nat (i - 1)%nat) by (rewrite u64_small; lia).
      apply (wp_move_byte h bs); [done|lia|lia|]. intros m' F'.
      replace (i64 (Z.of_nat i - 1 - 1)) with (Z.of_nat (i - 1)%nat - 1) by (rewrite i64_small; lia).
      apply (IH (i - 1)%nat (<[(i - 1 + len)%nat := b bs (i - 1)]> bs) m');
        rewrite ?length_insert; try done; try lia.
      intros m2 bs2 F2 L2' R2. eapply HQ; [done|lia|]. intros j. rewrite R2.
      rewrite !b_insert by lia. repeat case_decide; try lia; try done.
      f_equal. lia.
Qed.
End Loops.

(** ** The functions *)

(** A packet of one segment at [q]: descriptor and pointers agree. *)
Record editing (w : World) (q : Z) (mb : Mbuf) : Prop := {
  ed_mb : mbufs w !! CMbuf (pkt w) = Some mb;
  ed_wf : wf_mbuf mb;
  ed_q : Mbuf_L2 mb = q;
  ed_l2 : L2 (pkt w) = q
}.

Definition with_mbuf (mb : Mbuf) (w : World) : World :=
  set_mbufs (<[CMbuf (pkt w) := mb]> (mbufs w)) w.

Lemma b_app l k i : b (l ++ k) i = if decide (i < length l)%nat then b l i else b k (i - length l).
Proof.
  unfold b. rewrite !list_lookup_total_alt. case_decide.
  - by rewrite lookup_app_l.
  - by rewrite lookup_app_r by lia.
Qed.

Lemma b_drop l n i : b (drop n l) i = b l (n + i).
Proof. unfold b. rewrite !list_lookup_total_alt. by rewrite lookup_drop. Qed.

Lemma b_take l n i : (i < n)%nat -> b (take n l) i = b l i.
Proof. intros. unfold b. rewrite !list_lookup_total_alt. by rewrite lookup_take_lt. Qed.

Lemma list_eq_b (l k : list Z) :
  length l = length k -> (forall i, (i < length l)%nat -> b l i = b k i) -> l = k.
Proof.
  intros H E. rewrite <- (firstn_all l). by apply take_ext.
Qed.

Section Functions.
Variables (w : World) (q : Z) (mb : Mbuf) (start len dlen : nat).
Hypothesis Ed : editing w q mb.
Hypothesis Hd : data_len mb = Z.of_nat dlen.

Lemma pkt_len_small : pkt_len mb = Z.of_nat dlen /\ Z.of_nat dlen < 65536 /\ 0 < q.
Proof.
  destruct Ed as [_ W Q _]. pose proof (Mbuf_L2_wf mb W). destruct W. lia.
Qed.

Lemma step_mbuf (f : Mbuf -> bool * Mbuf) mb' (k : bool -> M World bool) :
  f mb = (true, mb') ->
  bind (on_mbuf (CMbuf (pkt w)) f) k w = k true (with_mbuf mb' w).
Proof. intros E. rewrite (bind_on_mbuf _ _ _ _ mb) by apply Ed. by rewrite E. Qed.

(** The new descriptor of each operation. *)
Definition resized (off plus : Z) : Mbuf :=
  set_data (data_off mb + off) (Z.of_nat dlen + plus) (Z.of_nat dlen + plus) mb.

Lemma EncapsulateTail_run bs :
  frame (heap w) q bs -> length bs = (dlen + len)%nat -> (start <= dlen)%nat -> (0 < dlen)%nat ->
  Z.of_nat len <= TailRoomSize mb ->
  exists m', EncapsulateTail (Z.of_nat start) (Z.of_nat len) w =
    Some (true, set_heap m' (with_mbuf (resized 0 (Z.of_nat len)) w)) /\
    frame m' q (take (start + len) bs ++ take (dlen - start) (drop start bs)).
Proof.
  intros F L Hs Hp Ht. destruct pkt_len_small as (Hpl & H16 & Hq0). pose proof (ed_wf _ _ _ Ed) as W.
  pose proof (TailRoomSize_wf mb W) as Tr. pose proof W as [].
  assert (A : AppendMbuf mb (Z.of_nat len) = (true, resized 0 (Z.of_nat len))).
  { rewrite AppendMbuf_ok by (done || lia). unfold resized. by rewrite Hd, Z.add_0_r. }
  unfold EncapsulateTail. rewrite bind_getP, (step_mbuf _ _ _ A). cbn [negb]. cbv iota.
  unfold GetPacketLen. rewrite bind_assoc, bind_getP.
  rewrite (bind_of_mbuf _ _ _ _ (resized 0 (Z.of_nat len))) by (apply lookup_insert_eq).
  change (GetPktLenMbuf (resized 0 (Z.of_nat len))) with (Z.of_nat dlen + Z.of_nat len).
  replace (Z.of_nat dlen + Z.of_nat len) with (Z.of_nat (dlen + len)%nat) by lia.
  assert (Ei : i64 (u64 (Z.of_nat start + Z.of_nat len)) = Z.of_nat (start + len)%nat).
  { rewrite u64_small, i64_small by lia. lia. }
  rewrite Ei.
  set (w1 := with_mbuf _ w).
  assert (Wp : wp (move_up (Z.to_nat (Z.of_nat (dlen + len))) (u64 (Z.of_nat (dlen + len) - 1))
    (Z.of_nat (start + len)) (Z.of_nat len)) (fun _ w' => exists m', w' = set_heap m' w1 /\
      frame m' q (take (start + len) bs ++ take (dlen - start) (drop start bs))) (set_heap (heap w) w1)).
  { apply (wp_move_up w1 q (ed_l2 _ _ _ Ed) len (start + len) _ (dlen + len) bs); try done; try lia.
    intros m' bs' F' L' R. exists m'. split; [done|].
    replace (take (start + len) bs ++ take (dlen - start) (drop start bs)) with bs'; [done|].
    apply list_eq_b; [rewrite length_app, !length_take, length_drop; lia|].
    intros i Hi. rewrite R, b_app, length_take. repeat case_decide; try lia.
    - rewrite b_take, b_drop by lia. f_equal. lia.
    - by rewrite b_take by lia. }
  assert (Ew : set_heap (heap w) w1 = w1) by done.
  rewrite Ew in Wp. apply wp_run in Wp as ([] & w' & E & m' & -> & F'). exists m'. split; [|done].
  by run E.
Qed.
Lemma DecapsulateTail_run bs :
  frame (heap w) q bs -> length bs = (dlen + len)%nat -> (start + len <= dlen)%nat ->
  exists m' bs', DecapsulateTail (Z.of_nat start) (Z.of_nat len) w =
    Some (true, set_heap m' (with_mbuf (resized 0 (- Z.of_nat len)) w)) /\
    frame m' q bs' /\ take (dlen - len) bs' = take start bs ++ take (dlen - len - start) (drop (start + len) bs).
Proof.
  intros F L Hs. destruct pkt_len_small as (Hpl & H16 & Hq0). pose proof (ed_wf _ _ _ Ed) as W.
  pose proof W as [].
  assert (A : TrimMbuf mb (Z.of_nat len) = (true, resized 0 (- Z.of_nat len))).
  { rewrite TrimMbuf_ok by (done || lia). unfold resized. by rewrite Hd, Z.add_0_r. }
  unfold DecapsulateTail, GetPacketLen. rewrite bind_assoc, bind_getP.
  rewrite (bind_of_mbuf _ _ _ _ mb) by apply Ed. unfold GetPktLenMbuf. rewrite Hpl, bind_getP.
  rewrite (step_mbuf _ _ _ A). cbn [negb]. cbv iota. set (w1 := with_mbuf _ w).
  assert (Wp : wp (move_down (Z.to_nat (Z.of_nat dlen)) (Z.of_nat start) (Z.of_nat dlen) (Z.of_nat len))
    (fun _ w' => exists m' bs', w' = set_heap m' w1 /\ frame m' q bs' /\
       take (dlen - len) bs' = take start bs ++ take (dlen - len - start) (drop (start + len) bs))
    (set_heap (heap w) w1)).
  { apply (wp_move_down w1 q (ed_l2 _ _ _ Ed) len dlen _ start bs); try done; try lia.
    intros m' bs' F' L' R. exists m', bs'. split; [done|]. split; [done|].
    apply take_ext; [lia|rewrite length_app, !length_take, length_drop; lia|].
    intros i Hi. rewrite R, b_app, length_take. repeat case_decide; try lia.
    - rewrite b_take, b_drop by lia. f_equal. lia.
    - by rewrite b_take by lia. }
  change (set_heap (heap w) w1) with w1 in Wp.
  apply wp_run in Wp as ([] & w' & E & m' & bs' & -> & F' & T'). exists m', bs'.
  split_and!; [by run E|done|done].
Qed.

Lemma DecapsulateHead_run bs :
  frame (heap w) q bs -> length bs = dlen -> (start + len <= dlen)%nat ->
  exists m', DecapsulateHead (Z.of_nat start) (Z.of_nat len) w =
    Some (true, set_pkt (set_Ether (u64 (Ether (pkt w) + Z.of_nat len)) (pkt w))
                  (set_heap m' (with_mbuf (resized (Z.of_nat len) (- Z.of_nat len)) w))) /\
    frame m' (q + Z.of_nat len) (take start bs ++ drop (start + len) bs).
Proof.
  intros F L Hs. destruct pkt_len_small as (Hpl & H16 & Hq0). pose proof (ed_wf _ _ _ Ed) as W.
  pose proof W as [].
  assert (A : AdjMbuf mb (Z.of_nat len) = (true, resized (Z.of_nat len) (- Z.of_nat len))).
  { rewrite AdjMbuf_ok by (done || lia). unfold resized. by rewrite Hd. }
  unfold DecapsulateHead. rewrite bind_getP, (step_mbuf _ _ _ A). cbn [negb]. cbv iota.
  set (w1 := with_mbuf _ w).
  assert (Ei : i64 (u64 (Z.of_nat start - 1)) = Z.of_nat start - 1 /\ i64 (Z.of_nat len) = Z.of_nat len)
    by zlia.
  destruct Ei as [-> ->].
  assert (Wp : wp (move_head (Z.to_nat (Z.of_nat start)) (Z.of_nat start - 1) (Z.of_nat len))
    (fun _ w' => exists m', w' = set_heap m' w1 /\
       frame m' (q + Z.of_nat len) (take start bs ++ drop (start + len) bs)) (set_heap (heap w) w1)).
  { apply (wp_move_head w1 q (ed_l2 _ _ _ Ed) len _ start bs); try done; try lia.
    intros m' bs' F' L' R. exists m'. split; [done|].
    replace (take start bs ++ drop (start + len) bs) with (drop len bs'); [apply frame_drop; [done|lia]|].
    apply list_eq_b; [rewrite length_app, length_take, !length_drop; lia|].
    intros i Hi. rewrite length_drop in Hi. rewrite b_drop, R, b_app, length_take.
    repeat case_decide; try lia.
    - rewrite b_take by lia. f_equal. lia.
    - rewrite b_drop. f_equal. lia. }
  change (set_heap (heap w) w1) with w1 in Wp.
  apply wp_run in Wp as ([] & w' & E & m' & -> & F'). exists m'.
  split; [by run E|done].
Qed.

Lemma EncapsulateHead_run hs bs :
  frame (heap w) (q - Z.of_nat len) (hs ++ bs) -> length hs = len -> length bs = dlen ->
  (start + len <= dlen)%nat -> 0 <= packetStructSize w <= data_off mb ->
  Z.of_nat len <= data_off mb - packetStructSize w ->
  exists m', EncapsulateHead (Z.of_nat start) (Z.of_nat len) w =
    Some (true, set_heap m' (set_pkt (set_Ether (u64 (Ether (pkt w) - Z.of_nat len)) (pkt w))
                  (with_mbuf (resized (- Z.of_nat len) (Z.of_nat len)) w))) /\
    frame m' (q - Z.of_nat len) (hs ++ take start (drop len bs) ++ drop start bs).
Proof.
  intros F Lh L Hs Hp Hr. destruct pkt_len_small as (Hpl & H16 & Hq0). pose proof (ed_wf _ _ _ Ed) as W.
  pose proof W as [].
  assert (A : PrependMbuf (packetStructSize w) mb (Z.of_nat len) =
    (true, resized (- Z.of_nat len) (Z.of_nat len))).
  { rewrite PrependMbuf_ok by (done || lia). unfold resized. by rewrite Hd. }
  unfold EncapsulateHead. rewrite bind_getP. unfold gets at 1. unfold bind at 1. cbv beta iota.
  rewrite (step_mbuf _ _ _ A). cbn [negb]. cbv iota. rewrite bind_putP.
  set (w1 := set_pkt _ (with_mbuf _ w)).
  assert (Wp : wp (move_down (Z.to_nat (Z.of_nat start)) (Z.of_nat 0) (Z.of_nat start) (Z.of_nat len))
    (fun _ w' => exists m', w' = set_heap m' w1 /\
       frame m' (q - Z.of_nat len) (hs ++ take start (drop len bs) ++ drop start bs))
    (set_heap (heap w) w1)).
  { apply (wp_move_down_at w1 q (ed_l2 _ _ _ Ed) (q - Z.of_nat len) len len start _ 0 (hs ++ bs));
      rewrite ?length_app; try done; try lia.
    intros m' bs' F' L' R. exists m'. split; [done|].
    replace (hs ++ take start (drop len bs) ++ drop start bs) with bs'; [done|].
    apply list_eq_b; [rewrite !length_app, length_take, !length_drop in *; lia|].
    intros i Hi. rewrite R, !b_app, length_take, length_drop. repeat case_decide; try lia.
    - rewrite b_take, b_drop by lia. f_equal. lia.
    - rewrite b_drop. f_equal. lia. }
  change (set_heap (heap w) w1) with w1 in Wp.
  apply wp_run in Wp as ([] & w' & E & m' & -> & F'). exists m'.
  split; [by run E|done].
Qed.
Lemma change_bytes_run i v h bs :
  frame h q bs -> Forall byte_ok v -> (start + i + length v <= length bs)%nat ->
  exists m', change_bytes (Z.of_nat i) (Z.of_nat start) v (set_heap h w) = Some (tt, set_heap m' w) /\
    frame m' q (splice (start + i) v bs).
Proof.
  revert i h bs; induction v as [|x v IH]; intros i h bs F Fv H; simpl in *.
  - exists h. split; [done|]. unfold splice. simpl. by rewrite Nat.add_0_r, take_drop.
  - apply Forall_cons in Fv as [Bx Fv]. pose proof F as [L P T Ok].
    unfold StartAtOffset. rewrite bind_getP. cbn [pkt set_heap]. rewrite (ed_l2 _ _ _ Ed).
    assert (Ep : ptr_add q (u64 (Z.of_nat start + Z.of_nat i)) = q + Z.of_nat (start + i)).
    { unfold ptr_add. rewrite (u64_small (Z.of_nat start + Z.of_nat i)), u64_small by lia. lia. }
    rewrite Ep. unfold poke, bind, store_le. cbn [heap set_heap].
    assert (Eb : le_bytes 1 x = [x]) by (unfold byte_ok in Bx; simpl; by rewrite Z.mod_small).
    rewrite Eb, store_bytes_mapped by (eapply mapped_sub; [apply frame_mapped, F|lia|simpl; lia]).
    cbv beta iota. replace (Z.of_nat i + 1) with (Z.of_nat (S i)) by lia.
    destruct (IH (S i) (write h (q + Z.of_nat (start + i)) [x]) (splice (start + i) [x] bs))
      as (m' & E & F').
    + apply frame_write; [done|simpl; lia|by apply Forall_singleton].
    + done.
    + rewrite length_splice by (simpl; lia). lia.
    + exists m'. split; [exact E|].
      replace (splice (start + i) (x :: v) bs)
        with (splice (start + S i) v (splice (start + i) [x] bs)); [done|].
      apply list_eq_b; [rewrite !length_splice by (rewrite ?length_splice; simpl; lia); done|].
      intros j Hj. rewrite !splice_at by (rewrite ?length_splice by (simpl; lia); simpl; lia).
      simpl length. repeat case_decide; try lia; try done.
      * replace (j - (start + i))%nat with (S (j - (start + S i))) by lia. done.
      * by replace (j - (start + i))%nat with 0%nat by lia.
Qed.
End Functions.

(** ** Properties *)

(** [DecapsulateHead] and [DecapsulateTail] cut [len] bytes out of the packet
    at [start] and keep every other byte in order; the descriptor ends up
    describing exactly the shorter packet. [DecapsulateTail] reads [len] bytes
    past the end of the packet, which must be mapped. *)
Theorem Decapsulate_spec w q mb start len dlen bs :
  editing w q mb -> data_len mb = Z.of_nat dlen -> (start + len <= dlen)%nat ->
  frame (heap w) q bs -> length bs = (dlen + len)%nat ->
  let cut := take start bs ++ take (dlen - len - start) (drop (start + len) bs) in
  (exists w' s, DecapsulateHead (Z.of_nat start) (Z.of_nat len) w = Some (true, w') /\
     GetRawPacketBytes w' = Some (s, w') /\ slice_bytes (heap w') s = Some cut) /\
  (exists w' s, DecapsulateTail (Z.of_nat start) (Z.of_nat len) w = Some (true, w') /\
     GetRawPacketBytes w' = Some (s, w') /\ slice_bytes (heap w') s = Some cut).
Proof.
  intros Ed Hd Hs F L cut. destruct (pkt_len_small w q mb dlen Ed Hd) as (Hpl & H16 & Hq).
  pose proof (ed_wf _ _ _ Ed) as W. pose proof (Mbuf_L2_wf mb W) as EL. pose proof (ed_q _ _ _ Ed) as Eq.
  pose proof W as [].
  assert (G : forall w' off plus h p, mbufs w' = mbufs (with_mbuf (resized mb dlen off plus) w) ->
    CMbuf (pkt w') = CMbuf (pkt w) -> heap w' = h -> frame h (q + off) p -> 0 <= plus + Z.of_nat dlen ->
    0 <= data_off mb + off -> (Z.to_nat (Z.of_nat dlen + plus) <= length p)%nat ->
    exists s, GetRawPacketBytes w' = Some (s, w') /\
      slice_bytes (heap w') s = Some (take (Z.to_nat (Z.of_nat dlen + plus)) p)).
  { intros w' off plus h p Em Ec <- Fp Hp Ho Hlp. pose proof Fp as [_ Pp Tp _].
    exists (mkSlice (q + off) (Z.of_nat dlen + plus)). split.
    - unfold GetRawPacketBytes. rewrite bind_getP, Ec. unfold of_mbuf. rewrite Em. simpl.
      rewrite lookup_insert_eq. unfold GetRawPacketBytesMbuf, resized. simpl. do 3 f_equal.
      unfold ptr_add. rewrite u64_small; lia.
    - unfold slice_bytes. simpl.
      pose proof (frame_bytes _ _ _ 0 (Z.to_nat (Z.of_nat dlen + plus)) Fp ltac:(lia)) as B.
      rewrite Z.add_0_r in B. by rewrite B, drop_0. }
  split.
  - assert (Fb : frame (heap w) q (take dlen bs)).
    { split; [|apply F|rewrite length_take; pose proof (frame_top _ _ _ F); lia
             |apply Forall_take, F].
      pose proof (frame_bytes _ _ _ 0 dlen F ltac:(lia)) as B. rewrite Z.add_0_r, drop_0 in B.
      rewrite length_take. by replace (dlen `min` length bs)%nat with dlen by lia. }
    destruct (DecapsulateHead_run w q mb start len dlen Ed Hd (take dlen bs) Fb
      ltac:(rewrite length_take; lia) Hs) as (m' & E & F').
    destruct (G (set_pkt (set_Ether (u64 (Ether (pkt w) + Z.of_nat len)) (pkt w))
      (set_heap m' (with_mbuf (resized mb dlen (Z.of_nat len) (- Z.of_nat len)) w))) (Z.of_nat len)
      (- Z.of_nat len) m' _ eq_refl eq_refl eq_refl F') as (s & Es & Eb); try lia.
    { rewrite length_app, length_take, length_drop, length_take. lia. }
    eexists _, s. split; [exact E|]. split; [exact Es|]. rewrite Eb. f_equal.
    rewrite take_ge by (rewrite length_app, length_take, length_drop, length_take; lia).
    unfold cut. rewrite take_take, skipn_firstn_comm. f_equal; f_equal; lia.
  - destruct (DecapsulateTail_run w q mb start len dlen Ed Hd bs F L Hs) as (m' & bs' & E & F' & T').
    pose proof (f_equal length T') as Lt.
    rewrite length_app, !length_take, length_drop in Lt.
    destruct (G (set_heap m' (with_mbuf (resized mb dlen 0 (- Z.of_nat len)) w)) 0
      (- Z.of_nat len) m' bs' eq_refl eq_refl eq_refl) as (s & Es & Eb); try lia.
    { by rewrite Z.add_0_r. }
    eexists _, s. split; [exact E|]. split; [exact Es|]. rewrite Eb. f_equal.
    replace (Z.to_nat (Z.of_nat dlen + - Z.of_nat len)) with (dlen - len)%nat by lia. exact T'.
Qed.

Definition sample_edit : World :=
  mkWorld (write ∅ 4224 [1; 2; 3; 4; 5; 6; 7; 8]) {[ 8 := mkMbuf 4096 128 6 6 2048 0 0 64 0 ]}
    (set_L2 4224 (zero_packet 8)) false 120.

Lemma sample_editing : editing sample_edit 4224 (mkMbuf 4096 128 6 6 2048 0 0 64 0).
Proof. split; try reflexivity. split; simpl; lia. Qed.

Lemma sample_edit_frame : frame (heap sample_edit) 4224 [1; 2; 3; 4; 5; 6; 7; 8].
Proof. split; [by apply load_write_same|lia|simpl; lia|apply (bool_decide_unpack _); exact I]. Qed.

Lemma Decapsulate_spec_witness :
  exists w' s, DecapsulateHead 1 2 sample_edit = Some (true, w') /\
    slice_bytes (heap w') s = Some [1; 4; 5; 6].
Proof.
  destruct (Decapsulate_spec sample_edit 4224 _ 1 2 6 _ sample_editing eq_refl ltac:(lia)
    sample_edit_frame eq_refl) as [(w' & s & E & _ & S) _].
  exists w', s. split; [exact E|exact S].
Defined.

(** [DecapsulateTail] copies from [length] bytes beyond the packet: when
    nothing is mapped behind the packet, removing any bytes faults. *)
Theorem DecapsulateTail_overread w q mb start len bs :
  editing w q mb -> data_len mb = Z.of_nat (length bs) -> frame (heap w) q bs ->
  heap w !! (q + Z.of_nat (length bs)) = None -> (0 < len)%nat -> (start + len <= length bs)%nat ->
  DecapsulateTail (Z.of_nat start) (Z.of_nat len) w = None.
Proof.
  intros Ed Hd F N Hl Hs. destruct (pkt_len_small w q mb _ Ed Hd) as (Hpl & H16 & Hq0).
  pose proof (ed_wf _ _ _ Ed) as W.
  unfold DecapsulateTail, GetPacketLen. rewrite bind_assoc, bind_getP.
  rewrite (bind_of_mbuf _ _ _ _ mb) by apply Ed. unfold GetPktLenMbuf. rewrite Hpl, bind_getP.
  rewrite (bind_on_mbuf _ _ _ _ mb) by apply Ed. rewrite TrimMbuf_ok by (done || lia).
  cbn [fst snd negb]. cbv iota. apply bind_none.
  apply (move_down_fault (set_mbufs _ w) q (ed_l2 _ _ _ Ed) len (length bs) _ start bs); try done.
  pose proof (frame_top _ _ _ F). lia.
Qed.

Lemma DecapsulateTail_overread_witness :
  DecapsulateTail 1 2 (set_heap (write ∅ 4224 [1; 2; 3; 4; 5; 6]) sample_edit) = None.
Proof.
  apply (DecapsulateTail_overread _ 4224 (mkMbuf 4096 128 6 6 2048 0 0 64 0) 1 2 [1; 2; 3; 4; 5; 6]);
    [split; try reflexivity; split; simpl; lia|reflexivity| |reflexivity|lia|simpl; lia].
  split; [by apply load_write_same|lia|simpl; lia|apply (bool_decide_unpack _); exact I].
Defined.

(** [EncapsulateTail] opens a gap of [len] bytes at [start]: what was behind
    [start] moves up unchanged, and the gap holds what was there before. *)
Theorem EncapsulateTail_spec w q mb start len dlen bs :
  editing w q mb -> data_len mb = Z.of_nat dlen -> (start <= dlen)%nat -> (0 < dlen)%nat ->
  Z.of_nat len < 65536 -> frame (heap w) q bs -> length bs = (dlen + len)%nat ->
  if Z.of_nat len <=? TailRoomSize mb then
    exists w', EncapsulateTail (Z.of_nat start) (Z.of_nat len) w = Some (true, w') /\
      frame (heap w') q (take (start + len) bs ++ take (dlen - start) (drop start bs)) /\
      GetPacketLen w' = Some (Z.of_nat (dlen + len), w')
  else EncapsulateTail (Z.of_nat start) (Z.of_nat len) w = Some (false, w).
Proof.
  intros Ed Hd Hs Hp Hl F L. destruct (Z.leb_spec (Z.of_nat len) (TailRoomSize mb)).
  - destruct (EncapsulateTail_run w q mb start len dlen Ed Hd bs F L Hs Hp) as (m' & E & F'); [done|].
    eexists. split; [exact E|]. split; [exact F'|].
    unfold GetPacketLen. rewrite bind_getP. unfold of_mbuf. simpl. rewrite lookup_insert_eq.
    unfold GetPktLenMbuf, resized. simpl. do 2 f_equal. lia.
  - unfold EncapsulateTail. rewrite bind_getP, (bind_on_mbuf _ _ _ _ mb) by apply Ed.
    rewrite AppendMbuf_fail by (first [apply Ed|lia]). simpl. unfold ret. do 2 f_equal.
    rewrite insert_id by apply Ed. by destruct w.
Qed.

Lemma EncapsulateTail_spec_witness :
  exists w', EncapsulateTail 2 2 sample_edit = Some (true, w') /\
    frame (heap w') 4224 [1; 2; 3; 4; 3; 4; 5; 6].
Proof.
  pose proof (EncapsulateTail_spec sample_edit 4224 _ 2 2 6 _ sample_editing eq_refl ltac:(lia)
    ltac:(lia) ltac:(lia) sample_edit_frame eq_refl) as P.
  replace (_ <=? _) with true in P by reflexivity.
  destruct P as (w' & E & F & _). exists w'. split; [exact E|exact F].
Defined.

(** [EncapsulateHead] does not open a gap: it moves bytes relative to [L2],
    which still points to the old start of the packet, so the first bytes of
    the new packet are whatever the headroom [hs] held, and the first [start]
    bytes of the packet are overwritten with the ones [len] further on. *)
Theorem EncapsulateHead_stale w q mb start len hs bs :
  editing w q mb -> data_len mb = Z.of_nat (length bs) -> (start + len <= length bs)%nat ->
  length hs = len -> frame (heap w) (q - Z.of_nat len) (hs ++ bs) ->
  0 <= packetStructSize w <= data_off mb -> Z.of_nat len <= data_off mb - packetStructSize w ->
  exists w' s, EncapsulateHead (Z.of_nat start) (Z.of_nat len) w = Some (true, w') /\
    GetRawPacketBytes w' = Some (s, w') /\ L2 (pkt w') = q /\
    slice_bytes (heap w') s = Some (hs ++ take start (drop len bs) ++ drop start bs).
Proof.
  intros Ed Hd Hs Lh F Hp Hr. pose proof (ed_wf _ _ _ Ed) as W. pose proof (Mbuf_L2_wf mb W) as EL.
  pose proof (ed_q _ _ _ Ed) as Eq. pose proof W as [].
  destruct (EncapsulateHead_run w q mb start len (length bs) Ed Hd hs bs F Lh eq_refl Hs Hp Hr)
    as (m' & E & F').
  eexists _, (mkSlice (q - Z.of_nat len) (Z.of_nat (len + length bs))). split; [exact E|].
  split; [|split; [exact (ed_l2 _ _ _ Ed)|]].
  - unfold GetRawPacketBytes. rewrite bind_getP. unfold of_mbuf. simpl. rewrite lookup_insert_eq.
    unfold GetRawPacketBytesMbuf, resized. simpl. do 3 f_equal; [|lia].
    unfold ptr_add. rewrite u64_small; lia.
  - unfold slice_bytes. simpl. rewrite Nat2Z.id. destruct F' as [L' _ _ _].
    rewrite !length_app, length_take, !length_drop, Lh in L'.
    by replace (len + (start `min` (length bs - len) + (length bs - start)))%nat
      with (len + length bs)%nat in L' by lia.
Qed.

Lemma EncapsulateHead_stale_witness :
  let w := set_heap (write ∅ 4222 [90; 91; 1; 2; 3; 4; 5; 6]) sample_edit in
  exists w' s, EncapsulateHead 3 2 w = Some (true, w') /\
    slice_bytes (heap w') s = Some [90; 91; 3; 4; 5; 4; 5; 6].
Proof.
  intros w.
  destruct (EncapsulateHead_stale w 4224 (mkMbuf 4096 128 6 6 2048 0 0 64 0) 3 2 [90; 91]
    [1; 2; 3; 4; 5; 6]) as (w' & s & E & _ & _ & B).
  - split; try reflexivity. split; simpl; lia.
  - reflexivity.
  - simpl. lia.
  - reflexivity.
  - split; [by apply load_write_same|lia|simpl; lia|apply (bool_decide_unpack _); exact I].
  - simpl. lia.
  - simpl. lia.
  - exists w', s. split; [exact E|exact B].
Defined.

(** [PacketBytesChange] overwrites exactly the bytes [start, start+length) of
    the packet, or refuses, changing nothing, when they reach past its end. *)
Theorem PacketBytesChange_spec w q mb start v bs :
  editing w q mb -> data_len mb = Z.of_nat (length bs) -> frame (heap w) q bs ->
  Forall byte_ok v -> Z.of_nat start + Z.of_nat (length v) < 18446744073709551616 ->
  if (start + length v <=? length bs)%nat then
    exists m', PacketBytesChange (Z.of_nat start) v w = Some (true, set_heap m' w) /\
      frame m' q (splice start v bs)
  else PacketBytesChange (Z.of_nat start) v w = Some (false, w).
Proof.
  intros Ed Hd F Fv T. destruct (pkt_len_small w q mb _ Ed Hd) as (Hpl & _ & _).
  unfold PacketBytesChange, GetPacketLen. rewrite bind_assoc, bind_getP.
  rewrite (bind_of_mbuf _ _ _ _ mb) by apply Ed. unfold GetPktLenMbuf. rewrite Hpl, u64_small by lia.
  destruct (Nat.leb_spec (start + length v) (length bs)) as [H|H].
  - destruct (Z.ltb_spec (Z.of_nat (length bs)) (Z.of_nat start + Z.of_nat (length v))); [lia|].
    destruct (change_bytes_run w q mb start (length bs) Ed 0 v (heap w) bs F Fv ltac:(lia)) as (m' & E & F').
    rewrite Nat.add_0_r in F'. replace (set_heap (heap w) w) with w in E by (by destruct w).
    exists m'. split; [|done]. by rewrite (bind_some _ _ _ _ _ E).
  - destruct (Z.ltb_spec (Z.of_nat (length bs)) (Z.of_nat start + Z.of_nat (length v))); [done|lia].
Qed.

Lemma PacketBytesChange_spec_witness :
  exists m', PacketBytesChange 1 [70; 71] (set_heap (write ∅ 4224 [1; 2; 3; 4; 5; 6]) sample_edit) =
    Some (true, set_heap m' (set_heap (write ∅ 4224 [1; 2; 3; 4; 5; 6]) sample_edit)) /\
    frame m' 4224 [1; 70; 71; 4; 5; 6].
Proof.
  assert (F : frame (write ∅ 4224 [1; 2; 3; 4; 5; 6]) 4224 [1; 2; 3; 4; 5; 6]).
  { split; [by apply load_write_same|lia|simpl; lia|apply (bool_decide_unpack _); exact I]. }
  apply (PacketBytesChange_spec (set_heap (write ∅ 4224 [1; 2; 3; 4; 5; 6]) sample_edit) 4224
    (mkMbuf 4096 128 6 6 2048 0 0 64 0) 1 [70; 71] [1; 2; 3; 4; 5; 6]);
    [split; try reflexivity; split; simpl; lia|reflexivity|exact F
    |apply (bool_decide_unpack _); exact I|simpl; lia].
Defined.
