(* ===== verification/FlatMem.v ===== *)
(** * Package mem: block operations and flat rows

    [src/mem/mem.go] and [src/mem/flat.go]. The block operations work on
    unchecked pointers, eight bytes at a time and then byte by byte; a fault is
    [None]. A [Container] stores the fields of a struct one after the other in a
    byte row, through the tables of sizes and functions that [Parse] makes. *)

From Stdlib Require Import ZArith Lia String.
From stdpp Require Import base list numbers option gmap.
From S2P Require Import Prelude Memory Text.

Open Scope Z_scope.

(** ** Block operations *)

(** [*dest = *src] for values of [n] bytes. *)
Definition copy_n (m : mem) (dest src : Z) (n : nat) : option mem :=
  match load_bytes m src n with
  | None => None
  | Some bs => store_bytes m dest bs
  end.

(** [n] copies of [c] bytes, the [i]-th at offset [off i] from both pointers,
    [i] counting from [i0]. *)
Fixpoint copies (m : mem) (dest src : Z) (c : nat) (off : Z -> Z) (i0 : Z) (n : nat) : option mem :=
  match n with
  | O => Some m
  | S k =>
      match copy_n m (ptr_add dest (off i0)) (ptr_add src (off i0)) c with
      | None => None
      | Some m' => copies m' dest src c off (i0 + 1) k
      end
  end.

(* go: mem/mem.go Memcpy *)
Definition Memcpy (m : mem) (dest src len : Z) : option (Z * mem) :=
  let cnt := Z.shiftr len 3 in
  match copies m dest src 8 (fun i => 8 * i) 0 (Z.to_nat cnt) with
  | None => None
  | Some m =>
      let left := Z.land len 7 in
      match copies m dest src 1 (fun i => 8 * cnt + i) 0 (Z.to_nat left) with
      | None => None
      | Some m => Some (dest, m)
      end
  end.

(* go: mem/mem.go memcpyH *)
Definition memcpyH (m : mem) (dest src len : Z) : option (Z * mem) :=
  let cnt := Z.shiftr len 3 in
  match copies m dest src 8 (fun i => len - 8 * i) 1 (Z.to_nat cnt) with
  | None => None
  | Some m =>
      let left := Z.land len 7 in
      match copies m dest src 1 (fun i => len - 8 * cnt - i) 1 (Z.to_nat left) with
      | None => None
      | Some m => Some (dest, m)
      end
  end.

(* go: mem/mem.go Memmove *)
Definition Memmove (m : mem) (dest src len : Z) : option (Z * mem) :=
  if dest =? src then Some (dest, m)
  else if (src <? dest) && (dest <=? u64 (src + u64 len)) then memcpyH m dest src len
  else Memcpy m dest src len.

(** Compare [n] values of [c] bytes: the first difference decides. *)
Fixpoint compares (m : mem) (dest src : Z) (c : nat) (off : Z -> Z) (i0 : Z) (n : nat) : option Z :=
  match n with
  | O => Some 0
  | S k =>
      match load_le m (ptr_add dest (off i0)) c, load_le m (ptr_add src (off i0)) c with
      | Some d, Some s =>
          if d <? s then Some (-1)
          else if s <? d then Some 1
          else compares m dest src c off (i0 + 1) k
      | _, _ => None
      end
  end.

(* go: mem/mem.go Memcmp *)
Definition Memcmp (m : mem) (dest src len : Z) : option Z :=
  let cnt := Z.shiftr len 3 in
  match compares m dest src 8 (fun i => 8 * i) 0 (Z.to_nat cnt) with
  | Some 0 =>
      let left := Z.land len 7 in
      compares m dest src 1 (fun i => 8 * cnt + i) 0 (Z.to_nat left)
  | r => r
  end.

(** Store the byte [ch] at offsets [i0 .. i0 + n). *)
Fixpoint set_bytes (m : mem) (dest ch i0 : Z) (n : nat) : option mem :=
  match n with
  | O => Some m
  | S k =>
      match store_bytes m (ptr_add dest i0) [u8 ch] with
      | None => None
      | Some m' => set_bytes m' dest ch (i0 + 1) k
      end
  end.

(** Copy the first eight bytes to the words at [left + 8*i]. *)
Fixpoint set_words (m : mem) (dest left i0 : Z) (n : nat) : option mem :=
  match n with
  | O => Some m
  | S k =>
      match copy_n m (ptr_add dest (left + 8 * i0)) dest 8 with
      | None => None
      | Some m' => set_words m' dest left (i0 + 1) k
      end
  end.

(* go: mem/mem.go Memset *)
Definition Memset (m : mem) (dest ch len : Z) : option (Z * mem) :=
  let cnt := Z.shiftr len 3 in
  let left := if 0 <? cnt then Z.land len 7 + 8 else Z.land len 7 in
  match set_bytes m dest ch 0 (Z.to_nat left) with
  | None => None
  | Some m =>
      if cnt <? 2 then Some (dest, m)
      else
        match set_words m dest left 0 (Z.to_nat (cnt - 1)) with
        | None => None
        | Some m => Some (dest, m)
        end
  end.

(** ** Rows *)

(** A struct field by kind: a string, an [int64] or [float64] as its bytes, or a
    kind [Parse] does not know. *)
Inductive value := VString (s : list Z) | VInt (bytes : list Z) | VFloat (bytes : list Z) | VOther.

(** A struct as it lies in memory: the offset of each field from its start, which
    the compiler chooses and [reflect] tells, and the value there. *)
Definition object : Type := list (Z * value).

(** [Ptr(uintptr(obj) + offset)], read and written through. *)
Fixpoint field_at (offset : Z) (obj : object) : option value :=
  match obj with
  | [] => None
  | (o, v) :: r => if o =? offset then Some v else field_at offset r
  end.
Fixpoint set_at (offset : Z) (v : value) (obj : object) : object :=
  match obj with
  | [] => []
  | (o, u) :: r => if o =? offset then (o, v) :: r else (o, u) :: set_at offset v r
  end.

(** The functions the two tables hold. *)
Inductive save_fn := memSave | strSave.
Inductive dump_fn := memDump | strDump.

(* go: mem/flat.go 20-20 STRING *)
Definition STRING : Z := 0.
(* go: mem/flat.go 21-21 INT *)
Definition INT : Z := 1.
(* go: mem/flat.go 22-22 FLOAT *)
Definition FLOAT : Z := 2.
(* go: mem/flat.go 23-23 TIME *)
Definition TIME : Z := 3.

(* go: mem/flat.go TypeInfo *)
Record TypeInfo := mkTypeInfo {
  fields : nat;
  Type_ : list Z;
  Pos : list Z;
  Size : list Z;
  Offset : list Z;
  Save_ : list save_fn;
  Dump_ : list dump_fn
}.

(* go: mem/flat.go Container *)
Record Container := mkContainer { ti : TypeInfo; Rows : list (list Z) }.

(** What the switch of [Parse] sets for one field, the defaults before it
    included; a [float64] gets the type of an integer. *)
(* go: mem/flat.go 107-118 Parse *)
Definition field_type (v : value) : Z :=
  match v with
  | VString _ => STRING
  | VInt _ => INT
  | VFloat _ => INT
  | VOther => 0
  end.
(* go: mem/flat.go 107-118 Parse *)
Definition field_size (v : value) : Z :=
  match v with
  | VString _ => 2 + 64
  | VInt _ => 8
  | VFloat _ => 8
  | VOther => 0
  end.
(* go: mem/flat.go 105-118 Parse *)
Definition field_save (v : value) : save_fn :=
  match v with VString _ => strSave | _ => memSave end.
(* go: mem/flat.go 105-118 Parse *)
Definition field_dump (v : value) : dump_fn :=
  match v with VString _ => strDump | _ => memDump end.

(** The running position of each field. *)
(* go: mem/flat.go 125-127 Parse *)
Fixpoint positions (length : Z) (sizes : list Z) : list Z :=
  match sizes with
  | [] => []
  | s :: r => length :: positions (length + s) r
  end.

(* go: mem/flat.go Parse *)
Definition Parse (intf : object) : Container :=
  let values := map snd intf in
  let sizes := map field_size values in
  mkContainer
    (mkTypeInfo (length intf) (map field_type values) (positions 0 sizes) sizes (map fst intf)
       (map field_save values) (map field_dump values)) [].

(** Overwriting [row] from [pos] on; bytes past its end are dropped, as [copy]
    does. *)
Definition copy_at (row : list Z) (pos : nat) (bs : list Z) : list Z :=
  let bs := take (length row - pos) bs in
  take pos row ++ bs ++ drop (pos + length bs) row.

(** [Memcpy] of [size] bytes of the field to [&dest[pos]]. [None] is the panic of
    the index expression past the row, a copy that leaves the row or the field,
    and a copy out of the header of a string. *)
(* go: mem/flat.go memSave *)
Definition mem_save (dest : list Z) (v : value) (t : TypeInfo) (n : nat) : option (list Z) :=
  match Pos t !! n, Size t !! n with
  | Some pos, Some size =>
      if (length dest <=? Z.to_nat pos)%nat then None
      else if size =? 0 then Some dest
      else
        match v with
        | VInt bs | VFloat bs =>
            if (Z.to_nat size <=? length bs)%nat && (Z.to_nat (pos + size) <=? length dest)%nat then
              Some (copy_at dest (Z.to_nat pos) (take (Z.to_nat size) bs))
            else None
        | VString _ | VOther => None
        end
  | _, _ => None
  end.

(** The [uint16] length and the string's bytes behind it, as far as the row goes. *)
(* go: mem/flat.go strSave *)
Definition str_save (dest : list Z) (v : value) (t : TypeInfo) (n : nat) : option (list Z) :=
  match Pos t !! n with
  | Some pos =>
      if (length dest <? Z.to_nat (pos + 2))%nat then None
      else
        match v with
        | VString s =>
            let dest := copy_at dest (Z.to_nat pos) (le_bytes 2 (Z.of_nat (length s))) in
            Some (copy_at dest (Z.to_nat (pos + 2)) s)
        | _ => None
        end
  | None => None
  end.

(** The field after [Memcpy] of [size] bytes from [&src[pos]] over it. *)
(* go: mem/flat.go memDump *)
Definition mem_dump (src : list Z) (v : value) (t : TypeInfo) (n : nat) : option value :=
  match Pos t !! n, Size t !! n with
  | Some pos, Some size =>
      if (length src <=? Z.to_nat pos)%nat then None
      else if size =? 0 then Some v
      else
        let over old := take (Z.to_nat size) (drop (Z.to_nat pos) src) ++ drop (Z.to_nat size) old in
        let inside old := (Z.to_nat size <=? length old)%nat && (Z.to_nat (pos + size) <=? length src)%nat in
        match v with
        | VInt old => if inside old then Some (VInt (over old)) else None
        | VFloat old => if inside old then Some (VFloat (over old)) else None
        | VString _ | VOther => None
        end
  | _, _ => None
  end.

(** [string(src[pos+2 : pos+2+size])] panics when it reaches past the row; only a
    string can be stored through the target. *)
(* go: mem/flat.go strDump *)
Definition str_dump (src : list Z) (v : value) (t : TypeInfo) (n : nat) : option value :=
  match Pos t !! n with
  | Some pos =>
      if (length src <? Z.to_nat (pos + 2))%nat then None
      else
        let size := le_val (take 2 (drop (Z.to_nat pos) src)) in
        if (length src <? Z.to_nat (pos + 2 + size))%nat then None
        else
          match v with
          | VString _ => Some (VString (take (Z.to_nat size) (drop (Z.to_nat (pos + 2)) src)))
          | _ => None
          end
  | None => None
  end.

(** Calls through the tables. *)
Definition call_save (f : save_fn) : list Z -> value -> TypeInfo -> nat -> option (list Z) :=
  match f with memSave => mem_save | strSave => str_save end.
Definition call_dump (f : dump_fn) : list Z -> value -> TypeInfo -> nat -> option value :=
  match f with memDump => mem_dump | strDump => str_dump end.

(** The loop of [Save], [k] fields from the [i]-th on. *)
Fixpoint save_fields (t : TypeInfo) (obj : object) (row : list Z) (i k : nat) : option (list Z) :=
  match k with
  | O => Some row
  | S k =>
      match Save_ t !! i, Offset t !! i with
      | Some f, Some offset =>
          match field_at offset obj with
          | None => None
          | Some v =>
              match call_save f row v t i with
              | None => None
              | Some row => save_fields t obj row (S i) k
              end
          end
      | _, _ => None
      end
  end.

(** [make] of the row panics for a struct without fields: index [-1]. *)
(* go: mem/flat.go Container.Save *)
Definition Save (container : Container) (obj : object) : option Container :=
  let t := ti container in
  match fields t with
  | O => None
  | S k =>
      match Pos t !! k, Size t !! k with
      | Some p, Some s =>
          match save_fields t obj (replicate (Z.to_nat (p + s)) 0) 0 (S k) with
          | None => None
          | Some row => Some (mkContainer t (Rows container ++ [row]))
          end
      | _, _ => None
      end
  end.

(** The loop of [Dump]: the struct it fills, with its old values. *)
Fixpoint dump_fields (t : TypeInfo) (row : list Z) (obj : object) (i k : nat) : option object :=
  match k with
  | O => Some obj
  | S k =>
      match Dump_ t !! i, Offset t !! i with
      | Some f, Some offset =>
          match field_at offset obj with
          | None => None
          | Some old =>
              match call_dump f row old t i with
              | None => None
              | Some v => dump_fields t row (set_at offset v obj) (S i) k
              end
          end
      | _, _ => None
      end
  end.

(* go: mem/flat.go Container.Dump *)
Definition Dump (container : Container) (n : nat) (obj : object) : option object :=
  let t := ti container in
  match Rows container !! n with
  | None => match fields t with O => Some obj | S _ => None end
  | Some row => dump_fields t row obj 0 (fields t)
  end.
