(* ===== verification/FlatMemSpec.v ===== *)
(** * What the block operations promise

    [Memmove] copies correctly whatever the overlap, [Memset] fills exactly its
    range, [Memcmp] decides equality, and a row gives back the struct that was
    saved in it. *)

From Stdlib Require Import ZArith Lia String.
From stdpp Require Import base list numbers option gmap.
From S2P Require Import Prelude Memory Text FlatMem.

Open Scope Z_scope.

Lemma write_app m p x y : write m p (x ++ y) = write (write m p x) (p + Z.of_nat (length x)) y.
Proof.
  revert m p; induction x as [|c x IH]; intros m p; simpl.
  - by rewrite Z.add_0_r.
  - rewrite IH. f_equal. lia.
Qed.

Lemma shiftr3 n : Z.shiftr n 3 = n / 8.
Proof. by rewrite Z.shiftr_div_pow2. Qed.

Section Block.
Variables (m : mem) (dest src : Z) (bs : list Z).
Let len : nat := length bs.
Hypothesis Hsrc : load_bytes m src len = Some bs.
Hypothesis Hdest : mapped m dest (Z.of_nat len).
Hypothesis Rs : 0 <= src /\ src + Z.of_nat len < 18446744073709551616.
Hypothesis Rd : 0 <= dest /\ dest + Z.of_nat len < 18446744073709551616.

Lemma ptr_in p o : 0 <= p -> p + Z.of_nat len < 18446744073709551616 -> 0 <= o <= Z.of_nat len ->
  ptr_add p o = p + o.
Proof. intros. unfold ptr_add. apply u64_small. lia. Qed.

Lemma src_slice k c : (k + c <= len)%nat ->
  load_bytes m (src + Z.of_nat k) c = Some (take c (drop k bs)).
Proof.
  intros H. assert (Hl : length (take c (drop k bs)) = c)
    by (rewrite length_take, length_drop; fold len; lia).
  rewrite <- Hl at 1. apply load_bytes_intro. intros j Hj. rewrite Hl in Hj.
  rewrite lookup_take_lt, lookup_drop by lia.
  rewrite (load_bytes_lookup _ _ _ _ (k + j) Hsrc) by lia. f_equal. lia.
Qed.

(** One chunk copied behind the prefix [k]. *)
Lemma copy_forward k c :
  (dest <= src \/ src + Z.of_nat len <= dest) -> (k + c <= len)%nat ->
  copy_n (write m dest (take k bs)) (dest + Z.of_nat k) (src + Z.of_nat k) c =
    Some (write m dest (take (k + c) bs)).
Proof.
  intros Ov H. assert (Lk : length (take k bs) = k) by (rewrite length_take; fold len; lia).
  unfold copy_n. rewrite load_write_disj by (rewrite Lk; lia). rewrite src_slice by done.
  rewrite store_bytes_mapped.
  - f_equal. rewrite <- (take_take_drop bs k c), write_app, Lk. done.
  - apply mapped_write. rewrite length_take, length_drop. fold len.
    eapply mapped_sub; [exact Hdest|lia|lia].
Qed.

(** One chunk copied before the suffix at [k]. *)
Lemma copy_backward k c :
  src <= dest -> (c <= k)%nat -> (k <= len)%nat ->
  copy_n (write m (dest + Z.of_nat k) (drop k bs)) (dest + Z.of_nat (k - c)) (src + Z.of_nat (k - c)) c =
    Some (write m (dest + Z.of_nat (k - c)) (drop (k - c) bs)).
Proof.
  intros Ov Hc Hk. unfold copy_n. rewrite load_write_disj by lia. rewrite src_slice by lia.
  assert (Ls : length (take c (drop (k - c) bs)) = c)
    by (rewrite length_take, length_drop; fold len; lia).
  rewrite store_bytes_mapped.
  - f_equal. rewrite write_write_comm by (rewrite Ls, length_drop; lia).
    replace (drop (k - c) bs) with (take c (drop (k - c) bs) ++ drop k bs) at 2.
    + rewrite write_app, Ls. f_equal. lia.
    + replace (drop k bs) with (drop c (drop (k - c) bs)); [apply take_drop|].
      rewrite drop_drop. f_equal. lia.
  - apply mapped_write. rewrite Ls. eapply mapped_sub; [exact Hdest|lia|lia].
Qed.

Lemma copies_forward c off i0 k n :
  (dest <= src \/ src + Z.of_nat len <= dest) ->
  (forall i, (i < n)%nat -> off (i0 + Z.of_nat i) = Z.of_nat (k + c * i)) -> (k + c * n <= len)%nat ->
  copies (write m dest (take k bs)) dest src c off i0 n = Some (write m dest (take (k + c * n) bs)).
Proof.
  intros Ov. revert i0 k; induction n as [|n IH]; intros i0 k Ho H; simpl.
  - by rewrite Nat.mul_0_r, Nat.add_0_r.
  - pose proof (Ho 0%nat ltac:(lia)) as O0. rewrite Z.add_0_r, Nat.mul_0_r, Nat.add_0_r in O0.
    rewrite O0, !ptr_in by lia. rewrite copy_forward by (done || lia).
    rewrite (IH (i0 + 1) (k + c)%nat).
    + do 2 f_equal. f_equal. lia.
    + intros i Hi. replace (i0 + 1 + Z.of_nat i) with (i0 + Z.of_nat (S i)) by lia.
      rewrite Ho by lia. f_equal. lia.
    + lia.
Qed.

Lemma copies_backward c off i0 k n :
  src <= dest -> (forall i, (i < n)%nat -> off (i0 + Z.of_nat i) = Z.of_nat (k - c * S i)) ->
  (c * n <= k)%nat -> (k <= len)%nat ->
  copies (write m (dest + Z.of_nat k) (drop k bs)) dest src c off i0 n =
    Some (write m (dest + Z.of_nat (k - c * n)) (drop (k - c * n) bs)).
Proof.
  intros Ov. revert i0 k; induction n as [|n IH]; intros i0 k Ho Hn Hk; simpl.
  - by rewrite Nat.mul_0_r, Nat.sub_0_r.
  - pose proof (Ho 0%nat ltac:(lia)) as O0. rewrite Z.add_0_r, Nat.mul_1_r in O0.
    rewrite O0, !ptr_in by lia. rewrite copy_backward by (done || lia).
    rewrite (IH (i0 + 1) (k - c)%nat).
    + replace (k - c - c * n)%nat with (k - c * S n)%nat by lia. done.
    + intros i Hi. replace (i0 + 1 + Z.of_nat i) with (i0 + Z.of_nat (S i)) by lia.
      rewrite Ho by lia. f_equal. lia.
    + lia.
    + lia.
Qed.

Let words : nat := len / 8.
Let left : nat := len mod 8.

Lemma split_len : (len = 8 * words + left)%nat /\ Z.to_nat (Z.shiftr (Z.of_nat len) 3) = words /\
  Z.to_nat (Z.land (Z.of_nat len) 7) = left /\ Z.shiftr (Z.of_nat len) 3 = Z.of_nat words.
Proof.
  rewrite land_07, shiftr3. unfold words, left. pose proof (Nat.div_mod_eq len 8).
  pose proof (Nat2Z.inj_div len 8) as A. pose proof (Nat2Z.inj_mod len 8) as B.
  change (Z.of_nat 8) with 8 in A, B. rewrite <- A, <- B, !Nat2Z.id. split_and!; (done || lia).
Qed.

Lemma Memcpy_ok :
  dest <= src \/ src + Z.of_nat len <= dest ->
  Memcpy m dest src (Z.of_nat len) = Some (dest, write m dest bs).
Proof.
  intros Ov. destruct split_len as (E & Ew & El & Es). unfold Memcpy. rewrite Ew, El, Es.
  change m with (write m dest (take 0 bs)) at 1.
  rewrite (copies_forward 8 _ 0 0 words Ov) by (intros; lia).
  rewrite (copies_forward 1 _ 0 (0 + 8 * words) left Ov) by (intros; lia).
  do 3 f_equal. rewrite take_ge; [done|]. fold len. lia.
Qed.

Lemma memcpyH_ok : src <= dest ->
  memcpyH m dest src (Z.of_nat len) = Some (dest, write m dest bs).
Proof.
  intros Ov. destruct split_len as (E & Ew & El & Es). unfold memcpyH. rewrite Ew, El, Es.
  assert (E0 : m = write m (dest + Z.of_nat len) (drop len bs)) by (unfold len; by rewrite drop_all).
  rewrite E0 at 1.
  rewrite (copies_backward 8 _ 1 len words Ov) by (intros; lia).
  rewrite (copies_backward 1 _ 1 (len - 8 * words) left Ov) by (intros; lia).
  replace (len - 8 * words - 1 * left)%nat with 0%nat by lia.
  by rewrite Z.add_0_r, drop_0.
Qed.
End Block.

(** ** Properties *)

(** C35. [Memmove] leaves at [dest] the bytes [src] held before the call and
    changes nothing else, for every length and every way the two ranges can
    overlap. *)
Theorem Memmove_spec m dest src bs :
  let len := Z.of_nat (length bs) in
  load_bytes m src (length bs) = Some bs -> mapped m dest len ->
  0 <= src -> src + len < 18446744073709551616 ->
  0 <= dest -> dest + len < 18446744073709551616 ->
  Memmove m dest src len = Some (dest, write m dest bs).
Proof.
  intros len L Md S1 S2 D1 D2. unfold Memmove.
  destruct (Z.eqb_spec dest src) as [->|N].
  - do 2 f_equal. apply map_eq. intros i. rewrite lookup_write. case_decide as D; [|done].
    rewrite (load_bytes_lookup _ _ _ _ _ L) by lia. f_equal. lia.
  - rewrite (u64_small len), u64_small by lia.
    destruct (Z.ltb_spec src dest), (Z.leb_spec dest (src + len)); simpl.
    + apply memcpyH_ok; (done || lia).
    + apply Memcpy_ok; try done; try lia.
    + apply Memcpy_ok; try done; try lia.
    + apply Memcpy_ok; try done; try lia.
Qed.

Lemma Memmove_spec_witness :
  let bs := [1; 2; 3; 4; 5; 6; 7; 8; 9; 10; 11] in
  let m := write ∅ 100 (bs ++ [0; 0; 0]) in
  Memmove m 103 100 11 = Some (103, write m 103 bs).
Proof.
  intros bs m. apply (Memmove_spec m 103 100 bs); [reflexivity| |lia|simpl; lia|lia|simpl; lia].
  intros i Hi. unfold m. rewrite lookup_write. rewrite decide_True by (simpl in *; lia).
  apply lookup_lt_is_Some_2. simpl in *. lia.
Defined.

Lemma set_bytes_ok m dest ch len i0 n :
  mapped m dest (Z.of_nat len) -> 0 <= dest -> dest + Z.of_nat len < 18446744073709551616 ->
  (i0 + n <= len)%nat ->
  set_bytes (write m dest (replicate i0 (u8 ch))) dest ch (Z.of_nat i0) n =
    Some (write m dest (replicate (i0 + n) (u8 ch))).
Proof.
  intros Md P T. revert i0; induction n as [|n IH]; intros i0 H; cbn [set_bytes].
  - by rewrite Nat.add_0_r.
  - unfold ptr_add. rewrite u64_small by lia. rewrite store_bytes_mapped.
    + replace (Z.of_nat i0 + 1) with (Z.of_nat (S i0)) by lia.
      assert (E : write (write m dest (replicate i0 (u8 ch))) (dest + Z.of_nat i0) [u8 ch] =
        write m dest (replicate (S i0) (u8 ch))).
      { rewrite replicate_S_end, write_app, length_replicate. done. }
      rewrite E, IH by lia. do 2 f_equal. f_equal. lia.
    + apply mapped_write. eapply mapped_sub; [exact Md|lia|simpl; lia].
Qed.

Lemma set_words_ok m dest ch len k i0 n :
  mapped m dest (Z.of_nat len) -> 0 <= dest -> dest + Z.of_nat len < 18446744073709551616 ->
  (8 <= k)%nat -> (k + 8 * (i0 + n) <= len)%nat ->
  set_words (write m dest (replicate (k + 8 * i0) (u8 ch))) dest (Z.of_nat k) (Z.of_nat i0) n =
    Some (write m dest (replicate (k + 8 * (i0 + n)) (u8 ch))).
Proof.
  intros Md P T Hk. revert i0; induction n as [|n IH]; intros i0 H; cbn [set_words].
  - by rewrite Nat.add_0_r.
  - unfold ptr_add. rewrite u64_small by lia. unfold copy_n.
    rewrite load_write_in by (rewrite ?length_replicate; lia).
    rewrite Z.sub_diag. change (Z.to_nat 0) with 0%nat. rewrite drop_0, take_replicate.
    replace (8 `min` (k + 8 * i0))%nat with 8%nat by lia. rewrite store_bytes_mapped.
    + replace (Z.of_nat i0 + 1) with (Z.of_nat (S i0)) by lia.
      assert (E : write (write m dest (replicate (k + 8 * i0) (u8 ch)))
        (dest + (Z.of_nat k + 8 * Z.of_nat i0)) (replicate 8 (u8 ch)) =
        write m dest (replicate (k + 8 * S i0) (u8 ch))).
      { replace (k + 8 * S i0)%nat with (k + 8 * i0 + 8)%nat by lia.
        rewrite (replicate_add (k + 8 * i0) 8), write_app, length_replicate. f_equal. lia. }
      rewrite E, IH by lia. do 2 f_equal. f_equal. lia.
    + apply mapped_write. rewrite length_replicate. eapply mapped_sub; [exact Md|lia|lia].
Qed.

(** [Memset] stores the byte in exactly [len] cells, whatever the alignment of
    [len] to the word size: the head is stored byte by byte and the rest is
    copied from the first word. *)
Theorem Memset_spec m dest ch len :
  mapped m dest (Z.of_nat len) -> 0 <= dest -> dest + Z.of_nat len < 18446744073709551616 ->
  Memset m dest ch (Z.of_nat len) = Some (dest, write m dest (replicate len (u8 ch))).
Proof.
  intros Md P T. unfold Memset. rewrite shiftr3, land_07.
  pose proof (Z.div_mod (Z.of_nat len) 8 ltac:(lia)) as E.
  pose proof (Z.mod_pos_bound (Z.of_nat len) 8 ltac:(lia)) as B.
  set (c := Z.of_nat len / 8) in *. set (r := Z.of_nat len mod 8) in *.
  pose proof (set_bytes_ok m dest ch len 0) as S. simpl in S.
  destruct (Z.ltb_spec 0 c).
  - rewrite S by (done || lia).
    destruct (Z.ltb_spec c 2).
    + do 3 f_equal. f_equal. lia.
    + pose proof (set_words_ok m dest ch len (Z.to_nat (r + 8)) 0 (Z.to_nat (c - 1)) Md P T) as V.
      rewrite Nat.mul_0_r, Nat.add_0_r, Z2Nat.id in V by lia. change (Z.of_nat 0) with 0 in V.
      rewrite V by lia. do 3 f_equal. f_equal. lia.
  - rewrite S by (done || lia). replace (c <? 2) with true by lia.
    do 3 f_equal. f_equal. lia.
Qed.

Lemma Memset_spec_witness :
  let m := write ∅ 100 (replicate 21 0) in
  Memset m 100 (-1) 21 = Some (100, write m 100 (replicate 21 255)).
Proof.
  intros m. apply (Memset_spec m 100 (-1) 21); [|lia|lia].
  intros i Hi. unfold m. rewrite lookup_write, length_replicate, decide_True by lia.
  apply lookup_lt_is_Some_2. rewrite length_replicate. lia.
Defined.

Lemma compares_same m p q c off i0 n :
  (forall i, (i < n)%nat -> exists l, load_bytes m (ptr_add p (off (i0 + Z.of_nat i))) c = Some l /\
     load_bytes m (ptr_add q (off (i0 + Z.of_nat i))) c = Some l) ->
  compares m p q c off i0 n = Some 0.
Proof.
  revert i0; induction n as [|n IH]; intros i0 H; simpl; [done|].
  destruct (H 0%nat) as (l & E1 & E2); [lia|]. rewrite Z.add_0_r in E1, E2.
  unfold load_le. rewrite E1, E2. simpl. rewrite Z.ltb_irrefl. apply IH.
  intros i Hi. replace (i0 + 1 + Z.of_nat i) with (i0 + Z.of_nat (S i)) by lia. apply H. lia.
Qed.

Lemma compares_zero m p q c off i0 n :
  wf_mem m -> compares m p q c off i0 n = Some 0 ->
  forall i, (i < n)%nat -> exists l, load_bytes m (ptr_add p (off (i0 + Z.of_nat i))) c = Some l /\
     load_bytes m (ptr_add q (off (i0 + Z.of_nat i))) c = Some l.
Proof.
  intros W. revert i0; induction n as [|n IH]; intros i0 H i Hi; simpl in H; [lia|].
  unfold load_le in H.
  destruct (load_bytes m (ptr_add p (off i0)) c) as [x|] eqn:Ex; [|done].
  destruct (load_bytes m (ptr_add q (off i0)) c) as [y|] eqn:Ey; [|done]. simpl in H.
  destruct (Z.ltb_spec (le_val x) (le_val y)); [done|].
  destruct (Z.ltb_spec (le_val y) (le_val x)); [done|].
  destruct i as [|i].
  - rewrite Z.add_0_r. exists x. split; [done|]. rewrite Ey. f_equal.
    rewrite <- (le_bytes_val x), <- (le_bytes_val y) by (eapply load_bytes_ok; eauto).
    rewrite (load_bytes_length _ _ _ _ Ex), (load_bytes_length _ _ _ _ Ey). f_equal. lia.
  - replace (i0 + Z.of_nat (S i)) with (i0 + 1 + Z.of_nat i) by lia. apply IH; [done|lia].
Qed.

Lemma compares_total m p q c off i0 n :
  (forall i, (i < n)%nat -> is_Some (load_bytes m (ptr_add p (off (i0 + Z.of_nat i))) c) /\
     is_Some (load_bytes m (ptr_add q (off (i0 + Z.of_nat i))) c)) ->
  exists r, compares m p q c off i0 n = Some r /\ compares m q p c off i0 n = Some (- r) /\
    (r = -1 \/ r = 0 \/ r = 1).
Proof.
  revert i0; induction n as [|n IH]; intros i0 H; simpl; [by exists 0; auto|].
  destruct (H 0%nat ltac:(lia)) as [[x Ex] [y Ey]]. rewrite Z.add_0_r in Ex, Ey.
  unfold load_le. rewrite Ex, Ey. simpl.
  destruct (Z.ltb_spec (le_val x) (le_val y)), (Z.ltb_spec (le_val y) (le_val x));
    [lia|exists (-1); auto|exists 1; auto|].
  apply IH. intros i Hi. replace (i0 + 1 + Z.of_nat i) with (i0 + Z.of_nat (S i)) by lia.
  apply H. lia.
Qed.

(** The chunk of the comparison loops that holds byte [j]. *)
Lemma chunk_of j n : (j < n)%nat ->
  let w := (n / 8)%nat in
  (exists i k, (i < w)%nat /\ (k < 8)%nat /\ j = (8 * i + k)%nat) \/
  (exists i, (i < n mod 8)%nat /\ j = (8 * w + i)%nat).
Proof.
  intros H w. pose proof (Nat.div_mod_eq n 8). pose proof (Nat.div_mod_eq j 8).
  pose proof (Nat.mod_upper_bound j 8 ltac:(lia)). unfold w.
  destruct (decide (j < 8 * (n / 8))%nat).
  - left. exists (j / 8)%nat, (j mod 8)%nat. split_and!; lia.
  - right. exists (j - 8 * (n / 8))%nat. lia.
Qed.

Section Cmp.
Variables (m : mem) (p q : Z) (x y : list Z).
Hypothesis W : wf_mem m.
Hypothesis Hl : length y = length x.
Hypothesis Lx : load_bytes m p (length x) = Some x.
Hypothesis Ly : load_bytes m q (length x) = Some y.
Hypothesis Rp : 0 <= p /\ p + Z.of_nat (length x) < 18446744073709551616.
Hypothesis Rq : 0 <= q /\ q + Z.of_nat (length x) < 18446744073709551616.

Lemma cmp_len : let n := length x in
  Z.to_nat (Z.shiftr (Z.of_nat n) 3) = (n / 8)%nat /\ Z.to_nat (Z.land (Z.of_nat n) 7) = (n mod 8)%nat /\
  Z.shiftr (Z.of_nat n) 3 = Z.of_nat (n / 8) /\ n = (8 * (n / 8) + n mod 8)%nat.
Proof.
  intros n. destruct (split_len x) as (E & A & B & C). unfold n. split_and!; (done || lia).
Qed.

Lemma chunk_load k c : (k + c <= length x)%nat ->
  load_bytes m (ptr_add p (Z.of_nat k)) c = Some (take c (drop k x)) /\
  load_bytes m (ptr_add q (Z.of_nat k)) c = Some (take c (drop k y)).
Proof.
  intros H. unfold ptr_add. rewrite !u64_small by lia. split.
  - by apply src_slice.
  - rewrite <- Hl in Ly. apply (src_slice m q y Ly). lia.
Qed.

Lemma word_chunks i : (i < length x / 8)%nat ->
  load_bytes m (ptr_add p (8 * (0 + Z.of_nat i))) 8 = Some (take 8 (drop (8 * i) x)) /\
  load_bytes m (ptr_add q (8 * (0 + Z.of_nat i))) 8 = Some (take 8 (drop (8 * i) y)).
Proof.
  intros H. destruct cmp_len as (_ & _ & _ & E).
  replace (8 * (0 + Z.of_nat i)) with (Z.of_nat (8 * i)) by lia. apply chunk_load. lia.
Qed.

Lemma byte_chunks i : (i < length x mod 8)%nat ->
  load_bytes m (ptr_add p (8 * Z.of_nat (length x / 8) + (0 + Z.of_nat i))) 1 =
    Some (take 1 (drop (8 * (length x / 8) + i) x)) /\
  load_bytes m (ptr_add q (8 * Z.of_nat (length x / 8) + (0 + Z.of_nat i))) 1 =
    Some (take 1 (drop (8 * (length x / 8) + i) y)).
Proof.
  intros H. destruct cmp_len as (_ & _ & _ & E).
  replace (8 * Z.of_nat (length x / 8) + (0 + Z.of_nat i)) with (Z.of_nat (8 * (length x / 8) + i)) by lia.
  apply chunk_load. lia.
Qed.

Lemma Memcmp_total :
  exists r, Memcmp m p q (Z.of_nat (length x)) = Some r /\ (r = -1 \/ r = 0 \/ r = 1) /\
    Memcmp m q p (Z.of_nat (length x)) = Some (- r) /\ (r = 0 <-> x = y).
Proof.
  destruct cmp_len as (E1 & E2 & E3 & E). unfold Memcmp. rewrite E1, E2, E3.
  destruct (compares_total m p q 8 (fun i => 8 * i) 0 (length x / 8)) as (r1 & A1 & B1 & C1).
  { intros i Hi. destruct (word_chunks i Hi) as [-> ->]. eauto. }
  destruct (compares_total m p q 1 (fun i => 8 * Z.of_nat (length x / 8) + i) 0 (length x mod 8))
    as (r2 & A2 & B2 & C2).
  { intros i Hi. destruct (byte_chunks i Hi) as [-> ->]. eauto. }
  assert (Eq : x = y -> r1 = 0 /\ r2 = 0).
  { intros e. split.
    - rewrite compares_same in A1; [by simplify_eq|]. intros i Hi.
      destruct (word_chunks i Hi) as [P Q]. rewrite <- e in Q. eauto.
    - rewrite compares_same in A2; [by simplify_eq|]. intros i Hi.
      destruct (byte_chunks i Hi) as [P Q]. rewrite <- e in Q. eauto. }
  assert (Ne : r1 = 0 -> r2 = 0 -> x = y).
  { intros -> ->. apply list_eq_same_length with (length x); [done..|].
    intros j a d Hj Ha Hd.
    destruct (chunk_of j (length x) Hj) as [(i & k & Hi & Hk & ->)|(i & Hi & ->)].
    - destruct (compares_zero _ _ _ _ _ _ _ W A1 i Hi) as (l & P & Q).
      destruct (word_chunks i Hi) as [P' Q']. rewrite P in P'. rewrite Q in Q'.
      pose proof (eq_trans (eq_sym P') Q') as T. apply (inj Some) in T.
      pose proof (f_equal (lookup k) T) as V. rewrite !lookup_take_lt, !lookup_drop in V by lia.
      congruence.
    - destruct (compares_zero _ _ _ _ _ _ _ W A2 i Hi) as (l & P & Q).
      destruct (byte_chunks i Hi) as [P' Q']. rewrite P in P'. rewrite Q in Q'.
      pose proof (eq_trans (eq_sym P') Q') as T. apply (inj Some) in T.
      pose proof (f_equal (lookup 0%nat) T) as V. rewrite !lookup_take_lt, !lookup_drop in V by lia.
      rewrite Nat.add_0_r in V. congruence. }
  rewrite A1, B1. destruct C1 as [-> | [-> | ->]].
  - exists (-1). split_and!; try done; [by left|]. split; [done|]. intros e. by destruct (Eq e).
  - rewrite A2, B2. exists r2. split_and!; try done. split; [by intros; apply Ne|]. intros e. by apply Eq.
  - exists 1. split_and!; try done; [by right; right|]. split; [done|]. intros e. by destruct (Eq e).
Qed.
End Cmp.

(** [Memcmp] always returns [-1], [0] or [1]; it returns [0] exactly on equal
    contents and swapping the arguments negates the result. *)
Theorem Memcmp_spec m p q x y :
  wf_mem m -> length y = length x ->
  load_bytes m p (length x) = Some x -> load_bytes m q (length x) = Some y ->
  0 <= p -> p + Z.of_nat (length x) < 18446744073709551616 ->
  0 <= q -> q + Z.of_nat (length x) < 18446744073709551616 ->
  exists r, Memcmp m p q (Z.of_nat (length x)) = Some r /\ (r = -1 \/ r = 0 \/ r = 1) /\
    Memcmp m q p (Z.of_nat (length x)) = Some (- r) /\ (r = 0 <-> x = y).
Proof. intros. by apply Memcmp_total. Qed.

(** Words are compared as little-endian integers, so the order is not the
    byte-wise order of C's [memcmp]: here the first differing byte is smaller in
    the first block, which compares greater. *)
Example Memcmp_not_lexicographic :
  Memcmp (write ∅ 100 [0; 1; 0; 0; 0; 0; 0; 0; 1; 0; 0; 0; 0; 0; 0; 0]) 100 108 8 = Some 1.
Proof. reflexivity. Qed.

Lemma Memcmp_spec_witness :
  let m := write ∅ 100 [0; 1; 0; 0; 0; 0; 0; 0; 1; 0; 0; 0; 0; 0; 0; 0] in
  exists r, Memcmp m 100 108 8 = Some r /\ Memcmp m 108 100 8 = Some (- r).
Proof.
  intros m.
  assert (Wm : wf_mem m).
  { apply wf_mem_write; [intros ? ?; rewrite lookup_empty; done|].
    apply (bool_decide_unpack _). exact I. }
  destruct (Memcmp_spec m 100 108 [0; 1; 0; 0; 0; 0; 0; 0] [1; 0; 0; 0; 0; 0; 0; 0] Wm eq_refl
    eq_refl eq_refl ltac:(lia) ltac:(simpl; lia) ltac:(lia) ltac:(simpl; lia)) as (r & E & _ & E' & _).
  exists r. split; [exact E|exact E'].
Defined.

(** ** Rows *)

(** A field as a row holds it: strings get 66 bytes, numbers eight. *)
Definition enc (v : value) : list Z :=
  match v with
  | VString s => le_bytes 2 (Z.of_nat (length s)) ++ s ++ replicate (64 - length s) 0
  | VInt bs | VFloat bs => bs
  | VOther => []
  end.
Definition encs (obj : object) : list Z := concat (map (fun f => enc (snd f)) obj).

(** A number has eight bytes; strings a row can hold have at most 64. *)
Definition typed (v : value) : Prop :=
  match v with
  | VString _ => True
  | VInt bs | VFloat bs => length bs = 8%nat
  | VOther => False
  end.
Definition value_ok (v : value) : Prop :=
  typed v /\ match v with VString s => (length s <= 64)%nat | _ => True end.

(** The kind of a field, which [Parse] reads off a sample struct, and a field of
    the same struct type: the same offset and kind. *)
Definition same_kind (v u : value) : Prop :=
  match v, u with
  | VString _, VString _ | VInt _, VInt _ | VFloat _, VFloat _ | VOther, VOther => True
  | _, _ => False
  end.
Definition same_field (f g : Z * value) : Prop := fst f = fst g /\ same_kind (snd f) (snd g).

Lemma enc_length v : value_ok v -> Z.of_nat (length (enc v)) = field_size v /\ (0 < length (enc v))%nat.
Proof.
  intros [T H]. destruct v; simpl in *; rewrite ?length_app, ?length_replicate; try lia; done.
Qed.

Lemma positions_at l pre s post :
  positions l (pre ++ s :: post) !! length pre = Some (l + sumZ pre).
Proof.
  revert l; induction pre as [|x pre IH]; intros l; simpl.
  - f_equal. lia.
  - rewrite IH. f_equal. unfold sumZ. simpl. lia.
Qed.

Lemma copy_at_zeros (pre bs : list Z) n :
  (length bs <= n)%nat ->
  copy_at (pre ++ replicate n 0) (length pre) bs = pre ++ bs ++ replicate (n - length bs) 0.
Proof.
  intros H. unfold copy_at. rewrite length_app, length_replicate.
  replace (length pre + n - length pre)%nat with n by lia. rewrite (take_ge bs n) by done.
  rewrite take_app_length. f_equal. f_equal.
  rewrite drop_app_ge by lia. rewrite drop_replicate. f_equal. lia.
Qed.

(** ** Access by offset *)

Lemma field_at_app o v (pre post : object) :
  (o ∉ map fst pre) -> field_at o (pre ++ (o, v) :: post) = Some v.
Proof.
  induction pre as [|[o' u] pre IH]; simpl; intros N; [by rewrite Z.eqb_refl|].
  apply not_elem_of_cons in N as [N1 N2]. rewrite (proj2 (Z.eqb_neq o' o)) by done. by apply IH.
Qed.
Lemma set_at_app o v u (pre post : object) :
  (o ∉ map fst pre) -> set_at o v (pre ++ (o, u) :: post) = pre ++ (o, v) :: post.
Proof.
  induction pre as [|[o' w] pre IH]; simpl; intros N; [by rewrite Z.eqb_refl|].
  apply not_elem_of_cons in N as [N1 N2]. rewrite (proj2 (Z.eqb_neq o' o)) by done. by rewrite IH.
Qed.

Lemma same_field_offsets l k : Forall2 same_field l k -> map fst l = map fst k.
Proof. induction 1 as [|f g l k [E _] _ IH]; [done|]. simpl. by rewrite E, IH. Qed.

(** The tables of [Parse] at one field. *)
Section Row.
Variables (pre post : object) (o : Z) (v : value).
Let shape : object := pre ++ (o, v) :: post.
Let t := ti (Parse shape).
Let at_ : Z := sumZ (map (fun f => field_size (snd f)) pre).

Lemma type_info_at :
  Pos t !! length pre = Some at_ /\ Size t !! length pre = Some (field_size v) /\
  Offset t !! length pre = Some o /\
  Save_ t !! length pre = Some (field_save v) /\ Dump_ t !! length pre = Some (field_dump v).
Proof.
  unfold t, shape, Parse. cbn [ti Pos Size Offset Save_ Dump_]. rewrite (map_app snd), (map_app fst). cbn [map snd fst].
  assert (M : forall A (f : value -> A), map f (map snd pre ++ v :: map snd post) !! length pre = Some (f v)).
  { intros A f. rewrite map_app, lookup_app_r; rewrite !length_map; [|lia]. by rewrite Nat.sub_diag. }
  rewrite !M. split_and!; [|done| |done|done].
  - rewrite map_app. simpl. replace (length pre) with (length (map field_size (map snd pre))) by (by rewrite !length_map).
    rewrite positions_at, map_map. done.
  - rewrite lookup_app_r; rewrite !length_map; [|lia]. by rewrite Nat.sub_diag.
Qed.
End Row.

Lemma encs_app a b : encs (a ++ b) = encs a ++ encs b.
Proof. unfold encs. by rewrite map_app, concat_app. Qed.

Lemma enc_sum (l : object) : Forall (fun f => value_ok (snd f)) l ->
  Z.of_nat (length (encs l)) = sumZ (map (fun f => field_size (snd f)) l).
Proof.
  unfold encs. induction 1 as [|v l Hv _ IH]; [done|]. simpl. rewrite length_app, Nat2Z.inj_add, IH.
  by rewrite (proj1 (enc_length _ Hv)).
Qed.

Lemma same_kind_size v u : same_kind v u ->
  field_size v = field_size u /\ field_save v = field_save u /\ field_dump v = field_dump u.
Proof. by destruct v, u. Qed.

Lemma same_fields_size l k : Forall2 same_field l k ->
  map (fun f => field_size (snd f)) l = map (fun f => field_size (snd f)) k.
Proof.
  induction 1 as [|f g l k [_ K] _ IH]; [done|]. simpl. rewrite IH. by destruct (same_kind_size _ _ K) as [-> _].
Qed.

(** One field into the zeroed rest of the row. *)
Lemma save_one t i (row : list Z) v n :
  Pos t !! i = Some (Z.of_nat (length row)) -> Size t !! i = Some (field_size v) ->
  value_ok v -> (length (enc v) <= n)%nat ->
  call_save (field_save v) (row ++ replicate n 0) v t i = Some (row ++ enc v ++ replicate (n - length (enc v)) 0).
Proof.
  intros Ep Es Hv Hn. destruct (enc_length v Hv) as [El Hp]. destruct Hv as [Tv Hv].
  assert (G : (length (row ++ replicate n 0%Z) <=? Z.to_nat (Z.of_nat (length row)))%nat = false).
  { rewrite Nat2Z.id, length_app, length_replicate. apply Nat.leb_gt. lia. }
  destruct v as [s|bs|bs|]; simpl in Hv, Tv; [| | |done]; cbn [field_save call_save field_size] in *.
  2, 3: unfold mem_save; rewrite Ep, Es, G, Nat2Z.id; cbn [Z.eqb enc] in *; change (Z.to_nat 8) with 8%nat;
    rewrite Tv, (take_ge bs 8), length_app, length_replicate by lia;
    rewrite !(proj2 (Nat.leb_le _ _)) by lia; cbn [andb]; rewrite copy_at_zeros by lia; by rewrite Tv.
  unfold str_save. rewrite Ep. set (L := le_bytes 2 (Z.of_nat (length s))).
  assert (HL : length L = 2%nat) by apply length_le_bytes.
  change (enc (VString s)) with (L ++ s ++ replicate (64 - length s) 0) in Hn |- *.
  rewrite !length_app, length_replicate, HL in Hn. rewrite Nat2Z.id.
  rewrite (proj2 (Nat.ltb_ge _ _)) by (rewrite !length_app, length_replicate; lia).
  rewrite copy_at_zeros by lia. rewrite HL.
  replace (Z.to_nat (Z.of_nat (length row) + 2)) with (length (row ++ L)) by (rewrite length_app; lia).
  rewrite (app_assoc row L). rewrite copy_at_zeros by lia. f_equal. rewrite <- !app_assoc. do 3 f_equal.
  rewrite <- replicate_add. f_equal. rewrite !length_app, length_replicate. lia.
Qed.

(** The field of [obj] behind the fields [done_], as [Parse] of [shape] sees it. *)
Lemma field_next (shape done_ rest : object) o v :
  Forall2 same_field shape (done_ ++ (o, v) :: rest) -> Forall (fun f => value_ok (snd f)) done_ ->
  let t := ti (Parse shape) in
  Pos t !! length done_ = Some (Z.of_nat (length (encs done_))) /\ Size t !! length done_ = Some (field_size v) /\
  Offset t !! length done_ = Some o /\
  Save_ t !! length done_ = Some (field_save v) /\ Dump_ t !! length done_ = Some (field_dump v).
Proof.
  intros K V. apply Forall2_app_inv_r in K as (s1 & s2 & K1 & K2 & ->).
  apply Forall2_cons_inv_r in K2 as ([o' u] & s2' & [Eo Ku] & K2 & ->). simpl in Eo, Ku. subst o'.
  destruct (same_kind_size u v Ku) as (Z1 & Z2 & Z3).
  pose proof (type_info_at s1 s2' o u) as T. cbv zeta. rewrite <- (Forall2_length _ _ _ K1), <- Z1, <- Z2, <- Z3.
  rewrite (enc_sum done_ V), <- (same_fields_size _ _ K1). exact T.
Qed.

Lemma save_fields_ok (shape done_ rest : object) n :
  NoDup (map fst shape) ->
  Forall2 same_field shape (done_ ++ rest) -> Forall (fun f => value_ok (snd f)) (done_ ++ rest) ->
  (length (encs rest) <= n)%nat ->
  save_fields (ti (Parse shape)) (done_ ++ rest) (encs done_ ++ replicate n 0) (length done_) (length rest) =
    Some (encs (done_ ++ rest) ++ replicate (n - length (encs rest)) 0).
Proof.
  intros ND. revert done_ n; induction rest as [|[o v] rest IH]; intros done_ n K V Hn; cbn [save_fields length].
  - simpl. by rewrite app_nil_r, Nat.sub_0_r.
  - pose proof V as V0. apply Forall_app in V0 as [V1 V2]. apply Forall_cons in V2 as [Vv V2]. simpl in Vv.
    destruct (field_next shape done_ rest o v K V1) as (Ep & Es & Eo & Ef & _).
    rewrite Ef, Eo, field_at_app.
    2: { rewrite (same_field_offsets _ _ K), map_app in ND. apply NoDup_app in ND as (_ & D & _).
         intros I. apply (D o I). by left. }
    change (encs ((o, v) :: rest)) with (enc v ++ encs rest) in Hn |- *. rewrite length_app in Hn.
    rewrite (save_one _ _ _ v n Ep Es Vv) by lia.
    assert (Ec : encs done_ ++ enc v ++ replicate (n - length (enc v)) 0 =
      encs (done_ ++ [(o, v)]) ++ replicate (n - length (enc v)) 0).
    { rewrite encs_app. unfold encs at 3. simpl. by rewrite app_nil_r, <- app_assoc. }
    assert (Ea : done_ ++ (o, v) :: rest = (done_ ++ [(o, v)]) ++ rest) by (by rewrite <- app_assoc).
    rewrite Ec, Ea. replace (S (length done_)) with (length (done_ ++ [(o, v)])) by (rewrite length_app; simpl; lia).
    rewrite (IH (done_ ++ [(o, v)])); [|by rewrite <- Ea|by rewrite <- Ea|lia].
    do 3 f_equal. rewrite length_app. lia.
Qed.

Lemma dump_one t i (row post : list Z) v u :
  Pos t !! i = Some (Z.of_nat (length row)) -> Size t !! i = Some (field_size v) ->
  value_ok v -> same_kind u v -> typed u ->
  call_dump (field_dump v) (row ++ enc v ++ post) u t i = Some v.
Proof.
  intros Ep Es Hv K Tu. destruct (enc_length v Hv) as [El Hp]. destruct Hv as [Tv Hv].
  assert (G : (length (row ++ enc v ++ post) <=? Z.to_nat (Z.of_nat (length row)))%nat = false).
  { rewrite Nat2Z.id, !length_app. apply Nat.leb_gt. lia. }
  destruct v as [s|bs|bs|], u as [s'|bs'|bs'|]; try done; cbn [field_dump call_dump field_size typed] in *.
  2, 3: unfold mem_dump; rewrite Ep, Es, G, Nat2Z.id; cbn [Z.eqb enc] in *; change (Z.to_nat 8) with 8%nat;
    rewrite Tu, !length_app, !(proj2 (Nat.leb_le _ _)) by lia; cbn [andb]; rewrite drop_app_length;
    rewrite (take_app_length' bs) by done; rewrite (drop_ge bs') by lia; by rewrite app_nil_r.
  unfold str_dump. rewrite Ep, ?Nat2Z.id. set (L := le_bytes 2 (Z.of_nat (length s))).
  change (enc (VString s)) with (L ++ s ++ replicate (64 - length s) 0).
  assert (HL : length L = 2%nat) by apply length_le_bytes.
  assert (Ev : le_val L = Z.of_nat (length s)).
  { unfold L. rewrite le_val_bytes. apply Z.mod_small. lia. }
  rewrite drop_app_length, <- !app_assoc, (take_app_length' L) by done.
  rewrite Ev. replace (Z.to_nat (Z.of_nat (length row) + 2)) with (length (row ++ L))
    by (rewrite length_app; lia).
  rewrite !(proj2 (Nat.ltb_ge _ _)) by (rewrite !length_app, length_replicate; lia).
  rewrite app_assoc, drop_app_length, Nat2Z.id. by rewrite take_app_length.
Qed.

Lemma dump_fields_ok (shape done_ rest old : object) :
  NoDup (map fst shape) ->
  Forall2 same_field shape (done_ ++ rest) -> Forall (fun f => value_ok (snd f)) (done_ ++ rest) ->
  Forall2 same_field old rest -> Forall (fun f => typed (snd f)) old ->
  dump_fields (ti (Parse shape)) (encs (done_ ++ rest)) (done_ ++ old) (length done_) (length rest) = Some (done_ ++ rest).
Proof.
  intros ND. revert done_ old; induction rest as [|[o v] rest IH]; intros done_ old K V O T; cbn [dump_fields length].
  - by apply Forall2_nil_inv_r in O as ->.
  - apply Forall2_cons_inv_r in O as ([o' u] & old' & [Eo' Ku] & O & ->). simpl in Eo', Ku. subst o'.
    apply Forall_cons in T as [Tu T]. simpl in Tu.
    pose proof V as V0. apply Forall_app in V0 as [V1 V2]. apply Forall_cons in V2 as [Vv V2]. simpl in Vv.
    destruct (field_next shape done_ rest o v K V1) as (Ep & Es & Eo & _ & Ef).
    assert (No : o ∉ map fst done_).
    { rewrite (same_field_offsets _ _ K), map_app in ND. apply NoDup_app in ND as (_ & D & _).
      intros I. apply (D o I). by left. }
    rewrite Ef, Eo, field_at_app by done.
    assert (Ec : encs (done_ ++ (o, v) :: rest) = encs done_ ++ enc v ++ encs rest) by (by rewrite encs_app).
    rewrite Ec, (dump_one _ _ _ _ v u Ep Es Vv Ku Tu), set_at_app by done. rewrite <- Ec.
    assert (Ea : forall r, done_ ++ (o, v) :: r = (done_ ++ [(o, v)]) ++ r) by (intros r; by rewrite <- app_assoc).
    rewrite (Ea rest), (Ea old'). replace (S (length done_)) with (length (done_ ++ [(o, v)])) by (rewrite length_app; simpl; lia).
    apply IH; [by rewrite <- Ea|by rewrite <- Ea|done..].
Qed.

(** C39. A row gives back the struct that was saved in it. For a struct whose fields
    are at different offsets and all of the kinds [Parse] knows (string, [int64],
    [float64]), with strings of at most 64 bytes: [Save] succeeds, appends one row
    and leaves the others alone, and [Dump] of that row restores every field,
    whatever the target struct held. Both work through the tables of offsets,
    positions, sizes and functions that [Parse] made from any struct of the type. *)
Theorem Container_roundtrip shape obj old rows :
  NoDup (map fst shape) -> Forall2 same_field shape obj -> Forall2 same_field old obj ->
  Forall (fun f => value_ok (snd f)) obj -> Forall (fun f => typed (snd f)) old -> obj <> [] ->
  exists row, Save (mkContainer (ti (Parse shape)) rows) obj =
    Some (mkContainer (ti (Parse shape)) (rows ++ [row])) /\
  Dump (mkContainer (ti (Parse shape)) (rows ++ [row])) (length rows) old = Some obj.
Proof.
  intros ND K O V T N. pose proof (Forall2_length _ _ _ K) as Lk. exists (encs obj).
  assert (Ef : fields (ti (Parse shape)) = length obj) by (cbn [Parse ti fields]; by rewrite Lk). split.
  - destruct (exists_last N) as (o1 & [ol vl] & Eo). unfold Save. cbn [ti Rows].
    rewrite Ef. pose proof K as K'. rewrite Eo in K'. pose proof V as V'. rewrite Eo in V'. apply Forall_app in V' as [V1 _].
    destruct (field_next shape o1 [] ol vl K' V1) as (Ep & Es & _).
    assert (El : length obj = S (length o1)) by (rewrite Eo, length_app; simpl; lia).
    rewrite El, Ep, Es.
    assert (Er : Z.to_nat (Z.of_nat (length (encs o1)) + field_size vl) = length (encs obj)).
    { apply Nat2Z.inj. rewrite Z2Nat.id.
      - rewrite (enc_sum o1 V1), (enc_sum obj V), Eo, map_app, sumZ_app. simpl. lia.
      - destruct vl; simpl; lia. }
    rewrite Er, <- El.
    pose proof (save_fields_ok shape [] obj (length (encs obj)) ND K V ltac:(done)) as Sv.
    rewrite Nat.sub_diag in Sv. cbn [app length replicate] in Sv. change (encs []) with (@nil Z) in Sv.
    rewrite app_nil_r in Sv. cbn [app] in Sv. by rewrite Sv.
  - unfold Dump. cbn [ti Rows]. rewrite lookup_app_r, Nat.sub_diag by done. cbn [lookup list_lookup]. rewrite Ef.
    exact (dump_fields_ok shape [] obj old ND K V O T).
Qed.

Lemma Container_roundtrip_witness :
  let obj := [(0, VInt (le_bytes 8 7)); (8, VString [104; 105]); (24, VFloat (le_bytes 8 9))] in
  let c := Parse obj in
  let zero := [(0, VInt (le_bytes 8 0)); (8, VString []); (24, VFloat (le_bytes 8 0))] in
  exists row, Save c obj = Some (mkContainer (ti c) [row]) /\
    Dump (mkContainer (ti c) [row]) 0 zero = Some obj.
Proof.
  intros obj c zero. apply (Container_roundtrip obj obj zero []).
  - apply (bool_decide_unpack _). exact I.
  - repeat constructor.
  - repeat constructor.
  - repeat constructor; simpl; lia.
  - repeat constructor.
  - discriminate.
Defined.

(** The maximum of 64 is not checked: a longer string in the last field is saved
    truncated under its full length, and [Dump] panics. *)
Example Container_long_string :
  let obj := [(0, VString (replicate 65 97))] in
  Save (Parse obj) obj =
    Some (mkContainer (ti (Parse obj)) [le_bytes 2 65 ++ replicate 64 97]) /\
  Dump (mkContainer (ti (Parse obj)) [le_bytes 2 65 ++ replicate 64 97]) 0 obj = None.
Proof. split; reflexivity. Qed.

(** A field of another kind has size zero: behind the known fields its position is
    past the row, and [Save] panics. *)
Example Container_other_last :
  let obj := [(0, VInt (le_bytes 8 7)); (8, VOther)] in Save (Parse obj) obj = None.
Proof. reflexivity. Qed.
