(* ===== verification/Split.v ===== *)
(** * Splitting command lines into words

    [src/common/parse.go]: the split function for [bufio.Scanner] that keeps quoted
    text together. Text is a list of bytes; runes are decoded as package
    [unicode/utf8] does it. A slice expression out of range is [None]. *)

From Stdlib Require Import ZArith Lia String.
From stdpp Require Import base list numbers option.
From S2P Require Import Prelude Text.

Open Scope Z_scope.

(** ** UTF-8 *)

Definition RuneError : Z := 0xFFFD.

Definition between (lo hi b : Z) : bool := (lo <=? b) && (b <=? hi).

(** [utf8.DecodeRune]: the first rune and its width; an invalid byte is a
    [RuneError] of width one. *)
Definition DecodeRune (p : list Z) : Z * nat :=
  match p with
  | [] => (RuneError, 0%nat)
  | b0 :: r =>
      if b0 <? 0x80 then (b0, 1%nat)
      else if between 0xC2 0xDF b0 then
        match r with
        | b1 :: _ => if between 0x80 0xBF b1 then ((b0 - 0xC0) * 64 + (b1 - 0x80), 2%nat) else (RuneError, 1%nat)
        | _ => (RuneError, 1%nat)
        end
      else if between 0xE0 0xEF b0 then
        match r with
        | b1 :: b2 :: _ =>
            if between (if b0 =? 0xE0 then 0xA0 else 0x80) (if b0 =? 0xED then 0x9F else 0xBF) b1 && between 0x80 0xBF b2
            then ((b0 - 0xE0) * 4096 + (b1 - 0x80) * 64 + (b2 - 0x80), 3%nat) else (RuneError, 1%nat)
        | _ => (RuneError, 1%nat)
        end
      else if between 0xF0 0xF4 b0 then
        match r with
        | b1 :: b2 :: b3 :: _ =>
            if between (if b0 =? 0xF0 then 0x90 else 0x80) (if b0 =? 0xF4 then 0x8F else 0xBF) b1
               && between 0x80 0xBF b2 && between 0x80 0xBF b3
            then ((b0 - 0xF0) * 262144 + (b1 - 0x80) * 4096 + (b2 - 0x80) * 64 + (b3 - 0x80), 4%nat)
            else (RuneError, 1%nat)
        | _ => (RuneError, 1%nat)
        end
      else (RuneError, 1%nat)
  end.

(** [utf8.EncodeRune] of a rune past ASCII. *)
Definition EncodeRune (r : Z) : list Z :=
  if r <? 0x800 then [0xC0 + r / 64; 0x80 + r mod 64]
  else if r <? 0x10000 then [0xE0 + r / 4096; 0x80 + r / 64 mod 64; 0x80 + r mod 64]
  else [0xF0 + r / 262144; 0x80 + r / 4096 mod 64; 0x80 + r / 64 mod 64; 0x80 + r mod 64].

(** [bytes.IndexFunc], from the offset [i]; a rune has at least one byte. *)
Fixpoint index_func (f : Z -> bool) (fuel : nat) (s : list Z) (i : nat) : option nat :=
  match fuel, s with
  | O, _ | _, [] => None
  | S k, _ =>
      let '(r, w) := DecodeRune s in
      if f r then Some i else index_func f k (drop w s) (i + w)
  end.
Definition IndexFunc (s : list Z) (f : Z -> bool) : option nat := index_func f (length s) s 0.

(** [bytes.IndexByte] and [bytes.Index]. *)
Fixpoint IndexByte (s : list Z) (c : Z) : option nat :=
  match s with
  | [] => None
  | b :: r => if b =? c then Some 0%nat else S <$> IndexByte r c
  end.
Fixpoint Index (s sep : list Z) : option nat :=
  if bool_decide (take (length sep) s = sep) then Some 0%nat
  else match s with
       | [] => None
       | _ :: r => S <$> Index r sep
       end.

(** [bytes.IndexRune] *)
Definition IndexRune (s : list Z) (r : Z) : option nat :=
  if between 0 0x7F r then IndexByte s r
  else if r =? RuneError then IndexFunc s (fun x => x =? RuneError)
  else if (r <? 0) || (0x10FFFF <? r) || between 0xD800 0xDFFF r then None
  else Index s (EncodeRune r).

(** [unicode.IsSpace] *)
Definition IsSpace (r : Z) : bool :=
  between 0x09 0x0D r || (r =? 0x20) || (r =? 0x85) || (r =? 0xA0) || (r =? 0x1680) || between 0x2000 0x200A r ||
  between 0x2028 0x2029 r || (r =? 0x202F) || (r =? 0x205F) || (r =? 0x3000).

(** ** The split function *)

(* go: common/parse.go Splitter *)
Record Splitter := mkSplitter { is_space : Z -> bool; IsQuote : Z -> Z * bool; AllowOpenQuote : bool }.

(* go: common/parse.go DefaultSplitter *)
Definition DefaultSplitter : Splitter :=
  mkSplitter IsSpace
    (fun r => if r =? 34 then (34, true) else if r =? 39 then (39, true) else (32, false)) false.

(** The end of the token: the offset of a space and its width, or none in the
    data, inside of a quote or not. *)
Inductive token_end := Closed (n wid : nat) | Unterminated (quoted : bool).

Inductive split_error := ErrOpenQuote.

Section Split.
Variable s : Splitter.

Definition isSpaceOrQuote (r : Z) : bool := snd (IsQuote s r) || is_space s r.
Definition isNotSpace (r : Z) : bool := negb (is_space s r).

(** The loop, from the offset [n] of the token's data; every round is past a
    rune. *)
Fixpoint split_loop (fuel : nat) (data : list Z) (n : nat) : option token_end :=
  match fuel with
  | O => None
  | S fuel =>
      if (length data <? n)%nat then None
      else
        match IndexFunc (drop n data) isSpaceOrQuote with
        | None => Some (Unterminated false)
        | Some k =>
            let '(r, wid) := DecodeRune (drop (n + k) data) in
            let '(q, ok) := IsQuote s r in
            if ok then
              let n := (n + (k + wid))%nat in
              match IndexRune (drop n data) q with
              | None => Some (Unterminated true)
              | Some k => split_loop fuel data (n + (k + wid))
              end
            else Some (Closed (n + k) wid)
        end
  end.

(** [advance], the token ([None] is nil) and the error. *)
(* go: common/parse.go SplitFunc *)
Definition SplitFunc (data : list Z) (atEOF : bool) : option (nat * option (list Z) * option split_error) :=
  match IndexFunc data isNotSpace with
  | None => Some (length data, None, None)
  | Some n =>
      let advance := n in
      let data := drop n data in
      match split_loop (S (length data)) data 0 with
      | None => None
      | Some (Closed n wid) => Some ((advance + n + wid)%nat, Some (take n data), None)
      | Some (Unterminated quoted) =>
          Some (if negb atEOF then (advance, None, None)
                else if negb quoted || AllowOpenQuote s then ((advance + length data)%nat, Some data, None)
                else ((advance + length data)%nat, Some data, Some ErrOpenQuote))
      end
  end.
End Split.
