(* ===== verification/SplitSpec.v ===== *)
(** * Splitting command lines: the words a command line has

    A reference splitter walks the runes once with a quote state. [SplitFunc]
    finds exactly its first word, for any bytes, valid UTF-8 or not, and ends.
    [Scanner] has the same of whole command lines. *)

From Stdlib Require Import ZArith Lia String.
From stdpp Require Import base list numbers option.
From S2P Require Import Prelude Text Split.

Open Scope Z_scope.

(** ** Runes *)

(** A rune and its bytes. *)
Definition rune : Type := Z * list Z.
Definition bytes_of (rs : list rune) : list Z := concat (map snd rs).

Lemma DecodeRune_width p r w : p <> [] -> DecodeRune p = (r, w) -> (0 < w <= length p)%nat.
Proof.
  destruct p as [|b0 p]; [done|]. intros _. unfold DecodeRune.
  repeat match goal with
         | |- context [if ?c then _ else _] => destruct c
         | |- context [match ?l with [] => _ | _ :: _ => _ end] => destruct l
         end; intros [= <- <-]; simpl; lia.
Qed.

(** An ASCII byte is its own rune; other runes have no ASCII bytes. *)
Lemma DecodeRune_ascii p r w c : p <> [] -> DecodeRune p = (r, w) -> 0 <= c < 0x80 ->
  (r = c -> take w p = [c]) /\ (r <> c -> Forall (fun b => b <> c) (take w p)).
Proof.
  destruct p as [|b0 p]; [done|]. intros _ D Hc. unfold DecodeRune in D.
  destruct (Z.ltb_spec b0 0x80) as [L|L].
  { injection D as <- <-. split; [by intros ->|]. intros N. repeat constructor. done. }
  assert (R1 : (RuneError, 1%nat) = (r, w) -> (r = c -> take w (b0 :: p) = [c]) /\ (r <> c -> Forall (fun b => b <> c) (take w (b0 :: p)))).
  { intros [= <- <-]. split; [unfold RuneError; lia|]. intros _. repeat constructor. lia. }
  unfold between in D.
  repeat match type of D with
         | context [if ?c then _ else _] => destruct c eqn:?
         | context [match ?l with [] => _ | _ :: _ => _ end] => destruct l
         end; try (by apply R1); injection D as <- <-; simpl take; rewrite ?andb_true_iff, ?Z.leb_le in *;
    repeat match goal with H : _ /\ _ |- _ => destruct H end;
    (split; [intros; exfalso; repeat case_match; lia|intros _; repeat constructor; repeat case_match; lia]).
Qed.

(** The runes of some data. *)
Inductive Decodes : list Z -> list rune -> Prop :=
| D_nil : Decodes [] []
| D_cons p r w rs : p <> [] -> DecodeRune p = (r, w) -> Decodes (drop w p) rs -> Decodes p ((r, take w p) :: rs).

Fixpoint decode (fuel : nat) (p : list Z) : list rune :=
  match fuel, p with
  | O, _ | _, [] => []
  | S k, _ => let '(r, w) := DecodeRune p in (r, take w p) :: decode k (drop w p)
  end.
Definition runes (p : list Z) : list rune := decode (length p) p.

Lemma decode_Decodes fuel p : (length p <= fuel)%nat -> Decodes p (decode fuel p).
Proof.
  revert p; induction fuel as [|k IH]; intros p H; [destruct p; [constructor|simpl in H; lia]|].
  destruct p as [|b p]; [constructor|]. cbn [decode]. destruct (DecodeRune (b :: p)) as [r w] eqn:E.
  pose proof (DecodeRune_width (b :: p) r w ltac:(done) E). constructor; [done|done|]. apply IH. rewrite length_drop. lia.
Qed.

Lemma runes_Decodes p : Decodes p (runes p).
Proof. by apply decode_Decodes. Qed.

Lemma Decodes_bytes p rs : Decodes p rs -> bytes_of rs = p.
Proof. induction 1 as [|p r w rs Hp E _ IH]; [done|]. unfold bytes_of in *. simpl. rewrite IH. apply take_drop. Qed.

Lemma Decodes_fun p rs rs' : Decodes p rs -> Decodes p rs' -> rs = rs'.
Proof.
  intros H. revert rs'. induction H as [|p r w rs Hp E _ IH]; intros rs' H'; inversion H'; subst; try done.
  rewrite E in *. simplify_eq. f_equal. auto.
Qed.

Lemma Decodes_drop p pre rs : Decodes p (pre ++ rs) -> Decodes (drop (length (bytes_of pre)) p) rs.
Proof.
  revert p. induction pre as [|x pre IH]; intros p H; [done|]. inversion H as [|p' r w rs' Hp E D]; subst.
  unfold bytes_of; simpl. rewrite length_app, length_take.
  pose proof (DecodeRune_width p r w Hp E). rewrite Nat.min_l by lia. rewrite <- drop_drop. by apply IH.
Qed.

Lemma bytes_of_app a b : bytes_of (a ++ b) = bytes_of a ++ bytes_of b.
Proof. unfold bytes_of. by rewrite map_app, concat_app. Qed.

Lemma Decodes_rune_nonempty p rs x : Decodes p rs -> x ∈ rs -> (0 < length (snd x))%nat.
Proof.
  induction 1 as [|p r w rs Hp E _ IH]; [by intros ?%elem_of_nil|]. intros [->|H]%elem_of_cons; [|auto].
  simpl. rewrite length_take. pose proof (DecodeRune_width p r w Hp E). lia.
Qed.

(** ** Searching *)

(** The runes before the first one with [f], and the rest. *)
Fixpoint break (f : Z -> bool) (rs : list rune) : list rune * list rune :=
  match rs with
  | [] => ([], [])
  | x :: r => if f (fst x) then ([], rs) else let '(a, b) := break f r in (x :: a, b)
  end.

Lemma break_app f rs : rs = fst (break f rs) ++ snd (break f rs).
Proof. induction rs as [|x rs IH]; [done|]. simpl. destruct (f (fst x)); [done|]. destruct (break f rs). simpl in *. by f_equal. Qed.

Definition found (f : Z -> bool) (rs : list rune) (i : nat) : option nat :=
  match snd (break f rs) with
  | [] => None
  | _ => Some (i + length (bytes_of (fst (break f rs))))%nat
  end.

Lemma index_func_runes f fuel p rs i : (length p <= fuel)%nat -> Decodes p rs -> index_func f fuel p i = found f rs i.
Proof.
  intros Hf D. revert fuel i Hf. induction D as [|p r w rs Hp E D IH]; intros fuel i Hf.
  - by destruct fuel.
  - destruct fuel as [|k]; [destruct p; [done|simpl in Hf; lia]|].
    pose proof (DecodeRune_width p r w Hp E) as W.
    assert (Eq : index_func f (S k) p i = (if f r then Some i else index_func f k (drop w p) (i + w))).
    { destruct p; [done|]. cbn [index_func]. by rewrite E. }
    rewrite Eq. unfold found. simpl. destruct (f r); simpl; [f_equal; unfold bytes_of; simpl; lia|].
    rewrite IH by (rewrite length_drop; lia). unfold found. destruct (break f rs) as [a b]. simpl.
    destruct b; [done|]. f_equal. unfold bytes_of. simpl. rewrite length_app, length_take. lia.
Qed.

Lemma IndexFunc_runes f p rs : Decodes p rs -> IndexFunc p f = found f rs 0.
Proof. intros D. by apply index_func_runes. Qed.

Lemma IndexByte_none_app a b c : Forall (fun x => x <> c) a -> IndexByte (a ++ b) c = Nat.add (length a) <$> IndexByte b c.
Proof.
  induction 1 as [|x a Hx _ IH]; simpl; [by destruct (IndexByte b c)|].
  rewrite (proj2 (Z.eqb_neq x c)) by done. rewrite IH. by destruct (IndexByte b c).
Qed.

Lemma IndexByte_runes c p rs : 0 <= c < 0x80 -> Decodes p rs -> IndexByte p c = found (fun r => r =? c) rs 0.
Proof.
  intros Hc. induction 1 as [|p r w rs Hp E D IH]; [done|].
  destruct (DecodeRune_ascii p r w c Hp E Hc) as [Eq Ne]. unfold found. simpl.
  destruct (Z.eqb_spec r c) as [->|N]; simpl.
  - rewrite <- (take_drop w p), (Eq eq_refl). simpl. by rewrite Z.eqb_refl.
  - rewrite <- (take_drop w p), IndexByte_none_app by auto. rewrite IH. unfold found.
    destruct (break _ rs) as [a b]; simpl. destruct b; simpl; [done|]. f_equal. unfold bytes_of. simpl.
    rewrite length_app. by rewrite take_drop.
Qed.

(** ** The first word *)

Definition quote (r : Z) : bool := (r =? 34) || (r =? 39).

(** How a word ends: at a space, with what follows, or with the data, inside of
    a quote or not. *)
Inductive status := AtSpace (x : rune) (rest : list rune) | AtEnd (quoted : bool).

(** The runes of the first word; [q] is the quote it is in. *)
Fixpoint word (q : option Z) (rs : list rune) : list rune * status :=
  match rs with
  | [] => ([], AtEnd (if q is Some _ then true else false))
  | x :: r =>
      match q with
      | Some c => let '(w, st) := word (if fst x =? c then None else Some c) r in (x :: w, st)
      | None =>
          if quote (fst x) then let '(w, st) := word (Some (fst x)) r in (x :: w, st)
          else if IsSpace (fst x) then ([], AtSpace x r)
          else let '(w, st) := word None r in (x :: w, st)
      end
  end.

Definition sq := isSpaceOrQuote DefaultSplitter.

Lemma sq_spec r : sq r = quote r || IsSpace r.
Proof. unfold sq, isSpaceOrQuote, quote; simpl. destruct (r =? 34), (r =? 39); done. Qed.

Lemma word_break rs : word None rs = (fst (break sq rs) ++ fst (word None (snd (break sq rs))), snd (word None (snd (break sq rs)))).
Proof.
  induction rs as [|x rs IH]; [done|]. cbn [break]. destruct (sq (fst x)) eqn:E; [cbn [fst snd app]; apply surjective_pairing|].
  rewrite sq_spec in E. apply orb_false_iff in E as [E1 E2]. simpl word. rewrite E1, E2, IH. destruct (break sq rs) as [a b]. done.
Qed.

Lemma word_quoted c rs : word (Some c) rs =
  match snd (break (fun r => r =? c) rs) with
  | [] => (fst (break (fun r => r =? c) rs), AtEnd true)
  | x :: r => (fst (break (fun r => r =? c) rs) ++ x :: fst (word None r), snd (word None r))
  end.
Proof.
  induction rs as [|x rs IH]; [done|]. simpl. destruct (fst x =? c); simpl; [by destruct (word None rs)|].
  rewrite IH. destruct (break _ rs) as [a b]. simpl. by destruct b.
Qed.

Lemma word_app q rs : let '(w, st) := word q rs in
  match st with AtSpace x r => rs = w ++ x :: r /\ IsSpace (fst x) = true | AtEnd _ => rs = w end.
Proof.
  revert q. induction rs as [|x rs IH]; intros q; [done|]. simpl. destruct q as [c|].
  - specialize (IH (if fst x =? c then None else Some c)). destruct (word _ rs) as [w st]. destruct st; [|by f_equal].
    destruct IH as [-> ?]. done.
  - destruct (quote (fst x)); [|destruct (IsSpace (fst x)) eqn:E; [done|]].
    + specialize (IH (Some (fst x))). destruct (word _ rs) as [w st]. destruct st; [|by f_equal]. destruct IH as [-> ?]. done.
    + specialize (IH None). destruct (word _ rs) as [w st]. destruct st; [|by f_equal]. destruct IH as [-> ?]. done.
Qed.

Lemma Decodes_head p x rs : Decodes p (x :: rs) -> DecodeRune p = (fst x, length (snd x)) /\ Decodes (drop (length (snd x)) p) rs.
Proof.
  intros H. inversion H as [|p' r w rs' Hp E D]; subst. pose proof (DecodeRune_width p r w Hp E). simpl.
  rewrite length_take, Nat.min_l by lia. done.
Qed.

Lemma Decodes_quote p x rs : Decodes p (x :: rs) -> quote (fst x) = true -> length (snd x) = 1%nat.
Proof.
  intros H Q. inversion H as [|p' r w rs' Hp E D]; subst. simpl in *. unfold quote in Q.
  destruct (DecodeRune_ascii p r w r Hp E) as [A _]; [apply orb_true_iff in Q; rewrite !Z.eqb_eq in Q; lia|].
  by rewrite (A eq_refl).
Qed.

Lemma IsQuote_default r : IsQuote DefaultSplitter r = (if quote r then r else 32, quote r).
Proof. unfold quote. simpl. destruct (Z.eqb_spec r 34) as [->|]; [done|]. destruct (Z.eqb_spec r 39) as [->|]; done. Qed.

(** The loop stops where the word does. *)
Lemma split_loop_word fuel : forall data n rs, Decodes (drop n data) rs -> (n <= length data)%nat -> (length rs < fuel)%nat ->
  split_loop DefaultSplitter fuel data n =
    Some (match word None rs with
          | (w, AtSpace x _) => Closed (n + length (bytes_of w)) (length (snd x))
          | (_, AtEnd q) => Unterminated q
          end).
Proof.
  induction fuel as [|fuel IH]; intros data n rs D Hn Hf; [lia|]. cbn [split_loop].
  rewrite (proj2 (Nat.ltb_ge _ _)) by done. fold sq. rewrite (IndexFunc_runes _ _ _ D), word_break. unfold found.
  pose proof (break_app sq rs) as Eb. destruct (break sq rs) as [a b] eqn:Br. cbn [fst snd] in Eb |- *. destruct b as [|x r]; [done|]. rewrite Nat.add_0_l.
  rewrite Eb in D. pose proof (Decodes_drop _ a _ D) as Dx. rewrite drop_drop in Dx. set (k := length (bytes_of a)) in *.
  destruct (Decodes_head _ _ _ Dx) as [Ex Dr]. rewrite Ex, IsQuote_default. rewrite drop_drop in Dr.
  assert (Hx : sq (fst x) = true).
  { clear - Br. revert a Br. induction rs as [|y rs IH]; intros a Br; simpl in Br; [done|].
    destruct (sq (fst y)) eqn:E; [by injection Br as _ <- _|]. destruct (break sq rs) as [a' b'] eqn:B. injection Br as _ ->. by eapply IH. }
  rewrite sq_spec in Hx. destruct (quote (fst x)) eqn:Q.
  - pose proof (Decodes_quote _ _ _ Dx Q) as W1. assert (Hq : 0 <= fst x < 0x80).
    { unfold quote in Q. apply orb_true_iff in Q. rewrite !Z.eqb_eq in Q. lia. }
    unfold IndexRune, between. replace ((0 <=? fst x) && (fst x <=? 0x7F)) with true by lia.
    replace (n + (k + length (snd x)))%nat with (n + k + length (snd x))%nat by lia.
    rewrite (IndexByte_runes (fst x) _ r Hq Dr). unfold found. cbn [word]. rewrite Q, word_quoted.
    pose proof (break_app (fun z => z =? fst x) r) as Eb2. destruct (break (fun z => z =? fst x) r) as [a2 b2] eqn:Br2. cbn [fst snd] in Eb2 |- *.
    destruct b2 as [|y r2]; [done|]. rewrite Nat.add_0_l. rewrite Eb2 in Dr. pose proof (Decodes_drop _ a2 _ Dr) as Dy. rewrite drop_drop in Dy.
    assert (Hy : fst y = fst x).
    { clear - Br2. revert a2 Br2. induction r as [|z r IH]; intros a2 Br2; simpl in Br2; [done|].
      destruct (Z.eqb_spec (fst z) (fst x)) as [E|E]; [by injection Br2 as _ <- _|].
      destruct (break _ r) as [a' b'] eqn:B. injection Br2 as _ ->. by eapply IH. }
    pose proof (Decodes_quote _ _ _ Dy ltac:(by rewrite Hy)) as W2. destruct (Decodes_head _ _ _ Dy) as [_ Dr2]. rewrite drop_drop in Dr2.
    set (m := length (bytes_of a2)) in *.
    replace (n + k + length (snd x) + (m + length (snd x)))%nat with (n + k + length (snd x) + m + length (snd y))%nat by lia.
    rewrite (IH data _ r2 Dr2).
    + destruct (word None r2) as [w [z rz|q]]; simpl; [|done]. do 2 f_equal.
      rewrite bytes_of_app. change (x :: a2 ++ y :: w) with ((x :: a2) ++ (y :: w)). rewrite bytes_of_app.
      unfold bytes_of. simpl. rewrite !length_app. fold (bytes_of a2) (bytes_of a) (bytes_of w). lia.
    + pose proof (Decodes_bytes _ _ Dy) as Lb. apply (f_equal length) in Lb. rewrite length_drop in Lb.
      unfold bytes_of in Lb. simpl in Lb. rewrite length_app in Lb. lia.
    + rewrite Eb, Eb2, !length_app in Hf. simpl in Hf. rewrite length_app in Hf. simpl in Hf. lia.
  - cbn [word]. rewrite Q. destruct (IsSpace (fst x)); [|done]. simpl. rewrite app_nil_r. done.
Qed.

(** [SplitFunc] in terms of words. *)
Definition ref_split (data : list Z) (atEOF : bool) : nat * option (list Z) * option split_error :=
  let '(sp, rs) := break (isNotSpace DefaultSplitter) (runes data) in
  match rs with
  | [] => (length data, None, None)
  | _ =>
      match word None rs with
      | (w, AtSpace x _) => ((length (bytes_of sp) + length (bytes_of w) + length (snd x))%nat, Some (bytes_of w), None)
      | (_, AtEnd q) =>
          if negb atEOF then (length (bytes_of sp), None, None)
          else (length data, Some (bytes_of rs), if q then Some ErrOpenQuote else None)
      end
  end.

Lemma bytes_length rs p : Decodes p rs -> (length rs <= length p)%nat.
Proof.
  induction 1 as [|p r w rs Hp E D IH]; [done|]. pose proof (DecodeRune_width p r w Hp E). rewrite length_drop in IH. simpl. lia.
Qed.

Lemma SplitFunc_ref data atEOF : SplitFunc DefaultSplitter data atEOF = Some (ref_split data atEOF).
Proof.
  pose proof (runes_Decodes data) as D. unfold SplitFunc, ref_split. rewrite (IndexFunc_runes _ _ _ D). unfold found.
  pose proof (break_app (isNotSpace DefaultSplitter) (runes data)) as Eb.
  destruct (break _ (runes data)) as [sp rs]. cbn [fst snd] in Eb |- *. destruct rs as [|x rs]; [done|]. rewrite Nat.add_0_l.
  rewrite Eb in D. pose proof (Decodes_drop _ sp _ D) as Dr. set (n := length (bytes_of sp)) in *.
  rewrite (split_loop_word (S (length (drop n data))) (drop n data) 0 (x :: rs)).
  - pose proof (word_app None (x :: rs)) as Wa. pose proof (Decodes_bytes _ _ Dr) as Eb'.
    destruct (word None (x :: rs)) as [w [y r|q]].
    + destruct Wa as [Wa _]. do 4 f_equal. rewrite Nat.add_0_l, <- Eb', Wa, bytes_of_app. by apply take_app_length.
    + assert (Hl : (n + length (drop n data))%nat = length data).
      { pose proof (Decodes_bytes _ _ D) as L. apply (f_equal length) in L. rewrite bytes_of_app, length_app, Eb' in L. done. }
      rewrite Hl, Eb'. by destruct atEOF, q.
  - by rewrite drop_0.
  - lia.
  - pose proof (bytes_length _ _ Dr). lia.
Qed.

(** ** All words *)

(** One pass over the runes: the word so far and the quote it is in. *)
Fixpoint split_words (cur : list Z) (q : option Z) (rs : list rune) : list (list Z) * option split_error :=
  match rs with
  | [] => match q with
          | Some _ => ([], Some ErrOpenQuote)
          | None => (match cur with [] => [] | _ => [cur] end, None)
          end
  | x :: r =>
      match q with
      | Some c => split_words (cur ++ snd x) (if fst x =? c then None else Some c) r
      | None =>
          if quote (fst x) then split_words (cur ++ snd x) (Some (fst x)) r
          else if IsSpace (fst x) then
            match cur with
            | [] => split_words [] None r
            | _ => let '(ws, e) := split_words [] None r in (cur :: ws, e)
            end
          else split_words (cur ++ snd x) None r
      end
  end.

(** A word, behind the text [cur] of its beginning. *)
Lemma split_words_word rs : forall cur q,
  split_words cur q rs =
    match word q rs with
    | (w, AtSpace x r) =>
        match cur ++ bytes_of w with
        | [] => split_words [] None r
        | t => let '(ws, e) := split_words [] None r in (t :: ws, e)
        end
    | (w, AtEnd true) => ([], Some ErrOpenQuote)
    | (w, AtEnd false) => (match cur ++ bytes_of w with [] => [] | t => [t] end, None)
    end.
Proof.
  assert (B : forall cur x w, (cur ++ snd x) ++ bytes_of w = cur ++ bytes_of (x :: w)) by (intros; by rewrite <- app_assoc).
  induction rs as [|x rs IH]; intros cur q.
  - destruct q; [done|]. cbn [split_words word]. unfold bytes_of. simpl. rewrite app_nil_r. by destruct cur.
  - cbn [split_words word]. destruct q as [c|].
    + rewrite IH. destruct (word _ rs) as [w [y r|[|]]]; by rewrite ?B.
    + destruct (quote (fst x)); [rewrite IH; destruct (word _ rs) as [w [y r|[|]]]; by rewrite ?B|].
      destruct (IsSpace (fst x)); [simpl; rewrite app_nil_r; by destruct cur|].
      rewrite IH. destruct (word _ rs) as [w [y r|[|]]]; by rewrite ?B.
Qed.

Lemma split_words_skip rs : split_words [] None rs = split_words [] None (snd (break (isNotSpace DefaultSplitter) rs)).
Proof.
  induction rs as [|x rs IH]; [done|]. cbn [break]. unfold isNotSpace at 1. simpl is_space.
  destruct (IsSpace (fst x)) eqn:E; simpl negb.
  - cbn [split_words]. destruct (quote (fst x)) eqn:Q.
    { exfalso. unfold quote in Q. apply orb_true_iff in Q. rewrite !Z.eqb_eq in Q. destruct Q as [Q|Q]; rewrite Q in E; done. }
    rewrite E, IH. by destruct (break _ rs).
  - done.
Qed.

Lemma break_head f rs x r : snd (break f rs) = x :: r -> f (fst x) = true.
Proof.
  induction rs as [|y rs IH]; simpl; [done|]. destruct (f (fst y)) eqn:E; [by intros [= <- _]|]. destruct (break f rs). exact IH.
Qed.

Lemma word_nonempty x r p : Decodes p (x :: r) -> IsSpace (fst x) = false ->
  exists b t, bytes_of (fst (word None (x :: r))) = b :: t.
Proof.
  intros D E. pose proof (Decodes_rune_nonempty _ _ x D ltac:(constructor)) as L. cbn [word]. rewrite E.
  assert (G : forall w : list rune, exists b t, bytes_of (x :: w) = b :: t).
  { intros w. unfold bytes_of. simpl. destruct (snd x) as [|b t]; [simpl in L; lia|]. eexists _, _. reflexivity. }
  destruct (quote (fst x)); [destruct (word (Some (fst x)) r); apply G|]. destruct (word None r); apply G.
Qed.

(** What [SplitFunc] finds decides the words. *)
Lemma split_words_ref data :
  match ref_split data true with
  | (adv, Some t, None) => (0 < adv <= length data)%nat /\
      exists rest, Decodes (drop adv data) rest /\
        split_words [] None (runes data) = (t :: fst (split_words [] None rest), snd (split_words [] None rest))
  | (adv, _, Some e) => split_words [] None (runes data) = ([], Some e)
  | (adv, None, None) => split_words [] None (runes data) = ([], None)
  end /\
  match ref_split data false with
  | (adv, Some t, None) => ref_split data true = (adv, Some t, None)
  | (adv, None, None) => exists rest, Decodes (drop adv data) rest /\
      split_words [] None (runes data) = split_words [] None rest
  | (adv, _, Some _) => False
  end.
Proof.
  pose proof (runes_Decodes data) as D. rewrite split_words_skip. unfold ref_split.
  pose proof (break_app (isNotSpace DefaultSplitter) (runes data)) as Eb.
  pose proof (break_head (isNotSpace DefaultSplitter) (runes data)) as Hh.
  destruct (break _ (runes data)) as [sp rs]. cbn [fst snd] in *. destruct rs as [|x rs].
  { split; [done|]. exists []. rewrite drop_all. split; [constructor|done]. }
  specialize (Hh x rs eq_refl). unfold isNotSpace in Hh. apply negb_true_iff in Hh. simpl in Hh.
  rewrite Eb in D. pose proof (Decodes_drop _ sp _ D) as Dr. rewrite split_words_word.
  destruct (word_nonempty x rs _ Dr Hh) as (b & t & Ew). pose proof (word_app None (x :: rs)) as Wa.
  pose proof (Decodes_bytes _ _ D) as Lb. apply (f_equal length) in Lb. rewrite bytes_of_app, length_app in Lb.
  destruct (word None (x :: rs)) as [w [y r|q]] eqn:Ewd; cbn [fst negb] in *.
  - destruct Wa as [Wa Sy]. rewrite Wa in Dr, Lb. rewrite app_nil_l, Ew.
    pose proof (Decodes_drop _ w _ Dr) as Dy. destruct (Decodes_head _ _ _ Dy) as [_ Dz]. rewrite !drop_drop in Dz.
    split; [|done]. split.
    + change (bytes_of (w ++ y :: r)) with (bytes_of (w ++ [y] ++ r)) in Lb.
      rewrite !bytes_of_app, !length_app, Ew in Lb. unfold bytes_of at 2 in Lb. simpl in Lb |- *. rewrite app_nil_r in Lb. lia.
    + exists r. rewrite Ew, Nat.add_assoc in Dz. split; [done|]. by destruct (split_words [] None r).
  - split.
    + destruct q; [done|]. subst w. split; [rewrite Ew in Lb; simpl in Lb; lia|]. exists []. rewrite drop_all.
      split; [constructor|]. rewrite app_nil_l, Ew. done.
    + exists (x :: rs). split; [done|]. by rewrite split_words_word, Ewd.
Qed.

(** [SplitFunc] with the default splitter, on any bytes and at any stage of the
    scan: it skips white space and returns the first word as the reference
    defines it, quoted text included, and how far to advance; it asks for more
    where the word has no end yet, and at the end of the input it returns the
    rest, with [ErrOpenQuote] inside of a quote. It never slices out of range
    and its loop ends. *)
Theorem SplitFunc_spec data atEOF : SplitFunc DefaultSplitter data atEOF = Some (ref_split data atEOF).
Proof. exact (SplitFunc_ref data atEOF). Qed.
