(* ===== verification/Scanner.v ===== *)
(** * Command lines

    [src/eal/parse.go] on the scanner of package [bufio]: a buffer that grows from
    4096 to 65536 bytes, read from a string. The slice [buf[start:end]] is kept
    as the list of its bytes; a panic is [None]. The scanner sees its input in
    pieces that may end inside of a rune or of a word; the words are those of the
    whole input all the same. *)

From Stdlib Require Import ZArith Lia String.
From stdpp Require Import base list numbers option.
From S2P Require Import Prelude Text Split SplitSpec.

Open Scope Z_scope.

(** ** [bufio.Scanner] *)

Inductive scan_error := EOF | ErrTooLong | ErrAdvanceTooFar | SplitError (e : split_error).

Definition startBufSize : Z := 4096.
Definition MaxScanTokenSize : Z := 65536.

(** [len(buf)], [start], [buf[start:end]], what the reader has left, [err]. *)
Record Scanner := mkScanner { buf_size : Z; start : Z; data : list Z; unread : list Z; scan_err : option scan_error }.

Definition len (l : list Z) : Z := Z.of_nat (length l).
Definition NewScanner (input : list Z) : Scanner := mkScanner 0 0 [] input None.

(** The first error stays, unless it is the end of the input. *)
Definition setErr (e : scan_error) (s : Scanner) : Scanner :=
  mkScanner (buf_size s) (start s) (data s) (unread s) (match scan_err s with None | Some EOF => Some e | _ => scan_err s end).

(** The space made in front: the data goes to the start of the buffer when the
    space is needed or there is much of it. *)
Definition shift (s : Scanner) : Scanner :=
  if (0 <? start s) && ((start s + len (data s) =? buf_size s) || (buf_size s / 2 <? start s))
  then mkScanner (buf_size s) 0 (data s) (unread s) (scan_err s) else s.

(** A larger buffer for a full one, if there may be one. *)
Definition grow (s : Scanner) : option Scanner :=
  if start s + len (data s) =? buf_size s then
    if MaxScanTokenSize <=? buf_size s then None
    else
      let size := if buf_size s * 2 =? 0 then startBufSize else buf_size s * 2 in
      Some (mkScanner (Z.min size MaxScanTokenSize) 0 (data s) (unread s) (scan_err s))
  else Some s.

(** [strings.Reader.Read] into the room of the buffer. *)
Definition read (s : Scanner) : Scanner :=
  match unread s with
  | [] => setErr EOF s
  | _ =>
      let n := Z.to_nat (buf_size s - (start s + len (data s))) in
      mkScanner (buf_size s) (start s) (data s ++ take n (unread s)) (drop n (unread s)) (scan_err s)
  end.

(** When there is no token in the data: the end of the scan, or more data. *)
Definition refill (s : Scanner) : Scanner + Scanner :=
  match scan_err s with
  | Some _ => inl (mkScanner (buf_size s) 0 [] (unread s) (scan_err s))
  | None =>
      match grow (shift s) with
      | None => inl (setErr ErrTooLong (shift s))
      | Some s => inr (read s)
      end
  end.

(** [start += n], for [n] within the data. *)
Definition advance (n : nat) (s : Scanner) : Scanner :=
  mkScanner (buf_size s) (start s + Z.of_nat n) (drop n (data s)) (unread s) (scan_err s).

Section Scan.
Variable split : list Z -> bool -> option (nat * option (list Z) * option split_error).

(** [Scan]: the token, or [None] for false. A split function that gives tokens
    for ever without moving on is beyond the fuel of [scan_all]. *)
Fixpoint Scan (fuel : nat) (s : Scanner) : option (option (list Z) * Scanner) :=
  match fuel with
  | O => None
  | S fuel =>
      let more (s : Scanner) := match refill s with inl s => Some (None, s) | inr s => Scan fuel s end in
      match data s, scan_err s with
      | [], None => more s
      | _, _ =>
          match split (data s) (bool_decide (is_Some (scan_err s))) with
          | None => None
          | Some (_, _, Some e) => Some (None, setErr (SplitError e) s)
          | Some (n, token, None) =>
              if (length (data s) <? n)%nat then Some (None, setErr ErrAdvanceTooFar s)
              else match token with
                   | Some t => Some (Some t, advance n s)
                   | None => more (advance n s)
                   end
          end
      end
  end.

(** [for s.Scan() { argv = append(argv, s.Text()) }], then [s.Err()]. *)
Fixpoint scan_all (fuel : nat) (s : Scanner) : option (list (list Z) * option scan_error) :=
  match fuel with
  | O => None
  | S fuel =>
      match Scan (length (unread s) + 3) s with
      | None => None
      | Some (None, s) => Some ([], match scan_err s with Some EOF => None | e => e end)
      | Some (Some t, s) =>
          match scan_all fuel s with
          | None => None
          | Some (ts, e) => Some (t :: ts, e)
          end
      end
  end.
End Scan.

(** ** The command line of the EAL *)

(* go: eal/parse.go parseCmd *)
Definition parseCmd (input : list Z) : option (list (list Z) * option scan_error) :=
  scan_all (SplitFunc DefaultSplitter) (length input + 1) (NewScanner input).

(** What [Init] returns for the words, or [0] and the error. *)
(* go: eal/parse.go InitCmd *)
Definition InitCmd {E} (Init : list (list Z) -> Z * option E) (input : list Z) : option (Z * option (E + scan_error)) :=
  match parseCmd input with
  | None => None
  | Some (_, Some e) => Some (0, Some (inr e))
  | Some (argv, None) => let '(n, e) := Init argv in Some (n, inl <$> e)
  end.

Example parseCmd_quotes :
  parseCmd (str "app  -l '0, 1' --vdev=x") = Some ([str "app"; str "-l"; str "'0, 1'"; str "--vdev=x"], None).
Proof. vm_compute. reflexivity. Qed.

Example parseCmd_open : parseCmd (str "a 'b c") = Some ([str "a"], Some (SplitError ErrOpenQuote)).
Proof. vm_compute. reflexivity. Qed.

(** * Theorems *)

(** ** Runes of a piece

    The runes of the first [m] bytes are runes of the whole, and then invalid
    bytes where one is cut. *)

Definition invalid (x : rune) : Prop := fst x = RuneError /\ length (snd x) = 1%nat.

Definition continuation (b : Z) : Prop := 0x80 <= b <= 0xBF.

Lemma DecodeRune_continuation b p : continuation b -> DecodeRune (b :: p) = (RuneError, 1%nat).
Proof.
  intros [L H]. unfold DecodeRune, between. rewrite (proj2 (Z.ltb_ge _ _)) by lia.
  by rewrite !(proj2 (Z.leb_gt _ b)) by lia.
Qed.

(** Behind the first byte of a rune are continuation bytes. *)
Lemma DecodeRune_tail p r w : DecodeRune p = (r, w) -> Forall continuation (drop 1 (take w p)).
Proof.
  unfold DecodeRune, between. intros D.
  repeat match type of D with
         | context [if ?c then _ else _] => destruct c eqn:?
         | context [match ?l with [] => _ | _ :: _ => _ end] => destruct l
         end; injection D as <- <-; cbn [take drop]; try constructor; rewrite ?andb_true_iff, ?Z.leb_le in *;
    repeat match goal with H : _ /\ _ |- _ => destruct H end; repeat constructor; unfold continuation; repeat case_match; lia.
Qed.

(** A whole rune is read alike in a piece; of a longer one the first byte is
    invalid. *)
Lemma DecodeRune_take p r w m : p <> [] -> (0 < m)%nat -> DecodeRune p = (r, w) ->
  DecodeRune (take m p) = if decide (w <= m)%nat then (r, w) else (RuneError, 1%nat).
Proof.
  intros Hp Hm D. destruct p as [|b0 p]; [done|]. destruct m as [|m]; [lia|]. cbn [take].
  unfold DecodeRune in *. destruct (b0 <? 0x80); [injection D as <- <-; by rewrite decide_True by lia|].
  destruct (between 0xC2 0xDF b0); [|destruct (between 0xE0 0xEF b0); [|destruct (between 0xF0 0xF4 b0)]].
  - destruct p as [|b1 p], m as [|m]; cbn [take]; try (injection D as <- <-; by rewrite decide_True by lia).
    + destruct (between 0x80 0xBF b1); injection D as <- <-; [by rewrite decide_False by lia|by rewrite decide_True by lia].
    + destruct (between 0x80 0xBF b1); injection D as <- <-; by rewrite decide_True by lia.
  - destruct p as [|b1 [|b2 p]], m as [|[|m]]; cbn [take]; try (injection D as <- <-; by rewrite decide_True by lia);
      destruct (_ && _); injection D as <- <-; first [by rewrite decide_False by lia|by rewrite decide_True by lia].
  - destruct p as [|b1 [|b2 [|b3 p]]], m as [|[|[|m]]]; cbn [take]; try (injection D as <- <-; by rewrite decide_True by lia);
      destruct (_ && _); injection D as <- <-; first [by rewrite decide_False by lia|by rewrite decide_True by lia].
  - injection D as <- <-. by rewrite decide_True by lia.
Qed.

Lemma continuation_runes p : Forall continuation p -> exists errs, Decodes p errs /\ Forall invalid errs /\ length errs = length p.
Proof.
  induction 1 as [|b p Hb _ (errs & D & F & L)]; [exists []; by repeat constructor|].
  exists ((RuneError, [b]) :: errs). split_and!; [|by constructor|simpl; by rewrite L].
  apply (D_cons (b :: p) RuneError 1 errs); [done|by apply DecodeRune_continuation|done].
Qed.

(** The runes of a piece. *)
Lemma runes_take p rs m : Decodes p rs -> exists pre post errs,
  rs = pre ++ post /\ Decodes (take m p) (pre ++ errs) /\ Forall invalid errs /\ (length errs <= 3)%nat /\
  match post with
  | [] => errs = []
  | x :: _ => (m < length (bytes_of pre) + length (snd x))%nat
  end.
Proof.
  intros D. revert m. induction D as [|p r w rs Hp E D IH]; intros m.
  - exists [], [], []. rewrite take_nil. split_and!; [done|constructor|constructor|simpl; lia|done].
  - pose proof (DecodeRune_width p r w Hp E) as W. destruct m as [|m'].
    { exists [], ((r, take w p) :: rs), []. cbn [take app]. split_and!; [done|constructor|constructor|simpl; lia|].
      unfold bytes_of. simpl. rewrite length_take. lia. }
    set (m := S m') in *. pose proof (DecodeRune_take p r w m Hp ltac:(lia) E) as T.
    assert (Tn : take m p <> []) by (destruct p; [done|by unfold m]).
    destruct (decide (w <= m)%nat) as [Le|Gt].
    + destruct (IH (m - w)%nat) as (pre & post & errs & -> & Dp & F & Le3 & Po).
      exists ((r, take w p) :: pre), post, errs. split_and!; [done| |done|done|].
      * replace (take w p) with (take w (take m p)) by (rewrite take_take; f_equal; lia).
        apply (D_cons _ r w); [done|done|]. by rewrite skipn_firstn_comm.
      * destruct post as [|x post]; [done|]. unfold bytes_of in *. simpl. rewrite length_app, length_take. lia.
    + pose proof (DecodeRune_tail p r w E) as Ct.
      assert (Cm : Forall continuation (drop 1 (take m p))).
      { assert (Em : drop 1 (take m p) = take (m - 1) (drop 1 (take w p))).
        { rewrite !skipn_firstn_comm, take_take. f_equal. lia. }
        rewrite Em. by apply Forall_take. }
      destruct (continuation_runes _ Cm) as (errs & De & Fe & Le). exists [], ((r, take w p) :: rs), ((RuneError, take 1 (take m p)) :: errs).
      assert (w <= 4)%nat.
      { clear -E. unfold DecodeRune in E. repeat case_match; simplify_eq; lia. }
      split_and!; [done|by apply (D_cons _ RuneError 1)| |simpl; rewrite Le, length_drop, length_take; lia|].
      * constructor; [|done]. split; [done|]. cbn [snd]. rewrite !length_take. lia.
      * unfold bytes_of. simpl. rewrite length_take. lia.
Qed.

(** ** Words of a piece *)

Lemma invalid_plain x : invalid x -> quote (fst x) = false /\ IsSpace (fst x) = false.
Proof. by intros [-> _]. Qed.

(** A word that ends at a space has ended, whatever follows; in a word that has
    not, invalid bytes do not end it. *)
Lemma word_more q rs t : match word q rs with (w, AtSpace x r) => word q (rs ++ t) = (w, AtSpace x (r ++ t)) | (_, AtEnd _) => True end.
Proof.
  revert q. induction rs as [|x rs IH]; intros q; [by destruct q|]. cbn [word app]. destruct q as [c|].
  - specialize (IH (if fst x =? c then None else Some c)). destruct (word _ rs) as [w [y r|b]]; [by rewrite IH|done].
  - destruct (quote (fst x)); [|destruct (IsSpace (fst x)); [done|]].
    + specialize (IH (Some (fst x))). destruct (word _ rs) as [w [y r|b]]; [by rewrite IH|done].
    + specialize (IH None). destruct (word _ rs) as [w [y r|b]]; [by rewrite IH|done].
Qed.

Lemma word_invalid q rs errs w b : Forall invalid errs -> word q rs = (w, AtEnd b) -> exists b', word q (rs ++ errs) = (rs ++ errs, AtEnd b').
Proof.
  intros F. revert q w b. induction rs as [|x rs IH]; intros q w b; cbn [word app].
  - intros _. clear -F. revert q. induction F as [|e errs He _ IH]; intros q; cbn [word]; [by eexists|].
    destruct q as [c|].
    + destruct (IH (if fst e =? c then None else Some c)) as [b' ->]. by eexists.
    + destruct (invalid_plain e He) as [-> ->]. destruct (IH None) as [b' ->]. by eexists.
  - destruct q as [c|].
    + destruct (word _ rs) as [w' st] eqn:E. intros [= _ ->]. destruct (IH _ _ _ E) as [b' ->]. by eexists.
    + destruct (quote (fst x)); [|destruct (IsSpace (fst x)); [done|]]; destruct (word _ rs) as [w' st] eqn:E; intros [= _ ->];
        destruct (IH _ _ _ E) as [b' ->]; by eexists.
Qed.

(** A word that goes on behind a piece is longer than the whole runes of it. *)
Lemma word_beyond q pre post w x r w' b : word q pre = (w', AtEnd b) -> word q (pre ++ post) = (w, AtSpace x r) ->
  exists w2, w = pre ++ w2 /\ post = w2 ++ x :: r.
Proof.
  revert q w w' b. induction pre as [|y pre IH]; intros q w w' b; cbn [word app].
  - intros _ E. exists w. split; [done|]. pose proof (word_app q post) as A. rewrite E in A. by destruct A.
  - destruct q as [c|].
    + destruct (word _ pre) as [w1 st] eqn:E1. intros [= _ ->]. destruct (word _ (pre ++ post)) as [w2 st2] eqn:E2. intros [= <- ->].
      destruct (IH _ _ _ _ E1 E2) as (w3 & -> & ->). by exists w3.
    + destruct (quote (fst y)); [|destruct (IsSpace (fst y)); [done|]]; destruct (word _ pre) as [w1 st] eqn:E1; intros [= _ ->];
        destruct (word _ (pre ++ post)) as [w2 st2] eqn:E2; intros [= <- ->]; destruct (IH _ _ _ _ E1 E2) as (w3 & -> & ->); by exists w3.
Qed.

(** ** One step of the scan *)

Abbreviation not_space := (isNotSpace DefaultSplitter).
(** The runes behind the white space in front. *)
Definition core (rs : list rune) : list rune := snd (break not_space rs).

Lemma break_more f l1 l2 : break f (l1 ++ l2) =
  match break f l1 with (a, []) => let '(b, c) := break f l2 in (l1 ++ b, c) | (a, x :: r) => (a, (x :: r) ++ l2) end.
Proof.
  induction l1 as [|x l1 IH]; cbn [break app]; [by destruct (break f l2)|]. destruct (f (fst x)); [done|]. rewrite IH.
  destruct (break f l1) as [a [|y r]]; [by destruct (break f l2)|done].
Qed.

Lemma core_all l1 l2 a : break not_space l1 = (a, []) -> core (l1 ++ l2) = core l2.
Proof. intros E. unfold core. rewrite break_more, E. by destruct (break not_space l2). Qed.

Lemma core_head x r : IsSpace (fst x) = false -> core (x :: r) = x :: r.
Proof. intros E. unfold core. cbn [break]. unfold isNotSpace. simpl is_space. by rewrite E. Qed.

Lemma bytes_of_cons x l : length (bytes_of (x :: l)) = (length (snd x) + length (bytes_of l))%nat.
Proof. unfold bytes_of. simpl. by rewrite length_app. Qed.

Lemma invalid_bytes errs : Forall invalid errs -> length (bytes_of errs) = length errs.
Proof. induction 1 as [|e errs [_ L] _ IH]; [done|]. rewrite bytes_of_cons. simpl. lia. Qed.

(** What the split function finds in a piece of [p], in terms of [p]. *)
Lemma split_piece p rs m n tok e : Decodes p rs -> (m <= length p)%nat -> ref_split (take m p) false = (n, tok, e) ->
  e = None /\ (n <= m)%nat /\
  match tok with
  | Some t => exists w x r, word None (core rs) = (w, AtSpace x r) /\ t = bytes_of w /\ Decodes (drop n p) r /\
      (length (bytes_of w) + length (snd x) <= m)%nat /\ (0 < n)%nat
  | None => exists rs', Decodes (drop n p) rs' /\ core rs' = core rs /\
      ((4 <= m - n)%nat -> rs' = core rs /\ match word None rs' with (w, AtSpace x _) => (m - n < length (bytes_of w) + length (snd x))%nat | (_, AtEnd _) => True end)
  end.
Proof.
  intros D Hm. destruct (runes_take p rs m D) as (pre & post & errs & -> & Dm & Fe & L3 & Po). unfold ref_split.
  rewrite (Decodes_fun _ _ _ (runes_Decodes _) Dm). rewrite break_more. rewrite length_take, Nat.min_l by done.
  pose proof (Decodes_bytes _ _ Dm) as Lm. apply (f_equal length) in Lm. rewrite bytes_of_app, length_app, length_take, (invalid_bytes _ Fe), Nat.min_l in Lm by done.
  pose proof (break_app not_space pre) as Ep. pose proof (break_head not_space pre) as Hh. destruct (break not_space pre) as [a [|y pre']] eqn:Eb; cbn [fst snd] in *.
  - rewrite (core_all _ post a Eb). pose proof (Decodes_drop _ _ _ D) as Dp. destruct errs as [|er errs].
    + cbn [break]. intros [= <- <- <-]. split_and!; [done|done|]. exists post. cbn [length] in Lm. rewrite Nat.add_0_r in Lm. rewrite Lm in Dp.
      split_and!; [done|done|lia].
    + assert (Es : IsSpace (fst er) = false) by (by apply invalid_plain; inversion Fe).
      assert (break not_space (er :: errs) = ([], er :: errs)) as -> by (cbn [break]; unfold isNotSpace; simpl is_space; by rewrite Es).
      destruct (word_invalid None [] (er :: errs) [] false Fe eq_refl) as [b' W]. cbn [app] in W. rewrite W. cbn [negb]. rewrite app_nil_r.
      intros [= <- <- <-]. split_and!; [done|lia|]. exists post. split_and!; [done|done|]. simpl in *. lia.
  - assert (Hy : IsSpace (fst y) = false) by (specialize (Hh y pre' eq_refl); unfold isNotSpace in Hh; simpl in Hh; by apply negb_true_iff).
    assert (Ec : core (pre ++ post) = (y :: pre') ++ post) by (unfold core; by rewrite break_more, Eb).
    rewrite Ec. rewrite Ep, <- app_assoc in D. rewrite Ep, bytes_of_app, length_app in Lm.
    destruct (word None (y :: pre')) as [w [x r|b]] eqn:W; cbn [app].
    + pose proof (word_more None (y :: pre') errs) as M1. pose proof (word_more None (y :: pre') post) as M2. rewrite W in M1, M2. cbn [app] in M1, M2.
      rewrite M1, M2. intros [= <- <- <-]. pose proof (word_app None (y :: pre')) as Wa. rewrite W in Wa. destruct Wa as [Wa _].
      pose proof (Decodes_drop _ a _ D) as Da. rewrite Wa, <- app_assoc in Da. pose proof (Decodes_drop _ w _ Da) as Dw.
      destruct (Decodes_head _ x (r ++ post) Dw) as [_ Dr]. rewrite !drop_drop, Nat.add_assoc in Dr.
      assert (Lx : (0 < length (snd x))%nat) by (apply (Decodes_rune_nonempty _ _ x Dw); constructor).
      rewrite Wa, bytes_of_app, length_app, bytes_of_cons in Lm. split_and!; [done|lia|]. exists w, x, (r ++ post). split_and!; [done|done|exact Dr|lia|lia].
    + destruct (word_invalid None (y :: pre') errs w b Fe W) as [b' W']. cbn [app] in W'. rewrite W'. cbn [negb]. intros [= <- <- <-].
      pose proof (Decodes_drop _ a _ D) as Da. split_and!; [done|lia|]. exists ((y :: pre') ++ post). cbn [app]. split_and!; [done|by apply core_head|].
      intros _. split; [done|]. destruct (word None (y :: pre' ++ post)) as [w0 [x r|b0]] eqn:W0; [|done].
      destruct (word_beyond None (y :: pre') post w0 x r w b W W0) as (w2 & -> & ->). rewrite bytes_of_app, length_app.
      rewrite Ep, bytes_of_app, length_app in Po. destruct w2 as [|z w2]; cbn [app] in Po; [change (bytes_of []) with (@nil Z); cbn [length]; lia|]. rewrite (bytes_of_cons z). lia.
Qed.

(** The first word of some runes without white space in front, for a buffer of
    [MaxScanTokenSize] bytes: a word and its space have to fit in it, and at the
    end of the input there has to be room to find that out. *)
Definition next_word (rs : list rune) : (list Z * list rune) + option scan_error :=
  match rs with
  | [] => inr None
  | _ =>
      match word None rs with
      | (w, AtSpace x r) => if len (bytes_of w) + len (snd x) <=? MaxScanTokenSize then inl (bytes_of w, r) else inr (Some ErrTooLong)
      | (w, AtEnd q) =>
          if len (bytes_of w) <? MaxScanTokenSize then if q then inr (Some (SplitError ErrOpenQuote)) else inl (bytes_of w, [])
          else inr (Some ErrTooLong)
      end
  end.

(** The states of the scanner between its steps. *)
Record scanning (s : Scanner) : Prop := {
  sc_start : 0 <= start s;
  sc_end : start s + len (data s) <= buf_size s;
  sc_max : buf_size s <= MaxScanTokenSize;
  sc_err : match scan_err s with None => True | Some EOF => unread s = [] /\ len (data s) < MaxScanTokenSize | _ => False end
}.

(** What is left of the input. *)
Definition remaining (s : Scanner) : list Z := data s ++ unread s.
(** The error of [Scanner.Err]. *)
Definition Err (s : Scanner) : option scan_error := match scan_err s with Some EOF => None | e => e end.
(** The steps left before a token or the end. *)
Definition steps_left (s : Scanner) : nat := match scan_err s with None => length (unread s) + 2 | Some _ => 1 end.

Lemma scanning_advance n s : scanning s -> (n <= length (data s))%nat -> scanning (advance n s).
Proof.
  intros [S1 S2 S3 S4] Hn. unfold len in *. split; unfold advance, len; cbn [start data buf_size scan_err unread]; rewrite ?length_drop; [lia..|].
  destruct (scan_err s) as [[]|]; try done. destruct S4. split; [done|]. lia.
Qed.

Lemma remaining_advance n s : (n <= length (data s))%nat -> remaining (advance n s) = drop n (remaining s).
Proof. intros H. unfold remaining, advance. cbn. by rewrite drop_app_le. Qed.

Lemma read_more s : scanning s -> scan_err s = None -> start s + len (data s) < buf_size s ->
  scanning (read s) /\ remaining (read s) = remaining s /\ (steps_left (read s) < steps_left s)%nat.
Proof.
  intros [S1 S2 S3 _] E L. unfold read, steps_left. destruct (unread s) as [|b u] eqn:U.
  - unfold setErr, remaining. rewrite E, U. cbn. split; [|split; [done|lia]]. split; cbn; [done..|]. split; [done|]. unfold len in *. lia.
  - cbn [scan_err]. rewrite E. set (n := Z.to_nat (buf_size s - (start s + len (data s)))). split; [|split].
    + split; cbn [start data buf_size scan_err]; [done| |done|done]. unfold len in *. rewrite length_app, length_take. lia.
    + unfold remaining. cbn [data unread]. rewrite U, <- app_assoc. by rewrite take_drop.
    + cbn [unread]. rewrite length_drop. unfold len in *. cbn [length]. lia.
Qed.

(** Asking for more: either the buffer is full, or there is more, or the end of
    the input is known. *)
Lemma refill_more s : scanning s -> scan_err s = None ->
  (refill s = inl (setErr ErrTooLong s) /\ len (data s) = MaxScanTokenSize) \/
  (exists s', refill s = inr s' /\ scanning s' /\ remaining s' = remaining s /\ (steps_left s' < steps_left s)%nat).
Proof.
  intros [S1 S2 S3 _] E. destruct s as [B st dt u er]. cbn [buf_size start data unread scan_err] in *. subst er. unfold refill. cbn [scan_err].
  assert (Sh : exists st', 0 <= st' /\ st' + len dt <= B /\ shift (mkScanner B st dt u None) = mkScanner B st' dt u None /\
    (st' + len dt = B -> st' = 0 /\ st = 0)).
  { unfold shift, len in *. cbn [buf_size start data unread scan_err]. destruct (Z.ltb_spec 0 st); cbn [andb]; [|exists st; split_and!; done || lia].
    destruct (_ || _) eqn:Q; [exists 0; split_and!; [lia|lia|done|lia]|]. apply orb_false_iff in Q as [Q _]. apply Z.eqb_neq in Q.
    exists st. split_and!; done || lia. }
  destruct Sh as (st' & T1 & T2 & -> & T3). unfold grow. cbn [buf_size start data unread scan_err].
  assert (More : forall B' st', 0 <= st' -> st' + len dt < B' -> B' <= MaxScanTokenSize -> exists s', read (mkScanner B' st' dt u None) = s' /\ scanning s' /\
    remaining s' = dt ++ u /\ (steps_left s' < length u + 2)%nat).
  { intros B' q Q1 Q2 Q3. eexists. split; [reflexivity|]. apply (read_more (mkScanner B' q dt u None)); [|done|done]. split; cbn; (done || lia). }
  destruct (Z.eqb_spec (st' + len dt) B) as [F|F].
  - destruct (Z.leb_spec MaxScanTokenSize B) as [M|M].
    + destruct (T3 F) as [-> ->]. left. split; [done|]. lia.
    + right. destruct (More (Z.min (if B * 2 =? 0 then startBufSize else B * 2) MaxScanTokenSize) 0) as (s' & <- & H); [lia| |lia|by eexists].
      destruct (T3 F) as [-> ->]. unfold startBufSize, MaxScanTokenSize, len in *. case_match; lia.
  - right. destruct (More B st') as (s' & <- & H); [done|lia|done|by eexists].
Qed.

(** What [Scan] does with the runes [rs] left: the next word, or the end. *)
Definition scanned (s : Scanner) (rs : list rune) (res : option (option (list Z) * Scanner)) : Prop :=
  exists r s', res = Some (r, s') /\
    match next_word (core rs) with
    | inl (t, rs') => r = Some t /\ scanning s' /\ Decodes (remaining s') rs' /\ (length (remaining s') < length (remaining s))%nat
    | inr e => r = None /\ Err s' = e
    end.

(** At the known end of the input. *)
Lemma scanned_eof fuel s rs : scanning s -> scan_err s = Some EOF -> Decodes (remaining s) rs ->
  scanned s rs (Scan (SplitFunc DefaultSplitter) (S fuel) s).
Proof.
  intros I E D. pose proof (sc_err s I) as X. rewrite E in X. destruct X as [U Lm].
  assert (Rm : remaining s = data s) by (unfold remaining; by rewrite U, app_nil_r). unfold scanned. rewrite Rm in *. cbn [Scan].
  replace (match data s with [] => _ | _ => _ end) with
    (match SplitFunc DefaultSplitter (data s) true with
     | None => None
     | Some (_, _, Some e) => Some (None, setErr (SplitError e) s)
     | Some (n, token, None) =>
         if (length (data s) <? n)%nat then Some (None, setErr ErrAdvanceTooFar s)
         else match token with
              | Some t => Some (Some t, advance n s)
              | None => match refill (advance n s) with inl s => Some (None, s) | inr s => Scan (SplitFunc DefaultSplitter) fuel s end
              end
     end) by (rewrite E; by destruct (data s)).
  rewrite SplitFunc_ref. unfold ref_split. rewrite (Decodes_fun _ _ _ (runes_Decodes _) D). unfold core.
  pose proof (break_app not_space rs) as Eb. destruct (break not_space rs) as [sp [|x r]]; cbn [fst snd] in *.
  { rewrite (proj2 (Nat.ltb_ge _ _)) by done. unfold refill, advance. cbn [scan_err]. rewrite E. by eexists _, _. }
  pose proof (word_app None (x :: r)) as Wa. rewrite Eb in D. pose proof (Decodes_drop _ sp _ D) as Dr.
  pose proof (Decodes_bytes _ _ D) as Lb. apply (f_equal length) in Lb. rewrite bytes_of_app, length_app in Lb.
  pose proof (Decodes_rune_nonempty _ _ x Dr ltac:(constructor)) as Nx. unfold next_word.
  destruct (word None (x :: r)) as [w [y r'|q]] eqn:W.
  - destruct Wa as [Wa _]. rewrite Wa in Dr, Lb. pose proof (Decodes_drop _ w _ Dr) as Dy. destruct (Decodes_head _ _ _ Dy) as [_ Dz].
    rewrite !drop_drop, Nat.add_assoc in Dz. rewrite bytes_of_app, length_app, bytes_of_cons in Lb.
    pose proof (Decodes_rune_nonempty _ _ y Dy ltac:(constructor)) as Ny.
    rewrite (proj2 (Nat.ltb_ge _ _)) by lia. unfold len in *. rewrite (proj2 (Z.leb_le _ _)) by lia. eexists _, _. split; [done|].
    split; [done|]. split; [apply scanning_advance; [done|lia]|]. rewrite remaining_advance by lia. rewrite Rm. split; [done|]. rewrite length_drop. lia.
  - subst w. cbn [negb]. unfold len in *. rewrite (proj2 (Z.ltb_lt _ _)) by lia. destruct q.
    + eexists _, _. split; [done|]. split; [done|]. unfold Err, setErr. cbn. by rewrite E.
    + rewrite (proj2 (Nat.ltb_ge _ _)) by done. eexists _, _. split; [done|]. split; [done|].
      split; [by apply scanning_advance|]. rewrite remaining_advance by done. rewrite Rm, drop_all. split; [constructor|]. rewrite bytes_of_cons in Lb. simpl. lia.
Qed.

(** A full buffer without a word in it has a word too long for any. *)
Lemma too_long k p rs : Decodes p rs -> Z.of_nat k = MaxScanTokenSize -> (k <= length p)%nat ->
  match word None rs with (w, AtSpace x _) => (k < length (bytes_of w) + length (snd x))%nat | (_, AtEnd _) => True end ->
  next_word rs = inr (Some ErrTooLong).
Proof.
  intros D K L W. pose proof (Decodes_bytes _ _ D) as Lb. apply (f_equal length) in Lb. unfold next_word, len, MaxScanTokenSize in *.
  destruct rs as [|y rs]; [simpl in Lb; lia|]. pose proof (word_app None (y :: rs)) as Wa. destruct (word None (y :: rs)) as [w [x r|q]].
  - by rewrite (proj2 (Z.leb_gt _ _)) by lia.
  - subst w. by rewrite (proj2 (Z.ltb_ge _ _)) by lia.
Qed.

(** [Scan] finds the next word of what is left, in however many pieces it was
    read. *)
Lemma Scan_next fuel : forall s rs, scanning s -> Decodes (remaining s) rs -> (steps_left s <= fuel)%nat ->
  scanned s rs (Scan (SplitFunc DefaultSplitter) fuel s).
Proof.
  induction fuel as [|fuel IH]; intros s rs I D F; [unfold steps_left in F; destruct (scan_err s); lia|].
  destruct (scan_err s) as [e|] eqn:E.
  { pose proof (sc_err s I) as X. rewrite E in X. destruct e; try done. by apply scanned_eof. }
  cbn [Scan]. rewrite E.
  assert (More : forall s1 rs1, scanning s1 -> scan_err s1 = None -> Decodes (remaining s1) rs1 -> core rs1 = core rs ->
      (steps_left s1 <= S fuel)%nat -> (length (remaining s1) <= length (remaining s))%nat ->
      (len (data s1) = MaxScanTokenSize -> next_word (core rs1) = inr (Some ErrTooLong)) ->
      scanned s rs (match refill s1 with inl s => Some (None, s) | inr s => Scan (SplitFunc DefaultSplitter) fuel s end)).
  { intros s1 rs1 I1 E1 D1 C1 F1 L1 T1. unfold scanned. rewrite <- C1. destruct (refill_more s1 I1 E1) as [[-> T]|(s2 & -> & I2 & R2 & F2)].
    - eexists _, _. split; [done|]. rewrite (T1 T). split; [done|]. unfold Err, setErr. cbn. by rewrite E1.
    - rewrite <- R2 in D1. destruct (IH s2 rs1 I2 D1) as (r & s' & E' & N); [lia|]. exists r, s'. split; [done|]. rewrite <- R2 in L1.
      destruct (next_word (core rs1)) as [[t rs']|e]; [|done]. destruct N as (? & ? & ? & ?). split_and!; [done|done|done|lia]. }
  destruct (data s) as [|b l] eqn:Ed; [apply (More s rs); [done..|]; by rewrite Ed|]. rewrite <- Ed in *.
  rewrite bool_decide_false by (by intros [? [=]]). rewrite SplitFunc_ref. set (m := length (data s)).
  assert (Tk : take m (remaining s) = data s) by (by apply take_app_length).
  assert (Hm : (m <= length (remaining s))%nat) by (unfold remaining; rewrite length_app; lia).
  destruct (ref_split (data s) false) as [[n tok] e] eqn:R. rewrite <- Tk in R.
  destruct (split_piece (remaining s) rs m n tok e D Hm R) as (-> & Hn & P). rewrite (proj2 (Nat.ltb_ge _ _)) by done. destruct tok as [t|].
  - destruct P as (w & x & r & W & -> & Dn & Lw & N0). pose proof (sc_end s I). pose proof (sc_start s I). pose proof (sc_max s I). unfold scanned, next_word.
    destruct (core rs) as [|y rs'] eqn:C; [done|]. rewrite W. unfold len in *. rewrite (proj2 (Z.leb_le _ _)) by lia.
    eexists _, _. split; [done|]. split; [done|]. split; [by apply scanning_advance|]. rewrite remaining_advance by done. split; [done|]. rewrite length_drop. lia.
  - destruct P as (rs' & Dn & C & T). apply (More (advance n s) rs'); rewrite ?remaining_advance by done; try done.
    + by apply scanning_advance.
    + rewrite length_drop. lia.
    + unfold advance, len. cbn [data]. rewrite length_drop. fold m. unfold MaxScanTokenSize. intros T1. destruct T as [Er T]; [lia|].
      rewrite C, <- Er. apply (too_long (m - n) _ _ Dn); [unfold MaxScanTokenSize; lia| |done]. rewrite length_drop. lia.
Qed.

(** ** All words *)

(** A word [t] at a space of [x] bytes, with the words behind it, and at the end
    of the input, inside of a quote or not. *)
Definition cut_word (t x : list Z) (rest : list (list Z) * option scan_error) : list (list Z) * option scan_error :=
  match t with
  | [] => rest
  | _ => if len t + len x <=? MaxScanTokenSize then (t :: fst rest, snd rest) else ([], Some ErrTooLong)
  end.
Definition end_word (t : list Z) (quoted : bool) : list (list Z) * option scan_error :=
  match t, quoted with
  | [], false => ([], None)
  | _, _ => if len t <? MaxScanTokenSize then if quoted then ([], Some (SplitError ErrOpenQuote)) else ([t], None) else ([], Some ErrTooLong)
  end.

(** One pass over the runes: the word so far and the quote it is in. *)
Fixpoint command_words (cur : list Z) (q : option Z) (rs : list rune) : list (list Z) * option scan_error :=
  match rs with
  | [] => end_word cur (if q is Some _ then true else false)
  | x :: r =>
      match q with
      | Some c => command_words (cur ++ snd x) (if fst x =? c then None else Some c) r
      | None =>
          if quote (fst x) then command_words (cur ++ snd x) (Some (fst x)) r
          else if IsSpace (fst x) then cut_word cur (snd x) (command_words [] None r)
          else command_words (cur ++ snd x) None r
      end
  end.

Lemma command_words_word rs : forall cur q,
  command_words cur q rs =
    match word q rs with
    | (w, AtSpace x r) => cut_word (cur ++ bytes_of w) (snd x) (command_words [] None r)
    | (w, AtEnd b) => end_word (cur ++ bytes_of w) b
    end.
Proof.
  assert (B : forall cur x w, (cur ++ snd x) ++ bytes_of w = cur ++ bytes_of (x :: w)) by (intros; by rewrite <- app_assoc).
  assert (Z : forall cur, cur ++ bytes_of [] = cur) by apply app_nil_r.
  induction rs as [|x rs IH]; intros cur q; cbn [command_words word]; [by rewrite Z|]. destruct q as [c|].
  - rewrite IH. destruct (word _ rs) as [w [y r|b]]; by rewrite B.
  - destruct (quote (fst x)); [rewrite IH; destruct (word _ rs) as [w [y r|b]]; by rewrite B|].
    destruct (IsSpace (fst x)); [by rewrite Z|]. rewrite IH. destruct (word _ rs) as [w [y r|b]]; by rewrite B.
Qed.

Lemma command_words_core rs : command_words [] None rs = command_words [] None (core rs).
Proof.
  induction rs as [|x rs IH]; [done|]. unfold core in *. cbn [break]. unfold isNotSpace at 1. simpl is_space.
  destruct (IsSpace (fst x)) eqn:E; simpl negb; [|done]. cbn [command_words]. destruct (quote (fst x)) eqn:Q.
  { exfalso. unfold quote in Q. apply orb_true_iff in Q. rewrite !Z.eqb_eq in Q. destruct Q as [Q|Q]; rewrite Q in E; done. }
  rewrite E. simpl cut_word. rewrite IH. by destruct (break _ rs).
Qed.

(** The words, one at a time. *)
Lemma command_words_next p rs : Decodes p rs -> command_words [] None rs =
  match next_word (core rs) with
  | inl (t, rs') => (t :: fst (command_words [] None rs'), snd (command_words [] None rs'))
  | inr e => ([], e)
  end.
Proof.
  intros D. rewrite command_words_core, command_words_word. unfold core.
  pose proof (break_app not_space rs) as Eb. pose proof (break_head not_space rs) as Hh. destruct (break not_space rs) as [sp [|x r]]; [done|]. cbn [fst snd] in *.
  rewrite Eb in D. pose proof (Decodes_drop _ sp _ D) as Dr. specialize (Hh x r eq_refl). unfold isNotSpace in Hh. apply negb_true_iff in Hh.
  destruct (word_nonempty x r _ Dr Hh) as (b & t & Ew). unfold next_word. destruct (word None (x :: r)) as [w [y r'|q]]; cbn [fst] in Ew; rewrite app_nil_l, Ew;
    cbn [cut_word end_word]; [by destruct (_ <=? _)|]. by destruct q, (_ <? _).
Qed.

Lemma scan_all_words fuel : forall s rs, scanning s -> Decodes (remaining s) rs -> (length (remaining s) < fuel)%nat ->
  scan_all (SplitFunc DefaultSplitter) fuel s = Some (command_words [] None rs).
Proof.
  induction fuel as [|fuel IH]; intros s rs I D F; [lia|]. cbn [scan_all]. rewrite (command_words_next _ _ D).
  destruct (Scan_next (length (unread s) + 3) s rs I D) as (r & s' & -> & N); [unfold steps_left; destruct (scan_err s); lia|].
  destruct (next_word (core rs)) as [[t rs']|e].
  - destruct N as (-> & I' & D' & L'). rewrite (IH s' rs' I' D') by lia. by destruct (command_words [] None rs').
  - destruct N as (-> & <-). unfold Err. by destruct (scan_err s') as [[]|].
Qed.

Lemma scanning_new input : scanning (NewScanner input).
Proof. by split. Qed.

(** C27. [parseCmd] on any input, valid UTF-8 or not and of any length, over a
    scanner whose buffer starts with 4096 bytes, doubles up to 65536 and may
    cut runes and words anywhere: it always ends without a slice out of
    range, and its result is that of one pass over the runes of the whole
    input. Quoted text keeps its spaces; a word that does not fit in 65536
    bytes with the space behind it, or fills them at the end of the input, is
    [ErrTooLong]; an open quote at the end is [ErrOpenQuote]; the words before
    an error are returned with it. *)
Theorem parseCmd_spec input : parseCmd input = Some (command_words [] None (runes input)).
Proof. apply scan_all_words; [apply scanning_new|apply runes_Decodes|unfold remaining; simpl; lia]. Qed.

(** Without the bounds of the buffer, for inputs within them. *)
Lemma command_words_split rs : forall cur q, len cur + len (bytes_of rs) < MaxScanTokenSize ->
  command_words cur q rs = (fst (split_words cur q rs), SplitError <$> snd (split_words cur q rs)).
Proof.
  induction rs as [|x rs IH]; intros cur q L; cbn [command_words split_words].
  - unfold end_word, len in *. change (bytes_of []) with (@nil Z) in L. simpl in L. rewrite (proj2 (Z.ltb_lt _ _)) by lia.
    by destruct q, cur.
  - unfold len in *. rewrite bytes_of_cons in L. assert (S : forall q, command_words (cur ++ snd x) q rs =
      (fst (split_words (cur ++ snd x) q rs), SplitError <$> snd (split_words (cur ++ snd x) q rs))) by (intros; apply IH; rewrite length_app; lia).
    destruct q as [c|]; [apply S|]. destruct (quote (fst x)); [apply S|]. destruct (IsSpace (fst x)); [|apply S].
    rewrite (IH [] None) by (simpl; lia). destruct cur as [|b cur]; [done|]. cbn [cut_word]. unfold len. rewrite (proj2 (Z.leb_le _ _)) by lia.
    by destruct (split_words [] None rs).
Qed.

(** Below [MaxScanTokenSize] bytes the scanner is not to be seen. *)
Corollary parseCmd_short input : len input < MaxScanTokenSize ->
  parseCmd input = Some (fst (split_words [] None (runes input)), SplitError <$> snd (split_words [] None (runes input))).
Proof. intros L. rewrite parseCmd_spec, command_words_split; [done|]. by rewrite (Decodes_bytes _ _ (runes_Decodes input)). Qed.
