(* ===== verification/IntSet.v ===== *)
(** * Package common: sets of integers; package lcore: the CPU map

    [src/common/set.go]. A [Map] keeps its members in a sorted slice searched by
    bisection and prints itself as a hexadecimal CPU mask. Characters are byte
    codes. *)

From Stdlib Require Import ZArith Lia Sorted.
From stdpp Require Import base list numbers option gmap fin_sets sorting.
From S2P Require Import Prelude Text.

Open Scope Z_scope.

(** ** Interface Set *)

(* go: common/set.go Set *)
Class SetI (T : Type) := {
  IsSet : T -> Z -> bool;
  Count : T -> nat;
  Set_ : T -> Z -> T
}.

(** What an implementation of the interface promises: a value that satisfies
    its invariant holds a finite set. *)
Class SetLaws (T : Type) `{SetI T} := {
  set_wf : T -> Prop;
  members : T -> gset Z;
  Set_wf s n : set_wf s -> set_wf (Set_ s n);
  IsSet_members s n : set_wf s -> IsSet s n = bool_decide (n ∈ members s);
  Count_members s : set_wf s -> Count s = size (members s);
  Set_members s n : set_wf s -> members (Set_ s n) = {[n]} ∪ members s
}.

(** ** Map *)

(* go: common/set.go Map *)
Record Map := mkMap { array : list Z }.

(** [sort.SearchInts]: bisection on [[i, j)]; every turn halves the range. *)
Fixpoint bisect (fuel : nat) (a : list Z) (x : Z) (i j : nat) : nat :=
  match fuel with
  | O => i
  | S fuel =>
      if (i <? j)%nat then
        let h := ((i + j) / 2)%nat in
        if default 0 (a !! h) <? x then bisect fuel a x (h + 1) j else bisect fuel a x i h
      else i
  end.
Definition SearchInts (a : list Z) (x : Z) : nat := bisect (length a) a x 0 (length a).

(* go: common/set.go Map.find *)
Definition find (m : Map) (n : Z) : nat * bool :=
  let k := SearchInts (array m) n in
  (k, (k <? length (array m))%nat && (default 0 (array m !! k) =? n)).

(** Append, move the tail up by one, store. *)
(* go: common/set.go Map.Set *)
Definition Map_Set (m : Map) (n : Z) : Map :=
  let (k, ok) := find m n in
  if ok then m
  else
    let a := array m ++ [n] in
    let a := take (k + 1) a ++ take (length a - (k + 1)) (drop k a) in
    mkMap (<[k := n]> a).

(* go: common/set.go Map.IsSet *)
Definition Map_IsSet (m : Map) (n : Z) : bool := snd (find m n).

(* go: common/set.go Map.Zero *)
Definition Zero (m : Map) : Map := mkMap [].

(* go: common/set.go Map.Count *)
Definition Map_Count (m : Map) : nat := length (array m).

#[export] Instance Map_SetI : SetI Map :=
  {| IsSet := Map_IsSet; Count := Map_Count; Set_ := Map_Set |}.

(** ** Hexadecimal masks *)

(* go: common/set.go 8-13 hexMap *)
Definition hexMap : list Z := [48; 49; 50; 51; 52; 53; 54; 55; 56; 57; 97; 98; 99; 100; 101; 102].

(* go: common/set.go getHexByte *)
Definition getHexByte (n : Z) : option Z := hexMap !! Z.to_nat n.

(* go: common/set.go getHexIndex *)
Definition getHexIndex (c : Z) : Z :=
  match list_find (fun x => x = c) hexMap with
  | Some (i, _) => Z.of_nat i
  | None => 0
  end.

(** One member into the mask; [n/4] truncates, so for a negative [n] it is zero
    or an index out of range. *)
Definition hex_add (out : list Z) (n : Z) : option (list Z) :=
  let i := Z.quot n 4 in
  let r := Z.land n 3 in
  let out :=
    if Z.of_nat (length out) <=? i
    then replicate (Z.to_nat (i - Z.of_nat (length out) + 1)) 48 ++ out
    else out in
  let i := Z.of_nat (length out) - 1 - i in
  if (i <? 0) || (Z.of_nat (length out) <=? i) then None
  else
    match out !! Z.to_nat i with
    | None => None
    | Some c =>
        match getHexByte (Z.lor (getHexIndex c) (Z.shiftl 1 r)) with
        | None => None
        | Some d => Some (<[Z.to_nat i := d]> out)
        end
    end.

Fixpoint hex_from (out : list Z) (a : list Z) : option (list Z) :=
  match a with
  | [] => Some out
  | n :: r =>
      match hex_add out n with
      | None => None
      | Some out => hex_from out r
      end
  end.

(* go: common/set.go hex *)
Definition hex (a : list Z) : option (list Z) := hex_from [] a.

(* go: common/set.go Map.String *)
Definition Map_String (m : Map) : option (list Z) := hex (array m).

(** ** Building sets *)

(** [i] counts up and [n] the members found; the loop ends when all members of
    [src] were found. *)
Fixpoint copySet_loop {T U : Type} `{SetI T, SetI U} (fuel : nat) (dst : T) (src : U) (i : Z) (n : nat) :
    option (nat * T) :=
  match fuel with
  | O => None
  | S fuel =>
      if (n <? Count src)%nat then
        if IsSet src i then copySet_loop fuel (Set_ dst i) src (i + 1) (S n)
        else copySet_loop fuel dst src (i + 1) n
      else Some (n, dst)
  end.
(* go: common/set.go copySet *)
Definition copySet {T U : Type} `{SetI T, SetI U} (fuel : nat) (dst : T) (src : U) : option (nat * T) :=
  copySet_loop fuel dst src 0 0.

(** The argument of [NewMap] by kind; the members of the last three converted
    to [int]. *)
Inductive set_arg (U : Type) :=
  ANil | ASet (s : U) | AMap (keys : list Z) | ASlice (elems : list Z) | AInt (n : Z).
Arguments ANil {U}.
Arguments ASet {U}.
Arguments AMap {U}.
Arguments ASlice {U}.
Arguments AInt {U}.

(* go: common/set.go NewMap *)
Definition NewMap {U : Type} `{SetI U} (fuel : nat) (i : set_arg U) : option Map :=
  match i with
  | ANil => Some (mkMap [])
  | ASet s => snd <$> copySet fuel (mkMap []) s
  | AMap keys => Some (foldl Map_Set (mkMap []) keys)
  | ASlice elems => Some (foldl Map_Set (mkMap []) elems)
  | AInt n => Some (Map_Set (mkMap []) n)
  end.

(** The digits as package [lcore] reads them. *)
(* go: lcore/lcore.go 19-26 hexMap *)
Definition lcore_hexMap (c : Z) : option Z :=
  if (48 <=? c) && (c <=? 57) then Some (c - 48)
  else if (97 <=? c) && (c <=? 102) then Some (c - 87)
  else None.
