(* ===== verification/IntSetSpec.v ===== *)
(** * Sets of integers: what they promise

    A [Map] reachable from the empty one is strictly sorted and implements the
    interface's laws; copying a set, printing a set as a CPU mask. *)

From Stdlib Require Import ZArith Lia Sorted String.
From stdpp Require Import base list numbers option gmap fin_sets sorting.
From S2P Require Import Prelude Text IntSet.

Open Scope Z_scope.

Definition sorted (a : list Z) : Prop := StronglySorted Z.lt a.
Definition map_wf (m : Map) : Prop := sorted (array m).
Definition map_members (m : Map) : gset Z := list_to_set (array m).

Lemma sorted_lt a i j x y : sorted a -> a !! i = Some x -> a !! j = Some y -> (i < j)%nat -> x < y.
Proof.
  intros S Hi Hj L. rewrite <- (take_drop_middle _ _ _ Hi) in S.
  eapply (StronglySorted_app_1_r Z.lt) in S. apply StronglySorted_inv in S as [_ F].
  rewrite Forall_forall in F. apply F. apply list_elem_of_lookup. exists (j - S i)%nat.
  rewrite lookup_drop. by replace (S i + (j - S i))%nat with j by lia.
Qed.

Lemma sorted_NoDup a : sorted a -> NoDup a.
Proof.
  induction 1 as [|x a S IH F]; constructor; [|done]. intros I.
  rewrite Forall_forall in F. specialize (F x I). lia.
Qed.

(** Two strictly sorted lists with the same members are equal. *)
Lemma sorted_ext a b : sorted a -> sorted b -> (forall x, x ∈ a <-> x ∈ b) -> a = b.
Proof.
  intros Sa Sb E. apply (StronglySorted_unique_strong Z.lt); try done; [intros; lia|].
  apply NoDup_Permutation; try by apply sorted_NoDup. done.
Qed.

(** ** Bisection *)

Lemma bisect_spec fuel a x i j :
  sorted a -> (j - i <= fuel)%nat -> (i <= j <= length a)%nat ->
  (forall k y, (k < i)%nat -> a !! k = Some y -> y < x) ->
  (forall k y, (j <= k)%nat -> a !! k = Some y -> x <= y) ->
  let r := bisect fuel a x i j in
  (r <= length a)%nat /\
  (forall k y, (k < r)%nat -> a !! k = Some y -> y < x) /\
  (forall k y, (r <= k)%nat -> a !! k = Some y -> x <= y).
Proof.
  intros S. revert i j; induction fuel as [|f IH]; intros i j Hf Hij Lo Hi; cbn [bisect].
  - assert (i = j) as <- by lia. split_and!; try done. lia.
  - destruct (Nat.ltb_spec i j) as [L|L].
    2: { assert (i = j) as <- by lia. split_and!; try done. lia. }
    set (h := ((i + j) / 2)%nat).
    assert (Hh : (i <= h < j)%nat).
    { unfold h. split; [apply Nat.div_le_lower_bound; lia|apply Nat.Div0.div_lt_upper_bound; lia]. }
    clearbody h.
    destruct (lookup_lt_is_Some_2 a h) as [v Hv]; [lia|]. rewrite Hv. simpl.
    destruct (Z.ltb_spec v x) as [Q|Q].
    + apply IH; try done; try lia. intros k y Hk Hy.
      destruct (decide (k = h)) as [->|]; [congruence|].
      pose proof (sorted_lt _ _ _ _ _ S Hy Hv). lia.
    + apply IH; try done; try lia. intros k y Hk Hy.
      destruct (decide (k = h)) as [->|]; [by simplify_eq|].
      pose proof (sorted_lt _ _ _ _ _ S Hv Hy). lia.
Qed.

Lemma SearchInts_spec a x :
  sorted a ->
  (SearchInts a x <= length a)%nat /\
  (forall y, y ∈ take (SearchInts a x) a -> y < x) /\
  (forall y, y ∈ drop (SearchInts a x) a -> x <= y).
Proof.
  intros S. destruct (bisect_spec (length a) a x 0 (length a)) as (L & Lo & Hi); try done; try lia.
  { intros k y Hk Hy. apply lookup_lt_Some in Hy. lia. }
  split_and!; [done| |].
  - intros y [k Hk]%list_elem_of_lookup. apply lookup_take_Some in Hk as [Hk ?]. eauto.
  - intros y [k Hk]%list_elem_of_lookup. rewrite lookup_drop in Hk. eapply Hi; [|done].
    unfold SearchInts. lia.
Qed.

Lemma find_spec m n : map_wf m -> snd (find m n) = bool_decide (n ∈ array m).
Proof.
  intros W. unfold find. simpl. destruct (SearchInts_spec _ n W) as (L & Lo & Hi).
  set (k := SearchInts (array m) n) in *. clearbody k.
  destruct (bool_decide_reflect (n ∈ array m)) as [I|I].
  - rewrite <- (take_drop k (array m)) in I. apply elem_of_app in I as [I|I].
    { apply Lo in I. lia. }
    assert (D : drop k (array m) !! 0%nat = Some n).
    { destruct (drop k (array m)) as [|y r] eqn:E; [by apply not_elem_of_nil in I|]. simpl. f_equal.
      assert (n <= y) by (apply Hi; constructor).
      apply elem_of_cons in I as [->|I]; [done|].
      pose proof W as W'. unfold map_wf, sorted in W'. rewrite <- (take_drop k (array m)), E in W'.
      apply StronglySorted_app_1_r, StronglySorted_inv in W' as [_ F].
      rewrite Forall_forall in F. specialize (F n I). lia. }
    rewrite lookup_drop, Nat.add_0_r in D. rewrite D. simpl. rewrite Z.eqb_refl, andb_true_r.
    apply Nat.ltb_lt. by apply lookup_lt_Some in D.
  - destruct (Nat.ltb_spec k (length (array m))) as [Q|Q]; [|done]. simpl.
    apply lookup_lt_is_Some_2 in Q as [y Hy]. rewrite Hy. simpl. apply Z.eqb_neq. intros ->.
    apply I. apply list_elem_of_lookup. eauto.
Qed.

(** A new member goes in where bisection found its place. *)
Lemma Map_Set_array m n :
  map_wf m ->
  array (Map_Set m n) =
    if bool_decide (n ∈ array m) then array m
    else take (SearchInts (array m) n) (array m) ++ n :: drop (SearchInts (array m) n) (array m).
Proof.
  intros W. unfold Map_Set. pose proof (find_spec m n W) as F.
  destruct (SearchInts_spec _ n W) as (L & _).
  unfold find in *. simpl in F. rewrite F.
  case_bool_decide; [done|]. simpl. set (k := SearchInts (array m) n) in *. clearbody k.
  apply list_eq. intros i. rewrite length_app. simpl.
  destruct (decide (i = k)) as [->|Ne].
  - rewrite list_lookup_insert_eq.
    + rewrite lookup_app_r by (rewrite length_take; lia). rewrite length_take.
      by replace (k - k `min` length (array m))%nat with 0%nat by lia.
    + rewrite length_app, !length_take, length_drop, length_app. simpl. lia.
  - rewrite list_lookup_insert_ne by done.
    destruct (decide (i < k)%nat).
    + rewrite !lookup_app_l by (rewrite length_take, ?length_app; simpl; lia).
      rewrite !lookup_take_lt by lia. by rewrite lookup_app_l by lia.
    + rewrite !lookup_app_r by (rewrite length_take, ?length_app; simpl; lia).
      rewrite !length_take, length_app. simpl.
      replace (i - k `min` length (array m))%nat with (S (i - S k))%nat by lia. simpl.
      replace ((k + 1) `min` (length (array m) + 1))%nat with (S k) by lia.
      rewrite lookup_drop. destruct (decide (i - S k < length (array m) + 1 - (k + 1))%nat).
      * rewrite lookup_take_lt, lookup_drop by lia. by rewrite lookup_app_l by lia.
      * rewrite lookup_take_ge by lia. symmetry. apply lookup_ge_None_2. lia.
Qed.

Lemma Map_Set_wf m n : map_wf m -> map_wf (Map_Set m n).
Proof.
  intros W. unfold map_wf. rewrite Map_Set_array by done. case_bool_decide as I; [done|].
  destruct (SearchInts_spec _ n W) as (L & Lo & Hi).
  set (k := SearchInts (array m) n) in *. clearbody k.
  unfold map_wf, sorted in *. rewrite <- (take_drop k (array m)) in W, I.
  apply StronglySorted_app in W as (C & S1 & S2).
  apply StronglySorted_app. split_and!; [|done|].
  - intros x y Hx [->|Hy]%elem_of_cons; [by apply Lo|by apply C].
  - constructor; [done|]. apply Forall_forall. intros y Hy. specialize (Hi y Hy).
    assert (y <> n) by (intros ->; apply I, elem_of_app; by right). lia.
Qed.

Lemma Map_Set_members m n : map_wf m -> map_members (Map_Set m n) = {[n]} ∪ map_members m.
Proof.
  intros W. unfold map_members. rewrite Map_Set_array by done. apply set_eq. intros x.
  rewrite elem_of_union, elem_of_singleton, !elem_of_list_to_set. case_bool_decide as I.
  - split; [by right|]. by intros [->|].
  - set (k := SearchInts (array m) n). rewrite <- (take_drop k (array m)) at 3.
    rewrite !elem_of_app, elem_of_cons. tauto.
Qed.

(** The array implementation discharges the interface. *)
#[export, refine] Instance Map_SetLaws : SetLaws Map :=
  {| set_wf := map_wf; members := map_members |}.
Proof.
  - exact Map_Set_wf.
  - intros s n W. change (IsSet s n) with (Map_IsSet s n). unfold Map_IsSet. rewrite find_spec by done.
    apply bool_decide_ext. unfold map_members. by rewrite elem_of_list_to_set.
  - intros s W. change (Count s) with (Map_Count s). unfold Map_Count, map_members.
    by rewrite size_list_to_set by (by apply sorted_NoDup).
  - exact Map_Set_members.
Defined.

(** What a run of [Set] calls leaves. *)
Lemma Set_all (m : Map) ns :
  map_wf m ->
  let m' := foldl Map_Set m ns in map_wf m' /\ map_members m' = list_to_set ns ∪ map_members m.
Proof.
  revert m; induction ns as [|n ns IH]; intros m W; simpl.
  - split; [done|]. set_solver.
  - destruct (IH (Map_Set m n)) as [W' E]; [by apply Map_Set_wf|]. split; [done|].
    rewrite E, Map_Set_members by done. set_solver.
Qed.

Lemma map_wf_empty : map_wf (mkMap []).
Proof. constructor. Qed.

(** C36. A [Map] after any sequence of [Set] calls, repetitions included, is
    strictly sorted; [IsSet] answers exactly for the integers that were stored,
    [Count] is the number of distinct ones, and storing again changes nothing. *)
Theorem Map_spec ns :
  let m := foldl Map_Set (mkMap []) ns in
  sorted (array m) /\ (forall n, IsSet m n = bool_decide (n ∈ ns)) /\
  Count m = size (list_to_set ns : gset Z) /\
  (forall n, n ∈ ns -> Map_Set m n = m).
Proof.
  intros m. destruct (Set_all (mkMap []) ns map_wf_empty) as [W E]. fold m in W, E.
  assert (E' : map_members m = list_to_set ns) by (rewrite E; unfold map_members; simpl; set_solver).
  split_and!; [done| | |].
  - intros n. rewrite (IsSet_members m n) by exact W. apply bool_decide_ext.
    change (members m) with (map_members m). by rewrite E', elem_of_list_to_set.
  - rewrite (Count_members m) by exact W. change (members m) with (map_members m). by rewrite E'.
  - intros n I. pose proof (find_spec m n W) as F. unfold Map_Set.
    destruct (find m n) as [k ok]. simpl in F. subst ok.
    rewrite bool_decide_true; [done|]. apply (elem_of_list_to_set (C := gset Z)).
    change (n ∈ map_members m). by rewrite E', elem_of_list_to_set.
Qed.

(** ** Copying through the interface *)

Section Copy.
Context {T U : Type} `{SetLaws T, SetLaws U}.
Variables (src : U) (K : Z).
Hypothesis Wsrc : set_wf src.

(** The members found when the loop reaches [i]. *)
Definition below (i : Z) : gset Z := filter (fun x => 0 <= x < i) (members src).

Lemma below_succ i :
  0 <= i -> below (i + 1) = if IsSet src i then {[i]} ∪ below i else below i.
Proof.
  intros Hi. rewrite IsSet_members by done. unfold below. apply set_eq. intros x.
  case_bool_decide; rewrite ?elem_of_union, ?elem_of_singleton, !elem_of_filter.
  - split; [|intros [->|[? ?]]; split; done || lia]. intros [? ?].
    destruct (decide (x = i)); [by left|right; split; [lia|done]].
  - split; intros [? ?]; split; try done; try lia. assert (x <> i) by (by intros ->). lia.
Qed.

Lemma size_below_succ i :
  0 <= i -> size (below (i + 1)) = (if IsSet src i then S (size (below i)) else size (below i)).
Proof.
  intros Hi. rewrite below_succ by done. destruct (IsSet src i); [|done].
  rewrite size_union, size_singleton; [done|]. unfold below. set_solver by lia.
Qed.

Lemma below_subseteq i : below i ⊆ members src.
Proof. unfold below. set_solver. Qed.

Lemma copySet_loop_spec fuel (dst : T) i :
  set_wf dst -> (forall x, x ∈ members src -> 0 <= x < K) -> 0 <= i ->
  (Z.to_nat (K - i) < fuel)%nat ->
  exists dst', copySet_loop fuel dst src i (size (below i)) = Some (Count src, dst') /\
    set_wf dst' /\ members dst' = members dst ∪ (members src ∖ below i).
Proof.
  intros Wd B. revert dst i Wd; induction fuel as [|fuel IH]; intros dst i Wd Hi Hf; [lia|].
  cbn [copySet_loop]. rewrite (Count_members src) by done.
  destruct (Nat.ltb_spec (size (below i)) (size (members src))) as [L|L].
  - assert (i < K).
    { destruct (decide (K <= i)) as [Q|]; [|lia]. exfalso.
      assert (E : below i = members src); [|rewrite E in L; lia].
      apply set_eq. intros x. unfold below. rewrite elem_of_filter.
      split; [by intros [? ?]|]. intros I. specialize (B x I). split; [lia|done]. }
    pose proof (size_below_succ i Hi) as Sz. pose proof (below_succ i Hi) as Bs.
    pose proof (IsSet_members src i Wsrc) as Is.
    destruct (IsSet src i).
    + symmetry in Is. apply bool_decide_eq_true in Is. rewrite <- Sz.
      destruct (IH (Set_ dst i) (i + 1)) as (d & E & Wd' & M); [by apply Set_wf|lia|lia|].
      exists d. rewrite (Count_members src) in E by done. split_and!; [done|done|].
      rewrite M, Set_members, Bs by done. apply set_eq. intros x.
      assert (i ∉ below i) by (unfold below; rewrite elem_of_filter; lia).
      destruct (decide (x = i)) as [->|]; set_solver.
    + rewrite <- Sz. destruct (IH dst (i + 1)) as (d & E & Wd' & M); [done|lia|lia|].
      exists d. rewrite (Count_members src) in E by done. split_and!; [done|done|].
      by rewrite M, Bs.
  - assert (E : below i = members src).
    { apply set_subseteq_size_eq; [apply below_subseteq|lia]. }
    exists dst. rewrite E. split_and!; [done|done|]. set_solver.
Qed.

(** A negative member is never found: the loop goes on for ever. *)
Lemma copySet_loop_diverges fuel (dst : T) i x :
  x ∈ members src -> x < 0 -> 0 <= i -> copySet_loop fuel dst src i (size (below i)) = None.
Proof.
  intros I Hx. revert dst i; induction fuel as [|fuel IH]; intros dst i Hi; [done|].
  cbn [copySet_loop]. rewrite (Count_members src) by done.
  destruct (Nat.ltb_spec (size (below i)) (size (members src))) as [L|L].
  - pose proof (size_below_succ i Hi) as Sz. destruct (IsSet src i); rewrite <- Sz; apply IH; lia.
  - exfalso. assert (E : below i = members src).
    { apply set_subseteq_size_eq; [apply below_subseteq|lia]. }
    rewrite <- E in I. unfold below in I. apply elem_of_filter in I. lia.
Qed.

Lemma below_0 : below 0 = ∅.
Proof. apply set_eq. intros x. unfold below. rewrite elem_of_filter. set_solver by lia. Qed.
End Copy.

(** Over any two implementations of the set interface: [copySet] of a set
    with members in [0 .. K) ends within [K + 1] turns, adds exactly the members
    of the source to the destination and returns their number. *)
Theorem copySet_spec {T U} `{SetLaws T, SetLaws U} (dst : T) (src : U) K :
  set_wf dst -> set_wf src -> (forall x, x ∈ members src -> 0 <= x < K) -> 0 <= K ->
  exists dst', copySet (S (Z.to_nat K)) dst src = Some (Count src, dst') /\
    set_wf dst' /\ members dst' = members dst ∪ members src.
Proof.
  intros Wd Ws B HK. destruct (copySet_loop_spec src K Ws (S (Z.to_nat K)) dst 0 Wd B) as (d & E & W & M);
    try lia.
  rewrite (below_0 src Ws) in E, M. exists d. rewrite size_empty in E. split_and!; [done|done|].
  rewrite M. apply set_eq. set_solver.
Qed.

Lemma copySet_spec_witness :
  exists dst', copySet 8 (mkMap [5]) (mkMap [2; 6]) = Some (2%nat, dst') /\
    members dst' = {[5]} ∪ {[2; 6]}.
Proof.
  destruct (copySet_spec (mkMap [5]) (mkMap [2; 6]) 7) as (d & E & _ & M).
  - repeat constructor.
  - repeat constructor.
  - intros x Hx. change (x ∈ (list_to_set [2; 6] : gset Z)) in Hx.
    rewrite elem_of_list_to_set in Hx. repeat (apply elem_of_cons in Hx as [->|Hx]; [lia|]).
    by apply not_elem_of_nil in Hx.
  - lia.
  - exists d. split; [exact E|]. rewrite M. reflexivity.
Defined.

(** [copySet] (and so [NewMap] of a set) never returns when the source has a
    negative member: the count it waits for is not reached by counting up from
    zero. *)
Theorem copySet_diverges {T U} `{SetLaws T, SetLaws U} (dst : T) (src : U) x fuel :
  set_wf src -> x ∈ members src -> x < 0 -> copySet fuel dst src = None.
Proof.
  intros Ws I Hx. unfold copySet.
  rewrite <- (copySet_loop_diverges src Ws fuel dst 0 x I Hx ltac:(lia)).
  by rewrite (below_0 src Ws), size_empty.
Qed.

Lemma copySet_diverges_witness : copySet 100 (mkMap []) (mkMap [-1; 3]) = None.
Proof.
  apply (copySet_diverges (mkMap []) (mkMap [-1; 3]) (-1) 100).
  - repeat constructor.
  - apply elem_of_list_to_set. constructor.
  - lia.
Defined.

(** ** Masks *)

Definition hexch (c : Z) : Prop := c ∈ hexMap.

(** Decides a fact about every hexadecimal character by evaluation. *)
Lemma hexch_cases (P : Z -> bool) c : hexch c -> forallb P hexMap = true -> P c = true.
Proof. intros I F. rewrite forallb_forall in F. apply F. by apply list_elem_of_In. Qed.

Lemma hexch_index c : hexch c -> 0 <= getHexIndex c < 16 /\ lcore_hexMap c = Some (getHexIndex c).
Proof.
  intros H.
  pose proof (hexch_cases (fun c => (0 <=? getHexIndex c) && (getHexIndex c <? 16) &&
    bool_decide (lcore_hexMap c = Some (getHexIndex c))) c H eq_refl) as E.
  apply andb_true_iff in E as [E D]. apply bool_decide_eq_true in D. split; [lia|done].
Qed.

Lemma getHexByte_index d : 0 <= d < 16 -> exists c, getHexByte d = Some c /\ hexch c /\ getHexIndex c = d.
Proof.
  intros H. assert (I : In d (map Z.of_nat (seq 0 16))).
  { apply in_map_iff. exists (Z.to_nat d). split; [lia|]. apply in_seq. lia. }
  simpl in I. destruct_or! I; subst; try done; (eexists; split_and!; [reflexivity| |reflexivity]);
    apply list_elem_of_In; simpl; tauto.
Qed.

(** The digit of a mask at place [q], zero past its front. *)
Definition dig (out : list Z) (q : nat) : Z :=
  if (q <? length out)%nat then getHexIndex (default 48 (out !! (length out - 1 - q)%nat)) else 0.

Lemma dig_pad out p q : dig (replicate p 48 ++ out) q = dig out q.
Proof.
  unfold dig. rewrite length_app, length_replicate.
  destruct (Nat.ltb_spec q (length out)).
  - rewrite (proj2 (Nat.ltb_lt _ _)) by lia. rewrite lookup_app_r, length_replicate by (rewrite length_replicate; lia).
    do 3 f_equal. lia.
  - destruct (Nat.ltb_spec q (p + length out)); [|done].
    rewrite lookup_app_l by (rewrite length_replicate; lia).
    by rewrite lookup_replicate_2 by lia.
Qed.

Lemma dig_range out q : Forall hexch out -> 0 <= dig out q < 16.
Proof.
  intros H. unfold dig. destruct (Nat.ltb_spec q (length out)); [|lia].
  destruct (lookup_lt_is_Some_2 out (length out - 1 - q)) as [c Hc]; [lia|]. rewrite Hc. simpl.
  eapply Forall_lookup_1 in Hc; [|done]. by apply hexch_index.
Qed.

Lemma lor_bit_range d r : 0 <= d < 16 -> 0 <= r < 4 -> 0 <= Z.lor d (Z.shiftl 1 r) < 16.
Proof.
  intros. split; [apply Z.lor_nonneg; split; [lia|apply Z.shiftl_nonneg; lia]|].
  assert (E : Z.lor d (Z.shiftl 1 r) = Z.land (Z.lor d (Z.shiftl 1 r)) 15).
  { rewrite Z.land_lor_distr_l, !land_0f, Z.mod_small by lia. f_equal.
    assert (C : r = 0 \/ r = 1 \/ r = 2 \/ r = 3) by lia. by destruct_or! C; subst. }
  rewrite E, land_0f. apply Z.mod_pos_bound. lia.
Qed.

Lemma hex_add_spec out n :
  Forall hexch out -> 0 <= n ->
  exists out', hex_add out n = Some out' /\ Forall hexch out' /\
    forall q, dig out' q = if decide (q = Z.to_nat (n / 4)) then Z.lor (dig out q) (Z.shiftl 1 (n mod 4))
                           else dig out q.
Proof.
  intros Ho Hn. unfold hex_add. rewrite Z.quot_div_nonneg by lia.
  replace (Z.land n 3) with (n mod 4) by (symmetry; by apply (land_ones_mod n 2)).
  set (i := n / 4). assert (Hi : 0 <= i) by (apply Z.div_pos; lia).
  assert (Hr : 0 <= n mod 4 < 4) by (apply Z.mod_pos_bound; lia).
  set (o := if _ <=? i then _ else out).
  assert (E : Forall hexch o /\ i < Z.of_nat (length o) /\ forall q, dig o q = dig out q).
  { unfold o. destruct (Z.leb_spec (Z.of_nat (length out)) i).
    - split_and!; [|rewrite length_app, length_replicate; lia|intros; apply dig_pad].
      apply Forall_app; split; [|done]. apply Forall_replicate. constructor.
    - by split_and!. }
  clearbody o. destruct E as (Fo & Lo & Do).
  set (j := Z.of_nat (length o) - 1 - i).
  replace ((j <? 0) || (Z.of_nat (length o) <=? j)) with false
    by (symmetry; apply orb_false_iff; split; [apply Z.ltb_ge|apply Z.leb_gt]; lia).
  destruct (lookup_lt_is_Some_2 o (Z.to_nat j)) as [c Hc]; [lia|]. rewrite Hc.
  pose proof Hc as Hh. eapply Forall_lookup_1 in Hh; [|done]. apply hexch_index in Hh as [Rc _].
  destruct (getHexByte_index (Z.lor (getHexIndex c) (Z.shiftl 1 (n mod 4)))) as (d & -> & Hd & Ed).
  { by apply lor_bit_range. }
  eexists. split; [reflexivity|]. split; [by apply Forall_insert|].
  intros q. rewrite <- Do. unfold dig. rewrite length_insert.
  destruct (Nat.ltb_spec q (length o)) as [Q|Q].
  - destruct (decide (q = Z.to_nat i)) as [->|Ne].
    + replace (length o - 1 - Z.to_nat i)%nat with (Z.to_nat j) by lia.
      rewrite list_lookup_insert_eq, Hc by lia. simpl. done.
    + by rewrite list_lookup_insert_ne by lia.
  - rewrite decide_False by lia. done.
Qed.

Lemma hex_from_spec a out :
  Forall hexch out -> Forall (fun n => 0 <= n) a ->
  exists out', hex_from out a = Some out' /\ Forall hexch out' /\
    forall q b, 0 <= b < 4 ->
      Z.testbit (dig out' q) b = Z.testbit (dig out q) b || bool_decide (4 * Z.of_nat q + b ∈ a).
Proof.
  intros Ho Ha. revert out Ho; induction Ha as [|n a Hn _ IH]; intros out Ho; cbn [hex_from].
  - exists out. split_and!; try done. intros. by rewrite orb_false_r.
  - destruct (hex_add_spec out n Ho Hn) as (o & -> & Fo & Do).
    destruct (IH o Fo) as (o' & -> & Fo' & Do'). exists o'. split_and!; [done|done|].
    intros q b Hb. rewrite (Do' q b Hb), (Do q).
    assert (Q : bool_decide (4 * Z.of_nat q + b ∈ n :: a) =
      bool_decide (4 * Z.of_nat q + b = n) || bool_decide (4 * Z.of_nat q + b ∈ a)).
    { rewrite <- bool_decide_or. apply bool_decide_ext. apply elem_of_cons. }
    rewrite Q, orb_assoc. f_equal. clear Q. destruct (decide (q = Z.to_nat (n / 4))) as [Dq|Dq].
    + rewrite Z.lor_spec. f_equal. rewrite Z.shiftl_spec by lia.
      assert (Hnn : n = 4 * Z.of_nat q + n mod 4) by (subst q; zlia).
      destruct (decide (b = n mod 4)) as [->|Ne].
      * rewrite Z.sub_diag. rewrite bool_decide_true; [done|lia].
      * rewrite bool_decide_false by lia. destruct (Z.lt_ge_cases (b - n mod 4) 0).
        { by apply Z.testbit_neg_r. }
        change 1 with (2 ^ 0). apply Z.pow2_bits_false. lia.
    + rewrite bool_decide_false; [by rewrite orb_false_r|]. intros <-. apply Dq. zlia.
Qed.
