(* ===== verification/CpuMap.v ===== *)
(** * The CPU map

    [src/lcore/lcore.go], [src/lcore/lcore_linux.go]: [readCPUHexMap] reads the
    mask of a node's cores from [/sys/devices/system/node/node<n>/cpumap] with the
    scanner of [Scanner]; from the masks the table of NUMA nodes per lcore is
    built. Printing a set of integers as a CPU mask and reading the mask back gives
    the set. *)

From Stdlib Require Import ZArith Lia Sorted String.
From stdpp Require Import base list numbers option gmap fin_sets sorting.
From S2P Require Import Prelude Text Split Scanner IntSet IntSetSpec.

Open Scope Z_scope.

(** ** The CPU map *)

(** The four cores of digit [n] at place [i]. *)
Definition digit_cores (i n : Z) : list Z :=
  (if Z.land n 1 =? 0 then [] else [4 * i]) ++
  (if Z.land n 2 =? 0 then [] else [4 * i + 1]) ++
  (if Z.land n 4 =? 0 then [] else [4 * i + 2]) ++
  (if Z.land n 8 =? 0 then [] else [4 * i + 3]).

(** The digits from the least significant one, [i] counting them. *)
Fixpoint read_digits (cpumap : list Z) (i : Z) (cores : list Z) : option (list Z) :=
  match cpumap with
  | [] => Some cores
  | c :: r =>
      match lcore_hexMap c with
      | None => None
      | Some n => read_digits r (i + 1) (cores ++ digit_cores i n)
      end
  end.

(** [bufio.ScanWords] *)
Definition ScanWords (data : list Z) (atEOF : bool) : option (nat * option (list Z) * option split_error) :=
  let start := default (length data) (IndexFunc data (fun r => negb (IsSpace r))) in
  match IndexFunc (drop start data) IsSpace with
  | Some i => Some ((start + i + snd (DecodeRune (drop (start + i) data)))%nat, Some (take i (drop start data)), None)
  | None => Some (if atEOF && (start <? length data)%nat then (length data, Some (drop start data), None) else (start, None, None))
  end.

(** The first word of the text; [None] is an error: of the reader ([b] is
    [None]), of the scanner, or an invalid map. *)
(* go: lcore/lcore.go readCPUHexMap *)
Definition readCPUHexMap (b : option (list Z)) : option (list Z) :=
  match b with
  | None => None
  | Some text =>
      match Scan ScanWords (length text + 3) (NewScanner text) with
      | None => None
      | Some (token, s) =>
          match scan_err s with
          | None | Some EOF => read_digits (rev (default [] token)) 0 []
          | Some _ => None
          end
      end
  end.

(** [os.Open] of one node's file: its content as the reader gives it, or an
    error other than [ENOENT]; the list of files ends at the first missing
    one. *)
Inductive opened := Content (b : option (list Z)) | OpenError.

(** The cores of node [n] into the map. *)
Fixpoint note_cores (nodeMap : gmap Z Z) (maxLcoreID n : Z) (cores : list Z) : gmap Z Z * Z :=
  match cores with
  | [] => (nodeMap, maxLcoreID)
  | c :: r => note_cores (<[c := n]> nodeMap) (if maxLcoreID <? c then c else maxLcoreID) n r
  end.
Fixpoint load_nodes (nodeMap : gmap Z Z) (maxLcoreID n : Z) (nodes : list opened) :
    option (gmap Z Z * Z) :=
  match nodes with
  | [] => Some (nodeMap, maxLcoreID)
  | OpenError :: _ => None
  | Content b :: r =>
      match readCPUHexMap b with
      | None => None
      | Some cores =>
          let '(nodeMap, maxLcoreID) := note_cores nodeMap maxLcoreID n cores in
          load_nodes nodeMap maxLcoreID (n + 1) r
      end
  end.

(** The table [lcore2node] (its length is the result); [None] is a panic. *)
(* go: lcore/lcore_linux.go loadCPUMap *)
Definition loadCPUMap (nodes : list opened) : option (list Z) :=
  match load_nodes ∅ 0 0 nodes with
  | None => None
  | Some (nodeMap, maxLcoreID) =>
      Some (map_fold (fun lcore node t => <[Z.to_nat lcore := node]> t)
        (replicate (Z.to_nat (maxLcoreID + 1)) 0) nodeMap)
  end.

(* go: lcore/lcore.go 11-11 NumaNodeAny *)
Definition NumaNodeAny : Z := -1.

(* go: lcore/lcore_linux.go getNumaNode *)
Definition getNumaNode (lcore2node : list Z) (id : Z) : Z :=
  if id <? Z.of_nat (length lcore2node) then default 0 (lcore2node !! Z.to_nat id) else NumaNodeAny.

(* go: lcore/lcore.go NumaNode *)
Definition NumaNode (lcore2node : list Z) (id : Z) : Z := getNumaNode lcore2node id.

(** * Theorems *)

(** ** Reading a mask *)

Lemma elem_digit_cores i n x :
  0 <= n < 16 -> x ∈ digit_cores i n <-> exists b, 0 <= b < 4 /\ x = 4 * i + b /\ Z.testbit n b = true.
Proof.
  intros Hn. assert (I : In n (map Z.of_nat (seq 0 16))).
  { apply in_map_iff. exists (Z.to_nat n). split; [lia|]. apply in_seq. lia. }
  unfold digit_cores. rewrite !elem_of_app. split.
  - intros H. assert (C : (x = 4 * i + 0 /\ Z.testbit n 0) \/ (x = 4 * i + 1 /\ Z.testbit n 1) \/
      (x = 4 * i + 2 /\ Z.testbit n 2) \/ (x = 4 * i + 3 /\ Z.testbit n 3)).
    { simpl in I. destruct_or! I; subst; simpl in H; rewrite ?elem_of_cons, ?elem_of_nil in H; try tauto;
        destruct_or! H; try tauto; subst; rewrite ?Z.add_0_r; simpl; tauto || naive_solver. }
    destruct C as [[-> T]|[[-> T]|[[-> T]|[-> T]]]]; 
      [exists 0|exists 1|exists 2|exists 3]; (split; [lia|]; split; [done|by apply Is_true_true_1]).
  - intros (b & Hb & -> & T). assert (C : b = 0 \/ b = 1 \/ b = 2 \/ b = 3) by lia.
    simpl in I. destruct_or! C; subst; destruct_or! I; subst; try discriminate T; simpl;
      rewrite ?elem_of_cons, ?elem_of_nil, ?Z.add_0_r; tauto.
Qed.

Lemma sorted_digit_cores i n : 0 <= n < 16 -> sorted (digit_cores i n).
Proof.
  intros Hn. assert (I : In n (map Z.of_nat (seq 0 16))).
  { apply in_map_iff. exists (Z.to_nat n). split; [lia|]. apply in_seq. lia. }
  unfold digit_cores, sorted. simpl in I. destruct_or! I; subst; simpl; repeat constructor; lia.
Qed.

Lemma read_digits_spec ds i cores :
  Forall hexch ds -> sorted cores -> (forall x, x ∈ cores -> x < 4 * i) ->
  exists cs, read_digits ds i cores = Some cs /\ sorted cs /\
    forall x, x ∈ cs <-> x ∈ cores \/
      exists k c b, ds !! k = Some c /\ 0 <= b < 4 /\ x = 4 * (i + Z.of_nat k) + b /\
        Z.testbit (getHexIndex c) b = true.
Proof.
  intros H. revert i cores; induction H as [|c ds Hc _ IH]; intros i cores So B; cbn [read_digits].
  - exists cores. split_and!; try done. intros x. split; [by left|]. intros [?|(? & ? & ? & ? & ?)]; done.
  - destruct (hexch_index c Hc) as [Rc ->].
    destruct (IH (i + 1) (cores ++ digit_cores i (getHexIndex c))) as (cs & -> & Sc & M).
    + apply StronglySorted_app_2; [|done|by apply sorted_digit_cores].
      intros x y Hx Hy. apply elem_digit_cores in Hy as (b & ? & -> & _); [|done].
      specialize (B x Hx). lia.
    + intros x. rewrite elem_of_app, elem_digit_cores by done.
      intros [Hx|(b & ? & -> & _)]; [specialize (B x Hx)|]; lia.
    + exists cs. split_and!; [done|done|]. intros x. rewrite M, elem_of_app, elem_digit_cores by done. split.
      * intros [[?|(b & ? & -> & ?)]|(k & c' & b & ? & ? & -> & ?)]; [by left| |]; right.
        -- exists 0%nat, c, b. split_and!; simpl; try done; lia.
        -- exists (S k), c', b. split_and!; simpl; try done; lia.
      * intros [?|([|k] & c' & b & ? & ? & -> & ?)]; [by left; left| |].
        -- simpl in *. simplify_eq. left. right. exists b. split_and!; try done; lia.
        -- right. exists k, c', b. split_and!; simpl in *; try done; lia.
Qed.

Lemma rev_reverse {A} (l : list A) : rev l = reverse l.
Proof. exact (List.rev_alt l). Qed.

(** The lcores a mask names, by its digits from the right. *)
Lemma readCPUHexMap_digits cpumap :
  Forall hexch cpumap ->
  exists cs, read_digits (rev cpumap) 0 [] = Some cs /\ sorted cs /\
    (forall x, x ∈ cs -> 0 <= x) /\
    forall x, 0 <= x -> (x ∈ cs <-> Z.testbit (dig cpumap (Z.to_nat (x / 4))) (x mod 4) = true).
Proof.
  intros H. destruct (read_digits_spec (rev cpumap) 0 []) as (cs & E & So & M).
  - by apply Forall_rev.
  - constructor.
  - intros x Hx. by apply not_elem_of_nil in Hx.
  - exists cs. split_and!; [done|done| |].
    { intros x Hx. apply M in Hx as [Hx|(k & c & b & ? & ? & -> & ?)]; [by apply not_elem_of_nil in Hx|lia]. }
    intros x Hx. rewrite M. split.
    + intros [Hn|(k & c & b & Hk & Hb & -> & T)]; [by apply not_elem_of_nil in Hn|].
      pose proof (lookup_lt_Some _ _ _ Hk) as L. rewrite length_rev in L.
      rewrite rev_reverse, reverse_lookup in Hk by lia.
      replace (Z.to_nat ((4 * (0 + Z.of_nat k) + b) / 4)) with k by zlia.
      replace ((4 * (0 + Z.of_nat k) + b) mod 4) with b by zlia.
      unfold dig. rewrite (proj2 (Nat.ltb_lt _ _)) by lia.
      replace (length cpumap - 1 - k)%nat with (length cpumap - S k)%nat by lia. by rewrite Hk.
    + intros T. right. set (k := Z.to_nat (x / 4)) in *.
      unfold dig in T. destruct (Nat.ltb_spec k (length cpumap)); [|by rewrite Z.bits_0 in T].
      destruct (lookup_lt_is_Some_2 cpumap (length cpumap - 1 - k)) as [c Hc]; [lia|].
      rewrite Hc in T. simpl in T. exists k, c, (x mod 4). split_and!; try done; try zlia.
      rewrite rev_reverse, reverse_lookup by lia.
      by replace (length cpumap - S k)%nat with (length cpumap - 1 - k)%nat by lia.
Qed.

(** ** The first word of a text *)

Definition ascii (c : Z) : Prop := c < 0x80.

Lemma index_func_ascii f l : forall r fuel i, Forall (fun c => ascii c /\ f c = false) l ->
  index_func f (length l + fuel) (l ++ r) i = index_func f fuel r (i + length l).
Proof.
  induction l as [|c l IH]; intros r fuel i F; cbn [length app Nat.add]; [by rewrite Nat.add_0_r|]. apply Forall_cons in F as [[A N] F].
  cbn [index_func]. unfold DecodeRune. rewrite (proj2 (Z.ltb_lt c 0x80)) by done. rewrite N. cbn [drop]. rewrite drop_0, IH by done. f_equal. lia.
Qed.
Lemma IndexFunc_ascii f l r : Forall (fun c => ascii c /\ f c = false) l ->
  IndexFunc (l ++ r) f = match r with
                         | [] => None
                         | c :: _ => if bool_decide (ascii c) && f c then Some (length l) else index_func f (length r) r (length l)
                         end.
Proof.
  intros F. unfold IndexFunc. rewrite length_app, index_func_ascii by done. destruct r as [|c r]; [done|]. cbn [length].
  case_bool_decide as A; [|done]. destruct (f c) eqn:E; [|done]. cbn [andb index_func]. unfold DecodeRune.
  rewrite (proj2 (Z.ltb_lt c 0x80)) by done. by rewrite E.
Qed.

(** A word [w] of ASCII characters, and what may be behind it. *)
Definition word_char (c : Z) : Prop := ascii c /\ IsSpace c = false.
Definition word_end (tl : list Z) : Prop := match tl with [] => True | c :: _ => ascii c /\ IsSpace c = true end.

Lemma ScanWords_in_word w atEOF : Forall word_char w ->
  ScanWords w atEOF = Some (if atEOF && (0 <? length w)%nat then (length w, Some w, None) else (0%nat, None, None)).
Proof.
  intros F. unfold ScanWords. destruct w as [|c w]; [by destruct atEOF|]. apply Forall_cons in F as Fc. destruct Fc as [[A N] _].
  pose proof (IndexFunc_ascii (fun r => negb (IsSpace r)) [] (c :: w)) as E. cbn [app] in E. rewrite E by constructor. rewrite N, bool_decide_eq_true_2 by done.
  cbn [andb negb default from_option id length drop]. rewrite ?drop_0. pose proof (IndexFunc_ascii IsSpace (c :: w) [] F) as E2. rewrite app_nil_r in E2. by rewrite E2.
Qed.

Lemma ScanWords_word w tl atEOF : Forall word_char w -> w <> [] -> word_end tl -> tl <> [] ->
  ScanWords (w ++ tl) atEOF = Some ((length w + 1)%nat, Some w, None).
Proof.
  intros F Nw W Nt. unfold ScanWords. destruct w as [|c w]; [done|]. apply Forall_cons in F as Fc. destruct Fc as [[A N] _].
  destruct tl as [|d tl]; [done|]. destruct W as [Ad Sd].
  pose proof (IndexFunc_ascii (fun r => negb (IsSpace r)) [] (c :: w ++ d :: tl)) as E. cbn [app] in E |- *. rewrite E by constructor. rewrite N, bool_decide_eq_true_2 by done.
  cbn [andb negb default from_option id length drop]. rewrite ?drop_0. pose proof (IndexFunc_ascii IsSpace (c :: w) (d :: tl) F) as E2. cbn [app] in E2. rewrite E2, bool_decide_eq_true_2, Sd by done.
  cbn [andb]. rewrite Nat.add_0_l. pose proof (drop_app_length (c :: w) (d :: tl)) as D. pose proof (take_app_length (c :: w) (d :: tl)) as T. cbn [app] in D, T. rewrite D, T.
  unfold DecodeRune. by rewrite (proj2 (Z.ltb_lt d 0x80)) by done.
Qed.

(** The scanner finds the word, in however many pieces it was read. *)
Lemma Scan_first_word fuel w tl : Forall word_char w -> w <> [] -> word_end tl -> len w < MaxScanTokenSize ->
  forall s, scanning s -> remaining s = w ++ tl -> (steps_left s <= fuel)%nat ->
  exists s', Scan ScanWords fuel s = Some (Some w, s') /\ (scan_err s' = None \/ scan_err s' = Some EOF).
Proof.
  intros F Nw W L. induction fuel as [|fuel IH]; intros s I R Hf; [unfold steps_left in Hf; destruct (scan_err s); lia|]. cbn [Scan].
  pose proof (sc_err s I) as X. destruct (scan_err s) as [e|] eqn:E.
  - destruct e; try done. destruct X as [U _]. unfold remaining in R. rewrite U, app_nil_r in R. rewrite R, bool_decide_eq_true_2 by eauto.
    assert (S : exists n, ScanWords (w ++ tl) true = Some (n, Some w, None) /\ (n <= length (w ++ tl))%nat).
    { rewrite length_app. destruct tl as [|d tl].
      - rewrite app_nil_r, ScanWords_in_word by done. destruct w; [done|]. eexists. split; [reflexivity|]. cbn. lia.
      - rewrite ScanWords_word by done. eexists. split; [reflexivity|]. cbn. lia. }
    destruct S as (n & -> & Hn). rewrite (proj2 (Nat.ltb_ge _ _)) by done. destruct w as [|c w]; [done|]. cbn [app].
    eexists. split; [reflexivity|]. right. exact E.
  - assert (More : (length (data s) <= length w)%nat -> exists s', match refill s with inl s => Some (None, s) | inr s => Scan ScanWords fuel s end = Some (Some w, s') /\
      (scan_err s' = None \/ scan_err s' = Some EOF)).
    { intros Ld. destruct (refill_more s I E) as [[_ T]|(s2 & -> & I2 & R2 & F2)]; [unfold len in *; lia|]. apply IH; [done|by rewrite R2|lia]. }
    destruct (data s) as [|b l] eqn:Ed; [apply More; cbn; lia|]. rewrite <- Ed in *. rewrite bool_decide_eq_false_2 by (by intros [? [=]]).
    assert (T : take (length (data s)) (w ++ tl) = data s) by (rewrite <- R; by apply take_app_length).
    destruct (decide (length (data s) <= length w)%nat) as [Le|Gt].
    + rewrite take_app_le in T by done. assert (Sc : ScanWords (data s) false = Some (0%nat, None, None)) by (rewrite <- T, ScanWords_in_word; [done|by apply Forall_take]). rewrite Sc.
      change (length (data s) <? 0)%nat with false. cbv iota. replace (advance 0 s) with s by (unfold advance; destruct s; cbn; by rewrite Z.add_0_r). by apply More.
    + rewrite take_app_ge in T by lia. destruct tl as [|d tl]; [exfalso; rewrite take_nil, app_nil_r in T; apply (f_equal length) in T; lia|].
      destruct (length (data s) - length w)%nat as [|k] eqn:K; [lia|]. cbn [take] in T.
      assert (Sc : ScanWords (data s) false = Some ((length w + 1)%nat, Some w, None)) by (rewrite <- T; by apply ScanWords_word). rewrite Sc. rewrite (proj2 (Nat.ltb_ge _ _)) by lia. eexists. split; [reflexivity|]. by left.
Qed.

(** The scan ends, with a token or without, whatever the text. *)
Lemma ScanWords_total data atEOF : exists n tok, ScanWords data atEOF = Some (n, tok, None).
Proof. unfold ScanWords. destruct (IndexFunc (drop _ data) IsSpace); [|destruct (_ && _)]; eauto. Qed.
Lemma Scan_total fuel : forall s, scanning s -> (steps_left s <= fuel)%nat -> is_Some (Scan ScanWords fuel s).
Proof.
  induction fuel as [|fuel IH]; intros s I Hf; [unfold steps_left in Hf; destruct (scan_err s); lia|]. cbn [Scan].
  destruct (ScanWords_total (data s) (bool_decide (is_Some (scan_err s)))) as (n & tok & E).
  assert (More : forall s1, scanning s1 -> scan_err s1 = scan_err s -> unread s1 = unread s ->
    is_Some (match refill s1 with inl s => Some (None, s) | inr s => Scan ScanWords fuel s end)).
  { intros s1 I1 E1 U1. destruct (scan_err s1) as [e|] eqn:Es; [unfold refill; rewrite Es; by eexists|].
    destruct (refill_more s1 I1 Es) as [[-> _]|(s2 & -> & I2 & _ & F2)]; [by eexists|]. apply IH; [done|].
    unfold steps_left in *. rewrite <- E1 in Hf. rewrite Es, U1 in F2. lia. }
  assert (P : is_Some match ScanWords (data s) (bool_decide (is_Some (scan_err s))) with
    | None => None
    | Some (_, _, Some e) => Some (None, setErr (SplitError e) s)
    | Some (n, token, None) =>
        if (length (data s) <? n)%nat then Some (None, setErr ErrAdvanceTooFar s)
        else match token with
             | Some t => Some (Some t, advance n s)
             | None => match refill (advance n s) with inl s => Some (None, s) | inr s => Scan ScanWords fuel s end
             end end).
  { rewrite E. destruct (Nat.ltb_spec (length (data s)) n); [by eexists|]. destruct tok; [by eexists|]. apply More; [by apply scanning_advance|done|done]. }
  destruct (data s) eqn:Ed, (scan_err s) eqn:Es; try exact P. by apply More.
Qed.

(** So [readCPUHexMap] is never without a result for want of fuel. *)
Lemma readCPUHexMap_scans text : is_Some (Scan ScanWords (length text + 3) (NewScanner text)).
Proof. apply Scan_total; [apply scanning_new|unfold steps_left; cbn; lia]. Qed.

(** ** Sizes of masks *)

Lemma hex_add_length n out out' k : hex_add out n = Some out' -> 0 <= n < 4 * Z.of_nat k -> (length out <= k)%nat -> (length out' <= k)%nat.
Proof.
  unfold hex_add. intros E Hn Lo. rewrite Z.quot_div_nonneg in E by lia. assert (Q : n / 4 < Z.of_nat k) by zlia.
  set (o := if _ <=? _ then _ else out) in E. assert (Ho : (length o <= k)%nat).
  { unfold o. destruct (Z.leb_spec (Z.of_nat (length out)) (n / 4)); [|done]. rewrite length_app, length_replicate. lia. }
  repeat case_match; try done. injection E as <-. by rewrite length_insert.
Qed.
Lemma hex_from_length k a : forall out s, hex_from out a = Some s -> Forall (fun n => 0 <= n < 4 * Z.of_nat k) a -> (length out <= k)%nat -> (length s <= k)%nat.
Proof.
  induction a as [|n a IH]; intros out s E F Lo; cbn [hex_from] in E; [by injection E as <-|]. apply Forall_cons in F as [Hn F].
  destruct (hex_add out n) as [o|] eqn:Eo; [|done]. eapply IH; [exact E|done|]. by eapply hex_add_length.
Qed.

Lemma readCPUHexMap_word w tl : Forall word_char w -> w <> [] -> word_end tl -> len w < MaxScanTokenSize ->
  readCPUHexMap (Some (w ++ tl)) = read_digits (rev w) 0 [].
Proof.
  intros F Nw W L. unfold readCPUHexMap.
  destruct (Scan_first_word (length (w ++ tl) + 3) w tl F Nw W L (NewScanner (w ++ tl))) as (s & -> & [-> | ->]);
    [apply scanning_new|done|unfold steps_left; cbn; lia|done|done].
Qed.

Lemma hexch_word_char c : hexch c -> word_char c.
Proof.
  intros Hc. pose proof (hexch_cases (fun c => (c <? 0x80) && negb (IsSpace c)) c Hc eq_refl) as E.
  apply andb_true_iff in E as [E1 E2]. split; [by apply Z.ltb_lt|by apply negb_true_iff].
Qed.

(** Printing a set of non-negative integers and reading the text back as a
    CPU map (a trailing newline or not) gives the members of the set in
    increasing order, if the text is one that the scanner can hold. *)
Theorem hexMap_roundtrip ns tl :
  Forall (fun n => 0 <= n < 4 * (MaxScanTokenSize - 1)) ns -> (tl = [] \/ tl = [10]) ->
  let m := foldl Map_Set (mkMap []) ns in
  exists s, Map_String m = Some s /\ readCPUHexMap (Some (s ++ tl)) = Some (array m).
Proof.
  intros H Ht m. destruct (Set_all (mkMap []) ns map_wf_empty) as [W E]. fold m in W, E.
  assert (M : forall x, x ∈ array m <-> x ∈ ns).
  { intros x. rewrite <- !(elem_of_list_to_set (C := gset Z)). change (list_to_set (array m)) with (map_members m).
    rewrite E. unfold map_members. simpl. set_solver. }
  destruct (hex_from_spec (array m) []) as (s & Es & Fs & Ds).
  { constructor. }
  { apply Forall_forall. intros x Hx. rewrite Forall_forall in H. by apply H, M. }
  exists s. split; [exact Es|].
  assert (Rd : readCPUHexMap (Some (s ++ tl)) = read_digits (rev s) 0 []).
  { assert (L : (length s <= Z.to_nat (MaxScanTokenSize - 1))%nat).
    { eapply hex_from_length; [exact Es| |apply Nat.le_0_l]. apply Forall_forall. intros x Hx. rewrite Forall_forall in H.
      apply M in Hx. specialize (H x Hx). rewrite Z2Nat.id by done. exact H. }
    destruct s as [|c s]; [destruct Ht as [->| ->]; vm_compute; reflexivity|]. apply readCPUHexMap_word; [|done|by destruct Ht as [->| ->]|].
    - eapply Forall_impl; [exact Fs|]. apply hexch_word_char.
    - unfold len, MaxScanTokenSize in *. lia. }
  rewrite Rd. destruct (readCPUHexMap_digits s Fs) as (cs & -> & Sc & P & Mc). f_equal.
  apply sorted_ext; [done|done|]. intros x. split.
  - intros Hx. pose proof (P x Hx) as Px. apply Mc in Hx; [|done].
    rewrite Ds in Hx by (apply Z.mod_pos_bound; lia).
    assert (Z0 : dig [] (Z.to_nat (x / 4)) = 0) by done. rewrite Z0, Z.bits_0 in Hx. simpl in Hx.
    apply bool_decide_eq_true in Hx. by replace (4 * Z.of_nat (Z.to_nat (x / 4)) + x mod 4) with x in Hx by zlia.
  - intros Hx. assert (Px : 0 <= x) by (rewrite Forall_forall in H; by apply H, M).
    apply Mc; [done|]. rewrite Ds by (apply Z.mod_pos_bound; lia).
    rewrite bool_decide_true; [by rewrite orb_true_r|].
    by replace (4 * Z.of_nat (Z.to_nat (x / 4)) + x mod 4) with x by zlia.
Qed.

Lemma hexMap_roundtrip_witness :
  exists s, Map_String (foldl Map_Set (mkMap []) [9; 0; 4; 4]) = Some s /\
    readCPUHexMap (Some (s ++ [10])) = Some [0; 4; 9].
Proof.
  apply (hexMap_roundtrip [9; 0; 4; 4] [10]).
  - repeat constructor; lia.
  - by right.
Defined.

(** More than 32 CPUs are printed by Linux in comma-separated groups, which is
    not a map the reader accepts. *)
Example readCPUHexMap_comma : readCPUHexMap (Some (str "00000000,0000000f")) = None.
Proof. reflexivity. Qed.

(** ** The NUMA table *)

Lemma read_digits_nonneg ds i cores cs :
  read_digits ds i cores = Some cs -> 0 <= i -> Forall (fun x => 0 <= x) cores -> Forall (fun x => 0 <= x) cs.
Proof.
  revert i cores; induction ds as [|c ds IH]; intros i cores E Hi F; cbn [read_digits] in E.
  - by simplify_eq.
  - destruct (lcore_hexMap c) as [n|]; [|done]. eapply IH; [done|lia|].
    apply Forall_app; split; [done|]. unfold digit_cores.
    repeat apply Forall_app_2; case_match; repeat constructor; lia.
Qed.

Lemma readCPUHexMap_nonneg b cs : readCPUHexMap b = Some cs -> Forall (fun x => 0 <= x) cs.
Proof.
  destruct b as [t|]; [|done]. unfold readCPUHexMap. destruct (Scan _ _ _) as [[tok s]|]; [|done]. intros E.
  assert (D : read_digits (rev (default [] tok)) 0 [] = Some cs) by (by destruct (scan_err s) as [[]|]).
  eapply read_digits_nonneg; [exact D|lia|constructor].
Qed.

Lemma note_cores_spec m mx n cs :
  0 <= mx ->
  (forall c, (note_cores m mx n cs).1 !! c = if decide (c ∈ cs) then Some n else m !! c) /\
  (note_cores m mx n cs).2 = foldr Z.max mx cs /\ mx <= (note_cores m mx n cs).2.
Proof.
  revert m mx; induction cs as [|c cs IH]; intros m mx Hm; cbn [note_cores].
  - simpl. split_and!; try done; try lia.
  - destruct (IH (<[c:=n]> m) (if mx <? c then c else mx)) as (L & X & G).
    { destruct (Z.ltb_spec mx c); lia. }
    split_and!.
    + intros c'. rewrite L. destruct (decide (c' ∈ cs)) as [I|I].
      * by rewrite decide_True by by right.
      * destruct (decide (c' = c)) as [->|Ne].
        -- rewrite lookup_insert_eq. by rewrite decide_True by left.
        -- rewrite lookup_insert_ne by done. rewrite decide_False; [done|].
           by rewrite elem_of_cons; intros [?|?].
    + rewrite X. simpl. clear. revert mx. induction cs as [|d cs IH]; intros mx; simpl.
      * destruct (Z.ltb_spec mx c); lia.
      * rewrite IH. lia.
    + destruct (Z.ltb_spec mx c); lia.
Qed.

(** The last node of the list [cs] of core lists, the first numbered [n0], that
    names core [c]. *)
Fixpoint last_node (n0 c : Z) (cs : list (list Z)) : option Z :=
  match cs with
  | [] => None
  | l :: r =>
      match last_node (n0 + 1) c r with
      | Some n => Some n
      | None => if decide (c ∈ l) then Some n0 else None
      end
  end.

Definition node_read (nd : opened) (cs : list Z) : Prop :=
  exists b, nd = Content b /\ readCPUHexMap b = Some cs.

Lemma load_nodes_spec nodes css m mx n :
  Forall2 node_read nodes css -> 0 <= mx ->
  exists m', load_nodes m mx n nodes = Some (m', foldr Z.max mx (concat css)) /\
    forall c, m' !! c = match last_node n c css with Some k => Some k | None => m !! c end.
Proof.
  intros F. revert m mx n; induction F as [|nd cs nodes css (b & -> & E) _ IH]; intros m mx n Hm.
  - by exists m.
  - cbn [load_nodes]. rewrite E. destruct (note_cores_spec m mx n cs Hm) as (L & X & G).
    destruct (note_cores m mx n cs) as [m1 mx1]. simpl in *.
    destruct (IH m1 mx1 (n + 1)) as (m' & -> & L'); [lia|].
    exists m'. split.
    + do 2 f_equal. rewrite foldr_app, X. clear.
      induction cs as [|c cs IH]; simpl; [done|]. rewrite <- IH. clear.
      generalize (foldr Z.max mx cs) as z. intros z.
      induction (concat css) as [|d l IH]; simpl; [done|]. rewrite IH. lia.
    + intros c. rewrite L'. destruct (last_node (n + 1) c css); [done|]. rewrite L.
      by destruct (decide (c ∈ cs)).
Qed.

(** Filling the table from the map. *)
Lemma fill_spec (m : gmap Z Z) (t : list Z) :
  (forall c n, m !! c = Some n -> 0 <= c < Z.of_nat (length t)) ->
  let t' := map_fold (fun lcore node t => <[Z.to_nat lcore := node]> t) t m in
  length t' = length t /\
  forall c, 0 <= c < Z.of_nat (length t) ->
    t' !! Z.to_nat c = match m !! c with Some n => Some n | None => t !! Z.to_nat c end.
Proof.
  intros B. cbv zeta.
  refine (map_fold_weak_ind (fun t' m =>
    (forall c n, m !! c = Some n -> 0 <= c < Z.of_nat (length t)) ->
    length t' = length t /\ forall c, 0 <= c < Z.of_nat (length t) ->
      t' !! Z.to_nat c = match m !! c with Some n => Some n | None => t !! Z.to_nat c end) _ _ _ _ m B).
  - intros _. split; [done|]. intros c _. by rewrite lookup_empty.
  - intros i x m' r Hi IH Hb. destruct IH as [Lr IH].
    { intros c n Hc. apply (Hb c n). rewrite lookup_insert_ne; [done|]. congruence. }
    rewrite length_insert. split; [done|]. intros c Hc.
    pose proof (Hb i x (lookup_insert_eq _ _ _)).
    destruct (decide (c = i)) as [->|Ne].
    + rewrite list_lookup_insert_eq, lookup_insert_eq by lia. done.
    + rewrite list_lookup_insert_ne, lookup_insert_ne by lia. by apply IH.
Qed.

Lemma last_node_in n0 c cs n : last_node n0 c cs = Some n -> c ∈ concat cs.
Proof.
  revert n0; induction cs as [|l cs IH]; intros n0 E; simpl in *; [done|].
  apply elem_of_app. destruct (last_node (n0 + 1) c cs) eqn:E'; [right; apply (IH (n0 + 1)); congruence|].
  destruct (decide (c ∈ l)); [by left|done].
Qed.

Lemma max_bound cs mx c : c ∈ cs -> c <= foldr Z.max mx cs.
Proof. induction 1; simpl; lia. Qed.

(** When every node's file is read, the table has one entry more than the
    largest core named, [NumaNode] gives a core the last node whose mask names
    it, node 0 when a smaller core is in no mask, and [NumaNodeAny] past the
    table. *)
Theorem loadCPUMap_spec nodes css :
  Forall2 node_read nodes css ->
  exists t, loadCPUMap nodes = Some t /\
    Z.of_nat (length t) = foldr Z.max 0 (concat css) + 1 /\
    forall id, 0 <= id ->
      NumaNode t id =
        if id <? Z.of_nat (length t) then default 0 (last_node 0 id css) else NumaNodeAny.
Proof.
  intros F. destruct (load_nodes_spec nodes css ∅ 0 0 F ltac:(lia)) as (m & E & L).
  unfold loadCPUMap. rewrite E.
  set (mx := foldr Z.max 0 (concat css)) in *.
  assert (Hmx : 0 <= mx) by (unfold mx; clear; induction (concat css); simpl; lia).
  assert (P : forall c n, m !! c = Some n -> 0 <= c <= mx).
  { intros c n Hc. rewrite L, lookup_empty in Hc. destruct (last_node 0 c css) eqn:Hl; [|done].
    apply last_node_in in Hl. split; [|by apply max_bound].
    apply list_elem_of_In, in_concat in Hl as (l & Hl & Hin).
    apply list_elem_of_In in Hl. apply list_elem_of_In in Hin.
    apply list_elem_of_lookup in Hl as [k Hk].
    destruct (Forall2_lookup_r _ _ _ _ _ F Hk) as (nd & _ & b & _ & Eb).
    apply readCPUHexMap_nonneg in Eb. rewrite Forall_forall in Eb. by apply Eb. }
  destruct (fill_spec m (replicate (Z.to_nat (mx + 1)) 0)) as [Lt Lk].
  { intros c n Hc. rewrite length_replicate. specialize (P c n Hc). lia. }
  rewrite length_replicate in Lt, Lk.
  eexists. split; [reflexivity|]. rewrite Lt. split; [lia|]. intros id Hid.
  unfold NumaNode, getNumaNode. rewrite Lt.
  destruct (Z.ltb_spec id (Z.of_nat (Z.to_nat (mx + 1)))); [|done].
  rewrite Lk, L, lookup_empty by lia. destruct (last_node 0 id css); [done|].
  by rewrite lookup_replicate_2 by lia.
Qed.

Lemma loadCPUMap_spec_witness :
  exists t, loadCPUMap [Content (Some (str "00000005")); Content (Some (str "c"))] = Some t /\
    NumaNode t 2 = 1 /\ NumaNode t 1 = 0 /\ NumaNode t 4 = NumaNodeAny.
Proof.
  destruct (loadCPUMap_spec [Content (Some (str "00000005")); Content (Some (str "c"))]
    [[0; 2]; [2; 3]]) as (t & E & L & G).
  - repeat constructor; eexists; split; reflexivity.
  - exists t. split; [exact E|]. change (Z.of_nat (length t) = 4) in L. rewrite !G, L by lia.
    split_and!; reflexivity.
Defined.
