(* ===== verification/Echo.v ===== *)
(** * The test-sniffer application: answering packets

    The body of the receive loop of [src/app/test-sniffer/lcores.go]
    [LcoreFunc], which turns every received packet into its answer: ARP and
    neighbour requests are answered for any address, echo requests become echo
    replies, UDP goes back to its sender. A packet ends freed or in the transmit
    buffer; the logging under [-print] has no effect on it and is left out. *)

From Stdlib Require Import ZArith Lia String.
From stdpp Require Import base list numbers option gmap.
From S2P Require Import Prelude Memory Text Types Mbuf Headers Parse Checksum Build.

Open Scope Z_scope.
Open Scope go_scope.

(** What becomes of the mbuf: [PktMbufFree] or [TxBuffer]. *)
Inductive verdict := PktMbufFree | TxBuffer.

#[export] Instance verdict_eq_dec : EqDecision verdict.
Proof. solve_decision. Defined.

(** The hardware address the program answers with. *)
(* go: app/test-sniffer/lcores.go 183-183 LcoreFunc *)
Definition own_mac : list Z := [0x0a; 0x58; 0xda; 0x97; 0x5a; 0x6f].

(** Swap two array fields, and two numeric ones, of a header. *)
Definition swap_arrays (h : Z) (f g : field) : M World unit :=
  let! tmp := rdb h f in
  let! v := rdb h g in
  wrb h f v ;;
  wrb h g tmp.
Definition swap_fields (h : Z) (f g : field) : M World unit :=
  let! tmp := rd h f in
  let! v := rd h g in
  wr h f v ;;
  wr h g tmp.

(* go: app/test-sniffer/lcores.go 174-188 LcoreFunc *)
Definition answer_ARP (ether : Z) : M World verdict :=
  let! arp := GetARP in
  let! op := rd arp ARPHdr.Operation_ in
  if negb (op =? SwapBytesUint16 ARPRequest) then ret PktMbufFree
  else
    wr arp ARPHdr.Operation_ (SwapBytesUint16 ARPReply) ;;
    let! tmp := rdb arp ARPHdr.SHA_ in
    wrb arp ARPHdr.SHA_ own_mac ;;
    let! sha := rdb arp ARPHdr.SHA_ in
    wrb ether EtherHdr.SAddr_ sha ;;
    wrb arp ARPHdr.THA_ tmp ;;
    swap_arrays arp ARPHdr.SPA_ ARPHdr.TPA_ ;;
    ret TxBuffer.

(** The end of the IPv4 branch: a fresh header checksum. *)
(* go: app/test-sniffer/lcores.go 212-213 LcoreFunc *)
Definition finish_IPv4 (ipv4 : Z) : M World verdict :=
  let! ipCsum := CalculateIPv4Checksum ipv4 in
  let! h := GetIPv4 in
  wr h IPv4Hdr.HdrChecksum_ (SwapBytesUint16 ipCsum) ;;
  ret TxBuffer.

(** By transport protocol: an echo reply, a datagram back, or nothing. *)
(* go: app/test-sniffer/lcores.go 194-211 LcoreFunc *)
Definition answer_transport4 (ipv4 proto : Z) : M World verdict :=
  if proto =? ICMPNumber then
    let! icmp := GetICMPForIPv4 in
    let! type := rd icmp ICMPHdr.MsgType_ in
    if negb (type =? ICMPTypeEchoRequest) then ret PktMbufFree
    else
      wr icmp ICMPHdr.MsgType_ ICMPTypeEchoResponse ;;
      let! data := getP Data in
      let! c := CalculateIPv4ICMPChecksum ipv4 icmp data in
      wr icmp ICMPHdr.Cksum_ (SwapBytesUint16 c) ;;
      finish_IPv4 ipv4
  else if proto =? UDPNumber then
    let! udp := GetUDPForIPv4 in
    swap_fields udp UDPHdr.SrcPort_ UDPHdr.DstPort_ ;;
    finish_IPv4 ipv4
  else ret PktMbufFree.

(* go: app/test-sniffer/lcores.go 189-194 LcoreFunc *)
Definition answer_IPv4 : M World verdict :=
  let! ipv4 := GetIPv4 in
  swap_fields ipv4 IPv4Hdr.SrcAddr_ IPv4Hdr.DstAddr_ ;;
  let! proto := rd ipv4 IPv4Hdr.NextProtoID_ in
  answer_transport4 ipv4 proto.

(** The answer to a neighbour solicitation, up to the pointer to its option. *)
(* go: app/test-sniffer/lcores.go 225-243 LcoreFunc *)
Definition answer_NS_head (ether icmp : Z) : M World Z :=
  ParseL7 ICMPv6Number ;;
  let! msg := GetICMPv6NeighborSolicitationMessage in
  let! rawTargetIP := rdb msg NS_TargetAddr_ in
  wr icmp ICMPHdr.MsgType_ ICMPv6NeighborAdvertisement ;;
  wr icmp ICMPHdr.Identifier_ (SwapBytesUint16 (Z.lor ICMPv6NDSolicitedFlag ICMPv6NDOverrideFlag)) ;;
  let! h := GetIPv6NoCheck in
  wrb h IPv6Hdr.SrcAddr_ rawTargetIP ;;
  wrb ether EtherHdr.SAddr_ own_mac ;;
  let! msg := GetICMPv6NeighborAdvertisementMessage in
  wrb msg NA_TargetAddr_ rawTargetIP ;;
  GetICMPv6NDTargetLinkLayerAddressOption ICMPv6NeighborAdvertisementMessageSize.

(** The checksum of an ICMPv6 answer. *)
Definition finish_ICMPv6 (ipv6 icmp : Z) : M World verdict :=
  let! data := getP Data in
  let! c := CalculateIPv6ICMPChecksum ipv6 icmp data in
  wr icmp ICMPHdr.Cksum_ (SwapBytesUint16 c) ;;
  ret TxBuffer.

(** A solicitation without an option leaves no room for the target's: its
    pointer is nil and the assignment panics. *)
(* go: app/test-sniffer/lcores.go 244-247 LcoreFunc *)
Definition answer_NS (ether ipv6 icmp : Z) : M World verdict :=
  let! option := answer_NS_head ether icmp in
  fillOption option ICMPv6NDTargetLinkLayerAddress ICMPv6NDTargetLinkLayerAddressOptionSize own_mac ;;
  finish_ICMPv6 ipv6 icmp.

(* go: app/test-sniffer/lcores.go 219-260 LcoreFunc *)
Definition answer_transport6 (ether ipv6 proto : Z) : M World verdict :=
  if proto =? ICMPv6Number then
    let! icmp := GetICMPForIPv6 in
    let! icmp6Type := rd icmp ICMPHdr.MsgType_ in
    if icmp6Type =? ICMPv6TypeEchoRequest then
      wr icmp ICMPHdr.MsgType_ ICMPv6TypeEchoResponse ;;
      finish_ICMPv6 ipv6 icmp
    else if icmp6Type =? ICMPv6NeighborSolicitation then answer_NS ether ipv6 icmp
    else if icmp6Type =? ICMPv6TypeRouterSolicitation then ret PktMbufFree
    else ret TxBuffer
  else if proto =? UDPNumber then
    let! udp := GetUDPForIPv6 in
    swap_fields udp UDPHdr.SrcPort_ UDPHdr.DstPort_ ;;
    ret TxBuffer
  else ret PktMbufFree.

(* go: app/test-sniffer/lcores.go 214-219 LcoreFunc *)
Definition answer_IPv6 (ether : Z) : M World verdict :=
  let! ipv6 := GetIPv6 in
  let! h := GetIPv6NoCheck in
  swap_arrays h IPv6Hdr.SrcAddr_ IPv6Hdr.DstAddr_ ;;
  let! proto := rd ipv6 IPv6Hdr.Proto_ in
  answer_transport6 ether ipv6 proto.

(** The tunnel of the answer: outer addresses swapped, no outer UDP checksum. *)
(* go: app/test-sniffer/lcores.go 262-275 LcoreFunc *)
Definition answer_overlay : M World unit :=
  let! overlay := getP Overlay in
  if overlay then
    let! e := getP OuterEther in
    swap_arrays e EtherHdr.SAddr_ EtherHdr.DAddr_ ;;
    let! outIPv4 := getP OuterIPv4Hdr in
    swap_fields outIPv4 IPv4Hdr.SrcAddr_ IPv4Hdr.DstAddr_ ;;
    let! u := getP OuterUDPHdr in
    wr u UDPHdr.DgramCksum_ 0
  else ret tt.

(** The packet once it is parsed: the frame goes back to its sender. *)
(* go: app/test-sniffer/lcores.go 170-174 LcoreFunc *)
Definition answer_parsed : M World verdict :=
  let! ether := GetEther in
  swap_arrays ether EtherHdr.SAddr_ EtherHdr.DAddr_ ;;
  let! t := rd ether EtherHdr.EtherType_ in
  let! v :=
    (if t =? SwapBytesUint16 ARPNumber then answer_ARP ether
     else if t =? SwapBytesUint16 IPV4Number then answer_IPv4
     else if t =? SwapBytesUint16 IPV6Number then answer_IPv6 ether
     else ret TxBuffer) in
  match v with
  | PktMbufFree => ret PktMbufFree
  | TxBuffer => answer_overlay ;; ret TxBuffer
  end.

(** One received packet: [c] is its mbuf. *)
(* go: app/test-sniffer/lcores.go 135-140 LcoreFunc *)
Definition answer (c : Z) : M World verdict :=
  putP (fun _ => zero_packet c) ;;
  VxlanDecap ;;
  ParseData ;;
  answer_parsed.

(** The packets of a burst, in order. *)
(* go: app/test-sniffer/lcores.go 135-140 LcoreFunc *)
Fixpoint answer_burst (buf : list Z) : M World (list verdict) :=
  match buf with
  | [] => ret []
  | c :: r =>
      let! v := answer c in
      let! vs := answer_burst r in
      ret (v :: vs)
  end.
