(* ===== verification/EchoSpec.v ===== *)
(** * The test-sniffer application: what an answer looks like

    Byte-level theorems about [answer]: the frame that goes back for an ARP
    request, an ICMP echo request, a UDP datagram and a neighbour solicitation,
    what is freed instead, and the solicitation that panics. *)

From Stdlib Require Import ZArith Lia String.
From stdpp Require Import base list numbers option gmap.
From S2P Require Import Prelude Memory Text Types Mbuf Headers Parse ParseSpec Checksum ChecksumSpec Logic.
From S2P Require Import Build BuildSpec Echo.

Open Scope Z_scope.
Open Scope go_scope.

(** ** Steps *)

Lemma frame_sub m q x y z : frame m q (x ++ y ++ z) -> frame m (q + Z.of_nat (length x)) y.
Proof.
  intros F. pose proof F as [_ P T Ok]. rewrite !length_app in T.
  pose proof (frame_bytes m q _ (length x) (length y) F ltac:(rewrite !length_app; lia)) as L.
  rewrite drop_app_length, take_app_length in L.
  split; [done|lia|lia|]. apply Forall_app in Ok as [_ Ok]. by apply Forall_app in Ok as [? _].
Qed.

Lemma frame_sub' m q bs p x y z :
  frame m q bs -> bs = x ++ y ++ z -> p = q + Z.of_nat (length x) -> frame m p y.
Proof. intros F -> ->. by eapply frame_sub. Qed.

Section Swap.
Variables (w : World) (q : Z) (bs : list Z) (h : Z) (o : nat) (f g : field).
Hypothesis F : frame (heap w) q bs.
Hypothesis Eh : h = q + Z.of_nat o.
Hypothesis Hf : 0 <= f_off f.
Hypothesis Hg : 0 <= f_off g.
Hypothesis Sz : f_size f = f_size g.
Let of_ := (o + Z.to_nat (f_off f))%nat.
Let og := (o + Z.to_nat (f_off g))%nat.
Hypothesis Lf : (of_ + f_size f <= length bs)%nat.
Hypothesis Lg : (og + f_size g <= length bs)%nat.

Definition swapped (n i j : nat) (l : list Z) : list Z :=
  splice j (take n (drop i l)) (splice i (take n (drop j l)) l).

Lemma take_drop_len n i (l : list Z) : (i + n <= length l)%nat -> length (take n (drop i l)) = n.
Proof. intros. rewrite length_take, length_drop. lia. Qed.

Lemma take_drop_bytes n i : Forall byte_ok (take n (drop i bs)).
Proof. apply Forall_take, Forall_drop, F. Qed.

Lemma wp_swap_arrays (Q : unit -> World -> Prop) :
  (forall m', frame m' q (swapped (f_size f) of_ og bs) -> Q tt (set_heap m' w)) ->
  wp (swap_arrays h f g) Q w.
Proof.
  intros HQ. unfold swap_arrays.
  apply wp_bind. apply (wp_rdb w q bs h o f); try done.
  apply wp_bind. apply (wp_rdb w q bs h o g); try done.
  fold of_ og. pose proof (take_drop_len _ _ _ Lf) as E1. pose proof (take_drop_len _ _ _ Lg) as E2.
  apply wp_bind. apply (wpn_wrb w q bs h o f F Eh Hf).
  { fold of_. rewrite E2. lia. } { apply take_drop_bytes. }
  intros m1 bs1 E L F1. fold of_ in E.
  apply (wpn_wrb (set_heap m1 w) q bs1 h o g F1 Eh Hg).
  { fold og. rewrite E1. lia. } { apply take_drop_bytes. }
  intros m2 bs2 E' L' F2. fold og in E'. apply (HQ m2). subst bs2 bs1. unfold swapped. by rewrite Sz in *.
Qed.

Lemma wp_swap_fields (Q : unit -> World -> Prop) :
  (forall m', frame m' q (swapped (f_size f) of_ og bs) -> Q tt (set_heap m' w)) ->
  wp (swap_fields h f g) Q w.
Proof.
  intros HQ. unfold swap_fields.
  pose proof (take_drop_len _ _ _ Lf) as E1. pose proof (take_drop_len _ _ _ Lg) as E2.
  assert (R : forall f, 0 <= f_off f -> (o + Z.to_nat (f_off f) + f_size f <= length bs)%nat ->
    rd h f w = Some (le_val (take (f_size f) (drop (o + Z.to_nat (f_off f)) bs)), w)).
  { intros f0 H0 L0. rewrite Eh. by apply rd_frame. }
  assert (B : forall n i, length (take n (drop i bs)) = n ->
    le_bytes n (le_val (take n (drop i bs))) = take n (drop i bs)).
  { intros n i E. rewrite <- E at 1. apply le_bytes_val, take_drop_bytes. }
  apply wp_bind. unfold wp at 1. rewrite R by done. apply wp_bind. unfold wp at 1. rewrite R by done.
  fold of_ og. apply wp_bind. apply (wpn_wr w q bs h o f F Eh Hf); [done|].
  intros m1 bs1 E L F1. fold of_ in E.
  apply (wpn_wr (set_heap m1 w) q bs1 h o g F1 Eh Hg); [fold og; lia|].
  intros m2 bs2 E' L' F2. fold og in E'. apply (HQ m2). subst bs2 bs1. unfold swapped.
  rewrite <- Sz in *. rewrite !B in F2 by done. exact F2.
Qed.
End Swap.

Lemma wp_rd w q bs h o f (Q : Z -> World -> Prop) :
  frame (heap w) q bs -> h = q + Z.of_nat o -> 0 <= f_off f ->
  (o + Z.to_nat (f_off f) + f_size f <= length bs)%nat ->
  Q (le_val (take (f_size f) (drop (o + Z.to_nat (f_off f)) bs))) w -> wp (rd h f) Q w.
Proof. intros F -> Hf H HQ. unfold wp. by rewrite (rd_frame w q bs o f F H Hf). Qed.

Lemma wp_call {A} (m : M World A) a w w' (Q : A -> World -> Prop) :
  m w = Some (a, w') -> Q a w' -> wp m Q w.
Proof. intros E HQ. unfold wp. by rewrite E. Qed.

(** [wp] with a condition for a panic: with [False] it is [wp], and with [True]
    and the postcondition [False] it says that the action panics. *)
Definition wpo {A} (P : Prop) (m : M World A) (Q : A -> World -> Prop) (w : World) : Prop :=
  match m w with
  | Some (a, w') => Q a w'
  | None => P
  end.

Lemma wpo_bind {A B} P (m : M World A) (k : A -> M World B) Q w :
  wp m (fun a w' => wpo P (k a) Q w') w -> wpo P (bind m k) Q w.
Proof. unfold wp, wpo, bind. by destruct (m w) as [[??]|]. Qed.

Lemma wpo_bindo {A B} P (m : M World A) (k : A -> M World B) Q w :
  wpo P m (fun a w' => wpo P (k a) Q w') w -> wpo P (bind m k) Q w.
Proof. unfold wpo, bind. by destruct (m w) as [[??]|]. Qed.

Lemma wpo_wp {A} P (m : M World A) Q w : wp m Q w -> wpo P m Q w.
Proof. unfold wp, wpo. by destruct (m w) as [[??]|]. Qed.

Lemma wpo_none {A} (m : M World A) w : wpo True m (fun _ _ => False) w -> m w = None.
Proof. unfold wpo. by destruct (m w) as [[??]|]. Qed.

Ltac wpo_pure :=
  repeat (lazymatch goal with
          | |- wpo _ (bind _ _) _ _ => apply wpo_bind
          | |- wp (bind _ _) _ _ => apply wp_bind
          | |- wp (ret _) _ _ => apply wp_ret
          | |- wp (getP _) _ _ => apply wp_getP
          | |- wp (gets _) _ _ => apply wp_gets
          | |- wp (putP _) _ _ => apply wp_putP
          end; wcbn).

(** Running the head of [answer] on a frame that is not a VXLAN one. *)
Lemma wpo_answer P w c mb q bs (Q : verdict -> World -> Prop) :
  mbufs w !! c = Some mb -> Mbuf_L2 mb = q -> frame (heap w) q bs -> (MaxHeaders <= length bs)%nat ->
  roomy q -> wire_vxlan bs = None ->
  (forall p, L2 p = q -> Overlay p = false -> CMbuf p = c ->
     wpo P answer_parsed Q (set_pkt (with_layout q (wire_layout bs) p) w)) ->
  wpo P (answer c) Q w.
Proof.
  intros Hmb Hq F H T V HQ. unfold answer. apply wpo_bind, wp_putP. cbv beta.
  destruct (VxlanDecap_none (set_pkt (zero_packet c) w) q mb bs Hmb Hq F H T V) as (p & E & O & L & C).
  apply wpo_bind. apply (wp_call _ _ _ _ _ E). clear E. apply wpo_bind. unfold wp.
  rewrite (ParseData_frame (set_pkt p (set_pkt (zero_packet c) w)) bs).
  - change (L2 (pkt (set_pkt p (set_pkt (zero_packet c) w)))) with (L2 p). rewrite L.
    exact (HQ p L O C).
  - change (frame (heap w) (L2 p) bs). by rewrite L.
  - done.
  - change (roomy (L2 p)). by rewrite L.
Qed.

Lemma wp_answer w c mb q bs (Q : verdict -> World -> Prop) :
  mbufs w !! c = Some mb -> Mbuf_L2 mb = q -> frame (heap w) q bs -> (MaxHeaders <= length bs)%nat ->
  roomy q -> wire_vxlan bs = None ->
  (forall p, L2 p = q -> Overlay p = false -> CMbuf p = c ->
     wp answer_parsed Q (set_pkt (with_layout q (wire_layout bs) p) w)) ->
  wp (answer c) Q w.
Proof. apply (wpo_answer False). Qed.

(** Length conditions on explicit lists, by evaluation. *)
Ltac len_tac := first [apply Nat.leb_le; vm_compute; reflexivity|cbn; lia].

(** Overwriting an explicit list, evaluated. *)
Ltac offsets_in H :=
  repeat match type of H with
         | context [Z.to_nat (f_off ?f)] => let n := eval vm_compute in (Z.to_nat (f_off f)) in
             change (Z.to_nat (f_off f)) with n in H
         | context [f_size ?f] => let n := eval vm_compute in (f_size f) in change (f_size f) with n in H
         end.
Ltac offsets :=
  repeat match goal with
         | |- context [Z.to_nat (f_off ?f)] => let n := eval vm_compute in (Z.to_nat (f_off f)) in
             change (Z.to_nat (f_off f)) with n
         | |- context [f_size ?f] => let n := eval vm_compute in (f_size f) in change (f_size f) with n
         end.
Ltac seg_in H :=
  offsets_in H; unfold swapped, splice in H; cbn [take drop app length Nat.add] in H.

Ltac hdr_step rule o :=
  eapply (rule _ _ _ _ o); [eassumption|ptr_tac|cbn; lia|cbn; lia|reflexivity|len_tac|len_tac
    |let FF := fresh "F" in intros ? FF; seg_in FF; wcbn].
Ltac wp_fields o := hdr_step wp_swap_fields o.
Ltac wp_arrays o := hdr_step wp_swap_arrays o.

(** Reading explicit bytes. *)
Ltac wp_read rule o :=
  eapply (rule _ _ _ _ o); [eassumption|ptr_tac|cbn; lia|len_tac|];
  offsets; cbn [Nat.add take drop].

Ltac bytes_ok :=
  repeat (apply Forall_cons_2; [first [assumption|unfold byte_ok; lia]|]); apply Forall_nil_2.

(** A write of explicit bytes into an explicit frame. *)
Ltac wp_bytes o :=
  eapply (wpn_wrb _ _ _ _ o);
    [eassumption|ptr_tac|cbn; lia|len_tac|bytes_ok|intros ? ? ? ? ?; wcbn].
Ltac seg_write tac :=
  tac; match goal with
       | E : ?x = splice _ _ _ |- _ => seg_in E; subst x
       end.

(** ** ARP *)

Record arp_frame (dst src pre op sha spa tha tpa : list Z) : Prop := {
  af_dst : length dst = 6%nat;
  af_src : length src = 6%nat;
  af_pre : length pre = 6%nat;
  af_op : length op = 2%nat;
  af_sha : length sha = 6%nat;
  af_spa : length spa = 4%nat;
  af_tha : length tha = 6%nat;
  af_tpa : length tpa = 4%nat
}.

(** An ARP frame, [pre] being the hardware and protocol types and lengths. *)
Definition arp_bytes (dst src pre op sha spa tha tpa : list Z) : list Z :=
  dst ++ src ++ [8; 6] ++ pre ++ op ++ sha ++ spa ++ tha ++ tpa.

Lemma op_request x y :
  byte_ok x -> byte_ok y -> (le_val [x; y] =? SwapBytesUint16 ARPRequest) = bool_decide ([x; y] = [0; 1]).
Proof.
  unfold byte_ok. intros. change (SwapBytesUint16 ARPRequest) with 256. cbn [le_val].
  case_bool_decide as E; [by simplify_eq|]. apply Z.eqb_neq. intros Ez. apply E.
  assert (x = 0) as -> by lia. by assert (y = 1) as -> by lia.
Qed.

Lemma wp_answer_ARP w q bs dst src pre op sha spa tha tpa rest (Q : verdict -> World -> Prop) :
  arp_frame dst src pre op sha spa tha tpa ->
  bs = arp_bytes dst src pre op sha spa tha tpa ++ rest -> frame (heap w) q bs ->
  (MaxHeaders <= length bs)%nat -> roomy q -> L2 (pkt w) = q -> L3 (pkt w) = q + 14 ->
  Overlay (pkt w) = false ->
  (if decide (op = [0; 1])
   then forall m', frame m' q (arp_bytes src own_mac pre [0; 2] own_mac tpa sha spa ++ rest) ->
        Q TxBuffer (set_heap m' w)
   else forall m', frame m' q (arp_bytes src dst pre op sha spa tha tpa ++ rest) ->
        Q PktMbufFree (set_heap m' w)) ->
  wp answer_parsed Q w.
Proof.
  intros [D1 D2 D3 D4 D5 D6 D7 D8] -> F H T E2 E3 O HQ. unfold arp_bytes in *.
  explode dst D1. explode src D2. explode pre D3. explode op D4. explode sha D5. explode spa D6.
  explode tha D7. explode tpa D8. cbn [app] in *. unfold roomy, MaxHeaders in *. cbn [length] in H.
  pose proof (frame_pos _ _ _ F) as P.
  unfold answer_parsed, GetEther. wp_pure. rewrite E2. wp_arrays 0%nat. wp_pure.
  pose proof (frame_ok _ _ _ F) as Ok. bytes_inv. wp_pure. wp_read wp_rd 0%nat.
  change (_ =? SwapBytesUint16 ARPNumber) with true. cbv iota. unfold answer_ARP, GetARP, GetEther.
  wp_pure. rewrite E2. wp_read wp_rd 0%nat. change (_ =? SwapBytesUint16 ARPNumber) with true. cbv iota.
  wp_pure. rewrite E3. wp_read wp_rd 14%nat.
  rewrite op_request by done. destruct (decide ([z17; z18] = [0; 1])) as [Eo|Eo].
  2: { rewrite bool_decide_false by done. cbn [negb]. cbv iota. wp_pure. apply HQ. assumption. }
  rewrite bool_decide_true by done. cbn [negb]. cbv iota. injection Eo as -> ->. clear F.
  unfold own_mac in *. clear D1 D2 D3 D4 D5 D6 D7 D8.
  wp_pure. seg_write ltac:(wp_write_swap 14%nat). wp_pure. wp_read wp_rdb 14%nat.
  wp_pure. seg_write ltac:(wp_bytes 14%nat). wp_pure. wp_read wp_rdb 14%nat.
  wp_pure. seg_write ltac:(wp_bytes 0%nat). wp_pure. seg_write ltac:(wp_bytes 14%nat).
  wp_pure. wp_arrays 14%nat. wp_pure. unfold answer_overlay. wp_pure. rewrite O. wp_pure.
  apply HQ. assumption.
Qed.

(** ** IPv4 *)

Lemma inet_checksum_ok bs : Forall byte_ok bs -> 0 <= inet_checksum bs < 65536.
Proof.
  intros F. apply be_words_ok in F. unfold inet_checksum. rewrite ones_sum_norm by done.
  assert (S0 : 0 <= sumZ (be_words bs)).
  { apply sumZ_nonneg. eapply Forall_impl; [exact F|]. unfold word_ok. lia. }
  pose proof (norm16_range _ S0) as R. unfold word_ok in R. lia.
Qed.

(** An IPv4 frame: [h] the ten bytes before the header checksum [ck]. *)
Record ip4_frame (dst src h ck sa da : list Z) (proto : Z) : Prop := {
  i4_dst : length dst = 6%nat;
  i4_src : length src = 6%nat;
  i4_h : length h = 10%nat;
  i4_ck : length ck = 2%nat;
  i4_sa : length sa = 4%nat;
  i4_da : length da = 4%nat;
  i4_ihl : b h 0 mod 16 = 5;
  i4_proto : b h 9 = proto
}.

Definition ip4_bytes (dst src h ck sa da : list Z) : list Z :=
  dst ++ src ++ [8; 0] ++ h ++ ck ++ sa ++ da.

(** The two bytes of a checksum on the wire. *)
Definition be2 (c : Z) : list Z := [c / 256; c mod 256].

Definition header_cksum (h sa da : list Z) : Z := inet_checksum (h ++ [0; 0] ++ sa ++ da).

(** Every IPv4 answer ends by storing the checksum of its header. *)
Lemma wp_finish_IPv4 w q dst src h ck sa da proto tl (Q : verdict -> World -> Prop) :
  ip4_frame dst src h ck sa da proto -> frame (heap w) q (ip4_bytes dst src h ck sa da ++ tl) ->
  roomy q -> L2 (pkt w) = q -> L3 (pkt w) = q + 14 ->
  let c := header_cksum h sa da in
  (accepts h (sa ++ da) c ->
   forall m', frame m' q (ip4_bytes dst src h (be2 c) sa da ++ tl) -> Q TxBuffer (set_heap m' w)) ->
  wp (finish_IPv4 (q + 14)) Q w.
Proof.
  intros [D1 D2 D3 D4 D5 D6 _ _] F T E2 E3 c HQ. unfold ip4_bytes, roomy in *.
  assert (Fh : frame (heap w) (q + 14) (h ++ ck ++ sa ++ da)).
  { eapply (frame_sub' _ _ _ _ (dst ++ src ++ [8; 0]) _ tl F); [by rewrite <- !app_assoc|].
    rewrite !length_app, D1, D2. simpl. lia. }
  destruct (ipv4_header_checksum w (q + 14) (h ++ ck ++ sa ++ da) Fh) as [E A].
  { rewrite !length_app. lia. }
  pose proof (frame_ok _ _ _ Fh) as Ok. apply Forall_app in Ok as [O1 Ok].
  apply Forall_app in Ok as [_ Ok]. apply Forall_app in Ok as [O3 O4].
  assert (R : 0 <= c < 65536).
  { apply inet_checksum_ok. repeat (apply Forall_app; split); try done. repeat constructor; lia. }
  rewrite (take_app_length' h) in E, A by lia.
  rewrite (app_assoc h ck), (drop_app_length' (h ++ ck)) in E, A by (rewrite length_app; lia).
  fold (header_cksum h sa da) in E, A. fold c in E, A. specialize (HQ A). clear A. clearbody c.
  unfold finish_IPv4. apply wp_bind. apply (wp_call _ _ _ _ _ E). clear E Fh O1 O3 O4.
  pose proof (frame_pos _ _ _ F) as P.
  explode dst D1. explode src D2. explode h D3. explode ck D4. explode sa D5. explode da D6.
  cbn [app] in *. unfold GetIPv4, GetEther. wp_pure. rewrite E2. wp_read wp_rd 0%nat.
  change (_ =? SwapBytesUint16 IPV4Number) with true. cbv iota. wp_pure. rewrite E3.
  seg_write ltac:(wp_write_swap 14%nat). wp_pure. apply HQ. assumption.
Qed.

(** The head of the IPv4 branch: addresses swapped, then by protocol. *)
Lemma wp_answer_parsed_IPv4 w q dst src h ck sa da proto tl (Q : verdict -> World -> Prop) :
  ip4_frame dst src h ck sa da proto -> frame (heap w) q (ip4_bytes dst src h ck sa da ++ tl) ->
  roomy q -> L2 (pkt w) = q -> L3 (pkt w) = q + 14 -> Overlay (pkt w) = false ->
  (forall m', frame m' q (ip4_bytes src dst h ck da sa ++ tl) ->
     wp (answer_transport4 (q + 14) proto) (fun v w' => pkt w' = pkt w /\ Q v w') (set_heap m' w)) ->
  wp answer_parsed Q w.
Proof.
  intros [D1 D2 D3 D4 D5 D6 _ Hp] F T E2 E3 O HQ. unfold ip4_bytes, roomy in *.
  pose proof (frame_pos _ _ _ F) as P. pose proof (frame_ok _ _ _ F) as Ok.
  explode dst D1. explode src D2. explode h D3. explode ck D4. explode sa D5. explode da D6.
  unfold b in Hp. simpl in Hp. cbn [app] in *. bytes_inv.
  unfold answer_parsed, GetEther. wp_pure. rewrite E2. wp_arrays 0%nat. wp_pure.
  wp_read wp_rd 0%nat. change (_ =? SwapBytesUint16 ARPNumber) with false.
  change (_ =? SwapBytesUint16 IPV4Number) with true. cbv iota.
  unfold answer_IPv4, GetIPv4, GetEther. wp_pure. rewrite E2. wp_read wp_rd 0%nat.
  change (_ =? SwapBytesUint16 IPV4Number) with true. cbv iota. wp_pure. rewrite E3.
  wp_fields 14%nat. wp_pure. wp_read wp_rd 14%nat.
  cbn [le_val]. rewrite Z.add_0_r. rewrite Hp.
  eapply wp_mono; [by apply HQ|]. intros v w' [Ep Hq]. destruct v; wp_pure; [done|].
  unfold answer_overlay. wp_pure. rewrite Ep, O. by wp_pure.
Qed.

(** What the receive loop hands to [answer]: a received mbuf whose frame has the
    bytes [bs], headroom for the longest headers included. *)
Record received (w : World) (c q : Z) (mb : Mbuf) (bs : list Z) : Prop := {
  rc_mb : mbufs w !! c = Some mb;
  rc_l2 : Mbuf_L2 mb = q;
  rc_frame : frame (heap w) q bs;
  rc_len : (MaxHeaders <= length bs)%nat;
  rc_room : roomy q
}.

(** The answer is the frame [bs'], everything else unchanged. *)
Definition answers (c : Z) (w : World) (v : verdict) (q : Z) (bs' : list Z) : Prop :=
  exists w', answer c w = Some (v, w') /\ frame (heap w') q bs' /\ mbufs w' = mbufs w.

Lemma answers_wp c w v q bs' :
  wp (answer c) (fun v' w' => v' = v /\ frame (heap w') q bs' /\ mbufs w' = mbufs w) w ->
  answers c w v q bs'.
Proof. intros H. apply wp_run in H as (v' & w' & E & -> & ? & ?). by exists w'. Qed.

Lemma wire_ip4 dst src h ck sa da proto tl :
  ip4_frame dst src h ck sa da proto ->
  let bs := ip4_bytes dst src h ck sa da ++ tl in
  wire_layout bs = (Some 34%nat, wire_payload bs 1 proto 34) /\
  (proto <> 17 \/ be16 tl 2 <> 4789 -> wire_vxlan bs = None).
Proof.
  intros [D1 D2 D3 D4 D5 D6 Hi Hp] bs.
  assert (E : be16 bs 12 = 0x0800 /\ b bs 14 = b h 0 /\ b bs 23 = b h 9 /\ be16 bs 36 = be16 tl 2).
  { unfold bs, ip4_bytes. explode dst D1. explode src D2. explode h D3. explode ck D4. explode sa D5.
    explode da D6. split_and!; reflexivity. }
  destruct E as (E12 & E14 & E23 & E36). unfold wire_layout, wire_vxlan.
  rewrite E12, E14, E23, Hi, Hp. change (14 + 4 * Z.to_nat 5)%nat with 34%nat.
  change (34 + 2)%nat with 36%nat. rewrite E36. split; [done|]. cbn [andb].
  intros [N|N]; apply Z.eqb_neq in N; rewrite N; [done|by rewrite andb_false_r].
Qed.

(** Running [answer] up to the protocol of an IPv4 frame that is not a tunnel. *)
Lemma wp_answer_IPv4 w c q mb dst src h ck sa da proto tl (Q : verdict -> World -> Prop) :
  received w c q mb (ip4_bytes dst src h ck sa da ++ tl) -> ip4_frame dst src h ck sa da proto ->
  proto <> 17 \/ be16 tl 2 <> 4789 ->
  (forall p m', L2 p = q -> L3 p = q + 14 -> L4 p = q + 34 ->
     (proto = 1 \/ proto = 17 -> Data p = q + 42) ->
     frame m' q (ip4_bytes src dst h ck da sa ++ tl) ->
     wp (answer_transport4 (q + 14) proto) (fun v w' => pkt w' = p /\ Q v w') (set_heap m' (set_pkt p w))) ->
  wp (answer c) Q w.
Proof.
  intros [R1 R2 R3 R4 R5] I NV HQ. destruct (wire_ip4 _ _ _ _ _ _ _ tl I) as [Wl Wv].
  apply (wp_answer w c mb q _ Q R1 R2 R3 R4 R5 (Wv NV)). intros p L O C. rewrite Wl.
  set (p' := with_layout q _ p).
  assert (P' : L2 p' = q /\ L3 p' = q + 14 /\ L4 p' = q + 34 /\ Overlay p' = false /\
    (proto = 1 \/ proto = 17 -> Data p' = q + 42)).
  { unfold p', with_layout, wire_payload. cbn [fst snd].
    destruct (Z.eqb_spec proto 17), (Z.eqb_spec proto 6), (Z.eqb_spec proto 1);
      split_and!; try done; intros [?|?]; done || lia. }
  clearbody p'. destruct P' as (P2 & P3 & P4 & PO & PD).
  apply (wp_answer_parsed_IPv4 (set_pkt p' w) q dst src h ck sa da proto tl); try done.
  intros m' F'. by apply HQ.
Qed.

Lemma rd_ip4_proto w q dst src h ck sa da proto tl :
  ip4_frame dst src h ck sa da proto -> frame (heap w) q (ip4_bytes dst src h ck sa da ++ tl) ->
  Forall byte_ok h -> rd (q + 14) IPv4Hdr.NextProtoID_ w = Some (proto, w).
Proof.
  intros [D1 D2 D3 D4 D5 D6 Hi Hp] F Ok.
  pose proof (rd_frame w q _ 14 IPv4Hdr.NextProtoID_ F) as R.
  etransitivity; [apply R; [unfold ip4_bytes; rewrite !length_app; simpl; lia|done]|].
  do 2 f_equal. unfold ip4_bytes. explode dst D1. explode src D2. explode h D3.
  unfold b in Hp. simpl in Hp. rewrite <- Hp. simpl. lia.
Qed.

(** The transport part of the IPv4 branch, on a frame whose addresses are
    already swapped. *)
Lemma wp_transport_ICMP w q dst src h ck sa da ty code ick itl db rest (Q : verdict -> World -> Prop) :
  ip4_frame dst src h ck sa da 1 ->
  frame (heap w) q (ip4_bytes dst src h ck sa da ++ [ty; code] ++ ick ++ itl ++ db ++ rest) ->
  length ick = 2%nat -> length itl = 4%nat -> be16 h 2 = 28 + Z.of_nat (length db) ->
  roomy q -> L2 (pkt w) = q -> L3 (pkt w) = q + 14 -> L4 (pkt w) = q + 34 -> Data (pkt w) = q + 42 ->
  let c := inet_checksum ([0; code] ++ [0; 0] ++ itl ++ db) in
  let hc := header_cksum h sa da in
  (if decide (ty = 8)
   then accepts [0; code] (itl ++ db) c -> accepts h (sa ++ da) hc -> forall m',
        frame m' q (ip4_bytes dst src h (be2 hc) sa da ++ [0; code] ++ be2 c ++ itl ++ db ++ rest) ->
        Q TxBuffer (set_heap m' w)
   else Q PktMbufFree w) ->
  wp (answer_transport4 (q + 14) 1) Q w.
Proof.
  intros I F Li Lt El T E2 E3 E4 Ed c hc HQ. unfold answer_transport4. simpl Z.eqb. cbv iota.
  pose proof (frame_pos _ _ _ F) as P. pose proof (frame_ok _ _ _ F) as Ok.
  pose proof I as [D1 D2 D3 D4 D5 D6 Hi Hp].
  assert (Oks : Forall byte_ok h /\ byte_ok ty /\ byte_ok code /\ Forall byte_ok itl /\ Forall byte_ok db).
  { unfold ip4_bytes in Ok. rewrite !Forall_app in Ok. destruct Ok as ((_ & _ & _ & ? & _) & Fc & _ & ? & ? & _).
    bytes_inv. by split_and!. }
  destruct Oks as (Oh & Oty & Oco & Oit & Odb).
  unfold GetICMPForIPv4, GetIPv4NoCheck. wp_pure. rewrite E3.
  apply (wp_call _ _ _ _ _ (rd_ip4_proto w q _ _ _ _ _ _ _ _ I F Oh)). simpl Z.eqb. cbv iota. wp_pure.
  rewrite E4.
  assert (R : rd (q + 34) ICMPHdr.MsgType_ w = Some (ty, w)).
  { etransitivity; [apply (rd_frame w q _ 34 ICMPHdr.MsgType_ F); [|done]|].
    - unfold ip4_bytes. rewrite !length_app. simpl. lia.
    - do 2 f_equal. unfold ip4_bytes. explode dst D1. explode src D2. explode h D3. explode ck D4.
      explode sa D5. explode da D6. simpl. lia. }
  apply (wp_call _ _ _ _ _ R). change ICMPTypeEchoRequest with 8.
  destruct (decide (ty = 8)) as [->|N].
  2: { apply Z.eqb_neq in N. rewrite N. cbn [negb]. cbv iota. by wp_pure. }
  simpl (negb _). cbv iota. wp_pure. clear R.
  assert (W : wp (wr (q + 34) ICMPHdr.MsgType_ ICMPTypeEchoResponse) (fun _ w' => exists m', w' = set_heap m' w /\
    frame m' q (ip4_bytes dst src h ck sa da ++ [0; code] ++ ick ++ itl ++ db ++ rest)) w).
  { unfold ip4_bytes in *. explode dst D1. explode src D2. explode h D3. explode ck D4. explode sa D5.
    explode da D6. cbn [app] in *. seg_write ltac:(wp_write 34%nat). eauto. }
  eapply wp_mono; [exact W|]. clear W. intros _ w' (m1 & -> & F1). wp_pure. rewrite Ed.
  destruct (icmp4_checksum (set_heap m1 w) (q + 14) (h ++ ck ++ sa ++ da) (q + 34)
    ([0; code] ++ ick ++ itl) (q + 42) db) as [E A].
  { eapply (frame_sub' _ _ _ _ (ip4_bytes dst src h ck sa da) _ (db ++ rest) F1); [by rewrite <- !app_assoc|].
    unfold ip4_bytes. rewrite !length_app. simpl. lia. }
  { rewrite !length_app. simpl. lia. }
  { eapply (frame_sub' _ _ _ _ (ip4_bytes dst src h ck sa da ++ [0; code] ++ ick ++ itl) _ rest F1);
      [by rewrite <- !app_assoc|]. unfold ip4_bytes. rewrite !length_app. simpl. lia. }
  { eapply (frame_sub' _ _ _ _ (dst ++ src ++ [8; 0]) _ _ F1); [unfold ip4_bytes; by rewrite <- !app_assoc|].
    rewrite !length_app. simpl. lia. }
  { rewrite !length_app. lia. }
  { rewrite <- El. unfold be16, b. rewrite !lookup_total_app_l by lia. done. }
  change (take 2 ([0; code] ++ ick ++ itl)) with [0; code] in E, A.
  rewrite (app_assoc [0; code] ick) in E, A.
  rewrite (drop_app_length' ([0; code] ++ ick)) in E, A by (rewrite length_app; simpl; lia).
  fold c in E, A. apply (wp_call _ _ _ _ _ E). clear E.
  assert (R : 0 <= c < 65536).
  { apply inet_checksum_ok. rewrite !Forall_app. split_and!; [bytes_ok|bytes_ok|done|done]. }
  specialize (HQ A). clear A. clearbody c. wp_pure.
  assert (W : wp (wr (q + 34) ICMPHdr.Cksum_ (SwapBytesUint16 c)) (fun _ w' => exists m', w' = set_heap m' w /\
    frame m' q (ip4_bytes dst src h ck sa da ++ [0; code] ++ be2 c ++ itl ++ db ++ rest)) (set_heap m1 w)).
  { unfold ip4_bytes, be2 in *. explode dst D1. explode src D2. explode h D3. explode ck D4. explode sa D5.
    explode da D6. explode ick Li. cbn [app] in *. seg_write ltac:(wp_write_swap 34%nat). eauto. }
  eapply wp_mono; [exact W|]. clear W. intros _ w' (m2 & -> & F2).
  eapply (wp_finish_IPv4 (set_heap m2 w) q dst src h ck sa da 1 _ Q I F2); try done.
Qed.

Lemma ip4_swap dst src h ck sa da proto :
  ip4_frame dst src h ck sa da proto -> ip4_frame src dst h ck da sa proto.
Proof. by intros []. Qed.

Lemma wp_transport_UDP w q dst src h ck sa da sp dp utl (Q : verdict -> World -> Prop) :
  ip4_frame dst src h ck sa da 17 ->
  frame (heap w) q (ip4_bytes dst src h ck sa da ++ sp ++ dp ++ utl) ->
  length sp = 2%nat -> length dp = 2%nat ->
  roomy q -> L2 (pkt w) = q -> L3 (pkt w) = q + 14 -> L4 (pkt w) = q + 34 ->
  let hc := header_cksum h sa da in
  (accepts h (sa ++ da) hc -> forall m',
     frame m' q (ip4_bytes dst src h (be2 hc) sa da ++ dp ++ sp ++ utl) -> Q TxBuffer (set_heap m' w)) ->
  wp (answer_transport4 (q + 14) 17) Q w.
Proof.
  intros I F Ls Ld T E2 E3 E4 hc HQ. unfold answer_transport4. simpl Z.eqb. cbv iota.
  pose proof (frame_pos _ _ _ F) as P. pose proof (frame_ok _ _ _ F) as Ok.
  pose proof I as [D1 D2 D3 D4 D5 D6 Hi Hp].
  assert (Oh : Forall byte_ok h).
  { unfold ip4_bytes in Ok. rewrite !Forall_app in Ok. tauto. }
  unfold GetUDPForIPv4, GetIPv4NoCheck. wp_pure. rewrite E3.
  apply (wp_call _ _ _ _ _ (rd_ip4_proto w q _ _ _ _ _ _ _ _ I F Oh)). simpl Z.eqb. cbv iota. wp_pure.
  rewrite E4.
  assert (W : wp (swap_fields (q + 34) UDPHdr.SrcPort_ UDPHdr.DstPort_) (fun _ w' => exists m', w' = set_heap m' w /\
    frame m' q (ip4_bytes dst src h ck sa da ++ dp ++ sp ++ utl)) w).
  { unfold ip4_bytes in *. explode dst D1. explode src D2. explode h D3. explode ck D4. explode sa D5.
    explode da D6. explode sp Ls. explode dp Ld. cbn [app] in *. wp_fields 34%nat. eauto. }
  eapply wp_mono; [exact W|]. clear W. intros _ w' (m2 & -> & F2).
  eapply (wp_finish_IPv4 (set_heap m2 w) q dst src h ck sa da 17 _ Q I F2); done.
Qed.

(** ** IPv6 *)

(** An IPv6 frame: [h] the eight bytes before the addresses. *)
Record ip6_frame (dst src h sa da : list Z) (proto : Z) : Prop := {
  i6_dst : length dst = 6%nat;
  i6_src : length src = 6%nat;
  i6_h : length h = 8%nat;
  i6_sa : length sa = 16%nat;
  i6_da : length da = 16%nat;
  i6_proto : b h 6 = proto
}.

Definition ip6_bytes (dst src h sa da : list Z) : list Z :=
  dst ++ src ++ [0x86; 0xdd] ++ h ++ sa ++ da.

Lemma ip6_swap dst src h sa da proto : ip6_frame dst src h sa da proto -> ip6_frame src dst h da sa proto.
Proof. by intros []. Qed.

Lemma wire_ip6 dst src h sa da proto tl :
  ip6_frame dst src h sa da proto ->
  let bs := ip6_bytes dst src h sa da ++ tl in
  wire_layout bs = (Some 54%nat, wire_payload bs 58 proto 54) /\ wire_vxlan bs = None.
Proof.
  intros [D1 D2 D3 D4 D5 Hp] bs.
  assert (E : be16 bs 12 = 0x86dd /\ b bs 20 = b h 6).
  { unfold bs, ip6_bytes. explode dst D1. explode src D2. explode h D3. split; reflexivity. }
  destruct E as [E12 E20]. unfold wire_layout, wire_vxlan. by rewrite E12, E20, Hp.
Qed.

Lemma wpo_answer_parsed_IPv6 P w q dst src h sa da proto tl (Q : verdict -> World -> Prop) :
  ip6_frame dst src h sa da proto -> frame (heap w) q (ip6_bytes dst src h sa da ++ tl) ->
  roomy q -> L2 (pkt w) = q -> L3 (pkt w) = q + 14 -> Overlay (pkt w) = false ->
  (forall m', frame m' q (ip6_bytes src dst h da sa ++ tl) ->
     wpo P (answer_transport6 q (q + 14) proto) (fun v w' => Overlay (pkt w') = false /\ Q v w') (set_heap m' w)) ->
  wpo P answer_parsed Q w.
Proof.
  intros [D1 D2 D3 D4 D5 Hp] F T E2 E3 O HQ. unfold ip6_bytes, roomy in *.
  pose proof (frame_pos _ _ _ F) as Po. pose proof (frame_ok _ _ _ F) as Ok.
  explode dst D1. explode src D2. explode h D3. explode sa D4. explode da D5.
  unfold b in Hp. simpl in Hp. cbn [app] in *. bytes_inv.
  unfold answer_parsed, GetEther. wpo_pure. rewrite E2. wp_arrays 0%nat. wpo_pure.
  wp_read wp_rd 0%nat. change (_ =? SwapBytesUint16 ARPNumber) with false.
  change (_ =? SwapBytesUint16 IPV4Number) with false.
  change (_ =? SwapBytesUint16 IPV6Number) with true. cbv iota. apply wpo_bindo.
  unfold answer_IPv6, GetIPv6, GetIPv6NoCheck, GetEther. wpo_pure. rewrite E2. wp_read wp_rd 0%nat.
  change (_ =? SwapBytesUint16 IPV6Number) with true. cbv iota. wpo_pure. rewrite E3.
  wp_arrays 14%nat. wpo_pure. wp_read wp_rd 14%nat. cbn [le_val]. rewrite Z.add_0_r, Hp.
  specialize (HQ _ ltac:(eassumption)). revert HQ. unfold wpo at 1 2.
  destruct (answer_transport6 q (q + 14) proto _) as [[v w']|]; [|done]. intros [Ep Hq].
  destruct v; [done|]. apply wpo_wp. unfold answer_overlay. wp_pure. rewrite Ep. by wp_pure.
Qed.

Lemma rd_ip6_proto w q dst src h sa da proto tl :
  ip6_frame dst src h sa da proto -> frame (heap w) q (ip6_bytes dst src h sa da ++ tl) ->
  rd (q + 14) IPv6Hdr.Proto_ w = Some (proto, w).
Proof.
  intros [D1 D2 D3 D4 D5 Hp] F.
  etransitivity; [apply (rd_frame w q _ 14 IPv6Hdr.Proto_ F); [|done]|].
  { unfold ip6_bytes. rewrite !length_app. simpl. lia. }
  do 2 f_equal. unfold ip6_bytes. explode dst D1. explode src D2. explode h D3.
  unfold b in Hp. simpl in Hp. rewrite <- Hp. simpl. lia.
Qed.

(** The length of an ICMPv6 header, an IPv6 header and an Ethernet header, and
    of the target address. *)
Definition ns_room (mb : Mbuf) : bool := 78 <? data_len mb.

Lemma wp_answer_NS_head w q c mb dst src h sa da ty code ick idt sqn tgt tl (Q : Z -> World -> Prop) :
  ip6_frame dst src h sa da 58 ->
  frame (heap w) q (ip6_bytes dst src h sa da ++ [ty; code] ++ ick ++ idt ++ sqn ++ tgt ++ tl) ->
  length ick = 2%nat -> length idt = 2%nat -> length sqn = 2%nat -> length tgt = 16%nat ->
  roomy q -> L2 (pkt w) = q -> L3 (pkt w) = q + 14 -> L4 (pkt w) = q + 54 -> CMbuf (pkt w) = c ->
  mbufs w !! c = Some mb -> 0 <= data_len mb < 65536 ->
  (forall m', frame m' q (ip6_bytes dst own_mac h tgt da ++ [136; code] ++ ick ++ [0x60; 0] ++ sqn ++ tgt ++ tl) ->
     Q (if ns_room mb then q + 78 else 0) (set_heap m' (set_pkt (set_Data (q + 62) (pkt w)) w))) ->
  wp (answer_NS_head q (q + 54)) Q w.
Proof.
  intros [D1 D2 D3 D4 D5 Hp] F Li Ld Ls Lt T E2 E3 E4 Ec Em Hd HQ. unfold ip6_bytes, own_mac, roomy in *.
  pose proof (frame_pos _ _ _ F) as Po. pose proof (frame_ok _ _ _ F) as Ok.
  explode dst D1. explode src D2. explode h D3. explode sa D4. explode da D5. explode ick Li.
  explode idt Ld. explode sqn Ls. explode tgt Lt. cbn [app] in *. bytes_inv.
  unfold answer_NS_head, ParseL7. simpl Z.eqb. cbn [orb]. cbv iota. unfold DataAfter.
  wp_pure. rewrite E4. replace (ptr_add (q + 54) ICMPLen) with (q + 62)
    by (unfold ptr_add, ICMPLen; rewrite u64_small; lia).
  unfold GetICMPv6NeighborSolicitationMessage, GetICMPv6NeighborAdvertisementMessage, GetIPv6NoCheck.
  wp_pure. wp_read wp_rdb 62%nat. wp_pure. seg_write ltac:(wp_write 54%nat). wp_pure.
  change (Z.lor ICMPv6NDSolicitedFlag ICMPv6NDOverrideFlag) with 0x6000.
  seg_write ltac:(wp_write_swap 54%nat). wp_pure. rewrite E3. seg_write ltac:(wp_bytes 14%nat).
  wp_pure. unfold own_mac. seg_write ltac:(wp_bytes 0%nat). wp_pure. seg_write ltac:(wp_bytes 62%nat).
  unfold GetICMPv6NDTargetLinkLayerAddressOption, checkEnoughSpace, StartAtOffset, GetPacketSegmentLen.
  wp_pure. rewrite Ec. eapply wp_of_mbuf; [exact Em|]. wp_pure. rewrite E2.
  change ICMPv6NeighborAdvertisementMessageSize with 16. unfold GetDataLenMbuf.
  unfold ptr_add at 1. rewrite Z.add_0_r, (u64_small q) by lia.
  replace (q + 62 - q) with 62 by lia. change (i64 (u64 62)) with 62. change (i64 16) with 16.
  rewrite (i64_small (data_len mb)), i64_small by lia.
  replace (0 <? data_len mb - 62 - 16) with (ns_room mb)
    by (unfold ns_room; destruct (Z.ltb_spec 78 (data_len mb)); lia).
  destruct (ns_room mb); wp_pure.
  - replace (ptr_add (q + 62) 16) with (q + 78) by (unfold ptr_add; rewrite u64_small; lia).
    apply HQ. assumption.
  - apply HQ. assumption.
Qed.

(** The ICMPv6 checksum of a message with header bytes [h], [sa], [da]. *)
Definition icmp6_pseudo (h sa da db : list Z) : list Z :=
  pseudo6 (h ++ sa ++ da) (be_len (8 + Z.of_nat (length db))).
Definition icmp6_cksum (h sa da : list Z) (ty code : Z) (itl db : list Z) : Z :=
  inet_checksum ((icmp6_pseudo h sa da db ++ [ty; code]) ++ [0; 0] ++ itl ++ db).

Lemma wp_finish_ICMPv6 w q dst src h sa da proto ty code ick itl db rest (Q : verdict -> World -> Prop) :
  ip6_frame dst src h sa da proto ->
  frame (heap w) q (ip6_bytes dst src h sa da ++ [ty; code] ++ ick ++ itl ++ db ++ rest) ->
  length ick = 2%nat -> length itl = 4%nat -> be16 h 4 = 8 + Z.of_nat (length db) ->
  roomy q -> Data (pkt w) = q + 62 ->
  let c := icmp6_cksum h sa da ty code itl db in
  (accepts (icmp6_pseudo h sa da db ++ [ty; code]) (itl ++ db) c -> forall m',
     frame m' q (ip6_bytes dst src h sa da ++ [ty; code] ++ be2 c ++ itl ++ db ++ rest) ->
     Q TxBuffer (set_heap m' w)) ->
  wp (finish_ICMPv6 (q + 14) (q + 54)) Q w.
Proof.
  intros I F Li Lt El T Ed c HQ. pose proof I as [D1 D2 D3 D4 D5 Hp].
  pose proof (frame_pos _ _ _ F) as P. pose proof (frame_ok _ _ _ F) as Ok.
  assert (Fh : frame (heap w) (q + 14) (h ++ sa ++ da)).
  { eapply (frame_sub' _ _ _ _ (dst ++ src ++ [0x86; 0xdd]) _ _ F); [unfold ip6_bytes; by rewrite <- !app_assoc|].
    rewrite !length_app. simpl. lia. }
  assert (Fi : frame (heap w) (q + 54) ([ty; code] ++ ick ++ itl)).
  { eapply (frame_sub' _ _ _ _ (ip6_bytes dst src h sa da) _ (db ++ rest) F); [by rewrite <- !app_assoc|].
    unfold ip6_bytes. rewrite !length_app. simpl. lia. }
  assert (Fd : frame (heap w) (q + 62) db).
  { eapply (frame_sub' _ _ _ _ (ip6_bytes dst src h sa da ++ [ty; code] ++ ick ++ itl) _ rest F);
      [by rewrite <- !app_assoc|]. unfold ip6_bytes. rewrite !length_app. simpl. lia. }
  destruct (icmp6_checksum w (q + 14) (h ++ sa ++ da) (q + 54) ([ty; code] ++ ick ++ itl) (q + 62) db Fi)
    as [E A]; [rewrite !length_app; simpl; lia|done|done|rewrite !length_app; lia| |].
  { rewrite <- El. unfold be16, b. by rewrite !lookup_total_app_l by lia. }
  change (take 2 ([ty; code] ++ ick ++ itl)) with [ty; code] in E, A.
  rewrite (app_assoc [ty; code] ick) in E, A.
  rewrite (drop_app_length' ([ty; code] ++ ick)) in E, A by (rewrite length_app; simpl; lia).
  assert (R : 0 <= c < 65536).
  { pose proof (frame_ok _ _ _ Fh) as Oh. pose proof (frame_ok _ _ _ Fi) as Oi. pose proof (frame_ok _ _ _ Fd) as Od.
    pose proof (be16_range h 4 ltac:(by apply Forall_app in Oh as [? _])) as R. unfold word_ok in R.
    destruct (be_len_ok (8 + Z.of_nat (length db))) as [B1 _]; [lia|].
    destruct (pseudo6_ok (h ++ sa ++ da) (be_len (8 + Z.of_nat (length db))) ltac:(rewrite !length_app; lia) eq_refl Oh B1) as (_ & P2 & _).
    apply inet_checksum_ok. rewrite !Forall_app in Oi. rewrite !Forall_app. destruct Oi as (? & _ & ?).
    split_and!; try done. bytes_ok. }
  fold (icmp6_pseudo h sa da db) in E, A. fold (icmp6_cksum h sa da ty code itl db) in E, A.
  fold c in E, A. specialize (HQ A). clear A Fh Fi Fd Ok. clearbody c. unfold finish_ICMPv6. wp_pure. rewrite Ed.
  apply (wp_call _ _ _ _ _ E). wp_pure. clear E.
  unfold ip6_bytes, be2, roomy in *. explode dst D1. explode src D2. explode h D3. explode sa D4.
  explode da D5. explode ick Li. cbn [app] in *. seg_write ltac:(wp_write_swap 54%nat). wp_pure.
  apply HQ. assumption.
Qed.

(** The packet record the parser leaves for an IPv6 frame. *)
Record parsed6 (p : Packet) (c q : Z) (proto : Z) : Prop := {
  p6_l2 : L2 p = q;
  p6_l3 : L3 p = q + 14;
  p6_l4 : L4 p = q + 54;
  p6_mb : CMbuf p = c;
  p6_overlay : Overlay p = false;
  p6_data : proto = 58 \/ proto = 17 -> Data p = q + 62
}.

Lemma wpo_answer_IPv6 P w c q mb dst src h sa da proto tl (Q : verdict -> World -> Prop) :
  received w c q mb (ip6_bytes dst src h sa da ++ tl) -> ip6_frame dst src h sa da proto ->
  (forall p m', parsed6 p c q proto -> frame m' q (ip6_bytes src dst h da sa ++ tl) ->
     wpo P (answer_transport6 q (q + 14) proto) (fun v w' => Overlay (pkt w') = false /\ Q v w')
       (set_heap m' (set_pkt p w))) ->
  wpo P (answer c) Q w.
Proof.
  intros [R1 R2 R3 R4 R5] I HQ. destruct (wire_ip6 _ _ _ _ _ _ tl I) as [Wl Wv].
  apply (wpo_answer P w c mb q _ Q R1 R2 R3 R4 R5 Wv). intros p L O C. rewrite Wl.
  set (p' := with_layout q _ p).
  assert (P' : parsed6 p' c q proto).
  { unfold p', with_layout, wire_payload. cbn [fst snd].
    destruct (Z.eqb_spec proto 17), (Z.eqb_spec proto 6), (Z.eqb_spec proto 58);
      (split; try done; intros [?|?]; done || lia). }
  clearbody p'.
  apply (wpo_answer_parsed_IPv6 P (set_pkt p' w) q dst src h sa da proto tl); try apply P'; try done.
  intros m' F'. by apply HQ.
Qed.

(** The ICMPv6 branch up to the message type. *)
Lemma wpo_transport6_type P w q dst src h sa da ty tl (Q : verdict -> World -> Prop) :
  ip6_frame dst src h sa da 58 -> frame (heap w) q (ip6_bytes dst src h sa da ++ ty :: tl) ->
  L3 (pkt w) = q + 14 -> L4 (pkt w) = q + 54 ->
  wpo P (if ty =? ICMPv6TypeEchoRequest then
           wr (q + 54) ICMPHdr.MsgType_ ICMPv6TypeEchoResponse ;; finish_ICMPv6 (q + 14) (q + 54)
         else if ty =? ICMPv6NeighborSolicitation then answer_NS q (q + 14) (q + 54)
         else if ty =? ICMPv6TypeRouterSolicitation then ret PktMbufFree
         else ret TxBuffer) Q w ->
  wpo P (answer_transport6 q (q + 14) 58) Q w.
Proof.
  intros I F E3 E4 HQ. unfold answer_transport6. simpl Z.eqb. cbv iota.
  unfold GetICMPForIPv6, GetIPv6NoCheck. wpo_pure. rewrite E3.
  apply (wp_call _ _ _ _ _ (rd_ip6_proto w q _ _ _ _ _ _ _ I F)). simpl Z.eqb. cbv iota. wpo_pure.
  rewrite E4. eapply (wp_call _ ty); [|exact HQ].
  etransitivity; [apply (rd_frame w q _ 54 ICMPHdr.MsgType_ F); [|done]|];
    destruct I as [D1 D2 D3 D4 D5 _]; unfold ip6_bytes.
  - rewrite !length_app. simpl. lia.
  - do 2 f_equal. explode dst D1. explode src D2. explode h D3. explode sa D4. explode da D5. simpl. lia.
Qed.

(** ** Properties *)

(** An ARP request for any address is answered in place: back to the frame's
    sender, the program's hardware address as the sender's and the asked
    protocol address as its own, the requester as target. Any other ARP
    operation is freed, its frame changed only in the Ethernet addresses. *)
Theorem answer_ARP_spec w c q mb dst src pre op sha spa tha tpa rest :
  received w c q mb (arp_bytes dst src pre op sha spa tha tpa ++ rest) ->
  arp_frame dst src pre op sha spa tha tpa ->
  if decide (op = [0; 1])
  then answers c w TxBuffer q (arp_bytes src own_mac pre [0; 2] own_mac tpa sha spa ++ rest)
  else answers c w PktMbufFree q (arp_bytes src dst pre op sha spa tha tpa ++ rest).
Proof.
  intros [R1 R2 R3 R4 R5] A. set (bs := arp_bytes dst src pre op sha spa tha tpa ++ rest) in *.
  assert (E12 : be16 bs 12 = 0x0806).
  { unfold bs, arp_bytes. destruct A as [D1 D2 D3 D4 D5 D6 D7 D8]. explode dst D1. by explode src D2. }
  assert (V : wire_vxlan bs = None) by (unfold wire_vxlan; by rewrite E12).
  assert (Wl : wire_layout bs = (None, None)) by (unfold wire_layout; by rewrite E12).
  destruct (decide (op = [0; 1])) as [Eo|Eo]; apply answers_wp;
    apply (wp_answer w c mb q bs _ R1 R2 R3 R4 R5 V); intros p L O C; rewrite Wl;
    apply (wp_answer_ARP (set_pkt (with_layout q (None, None) p) w) q bs dst src pre op sha spa tha tpa rest);
    try done.
  - by rewrite decide_True.
  - by rewrite decide_False.
Qed.

(** An ICMP echo request over IPv4 comes back as the reply: Ethernet and IP
    addresses swapped, type 0, identifier, sequence number and data as sent,
    with an ICMP checksum and a header checksum a receiver accepts. Other ICMP
    messages are freed. *)
Theorem answer_echo_spec w c q mb dst src h ck sa da ty code ick itl db rest :
  received w c q mb (ip4_bytes dst src h ck sa da ++ [ty; code] ++ ick ++ itl ++ db ++ rest) ->
  ip4_frame dst src h ck sa da 1 -> length ick = 2%nat -> length itl = 4%nat ->
  be16 h 2 = 28 + Z.of_nat (length db) ->
  let ic := inet_checksum ([0; code] ++ [0; 0] ++ itl ++ db) in
  let hc := header_cksum h da sa in
  if decide (ty = 8)
  then answers c w TxBuffer q
         (ip4_bytes src dst h (be2 hc) da sa ++ [0; code] ++ be2 ic ++ itl ++ db ++ rest) /\
       accepts [0; code] (itl ++ db) ic /\ accepts h (da ++ sa) hc
  else answers c w PktMbufFree q
         (ip4_bytes src dst h ck da sa ++ [ty; code] ++ ick ++ itl ++ db ++ rest).
Proof.
  intros R I Li Lt El ic hc. pose proof (rc_room _ _ _ _ _ R) as T.
  destruct (decide (ty = 8)) as [->|N].
  - assert (H : wp (answer c) (fun v w' => (v = TxBuffer /\ frame (heap w') q (ip4_bytes src dst h (be2 hc) da sa ++
        [0; code] ++ be2 ic ++ itl ++ db ++ rest) /\ mbufs w' = mbufs w) /\
        accepts [0; code] (itl ++ db) ic /\ accepts h (da ++ sa) hc) w).
    { eapply wp_answer_IPv4; [exact R|exact I|by left|]. intros p m' L2' L3' L4' Ld F. specialize (Ld (or_introl eq_refl)).
      apply (wp_transport_ICMP _ q src dst h ck da sa 8 code ick itl db rest); try done.
      by apply ip4_swap. }
    apply wp_run in H as (v & w' & E & (-> & F & M) & A). split; [|exact A]. by exists w'.
  - apply answers_wp. eapply wp_answer_IPv4; [exact R|exact I|by left|]. intros p m' L2' L3' L4' Ld F.
    specialize (Ld (or_introl eq_refl)).
    apply (wp_transport_ICMP _ q src dst h ck da sa ty code ick itl db rest); try done.
    { by apply ip4_swap. }
    by rewrite decide_False.
Qed.

(** C12. A UDP datagram over IPv4 without IP options (IHL 5) that is not a tunnel, in a
    received frame with [MaxHeaders] bytes behind its start, goes back to its
    sender: addresses and ports swapped, the rest of the datagram as it came (its
    checksum stays valid: the swap does not change the sum of the words), and
    a fresh header checksum a receiver accepts. With options the checksum is that
    of the first 20 bytes only ([IPv4_options_checksum]). *)
Theorem answer_UDP_spec w c q mb dst src h ck sa da sp dp utl :
  received w c q mb (ip4_bytes dst src h ck sa da ++ sp ++ dp ++ utl) ->
  ip4_frame dst src h ck sa da 17 -> length sp = 2%nat -> length dp = 2%nat -> be16 dp 0 <> 4789 ->
  let hc := header_cksum h da sa in
  answers c w TxBuffer q (ip4_bytes src dst h (be2 hc) da sa ++ dp ++ sp ++ utl) /\
  accepts h (da ++ sa) hc /\
  wsum (da ++ sa ++ dp ++ sp ++ utl) = wsum (sa ++ da ++ sp ++ dp ++ utl).
Proof.
  intros R I Ls Ld NV hc. pose proof (rc_room _ _ _ _ _ R) as T.
  assert (NV' : 17 <> 17 \/ be16 (sp ++ dp ++ utl) 2 <> 4789).
  { right. explode sp Ls. explode dp Ld. exact NV. }
  assert (H : wp (answer c) (fun v w' => (v = TxBuffer /\ frame (heap w') q (ip4_bytes src dst h (be2 hc) da sa ++
      dp ++ sp ++ utl) /\ mbufs w' = mbufs w) /\ accepts h (da ++ sa) hc) w).
  { eapply wp_answer_IPv4; [exact R|exact I|exact NV'|]. intros p m' L2' L3' L4' _ F.
    apply (wp_transport_UDP _ q src dst h ck da sa sp dp utl); try done.
    by apply ip4_swap. }
  apply wp_run in H as (v & w' & E & (-> & F & M) & A). split; [by exists w'|]. split; [exact A|].
  destruct I as [_ _ _ _ D5 D6 _ _].
  rewrite !wsum_app by (by rewrite ?D5, ?D6, ?Ls, ?Ld). lia.
Qed.

(** An ICMPv6 echo request comes back as the reply: Ethernet and IP addresses
    swapped, type 129, the rest of the message as sent, with a checksum over the
    pseudo header a receiver accepts. *)
Theorem answer_echo6_spec w c q mb dst src h sa da code ick itl db rest :
  received w c q mb (ip6_bytes dst src h sa da ++ [128; code] ++ ick ++ itl ++ db ++ rest) ->
  ip6_frame dst src h sa da 58 -> length ick = 2%nat -> length itl = 4%nat ->
  be16 h 4 = 8 + Z.of_nat (length db) ->
  let ic := icmp6_cksum h da sa 129 code itl db in
  answers c w TxBuffer q (ip6_bytes src dst h da sa ++ [129; code] ++ be2 ic ++ itl ++ db ++ rest) /\
  accepts (icmp6_pseudo h da sa db ++ [129; code]) (itl ++ db) ic.
Proof.
  intros R I Li Lt El ic. pose proof (rc_room _ _ _ _ _ R) as T.
  assert (H : wp (answer c) (fun v w' => (v = TxBuffer /\ frame (heap w') q (ip6_bytes src dst h da sa ++
      [129; code] ++ be2 ic ++ itl ++ db ++ rest) /\ mbufs w' = mbufs w) /\
      accepts (icmp6_pseudo h da sa db ++ [129; code]) (itl ++ db) ic) w).
  { apply (wpo_answer_IPv6 False w c q mb dst src h sa da 58 _ _ R I). intros p m' [P2 P3 P4 _ PO Pd] F.
    specialize (Pd (or_introl eq_refl)). apply ip6_swap in I.
    eapply wpo_transport6_type; [exact I|exact F|done|done|]. simpl Z.eqb. cbv iota. apply wpo_wp. wp_pure.
    assert (W : wp (wr (q + 54) ICMPHdr.MsgType_ ICMPv6TypeEchoResponse)
      (fun _ w' => exists m2, w' = set_heap m2 (set_pkt p w) /\
      frame m2 q (ip6_bytes src dst h da sa ++ [129; code] ++ ick ++ itl ++ db ++ rest)) (set_heap m' (set_pkt p w))).
    { pose proof I as [D1 D2 D3 D4 D5 _]. unfold ip6_bytes, roomy in *. pose proof (frame_pos _ _ _ F) as Po.
      explode dst D2. explode src D1. explode h D3. explode sa D5. explode da D4.
      cbn [app] in *. seg_write ltac:(wp_write 54%nat). eauto. }
    eapply wp_mono; [exact W|]. clear W. intros _ w' (m2 & -> & F2).
    eapply (wp_finish_ICMPv6 (set_heap m2 (set_pkt p w)) q src dst h da sa 58 129 code); done. }
  apply wp_run in H as (v & w' & E & (-> & F & M) & A). split; [by exists w'|exact A].
Qed.

(** A neighbour solicitation that carries one 8-byte option is answered by a
    solicited, overriding advertisement of the target with the program's
    hardware address, sent from the target to the solicitor, with a checksum a
    receiver accepts. A solicitation without an option, as the one of duplicate
    address detection, panics: the option pointer is nil. *)
Theorem answer_NS_spec w c q mb dst src h sa da code ick idt sqn tgt opt rest :
  received w c q mb (ip6_bytes dst src h sa da ++ [135; code] ++ ick ++ idt ++ sqn ++ tgt ++ opt ++ rest) ->
  ip6_frame dst src h sa da 58 ->
  length ick = 2%nat -> length idt = 2%nat -> length sqn = 2%nat -> length tgt = 16%nat -> length opt = 8%nat ->
  be16 h 4 = 32 -> 0 <= data_len mb < 65536 ->
  let opt' := [2; 1] ++ own_mac in
  let db := tgt ++ opt' in
  let ic := icmp6_cksum h tgt sa 136 code ([0x60; 0] ++ sqn) db in
  if 78 <? data_len mb
  then answers c w TxBuffer q (ip6_bytes src own_mac h tgt sa ++ [136; code] ++ be2 ic ++
         ([0x60; 0] ++ sqn) ++ db ++ rest) /\
       accepts (icmp6_pseudo h tgt sa db ++ [136; code]) (([0x60; 0] ++ sqn) ++ db) ic
  else answer c w = None.
Proof.
  intros R I Li Ld Ls Lt Lo El Hd opt' db ic. pose proof (rc_room _ _ _ _ _ R) as T.
  assert (H : wpo (data_len mb <= 78) (answer c) (fun v w' => 78 < data_len mb /\
      (v = TxBuffer /\ frame (heap w') q (ip6_bytes src own_mac h tgt sa ++ [136; code] ++ be2 ic ++
         ([0x60; 0] ++ sqn) ++ db ++ rest) /\ mbufs w' = mbufs w) /\
      accepts (icmp6_pseudo h tgt sa db ++ [136; code]) (([0x60; 0] ++ sqn) ++ db) ic) w).
  { apply (wpo_answer_IPv6 _ w c q mb dst src h sa da 58 _ _ R I). intros p m' [P2 P3 P4 Pm PO Pd] F.
    specialize (Pd (or_introl eq_refl)). apply ip6_swap in I.
    eapply wpo_transport6_type; [exact I|exact F|done|done|]. simpl Z.eqb. cbv iota.
    unfold answer_NS. apply wpo_bind.
    apply (wp_answer_NS_head _ q c mb src dst h da sa 135 code ick idt sqn tgt (opt ++ rest)); try done.
    { exact (rc_mb _ _ _ _ _ R). }
    intros m2 F2. unfold ns_room. destruct (Z.ltb_spec 78 (data_len mb)) as [Q|Q]; [|done].
    apply wpo_wp, wp_bind.
    assert (W : wp (fillOption (q + 78) ICMPv6NDTargetLinkLayerAddress
        ICMPv6NDTargetLinkLayerAddressOptionSize own_mac)
      (fun _ w' => exists m3, w' = set_heap m3 (set_pkt (set_Data (q + 62) p) w) /\
      frame m3 q (ip6_bytes src own_mac h tgt sa ++ [136; code] ++ ick ++ ([0x60; 0] ++ sqn) ++ db ++ rest))
      (set_heap m2 (set_pkt (set_Data (q + 62) p) w))).
    { pose proof I as [D1 D2 D3 D4 D5 _]. unfold db, opt', ip6_bytes, own_mac, roomy in *.
      pose proof (frame_pos _ _ _ F) as Po. clear F ic R.
      explode src D1. explode h D3. explode sa D5. explode tgt Lt. explode ick Li. explode sqn Ls.
      explode opt Lo. cbn [app] in *. unfold fillOption.
      wp_pure. seg_write ltac:(wp_write 78%nat). wp_pure. seg_write ltac:(wp_write 78%nat).
      wp_pure. seg_write ltac:(wp_bytes 78%nat). eauto. }
    eapply wp_mono; [exact W|]. clear W. intros _ w' (m3 & -> & F3).
    assert (I' : ip6_frame src own_mac h tgt sa 58) by (destruct I; by split).
    eapply (wp_finish_ICMPv6 (set_heap m3 (set_pkt (set_Data (q + 62) p) w)) q src own_mac h tgt sa 58 136 code
      ick ([0x60; 0] ++ sqn) db rest _ I' F3); try done.
    - rewrite length_app, Ls. done.
    - unfold db. rewrite length_app, Lt. rewrite El. done. }
  unfold wpo in H. destruct (answer c w) as [[v w']|] eqn:E.
  - destruct H as (Hl & (-> & F & M) & A). rewrite (proj2 (Z.ltb_lt _ _)) by done.
    split; [by exists w'|exact A].
  - rewrite (proj2 (Z.ltb_ge _ _)) by done. done.
Qed.

(** ** Samples *)

Definition sample_mb (bs : list Z) : Mbuf :=
  mkMbuf 4096 128 (Z.of_nat (length bs)) (Z.of_nat (length bs)) 2048 0 0 64 0.

Lemma sample_received bs :
  Forall byte_ok bs -> (94 <= length bs < 2000)%nat -> received (sample_world bs) 8 4224 (sample_mb bs) bs.
Proof.
  intros F H. split; [reflexivity|reflexivity|apply sample_world_frame; [done|lia]|unfold MaxHeaders; lia|].
  unfold roomy. lia.
Qed.

Ltac received_tac :=
  apply sample_received; [apply (bool_decide_unpack _); vm_compute; exact I|vm_compute; lia].

Definition mac_a : list Z := [2; 0; 0; 0; 0; 1].
Definition mac_b : list Z := [2; 0; 0; 0; 0; 2].
Definition ip_a : list Z := [10; 0; 0; 1].
Definition ip_b : list Z := [10; 0; 0; 2].

Lemma answer_ARP_spec_witness :
  answers 8 (sample_world (arp_bytes own_mac mac_a [0; 1; 8; 0; 6; 4] [0; 1] mac_a ip_a mac_b ip_b ++ replicate 60 0))
    TxBuffer 4224
    (arp_bytes mac_a own_mac [0; 1; 8; 0; 6; 4] [0; 2] own_mac ip_b mac_a ip_a ++ replicate 60 0).
Proof.
  pose proof (answer_ARP_spec
    (sample_world (arp_bytes own_mac mac_a [0; 1; 8; 0; 6; 4] [0; 1] mac_a ip_a mac_b ip_b ++ replicate 60 0))
    8 4224 _ own_mac mac_a [0; 1; 8; 0; 6; 4] [0; 1] mac_a ip_a mac_b ip_b (replicate 60 0)
    ltac:(received_tac) ltac:(by split)) as W.
  exact W.
Defined.

Lemma answer_echo_spec_witness :
  let h := [0x45; 0; 0; 31; 0; 1; 0; 0; 64; 1] in
  exists ic hc, answers 8
    (sample_world (ip4_bytes mac_b mac_a h [0; 0] ip_a ip_b ++ [8; 0] ++ [1; 2] ++ [0; 7; 0; 1] ++ [5; 6; 7] ++ replicate 60 0))
    TxBuffer 4224
    (ip4_bytes mac_a mac_b h (be2 hc) ip_b ip_a ++ [0; 0] ++ be2 ic ++ [0; 7; 0; 1] ++ [5; 6; 7] ++ replicate 60 0).
Proof.
  intros h.
  pose proof (answer_echo_spec
    (sample_world (ip4_bytes mac_b mac_a h [0; 0] ip_a ip_b ++ [8; 0] ++ [1; 2] ++ [0; 7; 0; 1] ++ [5; 6; 7] ++ replicate 60 0))
    8 4224 _ mac_b mac_a h [0; 0] ip_a ip_b 8 0 [1; 2] [0; 7; 0; 1] [5; 6; 7] (replicate 60 0)
    ltac:(received_tac) ltac:(by split) eq_refl eq_refl eq_refl) as W.
  destruct W as [W _]. eexists _, _. exact W.
Defined.

Lemma answer_UDP_spec_witness :
  let h := [0x45; 0; 0; 30; 0; 1; 0; 0; 64; 17] in
  exists hc, answers 8
    (sample_world (ip4_bytes mac_b mac_a h [0; 0] ip_a ip_b ++ [0; 53] ++ [0x1f; 0x90] ++ [0; 10; 0; 0; 1; 2] ++ replicate 60 0))
    TxBuffer 4224
    (ip4_bytes mac_a mac_b h (be2 hc) ip_b ip_a ++ [0x1f; 0x90] ++ [0; 53] ++ [0; 10; 0; 0; 1; 2] ++ replicate 60 0).
Proof.
  intros h.
  pose proof (answer_UDP_spec
    (sample_world (ip4_bytes mac_b mac_a h [0; 0] ip_a ip_b ++ [0; 53] ++ [0x1f; 0x90] ++ [0; 10; 0; 0; 1; 2] ++ replicate 60 0))
    8 4224 _ mac_b mac_a h [0; 0] ip_a ip_b [0; 53] [0x1f; 0x90] ([0; 10; 0; 0; 1; 2] ++ replicate 60 0)
    ltac:(received_tac) ltac:(by split) eq_refl eq_refl ltac:(discriminate)) as W.
  destruct W as [W _]. eexists _. exact W.
Defined.

(** A header with a router alert option: the checksum leaves the option out, and a
    receiver, who adds up all 24 bytes, does not get zero. *)
Example IPv4_options_checksum :
  let h := [0x46; 0; 0; 32; 0; 1; 0; 0; 64; 17] in
  let tl := [10; 0; 0; 1; 10; 0; 0; 2; 0x94; 4; 0; 1] in
  let w := sample_world (h ++ [0; 0] ++ tl) in
  exists c, CalculateIPv4Checksum 4224 w = Some (c, w) /\ inet_checksum (h ++ be2 c ++ tl) <> 0 /\
    inet_checksum (h ++ be2 c ++ take 8 tl) = 0.
Proof. eexists. split; [vm_compute; reflexivity|]. split; vm_compute; [discriminate|reflexivity]. Qed.

Definition ip6_a : list Z := [0xfe; 0x80] ++ replicate 13 0 ++ [1].
Definition ip6_b : list Z := [0xfe; 0x80] ++ replicate 13 0 ++ [2].

Lemma answer_echo6_spec_witness :
  let h := [0x60; 0; 0; 0; 0; 11; 58; 64] in
  exists ic, answers 8
    (sample_world (ip6_bytes mac_b mac_a h ip6_a ip6_b ++ [128; 0] ++ [1; 2] ++ [0; 7; 0; 1] ++ [5; 6; 7] ++ replicate 60 0))
    TxBuffer 4224
    (ip6_bytes mac_a mac_b h ip6_b ip6_a ++ [129; 0] ++ be2 ic ++ [0; 7; 0; 1] ++ [5; 6; 7] ++ replicate 60 0).
Proof.
  intros h.
  pose proof (answer_echo6_spec
    (sample_world (ip6_bytes mac_b mac_a h ip6_a ip6_b ++ [128; 0] ++ [1; 2] ++ [0; 7; 0; 1] ++ [5; 6; 7] ++ replicate 60 0))
    8 4224 _ mac_b mac_a h ip6_a ip6_b 0 [1; 2] [0; 7; 0; 1] [5; 6; 7] (replicate 60 0)
    ltac:(received_tac) ltac:(by split) eq_refl eq_refl eq_refl) as W.
  destruct W as [W _]. eexists _. exact W.
Defined.

(** The solicitation of [ip6_b] by [ip6_a], with and without its option: the
    second one's mbuf ends behind the target address. *)
Definition ns_bytes : list Z :=
  ip6_bytes mac_b mac_a [0x60; 0; 0; 0; 0; 32; 58; 255] ip6_a ip6_b ++
  [135; 0] ++ [1; 2] ++ [0; 0] ++ [0; 0] ++ ip6_b ++ ([1; 1] ++ mac_a) ++ replicate 60 0.
Definition short_world : World :=
  set_mbufs {[ 8 := mkMbuf 4096 128 78 78 2048 0 0 64 0 ]} (sample_world ns_bytes).

Lemma answer_NS_spec_witness :
  (exists ic, answers 8 (sample_world ns_bytes) TxBuffer 4224
    (ip6_bytes mac_a own_mac [0x60; 0; 0; 0; 0; 32; 58; 255] ip6_b ip6_a ++
     [136; 0] ++ be2 ic ++ ([0x60; 0] ++ [0; 0]) ++ (ip6_b ++ [2; 1] ++ own_mac) ++ replicate 60 0)) /\
  answer 8 short_world = None.
Proof.
  assert (R : received (sample_world ns_bytes) 8 4224 (sample_mb ns_bytes) ns_bytes) by received_tac.
  split.
  - pose proof (answer_NS_spec (sample_world ns_bytes) 8 4224 (sample_mb ns_bytes) mac_b mac_a
      [0x60; 0; 0; 0; 0; 32; 58; 255] ip6_a ip6_b 0 [1; 2] [0; 0] [0; 0] ip6_b ([1; 1] ++ mac_a) (replicate 60 0)
      R ltac:(by split) eq_refl eq_refl eq_refl eq_refl eq_refl eq_refl ltac:(vm_compute; split; congruence)) as W.
    replace (78 <? data_len (sample_mb ns_bytes)) with true in W by reflexivity.
    destruct W as [W _]. eexists _. exact W.
  - apply (answer_NS_spec short_world 8 4224 (mkMbuf 4096 128 78 78 2048 0 0 64 0) mac_b mac_a
      [0x60; 0; 0; 0; 0; 32; 58; 255] ip6_a ip6_b 0 [1; 2] [0; 0] [0; 0] ip6_b ([1; 1] ++ mac_a) (replicate 60 0));
      try reflexivity; [|by split|vm_compute; split; congruence].
    destruct R as [_ _ R3 R4 R5]. split; [reflexivity|reflexivity|exact R3|exact R4|exact R5].
Defined.
