(* ===== verification/Util.v ===== *)
(** * Package util: lcore lists, hash states, annotated errors; package hash

    [src/util/lcores.go], [src/util/make_hash.go], [src/util/errors.go] and
    [src/hash/crc.go]. [sort.Sort] leaves the sorted permutation of a list; the
    CRC of [rte_hash_crc] is a DPDK function and a parameter here. *)

From Stdlib Require Import ZArith Lia String.
From stdpp Require Import base list numbers option sorting.
From S2P Require Import Prelude Text.

Open Scope Z_scope.

(** ** LcoresList *)

(* go: util/lcores.go LcoresList *)
Definition LcoresList := list Z.

(* go: util/lcores.go LcoresList.Len *)
Definition Len (list : Datatypes.list Z) : nat := length list.

(* go: util/lcores.go LcoresList.Swap *)
Definition Swap (list : Datatypes.list Z) (i j : nat) : option (Datatypes.list Z) :=
  match list !! i, list !! j with
  | Some x, Some y => Some (<[j := x]> (<[i := y]> list))
  | _, _ => None
  end.

(* go: util/lcores.go LcoresList.Less *)
Definition Less (list : Datatypes.list Z) (i j : nat) : option bool :=
  match list !! i, list !! j with
  | Some x, Some y => Some (x <? y)
  | _, _ => None
  end.

(* go: util/lcores.go LcoresList.Sort *)
Definition Sort (list : Datatypes.list Z) : Datatypes.list Z := merge_sort Z.le list.

(* go: util/lcores.go LcoresList.Dup *)
Definition Dup (list : Datatypes.list Z) : Datatypes.list Z := Sort list.

(* go: util/lcores.go LcoresList.rangeStr *)
Definition rangeStr (list : Datatypes.list Z) (prev next : nat) : option (Datatypes.list Z) :=
  if (prev =? next)%nat then fmt_d <$> list !! prev
  else
    match list !! prev, list !! next with
    | Some a, Some b => Some (fmt_d a ++ str "-" ++ fmt_d b)
    | _, _ => None
    end.

(** The loop over [i], from index [i] on for [n] turns; [list[i]-list[i-1]] is a
    difference of [uint]s. The result is [prev], [next] and [s]. *)
Fixpoint ranges_loop (list : Datatypes.list Z) (i n prev next : nat) (s : Datatypes.list (Datatypes.list Z)) :
    option (nat * nat * Datatypes.list (Datatypes.list Z)) :=
  match n with
  | O => Some (prev, next, s)
  | S n =>
      match list !! i, list !! (i - 1)%nat with
      | Some x, Some y =>
          if x =? y then ranges_loop list (S i) n prev next s
          else if u64 (x - y) =? 1 then ranges_loop list (S i) n prev i s
          else
            match rangeStr list prev next with
            | None => None
            | Some r => ranges_loop list (S i) n i i (s ++ [r])
            end
      | _, _ => None
      end
  end.

(* go: util/lcores.go LcoresList.String *)
Definition LcoresList_String (list : Datatypes.list Z) : option (Datatypes.list Z) :=
  if (Len list =? 0)%nat then Some []
  else
    let list := Dup list in
    match ranges_loop list 1 (Len list - 1) 0 0 [] with
    | None => None
    | Some (prev, next, s) =>
        match rangeStr list prev next with
        | None => None
        | Some r => Some (join (str ",") (s ++ [r]))
        end
    end.

(** The comparison of the elements, index by index. *)
Fixpoint same_elems (list other : Datatypes.list Z) : bool :=
  match list, other with
  | [], _ => true
  | x :: l, y :: o => if negb (x =? y) then false else same_elems l o
  | _ :: _, [] => false
  end.

(* go: util/lcores.go LcoresList.Equal *)
Definition Equal (list other : Datatypes.list Z) : bool :=
  let list := Dup list in
  let other := Dup other in
  if negb (Len list =? Len other)%nat then false else same_elems list other.

(** ** Hash32 *)

(* go: util/make_hash.go Hash32 *)
Record Hash32 := mkHash32 {
  Seed : Z;
  Value : Z;
  Block : Z;
  OnesComplement : bool;
  Accum : list Z -> Z -> Z
}.

(** [^x] on a [uint32]. *)
Definition not32 (x : Z) : Z := Z.lxor x 0xffffffff.

Definition set_Value (v : Z) (h : Hash32) : Hash32 :=
  mkHash32 (Seed h) v (Block h) (OnesComplement h) (Accum h).

(* go: util/make_hash.go Hash32.Write *)
Definition Write (h : Hash32) (p : list Z) : nat * Hash32 :=
  (length p,
   if OnesComplement h then set_Value (not32 (Accum h p (not32 (Value h)))) h
   else set_Value (Accum h p (Value h)) h).

(* go: util/make_hash.go Hash32.Sum *)
Definition Sum (h : Hash32) (b : list Z) : list Z :=
  let s := Value h in
  b ++ [u8 (Z.shiftr s 24); u8 (Z.shiftr s 16); u8 (Z.shiftr s 8); u8 s].

(* go: util/make_hash.go Hash32.Sum32 *)
Definition Sum32 (h : Hash32) : Z := Value h.

(* go: util/make_hash.go Hash32.Reset *)
Definition Reset (h : Hash32) : Hash32 := set_Value (Seed h) h.

(* go: util/make_hash.go Hash32.Size *)
Definition Hash32_Size (h : Hash32) : Z := 4.

(* go: util/make_hash.go Hash32.BlockSize *)
Definition BlockSize (h : Hash32) : Z := Block h.

Section Crc.
(** [rte_hash_crc]: the CRC32 of the data with an initial accumulator. *)
Variable rte_hash_crc : list Z -> Z -> Z.

(* go: hash/crc.go CrcUpdate *)
Definition CrcUpdate (data : list Z) (acc : Z) : Z := rte_hash_crc data acc.

(* go: hash/crc.go complementFunc *)
Definition complementFunc (f : list Z -> Z -> Z) : list Z -> Z -> Z :=
  fun data acc => not32 (f data (not32 acc)).

(* go: hash/crc.go NewCrcHash *)
Definition NewCrcHash (seed : Z) (complement : bool) : Hash32 :=
  let h := mkHash32 seed seed 8 false CrcUpdate in
  if complement then mkHash32 seed seed 8 false (complementFunc CrcUpdate) else h.
(** The algorithm is a variable of DPDK. *)
(* go: hash/crc.go CrcSetAlg *)
Definition CrcSetAlg {S} (rte_hash_crc_set_alg : Z -> S -> S) (alg : Z) : M S unit := modify (rte_hash_crc_set_alg alg).
End Crc.

(** ** Annotated errors *)

(** An error wrapped by messages; [Base] is an error from elsewhere with its
    text. *)
Inductive werror :=
| Base (text : list Z)
| ErrWithMessage (Err : werror) (B : list Z).

#[export] Instance werror_eq_dec : EqDecision werror.
Proof. solve_decision. Defined.

(* go: util/errors.go ErrWithMessage.Error *)
Fixpoint Error (e : werror) : list Z :=
  match e with
  | Base text => text
  | ErrWithMessage err b => b ++ str ": " ++ Error err
  end.

(* go: util/errors.go ErrWithMessage.Unwrap *)
Definition Unwrap (e : werror) : option werror :=
  match e with
  | Base _ => None
  | ErrWithMessage err _ => Some err
  end.

(** [None] is a nil error; [msg] is the annotation once it is formatted. *)
(* go: util/errors.go ErrWrapf *)
Definition ErrWrapf (err : option werror) (msg : list Z) : option werror :=
  match err with
  | None => None
  | Some e => Some (ErrWithMessage e msg)
  end.

(** [errors.Is] with a target from elsewhere: it follows [Unwrap]. *)
Fixpoint errors_Is (e : werror) (target : list Z) : bool :=
  bool_decide (e = Base target) ||
  match e with
  | Base _ => false
  | ErrWithMessage err _ => errors_Is err target
  end.
