(* ===== verification/UtilSpec.v ===== *)
(** * Package util: what it promises

    Lists of lcores compare as multisets and print as the shortest list of
    ranges; hash states accumulate blocks; annotations keep the error under
    them. *)

From Stdlib Require Import ZArith Lia Sorted String.
From stdpp Require Import base list numbers option sorting.
From S2P Require Import Prelude Text Util.

Open Scope Z_scope.

(** ** Sorting *)

Lemma Sort_spec l : StronglySorted Z.le (Sort l) /\ Sort l ≡ₚ l.
Proof. split; [apply (StronglySorted_merge_sort Z.le)|apply merge_sort_Permutation]. Qed.

Lemma Sort_perm l k : l ≡ₚ k -> Sort l = Sort k.
Proof.
  intros P. apply (StronglySorted_unique Z.le); try apply Sort_spec.
  by rewrite !(proj2 (Sort_spec _)).
Qed.

Lemma same_elems_eq l k : length l = length k -> same_elems l k = bool_decide (l = k).
Proof.
  revert k; induction l as [|x l IH]; intros [|y k] E; try done.
  simpl. destruct (Z.eqb_spec x y) as [->|N]; simpl.
  - rewrite IH by (by injection E). apply bool_decide_ext. split; [by intros ->|by intros [= ->]].
  - symmetry. apply bool_decide_eq_false. congruence.
Qed.

(** [Equal] holds exactly when one list is a permutation of the other. *)
Theorem Equal_spec l k : Equal l k = true <-> l ≡ₚ k.
Proof.
  unfold Equal, Len, Dup. split.
  - destruct (Nat.eqb_spec (length (Sort l)) (length (Sort k))) as [E|]; [|done]. simpl.
    rewrite same_elems_eq by done. intros H%bool_decide_eq_true.
    by rewrite <- (proj2 (Sort_spec l)), <- (proj2 (Sort_spec k)), H.
  - intros P. rewrite (Sort_perm l k P), Nat.eqb_refl. simpl. rewrite same_elems_eq by done.
    by apply bool_decide_eq_true.
Qed.

(** ** Ranges *)

(** The text of a range. *)
Definition range_text (r : Z * Z) : list Z :=
  if fst r =? snd r then fmt_d (fst r) else fmt_d (fst r) ++ str "-" ++ fmt_d (snd r).

(** Ranges in increasing order with a gap between any two: no shorter list of
    ranges covers the same numbers. *)
Fixpoint separated (rs : list (Z * Z)) : Prop :=
  match rs with
  | [] => True
  | (a, z) :: r =>
      a <= z /\ match r with [] => True | (a', _) :: _ => z + 1 < a' end /\ separated r
  end.

Definition covers (rs : list (Z * Z)) (x : Z) : Prop := exists r, r ∈ rs /\ fst r <= x <= snd r.

Lemma separated_app rs a z :
  separated rs -> a <= z -> (forall r, last rs = Some r -> snd r + 1 < a) -> separated (rs ++ [(a, z)]).
Proof.
  induction rs as [|[a0 z0] rs IH]; intros S Ha L; simpl; [done|].
  destruct S as (S1 & S2 & S3). split; [done|]. split.
  - destruct rs as [|[a1 z1] rs]; simpl in *; [|done]. apply (L (a0, z0) eq_refl).
  - apply IH; [done|done|]. intros r Hr. apply L. destruct rs; [done|]. exact Hr.
Qed.

Lemma covers_app rs r x : covers (rs ++ [r]) x <-> covers rs x \/ fst r <= x <= snd r.
Proof.
  unfold covers. split.
  - intros (k & [H|H]%elem_of_app & ?); [left; eauto|]. apply list_elem_of_singleton in H as ->. by right.
  - intros [(k & ? & ?)|?]; [exists k|exists r]; split; try done; apply elem_of_app; [by left|right; constructor].
Qed.

(** What the loop has done when it reaches index [i]: the closed ranges [rs] and
    the open one from [prev] to [next] cover the first [i] elements. *)
Record loop_inv (l : list Z) (i prev next : nat) (rs : list (Z * Z)) (a z : Z) : Prop := {
  li_prev : l !! prev = Some a;
  li_next : l !! next = Some z;
  li_eq : prev = next <-> a = z;
  li_last : l !! (i - 1)%nat = Some z;
  li_sep : separated (rs ++ [(a, z)]);
  li_covers : forall x, x ∈ take i l <-> covers (rs ++ [(a, z)]) x
}.

Lemma rangeStr_text l prev next a z :
  l !! prev = Some a -> l !! next = Some z -> (prev = next <-> a = z) ->
  rangeStr l prev next = Some (range_text (a, z)).
Proof.
  intros Ha Hz E. unfold rangeStr, range_text. cbn [fst snd].
  destruct (Nat.eqb_spec prev next) as [Ep|Ep]; rewrite Ha.
  - apply E in Ep. by rewrite Ep, Z.eqb_refl.
  - rewrite Hz. destruct (Z.eqb_spec a z) as [Ea|]; [|done]. by apply E in Ea.
Qed.

Lemma separated_inv rs a z : separated (rs ++ [(a, z)]) -> separated rs /\ a <= z.
Proof.
  induction rs as [|[a0 z0] rs IH]; simpl; [tauto|]. intros (S1 & S2 & S3). apply IH in S3 as [S3 ?].
  split; [|done]. split; [done|]. split; [|done]. destruct rs as [|[? ?] ?]; done.
Qed.

Lemma separated_snoc_last rs a z r : separated (rs ++ [(a, z)]) -> last rs = Some r -> snd r + 1 < a.
Proof.
  induction rs as [|[a0 z0] rs IH]; simpl; [done|]. intros (S1 & S2 & S3) L.
  destruct rs as [|[a1 z1] rs]; simpl in *; [by simplify_eq|]. apply IH; done.
Qed.

Section Loop.
Variable l : list Z.
Hypothesis So : StronglySorted Z.le l.
Hypothesis Rg : Forall (fun x => 0 <= x < 18446744073709551616) l.

Lemma sorted_le i j x y : l !! i = Some x -> l !! j = Some y -> (i <= j)%nat -> x <= y.
Proof.
  intros Hi Hj L. destruct (decide (i = j)) as [->|N]; [simplify_eq; lia|].
  pose proof So as S. rewrite <- (take_drop_middle _ _ _ Hi) in S.
  apply StronglySorted_app_1_r in S. apply StronglySorted_inv in S as [_ F].
  rewrite Forall_forall in F. apply F. apply list_elem_of_lookup. exists (j - S i)%nat.
  rewrite lookup_drop. by replace (S i + (j - S i))%nat with j by lia.
Qed.

Lemma ranges_loop_spec n i prev next rs a z :
  (i + n = length l)%nat -> (0 < i)%nat -> (next < i)%nat -> loop_inv l i prev next rs a z ->
  exists prev' next' rs' a' z',
    ranges_loop l i n prev next (map range_text rs) = Some (prev', next', map range_text rs') /\
    loop_inv l (length l) prev' next' rs' a' z'.
Proof.
  revert i prev next rs a z; induction n as [|n IH]; intros i prev next rs a z Hn Hi Hx I; cbn [ranges_loop].
  - exists prev, next, rs, a, z. replace (length l) with i by lia. done.
  - destruct (lookup_lt_is_Some_2 l i) as [x Hxi]; [lia|]. destruct I as [I1 I2 I3 I4 I5 I6].
    rewrite Hxi, I4. pose proof (sorted_le _ _ _ _ I4 Hxi ltac:(lia)) as Le.
    pose proof (Forall_lookup_1 _ _ _ _ Rg Hxi) as Rx. pose proof (Forall_lookup_1 _ _ _ _ Rg I4) as Rz.
    destruct (separated_inv _ _ _ I5) as [Sr Saz].
    assert (Tk : forall y, y ∈ take (S i) l <-> y ∈ take i l \/ y = x).
    { intros y. rewrite (take_S_r _ _ _ Hxi), elem_of_app, list_elem_of_singleton. done. }
    destruct (Z.eqb_spec x z) as [->|Nz].
    + apply IH with (a := a) (z := z); [lia|lia|lia|]. split; try done.
      { by replace (S i - 1)%nat with i by lia. }
      intros y. rewrite Tk, I6. split; [intros [?| ->]; [done|]|by left].
      apply covers_app. right. cbn [fst snd]. lia.
    + cbv beta in Rx, Rz. rewrite u64_small by lia. destruct (Z.eqb_spec (x - z) 1) as [E1|E1].
      * apply IH with (a := a) (z := x); [lia|lia|lia|]. split; try done.
        { split; [intros ->; rewrite I1 in Hxi; simplify_eq; lia|lia]. }
        { by replace (S i - 1)%nat with i by lia. }
        { apply separated_app; [done|lia|]. intros r Hr. by eapply separated_snoc_last. }
        intros y. rewrite Tk, I6, !covers_app. simpl. split; [intros [[?|?]| ->]; [by left|right; lia|right; lia]|].
        intros [?|?]; [by left; left|]. destruct (decide (y = x)) as [->|]; [by right|left; right; lia].
      * rewrite (rangeStr_text l prev next a z I1 I2 I3).
        change (map range_text rs ++ [range_text (a, z)]) with (map range_text rs ++ map range_text [(a, z)]).
        rewrite <- map_app. apply IH with (a := x) (z := x); [lia|lia|lia|]. split; try done.
        { by replace (S i - 1)%nat with i by lia. }
        { apply separated_app; [done|lia|]. intros r Hr. rewrite last_snoc in Hr. simplify_eq. simpl. lia. }
        intros y. rewrite Tk, I6, (covers_app (rs ++ [(a, z)])). simpl. split; intros [?|?]; auto; right; lia.
Qed.
End Loop.

(** A list of lcores prints as comma-separated ranges: in increasing order,
    with a gap between any two, covering exactly the members of the list,
    however often and in whatever order it holds them. *)
Theorem LcoresList_String_spec l :
  Forall (fun x => 0 <= x < 18446744073709551616) l ->
  exists rs, LcoresList_String l = Some (join (str ",") (map range_text rs)) /\
    separated rs /\ forall x, x ∈ l <-> covers rs x.
Proof.
  intros Rg. unfold LcoresList_String, Len. destruct l as [|y0 l0]; [|set (l := y0 :: l0) in *].
  { exists []. split_and!; try done. intros x. split; [by intros ?%not_elem_of_nil|].
    by intros (? & ?%not_elem_of_nil & _). }
  simpl (length l =? 0)%nat. cbv iota. destruct (Sort_spec l) as [So P]. unfold Dup. set (k := Sort l) in *. clearbody k.
  assert (Rk : Forall (fun x => 0 <= x < 18446744073709551616) k) by (by rewrite P).
  assert (Lk : length k = S (length l0)) by (by rewrite P).
  destruct (lookup_lt_is_Some_2 k 0) as [a Ha]; [lia|].
  destruct (ranges_loop_spec k So Rk (length k - 1) 1 0 0 [] a a) as (p & n & rs & a' & z' & E & I); try lia.
  { split; try done. intros x. destruct k as [|k0 k]; [done|]. simpl in Ha. simplify_eq. simpl.
    rewrite list_elem_of_singleton. split; [intros ->; exists (a, a); split; [constructor|simpl; lia]|].
    intros (r & Hr & ?). apply list_elem_of_singleton in Hr as ->. simpl in *. lia. }
  simpl map in E. rewrite E. destruct I as [I1 I2 I3 _ I5 I6].
  rewrite (rangeStr_text k p n a' z' I1 I2 I3). exists (rs ++ [(a', z')]).
  rewrite map_app. split_and!; [done|done|]. intros x. by rewrite <- I6, firstn_all, P.
Qed.

Lemma LcoresList_String_spec_witness :
  exists rs, LcoresList_String [7; 2; 3; 5; 2; 4; 9] = Some (str "2-5,7,9") /\ separated rs /\
    forall x, x ∈ [7; 2; 3; 5; 2; 4; 9] <-> covers rs x.
Proof.
  destruct (LcoresList_String_spec [7; 2; 3; 5; 2; 4; 9]) as (rs & _ & S & C).
  - repeat constructor; lia.
  - exists rs. split; [reflexivity|]. split; [exact S|exact C].
Defined.

(** ** Hash states *)

Lemma not32_invol x : not32 (not32 x) = x.
Proof. unfold not32. by rewrite Z.lxor_assoc, Z.lxor_nilpotent, Z.lxor_0_r. Qed.

Section Stream.
(** The CRC of a whole is the CRC of its second part, started from that of its
    first part: what makes the function usable as an accumulator. *)
Variable rte_hash_crc : list Z -> Z -> Z.
Hypothesis crc_nil : forall v, rte_hash_crc [] v = v.
Hypothesis crc_app : forall p q v, rte_hash_crc (p ++ q) v = rte_hash_crc q (rte_hash_crc p v).

(** The two ways to complement, on a hash of [h0]'s accumulator. *)
Definition crc_value (complement : bool) (data : list Z) (v : Z) : Z :=
  if complement then not32 (rte_hash_crc data (not32 v)) else rte_hash_crc data v.

Lemma crc_value_app c p q v : crc_value c (p ++ q) v = crc_value c q (crc_value c p v).
Proof. destruct c; simpl; rewrite crc_app; [by rewrite not32_invol|done]. Qed.

Definition write_all (h : Hash32) (chunks : list (list Z)) : Hash32 :=
  foldl (fun h p => snd (Write h p)) h chunks.

Lemma write_all_spec (c : bool) h chunks :
  (forall p v, (if OnesComplement h then not32 (Accum h p (not32 v)) else Accum h p v) = crc_value c p v) ->
  let h' := write_all h chunks in
  Value h' = crc_value c (concat chunks) (Value h) /\ Seed h' = Seed h /\ Block h' = Block h.
Proof.
  revert h; induction chunks as [|p chunks IH]; intros h Ha.
  - simpl. split_and!; try done. unfold crc_value. destruct c; rewrite crc_nil; [by rewrite not32_invol|done].
  - cbv zeta. set (h1 := snd (Write h p)). change (write_all h (p :: chunks)) with (write_all h1 chunks).
    change (concat (p :: chunks)) with (p ++ concat chunks).
    assert (E : Value h1 = crc_value c p (Value h) /\ Seed h1 = Seed h /\ Block h1 = Block h /\
      OnesComplement h1 = OnesComplement h /\ Accum h1 = Accum h).
    { unfold h1, Write. specialize (Ha p (Value h)). destruct (OnesComplement h) eqn:Eo; simpl; split_and!; congruence. }
    destruct E as (E1 & E2 & E3 & E4 & E5).
    destruct (IH h1) as (V & S1 & B1); [by rewrite E4, E5|].
    rewrite crc_value_app, <- E1. split_and!; [exact V|by rewrite <- E2|by rewrite <- E3].
Qed.

Lemma NewCrcHash_stream seed c chunks :
  let h := write_all (NewCrcHash rte_hash_crc seed c) chunks in
  Value h = crc_value c (concat chunks) seed /\ Seed h = seed /\ Block h = 8.
Proof.
  destruct (write_all_spec c (NewCrcHash rte_hash_crc seed c) chunks) as (V & S1 & B1).
  - intros p v. by destruct c.
  - by destruct c.
Qed.

Lemma OnesComplement_stream seed block c chunks :
  let h := write_all (mkHash32 seed seed block c (CrcUpdate rte_hash_crc)) chunks in
  Value h = crc_value c (concat chunks) seed.
Proof. by destruct (write_all_spec c (mkHash32 seed seed block c (CrcUpdate rte_hash_crc)) chunks). Qed.
End Stream.

(** Writing data to a CRC hash in any number of pieces gives the value of
    the whole, complemented or not; complementing through [NewCrcHash] or
    through the [OnesComplement] flag is the same; [Sum] appends the value in
    network order and [Reset] starts again from the seed. *)
Theorem Hash32_stream rte_hash_crc seed c chunks b :
  (forall v, rte_hash_crc [] v = v) ->
  (forall p q v, rte_hash_crc (p ++ q) v = rte_hash_crc q (rte_hash_crc p v)) ->
  let h := write_all (NewCrcHash rte_hash_crc seed c) chunks in
  Sum32 h = crc_value rte_hash_crc c (concat chunks) seed /\
  Sum32 h = Sum32 (write_all (mkHash32 seed seed 8 c (CrcUpdate rte_hash_crc)) chunks) /\
  (0 <= Sum32 h < 4294967296 -> exists s, Sum h b = b ++ s /\ be_val s = Sum32 h) /\
  Sum32 (Reset h) = seed.
Proof.
  intros Hn Ha h. destruct (NewCrcHash_stream rte_hash_crc Hn Ha seed c chunks) as (V & S1 & _).
  fold h in V, S1. unfold Sum32. split_and!; [done| | |by unfold Reset].
  - by rewrite (OnesComplement_stream rte_hash_crc Hn Ha seed 8 c chunks).
  - intros R. eexists. split; [reflexivity|]. rewrite !Z.shiftr_div_pow2 by lia.
    change (2 ^ 24) with 16777216. change (2 ^ 16) with 65536. change (2 ^ 8) with 256.
    clearbody h. generalize dependent (Value h). intros v _ R. cbn [be_val length].
    change (256 ^ Z.of_nat 3) with 16777216. change (256 ^ Z.of_nat 2) with 65536.
    change (256 ^ Z.of_nat 1) with 256. change (256 ^ Z.of_nat 0) with 1. zlia.
Qed.

(** A polynomial hash in place of the CRC. *)
Definition sample_crc (p : list Z) (v : Z) : Z := foldl (fun a x => (a * 31 + x) mod 4294967296) v p.

Lemma Hash32_stream_witness :
  Sum32 (write_all (NewCrcHash sample_crc 5 true) [[1; 2]; []; [3]]) =
    crc_value sample_crc true [1; 2; 3] 5.
Proof.
  apply (Hash32_stream sample_crc 5 true [[1; 2]; []; [3]] []).
  - reflexivity.
  - intros p q v. apply foldl_app.
Defined.

(** ** Annotations *)

(** An annotation is nil exactly for a nil error, prints in front of the
    error's text, and leaves every error under it to be found by
    [errors.Is]. *)
Theorem ErrWrapf_spec err msg :
  match err with
  | None => ErrWrapf err msg = None
  | Some e => exists e', ErrWrapf err msg = Some e' /\ Unwrap e' = Some e /\
      Error e' = msg ++ str ": " ++ Error e /\
      forall target, errors_Is e target = true -> errors_Is e' target = true
  end.
Proof.
  destruct err as [e|]; [|done]. eexists. split; [reflexivity|]. split_and!; [done|done|].
  intros t H. simpl. by rewrite H, ?orb_true_r.
Qed.
