(* ===== verification/EthStats.v ===== *)
(** * Package ethdev: statistics; the sniffer's statistics report

    [src/ethdev/stats.go], the buffer sizes of [src/ethdev/rxtx.go] and the
    report of [src/app/test-sniffer/stats.go]. The counters of a device come
    from DPDK and are arguments; [Stats] is its array of 64-bit words. A
    Prometheus counter is its current value. *)

From Stdlib Require Import ZArith Lia String.
From stdpp Require Import base list numbers option gmap.
From S2P Require Import Prelude Text.

Open Scope Z_scope.

(** ** Basic statistics *)

(* go: ethdev/stats.go GoStats *)
Record GoStats := mkGoStats {
  Ipackets : Z;
  Opackets : Z;
  Ibytes : Z;
  Obytes : Z;
  Imissed : Z;
  Ierrors : Z;
  Oerrors : Z;
  RxNoMbuf : Z
}.

(** The words of a [struct rte_eth_stats]. *)
(* go: ethdev/stats.go statsAsU64 *)
Definition Stats := list Z.

(** The first eight words, in the order of the C structure. *)
(* go: ethdev/stats.go Stats.Cast *)
Definition Cast (s : list Z) : GoStats :=
  mkGoStats (s !!! 0%nat) (s !!! 1%nat) (s !!! 2%nat) (s !!! 3%nat) (s !!! 4%nat) (s !!! 5%nat)
    (s !!! 6%nat) (s !!! 7%nat).

(** The loop over the three arrays, which have the same size; a word of [delta]
    that gets no difference keeps its value. *)
(* go: ethdev/stats.go Stats.Diff *)
Fixpoint Diff (cur old delta : list Z) : list Z :=
  match cur, old, delta with
  | c :: cur, o :: old, d :: delta =>
      (if (o <? c) && negb (o =? 0) then u64 (c - o) else d) :: Diff cur old delta
  | _, _, _ => delta
  end.

(** ** Extended statistics *)

(* go: ethdev/stats.go Xstat *)
Record Xstat := mkXstat { Index : Z; XValue : Z }.

(* go: ethdev/stats.go searchXstat *)
Fixpoint searchXstat (in_ : list Xstat) (idx : Z) : option nat :=
  match in_ with
  | [] => None
  | x :: r => if Index x =? idx then Some O else S <$> searchXstat r idx
  end.

(** [l[n].Value = v]. *)
Definition set_XValue (l : list Xstat) (n : nat) (v : Z) : list Xstat :=
  match l !! n with
  | None => l
  | Some x => <[n := mkXstat (Index x) v]> l
  end.

(** One element of [incoming]. *)
Definition xstat_step (d : Xstat) (old delta : list Xstat) : list Xstat * list Xstat :=
  let '(old, d) :=
    match searchXstat old (Index d) with
    | None => (old ++ [d], mkXstat (Index d) 0)
    | Some n =>
        let f := default 0 (XValue <$> old !! n) in
        if (0 <? f) && (f <? XValue d)
        then (set_XValue old n (XValue d), mkXstat (Index d) (u64 (XValue d - f)))
        else (set_XValue old n (XValue d), mkXstat (Index d) 0)
    end in
  let delta :=
    match searchXstat delta (Index d) with
    | None => delta ++ [d]
    | Some k => set_XValue delta k (XValue d)
    end in
  (old, delta).

(* go: ethdev/stats.go XstatDiff *)
Fixpoint XstatDiff (incoming old delta : list Xstat) : list Xstat * list Xstat :=
  match incoming with
  | [] => (old, delta)
  | d :: r => let '(old, delta) := xstat_step d old delta in XstatDiff r old delta
  end.

(** The device's names and their ids, as DPDK gives them: [None] is an error.
    [names] is [None] when there is none or the count is an error ([errget] of a
    zero count is nil). *)
Inductive names_result := Names (ns : list (list Z)) | NoNames | NamesError.
Inductive ids_result := Ids (m : gmap Z (list Z)) | IdsError | ErrExist.

(** The loop over the names. *)
Fixpoint name_ids (id_by_name : list Z -> option Z) (ns : list (list Z)) (namesID : gmap Z (list Z)) :
    ids_result :=
  match ns with
  | [] => Ids namesID
  | x :: r =>
      match id_by_name x with
      | None => IdsError
      | Some id =>
          match namesID !! id with
          | Some _ => ErrExist
          | None => name_ids id_by_name r (<[id := x]> namesID)
          end
      end
  end.

(* go: ethdev/stats.go Port.XstatNameIDs *)
Definition XstatNameIDs (XstatNames : names_result) (xstatIDByName : list Z -> option Z) : ids_result :=
  match XstatNames with
  | NamesError => IdsError
  | NoNames => name_ids xstatIDByName [] ∅
  | Names ns => name_ids xstatIDByName ns ∅
  end.

(** ** Buffers *)

(* go: ethdev/rxtx.go fracCeilRound *)
Definition fracCeilRound (x y : Z) : Z :=
  let n := Z.quot x y in
  if negb (y * n =? x) then n + 1 else n.

(** [sizeof] is the size of the C structure, pointers have eight bytes. *)
(* go: ethdev/rxtx.go TxBufferSize *)
Definition TxBufferSize (sizeof_ mbufCnt : Z) : Z := u64 (sizeof_ + u64 (u64 mbufCnt * 8)).

(** The number of pointers in the memory of a new buffer. *)
(* go: ethdev/rxtx.go NewTxBuffer *)
Definition NewTxBuffer (sizeof_ cnt : Z) : Z := fracCeilRound (i64 (TxBufferSize sizeof_ cnt)) (i64 8).

(** ** The sniffer's report *)

(* go: app/test-sniffer/stats.go portStat *)
Record portStat := mkPortStat {
  ps_pid : Z;
  prevStats : list Z;
  curStats : list Z;
  basic : list Z;
  ids : list Z;
  prevVals : list Z;
  curVals : list Z;
  counters : list Z
}.

(** [add]: the eight counters, in the order they are added to. *)
Definition add_stats (basic : list Z) (gd : GoStats) : list Z :=
  zip_with (fun c delta => if 0 <? delta then c + delta else c) basic
    [Ipackets gd; Opackets gd; Ibytes gd; Obytes gd; Imissed gd; Ierrors gd; Oerrors gd; RxNoMbuf gd].

(** The loop over the extended counters. *)
Fixpoint add_xstats (prev cur counters : list Z) : list Z :=
  match prev, cur, counters with
  | p :: prev, c :: cur, x :: counters =>
      (if p <? c then x + u64 (c - p) else x) :: add_xstats prev cur counters
  | _, _, _ => counters
  end.

Section Report.
(** What the device answers: [StatsGet] and [XstatGetByID]; [None] is an error. *)
Variable StatsGet : Z -> option (list Z).
Variable XstatGetByID : Z -> list Z -> option (list Z).

(** One port; [diffStats] is shared by all ports of a report. The result says
    whether the loop goes on. *)
(* go: app/test-sniffer/stats.go 130-161 Stats.Report *)
Definition report_port (diffStats : list Z) (ps : portStat) : bool * list Z * portStat :=
  match StatsGet (ps_pid ps) with
  | None => (false, diffStats, ps)
  | Some cur =>
      let diffStats := Diff cur (prevStats ps) diffStats in
      let gd := Cast diffStats in
      let basic := add_stats (basic ps) gd in
      match XstatGetByID (ps_pid ps) (ids ps) with
      | None =>
          (false, diffStats,
           mkPortStat (ps_pid ps) cur (prevStats ps) basic (ids ps) (prevVals ps) (curVals ps) (counters ps))
      | Some vals =>
          (true, diffStats,
           mkPortStat (ps_pid ps) cur (prevStats ps) basic (ids ps) vals (prevVals ps)
             (add_xstats (prevVals ps) vals (counters ps)))
      end
  end.

Fixpoint report_ports (diffStats : list Z) (ports : list portStat) : bool * list portStat :=
  match ports with
  | [] => (true, [])
  | ps :: r =>
      let '(ok, diffStats, ps) := report_port diffStats ps in
      if ok then
        let '(ok, r) := report_ports diffStats r in (ok, ps :: r)
      else (false, ps :: r)
  end.

(** [n] is the number of words of a [Stats]; [true] is a nil error. *)
(* go: app/test-sniffer/stats.go Stats.Report *)
Definition Report (n : nat) (ports : list portStat) : bool * list portStat :=
  report_ports (replicate n 0) ports.
End Report.

(** A port as [NewStats] sets it up: no statistics yet, the ids of the device's
    extended statistics. *)
(* go: app/test-sniffer/stats.go 85-116 NewStats *)
Definition new_port (pid : Z) (n : nat) (ids : list Z) : portStat :=
  mkPortStat pid (replicate n 0) (replicate n 0) (replicate 8 0) ids
    (replicate (length ids) 0) (replicate (length ids) 0) (replicate (length ids) 0).
