(* ===== verification/EthStatsSpec.v ===== *)
(** * Statistics: what they promise

    The differences of the basic and extended statistics, the sniffer's
    counters, and the report that charges one port's difference to the next. *)

From Stdlib Require Import ZArith Lia String.
From stdpp Require Import base list numbers option gmap.
From S2P Require Import Prelude Text EthStats.

Open Scope Z_scope.

Definition word64 (x : Z) : Prop := 0 <= x < 18446744073709551616.

(** ** Extended statistics *)

(** The value an index has in an array: that of its first entry. *)
Definition xlookup (l : list Xstat) (idx : Z) : option Z :=
  match searchXstat l idx with
  | None => None
  | Some n => XValue <$> l !! n
  end.

Lemma xlookup_nil idx : xlookup [] idx = None.
Proof. done. Qed.

Lemma xlookup_cons x l idx : xlookup (x :: l) idx = if Index x =? idx then Some (XValue x) else xlookup l idx.
Proof.
  unfold xlookup. cbn [searchXstat]. destruct (Index x =? idx); [done|]. by destruct (searchXstat l idx).
Qed.

Lemma xlookup_snoc l x idx :
  xlookup (l ++ [x]) idx =
    match xlookup l idx with Some v => Some v | None => if Index x =? idx then Some (XValue x) else None end.
Proof.
  induction l as [|y l IH]; [simpl; by rewrite xlookup_cons|].
  rewrite <- app_comm_cons, !xlookup_cons. by destruct (Index y =? idx).
Qed.

Lemma searchXstat_Some l idx n :
  searchXstat l idx = Some n -> exists x, l !! n = Some x /\ Index x = idx /\ xlookup l idx = Some (XValue x).
Proof.
  revert n; induction l as [|y l IH]; intros n E; [done|]. rewrite xlookup_cons. cbn [searchXstat] in E.
  destruct (Z.eqb_spec (Index y) idx) as [<-|N].
  - simplify_eq. by exists y.
  - apply fmap_Some in E as (k & E & ->). destruct (IH k E) as (x & ? & ? & ?). by exists x.
Qed.

Lemma searchXstat_None l idx : searchXstat l idx = None <-> xlookup l idx = None.
Proof.
  split; intros E; [by unfold xlookup; rewrite E|].
  destruct (searchXstat l idx) as [n|] eqn:S; [|done].
  apply searchXstat_Some in S as (x & _ & _ & S). congruence.
Qed.

Lemma xlookup_set l idx n v :
  searchXstat l idx = Some n ->
  forall i, xlookup (set_XValue l n v) i = if idx =? i then Some v else xlookup l i.
Proof.
  revert n; induction l as [|y l IH]; intros n E i; [done|]. cbn [searchXstat] in E.
  destruct (Z.eqb_spec (Index y) idx) as [<-|N].
  - simplify_eq. unfold set_XValue. simpl. rewrite !xlookup_cons. simpl. by destruct (Index y =? i).
  - apply fmap_Some in E as (k & E & ->). specialize (IH k E i).
    assert (C : set_XValue (y :: l) (S k) v = y :: set_XValue l k v).
    { unfold set_XValue. simpl. by destruct (l !! k). }
    rewrite C, !xlookup_cons, IH. destruct (Z.eqb_spec (Index y) i) as [<-|]; [|done].
    destruct (Z.eqb_spec idx (Index y)); [congruence|done].
Qed.

(** The difference an index gets. *)
Definition xdelta (old : list Xstat) (d : Xstat) : Z :=
  match xlookup old (Index d) with
  | Some f => if (0 <? f) && (f <? XValue d) then XValue d - f else 0
  | None => 0
  end.

Lemma xstat_step_spec d old delta :
  word64 (XValue d) -> (forall i v, xlookup old i = Some v -> 0 <= v) ->
  let '(old', delta') := xstat_step d old delta in
  (forall i, xlookup old' i = if Index d =? i then Some (XValue d) else xlookup old i) /\
  (forall i, xlookup delta' i = if Index d =? i then Some (xdelta old d) else xlookup delta i).
Proof.
  intros W Pos. unfold xstat_step, xdelta.
  assert (D : forall dl v i,
    xlookup (match searchXstat dl (Index d) with
             | None => dl ++ [mkXstat (Index d) v]
             | Some k => set_XValue dl k v
             end) i = if Index d =? i then Some v else xlookup dl i).
  { intros dl v i. destruct (searchXstat dl (Index d)) as [k|] eqn:Sk; [by apply xlookup_set|].
    rewrite xlookup_snoc. apply searchXstat_None in Sk. simpl.
    destruct (Z.eqb_spec (Index d) i) as [<-|]; [by rewrite Sk|by destruct (xlookup dl i)]. }
  destruct (searchXstat old (Index d)) as [n|] eqn:So.
  - destruct (searchXstat_Some _ _ _ So) as (x & Hn & _ & ->). rewrite Hn. simpl.
    assert (P : 0 <= XValue x).
    { apply (Pos (Index d)). by destruct (searchXstat_Some _ _ _ So) as (x' & Hn' & _ & ->); simplify_eq. }
    destruct (Z.ltb_spec 0 (XValue x)), (Z.ltb_spec (XValue x) (XValue d)); simpl;
      (split; [by apply xlookup_set|intros i; rewrite D]);
      rewrite ?u64_small by (unfold word64 in W; lia); done.
  - pose proof (proj1 (searchXstat_None _ _) So) as ->. split.
    + intros i. rewrite xlookup_snoc. destruct (Z.eqb_spec (Index d) i) as [<-|]; [|by destruct (xlookup old i)].
      by rewrite (proj1 (searchXstat_None _ _) So).
    + intros i. simpl. by rewrite D.
Qed.

(** For an incoming array without repeated indices, [XstatDiff] leaves in
    [old] the incoming value of every index that came and the old one of the
    others; in [delta] an index that came has the increase since [old], zero when
    it was not there, was zero or did not grow, and the others keep theirs. *)
Theorem XstatDiff_spec incoming old delta :
  NoDup (map Index incoming) -> Forall (fun d => word64 (XValue d)) incoming ->
  (forall i v, xlookup old i = Some v -> 0 <= v) ->
  let '(newOld, newDelta) := XstatDiff incoming old delta in
  forall i,
    xlookup newOld i = match xlookup incoming i with Some v => Some v | None => xlookup old i end /\
    xlookup newDelta i =
      match xlookup incoming i with Some v => Some (xdelta old (mkXstat i v)) | None => xlookup delta i end.
Proof.
  revert old delta; induction incoming as [|d inc IH]; intros old delta N F Pos; [done|].
  cbn [XstatDiff]. apply NoDup_cons in N as [Nd N]. apply Forall_cons in F as [Fd F].
  pose proof (xstat_step_spec d old delta Fd Pos) as St.
  destruct (xstat_step d old delta) as [o1 d1]. destruct St as [So Sd].
  assert (Pos1 : forall i v, xlookup o1 i = Some v -> 0 <= v).
  { intros i v E. rewrite So in E. destruct (Index d =? i); [simplify_eq; unfold word64 in Fd; lia|eauto]. }
  specialize (IH o1 d1 N F Pos1). destruct (XstatDiff inc o1 d1) as [o2 d2]. intros i.
  destruct (IH i) as [Io Id]. rewrite Io, Id, xlookup_cons, So, Sd.
  assert (Ni : xlookup inc (Index d) = None).
  { apply searchXstat_None. destruct (searchXstat inc (Index d)) as [n|] eqn:Sn; [|done].
    apply searchXstat_Some in Sn as (x & Hx & Ex & _). exfalso. apply Nd. rewrite <- Ex.
    apply list_elem_of_fmap. exists x. split; [done|]. by eapply list_elem_of_lookup_2. }
  destruct (Z.eqb_spec (Index d) i) as [<-|Ne].
  - rewrite Ni. split; [done|]. by destruct d.
  - destruct (xlookup inc i); split; try done. f_equal. unfold xdelta. simpl. rewrite So.
    by destruct (Z.eqb_spec (Index d) i).
Qed.

Lemma XstatDiff_spec_witness :
  let '(newOld, newDelta) :=
    XstatDiff [mkXstat 1 50; mkXstat 2 7; mkXstat 3 9] [mkXstat 3 4; mkXstat 1 60] [mkXstat 9 1] in
  xlookup newOld 2 = Some 7 /\ xlookup newDelta 3 = Some 5 /\ xlookup newDelta 1 = Some 0 /\
  xlookup newDelta 9 = Some 1.
Proof.
  pose proof (XstatDiff_spec [mkXstat 1 50; mkXstat 2 7; mkXstat 3 9] [mkXstat 3 4; mkXstat 1 60] [mkXstat 9 1]) as T.
  destruct (XstatDiff _ _ _) as [o d]. assert (T' := T
    ltac:(apply (bool_decide_unpack _); vm_compute; exact I)
    ltac:(repeat constructor; simpl; lia)
    ltac:(intros i v; rewrite !xlookup_cons; repeat case_match; intros; simplify_eq; simpl; done || lia)).
  split; [exact (proj1 (T' 2))|]. split; [exact (proj2 (T' 3))|]. split; [exact (proj2 (T' 1))|exact (proj2 (T' 9))].
Defined.

(** ** Basic statistics *)

Lemma Diff_lookup cur old delta i c o d :
  cur !! i = Some c -> old !! i = Some o -> delta !! i = Some d -> word64 c -> 0 <= o ->
  Diff cur old delta !! i = Some (if (o <? c) && negb (o =? 0) then c - o else d).
Proof.
  revert cur old delta; induction i as [|i IH]; intros [|c' cur] [|o' old] [|d' delta] Hc Ho Hd W P; try done.
  - simpl in *. simplify_eq. destruct (Z.ltb_spec o c); simpl; [|done].
    destruct (o =? 0); simpl; [done|]. unfold word64 in W. by rewrite u64_small by lia.
  - simpl in *. by apply IH.
Qed.

Lemma length_Diff cur old delta : length (Diff cur old delta) = length delta.
Proof.
  revert old delta; induction cur as [|c cur IH]; intros [|o old] [|d delta]; try done. simpl. by rewrite IH.
Qed.

(** A counter that did not move leaves the delta as it was. *)
Lemma Diff_same cur delta : Diff cur cur delta = delta.
Proof.
  revert delta; induction cur as [|c cur IH]; intros [|d delta]; try done.
  simpl. by rewrite Z.ltb_irrefl, IH.
Qed.

(** In one report, a port whose statistics did not change since the last one
    has its counters increased all the same: by the differences left over from
    the ports before it. *)
Theorem Report_stale_delta StatsGet XstatGetByID n p1 p2 cur vals1 vals2 :
  StatsGet (ps_pid p1) = Some cur -> XstatGetByID (ps_pid p1) (ids p1) = Some vals1 ->
  StatsGet (ps_pid p2) = Some (prevStats p2) -> XstatGetByID (ps_pid p2) (ids p2) = Some vals2 ->
  exists p1' p2', Report StatsGet XstatGetByID n [p1; p2] = (true, [p1'; p2']) /\
    basic p2' = add_stats (basic p2) (Cast (Diff cur (prevStats p1) (replicate n 0))).
Proof.
  intros E1 E2 E3 E4. unfold Report, report_ports, report_port. rewrite E1, E2, E3, E4.
  rewrite Diff_same. by eexists _, _.
Qed.

Lemma Report_stale_delta_witness :
  let ports := [mkPortStat 0 [10; 0; 0; 0; 0; 0; 0; 0] [] (replicate 8 0) [] [] [] [];
                mkPortStat 1 (replicate 8 3) [] (replicate 8 0) [] [] [] []] in
  let get := fun pid => if pid =? 0 then Some [15; 0; 0; 0; 0; 0; 0; 0] else Some (replicate 8 3) in
  exists p1 p2, Report get (fun _ _ => Some []) 8 ports = (true, [p1; p2]) /\ basic p2 = [5; 0; 0; 0; 0; 0; 0; 0].
Proof.
  intros ports get.
  destruct (Report_stale_delta get (fun _ _ => Some []) 8
    (mkPortStat 0 [10; 0; 0; 0; 0; 0; 0; 0] [] (replicate 8 0) [] [] [] [])
    (mkPortStat 1 (replicate 8 3) [] (replicate 8 0) [] [] [] [])
    [15; 0; 0; 0; 0; 0; 0; 0] [] [] eq_refl eq_refl eq_refl eq_refl) as (p1 & p2 & E & B).
  exists p1, p2. split; [exact E|]. rewrite B. reflexivity.
Defined.

(** ** The extended counters of the report *)

(** A device's extended counters are words and never decrease. *)
Definition grows (prev cur : list Z) : Prop := Forall2 (fun p c => 0 <= p <= c /\ word64 c) prev cur.

Lemma add_xstats_exact prev cur : grows prev cur -> add_xstats prev cur prev = cur.
Proof.
  induction 1 as [|p c prev cur [? W] _ IH]; [done|]. simpl. rewrite IH. f_equal.
  unfold word64 in W. destruct (Z.ltb_spec p c); [rewrite u64_small by lia; lia|lia].
Qed.

(** As long as the device's extended statistics do not decrease, every
    complete report leaves every port's counters at the values last read: no
    increase is lost and none is counted twice. *)
Theorem Report_xstats_exact StatsGet XstatGetByID n ports ports' :
  Forall (fun ps => counters ps = prevVals ps) ports ->
  Forall (fun ps => forall vals, XstatGetByID (ps_pid ps) (ids ps) = Some vals -> grows (prevVals ps) vals) ports ->
  Report StatsGet XstatGetByID n ports = (true, ports') ->
  Forall2 (fun ps ps' => ps_pid ps' = ps_pid ps /\ ids ps' = ids ps /\
    XstatGetByID (ps_pid ps) (ids ps) = Some (prevVals ps') /\ counters ps' = prevVals ps') ports ports'.
Proof.
  intros C G. unfold Report. generalize (replicate n 0). revert ports' G.
  induction C as [|ps ports Cp _ IH]; intros ports' G diff E; cbn [report_ports] in E.
  - injection E as <-. constructor.
  - apply Forall_cons in G as [Gp G]. unfold report_port in E.
    destruct (StatsGet (ps_pid ps)) as [cur|]; [|done].
    destruct (XstatGetByID (ps_pid ps) (ids ps)) as [vals|] eqn:Ev; [|done].
    destruct (report_ports _ _ _ ports) as [ok r] eqn:Er. injection E as -> <-.
    constructor; [|by eapply IH]. simpl. rewrite Cp. by rewrite (add_xstats_exact _ _ (Gp vals eq_refl)).
Qed.

Lemma Report_xstats_exact_witness :
  let ps := new_port 3 8 [7; 9] in
  let ps' := mkPortStat 3 (replicate 8 0) (replicate 8 0) (replicate 8 0) [7; 9] [4; 5] [0; 0] [4; 5] in
  Forall2 (fun ps ps' => ps_pid ps' = ps_pid ps /\ ids ps' = ids ps /\
    Some [4; 5] = Some (prevVals ps') /\ counters ps' = prevVals ps') [ps] [ps'].
Proof.
  intros ps ps'.
  apply (Report_xstats_exact (fun _ => Some (replicate 8 0)) (fun _ _ => Some [4; 5]) 8 [ps] [ps']).
  - repeat constructor.
  - constructor; [|constructor]. intros vals E. apply (inj Some) in E. subst vals.
    repeat constructor; lia.
  - reflexivity.
Defined.

(** ** Buffers *)

Lemma fracCeilRound_ceil x y : 0 <= x -> 0 < y -> fracCeilRound x y = (x + y - 1) / y.
Proof.
  intros Hx Hy. unfold fracCeilRound. rewrite Z.quot_div_nonneg by lia.
  pose proof (Z.div_mod x y ltac:(lia)) as E. pose proof (Z.mod_pos_bound x y ltac:(lia)) as R.
  set (d := x / y) in *. set (r := x mod y) in *. clearbody d r.
  destruct (Z.eqb_spec (y * d) x); simpl.
  - apply Z.div_unique with (y - 1); lia.
  - apply Z.div_unique with (r - 1); lia.
Qed.

(** The memory of a new transmit buffer holds the structure and [cnt] pointers. *)
Lemma NewTxBuffer_fits sizeof_ cnt :
  0 <= sizeof_ < 1000000 -> 0 <= cnt < 1000000 -> sizeof_ + 8 * cnt <= 8 * NewTxBuffer sizeof_ cnt.
Proof.
  intros Hs Hc. unfold NewTxBuffer, TxBufferSize. rewrite (u64_small cnt), (u64_small (cnt * 8)), u64_small by lia.
  change (i64 8) with 8. rewrite i64_small by lia. rewrite fracCeilRound_ceil by lia.
  Z.div_mod_to_equations; lia.
Qed.
