(* ===== verification/Sniffer.v ===== *)
(** * The test-sniffer application: setting up ports and lcores

    [src/app/test-sniffer/]: the assignment of receive queues to lcores
    ([lcores.go]), per-port mempools ([mempool.go]), the counters per lcore
    ([queue_count.go]), the configuration of a port ([port.go]) and the
    flow-control flag ([util.go]). What DPDK says of ports and lcores is an
    argument. *)

From Stdlib Require Import ZArith Lia String.
From stdpp Require Import base list numbers option gmap.
From S2P Require Import Prelude Text.

Open Scope Z_scope.

(** ** Queues to lcores *)

(* go: app/test-sniffer/lcores.go PortQueue *)
Record PortQueue := mkPortQueue { Pid : Z; RxQid : Z; TxQid : Z }.

(** The errors of the distribution; [TooFew pid nrx n] is the formatted one. *)
Inductive dist_error := InfoError | ErrInvalid | ErrNotExist | ErrClosed | TooFew (pid nrx n : Z).

#[export] Instance dist_error_eq_dec : EqDecision dist_error.
Proof. solve_decision. Defined.

Section Distribute.
(** [eal.LcoreToSocket], the number of receive queues [InfoGet] reports ([None]
    is its error), and [SocketID]. *)
Variable LcoreToSocket : Z -> Z.
Variable NbRxQueues : Z -> option Z.
Variable SocketID : Z -> Z.

(* go: app/test-sniffer/lcores.go dissectLcores *)
Fixpoint dissectLcores_from (table : gmap Z (list Z)) (lcores : list Z) : gmap Z (list Z) :=
  match lcores with
  | [] => table
  | lcore :: r =>
      let socket := LcoreToSocket lcore in
      dissectLcores_from
        (match table !! socket with
         | None => <[socket := [lcore]]> table
         | Some affine => <[socket := affine ++ [lcore]]> table
         end) r
  end.
Definition dissectLcores (lcores : list Z) : gmap Z (list Z) := dissectLcores_from ∅ lcores.

(** The loop over the queues: [lcores[0]] takes queue [i]; [None] is an index
    out of range. *)
Fixpoint take_lcores (pid socket i : Z) (n : nat) (lcores : list Z)
    (lcoreMap : gmap Z (list Z)) (table : gmap Z PortQueue) :
    option (gmap Z (list Z) * gmap Z PortQueue) :=
  match n with
  | O => Some (lcoreMap, table)
  | S n =>
      match lcores with
      | [] => None
      | lcore :: lcores =>
          take_lcores pid socket (u16 (i + 1)) n lcores (<[socket := lcores]> lcoreMap)
            (<[lcore := mkPortQueue pid i 0]> table)
      end
  end.

Inductive dist_result A := Done (a : A) | Failed (e : dist_error) | Panic.
Arguments Done {A}.
Arguments Failed {A}.
Arguments Panic {A}.

(* go: app/test-sniffer/lcores.go distributeQueuesPort *)
Definition distributeQueuesPort (pid : Z) (lcoreMap : gmap Z (list Z)) (table : gmap Z PortQueue) :
    dist_result (gmap Z (list Z) * gmap Z PortQueue) :=
  match NbRxQueues pid with
  | None => Failed InfoError
  | Some nrx =>
      let socket := SocketID pid in
      if socket <? 0 then Failed ErrInvalid
      else
        match lcoreMap !! socket with
        | None => Failed ErrNotExist
        | Some lcores =>
            if nrx =? 0 then Failed ErrClosed
            else if Z.of_nat (length lcores) <? nrx then Failed (TooFew pid nrx (Z.of_nat (length lcores)))
            else
              match take_lcores pid socket 0 (Z.to_nat nrx) lcores lcoreMap table with
              | None => Panic
              | Some r => Done r
              end
        end
  end.

(* go: app/test-sniffer/lcores.go DistributeQueues *)
Fixpoint DistributeQueues_from (ports : list Z) (lcoreMap : gmap Z (list Z)) (table : gmap Z PortQueue) :
    dist_result (gmap Z PortQueue) :=
  match ports with
  | [] => Done table
  | pid :: r =>
      match distributeQueuesPort pid lcoreMap table with
      | Done (lcoreMap, table) => DistributeQueues_from r lcoreMap table
      | Failed e => Failed e
      | Panic => Panic
      end
  end.
Definition DistributeQueues (ports lcores : list Z) : dist_result (gmap Z PortQueue) :=
  DistributeQueues_from ports (dissectLcores lcores) ∅.
End Distribute.
Arguments Done {A}.
Arguments Failed {A}.
Arguments Panic {A}.

(** ** Mempools per port *)

Section Pools.
(** [IsValid] and [SocketID] of a port; the options of a pool; the factory, with
    [None] for an error. *)
Variable IsValid : Z -> bool.
Variable SocketID : Z -> Z.
Context {Opt : Type}.
Variable OptSocket : Z -> Opt.
Variable NewMempool : list Z -> list Opt -> option Z.

(** The loop over the slots, from port [i] on: [nil] is [0]. *)
Fixpoint pools_from (prefix : list Z) (opts : list Opt) (i : Z) (n : nat) : option (list Z) :=
  match n with
  | O => Some []
  | S n =>
      let pid := u16 i in
      if IsValid pid then
        let name := prefix ++ str "_" ++ fmt_d i in
        let options := OptSocket (SocketID pid) :: opts in
        match NewMempool name options with
        | None => None
        | Some mp => cons mp <$> pools_from prefix opts (i + 1) n
        end
      else cons 0 <$> pools_from prefix opts (i + 1) n
  end.

(* go: app/test-sniffer/mempool.go NewMempoolPerPort *)
Definition NewMempoolPerPort (CountTotal : nat) (prefix : list Z) (opts : list Opt) : option (list Z) :=
  pools_from prefix opts 0 CountTotal.

(** [inl] is [os.ErrInvalid]; a port past the slots panics. *)
(* go: app/test-sniffer/mempool.go mpPerPort.GetRxMempool *)
Definition GetRxMempool (pools : list Z) (pid : Z) : option (unit + Z) :=
  if negb (IsValid pid) then Some (inl tt)
  else inr <$> pools !! Z.to_nat pid.

(** The pools that are freed, nil ones included. *)
(* go: app/test-sniffer/mempool.go mpPerPort.FreeMempools *)
Definition FreeMempools (pools : list Z) : list Z := pools.
End Pools.

(** ** Counters per lcore *)

(** The packet and byte counters after a burst of packets with these lengths. *)
(* go: app/test-sniffer/queue_count.go QueueCounter.Incr *)
Definition Incr (packets bytes : Z) (lens : list Z) : Z * Z :=
  let dataLen := foldl (fun s l => u64 (s + l)) 0 lens in
  (packets + Z.of_nat (length lens), bytes + dataLen).

(** ** Port configuration *)

(** The calls that configure a port, in DPDK and the hooks. *)
Inductive call :=
| InfoGet
| RegisterCallbackLSC
| DevConfigure (nrxq ntxq : Z) (lsc : bool)
| PromiscEnable
| GetPool (qid : Z)
| RxqSetup (qid nrxd : Z)
| TxqSetup (qid ntxd : Z)
| HairpinQueueSetup (nrxq ntxq nhpq nrxd ntxd : Z)
| OnConfigCall (i : nat).

#[export] Instance call_eq_dec : EqDecision call.
Proof. solve_decision. Defined.

(* go: app/test-sniffer/port.go EthdevConfig *)
Record EthdevConfig := mkEthdevConfig {
  RxQueues : Z;
  TxQueues : Z;
  HairpinQueues : Z;
  OnConfig : nat;
  RxDescriptors : Z;
  TxDescriptors : Z
}.

Section Configure.
(** [fails c]: the call returns an error; [lsc]: the device flag
    [IsIntrLSC] tests. *)
Variable fails : call -> bool.
Variable lsc : bool.

(** A run of calls that stops behind the first one that fails: the calls made,
    and whether all went through. *)
Fixpoint attempt (cs : list call) : list call * bool :=
  match cs with
  | [] => ([], true)
  | c :: r =>
      if fails c then ([c], false)
      else let '(tr, ok) := attempt r in (c :: tr, ok)
  end.

Definition andThen (a b : list call * bool) : list call * bool :=
  if snd a then (fst a ++ fst b, snd b) else a.

(** [uint16] loops count from zero. *)
Definition qids (n : Z) : list Z := map Z.of_nat (seq 0 (Z.to_nat n)).

(** The calls made and whether the result is nil; the result of
    [HairpinQueueSetup] is dropped. *)
(* go: app/test-sniffer/port.go EthdevConfig.Configure *)
Definition Configure (conf : EthdevConfig) : list call * bool :=
  andThen (attempt [InfoGet])
    (andThen ((if lsc then [RegisterCallbackLSC] else []), true)
      (andThen (attempt [DevConfigure (u16 (RxQueues conf + HairpinQueues conf))
                           (u16 (TxQueues conf + HairpinQueues conf)) lsc])
        (andThen (attempt [PromiscEnable])
          (andThen (attempt (concat (map (fun q => [GetPool q; RxqSetup q (RxDescriptors conf)])
                                         (qids (RxQueues conf)))))
            (andThen (attempt (map (fun q => TxqSetup q (TxDescriptors conf)) (qids (TxQueues conf))))
              (andThen ((if 0 <? HairpinQueues conf then
                           [HairpinQueueSetup (RxQueues conf) (TxQueues conf) (HairpinQueues conf)
                              (RxDescriptors conf) (TxDescriptors conf)]
                         else []), true)
                (attempt (map OnConfigCall (seq 0 (OnConfig conf)))))))))).
End Configure.

(** ** Offload bits *)

(** [for i = 0; x&1 == 0; i++ { x >>= 1 }], with fuel. *)
Fixpoint ctz_loop (fuel : nat) (x i : Z) : Z :=
  match fuel with
  | O => i
  | S k => if Z.land x 1 =? 0 then ctz_loop k (Z.shiftr x 1) (i + 1) else i
  end.
(* go: app/test-sniffer/port.go ctzll *)
Definition ctzll (x : Z) : Z := if x =? 0 then 64 else ctz_loop 64 x 0.

Fixpoint clz_loop (fuel : nat) (x i : Z) : Z :=
  match fuel with
  | O => i
  | S k => if Z.land x 0x8000000000000000 =? 0 then clz_loop k (u64 (Z.shiftl x 1)) (i + 1) else i
  end.
(* go: app/test-sniffer/port.go clzll *)
Definition clzll (x : Z) : Z := if x =? 0 then 64 else clz_loop 64 x 0.

(** The loop over the bits from [bit] on: the value printed for each. *)
Fixpoint offload_loop (n : nat) (offloads single_offload : Z) : list Z :=
  match n with
  | O => []
  | S k =>
      (if Z.land offloads single_offload =? 0 then [] else [single_offload]) ++
      offload_loop k offloads (u64 (Z.shiftl single_offload 1))
  end.
(** The numbers of the text, which are printed with a space before each. *)
Definition offload_values (offloads : Z) : list Z :=
  if offloads =? 0 then []
  else
    let begin := ctzll offloads in
    let end_ := 64 - clzll offloads in
    offload_loop (Z.to_nat (end_ - begin)) offloads (u64 (Z.shiftl 1 begin)).
(* go: app/test-sniffer/port.go printTXOffloads *)
Definition printTXOffloads (offloads : Z) : list Z :=
  concat (map (fun v => str " " ++ fmt_d v) (offload_values offloads)).

(** ** Small things *)

(* go: app/test-sniffer/util.go queuesSeq *)
Definition queuesSeq (n : nat) : list Z := map (fun i => u16 (Z.of_nat i)) (seq 0 n).

(** [strings.ToLower] of ASCII text. *)
Definition ToLower (s : list Z) : list Z :=
  map (fun c => if (65 <=? c) && (c <=? 90) then c + 32 else c) s.

Section FlowControl.
(** The values of the [RTE_ETH_FC] enumeration. *)
Variables FcNone FcRxPause FcTxPause FcFull : Z.

(* go: app/test-sniffer/util.go fcModes *)
Definition fcModes : list (list Z * Z) :=
  [(str "none", FcNone); (str "rxpause", FcRxPause); (str "txpause", FcTxPause); (str "full", FcFull)].

Definition fc_lookup (s : list Z) : option Z :=
  snd <$> List.find (fun p => bool_decide (fst p = s)) fcModes.

(** The new [Mode], zero for text that names none, and whether the error is
    nil. *)
(* go: app/test-sniffer/util.go FcModeFlag.Set *)
Definition FcModeFlag_Set (s : list Z) : Z * bool :=
  match fc_lookup (ToLower s) with
  | Some mode => (mode, true)
  | None => (0, false)
  end.

(** The values are different, so the order of the map does not matter. *)
(* go: app/test-sniffer/util.go FcModeFlag.String *)
Definition FcModeFlag_String (mode : Z) : list Z :=
  match List.find (fun p => snd p =? mode) fcModes with
  | Some p => fst p
  | None => str "mode=" ++ fmt_d mode
  end.
End FlowControl.
