(* ===== verification/SnifferSpec.v ===== *)
(** * The test-sniffer application: what the set-up promises

    The distribution of queues is characterised exactly: it succeeds when every
    socket has lcores for its ports' queues, and then pairs them in order. The
    configuration of a port is a prefix of its calls; the offload text names the
    set bits; the flow-control flag reads what it prints. *)

From Stdlib Require Import ZArith Lia String.
From stdpp Require Import base list numbers option gmap.
From S2P Require Import Prelude Text Sniffer.

Open Scope Z_scope.

(** ** Queues to lcores *)

Lemma elem_of_qids n i : i ∈ qids n <-> 0 <= i < n.
Proof.
  unfold qids. rewrite list_elem_of_fmap. split.
  - intros (k & -> & Hk). apply elem_of_seq in Hk. lia.
  - intros H. exists (Z.to_nat i). split; [lia|]. apply elem_of_seq. lia.
Qed.

Lemma length_qids n : length (qids n) = Z.to_nat n.
Proof. unfold qids. by rewrite length_map, length_seq. Qed.

Lemma qids_lookup n k : (k < Z.to_nat n)%nat -> qids n !! k = Some (Z.of_nat k).
Proof. intros H. unfold qids. rewrite list_lookup_fmap, lookup_seq_lt by done. done. Qed.

Section Distribute.
Variable LcoreToSocket : Z -> Z.
Variable NbRxQueues : Z -> option Z.
Variable SocketID : Z -> Z.
Variable lcores : list Z.

(** The lcores of a socket, in the order given. *)
Definition socket_lcores (s : Z) : list Z := filter (fun lc => LcoreToSocket lc = s) lcores.

Definition nrx (pid : Z) : Z := default 0 (NbRxQueues pid).

(** The queues of a socket's ports, in order. *)
Definition port_queues (pid : Z) : list PortQueue := map (fun i => mkPortQueue pid i 0) (qids (nrx pid)).
Definition socket_queues (s : Z) (ports : list Z) : list PortQueue :=
  concat (map (fun pid => if SocketID pid =? s then port_queues pid else []) ports).

(** What a port needs: an answer, a socket and at least one queue. *)
Definition port_ok (pid : Z) : Prop := NbRxQueues pid <> None /\ 0 <= SocketID pid /\ nrx pid <> 0.

Hypothesis Nd : NoDup lcores.
Hypothesis nrx_range : forall pid n, NbRxQueues pid = Some n -> 0 <= n < 65536.

Lemma nrx_bound pid : 0 <= nrx pid < 65536.
Proof. unfold nrx. destruct (NbRxQueues pid) eqn:E; simpl; [eauto|lia]. Qed.

Lemma socket_lcores_NoDup s : NoDup (socket_lcores s).
Proof. by apply NoDup_filter. Qed.

Lemma socket_lcores_soc s k lc : socket_lcores s !! k = Some lc -> LcoreToSocket lc = s.
Proof. intros H. apply list_elem_of_lookup_2 in H. by apply list_elem_of_filter in H as [? _]. Qed.

Lemma dissect_from T ls s :
  dissectLcores_from LcoreToSocket T ls !! s =
    match filter (fun lc => LcoreToSocket lc = s) ls with
    | [] => T !! s
    | l => Some (default [] (T !! s) ++ l)
    end.
Proof.
  revert T; induction ls as [|lc ls IH]; intros T; [done|]. cbn [dissectLcores_from]. rewrite IH.
  rewrite filter_cons. destruct (decide (LcoreToSocket lc = s)) as [<-|N].
  - destruct (T !! LcoreToSocket lc) as [a|]; rewrite lookup_insert_eq; simpl;
      destruct (filter _ ls); simpl; by rewrite <- ?app_assoc.
  - destruct (T !! LcoreToSocket lc); rewrite !lookup_insert_ne by done; done.
Qed.

Lemma socket_queues_snoc s ports pid :
  socket_queues s (ports ++ [pid]) = socket_queues s ports ++ (if SocketID pid =? s then port_queues pid else []).
Proof. unfold socket_queues. rewrite map_app, concat_app. simpl. by rewrite app_nil_r. Qed.

Lemma length_port_queues pid : length (port_queues pid) = Z.to_nat (nrx pid).
Proof. unfold port_queues. by rewrite length_map, length_qids. Qed.

Lemma take_lcores_spec pid s i n ls M T :
  (n <= length ls)%nat -> NoDup ls -> 0 <= i -> i + Z.of_nat n < 65537 ->
  M !! s = Some ls ->
  exists M' T', take_lcores pid s i n ls M T = Some (M', T') /\
    M' !! s = Some (drop n ls) /\ (forall s', s' <> s -> M' !! s' = M !! s') /\
    (forall k lc, (k < n)%nat -> ls !! k = Some lc -> T' !! lc = Some (mkPortQueue pid (i + Z.of_nat k) 0)) /\
    (forall lc, lc ∉ take n ls -> T' !! lc = T !! lc).
Proof.
  revert i ls M T; induction n as [|n IH]; intros i ls M T Hn N Hi Hb HM; cbn [take_lcores].
  - exists M, T. split_and!; try done. intros; lia.
  - destruct ls as [|lc ls]; [simpl in Hn; lia|]. apply NoDup_cons in N as [Nl N]. simpl in Hn.
    destruct (decide (n = 0%nat)) as [->|Nn].
    { cbn [take_lcores]. eexists _, _. split; [reflexivity|]. split_and!.
      - by rewrite lookup_insert_eq.
      - intros. by rewrite lookup_insert_ne.
      - intros k lc' Hk Hl. assert (k = 0%nat) as -> by lia. simpl in Hl. simplify_eq.
        rewrite lookup_insert_eq. do 2 f_equal. lia.
      - intros lc' Hl. rewrite lookup_insert_ne; [done|]. intros ->. apply Hl. simpl. constructor. }
    destruct (IH (u16 (i + 1)) ls (<[s := ls]> M) (<[lc := mkPortQueue pid i 0]> T))
      as (M' & T' & E & H1 & H2 & H3 & H4); [lia|done|apply u16_range|rewrite u16_small; lia|by rewrite lookup_insert_eq|].
    rewrite u16_small in H3 by lia. exists M', T'. split_and!; [done|done| | |].
    + intros s' Hs. rewrite H2 by done. by rewrite lookup_insert_ne.
    + intros [|k] lc' Hk Hl; simpl in Hl.
      * simplify_eq. rewrite H4, lookup_insert_eq; [do 2 f_equal; lia|].
        intros Hin. apply Nl. rewrite <- (take_drop n ls). apply elem_of_app. by left.
      * rewrite (H3 k lc') by (done || lia). do 2 f_equal. lia.
    + intros lc' Hl. simpl in Hl. apply not_elem_of_cons in Hl as [? Hl].
      rewrite H4 by done. by rewrite lookup_insert_ne.
Qed.

(** The state once the ports [seen] have their queues. *)
Record dist_inv (seen : list Z) (M : gmap Z (list Z)) (T : gmap Z PortQueue) : Prop := {
  di_map : forall s, M !! s = match socket_lcores s with
                              | [] => None
                              | l => Some (drop (length (socket_queues s seen)) l)
                              end;
  di_fit : forall s, (length (socket_queues s seen) <= length (socket_lcores s))%nat;
  di_table : forall lc pq, T !! lc = Some pq <->
    exists k, socket_lcores (LcoreToSocket lc) !! k = Some lc /\
              socket_queues (LcoreToSocket lc) seen !! k = Some pq
}.

Lemma dist_inv_nil : dist_inv [] (dissectLcores LcoreToSocket lcores) ∅.
Proof.
  split.
  - intros s. unfold dissectLcores. rewrite dissect_from, lookup_empty. simpl.
    fold (socket_lcores s). by destruct (socket_lcores s).
  - intros s. simpl. lia.
  - intros lc pq. rewrite lookup_empty. split; [done|]. by intros (k & _ & ?).
Qed.

Lemma di_lookup seen M T s : dist_inv seen M T ->
  match M !! s with
  | None => socket_lcores s = []
  | Some l => l = drop (length (socket_queues s seen)) (socket_lcores s)
  end.
Proof. intros [D _ _]. rewrite D. by destruct (socket_lcores s). Qed.

Lemma dist_step seen M T pid M' T' :
  dist_inv seen M T -> 0 < nrx pid ->
  (Z.to_nat (nrx pid) <= length (drop (length (socket_queues (SocketID pid) seen)) (socket_lcores (SocketID pid))))%nat ->
  M !! SocketID pid = Some (drop (length (socket_queues (SocketID pid) seen)) (socket_lcores (SocketID pid))) ->
  take_lcores pid (SocketID pid) 0 (Z.to_nat (nrx pid))
    (drop (length (socket_queues (SocketID pid) seen)) (socket_lcores (SocketID pid))) M T = Some (M', T') ->
  dist_inv (seen ++ [pid]) M' T'.
Proof.
  intros [D1 D2 D3] Hp Hn HM E. remember (SocketID pid) as s eqn:Hs. set (u := length (socket_queues s seen)) in *.
  set (n := Z.to_nat (nrx pid)) in *. pose proof (nrx_bound pid) as B.
  pose proof (socket_lcores_NoDup s) as Ns.
  assert (Nd' : NoDup (drop u (socket_lcores s))).
  { rewrite <- (take_drop u (socket_lcores s)) in Ns. by apply NoDup_app in Ns as (_ & _ & ?). }
  destruct (take_lcores_spec pid s 0 n _ M T Hn Nd' ltac:(lia) ltac:(lia) HM) as (M1 & T1 & E1 & H1 & H2 & H3 & H4).
  rewrite E1 in E. injection E as -> ->. rewrite length_drop in Hn.
  assert (Ln : length (port_queues pid) = n) by apply length_port_queues.
  assert (In_new : forall lc, lc ∈ take n (drop u (socket_lcores s)) ->
    exists k, (k < n)%nat /\ socket_lcores s !! (u + k)%nat = Some lc /\ LcoreToSocket lc = s).
  { intros lc Hl. apply list_elem_of_lookup in Hl as [k Hk]. apply lookup_take_Some in Hk as [Hk Hkn].
    rewrite lookup_drop in Hk. exists k. split_and!; [done|done|]. by eapply socket_lcores_soc. }
  split.
  - intros s'. rewrite socket_queues_snoc, length_app. rewrite <- Hs. destruct (Z.eqb_spec s s') as [<-|N].
    + rewrite H1, drop_drop. fold u. rewrite Ln. destruct (socket_lcores s) eqn:El; [simpl in Hn; lia|done].
    + rewrite H2 by done. rewrite D1. simpl. by rewrite Nat.add_0_r.
  - intros s'. rewrite socket_queues_snoc, length_app. rewrite <- Hs. destruct (Z.eqb_spec s s') as [<-|N].
    + fold u. lia.
    + simpl. specialize (D2 s'). lia.
  - intros lc pq. rewrite socket_queues_snoc. split.
    + intros Ht. destruct (decide (lc ∈ take n (drop u (socket_lcores s)))) as [I|I].
      * destruct (In_new lc I) as (k & Hk & Hl & Es). exists (u + k)%nat. rewrite Es. split; [done|].
        rewrite (H3 k lc) in Ht by (try done; by rewrite lookup_drop). injection Ht as <-.
        rewrite <- Hs, Z.eqb_refl, lookup_app_r by (fold u; lia). fold u.
        replace (u + k - u)%nat with k by lia. unfold port_queues. rewrite list_lookup_fmap, qids_lookup by done. done.
      * rewrite H4 in Ht by done. apply D3 in Ht as (k & Hl & Hq). exists k. split; [done|]. by apply lookup_app_l_Some.
    + intros (k & Hl & Hq). apply lookup_app_Some in Hq as [Hq|[Hk Hq]].
      * rewrite H4; [apply D3; eauto|]. intros I. destruct (In_new lc I) as (j & Hj & Hl' & Es). rewrite Es in *.
        pose proof (NoDup_lookup _ _ _ _ Ns Hl Hl') as ->. apply lookup_lt_Some in Hq. fold u in Hq. lia.
      * rewrite <- Hs in Hq. destruct (Z.eqb_spec s (LcoreToSocket lc)) as [Es|]; [|done]. rewrite <- Es in *.
        fold u in Hk, Hq. pose proof (lookup_lt_Some _ _ _ Hq) as Lq. rewrite Ln in Lq.
        unfold port_queues in Hq. rewrite list_lookup_fmap, qids_lookup in Hq by done. simpl in Hq. simplify_eq.
        apply (H3 _ lc Lq). rewrite lookup_drop. by replace (u + (k - u))%nat with k by lia.
Qed.

Definition all_fit (ports : list Z) : Prop :=
  (forall pid, pid ∈ ports -> port_ok pid) /\
  forall s, (length (socket_queues s ports) <= length (socket_lcores s))%nat.

Lemma all_fit_prefix seen pid rest : all_fit (seen ++ pid :: rest) ->
  port_ok pid /\ (length (socket_queues (SocketID pid) seen) + Z.to_nat (nrx pid) <=
    length (socket_lcores (SocketID pid)))%nat.
Proof.
  intros [Ok Fit]. split; [apply Ok; rewrite elem_of_app, elem_of_cons; auto|].
  specialize (Fit (SocketID pid)). unfold socket_queues in *. rewrite map_app, concat_app in Fit.
  rewrite length_app in Fit. simpl in Fit. rewrite Z.eqb_refl, length_app, length_port_queues in Fit. lia.
Qed.

Lemma distribute_from seen ports M T :
  dist_inv seen M T ->
  (forall pid, pid ∈ seen -> port_ok pid) ->
  match DistributeQueues_from NbRxQueues SocketID ports M T with
  | Done T' => all_fit (seen ++ ports) /\ exists M', dist_inv (seen ++ ports) M' T'
  | Failed _ => ~ all_fit (seen ++ ports)
  | Panic => False
  end.
Proof.
  revert seen M T; induction ports as [|pid ports IH]; intros seen M T I Ok; cbn [DistributeQueues_from].
  - rewrite app_nil_r. split; [split; [done|apply I]|by exists M].
  - unfold distributeQueuesPort. pose proof (nrx_bound pid) as B.
    destruct (NbRxQueues pid) as [n|] eqn:En.
    2: { intros A. by destruct (all_fit_prefix _ _ _ A) as [[? _] _]. }
    assert (Er : nrx pid = n) by (unfold nrx; by rewrite En).
    destruct (Z.ltb_spec (SocketID pid) 0) as [L|L].
    { intros A. destruct (all_fit_prefix _ _ _ A) as [(_ & ? & _) _]. lia. }
    pose proof (di_lookup _ _ _ (SocketID pid) I) as Lk.
    destruct (M !! SocketID pid) as [l|] eqn:EM.
    2: { intros A. destruct (all_fit_prefix _ _ _ A) as [(_ & _ & N) F]. rewrite Lk in F. simpl in F. lia. }
    subst l. destruct (Z.eqb_spec n 0) as [->|N0].
    { intros A. by destruct (all_fit_prefix _ _ _ A) as [(_ & _ & N) _]. }
    destruct (Z.ltb_spec (Z.of_nat (length (drop (length (socket_queues (SocketID pid) seen))
      (socket_lcores (SocketID pid))))) n) as [Q|Q].
    { intros A. destruct (all_fit_prefix _ _ _ A) as [_ F]. rewrite length_drop in Q. lia. }
    assert (Ns : NoDup (drop (length (socket_queues (SocketID pid) seen)) (socket_lcores (SocketID pid)))).
    { pose proof (socket_lcores_NoDup (SocketID pid)) as Ns.
      rewrite <- (take_drop (length (socket_queues (SocketID pid) seen)) (socket_lcores (SocketID pid))) in Ns.
      by apply NoDup_app in Ns as (_ & _ & ?). }
    assert (Ln : (Z.to_nat n <= length (drop (length (socket_queues (SocketID pid) seen))
      (socket_lcores (SocketID pid))))%nat) by lia.
    destruct (take_lcores_spec pid (SocketID pid) 0 (Z.to_nat n) _ M T Ln Ns ltac:(lia) ltac:(lia) EM)
      as (M' & T' & E & _). rewrite E. subst n.
    assert (I' : dist_inv (seen ++ [pid]) M' T') by (apply (dist_step seen M T pid); try done; lia).
    specialize (IH (seen ++ [pid]) M' T' I'). rewrite <- app_assoc in IH. apply IH.
    intros p Hp. apply elem_of_app in Hp as [Hp|Hp]; [by apply Ok|]. apply list_elem_of_singleton in Hp as ->.
    split; [by rewrite En|done].
Qed.
End Distribute.

Lemma elem_of_socket_queues SocketID NbRxQueues s ports pq :
  pq ∈ socket_queues NbRxQueues SocketID s ports <->
  exists pid, pid ∈ ports /\ SocketID pid = s /\ pq ∈ port_queues NbRxQueues pid.
Proof.
  induction ports as [|p ports IH]; [split; [by intros ?%elem_of_nil|intros (? & ?%elem_of_nil & _)]; done|].
  unfold socket_queues in *. simpl. rewrite elem_of_app, IH. split.
  - intros [H|(pid & ? & ? & ?)].
    + destruct (Z.eqb_spec (SocketID p) s) as [E|]; [|by apply elem_of_nil in H].
      exists p. split_and!; [constructor|done|done].
    + exists pid. split_and!; [by constructor|done|done].
  - intros (pid & [->|H]%elem_of_cons & <- & Q); [left; by rewrite Z.eqb_refl|right; eauto].
Qed.

Lemma port_queues_Pid NbRxQueues pid pq : pq ∈ port_queues NbRxQueues pid -> Pid pq = pid.
Proof. unfold port_queues. intros H. apply list_elem_of_fmap in H as (i & -> & _). done. Qed.

Lemma NoDup_socket_queues SocketID NbRxQueues s ports :
  NoDup ports -> NoDup (socket_queues NbRxQueues SocketID s ports).
Proof.
  induction 1 as [|p ports Hp N IH]; [constructor|]. unfold socket_queues in *. simpl.
  apply NoDup_app. split_and!; [|intros pq H H'|done].
  - destruct (SocketID p =? s); [|constructor]. unfold port_queues, qids. apply NoDup_fmap_2.
    + by intros i j [=].
    + apply NoDup_fmap_2; [intros i j; lia|]. apply NoDup_seq.
  - destruct (SocketID p =? s); [|by apply elem_of_nil in H]. apply port_queues_Pid in H.
    apply elem_of_socket_queues in H' as (pid & Hin & _ & Q). apply port_queues_Pid in Q. congruence.
Qed.

(** A table of queues by lcore in which each lcore has the queue of its place. *)
Definition table_of LcoreToSocket NbRxQueues SocketID (lcores ports : list Z) (T : gmap Z PortQueue) : Prop :=
  forall lc pq, T !! lc = Some pq <->
    exists k, socket_lcores LcoreToSocket lcores (LcoreToSocket lc) !! k = Some lc /\
              socket_queues NbRxQueues SocketID (LcoreToSocket lc) ports !! k = Some pq.

Lemma table_apart LcoreToSocket NbRxQueues SocketID lcores ports T :
  NoDup ports -> table_of LcoreToSocket NbRxQueues SocketID lcores ports T ->
  forall lc lc' pq, T !! lc = Some pq -> T !! lc' = Some pq -> lc = lc'.
Proof.
  intros Np Dt lc lc' pq H H'. apply Dt in H as (k & Hk & Q), H' as (k' & Hk' & Q').
  assert (Es : LcoreToSocket lc = LcoreToSocket lc').
  { pose proof (list_elem_of_lookup_2 _ _ _ Q) as I. pose proof (list_elem_of_lookup_2 _ _ _ Q') as I'.
    apply elem_of_socket_queues in I as (p & _ & <- & P), I' as (p' & _ & <- & P').
    apply port_queues_Pid in P, P'. congruence. }
  rewrite <- Es in *. pose proof (NoDup_lookup _ _ _ _ (NoDup_socket_queues _ _ _ _ Np) Q Q') as ->. congruence.
Qed.

(** A successful distribution. *)
Lemma distribute_ok LcoreToSocket NbRxQueues SocketID ports lcores T :
  NoDup lcores -> (forall pid n, NbRxQueues pid = Some n -> 0 <= n < 65536) ->
  DistributeQueues LcoreToSocket NbRxQueues SocketID ports lcores = Done T ->
  all_fit LcoreToSocket NbRxQueues SocketID lcores ports /\ table_of LcoreToSocket NbRxQueues SocketID lcores ports T.
Proof.
  intros Nl Nr E. pose proof (distribute_from LcoreToSocket NbRxQueues SocketID lcores Nl Nr [] ports _ _
    (dist_inv_nil LcoreToSocket NbRxQueues SocketID lcores)) as D.
  specialize (D ltac:(by intros ? ?%elem_of_nil)). simpl in D. unfold DistributeQueues in E. rewrite E in D.
  destruct D as (A & M & [_ _ Dt]). done.
Qed.

(** A queue of the table is a receive queue; its transmit queue is 0. *)
Lemma table_TxQid LcoreToSocket NbRxQueues SocketID lcores ports T : table_of LcoreToSocket NbRxQueues SocketID lcores ports T ->
  forall lc pq, T !! lc = Some pq -> pq = mkPortQueue (Pid pq) (RxQid pq) 0.
Proof.
  intros Dt lc pq H. apply Dt in H as (k & _ & Q). apply list_elem_of_lookup_2, elem_of_socket_queues in Q as (p & _ & _ & Q).
  unfold port_queues in Q. by apply list_elem_of_fmap in Q as (i & -> & _).
Qed.

(** Each queue of each port is in the table of a full distribution. *)
Lemma queue_served LcoreToSocket NbRxQueues SocketID lcores ports T pid i :
  all_fit LcoreToSocket NbRxQueues SocketID lcores ports -> table_of LcoreToSocket NbRxQueues SocketID lcores ports T ->
  pid ∈ ports -> 0 <= i < nrx NbRxQueues pid ->
  exists lc, lc ∈ lcores /\ LcoreToSocket lc = SocketID pid /\ T !! lc = Some (mkPortQueue pid i 0).
Proof.
  intros [_ Fit] Dt Hp Hi. assert (Q : mkPortQueue pid i 0 ∈ socket_queues NbRxQueues SocketID (SocketID pid) ports).
  { apply elem_of_socket_queues. exists pid. split_and!; [done|done|]. unfold port_queues. apply list_elem_of_fmap. exists i.
    split; [done|]. by apply elem_of_qids. }
  apply list_elem_of_lookup_1 in Q as [k Hk]. specialize (Fit (SocketID pid)). pose proof (lookup_lt_Some _ _ _ Hk) as Lk.
  destruct (lookup_lt_is_Some_2 (socket_lcores LcoreToSocket lcores (SocketID pid)) k ltac:(lia)) as [lc Hlc].
  pose proof (list_elem_of_lookup_2 _ _ _ Hlc) as E. apply list_elem_of_filter in E as [So E]. exists lc.
  split_and!; [done|done|]. apply Dt. exists k. by rewrite So.
Qed.

(** C8. The distribution of queues: it succeeds exactly when every port answers,
    has a socket and queues, and the queues of each socket's ports do not
    outnumber its lcores; then the [k]-th lcore of a socket has the [k]-th queue
    of its ports and the others have none; with distinct ports no two lcores
    share a queue. It never indexes out of range. *)
Theorem DistributeQueues_spec LcoreToSocket NbRxQueues SocketID ports lcores
    (Nl : NoDup lcores) (Nr : forall pid n, NbRxQueues pid = Some n -> 0 <= n < 65536) :
  match DistributeQueues LcoreToSocket NbRxQueues SocketID ports lcores with
  | Done T =>
      all_fit LcoreToSocket NbRxQueues SocketID lcores ports /\
      (forall lc pq, T !! lc = Some pq <->
        exists k, socket_lcores LcoreToSocket lcores (LcoreToSocket lc) !! k = Some lc /\
                  socket_queues NbRxQueues SocketID (LcoreToSocket lc) ports !! k = Some pq) /\
      (NoDup ports -> forall lc lc' pq, T !! lc = Some pq -> T !! lc' = Some pq -> lc = lc')
  | Failed _ => ~ all_fit LcoreToSocket NbRxQueues SocketID lcores ports
  | Panic => False
  end.
Proof.
  pose proof (distribute_from LcoreToSocket NbRxQueues SocketID lcores Nl Nr [] ports _ _
    (dist_inv_nil LcoreToSocket NbRxQueues SocketID lcores)) as D.
  specialize (D ltac:(by intros ? ?%elem_of_nil)). simpl in D. unfold DistributeQueues.
  destruct (DistributeQueues_from _ _ _ _ _) as [T|e|]; [|done|done].
  destruct D as (A & M & [_ _ Dt]). split_and!; [done|done|].
  intros Np. by apply (table_apart LcoreToSocket NbRxQueues SocketID lcores ports).
Qed.

(** Two ports on socket 0 with two and one queues, one on socket 1, six lcores. *)
Lemma DistributeQueues_spec_witness :
  let T := DistributeQueues (fun lc => lc mod 2) (fun p => Some (if p =? 0 then 2 else 1)) (fun p => p / 2)
             [0; 1; 2] [1; 2; 3; 4; 5; 6] in
  (T = Done (<[1 := mkPortQueue 2 0 0]> (<[6 := mkPortQueue 1 0 0]>
        (<[4 := mkPortQueue 0 1 0]> {[2 := mkPortQueue 0 0 0]})))) /\
  match T with
  | Done T => forall lc lc' pq, T !! lc = Some pq -> T !! lc' = Some pq -> lc = lc'
  | _ => False
  end.
Proof.
  split; [vm_compute; reflexivity|].
  assert (N : NoDup [1; 2; 3; 4; 5; 6]) by (apply (bool_decide_unpack _); vm_compute; exact I).
  pose proof (DistributeQueues_spec (fun lc => lc mod 2) (fun p => Some (if p =? 0 then 2 else 1)) (fun p => p / 2)
    [0; 1; 2] [1; 2; 3; 4; 5; 6] N) as S.
  assert (Hr : forall pid n : Z, Some (if pid =? 0 then 2 else 1) = Some n -> 0 <= n < 65536)
    by (intros pid n H; destruct (pid =? 0); injection H as <-; lia).
  specialize (S Hr).
  assert (E : exists T, DistributeQueues (fun lc => lc mod 2) (fun p => Some (if p =? 0 then 2 else 1)) (fun p => p / 2)
    [0; 1; 2] [1; 2; 3; 4; 5; 6] = Done T) by (eexists; vm_compute; reflexivity).
  destruct E as [T E]. cbv zeta. rewrite E in *. destruct S as (_ & _ & S). apply S.
  apply (bool_decide_unpack _). vm_compute. exact I.
Defined.

(** ** Port configuration *)

(** All the calls of a configuration, in order. *)
Definition config_calls (lsc : bool) (conf : EthdevConfig) : list call :=
  [InfoGet] ++ (if lsc then [RegisterCallbackLSC] else []) ++
  [DevConfigure (u16 (RxQueues conf + HairpinQueues conf)) (u16 (TxQueues conf + HairpinQueues conf)) lsc] ++
  [PromiscEnable] ++
  concat (map (fun q => [GetPool q; RxqSetup q (RxDescriptors conf)]) (qids (RxQueues conf))) ++
  map (fun q => TxqSetup q (TxDescriptors conf)) (qids (TxQueues conf)) ++
  (if 0 <? HairpinQueues conf then
     [HairpinQueueSetup (RxQueues conf) (TxQueues conf) (HairpinQueues conf)
        (RxDescriptors conf) (TxDescriptors conf)] else []) ++
  map OnConfigCall (seq 0 (OnConfig conf)).

(** The calls whose error ends the configuration. *)
Definition checked (c : call) : bool :=
  match c with RegisterCallbackLSC | HairpinQueueSetup _ _ _ _ _ => false | _ => true end.

Lemma attempt_app fails a b : attempt fails (a ++ b) = andThen (attempt fails a) (attempt fails b).
Proof.
  unfold andThen. induction a as [|c a IH]; simpl; [by destruct (attempt fails b)|].
  destruct (fails c); [done|]. rewrite IH. destruct (attempt fails a) as [tr [|]]; simpl; [|done].
  by destruct (attempt fails b).
Qed.

Lemma attempt_ext f g cs : (forall c, c ∈ cs -> f c = g c) -> attempt f cs = attempt g cs.
Proof.
  induction cs as [|c cs IH]; intros H; [done|]. simpl. rewrite (H c) by constructor.
  destruct (g c); [done|]. rewrite IH; [done|]. intros c' ?. apply H. by constructor.
Qed.

Lemma attempt_unchecked f cs : (forall c, c ∈ cs -> f c = false) -> attempt f cs = (cs, true).
Proof.
  induction cs as [|c cs IH]; intros H; [done|]. simpl. rewrite H by constructor.
  rewrite IH; [done|]. intros c' ?. apply H. by constructor.
Qed.

Lemma attempt_prefix f cs :
  exists rest, cs = fst (attempt f cs) ++ rest /\
    (snd (attempt f cs) = true -> rest = [] /\ forall c, c ∈ cs -> f c = false) /\
    (snd (attempt f cs) = false ->
       exists pre c, fst (attempt f cs) = pre ++ [c] /\ f c = true /\ forall c', c' ∈ pre -> f c' = false).
Proof.
  induction cs as [|c cs (rest & E & T & F)]; simpl.
  - exists []. split_and!; try done. intros _. split; [done|]. by intros ? ?%elem_of_nil.
  - destruct (f c) eqn:Ec; simpl.
    + exists cs. split_and!; try done. intros _. exists [], c. split_and!; try done. by intros ? ?%elem_of_nil.
    + destruct (attempt f cs) as [tr ok]; simpl in *. exists rest. split_and!; [by rewrite E| |].
      * intros H. destruct (T H) as [-> Tc]. split; [done|]. intros c' [->|H']%elem_of_cons; auto.
      * intros H. destruct (F H) as (pre & d & -> & Hd & Hp). exists (c :: pre), d. split_and!; [done|done|].
        intros c' [->|H']%elem_of_cons; auto.
Qed.

Lemma Configure_attempt fails lsc conf :
  Configure fails lsc conf = attempt (fun c => fails c && checked c) (config_calls lsc conf).
Proof.
  unfold config_calls. rewrite !attempt_app. unfold Configure.
  repeat (apply (f_equal2 andThen)); try (apply attempt_ext; intros c Hc).
  - apply list_elem_of_singleton in Hc as ->. by rewrite andb_true_r.
  - symmetry. apply attempt_unchecked. intros c Hc. destruct lsc; [|by apply elem_of_nil in Hc].
    apply list_elem_of_singleton in Hc as ->. apply andb_false_r.
  - apply list_elem_of_singleton in Hc as ->. by rewrite andb_true_r.
  - apply list_elem_of_singleton in Hc as ->. by rewrite andb_true_r.
  - apply list_elem_of_In, in_concat in Hc as (l & Hl & Hc). apply in_map_iff in Hl as (q & <- & _).
    destruct Hc as [<-|[<-|[]]]; by rewrite andb_true_r.
  - apply list_elem_of_In, in_map_iff in Hc as (q & <- & _). by rewrite andb_true_r.
  - symmetry. apply attempt_unchecked. intros c Hc. destruct (0 <? _); [|by apply elem_of_nil in Hc].
    apply list_elem_of_singleton in Hc as ->. apply andb_false_r.
  - apply list_elem_of_In, in_map_iff in Hc as (q & <- & _). by rewrite andb_true_r.
Qed.

(** The configuration of a port makes its calls in order: the calls made are
    a prefix of all of them; it succeeds exactly when every call was made and
    none whose error counts failed; otherwise the last call made is the first
    such failure. An error of the hairpin queue set-up does not count. *)
Theorem Configure_spec fails lsc conf :
  exists rest,
    config_calls lsc conf = fst (Configure fails lsc conf) ++ rest /\
    (snd (Configure fails lsc conf) = true <->
       rest = [] /\ forall c, c ∈ config_calls lsc conf -> checked c = true -> fails c = false) /\
    (snd (Configure fails lsc conf) = false ->
       exists pre c, fst (Configure fails lsc conf) = pre ++ [c] /\ fails c = true /\ checked c = true /\
         forall c', c' ∈ pre -> checked c' = true -> fails c' = false).
Proof.
  rewrite Configure_attempt.
  destruct (attempt_prefix (fun c => fails c && checked c) (config_calls lsc conf)) as (rest & E & T & F).
  exists rest. split_and!; [done| |].
  - split.
    + intros H. destruct (T H) as [-> Tc]. split; [done|]. intros c Hc Kc. specialize (Tc c Hc).
      by rewrite Kc, andb_true_r in Tc.
    + intros [-> H]. destruct (snd (attempt _ _)) eqn:Es; [done|]. destruct (F eq_refl) as (pre & c & Ep & Hc & _).
      apply andb_prop in Hc as [Hf Hk]. rewrite (H c) in Hf; [done| |done].
      rewrite E, app_nil_r, Ep, elem_of_app. right. constructor.
  - intros H. destruct (F H) as (pre & c & Ep & Hc & Hp). apply andb_prop in Hc as [Hf Hk].
    exists pre, c. split_and!; try done. intros c' Hc' Kc. specialize (Hp c' Hc'). by rewrite Kc, andb_true_r in Hp.
Qed.

(** The hairpin set-up fails and the port counts as configured. *)
Example Configure_hairpin_ignored :
  Configure (fun c => bool_decide (c = HairpinQueueSetup 1 1 2 64 64)) false (mkEthdevConfig 1 1 2 0 64 64) =
    ([InfoGet; DevConfigure 3 3 false; PromiscEnable; GetPool 0; RxqSetup 0 64; TxqSetup 0 64;
      HairpinQueueSetup 1 1 2 64 64], true).
Proof. reflexivity. Qed.

(** ** Offload bits *)

(** The set bits below [n], ascending. *)
Definition set_bits (x : Z) (n : nat) : list Z :=
  map (Z.pow 2) (filter (fun i => Z.testbit x i = true) (map Z.of_nat (seq 0 n))).

Lemma land_pow2 x b : 0 <= b -> (Z.land x (2 ^ b) =? 0) = negb (Z.testbit x b).
Proof.
  intros Hb. destruct (Z.testbit x b) eqn:E; simpl.
  - apply Z.eqb_neq. intros H. apply (f_equal (fun z => Z.testbit z b)) in H.
    rewrite Z.land_spec, E, Z.pow2_bits_true, Z.bits_0 in H by done. done.
  - apply Z.eqb_eq, Z.bits_inj_0. intros j. rewrite Z.land_spec, Z.pow2_bits_eqb by done.
    destruct (Z.eqb_spec b j) as [<-|]; [by rewrite E|apply andb_false_r].
Qed.

Lemma ctz_loop_below fuel x i :
  i <= ctz_loop fuel x i <= i + Z.of_nat fuel /\
  forall j, 0 <= j < ctz_loop fuel x i - i -> Z.testbit x j = false.
Proof.
  revert x i; induction fuel as [|k IH]; intros x i; cbn [ctz_loop]; [split; [lia|intros; lia]|].
  pose proof (land_pow2 x 0 ltac:(lia)) as L. change (2 ^ 0) with 1 in L. rewrite L.
  destruct (Z.testbit x 0) eqn:E; simpl; [split; [lia|intros; lia]|].
  destruct (IH (Z.shiftr x 1) (i + 1)) as [B T]. split; [lia|]. intros j Hj.
  destruct (Z.eq_dec j 0) as [->|]; [done|]. specialize (T (j - 1) ltac:(lia)).
  rewrite Z.shiftr_spec in T by lia. by replace (j - 1 + 1) with j in T by lia.
Qed.

Lemma ctz_loop_bit fuel x i : 0 < x < 2 ^ Z.of_nat fuel -> Z.testbit x (ctz_loop fuel x i - i) = true.
Proof.
  revert x i; induction fuel as [|k IH]; intros x i Hx; cbn [ctz_loop]; [simpl in Hx; lia|].
  pose proof (land_pow2 x 0 ltac:(lia)) as L. change (2 ^ 0) with 1 in L. rewrite L.
  destruct (Z.testbit x 0) eqn:E; simpl; [by replace (i - i) with 0 by lia|].
  assert (Ex : x = 2 * Z.shiftr x 1).
  { rewrite Z.shiftr_div_pow2 by lia. change (2 ^ 1) with 2. rewrite Z.bit0_odd in E.
    rewrite <- Z.negb_even in E. apply negb_false_iff in E. apply Z.even_spec in E as [y ->].
    rewrite Z.mul_comm, Z.div_mul; lia. }
  rewrite Nat2Z.inj_succ, Z.pow_succ_r in Hx by lia.
  specialize (IH (Z.shiftr x 1) (i + 1) ltac:(lia)). destruct (ctz_loop_below k (Z.shiftr x 1) (i + 1)) as [B _].
  rewrite Z.shiftr_spec in IH by lia. by replace (ctz_loop k (Z.shiftr x 1) (i + 1) - (i + 1) + 1)
    with (ctz_loop k (Z.shiftr x 1) (i + 1) - i) in IH by lia.
Qed.

Lemma shl1_below x : 0 <= x < 2 ^ 64 -> Z.testbit x 63 = false ->
  x < 2 ^ 63 /\ u64 (Z.shiftl x 1) = 2 * x.
Proof.
  intros Hx E. assert (L : x < 2 ^ 63).
  { apply Z.nle_gt. intros G. apply not_true_iff_false in E. apply E.
    rewrite Z.testbit_true by lia. replace (x / 2 ^ 63) with 1; [done|].
    apply (Z.div_unique x (2 ^ 63) 1 (x - 2 ^ 63)); lia. }
  split; [done|]. rewrite Z.shiftl_mul_pow2 by lia. rewrite u64_small; lia.
Qed.

Lemma clz_loop_above fuel x i : 0 <= x < 2 ^ 64 ->
  i <= clz_loop fuel x i <= i + Z.of_nat fuel /\
  forall j, 64 - (clz_loop fuel x i - i) <= j < 64 -> 0 <= j -> Z.testbit x j = false.
Proof.
  revert x i; induction fuel as [|k IH]; intros x i Hx; cbn [clz_loop]; [split; [lia|intros; lia]|].
  pose proof (land_pow2 x 63 ltac:(lia)) as L. change (2 ^ 63) with 0x8000000000000000 in L. rewrite L.
  destruct (Z.testbit x 63) eqn:E; simpl; [split; [lia|intros; lia]|].
  destruct (shl1_below x Hx E) as [Lx ->].
  destruct (IH (2 * x) (i + 1) ltac:(lia)) as [B T]. split; [lia|]. intros j Hj J0.
  destruct (Z.eq_dec j 63) as [->|]; [done|]. specialize (T (j + 1) ltac:(lia) ltac:(lia)).
  by rewrite Z.add_1_r, Z.double_bits_succ in T.
Qed.

Lemma clz_loop_bit fuel x i : 2 ^ (64 - Z.of_nat fuel) <= x < 2 ^ 64 -> (0 < fuel <= 64)%nat ->
  Z.testbit x (63 - (clz_loop fuel x i - i)) = true.
Proof.
  revert x i; induction fuel as [|k IH]; intros x i Hx Hf; cbn [clz_loop]; [lia|].
  assert (P : 0 < 2 ^ (64 - Z.of_nat (S k))) by (apply Z.pow_pos_nonneg; lia).
  pose proof (land_pow2 x 63 ltac:(lia)) as L. change (2 ^ 63) with 0x8000000000000000 in L. rewrite L.
  destruct (Z.testbit x 63) eqn:E; simpl; [by replace (63 - (i - i)) with 63 by lia|].
  destruct (shl1_below x ltac:(lia) E) as [Lx ->].
  destruct (Nat.eq_dec k 0%nat) as [->|]; [change (2 ^ (64 - Z.of_nat 1)) with (2 ^ 63) in Hx; lia|].
  replace (64 - Z.of_nat k) with (Z.succ (64 - Z.of_nat (S k))) in IH by lia. rewrite Z.pow_succ_r in IH by lia.
  specialize (IH (2 * x) (i + 1) ltac:(lia) ltac:(lia)).
  destruct (clz_loop_above k (2 * x) (i + 1) ltac:(lia)) as [B _].
  set (c := clz_loop k (2 * x) (i + 1)) in *. replace (63 - (c - (i + 1))) with (Z.succ (63 - (c - i))) in IH by lia.
  destruct (Z.eq_dec (c - i) 64); [replace (63 - (c - i)) with (-1) in * by lia|].
  - change (Z.succ (-1)) with 0 in IH. rewrite Z.bit0_odd, Z.odd_mul in IH. done.
  - by rewrite Z.double_bits_succ in IH.
Qed.

Lemma offload_loop_bits n x b : 0 <= b -> b + Z.of_nat n <= 64 ->
  offload_loop n x (u64 (2 ^ b)) =
    map (Z.pow 2) (filter (fun i => Z.testbit x i = true) (map (fun k => b + Z.of_nat k) (seq 0 n))).
Proof.
  revert b; induction n as [|n IH]; intros b Hb Hn; [done|]. cbn [offload_loop].
  assert (P : 0 < 2 ^ b < 2 ^ 64) by (split; [apply Z.pow_pos_nonneg; lia|apply Z.pow_lt_mono_r; lia]).
  rewrite (u64_small (2 ^ b)) by lia. rewrite land_pow2 by done.
  rewrite Z.shiftl_mul_pow2, <- Z.pow_add_r by lia. rewrite IH by lia.
  cbn [seq map]. rewrite <- seq_shift, map_map, filter_cons. rewrite Z.add_0_r.
  replace (map (fun k => b + Z.of_nat (S k)) (seq 0 n)) with (map (fun k => b + 1 + Z.of_nat k) (seq 0 n))
    by (apply map_ext; intros; lia).
  destruct (Z.testbit x b) eqn:E; destruct (decide _); simpl; congruence.
Qed.

Lemma map_seq_from c n : 0 <= c ->
  map (fun k => c + Z.of_nat k) (seq 0 n) = map Z.of_nat (seq (0 + Z.to_nat c) n).
Proof.
  intros Hc. apply list_eq. intros i. rewrite !list_lookup_fmap. destruct (Nat.lt_ge_cases i n).
  - rewrite !lookup_seq_lt by done. simpl. f_equal. lia.
  - by rewrite !lookup_seq_ge by done.
Qed.

Lemma filter_map_none (x : Z) (ls : list Z) : (forall i, i ∈ ls -> Z.testbit x i = false) ->
  filter (fun i => Z.testbit x i = true) ls = [].
Proof.
  induction ls as [|i ls IH]; intros H; [done|]. rewrite filter_cons. rewrite (H i) by constructor.
  destruct (decide _); [done|]. apply IH. intros j ?. apply H. by constructor.
Qed.

(** The offload text: [ctzll] and [clzll] find the lowest and the highest set
    bit, and the loop between them names the set bits of the word, each once, in
    ascending order. *)
Theorem printTXOffloads_spec x (Hx : 0 < x < 2 ^ 64) :
  Z.testbit x (ctzll x) = true /\ (forall j, 0 <= j < ctzll x -> Z.testbit x j = false) /\
  Z.testbit x (63 - clzll x) = true /\ (forall j, 64 - clzll x <= j < 64 -> 0 <= j -> Z.testbit x j = false) /\
  printTXOffloads x = concat (map (fun v => str " " ++ fmt_d v) (set_bits x 64)).
Proof.
  unfold printTXOffloads, offload_values, ctzll, clzll. replace (x =? 0) with false by (symmetry; apply Z.eqb_neq; lia).
  destruct (ctz_loop_below 64 x 0) as [Bc Tc]. pose proof (ctz_loop_bit 64 x 0 ltac:(lia)) as Cb.
  destruct (clz_loop_above 64 x 0 ltac:(lia)) as [Bl Tl].
  pose proof (clz_loop_bit 64 x 0 ltac:(change (2 ^ (64 - Z.of_nat 64)) with 1; lia) ltac:(lia)) as Lb.
  set (c := ctz_loop 64 x 0) in *. set (l := clz_loop 64 x 0) in *. rewrite !Z.sub_0_r in *.
  split_and!; [done|done|done|done|]. do 2 f_equal.
  destruct (Z.lt_ge_cases c (64 - l)) as [O|O].
  2: { destruct (Z.lt_ge_cases (63 - l) 0); [by rewrite Z.testbit_neg_r in Lb by lia|].
       rewrite Tc in Lb by lia. done. }
  rewrite Z.shiftl_mul_pow2, Z.mul_1_l by lia. rewrite offload_loop_bits by lia.
  unfold set_bits. f_equal.
  replace 64%nat with (Z.to_nat c + (Z.to_nat (64 - l - c) + Z.to_nat l))%nat at 1 by lia.
  rewrite !seq_app, !map_app, !filter_app.
  rewrite (filter_map_none x (map _ (seq 0 (Z.to_nat c)))), (filter_map_none x (map _ (seq _ (Z.to_nat l)))).
  - rewrite app_nil_r, map_seq_from by lia. done.
  - intros i Hi. apply list_elem_of_fmap in Hi as (k & -> & Hk). apply elem_of_seq in Hk. apply Tl; lia.
  - intros i Hi. apply list_elem_of_fmap in Hi as (k & -> & Hk). apply elem_of_seq in Hk. apply Tc; lia.
Qed.

Lemma printTXOffloads_spec_witness :
  0 < 0x8001 < 2 ^ 64 /\ printTXOffloads 0x8001 = str " 1 32768" /\
  printTXOffloads 0x8001 = concat (map (fun v => str " " ++ fmt_d v) (set_bits 0x8001 64)).
Proof.
  split; [lia|]. split; [vm_compute; reflexivity|].
  apply (printTXOffloads_spec 0x8001). lia.
Defined.

(** ** The flow-control flag *)

Lemma ToLower_id s : Forall (fun c => c < 65 \/ 90 < c) s -> ToLower s = s.
Proof.
  unfold ToLower. induction 1 as [|c s Hc _ IH]; [done|]. simpl. rewrite IH.
  destruct (Z.leb_spec 65 c), (Z.leb_spec c 90); simpl; f_equal; lia.
Qed.

(** The flag reads what it prints, in any case of letters; text that names
    no mode gives an error and leaves the mode zero. *)
Theorem FcModeFlag_roundtrip n r t f (D : NoDup [n; r; t; f]) :
  (forall m, m ∈ [n; r; t; f] ->
    forall s, ToLower s = FcModeFlag_String n r t f m -> FcModeFlag_Set n r t f s = (m, true)) /\
  (forall s, (forall m, m ∈ [n; r; t; f] -> ToLower s <> FcModeFlag_String n r t f m) ->
    FcModeFlag_Set n r t f s = (0, false)).
Proof.
  rewrite !NoDup_cons, !not_elem_of_cons in D. destruct D as ((N1 & N2 & N3 & _) & (N4 & N5 & _) & (N6 & _) & _).
  assert (E : map (FcModeFlag_String n r t f) [n; r; t; f] = [str "none"; str "rxpause"; str "txpause"; str "full"]).
  { unfold FcModeFlag_String, fcModes, List.find, snd. simpl map.
    rewrite !Z.eqb_refl. repeat (rewrite (proj2 (Z.eqb_neq _ _)) by congruence). done. }
  cbn [map] in E. injection E as E1 E2 E3 E4. unfold FcModeFlag_Set, fc_lookup, fcModes, List.find, fst. split.
  - intros m Hm s ->. rewrite !elem_of_cons in Hm.
    destruct Hm as [->|[->|[->|[->|H]]]]; [..|by apply elem_of_nil in H]; rewrite ?E1, ?E2, ?E3, ?E4; reflexivity.
  - intros s Hs.
    pose proof (Hs n ltac:(set_solver)) as H1. pose proof (Hs r ltac:(set_solver)) as H2.
    pose proof (Hs t ltac:(set_solver)) as H3. pose proof (Hs f ltac:(set_solver)) as H4.
    rewrite E1 in H1. rewrite E2 in H2. rewrite E3 in H3. rewrite E4 in H4.
    rewrite !bool_decide_eq_false_2 by (intros Q; apply H1 || apply H2 || apply H3 || apply H4; by rewrite <- Q). done.
Qed.

Lemma FcModeFlag_roundtrip_witness :
  FcModeFlag_Set 0 1 2 3 (str "TxPause") = (2, true) /\ FcModeFlag_Set 0 1 2 3 (str "all") = (0, false).
Proof.
  assert (D : NoDup [0; 1; 2; 3]) by (apply (bool_decide_unpack _); vm_compute; exact I).
  split.
  - apply (proj1 (FcModeFlag_roundtrip 0 1 2 3 D) 2); [apply (bool_decide_unpack _); vm_compute; exact I|].
    vm_compute. reflexivity.
  - apply (proj2 (FcModeFlag_roundtrip 0 1 2 3 D)). intros m Hm. rewrite !elem_of_cons in Hm.
    destruct Hm as [->|[->|[->|[->|H]]]]; [vm_compute; congruence..|by apply elem_of_nil in H].
Defined.
