(* ===== verification/Registry.v ===== *)
(** * Object registries

    [src/common/objects.go]: the table and the array that give opaque objects an
    [ObjectID]. Each operation holds the mutex from its first to its last
    access, so it is one step here. An [interface{}] is an option, [nil] being
    [None]; a registry operation is [None] where the Go code panics (an index
    out of range). *)

From Stdlib Require Import ZArith Lia.
From stdpp Require Import base list numbers option gmap.
From S2P Require Import Prelude.

Open Scope Z_scope.

(** The interface [Registry]: what a client can do. *)
(* go: common/objects.go Registry *)
Class Registry (R V : Type) := {
  reg_create : R -> option V -> Z * R;
  reg_read : R -> Z -> option (option V);
  reg_update : R -> Z -> option V -> option R;
  reg_delete : R -> Z -> option R
}.

Section Registries.
Context {V : Type}.

(** ** The table *)

(* go: common/objects.go objTable *)
Record objTable := mkObjTable { hash : gmap Z (option V); id : Z }.

(* go: common/objects.go NewRegistryMap *)
Definition NewRegistryMap : objTable := mkObjTable ∅ 0.

(* go: common/objects.go objTable.Create *)
Definition objTable_Create (r : objTable) (obj : option V) : Z * objTable :=
  let i := id r in
  (i, mkObjTable (<[i := obj]> (hash r)) (u64 (i + 1))).

(* go: common/objects.go objTable.Read *)
Definition objTable_Read (r : objTable) (i : Z) : option V := default None (hash r !! i).

(* go: common/objects.go objTable.Update *)
Definition objTable_Update (r : objTable) (i : Z) (obj : option V) : objTable :=
  mkObjTable (<[i := obj]> (hash r)) (id r).

(* go: common/objects.go objTable.Delete *)
Definition objTable_Delete (r : objTable) (i : Z) : objTable := mkObjTable (delete i (hash r)) (id r).

(** ** The array *)

(* go: common/objects.go objArray *)
Record objArray := mkObjArray { array : list (option V); cnt : Z }.

(* go: common/objects.go NewRegistryArray *)
Definition NewRegistryArray : objArray := mkObjArray [] 0.

(* go: common/objects.go objArray.Create *)
Definition objArray_Create (r : objArray) (obj : option V) : Z * objArray :=
  (Z.of_nat (length (array r)), mkObjArray (array r ++ [obj]) (u64 (cnt r + 1))).

(* go: common/objects.go objArray.Read *)
Definition objArray_Read (r : objArray) (i : Z) : option (option V) := array r !! Z.to_nat i.

(* go: common/objects.go objArray.Update *)
Definition objArray_Update (r : objArray) (i : Z) (obj : option V) : option objArray :=
  if (Z.to_nat i <? length (array r))%nat then Some (mkObjArray (<[Z.to_nat i := obj]> (array r)) (cnt r)) else None.

(* go: common/objects.go objArray.Delete *)
Definition objArray_Delete (r : objArray) (i : Z) : option objArray :=
  if (Z.to_nat i <? length (array r))%nat then
    let c := u64 (cnt r - 1) in
    Some (mkObjArray (if c =? 0 then [] else <[Z.to_nat i := None]> (array r)) c)
  else None.
End Registries.
Arguments objTable : clear implicits.
Arguments objArray : clear implicits.

#[export] Instance Registry_objTable V : Registry (objTable V) V := {
  reg_create := objTable_Create;
  reg_read := fun r i => Some (objTable_Read r i);
  reg_update := fun r i o => Some (objTable_Update r i o);
  reg_delete := fun r i => Some (objTable_Delete r i)
}.

#[export] Instance Registry_objArray V : Registry (objArray V) V := {
  reg_create := objArray_Create;
  reg_read := objArray_Read;
  reg_update := objArray_Update;
  reg_delete := objArray_Delete
}.
