(* ===== verification/RegistrySpec.v ===== *)
(** * Object registries: what a client may rely on

    [RegistryLaws] says when a registry stands for a finite map of the live
    objects. A client that only touches live objects sees that map
    ([conforms_rep], proved once against the laws and instantiated by the table
    and the array). Deleting a dead object is outside of the contract: it makes
    the array forget live ones. *)

From Stdlib Require Import ZArith Lia.
From stdpp Require Import base list numbers option gmap.
From S2P Require Import Prelude Registry.

Open Scope Z_scope.

(** [reg_rep r m]: the live objects of [r] are [m]; [reg_room r n]: [n] more
    objects fit. *)
Class RegistryLaws (R V : Type) `{Registry R V} := {
  reg_rep : R -> gmap Z (option V) -> Prop;
  reg_room : R -> Z -> Prop;
  reg_create_law : forall r m o n, reg_rep r m -> reg_room r n -> 0 < n ->
    m !! fst (reg_create r o) = None /\ reg_rep (snd (reg_create r o)) (<[fst (reg_create r o) := o]> m) /\
    reg_room (snd (reg_create r o)) (n - 1);
  reg_read_law : forall r m i o, reg_rep r m -> m !! i = Some o -> reg_read r i = Some o;
  reg_update_law : forall r m i o n, reg_rep r m -> reg_room r n -> is_Some (m !! i) ->
    exists r', reg_update r i o = Some r' /\ reg_rep r' (<[i := o]> m) /\ reg_room r' n;
  reg_delete_law : forall r m i n, reg_rep r m -> reg_room r n -> is_Some (m !! i) ->
    exists r', reg_delete r i = Some r' /\ reg_rep r' (delete i m) /\ reg_room r' n
}.

(** A client's calls. *)
Inductive reg_op (V : Type) :=
| OpCreate (o : option V)
| OpRead (i : Z)
| OpUpdate (i : Z) (o : option V)
| OpDelete (i : Z).
Arguments OpCreate {V}.
Arguments OpRead {V}.
Arguments OpUpdate {V}.
Arguments OpDelete {V}.

(** The calls agree with the map of live objects: creation gives an identifier
    no live object has, reading gives the object last stored. From the first call
    on an identifier that is not live nothing is promised. *)
Fixpoint conforms {R V} `{Registry R V} (r : R) (m : gmap Z (option V)) (ops : list (reg_op V)) : Prop :=
  match ops with
  | [] => True
  | OpCreate o :: ops =>
      m !! fst (reg_create r o) = None /\
      conforms (snd (reg_create r o)) (<[fst (reg_create r o) := o]> m) ops
  | OpRead i :: ops =>
      match m !! i with None => True | Some o => reg_read r i = Some o /\ conforms r m ops end
  | OpUpdate i o :: ops =>
      match m !! i with
      | None => True
      | Some _ => exists r', reg_update r i o = Some r' /\ conforms r' (<[i := o]> m) ops
      end
  | OpDelete i :: ops =>
      match m !! i with
      | None => True
      | Some _ => exists r', reg_delete r i = Some r' /\ conforms r' (delete i m) ops
      end
  end.

Section Client.
Context {R V : Type} `{RL : RegistryLaws R V}.

Lemma reg_room_ops_step (n : Z) (ops : list (reg_op V)) op : Z.of_nat (length (op :: ops)) <= n ->
  0 < n /\ Z.of_nat (length ops) <= n - 1 /\ Z.of_nat (length ops) <= n.
Proof. simpl. lia. Qed.

Lemma conforms_rep ops : forall r m n,
  reg_rep r m -> reg_room r n -> Z.of_nat (length ops) <= n -> conforms r m ops.
Proof.
  induction ops as [|[o|i|i o|i] ops IH]; intros r m n Hr Hn Hl; cbn [conforms]; [done|..];
    apply reg_room_ops_step in Hl as (Hp & Hl1 & Hl0).
  - destruct (reg_create_law r m o n Hr Hn Hp) as (F & Hr' & Hn'). eauto.
  - destruct (m !! i) as [o|] eqn:E; [|done]. split; [by eapply reg_read_law|]. eauto.
  - destruct (m !! i) as [o'|] eqn:E; [|done].
    destruct (reg_update_law r m i o n Hr Hn ltac:(rewrite E; eauto)) as (r' & U & Hr' & Hn'). eauto.
  - destruct (m !! i) as [o'|] eqn:E; [|done].
    destruct (reg_delete_law r m i n Hr Hn ltac:(rewrite E; eauto)) as (r' & U & Hr' & Hn'). eauto.
Qed.
End Client.

(** ** The table *)

Section Table.
Context {V : Type}.

Definition table_rep (r : objTable V) (m : gmap Z (option V)) : Prop :=
  hash r = m /\ 0 <= id r /\ forall i, is_Some (m !! i) -> i < id r.
Definition table_room (r : objTable V) (n : Z) : Prop := id r + n < 2 ^ 64.

#[export] Instance RegistryLaws_objTable : RegistryLaws (objTable V) V.
Proof.
  refine {| reg_rep := table_rep; reg_room := table_room |}.
  - intros [h i] m o n (<- & Hi & Hb) Hn Hp. unfold table_rep, table_room in *; simpl in *.
    rewrite u64_small by lia. split_and!; [|done|lia| |lia].
    + apply eq_None_not_Some. intros S. specialize (Hb i S). lia.
    + intros j [x [[-> _]|[_ Hj]]%lookup_insert_Some]; [lia|]. specialize (Hb j ltac:(eauto)). lia.
  - intros [h i] m j o (<- & _) Hj. simpl. unfold objTable_Read. simpl in *. by rewrite Hj.
  - intros [h i] m j o n (<- & Hi & Hb) Hn Hj. eexists. split; [reflexivity|]. simpl in *.
    split; [split_and!; [done|done|]|done].
    intros k [x [[<- _]|[_ Hk]]%lookup_insert_Some]; eauto.
  - intros [h i] m j n (<- & Hi & Hb) Hn Hj. eexists. split; [reflexivity|]. simpl in *.
    split; [split_and!; [done|done|]|done].
    intros k [x [_ Hk]%lookup_delete_Some]. eauto.
Defined.
End Table.

(** ** The array *)

Section Array.
Context {V : Type}.

(** Every live object is in its slot and the counter is their number. *)
Definition array_rep (r : objArray V) (m : gmap Z (option V)) : Prop :=
  (forall i o, m !! i = Some o -> 0 <= i /\ array r !! Z.to_nat i = Some o) /\ cnt r = Z.of_nat (size m).
Definition array_room (r : objArray V) (n : Z) : Prop := 0 <= n /\ Z.of_nat (length (array r)) + n < 2 ^ 63.

Lemma array_rep_range r m i : array_rep r m -> is_Some (m !! i) -> (Z.to_nat i < length (array r))%nat /\ 0 <= i.
Proof. intros [A _] [o Ho]. apply A in Ho as [? Ho]. split; [by eapply lookup_lt_Some|done]. Qed.

Lemma array_rep_size r m : array_rep r m -> (size m <= length (array r))%nat.
Proof.
  intros R. assert (D : map_to_list m ⊆+ map_to_list m) by done. clear D.
  rewrite <- (size_dom (D := gset Z)).
  assert (S : dom m ⊆ (list_to_set (map Z.of_nat (seq 0 (length (array r)))) : gset Z)).
  { intros i Hi. apply elem_of_dom in Hi. destruct (array_rep_range r m i R Hi).
    apply elem_of_list_to_set, list_elem_of_fmap. exists (Z.to_nat i). split; [lia|]. apply elem_of_seq. lia. }
  apply subseteq_size in S. rewrite size_list_to_set in S; [by rewrite length_map, length_seq in S|].
  apply NoDup_fmap_2; [intros ? ?; lia|]. apply NoDup_seq.
Qed.

#[export] Instance RegistryLaws_objArray : RegistryLaws (objArray V) V.
Proof.
  refine {| reg_rep := array_rep; reg_room := array_room |}.
  - intros r m o n Hr Hn Hp. pose proof (array_rep_size r m Hr) as Hs. unfold array_room in Hn. simpl.
    assert (F : m !! Z.of_nat (length (array r)) = None).
    { apply eq_None_not_Some. intros S. apply (array_rep_range r m _ Hr) in S. lia. }
    destruct Hr as [A C]. split_and!; [done| |].
    + split; simpl.
      * intros i o' [[<- ->]|[Hi Ho]]%lookup_insert_Some.
        { split; [lia|]. rewrite Nat2Z.id, lookup_app_r, Nat.sub_diag by lia. done. }
        apply A in Ho as [? Ho]. split; [done|]. by apply lookup_app_l_Some.
      * rewrite map_size_insert_None, C by done. rewrite u64_small; lia.
    + unfold array_room. simpl. rewrite length_app. simpl. lia.
  - intros r m i o [A _] Hi. simpl. unfold objArray_Read. by apply A.
  - intros r m i o n Hr Hn Hi. pose proof (array_rep_range r m i Hr Hi) as [L I]. simpl. unfold objArray_Update.
    apply Nat.ltb_lt in L as L'. rewrite L'. eexists. split; [reflexivity|]. destruct Hr as [A C]. split.
    + split; simpl.
      * intros j o' [[<- ->]|[Hj Ho]]%lookup_insert_Some; [split; [done|by apply list_lookup_insert_eq]|].
        apply A in Ho as [? Ho]. split; [done|]. rewrite list_lookup_insert_ne; [done|]. lia.
      * by rewrite map_size_insert_Some.
    + unfold array_room in *. simpl. by rewrite length_insert.
  - intros r m i n Hr Hn Hi. pose proof (array_rep_range r m i Hr Hi) as [L I].
    pose proof (array_rep_size r m Hr) as Hs. simpl. unfold objArray_Delete.
    apply Nat.ltb_lt in L as L'. rewrite L'. eexists. split; [reflexivity|]. destruct Hr as [A C].
    destruct Hi as [x Hx]. pose proof (map_size_delete_Some i m ltac:(eauto)) as Sd.
    assert (S0 : size m <> 0%nat) by (apply map_size_non_empty_iff; intros ->; done).
    unfold array_room in *. rewrite u64_small by lia. split.
    + split; simpl.
      * intros j o' [Hj Ho]%lookup_delete_Some. destruct (Z.eqb_spec (cnt r - 1) 0) as [E|].
        { assert (Z0 : size (delete i m) = 0%nat) by lia. apply map_size_empty_inv in Z0.
          assert (Hd : delete i m !! j = Some o') by (by rewrite lookup_delete_ne).
          by rewrite Z0, lookup_empty in Hd. }
        apply A in Ho as [? Ho]. split; [done|]. rewrite list_lookup_insert_ne; [done|]. lia.
      * lia.
    + simpl. destruct (_ =? 0); simpl; [lia|]. by rewrite length_insert.
Defined.
End Array.

(** The table with no contract: the calls agree with a map whatever identifiers
    they name; what is not there reads as nil, and updating puts it there. *)
Fixpoint agrees {R V} `{Registry R V} (r : R) (m : gmap Z (option V)) (ops : list (reg_op V)) : Prop :=
  match ops with
  | [] => True
  | OpCreate o :: ops => agrees (snd (reg_create r o)) (<[fst (reg_create r o) := o]> m) ops
  | OpRead i :: ops => reg_read r i = Some (default None (m !! i)) /\ agrees r m ops
  | OpUpdate i o :: ops => exists r', reg_update r i o = Some r' /\ agrees r' (<[i := o]> m) ops
  | OpDelete i :: ops => exists r', reg_delete r i = Some r' /\ agrees r' (delete i m) ops
  end.

Lemma agrees_table V (ops : list (reg_op V)) : forall r, agrees (r : objTable V) (hash r) ops.
Proof.
  induction ops as [|[o|i|i o|i] ops IH]; intros r; cbn [agrees]; [done|apply IH|split; [done|apply IH]|..];
    (eexists; split; [reflexivity|]; apply IH).
Qed.

(** C11. Both registries implement a map of live objects for a client that reads,
    updates and deletes live objects only: in any sequence of fewer than 2^63 calls
    on a new registry, up to the first call on an identifier that is not live,
    creation gives an identifier no live object has, reading gives the object last
    stored under its identifier, and updating and deleting never panics. Behind
    such a call nothing is promised of the array, which can lose live objects
    ([objArray_double_delete]); the table goes on as a map that reads nil where
    it holds nothing. *)
Theorem Registry_refines V (ops : list (reg_op V)) (L : Z.of_nat (length ops) < 2 ^ 63) :
  conforms (NewRegistryMap : objTable V) ∅ ops /\ conforms (NewRegistryArray : objArray V) ∅ ops /\
  agrees (NewRegistryMap : objTable V) ∅ ops.
Proof.
  split; [|split].
  - apply (conforms_rep ops _ _ (2 ^ 63)); [|unfold reg_room; simpl; unfold table_room; simpl; lia|lia].
    split_and!; [done|done|]. intros i [x Hx]. done.
  - apply (conforms_rep ops _ _ (2 ^ 63 - 1)); [|unfold reg_room; simpl; unfold array_room; simpl; lia|lia].
    split; [|done]. intros i o Hi. done.
  - apply agrees_table.
Qed.

Lemma Registry_refines_witness :
  conforms (NewRegistryArray : objArray Z) ∅
    [OpCreate (Some 7); OpCreate (Some 8); OpDelete 0; OpUpdate 1 (Some 9); OpRead 1; OpDelete 1; OpCreate None].
Proof. apply (Registry_refines Z). simpl. lia. Defined.

(** Deleting an object twice breaks the array: with two live objects, the
    second deletion of one of them empties the array, and reading the other one
    panics. *)
Theorem objArray_double_delete V (r : objArray V) m x y ox oy
    (Hr : array_rep r m) (Hm : m = {[x := ox; y := oy]}) (Hxy : x <> y) :
  exists r1 r2, objArray_Delete r x = Some r1 /\ objArray_Delete r1 x = Some r2 /\
    array r2 = [] /\ objArray_Read r2 y = None /\ m !! y = Some oy.
Proof.
  assert (Hx : is_Some (m !! x)) by (subst m; rewrite lookup_insert_eq; eauto).
  pose proof (array_rep_range r m x Hr Hx) as [Lx Ix]. destruct Hr as [A C].
  assert (C2 : cnt r = 2).
  { rewrite C, Hm, map_size_insert_None, map_size_singleton by (by apply lookup_singleton_ne). done. }
  apply Nat.ltb_lt in Lx as Lx'. unfold objArray_Delete. rewrite Lx', C2.
  eexists _, _. split; [reflexivity|]. simpl. rewrite length_insert, Lx'. split; [reflexivity|].
  split_and!; [done|done|]. subst m. rewrite lookup_insert_ne, lookup_singleton_eq by done. done.
Qed.

Lemma objArray_double_delete_witness :
  exists r1 r2, objArray_Delete (mkObjArray [Some 7; Some 8] 2) 0 = Some r1 /\ objArray_Delete r1 0 = Some r2 /\
    array r2 = [] /\ objArray_Read r2 1 = None /\
    ({[0 := Some 7; 1 := Some 8]} : gmap Z (option Z)) !! 1 = Some (Some 8).
Proof.
  apply (objArray_double_delete Z (mkObjArray [Some 7; Some 8] 2) {[0 := Some 7; 1 := Some 8]} 0 1 (Some 7) (Some 8));
    [|done|lia].
  split; [|vm_compute; reflexivity]. intros i o [[<- <-]|[Hi [<- <-]%lookup_singleton_Some]]%lookup_insert_Some; done.
Defined.
