(* ===== verification/Errno.v ===== *)
(** * Errors of C calls

    [src/common/common.go]: the [errno] numbers of C calls as Go errors, and
    functions that run once. The four DPDK error numbers are arguments. *)

From Stdlib Require Import ZArith Lia.
From stdpp Require Import base list numbers option gmap.
From S2P Require Import Prelude.

Open Scope Z_scope.

(** The named errors; [Errno n] is the formatted one for any other number. *)
Inductive go_error := ErrNoConfig | ErrSecondary | ErrMinErrno | ErrMaxErrno | Errno (n : Z).

#[export] Instance go_error_eq_dec : EqDecision go_error.
Proof. solve_decision. Defined.

(** [E_RTE_NO_CONFIG], [E_RTE_SECONDARY], [RTE_MAX_ERRNO] and [RTE_MIN_ERRNO]. *)
Record rte_numbers := mkRteNumbers { NO_CONFIG : Z; SECONDARY : Z; MAX_ERRNO : Z; MIN_ERRNO : Z }.

Section Errors.
Variable E : rte_numbers.

(** [None] is a nil error; [-n] wraps. *)
(* go: common/common.go errno *)
Definition errno (n : Z) : option go_error :=
  if n =? 0 then None
  else
    let n := if n <? 0 then i64 (- n) else n in
    Some (if n =? NO_CONFIG E then ErrNoConfig
          else if n =? SECONDARY E then ErrSecondary
          else if n =? MAX_ERRNO E then ErrMaxErrno
          else if n =? MIN_ERRNO E then ErrMinErrno
          else Errno n).

(* go: common/common.go IntErr *)
Definition IntErr (n : Z) : option go_error := errno n.

(** The thread's [rte_errno]. *)
(* go: common/common.go RteErrno *)
Definition RteErrno (rte_errno : Z) : option go_error := errno rte_errno.

(** The argument is an [interface{}]: [None] is one [reflect] has no [Int] of,
    [nil] included, and [Int] panics. *)
(* go: common/common.go IntOrErr *)
Definition IntOrErr (n : option Z) : option (Z * option go_error) :=
  match n with
  | None => None
  | Some x => Some (if 0 <=? x then (x, None) else (0, errno x))
  end.

(* go: common/common.go IntToErr *)
Definition IntToErr (n : option Z) : option (option go_error) := errno <$> n.
End Errors.

(** ** Functions that run once

    The state of the closure: whether [once] is done, and [err]. Calls to [fn]
    are counted by the state [S] it changes. *)
Section Once.
Context {S : Type}.
Variable fn : S -> option go_error * S.

Record once_state := mkOnce { done_ : bool; err : option go_error }.

Definition once_init : once_state := mkOnce false None.

(* go: common/common.go DoOnce *)
Definition DoOnce (o : once_state) (s : S) : option go_error * (once_state * S) :=
  if done_ o then (err o, (o, s))
  else let '(e, s') := fn s in (e, (mkOnce true e, s')).

(** [n] calls in a row: their results. *)
Fixpoint calls (n : nat) (o : once_state) (s : S) : list (option go_error) * (once_state * S) :=
  match n with
  | O => ([], (o, s))
  | Datatypes.S n =>
      let '(e, (o, s)) := DoOnce o s in
      let '(es, r) := calls n o s in
      (e :: es, r)
  end.
End Once.
