(* ===== verification/ErrnoSpec.v ===== *)
(** * Errors of C calls: what they mean

    A C result is an error exactly when it is not zero, its sign does not
    matter, and different numbers give different errors; a function behind
    [DoOnce] runs once however often it is called. *)

From Stdlib Require Import ZArith Lia.
From stdpp Require Import base list numbers option gmap.
From S2P Require Import Prelude Errno.

Open Scope Z_scope.

Definition numbers_distinct (E : rte_numbers) : Prop :=
  NoDup [NO_CONFIG E; SECONDARY E; MAX_ERRNO E; MIN_ERRNO E].

(** [RTE_MIN_ERRNO] is 1000 and the others follow it. *)
Definition dpdk_numbers : rte_numbers := mkRteNumbers 1002 1001 1003 1000.

(** The number an error stands for. *)
Definition error_number (E : rte_numbers) (e : go_error) : Z :=
  match e with
  | ErrNoConfig => NO_CONFIG E
  | ErrSecondary => SECONDARY E
  | ErrMinErrno => MIN_ERRNO E
  | ErrMaxErrno => MAX_ERRNO E
  | Errno n => n
  end.

Lemma errno_number E n e : errno E n = Some e -> - 2 ^ 63 < n < 2 ^ 63 -> error_number E e = Z.abs n.
Proof.
  unfold errno. intros H Hn. destruct (Z.eqb_spec n 0); [done|]. injection H as <-.
  set (k := if n <? 0 then i64 (- n) else n).
  assert (Hk : k = Z.abs n) by (unfold k; destruct (Z.ltb_spec n 0); [rewrite i64_small by lia|]; lia).
  destruct (Z.eqb_spec k (NO_CONFIG E)); [simpl; lia|]. destruct (Z.eqb_spec k (SECONDARY E)); [simpl; lia|].
  destruct (Z.eqb_spec k (MAX_ERRNO E)); [simpl; lia|]. destruct (Z.eqb_spec k (MIN_ERRNO E)); simpl; lia.
Qed.

(** The results of C calls as Go errors: the error is nil exactly for zero,
    [n] and [-n] give the same one, and the number can be read back from it (so
    different numbers have different errors); [IntOrErr] passes values that are
    not negative, and panics on an argument that is no integer. *)
Theorem errno_spec E n (Hn : - 2 ^ 63 < n < 2 ^ 63) :
  (errno E n = None <-> n = 0) /\ errno E (- n) = errno E n /\
  (forall e, errno E n = Some e -> error_number E e = Z.abs n) /\
  IntOrErr E (Some n) = Some (if 0 <=? n then (n, None) else (0, errno E (- n))) /\
  IntOrErr E None = None.
Proof.
  assert (Sym : errno E (- n) = errno E n).
  { unfold errno. destruct (Z.eqb_spec n 0) as [->|N]; [done|].
    replace (- n =? 0) with false by (symmetry; apply Z.eqb_neq; lia).
    destruct (Z.ltb_spec n 0), (Z.ltb_spec (- n) 0); try lia; rewrite i64_small by lia;
      rewrite ?Z.opp_involutive; done. }
  split_and!; [|done|intros e He; by apply errno_number| |done].
  - unfold errno. destruct (Z.eqb_spec n 0); [done|]. split; [done|lia].
  - by rewrite Sym.
Qed.

Lemma errno_spec_witness :
  errno dpdk_numbers (-1001) = Some ErrSecondary /\ error_number dpdk_numbers ErrSecondary = 1001.
Proof.
  split; [reflexivity|].
  pose proof (errno_spec dpdk_numbers (-1001) ltac:(lia)) as (_ & _ & H & _). apply H. reflexivity.
Defined.

Lemma calls_done {S} (fn : S -> option go_error * S) n e s :
  calls fn n (mkOnce true e) s = (replicate n e, (mkOnce true e, s)).
Proof. induction n as [|n IH]; [done|]. cbn [calls]. unfold DoOnce; simpl. by rewrite IH. Qed.

(** However often a function behind [DoOnce] is called, it runs once, and
    every call gives the error of that run. *)
Theorem DoOnce_once S (fn : S -> option go_error * S) n s :
  calls fn (Datatypes.S n) once_init s =
    (replicate (Datatypes.S n) (fst (fn s)), (mkOnce true (fst (fn s)), snd (fn s))).
Proof.
  cbn [calls]. unfold DoOnce; simpl. destruct (fn s) as [e s']. rewrite calls_done. done.
Qed.
