(* ===== verification/Flow.v ===== *)
(** * Flow rules: patterns and actions as C structures

    [src/ethdev/flow/]: the Go items and actions of a flow rule keep a C
    structure each ([cPointer]); [Reload] writes the Go fields into it, and
    [cPattern]/[cActions] build the arrays DPDK reads. The Go objects are in a
    store (a pattern may name one object twice), the C structures are blocks of
    a heap. A panic, a fault of C code included, is [None]. The layout of the C
    structures comes from DPDK's headers and is an argument, as is [malloc]. *)

From Stdlib Require Import ZArith Lia.
From stdpp Require Import base list numbers option gmap.
From S2P Require Import Prelude Errno.

Open Scope Z_scope.
Open Scope go_scope.

(** ** The C side *)

(** A store to a structure: bytes at an offset, or the lowest bit of the byte
    at an offset (a bit-field). *)
Inductive store := Bytes (off : nat) (bs : list Z) | Bit0 (off : nat) (b : Z).

Definition splice (b : list Z) (off : nat) (bs : list Z) : list Z :=
  take off b ++ bs ++ drop (off + length bs) b.

(** [None] is a store outside of the structure. *)
Definition apply_store (st : store) (b : list Z) : option (list Z) :=
  match st with
  | Bytes off bs => if (off + length bs <=? length b)%nat then Some (splice b off bs) else None
  | Bit0 off v =>
      match b !! off with
      | None => None
      | Some x => Some (<[off := x - Z.land x 1 + Z.land v 1]> b)
      end
  end.

Fixpoint apply_stores (sts : list store) (b : list Z) : option (list Z) :=
  match sts with
  | [] => Some b
  | st :: r => match apply_store st b with None => None | Some b => apply_stores r b end
  end.

(** Stores relative to a structure at [off] in a larger one. *)
Definition at_off (off : nat) (st : store) : store :=
  match st with Bytes o bs => Bytes (off + o) bs | Bit0 o b => Bit0 (off + o) b end.

(** What DPDK's headers say: sizes, offsets and enumeration values. *)
Record Layout := mkLayout {
  sizeof_item_eth : nat; ITEM_ETH_OFF_HDR : nat; ITEM_ETH_OFF_VLAN : nat;
  ETHER_HDR_OFF_SRC : nat; ETHER_HDR_OFF_DST : nat; ETHER_HDR_OFF_TYPE : nat;
  sizeof_item_vlan : nat; ITEM_VLAN_OFF_HDR : nat; ITEM_VLAN_OFF_MORE : nat;
  VLAN_HDR_OFF_TCI : nat; VLAN_HDR_OFF_PROTO : nat;
  sizeof_item_ipv4 : nat; IPV4_VIHL : nat; IPV4_TOS : nat; IPV4_LEN : nat; IPV4_ID : nat; IPV4_FRAG : nat;
  IPV4_TTL : nat; IPV4_PROTO : nat; IPV4_CKSUM : nat; IPV4_SRC : nat; IPV4_DST : nat;
  sizeof_item_ipv6 : nat; IPV6_PROTO : nat; IPV6_SRC : nat; IPV6_DST : nat;
  sizeof_item_udp : nat; UDP_SRC : nat; UDP_DST : nat; UDP_LEN : nat; UDP_CKSUM : nat;
  sizeof_item_tcp : nat; TCP_SRC : nat; TCP_DST : nat; TCP_CKSUM : nat;
  sizeof_item_vxlan : nat; VXLAN_VNI : nat;
  sizeof_action_count : nat; COUNT_ID : nat;
  sizeof_action_set_ipv4 : nat; SET_IPV4_ADDR : nat;
  sizeof_action_set_ipv6 : nat; SET_IPV6_ADDR : nat;
  sizeof_action_set_mac : nat; SET_MAC_ADDR : nat;
  sizeof_action_jump : nat; JUMP_GROUP : nat;
  sizeof_action_meter : nat; METER_ID : nat;
  sizeof_action_port_id : nat; PORT_ID_ID : nat;
  sizeof_action_queue : nat; QUEUE_INDEX : nat;
  sizeof_action_sample : nat; SAMPLE_RATIO : nat; SAMPLE_ACTIONS : nat;
  sizeof_action_vxlan_encap : nat; ENCAP_DEFINITION : nat;
  sizeof_action_rss : nat; RSS_FUNC : nat; RSS_LEVEL : nat; RSS_TYPES : nat; RSS_KEY_LEN : nat;
  RSS_QUEUE_NUM : nat; RSS_KEY : nat; RSS_QUEUE : nat;
  ItemTypeEth : Z; ItemTypeVlan : Z; ItemTypeIPv4 : Z; ItemTypeIPv6 : Z; ItemTypeUDP : Z; ItemTypeTCP : Z;
  ItemTypeVxlan : Z;
  ActionTypeCount : Z; ActionTypeSetIPv4Dst : Z; ActionTypeSetIPv4Src : Z; ActionTypeSetIPv6Dst : Z;
  ActionTypeSetIPv6Src : Z; ActionTypeJump : Z; ActionTypeSetMacDst : Z; ActionTypeSetMacSrc : Z;
  ActionTypeMeter : Z; ActionTypePortID : Z; ActionTypeQueue : Z; ActionTypeSample : Z; ActionTypeVxlanEncap : Z;
  ActionTypeRss : Z
}.

(** ** Go structures *)

(* go: ethdev/flow/item_eth.go ItemEth *)
Record ItemEth := mkItemEth { HasVlan : bool; Src : list Z; Dst : list Z; EtherType : Z }.
(* go: ethdev/flow/item_vlan.go ItemVlan *)
Record ItemVlan := mkItemVlan { HasMoreVlan : bool; TCI : Z; InnerType : Z }.
(** Addresses are arrays of their bytes. *)
(* go: ethdev/flow/item_ipv4.go IPv4Header *)
Record IPv4Header := mkIPv4Header {
  VersionIHL : Z; ToS : Z; TotalLength : Z; ID : Z; FragmentOffset : Z; TTL : Z; Proto : Z; Checksum : Z;
  SrcAddr : list Z; DstAddr : list Z
}.
(* go: ethdev/flow/item_ipv6.go IPv6Header *)
Record IPv6Header := mkIPv6Header {
  VtcFlow : Z; PayloadLength : Z; Proto6 : Z; HopLimits : Z; SrcAddr6 : list Z; DstAddr6 : list Z
}.
(* go: ethdev/flow/item_udp.go UDPHeader *)
Record UDPHeader := mkUDPHeader { SrcPort : Z; DstPort : Z; Length : Z; UChecksum : Z }.
(* go: ethdev/flow/item_tcp.go TCPHdr *)
Record TCPHdr := mkTCPHdr {
  TSrcPort : Z; TDstPort : Z; SentSeq : Z; RecvAck : Z; DataOff : Z; TCPFlags : Z; RxWin : Z; Cksum : Z; TCPUrp : Z
}.
(* go: ethdev/flow/action_rss.go ActionRSS *)
Record ActionRSS := mkActionRSS { Func : Z; Queues : list Z; Key : list Z; Level : Z; Types : Z }.
(** The embedded objects are named by their references. *)
(* go: ethdev/flow/action_vxlan_encap.go ActionVxlanEncap *)
Record ActionVxlanEncap := mkActionVxlanEncap { Ether : Z; EIPv4 : Z; EUDP : Z; Vxlan : Z }.
(* go: ethdev/flow/action_sample.go ActionSample *)
Record ActionSample := mkActionSample { Ratio : Z; PortID : Z }.

(** The objects that implement [ItemStruct] and [Action]. *)
Inductive data :=
| DEth (i : ItemEth)
| DVlan (i : ItemVlan)
| DIPv4 (h : IPv4Header)
| DIPv6 (h : IPv6Header)
| DUDP (h : UDPHeader)
| DTCP (h : TCPHdr)
| DVXLAN (VNI : Z)
| DVXLAN2 (VNI : Z)
| DCount (ID : Z)
| DIPv4Dst (Addr : list Z)
| DIPv4Src (Addr : list Z)
| DIPv6Dst (Addr : list Z)
| DIPv6Src (Addr : list Z)
| DJump (Group : Z)
| DMacDst (Mac : list Z)
| DMacSrc (Mac : list Z)
| DMeter (MtrID : Z)
| DPortID (ID : Z)
| DQueue (Index : Z)
| DSample (a : ActionSample)
| DVxlanEncap (a : ActionVxlanEncap)
| DRSS (a : ActionRSS).

(** A Go object: its C structure ([None] is nil) and its fields. *)
(* go: ethdev/flow/utils.go cPointer *)
Record obj := mkObj { cptr : option Z; fields_ : data }.

(** [rte_flow_item] and [rte_flow_action]: [0] is NULL. *)
Record c_item := mkCItem { i_type : Z; i_spec : Z; i_last : Z; i_mask : Z }.
Record c_action := mkCAction { a_type : Z; a_conf : Z }.

(** Go objects, C heap, and the arrays [cPattern] and [cActions] left in Go
    memory, by address. *)
Record state := mkState {
  objs : gmap Z obj;
  heap : gmap Z (list Z);
  patterns : gmap Z (list c_item);
  actionss : gmap Z (list c_action)
}.
Definition set_objs (s : state) o := mkState o (heap s) (patterns s) (actionss s).
Definition set_heap (s : state) h := mkState (objs s) h (patterns s) (actionss s).
Definition set_patterns (s : state) p := mkState (objs s) (heap s) p (actionss s).
Definition set_actionss (s : state) a := mkState (objs s) (heap s) (patterns s) a.

(** An [ItemStruct] or [Action] value: a type on its own or an object. *)
Inductive iface := IType (t : Z) | IObj (r : Z).

(* go: ethdev/flow/item.go Item *)
Record Item := mkItem { Spec : iface; Last : option iface; Mask : option iface }.

Section Flow.
Variable L : Layout.
(** [C.malloc], [0] being NULL, and the address of a new Go array. *)
Variable malloc : gmap Z (list Z) -> Z -> Z.
Variable go_new : state -> Z.

(** ** Encodings *)

(* go: ethdev/flow/utils.go beU16 *)
Definition beU16 (n : Z) (off : nat) : store := Bytes off [u8 (Z.shiftr n 8); u8 n].
(* go: ethdev/flow/utils.go beU32 *)
Definition beU32 (n : Z) (off : nat) : store :=
  Bytes off [u8 (Z.shiftr n 24); u8 (Z.shiftr n 16); u8 (Z.shiftr n 8); u8 n].
(* go: ethdev/flow/utils.go leU32 *)
Definition leU32 (n : Z) (off : nat) : store :=
  Bytes off [u8 n; u8 (Z.shiftr n 8); u8 (Z.shiftr n 16); u8 (Z.shiftr n 24)].

(** A C assignment of an [n]-byte integer. *)
Definition host (n : nat) (v : Z) (off : nat) : store := Bytes off (le_bytes n v).

(** [copy] to the six bytes of the address. *)
(* go: ethdev/flow/item_eth.go setAddr *)
Definition setAddr (off : nat) (addr : list Z) : store := Bytes off (take 6 addr).

(* go: ethdev/flow/item_eth.go ItemEth.Reload *)
Definition ItemEth_stores (item : ItemEth) : list store :=
  [Bit0 (ITEM_ETH_OFF_VLAN L) (if HasVlan item then 1 else 0)] ++
  map (at_off (ITEM_ETH_OFF_HDR L))
    ((if (0 <? length (Src item))%nat then [setAddr (ETHER_HDR_OFF_SRC L) (Src item)] else []) ++
     (if (0 <? length (Dst item))%nat then [setAddr (ETHER_HDR_OFF_DST L) (Dst item)] else []) ++
     [beU16 (EtherType item) (ETHER_HDR_OFF_TYPE L)]).

(* go: ethdev/flow/item_vlan.go ItemVlan.Reload *)
Definition ItemVlan_stores (item : ItemVlan) : list store :=
  [Bit0 (ITEM_VLAN_OFF_MORE L) (if HasMoreVlan item then 1 else 0)] ++
  map (at_off (ITEM_VLAN_OFF_HDR L))
    [beU16 (TCI item) (VLAN_HDR_OFF_TCI L); beU16 (InnerType item) (VLAN_HDR_OFF_PROTO L)].

(* go: ethdev/flow/item_ipv4.go setIPv4HdrVersionIHL *)
Definition setIPv4HdrVersionIHL (src : IPv4Header) : store := host 1 (VersionIHL src) (IPV4_VIHL L).

(* go: ethdev/flow/item_ipv4.go cvtIPv4Header *)
Definition cvtIPv4Header (src : IPv4Header) : list store :=
  [setIPv4HdrVersionIHL src;
   host 1 (ToS src) (IPV4_TOS L);
   beU16 (TotalLength src) (IPV4_LEN L);
   beU16 (ID src) (IPV4_ID L);
   beU16 (FragmentOffset src) (IPV4_FRAG L);
   host 1 (TTL src) (IPV4_TTL L);
   host 1 (Proto src) (IPV4_PROTO L);
   beU16 (Checksum src) (IPV4_CKSUM L);
   Bytes (IPV4_SRC L) (SrcAddr src);
   Bytes (IPV4_DST L) (DstAddr src)].

(** The loop copies byte [i] of both addresses, for [i] from 0 to 15. *)
(* go: ethdev/flow/item_ipv6.go cvtIPv6Header *)
Definition cvtIPv6Header (src : IPv6Header) : list store :=
  host 1 (Proto6 src) (IPV6_PROTO L) ::
  concat (map (fun i => [Bytes (IPV6_SRC L + i) [nth i (SrcAddr6 src) 0]; Bytes (IPV6_DST L + i) [nth i (DstAddr6 src) 0]])
              (seq 0 16)).

(* go: ethdev/flow/item_udp.go cvtUDPHeader *)
Definition cvtUDPHeader (src : UDPHeader) : list store :=
  [beU16 (SrcPort src) (UDP_SRC L); beU16 (DstPort src) (UDP_DST L);
   beU16 (Length src) (UDP_LEN L); beU16 (UChecksum src) (UDP_CKSUM L)].

(* go: ethdev/flow/item_tcp.go cvtTCPHeader *)
Definition cvtTCPHeader (src : TCPHdr) : list store :=
  [beU16 (TSrcPort src) (TCP_SRC L); beU16 (TDstPort src) (TCP_DST L); beU16 (Cksum src) (TCP_CKSUM L)].

(** [Memcpy] of the first three bytes of [item.VNI] as it lies in memory. *)
(* go: ethdev/flow/item_vxlan.go ItemVXLAN.Reload *)
Definition ItemVXLAN_stores (VNI : Z) : list store := [Bytes (VXLAN_VNI L) (take 3 (le_bytes 4 VNI))].

(** [vni[2-i] = vni >> (i*8)] for [i] from 0 to 2. *)
(* go: ethdev/flow/item_vxlan2.go 22-27 encap *)
Definition encap (vni : Z) : list store :=
  map (fun i => Bytes (VXLAN_VNI L + (2 - i)) [u8 (Z.shiftr vni (Z.of_nat i * 8))]) (seq 0 3).
(* go: ethdev/flow/item_vxlan2.go ItemVXLAN2.Reload *)
Definition ItemVXLAN2_stores (VNI : Z) : list store := encap VNI.

(** [mac_addr[index] = action.Mac[index]] for [index] from 0 to 5; [None] is an
    index out of range. *)
Definition mac_stores (Mac : list Z) : option (list store) :=
  if (6 <=? length Mac)%nat then Some (map (fun i => Bytes (SET_MAC_ADDR L + i) [nth i Mac 0]) (seq 0 6)) else None.
(* go: ethdev/flow/action_mac_dst.go ActionMacDst.Reload *)
Definition ActionMacDst_stores := mac_stores.
(* go: ethdev/flow/action_mac_src.go ActionMacSrc.Reload *)
Definition ActionMacSrc_stores := mac_stores.

Definition ipv6_stores (Addr : list Z) : list store :=
  map (fun i => Bytes (SET_IPV6_ADDR L + i) [nth i Addr 0]) (seq 0 16).
(* go: ethdev/flow/action_ipv6_dst.go ActionIPv6Dst.Reload *)
Definition ActionIPv6Dst_stores := ipv6_stores.
(* go: ethdev/flow/action_ipv6_src.go ActionIPv6Src.Reload *)
Definition ActionIPv6Src_stores := ipv6_stores.
(* go: ethdev/flow/action_ipv4_dst.go ActionIPv4Dst.Reload *)
Definition ActionIPv4Dst_stores (Addr : list Z) : list store := [Bytes (SET_IPV4_ADDR L) Addr].
(* go: ethdev/flow/action_ipv4_src.go ActionIPv4Src.Reload *)
Definition ActionIPv4Src_stores (Addr : list Z) : list store := [Bytes (SET_IPV4_ADDR L) Addr].
(* go: ethdev/flow/action_count.go ActionCount.Reload *)
Definition ActionCount_stores (i : Z) : list store := [host 4 i (COUNT_ID L)].
(* go: ethdev/flow/action_jump.go ActionJump.Reload *)
Definition ActionJump_stores (group : Z) : list store := [host 4 group (JUMP_GROUP L)].
(* go: ethdev/flow/action_meter.go ActionMeter.Reload *)
Definition ActionMeter_stores (MtrID : Z) : list store := [host 4 MtrID (METER_ID L)].
(* go: ethdev/flow/action_port_id.go ActionPortID.Reload *)
Definition ActionPortID_stores (i : Z) : list store := [host 4 i (PORT_ID_ID L)].
(* go: ethdev/flow/action_queue.go ActionQueue.Reload *)
Definition ActionQueue_stores (Index : Z) : list store := [host 2 Index (QUEUE_INDEX L)].

(** The size and the stores of the objects whose structure has no pointers. *)
Definition plain (d : data) : option (nat * option (list store)) :=
  match d with
  | DEth i => Some (sizeof_item_eth L, Some (ItemEth_stores i))
  | DVlan i => Some (sizeof_item_vlan L, Some (ItemVlan_stores i))
  | DIPv4 h => Some (sizeof_item_ipv4 L, Some (cvtIPv4Header h))
  | DIPv6 h => Some (sizeof_item_ipv6 L, Some (cvtIPv6Header h))
  | DUDP h => Some (sizeof_item_udp L, Some (cvtUDPHeader h))
  | DTCP h => Some (sizeof_item_tcp L, Some (cvtTCPHeader h))
  | DVXLAN v => Some (sizeof_item_vxlan L, Some (ItemVXLAN_stores v))
  | DVXLAN2 v => Some (sizeof_item_vxlan L, Some (ItemVXLAN2_stores v))
  | DCount i => Some (sizeof_action_count L, Some (ActionCount_stores i))
  | DIPv4Dst a => Some (sizeof_action_set_ipv4 L, Some (ActionIPv4Dst_stores a))
  | DIPv4Src a => Some (sizeof_action_set_ipv4 L, Some (ActionIPv4Src_stores a))
  | DIPv6Dst a => Some (sizeof_action_set_ipv6 L, Some (ActionIPv6Dst_stores a))
  | DIPv6Src a => Some (sizeof_action_set_ipv6 L, Some (ActionIPv6Src_stores a))
  | DJump g => Some (sizeof_action_jump L, Some (ActionJump_stores g))
  | DMacDst m => Some (sizeof_action_set_mac L, ActionMacDst_stores m)
  | DMacSrc m => Some (sizeof_action_set_mac L, ActionMacSrc_stores m)
  | DMeter i => Some (sizeof_action_meter L, Some (ActionMeter_stores i))
  | DPortID i => Some (sizeof_action_port_id L, Some (ActionPortID_stores i))
  | DQueue i => Some (sizeof_action_queue L, Some (ActionQueue_stores i))
  | DSample _ | DVxlanEncap _ | DRSS _ => None
  end.

(** [Type] of an object. *)
Definition type_of (d : data) : Z :=
  match d with
  | DEth _ => ItemTypeEth L
  | DVlan _ => ItemTypeVlan L
  | DIPv4 _ => ItemTypeIPv4 L
  | DIPv6 _ => ItemTypeIPv6 L
  | DUDP _ => ItemTypeUDP L
  | DTCP _ => ItemTypeTCP L
  | DVXLAN _ | DVXLAN2 _ => ItemTypeVxlan L
  | DCount _ => ActionTypeCount L
  | DIPv4Dst _ => ActionTypeSetIPv4Dst L
  | DIPv4Src _ => ActionTypeSetIPv4Src L
  | DIPv6Dst _ => ActionTypeSetIPv6Dst L
  | DIPv6Src _ => ActionTypeSetIPv6Src L
  | DJump _ => ActionTypeJump L
  | DMacDst _ => ActionTypeSetMacDst L
  | DMacSrc _ => ActionTypeSetMacSrc L
  | DMeter _ => ActionTypeMeter L
  | DPortID _ => ActionTypePortID L
  | DQueue _ => ActionTypeQueue L
  | DSample _ => ActionTypeSample L
  | DVxlanEncap _ => ActionTypeVxlanEncap L
  | DRSS _ => ActionTypeRss L
  end.

(** ** Objects and blocks *)

Definition get_obj (r : Z) : M state obj := fun s => lift (objs s !! r) s.
Definition set_cptr (r : Z) (p : Z) : M state unit :=
  let! o := get_obj r in
  modify (fun s => set_objs s (<[r := mkObj (Some p) (fields_ o)]> (objs s))).

(** A new block with these bytes; NULL makes the code that fills it fault. *)
Definition c_new (bs : list Z) : M state Z :=
  let! p := gets (fun s => malloc (heap s) (Z.of_nat (length bs))) in
  if p =? 0 then panic else modify (fun s => set_heap s (<[p := bs]> (heap s))) ;; ret p.

(** [C.free]: nothing for NULL, undefined for what is not allocated. *)
(* go: ethdev/flow/utils.go cPointer.free *)
Definition c_free (p : Z) : M state unit :=
  if p =? 0 then ret tt
  else
    let! _ := (fun s => lift (heap s !! p) s) in
    modify (fun s => set_heap s (delete p (heap s))).

Definition c_store (p : Z) (sts : list store) : M state unit :=
  let! b := (fun s => lift (heap s !! p) s) in
  let! b := lift (apply_stores sts b) in
  modify (fun s => set_heap s (<[p := b]> (heap s))).

Definition c_load (p : Z) (off n : nat) : M state Z :=
  let! b := (fun s => lift (heap s !! p) s) in
  ret (le_val (take n (drop off b))).

(* go: ethdev/flow/utils.go cPointer.createOrRet *)
Definition createOrRet (r : Z) (n : nat) : M state Z :=
  let! o := get_obj r in
  match cptr o with
  | Some p => ret p
  | None =>
      let! p := c_new (replicate n 0) in
      set_cptr r p ;; ret p
  end.

(* go: ethdev/flow/utils.go cPointer.Pointer *)
Definition Pointer (i : iface) : M state Z :=
  match i with
  | IType _ => ret 0
  | IObj r => let! o := get_obj r in ret (default 0 (cptr o))
  end.

Definition Type_ (i : iface) : M state Z :=
  match i with
  | IType t => ret t
  | IObj r => let! o := get_obj r in ret (type_of (fields_ o))
  end.

(** [Reload] of an object whose structure has no pointers. *)
Definition Reload_plain (i : iface) : M state unit :=
  match i with
  | IType _ => ret tt
  | IObj r =>
      let! o := get_obj r in
      match plain (fields_ o) with
      | None => panic
      | Some (n, sts) =>
          let! p := createOrRet r n in
          let! sts := lift sts in
          c_store p sts
      end
  end.

(** ** Patterns and actions *)

Fixpoint map_M {A B} (f : A -> M state B) (l : list A) : M state (list B) :=
  match l with
  | [] => ret []
  | a :: l => let! b := f a in let! bs := map_M f l in ret (b :: bs)
  end.

Definition opt_reload (i : option iface) : M state Z :=
  match i with
  | None => ret 0
  | Some i => Reload_plain i ;; Pointer i
  end.

Definition cItem (it : Item) : M state c_item :=
  let! typ := Type_ (Spec it) in
  Reload_plain (Spec it) ;;
  let! spec := Pointer (Spec it) in
  let! mask := opt_reload (Mask it) in
  let! last := opt_reload (Last it) in
  ret (mkCItem (u32 typ) spec last mask).

(* go: ethdev/flow/flow.go cPattern *)
Definition cPattern (pattern : list Item) : M state (list c_item) :=
  let! pat := map_M cItem pattern in
  ret (pat ++ [mkCItem 0 0 0 0]).

Definition cAction (reload : iface -> M state unit) (a : iface) : M state c_action :=
  let! typ := Type_ a in
  reload a ;;
  let! conf := Pointer a in
  ret (mkCAction (u32 typ) conf).

(** [reload] is the [Reload] of the actions. *)
(* go: ethdev/flow/flow.go cActions *)
Definition cActions (reload : iface -> M state unit) (actions : list iface) : M state (list c_action) :=
  let! act := map_M (cAction reload) actions in
  ret (act ++ [mkCAction 0 0]).

(** The arrays stay in Go memory: the C structure has their address. *)
Definition keep_pattern (pat : list c_item) : M state Z :=
  let! a := gets go_new in
  modify (fun s => set_patterns s (<[a := pat]> (patterns s))) ;; ret a.
Definition keep_actions (act : list c_action) : M state Z :=
  let! a := gets go_new in
  modify (fun s => set_actionss s (<[a := act]> (actionss s))) ;; ret a.

(* go: ethdev/flow/action_sample.go ActionSample.Reload *)
Definition ActionSample_Reload (r : Z) (action : ActionSample) : M state unit :=
  let! p := createOrRet r (sizeof_action_sample L) in
  c_store p [host 4 (Ratio action) (SAMPLE_RATIO L)] ;;
  let! act := cActions Reload_plain [IObj (PortID action)] in
  let! a := keep_actions act in
  c_store p [host 8 a (SAMPLE_ACTIONS L)].

(* go: ethdev/flow/action_vxlan_encap.go ActionVxlanEncap.Reload *)
Definition ActionVxlanEncap_Reload (r : Z) (action : ActionVxlanEncap) : M state unit :=
  let! p := createOrRet r (sizeof_action_vxlan_encap L) in
  let! pat := cPattern (map (fun x => mkItem (IObj x) None None) [Ether action; EIPv4 action; EUDP action; Vxlan action]) in
  let! a := keep_pattern pat in
  c_store p [host 8 a (ENCAP_DEFINITION L)].

(** [set queues] and [set key]: a new block for the values, the old one freed. *)
Definition rss_array (p : Z) (n : nat) (bytes : list Z) (off_num off_ptr : nat) : M state unit :=
  if (0 <? n)%nat then
    let! c := c_new bytes in
    let! old := c_load p off_ptr 8 in
    c_free old ;;
    c_store p [host 4 (Z.of_nat n) off_num; host 8 c off_ptr]
  else ret tt.

(* go: ethdev/flow/action_rss.go ActionRSS.Reload *)
Definition ActionRSS_Reload (r : Z) (action : ActionRSS) : M state unit :=
  let! p := createOrRet r (sizeof_action_rss L) in
  rss_array p (length (Queues action)) (concat (map (le_bytes 2) (Queues action))) (RSS_QUEUE_NUM L) (RSS_QUEUE L) ;;
  rss_array p (length (Key action)) (Key action) (RSS_KEY_LEN L) (RSS_KEY L) ;;
  c_store p [host 4 (Level action) (RSS_LEVEL L); host 8 (Types action) (RSS_TYPES L); host 4 (Func action) (RSS_FUNC L)].

(** The finalizer. *)
(* go: ethdev/flow/action_rss.go ActionRSS.free *)
Definition ActionRSS_free (p : Z) : M state unit :=
  let! k := c_load p (RSS_KEY L) 8 in
  c_free k ;;
  let! q := c_load p (RSS_QUEUE L) 8 in
  c_free q ;;
  c_free p.

(** [Reload] of any action. *)
Definition Reload (i : iface) : M state unit :=
  match i with
  | IType _ => ret tt
  | IObj r =>
      let! o := get_obj r in
      match fields_ o with
      | DSample a => ActionSample_Reload r a
      | DVxlanEncap a => ActionVxlanEncap_Reload r a
      | DRSS a => ActionRSS_Reload r a
      | _ => Reload_plain i
      end
  end.

(** ** Attributes and rules *)

(* go: ethdev/flow/attr.go 61-91 Attr *)
Record Attr := mkAttr { Group : Z; Priority : Z; Ingress : bool; Egress : bool; Transfer : bool }.
Record c_attr := mkCAttr { group : Z; priority : Z; ingress : Z; egress : Z; transfer : Z }.

(* go: ethdev/flow/attr.go Attr.cvtAttr *)
Definition cvtAttr (a : Attr) : c_attr :=
  let out := mkCAttr (Group a) (Priority a) 0 0 0 in
  let out := if Ingress a then mkCAttr (group out) (priority out) 1 (egress out) (transfer out) else out in
  let out := if Egress a then mkCAttr (group out) (priority out) (ingress out) 1 (transfer out) else out in
  if Transfer a then mkCAttr (group out) (priority out) (ingress out) (egress out) 1 else out.

(** [rte_flow_create] reads the heap: the flow, [0] being NULL, and [rte_errno];
    [rte_flow_validate] gives its result. *)
Variable rte_flow_create : Z -> c_attr -> list c_item -> list c_action -> state -> Z * Z.
Variable rte_flow_validate : Z -> c_attr -> list c_item -> list c_action -> state -> Z.
Variable E : rte_numbers.

(** A nil flow with the error of [rte_errno]. *)
(* go: ethdev/flow/flow.go Create *)
Definition Create (port : Z) (attr : Attr) (pattern : list Item) (actions : list iface) :
    M state (Z * option go_error) :=
  let! pat := cPattern pattern in
  let! act := cActions Reload actions in
  let! f := gets (rte_flow_create port (cvtAttr attr) pat act) in
  if fst f =? 0 then ret (0, RteErrno E (snd f)) else ret (fst f, None).

(* go: ethdev/flow/flow.go Validate *)
Definition Validate (port : Z) (attr : Attr) (pattern : list Item) (actions : list iface) :
    M state (option go_error) :=
  let! pat := cPattern pattern in
  let! act := cActions Reload actions in
  let! r := gets (rte_flow_validate port (cvtAttr attr) pat act) in
  ret (errno E r).
End Flow.
