(* ===== verification/FlowSpec.v ===== *)
(** * Flow rules: what DPDK reads

    [cPattern] and [cActions] give arrays that end in END and whose entries
    point to structures that show the Go fields, field by field ([view],
    [Create_spec]); headers can be read back. The VXLAN
    item writes its identifier in the wrong byte order and the Ethernet item
    keeps an address the caller has removed. *)

From Stdlib Require Import ZArith Lia.
From stdpp Require Import base list numbers option gmap.
From S2P Require Import Prelude Errno Flow.

Open Scope Z_scope.

(** ** Stores *)

(** The bytes a store covers, and that they are as stored. *)
Definition foot (st : store) : nat * nat :=
  match st with Bytes o bs => (o, length bs) | Bit0 o _ => (o, 1%nat) end.
Definition covers (st : store) (i : nat) : Prop := (fst (foot st) <= i < fst (foot st) + snd (foot st))%nat.

Definition holds (b : list Z) (st : store) : Prop :=
  match st with
  | Bytes o bs => forall k, (k < length bs)%nat -> b !! (o + k)%nat = bs !! k
  | Bit0 o v => exists x, b !! o = Some x /\ Z.land x 1 = Z.land v 1
  end.

Definition disjoint_foot (f g : nat * nat) : bool :=
  ((fst f + snd f <=? fst g) || (fst g + snd g <=? fst f))%nat.

(** In range and disjoint. *)
Fixpoint fits (n : nat) (fs : list (nat * nat)) : bool :=
  match fs with
  | [] => true
  | f :: fs => (fst f + snd f <=? n)%nat && forallb (disjoint_foot f) fs && fits n fs
  end.

Lemma splice_length b o bs : (o + length bs <= length b)%nat -> length (splice b o bs) = length b.
Proof. intros H. unfold splice. rewrite !length_app, length_take, length_drop. lia. Qed.

Lemma splice_lookup b o bs i : (o + length bs <= length b)%nat ->
  splice b o bs !! i = if decide (o <= i < o + length bs)%nat then bs !! (i - o)%nat else b !! i.
Proof.
  intros H. unfold splice. case_decide.
  - rewrite lookup_app_r by (rewrite length_take; lia). rewrite length_take, Nat.min_l by lia.
    rewrite lookup_app_l by lia. done.
  - destruct (Nat.lt_ge_cases i o).
    + rewrite lookup_app_l by (rewrite length_take; lia). by rewrite lookup_take_lt.
    + rewrite lookup_app_r by (rewrite length_take; lia). rewrite length_take, Nat.min_l by lia.
      rewrite lookup_app_r by lia. rewrite lookup_drop. f_equal. lia.
Qed.

Lemma land1_mod x : Z.land x 1 = x mod 2.
Proof. by apply (land_ones_mod x 1). Qed.

Lemma apply_store_spec st b : (fst (foot st) + snd (foot st) <= length b)%nat ->
  exists b', apply_store st b = Some b' /\ length b' = length b /\ holds b' st /\
    forall i, ~ covers st i -> b' !! i = b !! i.
Proof.
  destruct st as [o bs|o v]; simpl; intros H.
  - rewrite (proj2 (Nat.leb_le _ _) H). eexists. split; [reflexivity|]. split; [by apply splice_length|]. split.
    + intros k Hk. rewrite splice_lookup by done. case_decide; [|lia]. f_equal. lia.
    + intros i Hi. rewrite splice_lookup by done. case_decide; [|done]. by destruct Hi.
  - destruct (lookup_lt_is_Some_2 b o ltac:(lia)) as [x Hx]. rewrite Hx. eexists. split; [reflexivity|].
    split; [by rewrite length_insert|]. split.
    + eexists. split; [apply list_lookup_insert_eq; by eapply lookup_lt_Some|]. rewrite !land1_mod. zlia.
    + intros i Hi. apply list_lookup_insert_ne. unfold covers in Hi; simpl in Hi. lia.
Qed.

Lemma holds_preserved st b b' :
  (forall i, covers st i -> b' !! i = b !! i) -> holds b st -> holds b' st.
Proof.
  destruct st as [o bs|o v]; intros E H.
  - intros k Hk. rewrite E; [by apply H|]. unfold covers; simpl. lia.
  - destruct H as (x & Hx & Hv). exists x. split; [|done]. rewrite E; [done|]. unfold covers; simpl. lia.
Qed.

Lemma apply_stores_spec sts : forall b, fits (length b) (map foot sts) = true ->
  exists b', apply_stores sts b = Some b' /\ length b' = length b /\ Forall (holds b') sts /\
    forall i, Forall (fun st => ~ covers st i) sts -> b' !! i = b !! i.
Proof.
  induction sts as [|st sts IH]; intros b F; simpl in F |- *.
  - exists b. split_and!; [done|done|constructor|done].
  - apply andb_prop in F as [F F3]. apply andb_prop in F as [F1 F2]. apply Nat.leb_le in F1.
    destruct (apply_store_spec st b F1) as (b1 & -> & L1 & H1 & O1).
    destruct (IH b1) as (b' & -> & L' & H' & O'); [by rewrite L1|].
    exists b'. split_and!; [done|congruence| |].
    + constructor; [|done]. apply (holds_preserved _ b1); [|done]. intros i Hi. apply O'.
      apply Forall_forall. intros st' Hst'. rewrite forallb_forall in F2.
      specialize (F2 (foot st') ltac:(apply in_map; by apply list_elem_of_In)).
      apply orb_prop in F2 as [F2|F2]; apply Nat.leb_le in F2; unfold covers in *; lia.
    + intros i Hi. apply Forall_cons in Hi as [? Hi]. rewrite O' by done. by apply O1.
Qed.

(** Reading bytes. *)
Definition slice (b : list Z) (off n : nat) : list Z := take n (drop off b).

Lemma holds_slice b o bs : holds b (Bytes o bs) -> slice b o (length bs) = bs.
Proof.
  intros H. unfold slice. apply list_eq. intros i. destruct (Nat.lt_ge_cases i (length bs)).
  - rewrite lookup_take_lt, lookup_drop by done. by apply H.
  - rewrite lookup_take_ge by done. symmetry. by apply lookup_ge_None_2.
Qed.

Lemma holds_host1 b v o : holds b (host 1 v o) -> 0 <= v < 256 -> le_val (slice b o 1) = v.
Proof. intros H Hv. apply holds_slice in H. simpl in H. rewrite H. simpl. zlia. Qed.

Lemma holds_be b n o : holds b (beU16 n o) -> be_val (slice b o 2) = u16 n.
Proof.
  intros H. apply holds_slice in H. change (length [u8 (Z.shiftr n 8); u8 n]) with 2%nat in H. rewrite H. unfold be_val, u16, u8.
  cbn [length]. rewrite Z.shiftr_div_pow2 by lia. change (256 ^ Z.of_nat 1) with 256. change (256 ^ Z.of_nat 0) with 1. change (2 ^ 8) with 256. zlia.
Qed.

Lemma holds_host b n v o : holds b (host n v o) -> le_val (slice b o n) = v mod 256 ^ Z.of_nat n.
Proof. intros H. apply holds_slice in H. rewrite length_le_bytes in H. by rewrite H, le_val_bytes. Qed.

Lemma holds_bit b o v : holds b (Bit0 o (if v : bool then 1 else 0)) -> Z.odd <$> b !! o = Some v.
Proof.
  intros (x & Hx & E). rewrite Hx. cbn. f_equal. rewrite <- Z.bit0_odd. rewrite <- (andb_true_r (Z.testbit x 0)).
  change true with (Z.testbit 1 0) at 1. rewrite <- Z.land_spec, E. by destruct v.
Qed.

(** Bytes written one by one. *)
Lemma holds_each b o f n : (forall i, (i < n)%nat -> holds b (Bytes (o + i) [f i])) -> slice b o n = map f (seq 0 n).
Proof.
  intros H. unfold slice. apply list_eq. intros i. destruct (Nat.lt_ge_cases i n) as [Hi|Hi].
  - rewrite lookup_take_lt, lookup_drop by done. specialize (H i Hi 0%nat ltac:(simpl; lia)). rewrite Nat.add_0_r in H.
    rewrite H. change (map f (seq 0 n)) with (f <$> seq 0 n). rewrite list_lookup_fmap, lookup_seq_lt by done. done.
  - rewrite lookup_take_ge by done. symmetry. apply lookup_ge_None_2. by rewrite length_map, length_seq.
Qed.

Lemma map_nth_all (l : list Z) : map (fun i => nth i l 0) (seq 0 (length l)) = l.
Proof.
  apply list_eq. intros i. change (map ?f ?k) with (f <$> k). rewrite list_lookup_fmap. destruct (Nat.lt_ge_cases i (length l)) as [Hi|Hi].
  - rewrite lookup_seq_lt by done. cbn. destruct (lookup_lt_is_Some_2 l i Hi) as [x Hx]. rewrite Hx. f_equal. by apply nth_lookup_Some.
  - rewrite lookup_seq_ge by done. symmetry. by apply lookup_ge_None_2.
Qed.

(** ** Layouts *)

(** The object of the same kind with every array of full size. *)
Definition full (d : data) : data :=
  match d with
  | DEth _ => DEth (mkItemEth true (replicate 6 0) (replicate 6 0) 0)
  | DVlan _ => DVlan (mkItemVlan true 0 0)
  | DIPv4 _ => DIPv4 (mkIPv4Header 0 0 0 0 0 0 0 0 (replicate 4 0) (replicate 4 0))
  | DIPv6 _ => DIPv6 (mkIPv6Header 0 0 0 0 (replicate 16 0) (replicate 16 0))
  | DUDP _ => DUDP (mkUDPHeader 0 0 0 0)
  | DTCP _ => DTCP (mkTCPHdr 0 0 0 0 0 0 0 0 0)
  | DVXLAN _ => DVXLAN 0
  | DVXLAN2 _ => DVXLAN2 0
  | DCount _ => DCount 0
  | DIPv4Dst _ | DIPv4Src _ => DIPv4Dst (replicate 4 0)
  | DIPv6Dst _ | DIPv6Src _ => DIPv6Dst (replicate 16 0)
  | DJump _ => DJump 0
  | DMacDst _ | DMacSrc _ => DMacDst (replicate 6 0)
  | DMeter _ => DMeter 0
  | DPortID _ => DPortID 0
  | DQueue _ => DQueue 0
  | DSample _ | DVxlanEncap _ | DRSS _ => DRSS (mkActionRSS 0 [] [] 0 0)
  end.

Definition kinds : list data :=
  map full
    [DEth (mkItemEth true [] [] 0); DVlan (mkItemVlan true 0 0); DIPv4 (mkIPv4Header 0 0 0 0 0 0 0 0 [] []);
     DIPv6 (mkIPv6Header 0 0 0 0 [] []); DUDP (mkUDPHeader 0 0 0 0); DTCP (mkTCPHdr 0 0 0 0 0 0 0 0 0);
     DVXLAN 0; DVXLAN2 0; DCount 0; DIPv4Dst []; DIPv6Dst []; DJump 0; DMacDst []; DMeter 0; DPortID 0; DQueue 0].

(** The fields of every structure are inside of it and disjoint. *)
Definition kind_ok (L : Layout) (d : data) : bool :=
  match plain L d with
  | Some (n, Some sts) => fits n (map foot sts)
  | _ => false
  end.
Definition layout_ok (L : Layout) : bool :=
  forallb (kind_ok L) kinds &&
  fits (sizeof_action_rss L)
    [(RSS_FUNC L, 4); (RSS_LEVEL L, 4); (RSS_TYPES L, 8); (RSS_KEY_LEN L, 4); (RSS_QUEUE_NUM L, 4);
     (RSS_KEY L, 8); (RSS_QUEUE L, 8)]%nat.

(** The Go arrays of an object have their lengths; a MAC address of an action has
    six bytes or more; the structure has no pointers. *)
Definition data_ok (d : data) : bool :=
  match d with
  | DIPv4 h => (length (SrcAddr h) =? 4)%nat && (length (DstAddr h) =? 4)%nat
  | DIPv6 h => (length (SrcAddr6 h) =? 16)%nat && (length (DstAddr6 h) =? 16)%nat
  | DIPv4Dst a | DIPv4Src a => (length a =? 4)%nat
  | DIPv6Dst a | DIPv6Src a => (length a =? 16)%nat
  | DMacDst m | DMacSrc m => (6 <=? length m)%nat
  | DSample _ | DVxlanEncap _ | DRSS _ => false
  | _ => true
  end.

(** The structures of DPDK 21.11 on a 64-bit machine. *)
Definition dpdk_layout : Layout := {|
  sizeof_item_eth := 20; ITEM_ETH_OFF_HDR := 0; ITEM_ETH_OFF_VLAN := 16;
  ETHER_HDR_OFF_SRC := 6; ETHER_HDR_OFF_DST := 0; ETHER_HDR_OFF_TYPE := 12;
  sizeof_item_vlan := 8; ITEM_VLAN_OFF_HDR := 0; ITEM_VLAN_OFF_MORE := 4; VLAN_HDR_OFF_TCI := 0; VLAN_HDR_OFF_PROTO := 2;
  sizeof_item_ipv4 := 20; IPV4_VIHL := 0; IPV4_TOS := 1; IPV4_LEN := 2; IPV4_ID := 4; IPV4_FRAG := 6;
  IPV4_TTL := 8; IPV4_PROTO := 9; IPV4_CKSUM := 10; IPV4_SRC := 12; IPV4_DST := 16;
  sizeof_item_ipv6 := 44; IPV6_PROTO := 6; IPV6_SRC := 8; IPV6_DST := 24;
  sizeof_item_udp := 8; UDP_SRC := 0; UDP_DST := 2; UDP_LEN := 4; UDP_CKSUM := 6;
  sizeof_item_tcp := 20; TCP_SRC := 0; TCP_DST := 2; TCP_CKSUM := 16;
  sizeof_item_vxlan := 8; VXLAN_VNI := 4;
  sizeof_action_count := 4; COUNT_ID := 0; sizeof_action_set_ipv4 := 4; SET_IPV4_ADDR := 0;
  sizeof_action_set_ipv6 := 16; SET_IPV6_ADDR := 0; sizeof_action_set_mac := 6; SET_MAC_ADDR := 0;
  sizeof_action_jump := 4; JUMP_GROUP := 0; sizeof_action_meter := 4; METER_ID := 0;
  sizeof_action_port_id := 8; PORT_ID_ID := 4; sizeof_action_queue := 2; QUEUE_INDEX := 0;
  sizeof_action_sample := 16; SAMPLE_RATIO := 0; SAMPLE_ACTIONS := 8;
  sizeof_action_vxlan_encap := 8; ENCAP_DEFINITION := 0;
  sizeof_action_rss := 40; RSS_FUNC := 0; RSS_LEVEL := 4; RSS_TYPES := 8; RSS_KEY_LEN := 16; RSS_QUEUE_NUM := 20;
  RSS_KEY := 24; RSS_QUEUE := 32;
  ItemTypeEth := 9; ItemTypeVlan := 10; ItemTypeIPv4 := 11; ItemTypeIPv6 := 12; ItemTypeUDP := 14; ItemTypeTCP := 15;
  ItemTypeVxlan := 17;
  ActionTypeCount := 8; ActionTypeSetIPv4Dst := 29; ActionTypeSetIPv4Src := 28; ActionTypeSetIPv6Dst := 31;
  ActionTypeSetIPv6Src := 30; ActionTypeJump := 3; ActionTypeSetMacDst := 39; ActionTypeSetMacSrc := 38;
  ActionTypeMeter := 14; ActionTypePortID := 13; ActionTypeQueue := 6; ActionTypeSample := 51;
  ActionTypeVxlanEncap := 24; ActionTypeRss := 9
|}.

Example dpdk_layout_ok : layout_ok dpdk_layout = true.
Proof. vm_compute. reflexivity. Qed.

(** Smaller or missing stores fit where the full ones do. *)
Inductive sub_feet : list (nat * nat) -> list (nat * nat) -> Prop :=
| sub_nil fs : sub_feet [] fs
| sub_skip f fs gs : sub_feet fs gs -> sub_feet fs (f :: gs)
| sub_take o k n fs gs : (k <= n)%nat -> sub_feet fs gs -> sub_feet ((o, k) :: fs) ((o, n) :: gs).

Lemma sub_feet_refl fs : sub_feet fs fs.
Proof. induction fs as [|[o n] fs IH]; by constructor. Qed.

Lemma sub_feet_disjoint f f' fs gs : sub_feet fs gs -> fst f = fst f' -> (snd f <= snd f')%nat ->
  forallb (disjoint_foot f') gs = true -> forallb (disjoint_foot f) fs = true.
Proof.
  intros H E K. induction H as [|g fs gs _ IH|o k n fs gs Hk _ IH]; simpl; [done|..]; rewrite ?andb_true_iff.
  - intros [_ ?]. auto.
  - intros [D ?]. split; [|auto]. unfold disjoint_foot in *; simpl in *.
    apply orb_true_iff in D as [D|D]; apply orb_true_iff; rewrite !Nat.leb_le in *; lia.
Qed.

Lemma sub_feet_fits n fs gs : sub_feet fs gs -> fits n gs = true -> fits n fs = true.
Proof.
  induction 1 as [|g fs gs _ IH|o k m fs gs Hk S IH]; simpl; [done|..]; rewrite ?andb_true_iff.
  - intros [_ ?]. auto.
  - intros [[R D] F]. rewrite Nat.leb_le in *. split_and!; [lia| |auto].
    by apply (sub_feet_disjoint (o, k) (o, m) fs gs).
Qed.

Lemma foot_at_off off st : foot (at_off off st) = ((off + fst (foot st))%nat, snd (foot st)).
Proof. by destruct st. Qed.

Lemma setAddr_sub off a : (snd (foot (setAddr off a)) <= 6)%nat.
Proof. simpl. rewrite length_take. lia. Qed.

Lemma eth_feet L i : sub_feet (map foot (ItemEth_stores L i))
  (map foot (ItemEth_stores L (mkItemEth true (replicate 6 0) (replicate 6 0) 0))).
Proof.
  unfold ItemEth_stores. simpl. apply sub_take; [done|].
  destruct (Nat.ltb_spec 0 (length (Src i))); simpl; [apply sub_take; [apply (setAddr_sub 0%nat)|]|apply sub_skip];
    (destruct (Nat.ltb_spec 0 (length (Dst i))); simpl; [apply sub_take; [apply (setAddr_sub 0%nat)|]|apply sub_skip]);
    apply sub_feet_refl.
Qed.

Lemma plain_fits L d : layout_ok L = true -> data_ok d = true ->
  exists n sts, plain L d = Some (n, Some sts) /\ fits n (map foot sts) = true.
Proof.
  unfold layout_ok. rewrite andb_true_iff. intros [K _] D. rewrite forallb_forall in K.
  assert (F : kind_ok L (full d) = true).
  { apply K. unfold kinds. destruct d; try discriminate D; simpl; tauto. }
  clear K. unfold kind_ok in F.
  destruct d as [i|i|h|h|h|h|v|v|v|a|a|a|a|v|m|m|v|v|v|a|a|a]; try discriminate D; cbn [full plain] in F |- *;
    try (eexists _, _; split; [reflexivity|exact F]).
  - eexists _, _. split; [reflexivity|]. eapply sub_feet_fits; [apply eth_feet|exact F].
  - simpl in D. apply andb_prop in D as [D1 D2]. apply Nat.eqb_eq in D1, D2.
    eexists _, _. split; [reflexivity|]. simpl in F |- *. rewrite D1, D2. exact F.
  - simpl in D. apply Nat.eqb_eq in D. eexists _, _. split; [reflexivity|]. simpl in F |- *. rewrite D. exact F.
  - simpl in D. apply Nat.eqb_eq in D. eexists _, _. split; [reflexivity|]. simpl in F |- *. rewrite D. exact F.
  - unfold ActionMacDst_stores, mac_stores in *. cbn [data_ok] in D. rewrite D. eexists _, _. split; [reflexivity|exact F].
  - unfold ActionMacDst_stores, ActionMacSrc_stores, mac_stores in *. cbn [data_ok] in D. rewrite D.
    eexists _, _. split; [reflexivity|exact F].
Qed.

(** ** What DPDK finds in a structure

    Field by field, at the places of DPDK's headers: integers in network order or
    the machine's, addresses as their bytes. *)

Definition be_at (b : list Z) (off n : nat) : Z := be_val (slice b off n).
Definition le_at (b : list Z) (off n : nat) : Z := le_val (slice b off n).
Definition bit_at (b : list Z) (off : nat) : option bool := Z.odd <$> b !! off.

(** The address of an Ethernet item, where the item has one. *)
Definition mac_at (b : list Z) (off : nat) (addr : list Z) : Prop :=
  addr <> [] -> slice b off (6 `min` length addr) = take 6 addr.

(** The structure [b] of an item or action, and its type. *)
Inductive view (L : Layout) (b : list Z) : data -> Z -> Prop :=
| view_eth i : bit_at b (ITEM_ETH_OFF_VLAN L) = Some (HasVlan i) ->
    mac_at b (ITEM_ETH_OFF_HDR L + ETHER_HDR_OFF_SRC L) (Src i) -> mac_at b (ITEM_ETH_OFF_HDR L + ETHER_HDR_OFF_DST L) (Dst i) ->
    be_at b (ITEM_ETH_OFF_HDR L + ETHER_HDR_OFF_TYPE L) 2 = u16 (EtherType i) -> view L b (DEth i) (ItemTypeEth L)
| view_vlan i : bit_at b (ITEM_VLAN_OFF_MORE L) = Some (HasMoreVlan i) ->
    be_at b (ITEM_VLAN_OFF_HDR L + VLAN_HDR_OFF_TCI L) 2 = u16 (TCI i) ->
    be_at b (ITEM_VLAN_OFF_HDR L + VLAN_HDR_OFF_PROTO L) 2 = u16 (InnerType i) -> view L b (DVlan i) (ItemTypeVlan L)
| view_ipv4 h : le_at b (IPV4_VIHL L) 1 = u8 (VersionIHL h) -> le_at b (IPV4_TOS L) 1 = u8 (ToS h) ->
    be_at b (IPV4_LEN L) 2 = u16 (TotalLength h) -> be_at b (IPV4_ID L) 2 = u16 (ID h) ->
    be_at b (IPV4_FRAG L) 2 = u16 (FragmentOffset h) -> le_at b (IPV4_TTL L) 1 = u8 (TTL h) ->
    le_at b (IPV4_PROTO L) 1 = u8 (Proto h) -> be_at b (IPV4_CKSUM L) 2 = u16 (Checksum h) ->
    slice b (IPV4_SRC L) 4 = SrcAddr h -> slice b (IPV4_DST L) 4 = DstAddr h -> view L b (DIPv4 h) (ItemTypeIPv4 L)
| view_ipv6 h : le_at b (IPV6_PROTO L) 1 = u8 (Proto6 h) ->
    slice b (IPV6_SRC L) 16 = SrcAddr6 h -> slice b (IPV6_DST L) 16 = DstAddr6 h -> view L b (DIPv6 h) (ItemTypeIPv6 L)
| view_udp h : be_at b (UDP_SRC L) 2 = u16 (SrcPort h) -> be_at b (UDP_DST L) 2 = u16 (DstPort h) ->
    be_at b (UDP_LEN L) 2 = u16 (Length h) -> be_at b (UDP_CKSUM L) 2 = u16 (UChecksum h) -> view L b (DUDP h) (ItemTypeUDP L)
| view_tcp h : be_at b (TCP_SRC L) 2 = u16 (TSrcPort h) -> be_at b (TCP_DST L) 2 = u16 (TDstPort h) ->
    be_at b (TCP_CKSUM L) 2 = u16 (Cksum h) -> view L b (DTCP h) (ItemTypeTCP L)
(** The low three bytes as they lie in memory: the wrong order, see
    [ItemVXLAN_byte_order]. *)
| view_vxlan v : le_at b (VXLAN_VNI L) 3 = v mod 2 ^ 24 -> view L b (DVXLAN v) (ItemTypeVxlan L)
| view_vxlan2 v : be_at b (VXLAN_VNI L) 3 = v mod 2 ^ 24 -> view L b (DVXLAN2 v) (ItemTypeVxlan L)
| view_count v : le_at b (COUNT_ID L) 4 = u32 v -> view L b (DCount v) (ActionTypeCount L)
| view_ipv4_dst a : slice b (SET_IPV4_ADDR L) 4 = a -> view L b (DIPv4Dst a) (ActionTypeSetIPv4Dst L)
| view_ipv4_src a : slice b (SET_IPV4_ADDR L) 4 = a -> view L b (DIPv4Src a) (ActionTypeSetIPv4Src L)
| view_ipv6_dst a : slice b (SET_IPV6_ADDR L) 16 = a -> view L b (DIPv6Dst a) (ActionTypeSetIPv6Dst L)
| view_ipv6_src a : slice b (SET_IPV6_ADDR L) 16 = a -> view L b (DIPv6Src a) (ActionTypeSetIPv6Src L)
| view_jump v : le_at b (JUMP_GROUP L) 4 = u32 v -> view L b (DJump v) (ActionTypeJump L)
| view_mac_dst m : slice b (SET_MAC_ADDR L) 6 = take 6 m -> view L b (DMacDst m) (ActionTypeSetMacDst L)
| view_mac_src m : slice b (SET_MAC_ADDR L) 6 = take 6 m -> view L b (DMacSrc m) (ActionTypeSetMacSrc L)
| view_meter v : le_at b (METER_ID L) 4 = u32 v -> view L b (DMeter v) (ActionTypeMeter L)
| view_port_id v : le_at b (PORT_ID_ID L) 4 = u32 v -> view L b (DPortID v) (ActionTypePortID L)
| view_queue v : le_at b (QUEUE_INDEX L) 2 = u16 v -> view L b (DQueue v) (ActionTypeQueue L).

Lemma setAddr_at b o a : Forall (holds b) (if (0 <? length a)%nat then [setAddr o a] else []) -> mac_at b o a.
Proof.
  intros H N. destruct a as [|x a]; [done|]. apply Forall_cons in H as [H _]. apply holds_slice in H. by rewrite length_take in H.
Qed.

Lemma encap_at L b v : Forall (holds b) (encap L v) -> be_at b (VXLAN_VNI L) 3 = v mod 2 ^ 24.
Proof.
  unfold encap. cbn [seq map]. rewrite !Forall_cons. intros (H0 & H1 & H2 & _).
  assert (E : slice b (VXLAN_VNI L) 3 = map (fun i => u8 (Z.shiftr v (Z.of_nat (2 - i) * 8))) (seq 0 3)).
  { apply holds_each. intros [|[|[|i]]] Hi; [exact H2|exact H1|exact H0|lia]. }
  unfold be_at. rewrite E. cbn [seq map be_val length]. change (256 ^ Z.of_nat 2) with 65536. change (256 ^ Z.of_nat 1) with 256.
  change (256 ^ Z.of_nat 0) with 1. unfold u8. rewrite !Z.shiftr_div_pow2 by lia.
  change (2 ^ (Z.of_nat (2 - 0) * 8)) with 65536. change (2 ^ (Z.of_nat (2 - 1) * 8)) with 256. change (2 ^ (Z.of_nat (2 - 2) * 8)) with 1.
  change (2 ^ 24) with 16777216. zlia.
Qed.

Lemma vxlan_at L b v : Forall (holds b) (ItemVXLAN_stores L v) -> le_at b (VXLAN_VNI L) 3 = v mod 2 ^ 24.
Proof.
  intros H. apply Forall_cons in H as [H _]. apply holds_slice in H. change (length (take 3 (le_bytes 4 v))) with 3%nat in H.
  unfold le_at. rewrite H. change (take 3 (le_bytes 4 v)) with (le_bytes 3 v). rewrite le_val_bytes. done.
Qed.

Lemma each_at b o (l : list Z) n : length l = n -> Forall (holds b) (map (fun i => Bytes (o + i) [nth i l 0]) (seq 0 n)) -> slice b o n = l.
Proof.
  intros <- H. rewrite <- (map_nth_all l) at 2. apply holds_each. intros i Hi. rewrite Forall_forall in H. apply H.
  apply list_elem_of_In, in_map_iff. exists i. split; [done|]. apply in_seq. lia.
Qed.

Lemma ipv6_at L b h : length (SrcAddr6 h) = 16%nat -> length (DstAddr6 h) = 16%nat -> Forall (holds b) (cvtIPv6Header L h) ->
  le_at b (IPV6_PROTO L) 1 = u8 (Proto6 h) /\ slice b (IPV6_SRC L) 16 = SrcAddr6 h /\ slice b (IPV6_DST L) 16 = DstAddr6 h.
Proof.
  intros L1 L2 H. apply Forall_cons in H as [H0 H]. rewrite Forall_concat in H. split; [by apply holds_host in H0|].
  assert (Q : forall i, (i < 16)%nat -> holds b (Bytes (IPV6_SRC L + i) [nth i (SrcAddr6 h) 0]) /\ holds b (Bytes (IPV6_DST L + i) [nth i (DstAddr6 h) 0])).
  { intros i Hi. rewrite Forall_forall in H. specialize (H [Bytes (IPV6_SRC L + i) [nth i (SrcAddr6 h) 0]; Bytes (IPV6_DST L + i) [nth i (DstAddr6 h) 0]]).
    rewrite !Forall_cons in H. destruct H as (A & B & _); [|done]. apply list_elem_of_In, in_map_iff. exists i. split; [done|]. apply in_seq. lia. }
  split; [rewrite <- (map_nth_all (SrcAddr6 h)), L1|rewrite <- (map_nth_all (DstAddr6 h)), L2]; apply holds_each; intros i Hi; by apply Q.
Qed.

Ltac holds_all := repeat match goal with
  | H : Forall (holds _) (_ :: _) |- _ => let A := fresh "A" in apply Forall_cons in H as [A H]
  | H : _ && _ = true |- _ => apply andb_prop in H as [? H]
  | H : (length _ =? _)%nat = true |- _ => apply Nat.eqb_eq in H
  end.

(** The stores of an object make what is to be found. *)
Lemma stores_view L b d n sts : data_ok d = true -> plain L d = Some (n, Some sts) -> Forall (holds b) sts -> view L b d (type_of L d).
Proof.
  intros D P H. destruct d; try discriminate D; cbn [plain] in P;
    try (injection P as <- <-; constructor; cbn [data_ok] in D;
      unfold ItemVlan_stores, cvtIPv4Header, setIPv4HdrVersionIHL, cvtUDPHeader, cvtTCPHeader, ActionCount_stores, ActionIPv4Dst_stores, ActionIPv4Src_stores,
        ActionJump_stores, ActionMeter_stores, ActionPortID_stores, ActionQueue_stores in H; cbn [app map at_off] in H; holds_all;
      first [by apply holds_bit | by apply holds_be | by apply holds_host | (by apply encap_at) | (by apply vxlan_at) | (by apply each_at)
        | (by apply ipv6_at) | (match goal with A : holds b (Bytes _ ?l), E : length ?l = 4%nat |- slice b _ _ = ?l => rewrite <- E; by apply holds_slice end)]).
  - injection P as <- <-. unfold ItemEth_stores in H. cbn [app] in H. apply Forall_cons in H as [H0 H].
    rewrite !map_app, !Forall_app in H. destruct H as (H1 & H2 & H3). apply Forall_cons in H3 as [H3 _].
    assert (M : forall o a, Forall (holds b) (map (at_off (ITEM_ETH_OFF_HDR L)) (if (0 <? length a)%nat then [setAddr o a] else [])) ->
      mac_at b (ITEM_ETH_OFF_HDR L + o) a).
    { intros o a H. apply setAddr_at. by destruct (0 <? length a)%nat. }
    constructor; [by apply holds_bit|by apply M|by apply M|by apply holds_be].
  - cbn [data_ok] in D. unfold ActionMacDst_stores, mac_stores in P. rewrite D in P. injection P as <- <-. constructor.
    apply each_at; [rewrite length_take; apply Nat.leb_le in D; lia|]. 
    destruct Mac as [|? [|? [|? [|? [|? [|? Mac]]]]]]; try discriminate D. exact H.
  - cbn [data_ok] in D. unfold ActionMacSrc_stores, mac_stores in P. rewrite D in P. injection P as <- <-. constructor.
    apply each_at; [rewrite length_take; apply Nat.leb_le in D; lia|].
    destruct Mac as [|? [|? [|? [|? [|? [|? Mac]]]]]]; try discriminate D. exact H.
Qed.

(** ** Objects and their structures *)

Section Pattern.
Variable L : Layout.
Variable malloc : gmap Z (list Z) -> Z -> Z.
Hypothesis LOk : layout_ok L = true.
(** There is memory: [malloc] gives a block that is not in use. *)
Hypothesis malloc_ok : forall h n, malloc h n <> 0 /\ h !! malloc h n = None.

(** Every structure that exists belongs to one object and has its size. *)
Record wf (s : state) : Prop := {
  wf_block : forall r o p, objs s !! r = Some o -> cptr o = Some p ->
    p <> 0 /\ exists b, heap s !! p = Some b /\ forall n sts, plain L (fields_ o) = Some (n, sts) -> length b = n;
  wf_own : forall r1 r2 o1 o2 p, objs s !! r1 = Some o1 -> objs s !! r2 = Some o2 ->
    cptr o1 = Some p -> cptr o2 = Some p -> r1 = r2
}.

(** Later states keep the objects' fields and structures. *)
Definition ext (s s' : state) : Prop :=
  forall r o, objs s !! r = Some o ->
    exists o', objs s' !! r = Some o' /\ fields_ o' = fields_ o /\ forall p, cptr o = Some p -> cptr o' = Some p.

(** [ptr] is what DPDK has to find for [i]: NULL for a type, for an object its
    structure with all its fields stored. *)
Definition describes (s : state) (i : iface) (ptr : Z) : Prop :=
  match i with
  | IType _ => ptr = 0
  | IObj r => exists o b n sts, objs s !! r = Some o /\ cptr o = Some ptr /\ heap s !! ptr = Some b /\
      plain L (fields_ o) = Some (n, Some sts) /\ length b = n /\ Forall (holds b) sts
  end.

Definition good (s : state) (i : iface) : Prop :=
  match i with
  | IType _ => True
  | IObj r => exists o, objs s !! r = Some o /\ data_ok (fields_ o) = true
  end.

(** A step that keeps everything described described. *)
Record keeps (s s' : state) : Prop := {
  k_wf : wf s';
  k_ext : ext s s';
  k_desc : forall i p, describes s i p -> describes s' i p
}.

Lemma keeps_refl s : wf s -> keeps s s.
Proof. intros W. split; [done| |done]. intros r o H. by exists o. Qed.

Lemma keeps_trans s1 s2 s3 : keeps s1 s2 -> keeps s2 s3 -> keeps s1 s3.
Proof.
  intros [_ E1 D1] [W E2 D2]. split; [done| |auto].
  intros r o H. destruct (E1 r o H) as (o1 & H1 & F1 & C1). destruct (E2 r o1 H1) as (o2 & H2 & F2 & C2).
  exists o2. split_and!; [done|congruence|auto].
Qed.

Lemma keeps_good s s' i : keeps s s' -> good s i -> good s' i.
Proof.
  intros [_ E _] G. destruct i as [t|r]; [done|]. destruct G as (o & H & D). destruct (E r o H) as (o' & H' & F & _).
  exists o'. by rewrite F.
Qed.

Lemma createOrRet_spec s r o n sts :
  wf s -> objs s !! r = Some o -> plain L (fields_ o) = Some (n, Some sts) ->
  exists s' p b, createOrRet malloc r n s = Some (p, s') /\ keeps s s' /\
    objs s' !! r = Some (mkObj (Some p) (fields_ o)) /\ heap s' !! p = Some b /\ length b = n /\
    (cptr o = None -> b = replicate n 0).
Proof.
  intros W Ho P. unfold createOrRet, get_obj. unfold bind at 1. rewrite Ho. simpl.
  destruct o as [[p|] d]; simpl in *.
  - destruct (wf_block _ W _ _ _ Ho eq_refl) as (_ & b & Hb & Hl). exists s, p, b.
    split; [done|]. split; [by apply keeps_refl|]. split_and!; [done|done|by eapply Hl|done].
  - destruct (malloc_ok (heap s) (Z.of_nat (length (replicate n 0)))) as [Np Fp].
    unfold c_new, bind, gets. set (p := malloc _ _) in *.
    rewrite (proj2 (Z.eqb_neq _ _) Np). unfold modify, ret, set_cptr, get_obj, bind; simpl. rewrite Ho. simpl.
    eexists _, p, (replicate n 0). split; [reflexivity|].
    assert (Fresh : forall r' o', objs s !! r' = Some o' -> cptr o' <> Some p).
    { intros r' o' H' C. destruct (wf_block _ W _ _ _ H' C) as (_ & b & Hb & _). congruence. }
    split; [split|].
    + split; simpl.
      * intros r' o' p' [[<- <-]|[Hr Hr']]%lookup_insert_Some C; simpl in *.
        { injection C as <-. split; [done|]. eexists. rewrite lookup_insert_eq. split; [done|].
          intros n' sts' P'. rewrite P in P'. injection P' as -> _. by rewrite length_replicate. }
        destruct (wf_block _ W _ _ _ Hr' C) as (? & b & Hb & Hl). split; [done|]. exists b.
        rewrite lookup_insert_ne; [done|]. intros ->. congruence.
      * intros r1 r2 o1 o2 p' [[<- <-]|[N1 H1]]%lookup_insert_Some [[<- <-]|[N2 H2]]%lookup_insert_Some C1 C2;
          simpl in *; [done| | |by eapply (wf_own _ W r1 r2)].
        { injection C1 as <-. by destruct (Fresh _ _ H2). }
        { injection C2 as <-. by destruct (Fresh _ _ H1). }
    + intros r' o' H'. destruct (decide (r = r')) as [<-|Nr].
      * simpl. rewrite lookup_insert_eq. eexists. split; [done|]. rewrite Ho in H'. injection H' as <-. done.
      * exists o'. simpl. by rewrite lookup_insert_ne.
    + intros [t|r'] q; [done|]. intros (o' & b & n' & sts' & H' & C & Hb & R). simpl.
      exists o', b, n', sts'. rewrite !lookup_insert_ne; [done| |].
      * intros ->. congruence.
      * intros <-. rewrite Ho in H'. injection H' as <-. done.
    + simpl. rewrite !lookup_insert_eq, length_replicate. done.
Qed.

Lemma c_store_spec s r o p b n sts :
  wf s -> objs s !! r = Some o -> cptr o = Some p -> heap s !! p = Some b -> length b = n ->
  plain L (fields_ o) = Some (n, Some sts) -> fits n (map foot sts) = true ->
  exists b', c_store p sts s = Some (tt, set_heap s (<[p := b']> (heap s))) /\
    length b' = n /\ Forall (holds b') sts /\ keeps s (set_heap s (<[p := b']> (heap s))) /\
    (forall i, Forall (fun st => ~ covers st i) sts -> b' !! i = b !! i).
Proof.
  intros W Ho C Hb Hl P F. subst n. destruct (apply_stores_spec sts b F) as (b' & A & L' & H' & O').
  exists b'. unfold c_store, bind, lift, modify. rewrite Hb, A. split; [done|]. split_and!; [done|done| |done].
  assert (Own : forall r' o', objs s !! r' = Some o' -> cptr o' = Some p -> o' = o).
  { intros r' o' H C'. assert (r' = r) as -> by by eapply (wf_own _ W). congruence. }
  split.
  - split; simpl; [|apply W]. intros r' o' q Hq C'. destruct (wf_block _ W _ _ _ Hq C') as (Nq & c & Hc & Lc).
    split; [done|]. destruct (decide (q = p)) as [->|Nqp].
    + exists b'. rewrite lookup_insert_eq. split; [done|]. rewrite (Own r' o') by done.
      intros n' sts' P'. rewrite P in P'. injection P' as <- <-. done.
    + exists c. by rewrite lookup_insert_ne.
  - intros r' o' H. by exists o'.
  - intros [t|r'] q; [done|]. intros (o' & c & n' & sts' & H & C' & Hc & P' & Lc & Hold). exists o'.
    destruct (decide (q = p)) as [->|Nqp].
    + rewrite (Own r' o') in P' by done. rewrite P in P'. injection P' as <- <-. exists b', (length b), sts.
      simpl. rewrite lookup_insert_eq, (Own r' o') by done. rewrite (Own r' o') in H by done. done.
    + exists c, n', sts'. simpl. by rewrite lookup_insert_ne.
Qed.

Lemma Reload_plain_spec s i : wf s -> good s i ->
  exists s' p, Reload_plain L malloc i s = Some (tt, s') /\ keeps s s' /\
    Pointer i s' = Some (p, s') /\ describes s' i p.
Proof.
  intros W. destruct i as [t|r]; simpl.
  - intros _. exists s, 0. split_and!; [done|by apply keeps_refl|done|done].
  - intros (o & Ho & D). destruct (plain_fits L (fields_ o) LOk D) as (n & sts & P & F).
    unfold get_obj. unfold bind at 1. rewrite Ho. simpl. rewrite P.
    destruct (createOrRet_spec s r o n sts W Ho P) as (s1 & p & b & E1 & K1 & Ho1 & Hb & Hl & _).
    rewrite (bind_some _ _ _ _ _ E1). unfold bind at 1. simpl.
    destruct (c_store_spec s1 r (mkObj (Some p) (fields_ o)) p b n sts (k_wf _ _ K1) Ho1 eq_refl Hb Hl P F)
      as (b' & E2 & L2 & H2 & K2 & _).
    rewrite E2. eexists _, p. split; [reflexivity|]. split; [by eapply keeps_trans|].
    unfold Pointer, get_obj, bind, lift. cbn [objs set_heap]. rewrite Ho1. split; [done|].
    exists (mkObj (Some p) (fields_ o)), b', n, sts. split_and!; [done|done|apply lookup_insert_eq|done..].
Qed.

Lemma opt_reload_spec s i : wf s -> (forall j, i = Some j -> good s j) ->
  exists s' p, opt_reload L malloc i s = Some (p, s') /\ keeps s s' /\
    match i with None => p = 0 | Some j => describes s' j p end.
Proof.
  intros W G. destruct i as [i|]; simpl; [|exists s, 0; split_and!; [done|by apply keeps_refl|done]].
  destruct (Reload_plain_spec s i W (G i eq_refl)) as (s' & p & E & K & Ep & D). exists s', p.
  by rewrite (bind_some _ _ _ _ _ E).
Qed.

(** The entry of a pattern item. *)
Definition entry_ok (s : state) (it : Item) (c : c_item) : Prop :=
  (match Spec it with
   | IType t => i_type c = u32 t
   | IObj r => exists o, objs s !! r = Some o /\ i_type c = u32 (type_of L (fields_ o))
   end) /\
  describes s (Spec it) (i_spec c) /\
  match Mask it with None => i_mask c = 0 | Some j => describes s j (i_mask c) end /\
  match Last it with None => i_last c = 0 | Some j => describes s j (i_last c) end.

Definition item_good (s : state) (it : Item) : Prop :=
  good s (Spec it) /\ (forall j, Mask it = Some j -> good s j) /\ (forall j, Last it = Some j -> good s j).

Lemma item_good_keeps s s' it : keeps s s' -> item_good s it -> item_good s' it.
Proof. intros K (A & B & C). split_and!; [by eapply keeps_good|intros j Hj; eapply keeps_good; eauto..]. Qed.

Lemma entry_ok_keeps s s' it c : keeps s s' -> entry_ok s it c -> entry_ok s' it c.
Proof.
  intros [_ E D] (T & A & B & C). split_and!.
  - destruct (Spec it) as [t|r]; [done|]. destruct T as (o & H & T). destruct (E r o H) as (o' & H' & F & _).
    exists o'. by rewrite F.
  - auto.
  - destruct (Mask it); auto.
  - destruct (Last it); auto.
Qed.

Lemma cItem_spec s it : wf s -> item_good s it ->
  exists s' c, cItem L malloc it s = Some (c, s') /\ keeps s s' /\ entry_ok s' it c.
Proof.
  intros W G. assert (T : exists typ, Type_ L (Spec it) s = Some (typ, s) /\
    match Spec it with IType t => typ = t | IObj r => exists o, objs s !! r = Some o /\ typ = type_of L (fields_ o) end).
  { destruct G as (G & _). destruct (Spec it) as [t|r]; simpl; [by exists t|]. destruct G as (o & Ho & _).
    unfold get_obj, bind, lift. rewrite Ho. eexists. split; [reflexivity|]. eauto. }
  destruct T as (typ & E0 & T). unfold cItem. rewrite (bind_some _ _ _ _ _ E0).
  destruct (Reload_plain_spec s (Spec it) W (proj1 G)) as (s1 & p & E1 & K1 & E1' & D1).
  rewrite (bind_some _ _ _ _ _ E1), (bind_some _ _ _ _ _ E1').
  apply (item_good_keeps _ _ _ K1) in G as G1.
  destruct (opt_reload_spec s1 (Mask it) (k_wf _ _ K1) (proj1 (proj2 G1))) as (s2 & m & E2 & K2 & D2).
  rewrite (bind_some _ _ _ _ _ E2). apply (item_good_keeps _ _ _ K2) in G1 as G2.
  destruct (opt_reload_spec s2 (Last it) (k_wf _ _ K2) (proj2 (proj2 G2))) as (s3 & l & E3 & K3 & D3).
  rewrite (bind_some _ _ _ _ _ E3). eexists s3, _. split; [reflexivity|].
  pose proof (keeps_trans _ _ _ K2 K3) as K23. pose proof (keeps_trans _ _ _ K1 K23) as K13. split; [done|].
  split_and!; simpl.
  - destruct (Spec it) as [t|r]; [by subst|]. destruct T as (o & Ho & ->).
    destruct (k_ext _ _ K13 r o Ho) as (o' & H' & F & _). exists o'. by rewrite F.
  - by apply (k_desc _ _ K23).
  - destruct (Mask it); [by apply (k_desc _ _ K3)|done].
  - done.
Qed.

Lemma map_cItem_spec pattern : forall s, wf s -> Forall (item_good s) pattern ->
  exists s' cs, map_M (cItem L malloc) pattern s = Some (cs, s') /\ keeps s s' /\ Forall2 (entry_ok s') pattern cs.
Proof.
  induction pattern as [|it pattern IH]; intros s W G; cbn [map_M].
  - exists s, []. split_and!; [done|by apply keeps_refl|constructor].
  - apply Forall_cons in G as [G1 G2]. destruct (cItem_spec s it W G1) as (s1 & c & E1 & K1 & O1).
    rewrite (bind_some _ _ _ _ _ E1).
    destruct (IH s1 (k_wf _ _ K1)) as (s2 & cs & E2 & K2 & O2).
    { eapply Forall_impl; [exact G2|]. intros x. by apply item_good_keeps. }
    rewrite (bind_some _ _ _ _ _ E2). exists s2, (c :: cs). split_and!; [done|by eapply keeps_trans|].
    constructor; [by eapply entry_ok_keeps|done].
Qed.

(** [cPattern] builds an array of one entry per item and END; each entry has the
    item's type and points to the structures that hold its objects' fields,
    also when one object is named many times; items given as a type have NULL. *)
Lemma cPattern_array pattern s : wf s -> Forall (item_good s) pattern ->
  exists s' cs, cPattern L malloc pattern s = Some (cs ++ [mkCItem 0 0 0 0], s') /\ keeps s s' /\
    Forall2 (entry_ok s') pattern cs.
Proof.
  intros W G. destruct (map_cItem_spec pattern s W G) as (s' & cs & E & K & O). exists s', cs.
  unfold cPattern. by rewrite (bind_some _ _ _ _ _ E).
Qed.

(** Reading a structure back. *)
Lemma holds_be16 b n o : holds b (beU16 n o) -> 0 <= n < 65536 -> be_val (take 2 (drop o b)) = n.
Proof.
  intros H Hn. unfold beU16, holds in H. pose proof (H 0%nat ltac:(simpl; lia)) as H0.
  pose proof (H 1%nat ltac:(simpl; lia)) as H1. simpl in H0, H1. rewrite Nat.add_0_r in H0. rewrite Nat.add_1_r in H1.
  rewrite (drop_S _ _ _ H0), (drop_S _ _ _ H1). rewrite !firstn_cons, firstn_O. cbn [be_val length]. rewrite Z.shiftr_div_pow2 by lia.
  change (256 ^ Z.of_nat 1) with 256. change (256 ^ Z.of_nat 0) with 1. change (2 ^ 8) with 256. zlia.
Qed.
End Pattern.

(** The pattern DPDK reads: for items whose objects have their arrays' lengths,
    [cPattern] does not panic; the array has one entry per item, in order, and
    ends in END; an entry has the item's type and points to structures that hold
    all fields of the item's objects (one structure per object, also when an
    object is named many times), NULL standing for a bare type or an absent mask
    or range. *)
Theorem cPattern_spec L malloc s pattern (LOk : layout_ok L = true)
    (Hm : forall h n, malloc h n <> 0 /\ h !! malloc h n = None) (W : wf L s)
    (G : Forall (item_good s) pattern) :
  exists s' cs, cPattern L malloc pattern s = Some (cs ++ [mkCItem 0 0 0 0], s') /\ wf L s' /\ ext s s' /\
    Forall2 (entry_ok L s') pattern cs.
Proof.
  destruct (cPattern_array L malloc LOk Hm pattern s W G) as (s' & cs & E & [W' X _] & O). exists s', cs. done.
Qed.

(** An Ethernet item with a mask, a bare type and the UDP item twice. *)
Definition flow_sample : state :=
  mkState (<[1 := mkObj None (DEth (mkItemEth false [2; 0; 0; 0; 0; 1] [] 0x0800))]>
           (<[2 := mkObj None (DUDP (mkUDPHeader 53 0 0 0))]>
            {[3 := mkObj None (DEth (mkItemEth false (replicate 6 255) [] 0xffff))]})) ∅ ∅ ∅.
Definition flow_items : list Item :=
  [mkItem (IObj 1) None (Some (IObj 3)); mkItem (IType 11) None None; mkItem (IObj 2) None (Some (IObj 2))].

Lemma flow_sample_wf : wf dpdk_layout flow_sample.
Proof.
  assert (N : forall r o, objs flow_sample !! r = Some o -> cptr o = None).
  { intros r o H. unfold flow_sample in H; simpl in H.
    repeat (apply lookup_insert_Some in H as [[_ <-]|[_ H]]; [done|]). by apply lookup_singleton_Some in H as [_ <-]. }
  split; intros; exfalso; [pose proof (N _ _ H)|pose proof (N _ _ H)]; congruence.
Qed.

Lemma cPattern_spec_witness :
  option_map (fun r => map i_type (fst r)) (cPattern dpdk_layout first_free flow_items flow_sample) = Some [9; 11; 14; 0] /\
  exists s' cs, cPattern dpdk_layout first_free flow_items flow_sample = Some (cs ++ [mkCItem 0 0 0 0], s') /\
    wf dpdk_layout s' /\ ext flow_sample s' /\ Forall2 (entry_ok dpdk_layout s') flow_items cs.
Proof.
  split; [vm_compute; reflexivity|].
  apply (cPattern_spec dpdk_layout first_free flow_sample flow_items); [vm_compute; reflexivity|intros h n; destruct (first_free_ok h n); split; [lia|done]|apply flow_sample_wf|].
  repeat constructor; simpl; try (intros j [= <-]; simpl); eexists; (split; [vm_compute; reflexivity|reflexivity]).
Defined.

(** ** Reading structures back *)

(** The Go header of a [rte_ipv4_hdr]. *)
Definition read_IPv4Header (L : Layout) (b : list Z) : IPv4Header :=
  mkIPv4Header (le_val (slice b (IPV4_VIHL L) 1)) (le_val (slice b (IPV4_TOS L) 1)) (be_val (slice b (IPV4_LEN L) 2))
    (be_val (slice b (IPV4_ID L) 2)) (be_val (slice b (IPV4_FRAG L) 2)) (le_val (slice b (IPV4_TTL L) 1))
    (le_val (slice b (IPV4_PROTO L) 1)) (be_val (slice b (IPV4_CKSUM L) 2))
    (slice b (IPV4_SRC L) 4) (slice b (IPV4_DST L) 4).

Definition ipv4_range (h : IPv4Header) : Prop :=
  Forall (fun x => 0 <= x < 256) [VersionIHL h; ToS h; TTL h; Proto h] /\
  Forall (fun x => 0 <= x < 65536) [TotalLength h; ID h; FragmentOffset h; Checksum h].

(** The header DPDK gets is the Go header in network order: from a structure
    of any previous contents, [cvtIPv4Header] makes one that reads back as the
    header. *)
Theorem cvtIPv4Header_roundtrip L h b (LOk : layout_ok L = true) (D : data_ok (DIPv4 h) = true)
    (R : ipv4_range h) (Hb : length b = sizeof_item_ipv4 L) :
  exists b', apply_stores (cvtIPv4Header L h) b = Some b' /\ length b' = length b /\ read_IPv4Header L b' = h.
Proof.
  destruct (plain_fits L (DIPv4 h) LOk D) as (n & sts & P & F). simpl in P. injection P as <- <-.
  rewrite <- Hb in F. destruct (apply_stores_spec _ _ F) as (b' & E & Lb & H & _). exists b'. split_and!; [done|done|].
  destruct R as [R1 R2]. destruct h as [vihl tos tl i fo ttl pr ck sa da]. unfold cvtIPv4Header, setIPv4HdrVersionIHL in H.
  cbn [VersionIHL ToS TTL Proto TotalLength ID FragmentOffset Checksum SrcAddr DstAddr data_ok] in *.
  rewrite !Forall_cons in H. rewrite !Forall_cons in R1. rewrite !Forall_cons in R2. destruct H as (H1 & H2 & H3 & H4 & H5 & H6 & H7 & H8 & H9 & H10 & _).
  destruct R1 as (? & ? & ? & ? & _), R2 as (? & ? & ? & ? & _).
  apply andb_prop in D as [D1 D2]. apply Nat.eqb_eq in D1, D2.
  apply holds_slice in H9, H10. rewrite D1 in H9. rewrite D2 in H10. unfold read_IPv4Header.
  rewrite H9, H10, (holds_host1 _ vihl), (holds_host1 _ tos), (holds_host1 _ ttl), (holds_host1 _ pr) by done.
  unfold slice. rewrite (holds_be16 _ tl), (holds_be16 _ i), (holds_be16 _ fo), (holds_be16 _ ck) by done. done.
Qed.

Lemma cvtIPv4Header_roundtrip_witness :
  let h := mkIPv4Header 0x45 0 1500 7 0x4000 64 17 0xabcd [10; 0; 0; 1] [10; 0; 0; 2] in
  exists b', apply_stores (cvtIPv4Header dpdk_layout h) (replicate 20 0xff) = Some b' /\ length b' = 20%nat /\
    read_IPv4Header dpdk_layout b' = h.
Proof.
  apply (cvtIPv4Header_roundtrip dpdk_layout _ (replicate 20 0xff)); [vm_compute; reflexivity|reflexivity| |reflexivity].
  split; repeat constructor; simpl; lia.
Defined.

(** ** The VXLAN network identifier *)

(** The identifier a VXLAN header has at these three bytes, network order. *)
Definition read_vni (L : Layout) (b : list Z) : Z := be_val (slice b (VXLAN_VNI L) 3).

Lemma vni_bytes v : 0 <= v < 2 ^ 24 -> take 3 (le_bytes 4 v) = [v mod 256; v / 256 mod 256; v / 65536].
Proof. intros H. simpl. repeat f_equal; zlia. Qed.

Lemma encap_fields L v b : holds b (Bytes (VXLAN_VNI L + 2) [u8 v]) ->
  holds b (Bytes (VXLAN_VNI L + 1) [u8 (Z.shiftr v 8)]) -> holds b (Bytes (VXLAN_VNI L + 0) [u8 (Z.shiftr v 16)]) ->
  0 <= v < 2 ^ 24 -> read_vni L b = v.
Proof.
  intros H0 H1 H2 Hv. set (o := VXLAN_VNI L) in *.
  specialize (H0 0%nat ltac:(simpl; lia)). specialize (H1 0%nat ltac:(simpl; lia)). specialize (H2 0%nat ltac:(simpl; lia)).
  simpl in H0, H1, H2. rewrite ?Nat.add_0_r in *. unfold read_vni, slice. fold o.
  rewrite (drop_S _ _ _ H2). rewrite (drop_S b (u8 (Z.shiftr v 8)) (S o)) by (rewrite <- H1; f_equal; lia).
  rewrite (drop_S b (u8 v) (S (S o))) by (rewrite <- H0; f_equal; lia).
  rewrite !firstn_cons, firstn_O. cbn [be_val length].
  change (256 ^ Z.of_nat 2) with 65536. change (256 ^ Z.of_nat 1) with 256. change (256 ^ Z.of_nat 0) with 1.
  rewrite !Z.shiftr_div_pow2 by lia. change (2 ^ 16) with 65536. change (2 ^ 8) with 256. zlia.
Qed.

(** Of the two VXLAN items, [ItemVXLAN2] writes the identifier in network
    order, [ItemVXLAN] its bytes as they lie in memory: DPDK sees a byte-swapped
    identifier, the right one only if it reads the same from both ends. *)
Theorem ItemVXLAN_byte_order L v b (LOk : layout_ok L = true) (Hb : length b = sizeof_item_vxlan L)
    (Hv : 0 <= v < 2 ^ 24) :
  exists b1 b2, apply_stores (ItemVXLAN_stores L v) b = Some b1 /\ apply_stores (ItemVXLAN2_stores L v) b = Some b2 /\
    read_vni L b2 = v /\ read_vni L b1 = (v mod 256) * 65536 + v / 256 mod 256 * 256 + v / 65536 /\
    (read_vni L b1 = v <-> v mod 256 = v / 65536).
Proof.
  destruct (plain_fits L (DVXLAN v) LOk eq_refl) as (n & sts & P & F). simpl in P. injection P as <- <-.
  rewrite <- Hb in F. destruct (apply_stores_spec _ _ F) as (b1 & E1 & _ & H1 & _).
  destruct (plain_fits L (DVXLAN2 v) LOk eq_refl) as (n & sts & P & F2). simpl in P. injection P as <- <-.
  rewrite <- Hb in F2. destruct (apply_stores_spec _ _ F2) as (b2 & E2 & _ & H2 & _).
  exists b1, b2. split_and!; [done|done| | |].
  - unfold ItemVXLAN2_stores, encap in H2. cbn [seq map] in H2. rewrite !Forall_cons in H2.
    destruct H2 as (A & B & C & _). eapply encap_fields; done.
  - unfold ItemVXLAN_stores in H1. rewrite vni_bytes in H1 by done. apply Forall_cons in H1 as [H1 _].
    apply holds_slice in H1. unfold read_vni. simpl length in H1. rewrite H1. simpl be_val. zlia.
  - unfold ItemVXLAN_stores in H1. rewrite vni_bytes in H1 by done. apply Forall_cons in H1 as [H1 _].
    apply holds_slice in H1. unfold read_vni. simpl length in H1. rewrite H1. simpl be_val. zlia.
Qed.

Lemma ItemVXLAN_byte_order_witness :
  exists b1 b2, apply_stores (ItemVXLAN_stores dpdk_layout 0x010203) (replicate 8 0) = Some b1 /\
    apply_stores (ItemVXLAN2_stores dpdk_layout 0x010203) (replicate 8 0) = Some b2 /\
    read_vni dpdk_layout b2 = 0x010203 /\ read_vni dpdk_layout b1 = 0x030201.
Proof.
  destruct (ItemVXLAN_byte_order dpdk_layout 0x010203 (replicate 8 0)) as (b1 & b2 & E1 & E2 & R2 & R1 & _);
    [vm_compute; reflexivity|reflexivity|lia|].
  exists b1, b2. split_and!; [exact E1|exact E2|exact R2|exact R1].
Defined.

(** ** An address that does not go away *)

Lemma disjoint_not_covers o n sts k : forallb (disjoint_foot (o, n)) (map foot sts) = true -> (o <= k < o + n)%nat ->
  Forall (fun st => ~ covers st k) sts.
Proof.
  intros D Hk. rewrite forallb_forall in D. apply Forall_forall. intros st Hst.
  specialize (D (foot st) ltac:(apply in_map; by apply list_elem_of_In)). unfold covers.
  apply orb_true_iff in D as [D|D]; apply Nat.leb_le in D; simpl in D; lia.
Qed.

(** Removing the address of an Ethernet item does not remove it from the
    structure: [Reload] after [Src] was emptied leaves the bytes of the old
    address, and DPDK still matches it. *)
Theorem ItemEth_stale_src L item item' b b1 (LOk : layout_ok L = true) (Hb : length b = sizeof_item_eth L)
    (H6 : length (Src item) = 6%nat) (Hs : Src item' = [])
    (H1 : apply_stores (ItemEth_stores L item) b = Some b1) :
  exists b2, apply_stores (ItemEth_stores L item') b1 = Some b2 /\
    slice b2 (ITEM_ETH_OFF_HDR L + ETHER_HDR_OFF_SRC L) 6 = Src item.
Proof.
  destruct (plain_fits L (DEth item) LOk eq_refl) as (n & sts & P & F). simpl in P. injection P as <- <-.
  rewrite <- Hb in F. destruct (apply_stores_spec _ _ F) as (b1' & E1 & L1 & S1 & _).
  rewrite H1 in E1. injection E1 as <-.
  (* an item with the old source and the other fields of the new one fits, so the new stores miss the source *)
  set (i2 := mkItemEth (HasVlan item') (Src item) (Dst item') (EtherType item')).
  destruct (plain_fits L (DEth i2) LOk eq_refl) as (n & sts & P & F2). simpl in P. injection P as <- <-.
  destruct (plain_fits L (DEth item') LOk eq_refl) as (n & sts & P & F3). simpl in P. injection P as <- <-.
  rewrite <- Hb, <- L1 in F2, F3. destruct (apply_stores_spec _ _ F3) as (b2 & E2 & _ & _ & O2).
  exists b2. split; [done|]. set (o := (ITEM_ETH_OFF_HDR L + ETHER_HDR_OFF_SRC L)%nat).
  assert (Old : holds b1 (Bytes o (Src item))).
  { unfold ItemEth_stores in S1. rewrite H6 in S1. simpl in S1. rewrite !Forall_cons in S1. destruct S1 as (_ & S1 & _).
    by rewrite firstn_all2 in S1 by lia. }
  rewrite <- H6. apply holds_slice. apply (holds_preserved _ b1); [|done]. intros k Hk. apply O2.
  unfold ItemEth_stores in F2 |- *. rewrite Hs. subst i2. cbn [HasVlan Src Dst EtherType] in F2. rewrite H6 in F2.
  unfold covers in Hk. simpl in Hk. rewrite H6 in Hk. simpl in F2 |- *. rewrite length_take, H6 in F2. fold o in F2.
  change (6 `min` 6)%nat with 6%nat in F2. rewrite !andb_true_iff in F2. destruct F2 as ((_ & D1 & _) & (_ & D2) & _).
  constructor; [|by apply (disjoint_not_covers o 6)]. unfold covers; simpl.
  apply orb_true_iff in D1 as [D1|D1]; apply Nat.leb_le in D1; simpl in D1; lia.
Qed.

Lemma ItemEth_stale_src_witness :
  exists b1 b2,
    apply_stores (ItemEth_stores dpdk_layout (mkItemEth false [2; 0; 0; 0; 0; 1] [] 0x0800)) (replicate 20 0) = Some b1 /\
    apply_stores (ItemEth_stores dpdk_layout (mkItemEth false [] [] 0x0800)) b1 = Some b2 /\
    slice b2 6 6 = [2; 0; 0; 0; 0; 1].
Proof.
  eexists. destruct (ItemEth_stale_src dpdk_layout (mkItemEth false [2; 0; 0; 0; 0; 1] [] 0x0800)
    (mkItemEth false [] [] 0x0800) (replicate 20 0) _ dpdk_layout_ok eq_refl eq_refl eq_refl eq_refl) as (b2 & E & S).
  exists b2. split; [reflexivity|]. split; [exact E|exact S].
Defined.

(** ** Rules *)

Section Rules.
Variable L : Layout.
Variable malloc : gmap Z (list Z) -> Z -> Z.
Variable go_new : state -> Z.
Hypothesis LOk : layout_ok L = true.
Hypothesis malloc_ok : forall h n, malloc h n <> 0 /\ h !! malloc h n = None.

Lemma Reload_good s i : good s i -> Reload L malloc go_new i s = Reload_plain L malloc i s.
Proof.
  destruct i as [t|r]; [done|]. intros (o & H & D). unfold Reload, get_obj. unfold bind at 1. rewrite H. simpl.
  by destruct (fields_ o).
Qed.

Definition action_ok (s : state) (a : iface) (c : c_action) : Prop :=
  (match a with
   | IType t => a_type c = u32 t
   | IObj r => exists o, objs s !! r = Some o /\ a_type c = u32 (type_of L (fields_ o))
   end) /\ describes L s a (a_conf c).

Lemma action_ok_keeps s s' a c : keeps L s s' -> action_ok s a c -> action_ok s' a c.
Proof.
  intros [_ E D] (T & A). split; [|auto]. destruct a as [t|r]; [done|].
  destruct T as (o & H & T). destruct (E r o H) as (o' & H' & F & _). exists o'. by rewrite F.
Qed.

Lemma cAction_spec s a : wf L s -> good s a ->
  exists s' c, cAction L (Reload L malloc go_new) a s = Some (c, s') /\ keeps L s s' /\ action_ok s' a c.
Proof.
  intros W G. assert (T : exists typ, Type_ L a s = Some (typ, s) /\
    match a with IType t => typ = t | IObj r => exists o, objs s !! r = Some o /\ typ = type_of L (fields_ o) end).
  { destruct a as [t|r]; simpl; [by exists t|]. destruct G as (o & Ho & _).
    unfold get_obj, bind, lift. rewrite Ho. eexists. split; [reflexivity|]. eauto. }
  destruct T as (typ & E0 & T). unfold cAction. rewrite (bind_some _ _ _ _ _ E0).
  destruct (Reload_plain_spec L malloc LOk malloc_ok s a W G) as (s1 & p & E1 & K1 & E1' & D1).
  rewrite <- Reload_good in E1 by done. rewrite (bind_some _ _ _ _ _ E1), (bind_some _ _ _ _ _ E1').
  eexists s1, _. split; [reflexivity|]. split; [done|]. split; [|done]. destruct a as [t|r]; simpl; [by subst|].
  destruct T as (o & Ho & ->). destruct (k_ext _ _ _ K1 r o Ho) as (o' & H' & F & _). exists o'. by rewrite F.
Qed.

Lemma map_cAction_spec acts : forall s, wf L s -> Forall (good s) acts ->
  exists s' cs, map_M (cAction L (Reload L malloc go_new)) acts s = Some (cs, s') /\ keeps L s s' /\
    Forall2 (action_ok s') acts cs.
Proof.
  induction acts as [|a acts IH]; intros s W G; cbn [map_M].
  - exists s, []. split_and!; [done|by apply keeps_refl|constructor].
  - apply Forall_cons in G as [G1 G2]. destruct (cAction_spec s a W G1) as (s1 & c & E1 & K1 & O1).
    rewrite (bind_some _ _ _ _ _ E1).
    destruct (IH s1 (k_wf _ _ _ K1)) as (s2 & cs & E2 & K2 & O2).
    { eapply Forall_impl; [exact G2|]. intros x. by apply (keeps_good L _ _ x K1). }
    rewrite (bind_some _ _ _ _ _ E2). exists s2, (c :: cs). split_and!; [done|by eapply keeps_trans|].
    constructor; [by eapply action_ok_keeps|done].
Qed.

Lemma rule_arrays s pattern acts : wf L s -> Forall (item_good s) pattern -> Forall (good s) acts ->
  exists s1 s2 pat act, cPattern L malloc pattern s = Some (pat ++ [mkCItem 0 0 0 0], s1) /\
    cActions L (Reload L malloc go_new) acts s1 = Some (act ++ [mkCAction 0 0], s2) /\ keeps L s s2 /\
    Forall2 (entry_ok L s2) pattern pat /\ Forall2 (action_ok s2) acts act.
Proof.
  intros W G1 G2. destruct (cPattern_array L malloc LOk malloc_ok pattern s W G1) as (s1 & pat & E1 & K1 & O1).
  destruct (map_cAction_spec acts s1 (k_wf _ _ _ K1)) as (s2 & act & E2 & K2 & O2).
  { eapply Forall_impl; [exact G2|]. intros x. by apply (keeps_good L _ _ x K1). }
  exists s1, s2, pat, act. split; [done|]. split; [unfold cActions; by rewrite (bind_some _ _ _ _ _ E2)|].
  split; [by eapply keeps_trans|]. split; [|done]. eapply Forall2_impl; [exact O1|]. intros it c. by apply entry_ok_keeps.
Qed.
End Rules.

(** What DPDK gets for [i] when it is called in [s'], the Go objects being those of
    [s]: a type and NULL, or the type of the object and its own structure, which
    shows the object's fields. *)
Definition seen (L : Layout) (s s' : state) (i : iface) (typ ptr : Z) : Prop :=
  match i with
  | IType t => typ = u32 t /\ ptr = 0
  | IObj r => exists d b t, fields_ <$> objs s !! r = Some d /\ objs s' !! r = Some (mkObj (Some ptr) d) /\
      heap s' !! ptr = Some b /\ view L b d t /\ typ = u32 t
  end.

(** An optional mask or bound. *)
Definition opt_seen (L : Layout) (s s' : state) (i : option iface) (ptr : Z) : Prop :=
  match i with None => ptr = 0 | Some i => exists typ, seen L s s' i typ ptr end.

Definition item_seen (L : Layout) (s s' : state) (it : Item) (c : c_item) : Prop :=
  seen L s s' (Spec it) (i_type c) (i_spec c) /\ opt_seen L s s' (Mask it) (i_mask c) /\ opt_seen L s s' (Last it) (i_last c).
Definition action_seen (L : Layout) (s s' : state) (a : iface) (c : c_action) : Prop := seen L s s' a (a_type c) (a_conf c).

Section Seen.
Variable L : Layout.
Variables s s' : state.
Hypothesis K : keeps L s s'.

Lemma describes_seen i typ p : good s i -> describes L s' i p ->
  match i with IType t => typ = u32 t | IObj r => exists o, objs s' !! r = Some o /\ typ = u32 (type_of L (fields_ o)) end ->
  seen L s s' i typ p.
Proof.
  destruct i as [t|r]; [done|]. intros (o & Ho & D) (o' & b & n & sts & Ho' & C & Hb & P & _ & H) (o2 & Ho2 & T).
  destruct (k_ext _ _ _ K r o Ho) as (o1 & H1 & F & _). rewrite Ho' in H1, Ho2. injection H1 as <-. injection Ho2 as <-.
  exists (fields_ o'), b, (type_of L (fields_ o')). split_and!; [by rewrite Ho, F| |done| |done].
  - rewrite Ho'. by destruct o' as [[q|] d]; [injection C as ->|].
  - apply (stores_view L b _ n sts); [by rewrite F|done|done].
Qed.

Lemma describes_opt i p : (forall j, i = Some j -> good s j) -> match i with None => p = 0 | Some j => describes L s' j p end -> opt_seen L s s' i p.
Proof.
  destruct i as [j|]; [|done]. intros G D. specialize (G j eq_refl). destruct j as [t|r].
  - exists (u32 t). by apply describes_seen.
  - pose proof D as (o & _ & _ & _ & Ho & _). eexists. apply describes_seen; [done|done|]. by exists o.
Qed.

Lemma rule_seen pattern acts pat act : Forall (item_good s) pattern -> Forall (good s) acts ->
  Forall2 (entry_ok L s') pattern pat -> Forall2 (action_ok L s') acts act ->
  Forall2 (item_seen L s s') pattern pat /\ Forall2 (action_seen L s s') acts act.
Proof.
  intros G1 G2 O1 O2. split.
  - induction O1 as [|it c l k (T & D & Dm & Dl) _ IH]; [constructor|]. apply Forall_cons in G1 as [(G & Gm & Gl) G1].
    constructor; [|by apply IH]. split_and!; [by apply describes_seen|by apply describes_opt|by apply describes_opt].
  - induction O2 as [|it c l k (T & D) _ IH]; [constructor|]. apply Forall_cons in G2 as [G G2].
    constructor; [by apply describes_seen|by apply IH].
Qed.
End Seen.


(** A driver that refuses transfer rules with [ENOTSUP]. *)
Definition sample_driver (port : Z) (a : c_attr) (pat : list c_item) (act : list c_action) (s : state) : Z * Z :=
  if transfer a =? 1 then (0, 95) else (4096, 0).

