(* ===== verification/FlowRss.v ===== *)
(** * Flow rules: the memory of an RSS action

    An [ActionRSS] owns a C structure, a queue array and a key. [Reload] may run
    any number of times with other queues and keys: it gives DPDK the current
    ones and frees the replaced ones, and the finalizer gives back the heap the
    action started from. *)

From Stdlib Require Import ZArith Lia.
From stdpp Require Import base list numbers option gmap.
From S2P Require Import Prelude Errno Flow FlowSpec.

Open Scope Z_scope.
Open Scope go_scope.

(** The heap with a block at [p], if [p] is not NULL. *)
Definition own (p : Z) (b : list Z) (h : gmap Z (list Z)) : gmap Z (list Z) := if p =? 0 then h else <[p := b]> h.

Definition free_in (p : Z) (h : gmap Z (list Z)) : Prop := p <> 0 -> h !! p = None.

Lemma own_0 b h : own 0 b h = h.
Proof. done. Qed.

Lemma own_pos p b h : p <> 0 -> own p b h = <[p := b]> h.
Proof. intros H. unfold own. by rewrite (proj2 (Z.eqb_neq _ _) H). Qed.

Lemma own_comm p q b c h : (p <> 0 -> p <> q) -> own p b (own q c h) = own q c (own p b h).
Proof.
  intros H. unfold own. destruct (Z.eqb_spec p 0), (Z.eqb_spec q 0); try done. by rewrite insert_insert_ne by auto.
Qed.

Lemma own_lookup_ne p q b h : p <> q -> own p b h !! q = h !! q.
Proof. intros H. unfold own. destruct (p =? 0); [done|]. by rewrite lookup_insert_ne. Qed.

(** Two fields of a structure that fits. *)
Lemma fits_range n fs : forall i f, fits n fs = true -> fs !! i = Some f -> (fst f + snd f <= n)%nat.
Proof.
  induction fs as [|g fs IH]; intros [|i] f F H; simpl in F, H; try done;
    apply andb_prop in F as [F F3]; apply andb_prop in F as [F1 _]; [|by eapply IH].
  injection H as <-. by apply Nat.leb_le.
Qed.

Lemma fits_pair n fs : forall i j f g, fits n fs = true -> (i < j)%nat -> fs !! i = Some f -> fs !! j = Some g ->
  (fst f + snd f <= fst g \/ fst g + snd g <= fst f)%nat.
Proof.
  induction fs as [|h fs IH]; intros [|i] [|j] f g F Hij Hf Hg; simpl in F, Hf, Hg; try done; try lia;
    apply andb_prop in F as [F F3]; apply andb_prop in F as [_ F2].
  - injection Hf as <-. rewrite forallb_forall in F2.
    specialize (F2 g ltac:(apply list_elem_of_In; by eapply list_elem_of_lookup_2)).
    apply orb_true_iff in F2. by rewrite !Nat.leb_le in F2.
  - apply (IH i j); try done. lia.
Qed.

Lemma fits2 n f g : (fst f + snd f <= n)%nat -> (fst g + snd g <= n)%nat ->
  (fst f + snd f <= fst g \/ fst g + snd g <= fst f)%nat -> fits n [f; g] = true.
Proof.
  intros A B C. simpl. unfold disjoint_foot. rewrite !andb_true_r. rewrite !andb_true_iff, orb_true_iff, !Nat.leb_le. tauto.
Qed.

Lemma fits3 n f g h : (fst f + snd f <= n)%nat -> (fst g + snd g <= n)%nat -> (fst h + snd h <= n)%nat ->
  (fst f + snd f <= fst g \/ fst g + snd g <= fst f)%nat -> (fst f + snd f <= fst h \/ fst h + snd h <= fst f)%nat ->
  (fst g + snd g <= fst h \/ fst h + snd h <= fst g)%nat -> fits n [f; g; h] = true.
Proof.
  intros A B C D E G. simpl. unfold disjoint_foot. rewrite !andb_true_r.
  rewrite !andb_true_iff, !orb_true_iff, !Nat.leb_le. tauto.
Qed.

Lemma size_insert_le p (b : list Z) (h : gmap Z (list Z)) : (size (<[p := b]> h) <= S (size h))%nat.
Proof.
  destruct (h !! p) as [c|] eqn:E; [rewrite map_size_insert_Some by eauto|rewrite map_size_insert_None by done]; lia.
Qed.

Lemma size_own_le p b h : (size (own p b h) <= S (size h))%nat.
Proof. unfold own. destruct (p =? 0); [lia|apply size_insert_le]. Qed.

Section Rss.
Variable L : Layout.
Variable malloc : gmap Z (list Z) -> Z -> Z.
Hypothesis LOk : layout_ok L = true.
(** [malloc] gives a block that is not in use, while there are not too many. *)
Hypothesis malloc_ok : forall h n, Z.of_nat (size h) < 2 ^ 32 -> 0 < malloc h n < 2 ^ 64 /\ h !! malloc h n = None.

(** The fields of [rte_flow_action_rss]: disjoint and inside. *)
Lemma rss_fits : fits (sizeof_action_rss L)
  [(RSS_FUNC L, 4); (RSS_LEVEL L, 4); (RSS_TYPES L, 8); (RSS_KEY_LEN L, 4); (RSS_QUEUE_NUM L, 4);
   (RSS_KEY L, 8); (RSS_QUEUE L, 8)]%nat = true.
Proof. unfold layout_ok in LOk. by apply andb_prop in LOk as [_ ?]. Qed.

Lemma holds_le b v n o : holds b (host n v o) -> 0 <= v < 256 ^ Z.of_nat n -> le_val (slice b o n) = v.
Proof.
  intros H Hv. apply holds_slice in H. rewrite length_le_bytes in H. rewrite H, le_val_bytes. by apply Z.mod_small.
Qed.

(** One array: [p] has block [b], whose pointer at [off_ptr] is [q]. *)
Lemma rss_array_spec s p b q qb h n bytes on op :
  Z.of_nat (size h) + 2 < 2 ^ 32 ->
  heap s = <[p := b]> (own q qb h) -> h !! p = None -> q <> p -> free_in q h -> le_val (slice b op 8) = q ->
  fits (length b) [(on, 4); (op, 8)]%nat = true -> (0 < n)%nat ->
  exists s' b' c, rss_array malloc p n bytes on op s = Some (tt, s') /\ objs s' = objs s /\
    heap s' = <[p := b']> (own c bytes h) /\ c <> p /\ 0 < c < 2 ^ 64 /\ h !! c = None /\
    length b' = length b /\ holds b' (host 4 (Z.of_nat n) on) /\ holds b' (host 8 c op) /\
    (forall i, ~ covers (host 4 (Z.of_nat n) on) i -> ~ covers (host 8 c op) i -> b' !! i = b !! i).
Proof.
  intros Room Hh Hp Nq Fq Hq F Hn. unfold rss_array. rewrite (proj2 (Nat.ltb_lt _ _) Hn).
  destruct (malloc_ok (heap s) (Z.of_nat (length bytes))) as [Rc Fc].
  { rewrite Hh. pose proof (size_insert_le p b (own q qb h)). pose proof (size_own_le q qb h). lia. }
  set (c := malloc _ _) in *.
  assert (E1 : c_new malloc bytes s = Some (c, set_heap s (<[c := bytes]> (heap s)))).
  { unfold c_new, bind, gets. fold c. rewrite (proj2 (Z.eqb_neq c 0)) by lia. done. }
  rewrite (bind_some _ _ _ _ _ E1).
  rewrite Hh in Fc. rewrite lookup_insert_None in Fc. destruct Fc as [Fc Ncp].
  assert (Hc : h !! c = None /\ c <> q).
  { unfold own in Fc. destruct (Z.eqb_spec q 0); [split; [done|lia]|]. apply lookup_insert_None in Fc as [? ?]. split; [done|congruence]. }
  destruct Hc as [Hc Ncq].
  set (s1 := set_heap s _). assert (H1 : heap s1 = <[c := bytes]> (<[p := b]> (own q qb h))) by (simpl; by rewrite Hh).
  assert (E2 : c_load p op 8 s1 = Some (q, s1)).
  { unfold c_load, bind, lift. rewrite H1, lookup_insert_ne, lookup_insert_eq by congruence. unfold ret.
    fold (slice b op 8). by rewrite Hq. }
  rewrite (bind_some _ _ _ _ _ E2).
  assert (E3 : c_free q s1 = Some (tt, set_heap s1 (<[c := bytes]> (<[p := b]> h)))).
  { unfold c_free. destruct (Z.eqb_spec q 0) as [->|N0]; [unfold ret; do 2 f_equal; by rewrite <- (own_0 qb h), <- H1; destruct s|].
    unfold bind, lift, modify. rewrite H1, own_pos by done.
    rewrite !lookup_insert_ne, lookup_insert_eq by congruence. do 3 f_equal.
    rewrite H1, own_pos, !delete_insert_ne, delete_insert_id by (done || by apply Fq). done. }
  rewrite (bind_some _ _ _ _ _ E3).
  destruct (apply_stores_spec [host 4 (Z.of_nat n) on; host 8 c op] b) as (b' & E4 & Lb & Hs & O).
  { unfold host. cbn [map foot]. by rewrite !length_le_bytes. }
  unfold c_store, bind, lift, modify. cbn [heap set_heap].
  rewrite lookup_insert_ne, lookup_insert_eq by congruence. rewrite E4. apply Forall_cons in Hs as [S1 Hs].
  apply Forall_cons in Hs as [S2 _]. eexists _, b', c. split; [reflexivity|]. split_and!; try done; try lia; try congruence.
  - simpl. rewrite own_pos by lia. rewrite (insert_insert_ne _ c p) by congruence. by rewrite !insert_insert_eq.
  - intros i N1 N2. apply O. by repeat constructor.
Qed.

(** The structure [p] of the action [r], its blocks and the rest of the heap. *)
Definition rss_owns (h : gmap Z (list Z)) (r : Z) (s : state) (p : Z) (b : list Z) (q : Z) (qb : list Z) (k : Z) (kb : list Z) : Prop :=
  (exists d, objs s !! r = Some (mkObj (Some p) d)) /\
  heap s = <[p := b]> (own q qb (own k kb h)) /\ length b = sizeof_action_rss L /\
  le_val (slice b (RSS_QUEUE L) 8) = q /\ le_val (slice b (RSS_KEY L) 8) = k /\
  p <> 0 /\ h !! p = None /\ q <> p /\ k <> p /\ (q <> 0 -> q <> k) /\ free_in q h /\ free_in k h.

Lemma slice_same b b' o n : length b' = length b -> (forall i, (o <= i < o + n)%nat -> b' !! i = b !! i) -> slice b' o n = slice b o n.
Proof.
  intros Hl E. unfold slice. apply list_eq. intros i. destruct (Nat.lt_ge_cases i n).
  - rewrite !lookup_take_lt, !lookup_drop by done. apply E. lia.
  - by rewrite !lookup_take_ge.
Qed.

(** The scalar fields and the arrays' fields are apart. *)
Lemma rss_scalars_apart i o n :
  In (o, n) [(RSS_KEY_LEN L, 4); (RSS_QUEUE_NUM L, 4); (RSS_KEY L, 8); (RSS_QUEUE L, 8)]%nat -> (o <= i < o + n)%nat ->
  ~ (RSS_LEVEL L <= i < RSS_LEVEL L + 4)%nat /\ ~ (RSS_TYPES L <= i < RSS_TYPES L + 8)%nat /\
  ~ (RSS_FUNC L <= i < RSS_FUNC L + 4)%nat.
Proof.
  pose proof rss_fits as F. intros Hin Hi.
  assert (J : exists j, (2 < j)%nat /\ [(RSS_FUNC L, 4); (RSS_LEVEL L, 4); (RSS_TYPES L, 8); (RSS_KEY_LEN L, 4);
    (RSS_QUEUE_NUM L, 4); (RSS_KEY L, 8); (RSS_QUEUE L, 8)]%nat !! j = Some (o, n)).
  { destruct Hin as [<-|[<-|[<-|[<-|[]]]]]; [exists 3%nat|exists 4%nat|exists 5%nat|exists 6%nat]; split; (lia || done). }
  destruct J as (j & Hj & Lj).
  pose proof (fits_pair _ _ 0%nat j _ _ F ltac:(lia) eq_refl Lj). pose proof (fits_pair _ _ 1%nat j _ _ F ltac:(lia) eq_refl Lj).
  pose proof (fits_pair _ _ 2%nat j _ _ F ltac:(lia) eq_refl Lj). cbn [fst snd] in *. lia.
Qed.

(** Which fields are apart. *)
Lemma rss_apart :
  fits (sizeof_action_rss L) [(RSS_QUEUE_NUM L, 4); (RSS_QUEUE L, 8)]%nat = true /\
  fits (sizeof_action_rss L) [(RSS_KEY_LEN L, 4); (RSS_KEY L, 8)]%nat = true /\
  fits (sizeof_action_rss L) [(RSS_LEVEL L, 4); (RSS_TYPES L, 8); (RSS_FUNC L, 4)]%nat = true /\
  forall i, (RSS_KEY_LEN L <= i < RSS_KEY_LEN L + 4)%nat \/ (RSS_KEY L <= i < RSS_KEY L + 8)%nat ->
    ~ (RSS_QUEUE_NUM L <= i < RSS_QUEUE_NUM L + 4)%nat /\ ~ (RSS_QUEUE L <= i < RSS_QUEUE L + 8)%nat.
Proof.
  pose proof rss_fits as F.
  assert (R : forall i f, [(RSS_FUNC L, 4); (RSS_LEVEL L, 4); (RSS_TYPES L, 8); (RSS_KEY_LEN L, 4); (RSS_QUEUE_NUM L, 4);
    (RSS_KEY L, 8); (RSS_QUEUE L, 8)]%nat !! i = Some f -> (fst f + snd f <= sizeof_action_rss L)%nat) by (intros; by eapply fits_range).
  assert (D : forall i j f g, (i < j)%nat -> [(RSS_FUNC L, 4); (RSS_LEVEL L, 4); (RSS_TYPES L, 8); (RSS_KEY_LEN L, 4); (RSS_QUEUE_NUM L, 4);
    (RSS_KEY L, 8); (RSS_QUEUE L, 8)]%nat !! i = Some f -> [(RSS_FUNC L, 4); (RSS_LEVEL L, 4); (RSS_TYPES L, 8); (RSS_KEY_LEN L, 4); (RSS_QUEUE_NUM L, 4);
    (RSS_KEY L, 8); (RSS_QUEUE L, 8)]%nat !! j = Some g -> (fst f + snd f <= fst g \/ fst g + snd g <= fst f)%nat)
    by (intros; by eapply fits_pair).
  split_and!.
  - apply fits2; [by apply (R 4%nat)|by apply (R 6%nat)|by apply (D 4%nat 6%nat); [lia|..]].
  - apply fits2; [by apply (R 3%nat)|by apply (R 5%nat)|by apply (D 3%nat 5%nat); [lia|..]].
  - apply fits3; [by apply (R 1%nat)|by apply (R 2%nat)|by apply (R 0%nat)|by apply (D 1%nat 2%nat); [lia|..]| |];
      apply or_comm; [by apply (D 0%nat 1%nat); [lia|..]|by apply (D 0%nat 2%nat); [lia|..]].
  - intros i Hi.
    pose proof (D 3%nat 4%nat _ _ ltac:(lia) eq_refl eq_refl) as D34. pose proof (D 3%nat 6%nat _ _ ltac:(lia) eq_refl eq_refl) as D36.
    pose proof (D 4%nat 5%nat _ _ ltac:(lia) eq_refl eq_refl) as D45. pose proof (D 5%nat 6%nat _ _ ltac:(lia) eq_refl eq_refl) as D56.
    clear F R D. cbn [fst snd] in *. lia.
Qed.

(** The array behind [q] after a [Reload] that sets [n] values with these bytes;
    nothing changes for none. *)
Definition array_set (b : list Z) (n : nat) (bytes : list Z) (on : nat) (q : Z) (qb : list Z) (q0 : Z) (qb0 : list Z) : Prop :=
  if (0 <? n)%nat then q <> 0 /\ qb = bytes /\ le_val (slice b on 4) = Z.of_nat n else q = q0 /\ qb = qb0.

Lemma queue_step h r s p b q qb k kb n bytes :
  rss_owns h r s p b q qb k kb -> Z.of_nat (size h) + 3 < 2 ^ 32 -> Z.of_nat n < 2 ^ 32 ->
  exists s' b' q' qb', rss_array malloc p n bytes (RSS_QUEUE_NUM L) (RSS_QUEUE L) s = Some (tt, s') /\
    objs s' = objs s /\ rss_owns h r s' p b' q' qb' k kb /\ array_set b' n bytes (RSS_QUEUE_NUM L) q' qb' q qb.
Proof.
  intros O Room Hn. unfold array_set. destruct (Nat.ltb_spec 0 n) as [P|P].
  2: { exists s, b, q, qb. unfold rss_array. by rewrite (proj2 (Nat.ltb_ge _ _) P). }
  destruct O as (Ho & Hh & Hl & Sq & Sk & Np & Fp & Nq & Nk & Nqk & Fq & Fk).
  destruct rss_apart as (F1 & _ & _ & Ap).
  destruct (rss_array_spec s p b q qb (own k kb h) n bytes (RSS_QUEUE_NUM L) (RSS_QUEUE L))
    as (s' & b' & c & E & Eo & Eh & Ncp & Rc & Fc & Lb & H1 & H2 & O'); try done.
  { pose proof (size_own_le k kb h). lia. }
  { by rewrite own_lookup_ne. }
  { intros Q. rewrite own_lookup_ne by (apply not_eq_sym; auto). auto. }
  { by rewrite Hl. }
  exists s', b', c, bytes. split; [done|]. split; [done|].
  assert (Fc' : h !! c = None /\ (c <> 0 -> c <> k)).
  { unfold own in Fc. destruct (Z.eqb_spec k 0); [split; [done|lia]|]. apply lookup_insert_None in Fc as [? ?]. split; [done|congruence]. }
  split.
  - split; [by rewrite Eo|]. split_and!; try done; try congruence; try lia; try (by apply Fc').
    + apply (holds_le _ c 8 _ H2). change (256 ^ Z.of_nat 8) with (2 ^ 64). lia.
    + rewrite (slice_same b b'); [done|done|]. intros i Hi. destruct (Ap i) as [A1 A2]; [by right|].
      apply O'; unfold covers, host; cbn [foot fst snd]; by rewrite length_le_bytes.
    + intros _. apply Fc'.
  - split_and!; [lia|done|]. apply (holds_le _ (Z.of_nat n) 4 _ H1). change (256 ^ Z.of_nat 4) with (2 ^ 32). lia.
Qed.

(** Seen from the key, the two arrays are alike. *)
Lemma key_step h r s p b q qb k kb n bytes :
  rss_owns h r s p b q qb k kb -> Z.of_nat (size h) + 3 < 2 ^ 32 -> Z.of_nat n < 2 ^ 32 ->
  exists s' b' k' kb', rss_array malloc p n bytes (RSS_KEY_LEN L) (RSS_KEY L) s = Some (tt, s') /\
    objs s' = objs s /\ rss_owns h r s' p b' q qb k' kb' /\ array_set b' n bytes (RSS_KEY_LEN L) k' kb' k kb /\
    slice b' (RSS_QUEUE_NUM L) 4 = slice b (RSS_QUEUE_NUM L) 4.
Proof.
  intros O Room Hn. unfold array_set. destruct (Nat.ltb_spec 0 n) as [P|P].
  2: { exists s, b, k, kb. unfold rss_array. by rewrite (proj2 (Nat.ltb_ge _ _) P). }
  destruct O as (Ho & Hh & Hl & Sq & Sk & Np & Fp & Nq & Nk & Nqk & Fq & Fk).
  destruct rss_apart as (_ & F1 & _ & Ap). rewrite own_comm in Hh by done.
  destruct (rss_array_spec s p b k kb (own q qb h) n bytes (RSS_KEY_LEN L) (RSS_KEY L))
    as (s' & b' & c & E & Eo & Eh & Ncp & Rc & Fc & Lb & H1 & H2 & O'); try done.
  { pose proof (size_own_le q qb h). lia. }
  { by rewrite own_lookup_ne. }
  { intros Q. destruct (Z.eq_dec q 0) as [->|Q0]; [by apply Fk|]. rewrite own_lookup_ne by auto. auto. }
  { by rewrite Hl. }
  assert (Fc' : h !! c = None /\ (q <> 0 -> q <> c)).
  { unfold own in Fc. destruct (Z.eqb_spec q 0); [split; [done|lia]|]. apply lookup_insert_None in Fc as [? ?]. done. }
  assert (Keep : forall o l, (forall i, (o <= i < o + l)%nat ->
      ~ ((RSS_KEY_LEN L <= i < RSS_KEY_LEN L + 4)%nat \/ (RSS_KEY L <= i < RSS_KEY L + 8)%nat)) ->
    slice b' o l = slice b o l).
  { intros o l A. apply slice_same; [done|]. intros i Hi. specialize (A i Hi).
    apply O'; unfold covers, host; cbn [foot fst snd]; rewrite length_le_bytes; tauto. }
  exists s', b', c, bytes. split; [done|]. split; [done|]. split; [|split].
  - split; [by rewrite Eo|]. split_and!; try done; try congruence; try lia; try (by apply Fc').
    + rewrite own_comm by (apply Fc'). done.
    + rewrite Keep; [done|]. intros i Hi A. destruct (Ap i A). lia.
    + apply (holds_le _ c 8 _ H2). change (256 ^ Z.of_nat 8) with (2 ^ 64). lia.
    + intros _. apply Fc'.
  - split_and!; [lia|done|]. apply (holds_le _ (Z.of_nat n) 4 _ H1). change (256 ^ Z.of_nat 4) with (2 ^ 32). lia.
  - apply Keep. intros i Hi A. destruct (Ap i A). lia.
Qed.

Lemma scalar_step h r s p b q qb k kb level types func :
  rss_owns h r s p b q qb k kb -> 0 <= level < 2 ^ 32 -> 0 <= types < 2 ^ 64 -> 0 <= func < 2 ^ 32 ->
  exists s' b', c_store p [host 4 level (RSS_LEVEL L); host 8 types (RSS_TYPES L); host 4 func (RSS_FUNC L)] s = Some (tt, s') /\
    objs s' = objs s /\ rss_owns h r s' p b' q qb k kb /\
    le_val (slice b' (RSS_LEVEL L) 4) = level /\ le_val (slice b' (RSS_TYPES L) 8) = types /\
    le_val (slice b' (RSS_FUNC L) 4) = func /\
    slice b' (RSS_QUEUE_NUM L) 4 = slice b (RSS_QUEUE_NUM L) 4 /\ slice b' (RSS_KEY_LEN L) 4 = slice b (RSS_KEY_LEN L) 4.
Proof.
  intros (Ho & Hh & Hl & Sq & Sk & Np & Rest) Rl Rt Rf. destruct rss_apart as (_ & _ & F & _). rewrite <- Hl in F.
  destruct (apply_stores_spec [host 4 level (RSS_LEVEL L); host 8 types (RSS_TYPES L); host 4 func (RSS_FUNC L)] b F)
    as (b' & E & Lb & Hs & O). rewrite !Forall_cons in Hs. destruct Hs as (H1 & H2 & H3 & _).
  assert (Keep : forall o n, In (o, n) [(RSS_KEY_LEN L, 4); (RSS_QUEUE_NUM L, 4); (RSS_KEY L, 8); (RSS_QUEUE L, 8)]%nat ->
    slice b' o n = slice b o n).
  { intros o n Hin. apply slice_same; [done|]. intros i Hi.
    destruct (rss_scalars_apart i o n Hin Hi) as (A1 & A2 & A3). apply O.
    repeat constructor; unfold covers, host; cbn [foot fst snd]; by rewrite length_le_bytes. }
  exists (set_heap s (<[p := b']> (heap s))), b'. split; [|split; [done|split]].
  - unfold c_store, bind, lift, modify. rewrite Hh, lookup_insert_eq, E. by rewrite <- Hh.
  - split; [done|]. split_and!; try apply Rest; try congruence.
    + simpl. by rewrite Hh, insert_insert_eq.
    + rewrite Keep by (simpl; tauto). done.
    + rewrite Keep by (simpl; tauto). done.
  - split_and!; [apply (holds_le _ _ 4 _ H1)|apply (holds_le _ _ 8 _ H2)|apply (holds_le _ _ 4 _ H3)|apply Keep; simpl; tauto..];
      simpl; lia.
Qed.

Lemma slice_zeros n o k : le_val (slice (replicate n 0) o k) = 0.
Proof.
  unfold slice. rewrite drop_replicate, take_replicate. induction (k `min` (n - o))%nat as [|m IH]; [done|].
  cbn [replicate le_val]. by rewrite IH.
Qed.

(** The first [Reload] makes the structure, later ones find it. *)
Lemma rss_struct r s a :
  Z.of_nat (size (heap s)) < 2 ^ 32 ->
  objs s !! r = Some (mkObj None (DRSS a)) ->
  exists s' p, createOrRet malloc r (sizeof_action_rss L) s = Some (p, s') /\
    rss_owns (heap s) r s' p (replicate (sizeof_action_rss L) 0) 0 [] 0 [] /\
    objs s' = <[r := mkObj (Some p) (DRSS a)]> (objs s).
Proof.
  intros Room Ho. destruct (malloc_ok (heap s) (Z.of_nat (length (replicate (sizeof_action_rss L) 0))) Room) as [Rp Fp].
  unfold createOrRet, get_obj. unfold bind at 1. rewrite Ho. cbn [lift cptr]. unfold c_new, bind, gets.
  set (p := malloc _ _) in *. rewrite (proj2 (Z.eqb_neq p 0)) by lia.
  unfold modify, ret, set_cptr, get_obj, bind, lift. cbn [objs set_heap]. rewrite Ho. cbn [fields_].
  eexists _, p. split; [reflexivity|]. split; [|done]. split; [exists (DRSS a); simpl; by rewrite lookup_insert_eq|].
  split_and!; try done; try lia; [apply length_replicate|apply slice_zeros|apply slice_zeros|by intros []|by intros []].
Qed.

Lemma rss_struct_again h r s p b q qb k kb :
  rss_owns h r s p b q qb k kb -> createOrRet malloc r (sizeof_action_rss L) s = Some (p, s).
Proof. intros ((d & Ho) & _). unfold createOrRet, get_obj, bind. rewrite Ho. done. Qed.

Definition rss_range (a : ActionRSS) : Prop :=
  0 <= Level a < 2 ^ 32 /\ 0 <= Types a < 2 ^ 64 /\ 0 <= Func a < 2 ^ 32 /\
  Z.of_nat (length (Queues a)) < 2 ^ 32 /\ Z.of_nat (length (Key a)) < 2 ^ 32.

Definition queue_bytes (a : ActionRSS) : list Z := concat (map (le_bytes 2) (Queues a)).

(** What [Reload] leaves behind, from a structure with these arrays. *)
Definition rss_reloaded (h : gmap Z (list Z)) (r : Z) (a : ActionRSS) (q0 : Z) (qb0 : list Z) (k0 : Z) (kb0 : list Z)
    (s' : state) (p : Z) : Prop :=
  exists b q qb k kb, rss_owns h r s' p b q qb k kb /\
    array_set b (length (Queues a)) (queue_bytes a) (RSS_QUEUE_NUM L) q qb q0 qb0 /\
    array_set b (length (Key a)) (Key a) (RSS_KEY_LEN L) k kb k0 kb0 /\
    le_val (slice b (RSS_LEVEL L) 4) = Level a /\ le_val (slice b (RSS_TYPES L) 8) = Types a /\
    le_val (slice b (RSS_FUNC L) 4) = Func a.

Lemma rss_reload_owned h r a s s0 p b q qb k kb :
  createOrRet malloc r (sizeof_action_rss L) s0 = Some (p, s) ->
  rss_owns h r s p b q qb k kb -> Z.of_nat (size h) + 3 < 2 ^ 32 -> rss_range a ->
  exists s', ActionRSS_Reload L malloc r a s0 = Some (tt, s') /\ objs s' = objs s /\ rss_reloaded h r a q qb k kb s' p.
Proof.
  intros E0 O Room (Rl & Rt & Rf & Rq & Rk). unfold ActionRSS_Reload. rewrite (bind_some _ _ _ _ _ E0). fold (queue_bytes a).
  destruct (queue_step h r s p b q qb k kb _ (queue_bytes a) O Room Rq) as (s1 & b1 & q1 & qb1 & E1 & Eo1 & O1 & A1).
  rewrite (bind_some _ _ _ _ _ E1).
  destruct (key_step h r s1 p b1 q1 qb1 k kb _ (Key a) O1 Room Rk) as (s2 & b2 & k2 & kb2 & E2 & Eo2 & O2 & A2 & S2).
  rewrite (bind_some _ _ _ _ _ E2).
  destruct (scalar_step h r s2 p b2 q1 qb1 k2 kb2 (Level a) (Types a) (Func a) O2 Rl Rt Rf)
    as (s3 & b3 & E3 & Eo3 & O3 & V1 & V2 & V3 & S3 & S3').
  exists s3. split; [done|]. split; [congruence|]. exists b3, q1, qb1, k2, kb2. split; [done|].
  unfold array_set in *. rewrite S3, S3', S2. done.
Qed.

Lemma rss_free_owned h r s p b q qb k kb : rss_owns h r s p b q qb k kb ->
  exists s', ActionRSS_free L p s = Some (tt, s') /\ heap s' = h.
Proof.
  intros (_ & Hh & Hl & Sq & Sk & Np & Fp & Nq & Nk & Nqk & Fq & Fk).
  assert (Load : forall s1 o v, heap s1 !! p = Some b -> le_val (slice b o 8) = v -> c_load p o 8 s1 = Some (v, s1)).
  { intros s1 o v H V. unfold c_load, bind, lift. rewrite H. unfold ret. fold (slice b o 8). by rewrite V. }
  assert (Free : forall s1 x xb g, heap s1 = <[p := b]> (own x xb g) -> x <> p -> free_in x g ->
    exists s2, c_free x s1 = Some (tt, s2) /\ heap s2 = <[p := b]> g).
  { intros s1 x xb g H Nx Fx. unfold c_free. destruct (Z.eqb_spec x 0) as [->|X]; [by exists s1|].
    rewrite own_pos in H by done. unfold bind, lift, modify. rewrite H, lookup_insert_ne, lookup_insert_eq by congruence.
    eexists. split; [reflexivity|]. simpl. by rewrite H, delete_insert_ne, delete_insert_id by (congruence || auto). }
  unfold ActionRSS_free. rewrite (bind_some _ _ _ _ _ (Load s _ k ltac:(by rewrite Hh, lookup_insert_eq) Sk)).
  destruct (Free s k kb (own q qb h)) as (s1 & E1 & H1); [by rewrite <- own_comm by done|done| |].
  { intros K. destruct (Z.eq_dec q 0) as [->|]; [by apply Fk|]. rewrite own_lookup_ne by auto. auto. }
  rewrite (bind_some _ _ _ _ _ E1), (bind_some _ _ _ _ _ (Load s1 _ q ltac:(by rewrite H1, lookup_insert_eq) Sq)).
  destruct (Free s1 q qb h H1 Nq Fq) as (s2 & E2 & H2). rewrite (bind_some _ _ _ _ _ E2).
  unfold c_free. rewrite (proj2 (Z.eqb_neq p 0) Np). unfold bind, lift, modify. rewrite H2, lookup_insert_eq.
  eexists. split; [reflexivity|]. simpl. by rewrite H2, delete_insert_id.
Qed.

(** Assign the action's fields and [Reload] it, again and again. *)
Fixpoint reloads (r : Z) (l : list ActionRSS) : M state unit :=
  match l with
  | [] => ret tt
  | a :: l =>
      let! o := get_obj r in
      modify (fun s => set_objs s (<[r := mkObj (cptr o) (DRSS a)]> (objs s))) ;;
      Reload L malloc (fun _ => 0) (IObj r) ;;
      reloads r l
  end.

Lemma rss_owns_objs h r s p b q qb k kb d :
  rss_owns h r s p b q qb k kb ->
  rss_owns h r (set_objs s (<[r := mkObj (Some p) d]> (objs s))) p b q qb k kb.
Proof. intros (_ & R). split; [exists d; simpl; by rewrite lookup_insert_eq|done]. Qed.

Lemma reloads_owned h r l : forall s p b q qb k kb, rss_owns h r s p b q qb k kb ->
  Z.of_nat (size h) + 3 < 2 ^ 32 -> Forall rss_range l ->
  exists s' b' q' qb' k' kb', reloads r l s = Some (tt, s') /\ rss_owns h r s' p b' q' qb' k' kb'.
Proof.
  induction l as [|a l IH]; intros s p b q qb k kb O Room R; cbn [reloads].
  - by exists s, b, q, qb, k, kb.
  - apply Forall_cons in R as [Ra Rl]. pose proof O as ((d & Ho) & _).
    unfold get_obj. unfold bind at 1. rewrite Ho. cbn [lift cptr]. unfold bind at 1. cbn [modify].
    apply (rss_owns_objs _ _ _ _ _ _ _ _ _ (DRSS a)) in O. set (s1 := set_objs s _) in *.
    destruct (rss_reload_owned h r a s1 s1 p b q qb k kb (rss_struct_again _ _ _ _ _ _ _ _ _ O) O Room Ra)
      as (s2 & E & _ & (b2 & q2 & qb2 & k2 & kb2 & O2 & _)).
    assert (E' : Reload L malloc (fun _ => 0) (IObj r) s1 = Some (tt, s2)).
    { unfold Reload, get_obj. unfold bind at 1. unfold s1 at 1. cbn [objs set_objs]. rewrite lookup_insert_eq. exact E. }
    rewrite (bind_some _ _ _ _ _ E'). by apply (IH s2 p b2 q2 qb2 k2 kb2).
Qed.
End Rss.

(** What [Reload] of an RSS action gives DPDK, the first time and after any
    other: the current queues and key, in blocks of their own, with their
    lengths (a field emptied meanwhile keeps its old block and length), and the
    current level, types and function; a replaced block is freed. *)
Theorem ActionRSS_Reload_spec L malloc h r a s p b q qb k kb (LOk : layout_ok L = true)
    (Hm : forall h n, Z.of_nat (size h) < 2 ^ 32 -> 0 < malloc h n < 2 ^ 64 /\ h !! malloc h n = None)
    (O : rss_owns L h r s p b q qb k kb) (Room : Z.of_nat (size h) + 3 < 2 ^ 32) (Ra : rss_range a) :
  exists s', ActionRSS_Reload L malloc r a s = Some (tt, s') /\ objs s' = objs s /\
    rss_reloaded L h r a q qb k kb s' p.
Proof.
  apply (rss_reload_owned L malloc LOk Hm h r a s s p b q qb k kb); try done.
  by apply (rss_struct_again L malloc h r s p b q qb k kb).
Qed.

(** C25. An RSS action leaks no memory and frees nothing twice: from a new action,
    any number of changes of its fields, each followed by [Reload], and the
    finalizer run without a fault and give back the heap as it was. *)
Theorem ActionRSS_no_leak L malloc r a l s (LOk : layout_ok L = true)
    (Hm : forall h n, Z.of_nat (size h) < 2 ^ 32 -> 0 < malloc h n < 2 ^ 64 /\ h !! malloc h n = None)
    (Ho : objs s !! r = Some (mkObj None (DRSS a))) (Room : Z.of_nat (size (heap s)) + 3 < 2 ^ 32)
    (R : Forall rss_range (a :: l)) :
  exists s1 s2 p, reloads L malloc r (a :: l) s = Some (tt, s1) /\
    (exists d, objs s1 !! r = Some (mkObj (Some p) d)) /\
    ActionRSS_free L p s1 = Some (tt, s2) /\ heap s2 = heap s.
Proof.
  apply Forall_cons in R as [Ra Rl]. set (s0 := set_objs s (<[r := mkObj None (DRSS a)]> (objs s))).
  assert (Ho0 : objs s0 !! r = Some (mkObj None (DRSS a))) by (simpl; by rewrite lookup_insert_eq).
  destruct (rss_struct L malloc Hm r s0 a ltac:(simpl; lia) Ho0) as (s1 & p & E1 & O1 & _).
  destruct (rss_reload_owned L malloc LOk Hm (heap s0) r a s1 s0 p _ _ _ _ _ E1 O1 ltac:(simpl; lia) Ra)
    as (s2 & E2 & _ & (b & q & qb & k & kb & O2 & _)).
  destruct (reloads_owned L malloc LOk Hm (heap s0) r l s2 p b q qb k kb O2 ltac:(simpl; lia) Rl)
    as (s3 & b' & q' & qb' & k' & kb' & E3 & O3).
  destruct (rss_free_owned L (heap s0) r s3 p b' q' qb' k' kb' O3) as (s4 & E4 & Hh).
  exists s3, s4, p. split; [|split; [apply O3|done]].
  cbn [reloads]. unfold get_obj. unfold bind at 1. rewrite Ho. cbn [lift cptr]. unfold bind at 1. cbn [modify].
  fold s0. assert (E2' : Reload L malloc (fun _ => 0) (IObj r) s0 = Some (tt, s2)).
  { unfold Reload, get_obj. unfold bind at 1. rewrite Ho0. exact E2. }
  by rewrite (bind_some _ _ _ _ _ E2').
Qed.

(** A new action, and the heap of another object. *)
Definition rss_sample (a : ActionRSS) : state := mkState {[1 := mkObj None (DRSS a)]} {[1 := [7; 7]]} ∅ ∅.

Lemma first_free_rss (h : gmap Z (list Z)) n : Z.of_nat (size h) < 2 ^ 32 -> 0 < first_free h n < 2 ^ 64 /\ h !! first_free h n = None.
Proof. intros H. destruct (first_free_ok h n). split; [lia|done]. Qed.

Lemma ActionRSS_no_leak_witness :
  let a1 := mkActionRSS 1 [3; 4] [1; 2; 3] 0 5 in
  let a2 := mkActionRSS 1 [9] [] 0 5 in
  exists s1 s2 p, reloads dpdk_layout first_free 1 [a1; a2] (rss_sample a1) = Some (tt, s1) /\
    (exists d, objs s1 !! 1 = Some (mkObj (Some p) d)) /\
    ActionRSS_free dpdk_layout p s1 = Some (tt, s2) /\ heap s2 = {[1 := [7; 7]]}.
Proof.
  intros a1 a2. apply (ActionRSS_no_leak dpdk_layout first_free 1 a1 [a2] (rss_sample a1) dpdk_layout_ok first_free_rss);
    [reflexivity|vm_compute; reflexivity|].
  repeat constructor; simpl; lia.
Defined.

Lemma ActionRSS_Reload_spec_witness :
  let a1 := mkActionRSS 1 [3; 4] [1; 2; 3] 0 5 in
  let s := mkState {[1 := mkObj (Some 2) (DRSS a1)]} (<[2 := replicate 40 0]> {[1 := [7; 7]]}) ∅ ∅ in
  exists s', ActionRSS_Reload dpdk_layout first_free 1 a1 s = Some (tt, s') /\ objs s' = objs s /\
    rss_reloaded dpdk_layout {[1 := [7; 7]]} 1 a1 0 [] 0 [] s' 2.
Proof.
  intros a1 s. apply (ActionRSS_Reload_spec dpdk_layout first_free {[1 := [7; 7]]} 1 a1 s 2 (replicate 40 0) 0 [] 0 []
    dpdk_layout_ok first_free_rss).
  - split; [exists (DRSS a1); reflexivity|]. split_and!; try reflexivity; try discriminate; by intros [].
  - vm_compute. reflexivity.
  - repeat split; simpl; lia.
Defined.
