(* ===== verification/Eal.v ===== *)
(** * EAL threads: running Go functions on lcores

    [src/eal/]: every lcore has a context and a channel of jobs; its thread
    takes a job, runs the function, sends the result to the job's channel and
    takes the next, until [StopLcores]. The threads and the goroutines that
    submit jobs interleave: an [event] is one atomic action of one of them, and
    [exec] gives the state after it, [None] when the action is blocked. *)

From Stdlib Require Import ZArith Lia.
From stdpp Require Import base list numbers option gmap.
From S2P Require Import Prelude Errno.

Open Scope Z_scope.

(* go: eal/init.go lcoreJobsBuffer *)
Definition lcoreJobsBuffer : nat := 32.

Section Lcores.
(** What [ctx.Value] holds and what [panic] is given. *)
Context {V P : Type}.

(** The functions: the one of [StopLcores], which alone can set [done], and a
    user's, which changes [ctx.Value] and may panic. *)
Inductive func := User (f : V -> V * option P) | StopFn.

(** The errors of a job; [ErrLcorePanic] has the lcore and what [recover] gave. *)
(* go: eal/init.go ErrLcorePanic *)
Inductive job_error := ErrLcorePanic (LcoreID : Z) (R : P) | ErrLcoreInvalid.

(** [ret = None] is a nil channel. *)
(* go: eal/init.go lcoreJob *)
Record lcoreJob := mkJob { fn : func; ret_ : option nat }.

(** Where a thread is in its loop. *)
Inductive phase := Idle | Running (j : lcoreJob) | Replying (j : lcoreJob) (e : option job_error) | Exited.

(* go: eal/init.go LcoreCtx *)
Record LcoreCtx := mkCtx { Value : V; ch : list lcoreJob; done_ : bool; ph : phase }.

(** A result channel made with a capacity of one or more. *)
Record chan := mkChan { buf : list (option job_error); cap : nat }.

(** [goEAL.lcores], the result channels, and whether a panic ended the process. *)
(* go: eal/init.go ealConfig *)
Record ealConfig := mkEal { lcores : gmap Z LcoreCtx; chans : gmap nat chan; crashed : bool }.

Definition set_lcore (s : ealConfig) (id : Z) (c : LcoreCtx) : ealConfig :=
  mkEal (<[id := c]> (lcores s)) (chans s) (crashed s).
Definition set_chan (s : ealConfig) (c : nat) (x : chan) : ealConfig :=
  mkEal (lcores s) (<[c := x]> (chans s)) (crashed s).

(** [c <- e]. *)
Definition send (s : ealConfig) (c : nat) (e : option job_error) : option ealConfig :=
  match chans s !! c with
  | None => None
  | Some x => if (length (buf x) <? cap x)%nat then Some (set_chan s c (mkChan (buf x ++ [e]) (cap x))) else None
  end.

(* go: eal/eal.go ExecOnLcoreAsync *)
Definition ExecOnLcoreAsync (s : ealConfig) (lcoreID : Z) (ret : option nat) (f : func) : option ealConfig :=
  match lcores s !! lcoreID with
  | Some ctx =>
      if (length (ch ctx) <? lcoreJobsBuffer)%nat then
        Some (set_lcore s lcoreID (mkCtx (Value ctx) (ch ctx ++ [mkJob f ret]) (done_ ctx) (ph ctx)))
      else None
  | None =>
      match ret with
      | Some c => send s c (Some ErrLcoreInvalid)
      | None => Some s
      end
  end.

(** The context after the function, and the value it panicked with. *)
Definition call_fn (f : func) (ctx : LcoreCtx) : LcoreCtx * option P :=
  match f with
  | StopFn => (mkCtx (Value ctx) (ch ctx) true (ph ctx), None)
  | User f => let '(v, p) := f (Value ctx) in (mkCtx v (ch ctx) (done_ ctx) (ph ctx), p)
  end.

(* go: eal/init.go panicCatcher *)
Definition panicCatcher (id : Z) (f : func) (ctx : LcoreCtx) : LcoreCtx * option job_error :=
  let '(ctx, p) := call_fn f ctx in (ctx, ErrLcorePanic id <$> p).

Variable PanicAsErr : bool.

Definition set_ph (ctx : LcoreCtx) (p : phase) : LcoreCtx := mkCtx (Value ctx) (ch ctx) (done_ ctx) p.

(** The thread of lcore [id] does its next action: receive a job, run it, send
    the result and go on or stop. *)
(* go: eal/init.go lcoreFuncListener *)
Definition lcoreFuncListener (s : ealConfig) (id : Z) : option ealConfig :=
  match lcores s !! id with
  | None => None
  | Some ctx =>
      match ph ctx with
      | Idle =>
          match ch ctx with
          | [] => None
          | job :: r => Some (set_lcore s id (mkCtx (Value ctx) r (done_ ctx) (Running job)))
          end
      | Running job =>
          if PanicAsErr then
            let '(ctx, err) := panicCatcher id (fn job) ctx in
            Some (set_lcore s id (set_ph ctx (Replying job err)))
          else
            let '(ctx, p) := call_fn (fn job) ctx in
            match p with
            | Some _ => Some (mkEal (lcores s) (chans s) true)
            | None => Some (set_lcore s id (set_ph ctx (Replying job None)))
            end
      | Replying job err =>
          let next := set_ph ctx (if done_ ctx then Exited else Idle) in
          match ret_ job with
          | None => Some (set_lcore s id next)
          | Some c =>
              match send s c err with
              | None => None
              | Some s => Some (set_lcore s id next)
              end
          end
      | Exited => None
      end
  end.

(** [<-c]. *)
Definition receive (s : ealConfig) (c : nat) : option (option job_error * ealConfig) :=
  match chans s !! c with
  | Some (mkChan (e :: r) n) => Some (e, set_chan s c (mkChan r n))
  | _ => None
  end.

Inductive event :=
| Submit (id : Z) (j : lcoreJob)
| Thread (id : Z)
| Recv (c : nat)
| Make (c : nat) (n : nat).

(** The state after an event; [make(chan error, n)] gives a new channel. *)
Definition exec (s : ealConfig) (ev : event) : option ealConfig :=
  if crashed s then None
  else
    match ev with
    | Submit id j => ExecOnLcoreAsync s id (ret_ j) (fn j)
    | Thread id => lcoreFuncListener s id
    | Recv c => snd <$> receive s c
    | Make c n =>
        match chans s !! c with
        | Some _ => None
        | None => if (0 <? n)%nat then Some (set_chan s c (mkChan [] n)) else None
        end
    end.

Fixpoint run (s : ealConfig) (evs : list event) : option ealConfig :=
  match evs with
  | [] => Some s
  | ev :: evs => match exec s ev with None => None | Some s => run s evs end
  end.

(** [ExecOnLcore] on the channel [c]: its own events, which others interleave. *)
(* go: eal/eal.go ExecOnLcore *)
Definition ExecOnLcore (c : nat) (id : Z) (f : func) : list event :=
  [Make c 1; Submit id (mkJob f (Some c)); Recv c].

Definition stop_jobs (c : nat) (ids : list Z) : list event :=
  Make c (length ids) :: map (fun id => Submit id (mkJob StopFn (Some c))) ids.
(* go: eal/eal.go StopLcores *)
Definition StopLcores (c : nat) (ids : list Z) : list event := stop_jobs c ids ++ map (fun _ => Recv c) ids.

(** The contexts of the lcores, all threads in their loops; a new [Value] is nil. *)
(* go: eal/init.go ealLaunch *)
Definition ealLaunch (ids : list Z) (nil_value : V) : ealConfig :=
  mkEal (list_to_map (map (fun id => (id, mkCtx nil_value [] false Idle)) ids)) ∅ false.
End Lcores.

(** ** Enumerating lcores *)

Section Iter.
(** [rte_get_next_lcore(i, skip_main, 0)] and [RTE_MAX_LCORE]. *)
Variable next_lcore : Z -> Z -> Z.
Variable RTE_MAX_LCORE : Z.

(* go: eal/eal.go lcoresIter.next *)
Definition next (i sm : Z) : Z * bool := let i := next_lcore i sm in (i, i <? RTE_MAX_LCORE).

Fixpoint lcores_loop (fuel : nat) (i sm : Z) : list Z :=
  match fuel with
  | O => []
  | S k => let '(i, more) := next i sm in if more then i :: lcores_loop k i sm else []
  end.

(** From [^C.uint(0)]; as many steps as there are lcores are enough. *)
(* go: eal/eal.go getLcores *)
Definition getLcores (skipMain : Z) : list Z := lcores_loop (Z.to_nat RTE_MAX_LCORE) (2 ^ 32 - 1) skipMain.
(* go: eal/eal.go Lcores *)
Definition Lcores : list Z := getLcores 0.
(* go: eal/eal.go LcoresWorker *)
Definition LcoresWorker : list Z := getLcores 1.

(** [None] is the panic for a negative socket. *)
(* go: eal/init.go Sockets *)
Definition Sockets (count : nat) (rte_socket_id_by_idx : Z -> Z) : option (list Z) :=
  let ids := map (fun i => rte_socket_id_by_idx (Z.of_nat i)) (seq 0 count) in
  if forallb (fun s => 0 <=? s) ids then Some ids else None.
End Iter.

(** ** Initialisation *)

Section Init.
(** The wait group of [Init]: its counter, and the lcores that run. *)
Record init_state := mkInit { wg : Z; added : bool; launched : list Z; failed : bool }.

(** After [wg.Add(1)]. *)
Definition init_start : init_state := mkInit 1 false [] false.

(** The actions of the goroutine and of the lcore threads: [ealInit] fails or
    succeeds ([Add] of the other lcores, then the launch), and each launched
    thread calls [Done] once. *)
Inductive init_event := InitFails | InitSucceeds | LcoreDone (id : Z).

(* go: eal/init.go Init *)
Definition Init (ids : list Z) (s : init_state) (ev : init_event) : option init_state :=
  match ev with
  | InitFails => if added s || failed s then None else Some (mkInit (wg s - 1) false [] true)
  | InitSucceeds =>
      if added s || failed s then None else Some (mkInit (wg s + (Z.of_nat (length ids) - 1)) true [] false)
  | LcoreDone id =>
      if added s && bool_decide (id ∈ ids) && bool_decide (id ∉ launched s) then
        Some (mkInit (wg s - 1) true (id :: launched s) false)
      else None
  end.

Fixpoint init_run (ids : list Z) (s : init_state) (evs : list init_event) : option init_state :=
  match evs with
  | [] => Some s
  | ev :: evs => match Init ids s ev with None => None | Some s => init_run ids s evs end
  end.

(** [wg.Wait()] returns. *)
Definition init_returns (s : init_state) : bool := wg s =? 0.

(** The guard [already], what [Init] returns, and whether the call panics. *)
(* go: eal/init_once.go InitOnce *)
Definition InitOnce (already : bool) (init_error : option go_error) : bool * bool :=
  if already then (true, false)
  else match init_error with
       | Some _ => (false, true)
       | None => (true, false)
       end.
End Init.
