(* ===== verification/EalSpec.v ===== *)
(** * EAL threads: what a job may rely on

    Whatever the interleaving, an lcore runs its jobs one after the other in the
    order they were submitted ([lcore_sequential]); every job with a result
    channel is answered once ([results_conserved]), on the channel of a single
    lcore in order ([lcore_results]); [StopLcores] ends all threads, whatever else is
    submitted; what is sent
    to an lcore after that is never answered. *)

From Stdlib Require Import ZArith Lia.
From stdpp Require Import base list numbers option gmap.
From S2P Require Import Prelude Errno Eal.

Open Scope Z_scope.

(** Sums over the values of a map. *)
Section Sums.
Context {K : Type} `{Countable K} {A : Type}.

Definition msum (f : A -> nat) (m : gmap K A) : nat := sum_list (map (fun p => f (snd p)) (map_to_list m)).

Lemma sum_list_perm l k : l ≡ₚ k -> sum_list l = sum_list k.
Proof. induction 1; simpl; lia. Qed.

Lemma msum_delete f m i x : m !! i = Some x -> (msum f m = f x + msum f (delete i m))%nat.
Proof.
  intros E. unfold msum. rewrite <- (insert_delete_id m i x E) at 1.
  rewrite (sum_list_perm _ _ (Permutation_map _ (map_to_list_insert _ _ _ (lookup_delete_eq m i)))). done.
Qed.

Lemma msum_update f m i x y : m !! i = Some x -> (msum f (<[i := y]> m) + f x = msum f m + f y)%nat.
Proof.
  intros E. rewrite (msum_delete f m i x E), (msum_delete f _ i y (lookup_insert_eq m i y)).
  rewrite delete_insert_eq. lia.
Qed.

Lemma msum_lookup f m i x : m !! i = Some x -> (f x <= msum f m)%nat.
Proof. intros E. rewrite (msum_delete f m i x E). lia. Qed.

Lemma msum_zero f m : (forall i x, m !! i = Some x -> f x = 0%nat) -> msum f m = 0%nat.
Proof.
  intros Z. unfold msum. assert (F : Forall (fun p => f (snd p) = 0%nat) (map_to_list m)).
  { apply Forall_forall. intros [i x] Hin. apply elem_of_map_to_list in Hin. by eapply Z. }
  induction F as [|p l E _ IH]; simpl; [done|]. lia.
Qed.
End Sums.

Section Lcores.
Context {V P : Type}.
Variable PanicAsErr : bool.

Abbreviation state := (@ealConfig V P).
Abbreviation job := (@lcoreJob V P).
Abbreviation ctx_t := (@LcoreCtx V P).
Abbreviation error := (@job_error P).
Abbreviation ev_t := (@event V P).
Implicit Types (s : state) (ctx : ctx_t) (j : job) (ev : ev_t) (evs : list ev_t).

(** ** The actions of a thread *)

Inductive tstep (s : state) (id : Z) (ctx : ctx_t) : state -> Prop :=
| T_take j r : ph ctx = Idle -> ch ctx = j :: r ->
    tstep s id ctx (set_lcore s id (mkCtx (Value ctx) r (done_ ctx) (Running j)))
| T_run j ctx' e : ph ctx = Running j -> panicCatcher id (fn j) ctx = (ctx', e) ->
    tstep s id ctx (set_lcore s id (set_ph ctx' (Replying j e)))
| T_crash j : ph ctx = Running j -> tstep s id ctx (mkEal (lcores s) (chans s) true)
| T_reply j e s1 : ph ctx = Replying j e ->
    match ret_ j with None => s1 = s | Some c => send s c e = Some s1 end ->
    tstep s id ctx (set_lcore s1 id (set_ph ctx (if done_ ctx then Exited else Idle))).

Lemma thread_inv s id s' : lcoreFuncListener PanicAsErr s id = Some s' ->
  exists ctx, lcores s !! id = Some ctx /\ tstep s id ctx s'.
Proof.
  unfold lcoreFuncListener. destruct (lcores s !! id) as [ctx|] eqn:E; [|done]. intros Hs. exists ctx. split; [done|].
  destruct (ph ctx) as [|j|j e|] eqn:Ep; [|destruct PanicAsErr| |done].
  - destruct (ch ctx) as [|j r] eqn:Ec; [done|]. injection Hs as <-. by apply T_take.
  - destruct (panicCatcher id (fn j) ctx) as [ctx' e] eqn:Er. injection Hs as <-. by apply T_run.
  - destruct (call_fn (fn j) ctx) as [ctx' [p|]] eqn:Er; injection Hs as <-; [by apply (T_crash _ _ _ j)|].
    apply T_run; [done|]. unfold panicCatcher. by rewrite Er.
  - destruct (ret_ j) as [c|] eqn:Ej.
    + destruct (send s c e) as [s1|] eqn:Es; [|done]. injection Hs as <-. apply (T_reply s id ctx j e s1); [done|by rewrite Ej].
    + injection Hs as <-. apply (T_reply s id ctx j e s); [done|by rewrite Ej].
Qed.

Lemma send_inv (s s' : state) c e : send s c e = Some s' ->
  exists x, chans s !! c = Some x /\ (length (buf x) < cap x)%nat /\ s' = set_chan s c (mkChan (buf x ++ [e]) (cap x)).
Proof.
  unfold send. destruct (chans s !! c) as [x|]; [|done]. destruct (Nat.ltb_spec (length (buf x)) (cap x)); [|done].
  intros [= <-]. by exists x.
Qed.

Lemma receive_inv (s s' : state) c e : receive s c = Some (e, s') ->
  exists r n, chans s !! c = Some (mkChan (e :: r) n) /\ s' = set_chan s c (mkChan r n).
Proof. unfold receive. destruct (chans s !! c) as [[[|e' r] n]|]; [done| |done]. intros [= -> <-]. by exists r, n. Qed.

Lemma exec_live s ev s' : exec PanicAsErr s ev = Some s' -> crashed s = false.
Proof. unfold exec. by destruct (crashed s). Qed.

Lemma run_app s evs1 evs2 : run PanicAsErr s (evs1 ++ evs2) =
  match run PanicAsErr s evs1 with None => None | Some s1 => run PanicAsErr s1 evs2 end.
Proof. revert s; induction evs1 as [|ev evs IH]; intros s; simpl; [done|]. destruct (exec _ s ev); [apply IH|done]. Qed.

Lemma run_snoc s evs ev s' : run PanicAsErr s (evs ++ [ev]) = Some s' ->
  exists s1, run PanicAsErr s evs = Some s1 /\ exec PanicAsErr s1 ev = Some s' /\ crashed s1 = false.
Proof.
  rewrite run_app. destruct (run _ s evs) as [s1|]; [|done]. simpl. destruct (exec _ s1 ev) as [s2|] eqn:E; [|done].
  intros [= <-]. exists s1. split_and!; [done|done|by eapply exec_live].
Qed.

(** ** The sequential executor *)

Definition is_stop (j : job) : bool := match fn j with StopFn => true | User _ => false end.

(** One job on the value of a context: the new value and the result. *)
Definition serve1 (id : Z) (v : V) (j : job) : V * option error :=
  match fn j with
  | StopFn => (v, None)
  | User f => let '(v, p) := f v in (v, ErrLcorePanic id <$> p)
  end.

Fixpoint serve (id : Z) (v : V) (js : list job) : V * list (option error) :=
  match js with
  | [] => (v, [])
  | j :: js => let '(v, e) := serve1 id v j in let '(v, es) := serve id v js in (v, e :: es)
  end.

Lemma serve_snoc id v js j : serve id v (js ++ [j]) =
  (fst (serve1 id (fst (serve id v js)) j), snd (serve id v js) ++ [snd (serve1 id (fst (serve id v js)) j)]).
Proof.
  revert v; induction js as [|j' js IH]; intros v; simpl; [by destruct (serve1 id v j)|].
  destruct (serve1 id v j') as [v1 e1]. rewrite IH. by destruct (serve id v1 js).
Qed.

Lemma length_serve id v js : length (snd (serve id v js)) = length js.
Proof.
  revert v; induction js as [|j js IH]; intros v; simpl; [done|]. destruct (serve1 id v j) as [v1 e1].
  specialize (IH v1). destruct (serve id v1 js). simpl in *. lia.
Qed.

Lemma panicCatcher_serve1 id j (ctx ctx' : ctx_t) e : panicCatcher id (fn j) ctx = (ctx', e) ->
  Value ctx' = fst (serve1 id (Value ctx) j) /\ e = snd (serve1 id (Value ctx) j) /\
  ch ctx' = ch ctx /\ done_ ctx' = done_ ctx || is_stop j.
Proof.
  unfold panicCatcher, call_fn, serve1, is_stop. destruct (fn j) as [f|].
  - destruct (f (Value ctx)) as [v p]. intros [= <- <-]. simpl. by rewrite orb_false_r.
  - intros [= <- <-]. simpl. by rewrite orb_true_r.
Qed.

(** The jobs submitted to an lcore, in order. *)
Definition submitted (id : Z) (evs : list ev_t) : list job :=
  omap (fun ev => match ev with Submit i j => if i =? id then Some j else None | _ => None end) evs.

Lemma submitted_snoc id evs ev : submitted id (evs ++ [ev]) = submitted id evs ++ submitted id [ev].
Proof. unfold submitted. by rewrite omap_app. Qed.

(** The job a thread has received and not run. *)
Definition current (ctx : ctx_t) : list job := match ph ctx with Running j => [j] | _ => [] end.

(** The context of an lcore that has run the jobs [ran]. *)
Record served (id : Z) (v0 : V) (ran : list job) (ctx : ctx_t) : Prop := {
  sv_value : Value ctx = fst (serve id v0 ran);
  sv_done : done_ ctx = existsb is_stop ran;
  sv_phase : match ph ctx with
             | Idle | Running _ => existsb is_stop ran = false
             | Replying j e => exists pre, ran = pre ++ [j] /\ existsb is_stop pre = false /\
                 snd (serve id v0 ran) = snd (serve id v0 pre) ++ [e]
             | Exited => exists pre j, ran = pre ++ [j] /\ existsb is_stop pre = false /\ is_stop j = true
             end
}.

Definition asks (c : nat) (j : job) : bool := bool_decide (ret_ j = Some c).

Definition bufl (c : nat) (s : state) : list (option error) := match chans s !! c with None => [] | Some x => buf x end.

Lemma send_bufl c c' s s' e : send s c' e = Some s' ->
  bufl c s' = bufl c s ++ (if bool_decide (c' = c) then [e] else []) /\ lcores s' = lcores s.
Proof.
  intros H. apply send_inv in H as (x & Hx & _ & ->). split; [|done]. unfold bufl; simpl.
  case_bool_decide as D; [subst c'; by rewrite lookup_insert_eq, Hx|]. rewrite lookup_insert_ne by done. by rewrite app_nil_r.
Qed.

(** The jobs whose results have been sent, with the results: a thread that is
    replying has not sent the last. *)
Definition results (id : Z) (v0 : V) (ran : list job) : list (job * option error) := zip ran (snd (serve id v0 ran)).
Definition answered (id : Z) (v0 : V) (ctx : ctx_t) (ran : list job) : list (job * option error) :=
  match ph ctx with Replying _ _ => removelast (results id v0 ran) | _ => results id v0 ran end.
Definition sent_to (c : nat) (l : list (job * option error)) : list (option error) :=
  map snd (List.filter (fun p => asks c (fst p)) l).

Lemma results_snoc id v0 pre j e : snd (serve id v0 (pre ++ [j])) = snd (serve id v0 pre) ++ [e] ->
  results id v0 (pre ++ [j]) = results id v0 pre ++ [(j, e)].
Proof. intros E. unfold results. rewrite E, zip_with_app by (by rewrite length_serve). done. Qed.

(** An action of another lcore or on a channel leaves a context alone. *)
Lemma exec_other s ev s' id : exec PanicAsErr s ev = Some s' -> ev <> Thread id -> submitted id [ev] = [] ->
  lcores s' !! id = lcores s !! id.
Proof.
  unfold exec. destruct (crashed s); [done|]. destruct ev as [i j|i|c|c n]; intros E Nt Ns.
  - unfold submitted in Ns; simpl in Ns. destruct (Z.eqb_spec i id); [done|]. unfold ExecOnLcoreAsync in E.
    destruct (lcores s !! i) as [ctx|].
    + destruct (_ <? _)%nat; [|done]. injection E as <-. simpl. by rewrite lookup_insert_ne.
    + destruct (ret_ j) as [c|]; [|by injection E as <-]. apply send_inv in E as (x & _ & _ & ->). done.
  - assert (i <> id) by congruence. apply thread_inv in E as (ctx & _ & T).
    destruct T as [j r _ _|j ctx' e _ _|j _|j e s1 _ R]; simpl; try done; try (by rewrite lookup_insert_ne).
    rewrite lookup_insert_ne by done. destruct (ret_ j); [|by subst]. by apply send_inv in R as (x & _ & _ & ->).
  - destruct (receive s c) as [[e s1]|] eqn:R; [|done]. injection E as <-. by apply receive_inv in R as (r & n & _ & ->).
  - destruct (chans s !! c); [done|]. destruct (0 <? n)%nat; [|done]. by injection E as <-.
Qed.

(** What the thread's own action does to its context, and what it sends. *)
Lemma thread_served s id s' ctx v0 ran :
  exec PanicAsErr s (Thread id) = Some s' -> crashed s' = false -> lcores s !! id = Some ctx -> served id v0 ran ctx ->
  exists ctx' ran' new, lcores s' !! id = Some ctx' /\ served id v0 ran' ctx' /\
    ran' ++ current ctx' ++ ch ctx' = ran ++ current ctx ++ ch ctx /\
    answered id v0 ctx' ran' = answered id v0 ctx ran ++ new /\
    forall c, bufl c s' = bufl c s ++ sent_to c new.
Proof.
  unfold exec. destruct (crashed s) eqn:Cr; [done|]. intros E Cs' Hc [Sv Sd Sp]. apply thread_inv in E as (ctx1 & Hc1 & T).
  rewrite Hc in Hc1. injection Hc1 as <-. destruct T as [j r Ep Ec|j ctx' e Ep Er|j Ep|j e s1 Ep R]; simpl in Cs'; try done.
  - eexists _, ran, []. simpl. rewrite lookup_insert_eq. split; [done|]. split; [|split; [|split]].
    + split; simpl; [done|done|]. by rewrite Ep in Sp.
    + unfold current; simpl. by rewrite Ep, Ec.
    + unfold answered; simpl. by rewrite Ep, app_nil_r.
    + intros c. by rewrite app_nil_r.
  - apply panicCatcher_serve1 in Er as (Ev & Ee & Ech & Ed). eexists _, (ran ++ [j]), []. simpl. rewrite lookup_insert_eq.
    split; [done|]. rewrite Ep in Sp.
    assert (Es : snd (serve id v0 (ran ++ [j])) = snd (serve id v0 ran) ++ [e]) by (rewrite serve_snoc; simpl; by rewrite Ee, Sv).
    split; [|split; [|split]].
    + split; simpl.
      * by rewrite serve_snoc, Ev, Sv.
      * rewrite Ed, Sd, existsb_app. simpl. by rewrite orb_false_r.
      * exists ran. done.
    + unfold current; simpl. rewrite Ep, Ech. by rewrite <- app_assoc.
    + unfold answered; simpl. rewrite Ep, (results_snoc _ _ _ _ _ Es), removelast_last. by rewrite app_nil_r.
    + intros c. by rewrite app_nil_r.
  - eexists _, ran, [(j, e)]. simpl.
    assert (B : lcores s1 = lcores s /\ forall c, bufl c s1 = bufl c s ++ sent_to c [(j, e)]).
    { unfold sent_to, asks. simpl. destruct (ret_ j) as [c'|]; [|subst s1; split; [done|intros c; by rewrite app_nil_r]].
      split; [by apply (send_bufl 0%nat) in R as [_ ?]|]. intros c. apply (send_bufl c) in R as [-> _]. f_equal.
      destruct (decide (c' = c)) as [->|N]; [by rewrite !bool_decide_eq_true_2|by rewrite !bool_decide_eq_false_2 by congruence]. }
    destruct B as [B1 B2]. rewrite lookup_insert_eq. split; [done|]. rewrite Ep in Sp. destruct Sp as (pre & -> & Np & So).
    split; [|split; [|split]].
    + split; simpl; [done|done|]. rewrite Sd. destruct (existsb is_stop (pre ++ [j])) eqn:Ex; [|done].
      exists pre, j. rewrite existsb_app, Np in Ex. simpl in Ex. by rewrite orb_false_r in Ex.
    + unfold current; simpl. rewrite Ep. by destruct (done_ ctx).
    + unfold answered; simpl. rewrite Ep, (results_snoc _ _ _ _ _ So), removelast_last. by destruct (done_ ctx).
    + exact B2.
Qed.

Lemma launch_lookup ids (v0 : V) id : id ∈ ids ->
  lcores (ealLaunch ids v0 : state) !! id = Some (mkCtx v0 [] false Idle).
Proof.
  intros H. unfold ealLaunch; simpl. apply elem_of_list_to_map_1' .
  - intros c Hc. apply list_elem_of_fmap in Hc as (i & [= -> ->] & _). done.
  - apply list_elem_of_fmap. eauto.
Qed.

Lemma thread_dec id ev : ev = Thread id \/ ev <> Thread id.
Proof. destruct ev as [i j|i|c|c n]; try (by right). destruct (Z.eq_dec i id) as [->|N]; [by left|right; congruence]. Qed.

(** An event that is not its own adds at most a job to its queue. *)
Lemma exec_queue s ev s' id ctx : exec PanicAsErr s ev = Some s' -> lcores s !! id = Some ctx -> ev <> Thread id ->
  exists ctx', lcores s' !! id = Some ctx' /\ Value ctx' = Value ctx /\ done_ ctx' = done_ ctx /\ ph ctx' = ph ctx /\
    ch ctx' = ch ctx ++ submitted id [ev].
Proof.
  intros E Hc Nt. destruct (decide (submitted id [ev] = [])) as [Ns|Ns].
  - exists ctx. rewrite Ns, app_nil_r. split; [|done]. rewrite <- Hc. by apply (exec_other s ev).
  - destruct ev as [i j|i|c|c n]; try done. unfold submitted in *; simpl in *. destruct (Z.eqb_spec i id) as [->|]; [|done].
    unfold exec in E. destruct (crashed s); [done|]. unfold ExecOnLcoreAsync in E. rewrite Hc in E.
    destruct (_ <? _)%nat; [|done]. injection E as <-. simpl. rewrite lookup_insert_eq. eexists. split; [done|]. by destruct j.
Qed.

Lemma served_queue id v0 ran ctx ctx' : served id v0 ran ctx -> Value ctx' = Value ctx -> done_ ctx' = done_ ctx ->
  ph ctx' = ph ctx -> served id v0 ran ctx'.
Proof. intros [Sv Sd Sp] E1 E2 E3. split; [congruence|congruence|]. by rewrite E3. Qed.

(** Every lcore has run some first part of its jobs, the way the sequential
    executor runs them. *)
Lemma lcore_inv ids v0 evs s id :
  run PanicAsErr (ealLaunch ids v0) evs = Some s -> crashed s = false -> id ∈ ids ->
  exists ctx ran, lcores s !! id = Some ctx /\ served id v0 ran ctx /\
    submitted id evs = ran ++ current ctx ++ ch ctx.
Proof.
  intros R Cr Hid. revert s R Cr. induction evs as [|ev evs IH] using rev_ind; intros s R Cr.
  - injection R as <-. exists (mkCtx v0 [] false Idle), []. split; [by apply launch_lookup|]. done.
  - apply run_snoc in R as (s1 & R1 & E & Cr1). destruct (IH s1 R1 Cr1) as (ctx & ran & Hc & S & Eq).
    rewrite submitted_snoc. destruct (thread_dec id ev) as [->|Nt].
    + destruct (thread_served s1 id s ctx v0 ran E Cr Hc S) as (ctx' & ran' & _ & Hc' & S' & Eq' & _).
      exists ctx', ran'. rewrite Eq', Eq. unfold submitted; simpl. by rewrite app_nil_r.
    + destruct (exec_queue s1 ev s id ctx E Hc Nt) as (ctx' & Hc' & E1 & E2 & E3 & E4). exists ctx', ran.
      split; [done|]. split; [by apply (served_queue _ _ _ ctx)|]. unfold current. rewrite E3, E4, Eq. by rewrite !app_assoc.
Qed.

(** ** Results *)

(** The lcores stay the ones of the launch. *)
Lemma exec_dom s ev s' id : exec PanicAsErr s ev = Some s' -> is_Some (lcores s' !! id) -> is_Some (lcores s !! id).
Proof.
  assert (Snd : forall s s' c' e, send s c' e = Some s' -> lcores s' = lcores s).
  { intros s2 s2' c' e H. by apply send_inv in H as (y & Hy & _ & ->). }
  assert (Ins : forall s s2 i ctx, lcores s2 = lcores s -> is_Some (lcores s !! i) ->
    is_Some (lcores (set_lcore s2 i ctx) !! id) -> is_Some (lcores s !! id)).
  { intros s1 s2 i ctx E Hi [y H]. simpl in H. rewrite E in H. apply lookup_insert_Some in H as [[<- _]|[_ H]]; [done|]. by exists y. }
  unfold exec. destruct (crashed s); [done|]. intros E. destruct ev as [i j|i|c'|c' n].
  - unfold ExecOnLcoreAsync in E. destruct (lcores s !! i) as [ctx|] eqn:Hi.
    + destruct (_ <? _)%nat; [|done]. injection E as <-. apply Ins; [done|]. rewrite Hi. eauto.
    + destruct (ret_ j); [by rewrite (Snd _ _ _ _ E)|by injection E as <-].
  - apply thread_inv in E as (ctx & Hi & T). assert (is_Some (lcores s !! i)) by (rewrite Hi; eauto).
    destruct T as [j r _ _|j ctx' e _ _|j _|j e s1 _ R]; [by apply Ins|by apply Ins|done|]. apply Ins; [|done].
    destruct (ret_ j); [by apply Snd in R|by subst].
  - destruct (receive s c') as [[e s1]|] eqn:R; [|done]. injection E as <-. by apply receive_inv in R as (r & n & _ & ->).
  - destruct (chans s !! c'); [done|]. destruct (0 <? n)%nat; [|done]. by injection E as <-.
Qed.

Lemma run_dom ids (v0 : V) evs s id : run PanicAsErr (ealLaunch ids v0) evs = Some s -> is_Some (lcores s !! id) -> id ∈ ids.
Proof.
  revert s. induction evs as [|ev evs IH] using rev_ind; intros s R Hs.
  - injection R as <-. destruct Hs as [ctx Hs]. unfold ealLaunch in Hs; simpl in Hs. apply elem_of_list_to_map_2 in Hs.
    apply list_elem_of_fmap in Hs as (k & [= -> ->] & Hk). done.
  - apply run_snoc in R as (s1 & R1 & E & _). apply (IH s1 R1). by eapply exec_dom.
Qed.


(** The jobs of a context whose result is still to go to [c]. *)
Definition pend (c : nat) (ctx : ctx_t) : nat :=
  length (List.filter (asks c) (ch ctx)) +
  match ph ctx with Running j | Replying j _ => if asks c j then 1 else 0 | _ => 0 end.

Definition buffered (c : nat) (s : state) : nat := match chans s !! c with None => 0 | Some x => length (buf x) end.

Definition count (f : ev_t -> bool) (evs : list ev_t) : nat := length (List.filter f evs).
Definition is_ask (c : nat) (ev : ev_t) : bool := match ev with Submit _ j => asks c j | _ => false end.
Definition is_recv (c : nat) (ev : ev_t) : bool := match ev with Recv c' => (c' =? c)%nat | _ => false end.

Lemma count_snoc f evs ev : count f (evs ++ [ev]) = (count f evs + if f ev then 1 else 0)%nat.
Proof. unfold count. rewrite List.filter_app, length_app. simpl. by destruct (f ev). Qed.

Lemma buffered_set_lcore c s id ctx : buffered c (set_lcore s id ctx) = buffered c s.
Proof. done. Qed.

Lemma send_buffered c c' s s' e : send s c' e = Some s' ->
  buffered c s' = (buffered c s + if bool_decide (c' = c) then 1 else 0)%nat /\ lcores s' = lcores s /\ crashed s' = crashed s.
Proof.
  intros H. apply send_inv in H as (x & Hx & _ & ->). split; [|done]. unfold buffered; simpl.
  case_bool_decide as D; [subst c'; rewrite lookup_insert_eq, Hx; simpl; rewrite length_app; simpl; lia|].
  rewrite lookup_insert_ne by done. lia.
Qed.

Lemma asks_Some c c' j : ret_ j = Some c' -> asks c j = bool_decide (c' = c).
Proof. intros E. unfold asks. rewrite E. apply bool_decide_ext. split; congruence. Qed.

Lemma asks_None c j : ret_ j = None -> asks c j = false.
Proof. intros E. unfold asks. by rewrite E. Qed.

Lemma pend_push c ctx j : pend c (mkCtx (Value ctx) (ch ctx ++ [j]) (done_ ctx) (ph ctx)) =
  (pend c ctx + if asks c j then 1 else 0)%nat.
Proof. unfold pend; simpl. rewrite List.filter_app, length_app. simpl. destruct (asks c j); simpl; lia. Qed.

(** The balance of one event. *)
Lemma exec_balance c s ev s' : exec PanicAsErr s ev = Some s' -> crashed s' = false ->
  ((if is_ask c ev then 1 else 0) + buffered c s + msum (pend c) (lcores s) =
   (if is_recv c ev then 1 else 0) + buffered c s' + msum (pend c) (lcores s'))%nat.
Proof.
  unfold exec. destruct (crashed s) eqn:Cr; [done|]. destruct ev as [i j|i|c'|c' n]; intros E Cs'; simpl.
  - unfold ExecOnLcoreAsync in E. destruct (lcores s !! i) as [ctx|] eqn:Hc.
    + destruct (_ <? _)%nat; [|done]. injection E as <-. rewrite buffered_set_lcore. simpl.
      pose proof (msum_update (pend c) (lcores s) i ctx (mkCtx (Value ctx) (ch ctx ++ [mkJob (fn j) (ret_ j)]) (done_ ctx) (ph ctx)) Hc) as M.
      rewrite pend_push in M. destruct j as [f r]. simpl in *. destruct (asks c _); lia.
    + destruct (ret_ j) as [c'|] eqn:Ej; [|injection E as <-; rewrite asks_None by done; lia].
      apply (send_buffered c) in E as (-> & -> & _). rewrite (asks_Some c c') by done. destruct (bool_decide _); lia.
  - apply thread_inv in E as (ctx & Hc & T). destruct T as [j r Ep Ec|j ctx' e Ep Er|j Ep|j e s1 Ep R]; simpl in Cs'; try done.
    + pose proof (msum_update (pend c) (lcores s) i ctx (mkCtx (Value ctx) r (done_ ctx) (Running j)) Hc) as M.
      unfold pend at 2 4 in M. rewrite Ep, Ec in M. simpl in M. rewrite buffered_set_lcore. simpl.
      destruct (asks c j); simpl in M; lia.
    + apply panicCatcher_serve1 in Er as (_ & _ & Ech & _).
      pose proof (msum_update (pend c) (lcores s) i ctx (set_ph ctx' (Replying j e)) Hc) as M.
      unfold pend at 2 4 in M. rewrite Ep in M. simpl in M. rewrite Ech in M. rewrite buffered_set_lcore. simpl. lia.
    + rewrite buffered_set_lcore. simpl.
      assert (A : lcores s1 = lcores s /\ buffered c s1 = (buffered c s + if asks c j then 1 else 0)%nat).
      { destruct (ret_ j) as [c'|] eqn:Ej.
        - apply (send_buffered c) in R as (-> & -> & _). by rewrite (asks_Some c c').
        - subst s1. rewrite asks_None by done. split; [done|lia]. }
      destruct A as [-> ->].
      pose proof (msum_update (pend c) (lcores s) i ctx (set_ph ctx (if done_ ctx then Exited else Idle)) Hc) as M.
      unfold pend at 2 4 in M. rewrite Ep in M. simpl in M. destruct (done_ ctx), (asks c j); lia.
  - destruct (receive s c') as [[e s1]|] eqn:R; [|done]. injection E as <-. apply receive_inv in R as (r & n & Hx & ->).
    unfold buffered; simpl. destruct (Nat.eqb_spec c' c) as [->|N].
    + rewrite lookup_insert_eq, Hx. simpl. lia.
    + rewrite lookup_insert_ne by done. lia.
  - destruct (chans s !! c') as [x|] eqn:Hx; [done|]. destruct (0 <? n)%nat; [|done]. injection E as <-.
    unfold buffered; simpl. destruct (Nat.eq_dec c' c) as [->|N].
    + rewrite lookup_insert_eq, Hx. simpl. lia.
    + rewrite lookup_insert_ne by done. lia.
Qed.

Lemma launch_pend ids (v0 : V) c : msum (pend c) (lcores (ealLaunch ids v0 : state)) = 0%nat.
Proof.
  apply msum_zero. intros i x H. unfold ealLaunch in H; simpl in H. apply elem_of_list_to_map_2 in H.
  apply list_elem_of_fmap in H as (k & [= -> ->] & _). done.
Qed.

Lemma balance ids v0 evs s c :
  run PanicAsErr (ealLaunch ids v0) evs = Some s -> crashed s = false ->
  count (is_ask c) evs = (count (is_recv c) evs + buffered c s + msum (pend c) (lcores s))%nat.
Proof.
  revert s. induction evs as [|ev evs IH] using rev_ind; intros s R Cr.
  - injection R as <-. rewrite launch_pend. done.
  - apply run_snoc in R as (s1 & R1 & E & Cr1). specialize (IH s1 R1 Cr1). rewrite !count_snoc.
    pose proof (exec_balance c s1 ev s E Cr). lia.
Qed.

(** What is received from a channel in a run. *)
Fixpoint received (c : nat) (s : state) (evs : list ev_t) : list (option error) :=
  match evs with
  | [] => []
  | ev :: evs =>
      match exec PanicAsErr s ev with
      | None => []
      | Some s1 =>
          (match ev with
           | Recv c' => if (c' =? c)%nat then match receive s c with Some (e, _) => [e] | None => [] end else []
           | _ => []
           end) ++ received c s1 evs
      end
  end.

Lemma received_snoc c evs : forall s s1 ev s', run PanicAsErr s evs = Some s1 -> exec PanicAsErr s1 ev = Some s' ->
  received c s (evs ++ [ev]) = received c s evs ++ received c s1 [ev].
Proof.
  induction evs as [|ev0 evs IH]; intros s s1 ev s' R E; simpl in R.
  - injection R as <-. done.
  - simpl. destruct (exec PanicAsErr s ev0) as [s2|]; [|done]. by rewrite (IH s2 s1 ev s' R E), app_assoc.
Qed.

(** All jobs that name [c] go to the lcore [id]. *)
Definition private (c : nat) (id : Z) (evs : list ev_t) : Prop :=
  Forall (fun ev => match ev with Submit i j => asks c j = true -> i = id | _ => True end) evs.

Lemma served_pending id v0 ran ctx j e : served id v0 ran ctx -> ph ctx = Replying j e -> j ∈ ran.
Proof. intros [_ _ Sp] E. rewrite E in Sp. destruct Sp as (pre & -> & _). apply elem_of_app. right. constructor. Qed.

(** An event that is no action of lcore [id] adds nothing to the private channel. *)
Lemma exec_bufl ids v0 evs s ev s' c id : run PanicAsErr (ealLaunch ids v0) evs = Some s -> crashed s = false ->
  exec PanicAsErr s ev = Some s' -> private c id (evs ++ [ev]) -> id ∈ ids -> ev <> Thread id ->
  received c s [ev] ++ bufl c s' = bufl c s.
Proof.
  intros R Cr E Pr Hid Nt. simpl. rewrite E. rewrite app_nil_r. unfold exec in E. rewrite Cr in E.
  apply Forall_app in Pr as [Pr Pe]. destruct ev as [i j|i|c'|c' n].
  - simpl. unfold ExecOnLcoreAsync in E. destruct (lcores s !! i) as [ctx|] eqn:Hi.
    + destruct (_ <? _)%nat; [|done]. by injection E as <-.
    + destruct (ret_ j) as [c'|] eqn:Ej; [|by injection E as <-]. apply (send_bufl c) in E as [-> _].
      case_bool_decide as D; [|by rewrite app_nil_r]. subst c'. apply Forall_cons in Pe as [Pe _].
      rewrite Pe in Hi by (unfold asks; by rewrite bool_decide_eq_true).
      destruct (lcore_inv ids v0 evs s id R Cr Hid) as (ctx & ran & Hc & _). congruence.
  - simpl. apply thread_inv in E as (ctx & Hc & T). destruct T as [j r Ep Ec|j ctx' e Ep Er|j Ep|j e s1 Ep Sd]; try done.
    change (bufl c (set_lcore s1 i _)) with (bufl c s1). destruct (ret_ j) as [c'|] eqn:Ej; [|by subst].
    apply (send_bufl c) in Sd as [-> _]. case_bool_decide as D; [|by rewrite app_nil_r]. subst c'. exfalso.
    assert (Hi : i ∈ ids) by (apply (run_dom ids v0 evs s i R); rewrite Hc; eauto).
    destruct (lcore_inv ids v0 evs s i R Cr Hi) as (ctx' & ran & Hc' & S & Eq). rewrite Hc in Hc'. injection Hc' as <-.
    pose proof (served_pending _ _ _ _ _ _ S Ep) as Hj.
    assert (Hs : j ∈ submitted i evs) by (rewrite Eq, elem_of_app; by left).
    unfold submitted in Hs. apply list_elem_of_omap in Hs as (ev & Hev & He).
    destruct ev as [i' j'|?|?|? ?]; try done. destruct (Z.eqb_spec i' i) as [->|]; [|done]. injection He as ->.
    rewrite Forall_forall in Pr. specialize (Pr _ Hev). simpl in Pr.
    rewrite Pr in Nt by (unfold asks; by rewrite bool_decide_eq_true). done.
  - destruct (receive s c') as [[e s1]|] eqn:Rv; [|done]. injection E as <-. destruct (Nat.eqb_spec c' c) as [->|N].
    + rewrite Rv. apply receive_inv in Rv as (r & n & Hx & ->). unfold bufl; simpl. by rewrite lookup_insert_eq, Hx.
    + apply receive_inv in Rv as (r & n & Hx & ->). unfold bufl; simpl. by rewrite lookup_insert_ne.
  - destruct (chans s !! c') as [x|] eqn:Hx; [done|]. destruct (0 <? n)%nat; [|done]. injection E as <-.
    unfold bufl; simpl. destruct (Nat.eq_dec c' c) as [->|N]; [by rewrite lookup_insert_eq, Hx|by rewrite lookup_insert_ne].
Qed.

Lemma private_inv ids v0 evs s id c :
  run PanicAsErr (ealLaunch ids v0) evs = Some s -> crashed s = false -> id ∈ ids -> private c id evs ->
  exists ctx ran, lcores s !! id = Some ctx /\ served id v0 ran ctx /\
    submitted id evs = ran ++ current ctx ++ ch ctx /\
    received c (ealLaunch ids v0) evs ++ bufl c s = sent_to c (answered id v0 ctx ran).
Proof.
  intros R Cr Hid. revert s R Cr. induction evs as [|ev evs IH] using rev_ind; intros s R Cr Pr.
  - injection R as <-. exists (mkCtx v0 [] false Idle), []. split; [by apply launch_lookup|]. done.
  - apply run_snoc in R as (s1 & R1 & E & Cr1).
    destruct (IH s1 R1 Cr1) as (ctx & ran & Hc & S & Eq & Rc); [by apply Forall_app in Pr as [? _]|].
    rewrite (received_snoc c evs _ s1 ev s R1 E).
    destruct (thread_dec id ev) as [->|Nt].
    + destruct (thread_served s1 id s ctx v0 ran E Cr Hc S) as (ctx' & ran' & new & Hc' & S' & Eq' & An & Bf).
      exists ctx', ran'. split_and!; [done|done| |].
      * rewrite submitted_snoc, Eq, <- Eq'. unfold submitted; simpl. by rewrite app_nil_r.
      * simpl. rewrite E, An, Bf. simpl. rewrite app_nil_r, app_assoc, Rc. unfold sent_to. by rewrite List.filter_app, map_app.
    + destruct (exec_queue s1 ev s id ctx E Hc Nt) as (ctx' & Hc' & E1 & E2 & E3 & E4). exists ctx', ran.
      split; [done|]. split; [by apply (served_queue _ _ _ ctx)|]. split.
      * unfold current. rewrite submitted_snoc, E3, E4, Eq. by rewrite !app_assoc.
      * rewrite <- app_assoc, (exec_bufl ids v0 evs s1 ev s c id R1 Cr1 E Pr Hid Nt), Rc. unfold answered. by rewrite E3.
Qed.

(** ** Termination of the threads *)

(** How many actions the threads can still do without new jobs. *)
Definition work (ctx : ctx_t) : nat :=
  3 * length (ch ctx) + match ph ctx with Running _ => 2 | Replying _ _ => 1 | _ => 0 end.

Definition is_thread (ev : ev_t) : bool := match ev with Thread _ => true | _ => false end.
Definition is_submit (ev : ev_t) : bool := match ev with Submit _ _ => true | _ => false end.

Lemma exec_work s ev s' : exec PanicAsErr s ev = Some s' -> crashed s' = false -> is_submit ev = false ->
  (msum work (lcores s') + (if is_thread ev then 1 else 0) = msum work (lcores s))%nat.
Proof.
  unfold exec. destruct (crashed s) eqn:Cr; [done|]. destruct ev as [i j|i|c'|c' n]; intros E Cs' Ns; simpl; [done|..].
  - apply thread_inv in E as (ctx & Hc & T). destruct T as [j r Ep Ec|j ctx' e Ep Er|j Ep|j e s1 Ep R]; simpl in Cs'; try done.
    + pose proof (msum_update work (lcores s) i ctx (mkCtx (Value ctx) r (done_ ctx) (Running j)) Hc) as M.
      unfold work at 2 4 in M. rewrite Ep, Ec in M. simpl in *. lia.
    + apply panicCatcher_serve1 in Er as (_ & _ & Ech & _).
      pose proof (msum_update work (lcores s) i ctx (set_ph ctx' (Replying j e)) Hc) as M.
      unfold work at 2 4 in M. rewrite Ep in M. simpl in *. rewrite Ech in M. lia.
    + assert (A : lcores s1 = lcores s) by (destruct (ret_ j); [by apply send_inv in R as (x & _ & _ & ->)|by subst]).
      simpl. rewrite A. pose proof (msum_update work (lcores s) i ctx (set_ph ctx (if done_ ctx then Exited else Idle)) Hc) as M.
      unfold work at 2 4 in M. rewrite Ep in M. simpl in *. destruct (done_ ctx); lia.
  - destruct (receive s c') as [[e s1]|] eqn:R; [|done]. injection E as <-. apply receive_inv in R as (r & n & _ & ->). simpl. lia.
  - destruct (chans s !! c'); [done|]. destruct (0 <? n)%nat; [|done]. injection E as <-. simpl. lia.
Qed.

Lemma run_crashed s evs s' : run PanicAsErr s evs = Some s' -> crashed s' = false -> crashed s = false.
Proof.
  destruct evs as [|ev evs]; simpl; [by intros [= ->]|]. destruct (exec PanicAsErr s ev) eqn:E; [|done]. intros _ _. by eapply exec_live.
Qed.

Lemma run_work evs : forall s s', run PanicAsErr s evs = Some s' -> crashed s' = false ->
  forallb (fun ev => negb (is_submit ev)) evs = true ->
  (count is_thread evs + msum work (lcores s') = msum work (lcores s))%nat.
Proof.
  induction evs as [|ev evs IH]; intros s s' R Cr F; simpl in *; [by injection R as <-|].
  destruct (exec PanicAsErr s ev) as [s1|] eqn:E; [|done]. apply andb_prop in F as [F1 F2]. apply negb_true_iff in F1.
  pose proof (exec_work s ev s1 E (run_crashed _ _ _ R Cr) F1). specialize (IH s1 s' R Cr F2).
  unfold count in *. simpl. destruct (is_thread ev); simpl; lia.
Qed.

(** ** Stopping *)

Lemma exec_cap c s ev s' x : exec PanicAsErr s ev = Some s' -> chans s !! c = Some x ->
  exists x', chans s' !! c = Some x' /\ cap x' = cap x.
Proof.
  assert (Snd : forall s s' c' e, send s c' e = Some s' -> chans s !! c = Some x -> exists x', chans s' !! c = Some x' /\ cap x' = cap x).
  { intros s2 s2' c' e H Hx. apply send_inv in H as (y & Hy & _ & ->). simpl. destruct (Nat.eq_dec c' c) as [->|N].
    - rewrite lookup_insert_eq. eexists. split; [done|]. simpl. congruence.
    - rewrite lookup_insert_ne by done. eauto. }
  unfold exec. destruct (crashed s); [done|]. intros E Hx. destruct ev as [i j|i|c'|c' n].
  - unfold ExecOnLcoreAsync in E. destruct (lcores s !! i).
    + destruct (_ <? _)%nat; [|done]. injection E as <-. simpl. eauto.
    + destruct (ret_ j); [by eapply Snd|injection E as <-; eauto].
  - apply thread_inv in E as (ctx & _ & T). destruct T as [j r _ _|j ctx' e _ _|j _|j e s1 _ R]; simpl; eauto.
    destruct (ret_ j); [by eapply Snd|subst; eauto].
  - destruct (receive s c') as [[e s1]|] eqn:R; [|done]. injection E as <-. apply receive_inv in R as (r & n & Hy & ->).
    simpl. destruct (Nat.eq_dec c' c) as [->|N].
    + rewrite lookup_insert_eq. eexists. split; [done|]. simpl. rewrite Hx in Hy. by injection Hy as ->.
    + rewrite lookup_insert_ne by done. eauto.
  - destruct (chans s !! c') eqn:Hc'; [done|]. destruct (0 <? n)%nat; [|done]. injection E as <-. simpl.
    rewrite lookup_insert_ne by congruence. eauto.
Qed.

Lemma run_cap c evs : forall s s' x, run PanicAsErr s evs = Some s' -> chans s !! c = Some x ->
  exists x', chans s' !! c = Some x' /\ cap x' = cap x.
Proof.
  induction evs as [|ev evs IH]; intros s s' x R Hx; simpl in R; [injection R as <-; eauto|].
  destruct (exec PanicAsErr s ev) as [s1|] eqn:E; [|done]. destruct (exec_cap c s ev s1 x E Hx) as (x1 & H1 & C1).
  destruct (IH s1 s' x1 R H1) as (x' & H' & C'). exists x'. split; [done|congruence].
Qed.

Lemma submitted_app id evs1 evs2 : submitted id (evs1 ++ evs2) = submitted id evs1 ++ submitted id evs2.
Proof. unfold submitted. by rewrite omap_app. Qed.

Lemma submitted_none id evs : forallb (fun ev => negb (is_submit ev)) evs = true -> submitted id evs = [].
Proof. unfold submitted. induction evs as [|[i j|i|c|c n] evs IH]; simpl; try done; auto. Qed.

Lemma submitted_stop_jobs c ids id : NoDup ids -> id ∈ ids ->
  submitted id (stop_jobs c ids : list ev_t) = [mkJob StopFn (Some c)].
Proof.
  intros N. unfold submitted. simpl. induction N as [|i ids Ni N IH]; intros Hid; [by apply elem_of_nil in Hid|]. simpl.
  destruct (Z.eqb_spec i id) as [->|D].
  - f_equal. clear IH N Hid. induction ids as [|k ids IH]; [done|]. apply not_elem_of_cons in Ni as [Nk Ni]. simpl.
    rewrite (proj2 (Z.eqb_neq k id)) by congruence. auto.
  - apply IH. apply elem_of_cons in Hid as [->|]; done.
Qed.

Lemma count_app f evs1 evs2 : count f (evs1 ++ evs2) = (count f evs1 + count f evs2)%nat.
Proof. unfold count. by rewrite List.filter_app, length_app. Qed.

Lemma count_stop_jobs c ids :
  count (is_ask c) (stop_jobs c ids : list ev_t) = length ids /\ count (is_recv c) (stop_jobs c ids : list ev_t) = 0%nat.
Proof.
  unfold count. simpl. induction ids as [|i ids [IH1 IH2]]; simpl; [done|]. unfold asks; simpl.
  rewrite bool_decide_eq_true_2 by done. simpl. auto.
Qed.

Lemma count_zero f g evs : (forall ev, f ev = true -> g ev = false) -> forallb g evs = true -> count f evs = 0%nat.
Proof.
  intros H. unfold count. induction evs as [|ev evs IH]; simpl; [done|]. intros F. apply andb_prop in F as [F1 F2].
  destruct (f ev) eqn:E; [apply H in E; congruence|auto].
Qed.

(** The events that name a channel: [StopLcores] makes its own, gives it with its
    jobs and receives from it. *)
Definition names (c : nat) (ev : ev_t) : bool :=
  match ev with Make k _ | Recv k => (k =? c)%nat | Submit _ j => asks c j | Thread _ => false end.

Lemma count_names c f evs : (forall ev, f ev = true -> names c ev = true) -> count f evs = count f (List.filter (names c) evs).
Proof.
  intros H. unfold count. induction evs as [|ev evs IH]; [done|]. cbn [List.filter]. destruct (f ev) eqn:F.
  - rewrite (H ev F). cbn [List.filter length]. rewrite F. simpl. by rewrite IH.
  - destruct (names c ev); [cbn [List.filter]; by rewrite F|done].
Qed.

Lemma submitted_names c id evs :
  List.filter (asks c) (submitted id evs) = submitted id (List.filter (names c) evs).
Proof.
  unfold submitted. induction evs as [|ev evs IH]; [done|]. cbn [omap list_omap List.filter].
  destruct ev as [i j|i|k|k n]; cbn [names].
  - destruct (asks c j) eqn:A; cbn [omap list_omap]; destruct (i =? id); cbn [List.filter]; rewrite ?A; by rewrite ?IH.
  - exact IH.
  - destruct (k =? c)%nat; exact IH.
  - destruct (k =? c)%nat; exact IH.
Qed.

Lemma filter_head_split {A} (f : A -> bool) l x r : List.filter f l = x :: r -> exists l1 l2, l = l1 ++ x :: l2.
Proof.
  induction l as [|y l IH]; [done|]. cbn [List.filter]. destruct (f y).
  - intros [= -> _]. by exists [], l.
  - intros E. destruct (IH E) as (l1 & l2 & ->). by exists (y :: l1), l2.
Qed.

Lemma exec_work_le s ev s' : exec PanicAsErr s ev = Some s' -> crashed s' = false ->
  (msum work (lcores s') + (if is_thread ev then 1 else 0) <= msum work (lcores s) + (if is_submit ev then 3 else 0))%nat.
Proof.
  intros E Cr. destruct (is_submit ev) eqn:Su; [|pose proof (exec_work s ev s' E Cr Su); lia].
  destruct ev as [i j|i|c|c n]; try done. cbn [is_thread]. unfold exec in E. destruct (crashed s); [done|].
  unfold ExecOnLcoreAsync in E. destruct (lcores s !! i) as [ctx|] eqn:Hc.
  - destruct (_ <? _)%nat; [|done]. injection E as <-. cbn [lcores set_lcore].
    set (ctx' := mkCtx _ _ _ _). pose proof (msum_update work (lcores s) i ctx ctx' Hc) as M.
    assert (W : work ctx' = (work ctx + 3)%nat) by (unfold ctx', work; cbn; rewrite length_app; cbn; lia). lia.
  - destruct (ret_ j); [apply send_inv in E as (x & _ & _ & ->); simpl; lia|injection E as <-; lia].
Qed.

Lemma run_work_le evs : forall s s', run PanicAsErr s evs = Some s' -> crashed s' = false ->
  (count is_thread evs + msum work (lcores s') <= msum work (lcores s) + 3 * count is_submit evs)%nat.
Proof.
  induction evs as [|ev evs IH]; intros s s' R Cr; simpl in R; [injection R as <-; unfold count; simpl; lia|].
  destruct (exec PanicAsErr s ev) as [s1|] eqn:E; [|done].
  pose proof (exec_work_le s ev s1 E (run_crashed _ _ _ R Cr)). specialize (IH s1 s' R Cr).
  unfold count in *. simpl. destruct (is_thread ev), (is_submit ev); simpl; lia.
Qed.

(** No thread can go on, and none is stuck on a channel other than [c]. *)
Definition settled (c : nat) (s : state) : Prop :=
  (forall id, exec PanicAsErr s (Thread id) = None) /\
  (forall id ctx j e c', lcores s !! id = Some ctx -> ph ctx = Replying j e -> ret_ j = Some c' -> c' = c).

Definition exited (ctx : ctx_t) : bool := match ph ctx with Exited => true | _ => false end.
Lemma exited_settled c s : map_Forall (fun _ ctx => exited ctx = true) (lcores s) -> settled c s.
Proof.
  intros F. split.
  - intros id. unfold exec. destruct (crashed s); [done|]. unfold lcoreFuncListener. destruct (lcores s !! id) as [ctx|] eqn:E; [|done].
    apply F in E. unfold exited in E. by destruct (ph ctx).
  - intros id ctx j e c' E Ep _. apply F in E. unfold exited in E. by rewrite Ep in E.
Qed.

Lemma count_replicate f n ev : count f (replicate n ev) = if f ev then n else 0%nat.
Proof. unfold count. induction n as [|n IH]; simpl; [by destruct (f ev)|]. destruct (f ev); simpl; by rewrite IH. Qed.

(** While [StopLcores] has sent all its jobs and received [k] results. *)
Section Stopping.
Variables (ids : list Z) (v0 : V) (evs : list ev_t) (c k : nat) (s : state).
Hypothesis Nd : NoDup ids.
Hypothesis Own : List.filter (names c) evs = stop_jobs c ids ++ replicate k (Recv c).
Hypothesis Only : forall id j, j ∈ submitted id evs -> is_stop j = true -> ret_ j = Some c.
Hypothesis R : run PanicAsErr (ealLaunch ids v0) evs = Some s.
Hypothesis Cr : crashed s = false.

Lemma stop_counts : count (is_ask c) evs = length ids /\ count (is_recv c) evs = k.
Proof.
  rewrite !(count_names c) with (evs := evs) by (by intros [i j|i|n|n m]). rewrite Own, !count_app.
  destruct (count_stop_jobs c ids) as [-> ->]. rewrite !count_replicate. simpl. rewrite Nat.eqb_refl. lia.
Qed.

Lemma stop_asks id : id ∈ ids -> List.filter (asks c) (submitted id evs) = [mkJob StopFn (Some c)].
Proof.
  intros Hid. rewrite submitted_names, Own, submitted_app, (submitted_stop_jobs c ids id Nd Hid), submitted_none; [done|].
  clear. induction k; [done|]. simpl. done.
Qed.

Lemma stop_cap : exists x, chans s !! c = Some x /\ cap x = length ids.
Proof.
  destruct (filter_head_split (names c) evs (Make c (length ids)) _ Own) as (e1 & e2 & E). clear Own Only.
  rewrite E, run_app in R. destruct (run _ _ e1) as [s0|]; [|done]. simpl in R.
  destruct (exec PanicAsErr s0 (Make c (length ids))) as [s1|] eqn:X; [|done]. unfold exec in X.
  destruct (crashed s0); [done|]. destruct (chans s0 !! c); [done|]. destruct (0 <? length ids)%nat; [|done].
  injection X as <-. destruct (run_cap c _ _ s (mkChan [] (length ids)) R) as (x & Hx & Cx); [apply lookup_insert_eq|].
  by exists x.
Qed.

Lemma settled_exits id : settled c s -> id ∈ ids ->
  exists ctx before, lcores s !! id = Some ctx /\ ph ctx = Exited /\
    submitted id evs = before ++ mkJob StopFn (Some c) :: ch ctx /\ existsb is_stop before = false.
Proof.
  intros [St Ch] Hid. destruct (lcore_inv ids v0 _ s id R Cr Hid) as (ctx & ran & Hc & [_ Sd Sp] & Eq).
  pose proof (balance ids v0 _ s c R Cr) as B. destruct stop_counts as [B1 B2]. rewrite B1, B2 in B.
  destruct stop_cap as (x & Hx & Cx). unfold buffered in B. rewrite Hx in B.
  specialize (St id). unfold exec in St. rewrite Cr in St. unfold lcoreFuncListener in St. rewrite Hc in St.
  exists ctx. unfold current in Eq. destruct (ph ctx) as [|j|j e|] eqn:Ep.
  - exfalso. destruct (ch ctx) as [|j r] eqn:Ec; [|done]. simpl in Eq. rewrite app_nil_r in Eq.
    assert (J : mkJob StopFn (Some c) ∈ List.filter (asks c) (submitted id evs)) by (rewrite (stop_asks id Hid); by left).
    apply list_elem_of_In, filter_In in J as [J _]. rewrite Eq in J.
    assert (X : existsb is_stop ran = true) by (apply existsb_exists; by eexists). by rewrite X in Sp.
  - exfalso. destruct PanicAsErr; [by destruct (panicCatcher _ _ _)|]. by destruct (call_fn (fn j) ctx) as [? [?|]].
  - exfalso. destruct (ret_ j) as [c'|] eqn:Ej; [|done]. pose proof (Ch id ctx j e c' Hc Ep Ej) as ->.
    unfold send in St. rewrite Hx, Cx in St. pose proof (msum_lookup (pend c) (lcores s) id ctx Hc) as M.
    unfold pend at 1 in M. rewrite Ep, (asks_Some c c j Ej), bool_decide_eq_true_2 in M by done.
    rewrite (proj2 (Nat.ltb_lt _ _)) in St by lia. done.
  - destruct Sp as (pre & j & -> & Np & Sj). exists pre. simpl in Eq.
    assert (Rj : ret_ j = Some c).
    { apply (Only id); [|done]. rewrite Eq. apply elem_of_app. left. apply elem_of_app. right. by left. }
    assert (Ej : j = mkJob StopFn (Some c)) by (destruct j as [[f|] r]; [done|]; simpl in Rj; by subst r).
    split_and!; [done|done| |done]. by rewrite Eq, Ej, <- app_assoc.
Qed.

(** The results still to come are in the channel. *)
Lemma settled_buffered : settled c s -> (k + buffered c s = length ids)%nat.
Proof.
  intros St. pose proof (balance ids v0 _ s c R Cr) as B. destruct stop_counts as [B1 B2]. rewrite B1, B2 in B.
  rewrite (msum_zero (pend c)) in B; [lia|].
  intros i ctx Hi. assert (Hid : i ∈ ids) by (apply (run_dom ids v0 _ s i R); eauto).
  destruct (settled_exits i St Hid) as (ctx' & pre & Hc & Hp & Eq & _). rewrite Hi in Hc. injection Hc as <-.
  unfold pend. rewrite Hp. pose proof (stop_asks i Hid) as A. rewrite Eq, List.filter_app in A. simpl in A.
  assert (T : asks c (mkJob StopFn (Some c) : job) = true) by (unfold asks; simpl; by apply bool_decide_eq_true_2).
  rewrite T in A. apply (f_equal length) in A. rewrite length_app in A. simpl in A. lia.
Qed.
End Stopping.

Lemma receives n : forall c s, crashed s = false -> (n <= buffered c s)%nat -> is_Some (run PanicAsErr s (replicate n (Recv c))).
Proof.
  induction n as [|n IH]; intros c s Cr B; simpl; [eauto|]. unfold exec. rewrite Cr. unfold receive. unfold buffered in B.
  destruct (chans s !! c) as [[[|e r] m]|] eqn:Hx; simpl in B; try lia. simpl. apply IH; [done|].
  unfold buffered; simpl. rewrite lookup_insert_eq. simpl. lia.
Qed.
End Lcores.

(** C2. Jobs of an lcore run in sequence: in every interleaving, an lcore has run a
    first part of the jobs submitted to it, in their order, and the rest is its
    current job and its queue; [ctx.Value] is what running them one after the
    other makes of it; a panic (where it is caught) stops neither the lcore nor
    the jobs behind; the thread has ended only if a job of [StopLcores] was
    among them. *)
Theorem lcore_sequential V P (PanicAsErr : bool) ids (v0 : V) evs (s : @ealConfig V P) id
    (R : run PanicAsErr (ealLaunch ids v0) evs = Some s) (Cr : crashed s = false) (Hid : id ∈ ids) :
  exists ctx ran, lcores s !! id = Some ctx /\ submitted id evs = ran ++ current ctx ++ ch ctx /\
    Value ctx = fst (serve id v0 ran) /\
    (ph ctx = Exited -> existsb is_stop ran = true) /\ (ph ctx = Idle -> existsb is_stop ran = false) /\
    (forall j e, ph ctx = Replying j e -> last (zip ran (snd (serve id v0 ran))) = Some (j, e)).
Proof.
  destruct (lcore_inv PanicAsErr ids v0 evs s id R Cr Hid) as (ctx & ran & Hc & [Sv Sd Sp] & Eq).
  exists ctx, ran. split_and!; [done|done|done| |intros E; by rewrite E in Sp|].
  { intros E. rewrite E in Sp. destruct Sp as (pre & j & -> & _ & Sj). rewrite existsb_app. simpl. by rewrite Sj, orb_true_r. }
  intros j e E. rewrite E in Sp. destruct Sp as (pre & -> & _ & ->).
  rewrite zip_with_app by (by rewrite length_serve). simpl. by rewrite last_snoc.
Qed.

(** Every job is answered once: for a result channel, the jobs that name it
    are the results received from it, those it holds, and the jobs still
    queued or running. *)
Theorem results_conserved V P (PanicAsErr : bool) ids (v0 : V) evs (s : @ealConfig V P) c
    (R : run PanicAsErr (ealLaunch ids v0) evs = Some s) (Cr : crashed s = false) :
  count (is_ask c) evs = (count (is_recv c) evs + buffered c s + msum (pend c) (lcores s))%nat.
Proof. by apply (balance PanicAsErr ids v0). Qed.

(** C4. [StopLcores] ends every thread, whatever the goroutines submit meanwhile,
    between its jobs and behind them. Take any run, not ended by the panic of a job, in which
    it has sent all its jobs and received [k] results, nobody else uses its channel
    and no other [StopLcores] runs. From there the threads do at most [work] more actions and
    three for each job that is still submitted. When none can act, and none hangs
    on a channel other than its own (its reader gone), every thread has ended
    behind the job of [StopLcores], the jobs before that one are done, those that
    were submitted behind it stay in the queue and are never run, and
    [StopLcores] gets the results it waits for and returns. *)
Theorem StopLcores_stops V P (PanicAsErr : bool) ids (v0 : V) evs c k (s : @ealConfig V P)
    (Nd : NoDup ids) (Own : List.filter (names c) evs = stop_jobs c ids ++ replicate k (Recv c))
    (Only : forall id j, j ∈ submitted id evs -> is_stop j = true -> ret_ j = Some c)
    (R : run PanicAsErr (ealLaunch ids v0) evs = Some s) (Cr : crashed s = false) :
  (forall ts s', run PanicAsErr s ts = Some s' -> crashed s' = false ->
     (count is_thread ts <= msum work (lcores s) + 3 * count is_submit ts)%nat) /\
  (settled PanicAsErr c s ->
    (forall id, id ∈ ids -> exists ctx before, lcores s !! id = Some ctx /\ ph ctx = Exited /\
       submitted id evs = before ++ mkJob StopFn (Some c) :: ch ctx /\ existsb is_stop before = false) /\
    is_Some (run PanicAsErr s (replicate (length ids - k) (Recv c)))).
Proof.
  split.
  - intros ts s' R' Cr'. pose proof (run_work_le PanicAsErr ts s s' R' Cr'). lia.
  - intros St. split.
    + intros id Hid. by apply (settled_exits PanicAsErr ids v0 evs c k s).
    + apply receives; [done|]. pose proof (settled_buffered PanicAsErr ids v0 evs c k s Nd Own Only R Cr St). lia.
Qed.

(** Two lcores: 3 panics on its first job and goes on. *)
Definition sample_jobs : list (@event Z Z) :=
  [Make 0 2; Submit 3 (mkJob (User (fun v => (v + 1, Some 9))) (Some 0%nat)); Thread 3; Submit 3 (mkJob (User (fun v => (v * 10, None))) None);
   Thread 3; Thread 3; Thread 3; Thread 3; Thread 3; Recv 0].

Example sample_jobs_result :
  option_map (fun s => (Value <$> lcores s !! 3, buffered 0 s)) (run true (ealLaunch [3; 5] 4) sample_jobs) = Some (Some 50, 0%nat).
Proof. vm_compute. reflexivity. Qed.

Lemma lcore_sequential_witness :
  let s := default (ealLaunch [] 0) (run true (ealLaunch [3; 5] 4) sample_jobs) in
  exists ctx ran, lcores s !! 3 = Some ctx /\ submitted 3 sample_jobs = ran ++ current ctx ++ ch ctx /\
    Value ctx = fst (serve 3 4 ran).
Proof.
  intros s. destruct (lcore_sequential Z Z true [3; 5] 4 sample_jobs s 3) as (ctx & ran & H1 & H2 & H3 & _);
    [vm_compute; reflexivity|vm_compute; reflexivity|apply (bool_decide_unpack _); vm_compute; exact I|].
  exists ctx, ran. split; [exact H1|]. split; [exact H2|exact H3].
Defined.

Lemma results_conserved_witness :
  let s := default (ealLaunch [] 0) (run true (ealLaunch [3; 5] 4) sample_jobs) in
  count (is_ask 0) sample_jobs = 1%nat /\ (1 = count (is_recv 0) sample_jobs + buffered 0 s + msum (pend 0) (lcores s))%nat.
Proof.
  intros s. split; [vm_compute; reflexivity|].
  apply (results_conserved Z Z true [3; 5] 4 sample_jobs s 0%nat); vm_compute; reflexivity.
Defined.

(** Both lcores are stopped while a goroutine goes on: a job for lcore 5 between the
    jobs of [StopLcores], and one for lcore 3 behind its end. *)
Definition sample_stop : list (@event Z Z) :=
  let job := mkJob (User (fun v => (v + 2, None))) None in
  sample_jobs ++ [Make 1 2; Submit 3 (mkJob StopFn (Some 1%nat)); Submit 5 job; Thread 5; Submit 5 (mkJob StopFn (Some 1%nat));
    Thread 3; Thread 3; Thread 5; Thread 3; Recv 1; Submit 3 job; Thread 5; Thread 5; Thread 5; Thread 5].

Lemma StopLcores_stops_witness :
  let s := default (ealLaunch [] 0) (run true (ealLaunch [3; 5] 4) sample_stop) in
  (forall ts s', run true s ts = Some s' -> crashed s' = false -> (count is_thread ts <= 3 + 3 * count is_submit ts)%nat) /\
  (exists ctx before, lcores s !! 3 = Some ctx /\ ph ctx = Exited /\
     submitted 3 sample_stop = before ++ mkJob StopFn (Some 1%nat) :: ch ctx /\ existsb is_stop before = false) /\
  is_Some (run true s [Recv 1]).
Proof.
  intros s.
  destruct (StopLcores_stops Z Z true [3; 5] 4 sample_stop 1 1 s) as [A B].
  - apply (bool_decide_unpack _). vm_compute. exact I.
  - vm_compute. reflexivity.
  - intros id j Hj Sj. unfold submitted in Hj. apply list_elem_of_omap in Hj as (ev & Hev & Ej).
    unfold sample_stop, sample_jobs in Hev. cbn [app] in Hev.
    repeat (apply elem_of_cons in Hev as [->|Hev]; [try discriminate Ej; cbn in Ej; (case_match; [|discriminate Ej]); injection Ej as <-; try discriminate Sj; reflexivity|]).
    by apply not_elem_of_nil in Hev.
  - vm_compute. reflexivity.
  - vm_compute. reflexivity.
  - split; [exact A|].
    assert (St : settled true 1 s).
    { apply exited_settled. apply (bool_decide_unpack _). vm_compute. exact I. }
    destruct (B St) as [B1 B2]. split; [|exact B2]. apply B1. apply (bool_decide_unpack _). vm_compute. exact I.
Defined.

Lemma serve_at {V P} id (v0 : V) (ran : list (@lcoreJob V P)) k j : ran !! k = Some j ->
  snd (serve id v0 ran) !! k = Some (snd (serve1 id (fst (serve id v0 (take k ran))) j)).
Proof.
  revert k v0. induction ran as [|j' ran IH]; intros [|k] v0 H; simpl in H; try done.
  - injection H as ->. simpl. destruct (serve1 id v0 j) as [v e]. by destruct (serve id v ran).
  - simpl. destruct (serve1 id v0 j') as [v e] eqn:E1. specialize (IH k v H).
    destruct (serve id v ran) as [v2 es]. simpl in *. rewrite IH. by destruct (serve id v (take k ran)).
Qed.

(** C3. What a caller gets: on a channel that only jobs of one lcore name, the
    results come in the order of the jobs, each the result its function has in
    the sequential run; so [ExecOnLcore] returns nil or the panic of its own
    function, run on the value the jobs before it left. *)
Theorem lcore_results V P (PanicAsErr : bool) ids (v0 : V) evs (s : @ealConfig V P) id c
    (R : run PanicAsErr (ealLaunch ids v0) evs = Some s) (Cr : crashed s = false) (Hid : id ∈ ids) (Pr : private c id evs) :
  exists done_jobs, done_jobs `prefix_of` submitted id evs /\
    received PanicAsErr c (ealLaunch ids v0) evs ++ bufl c s = sent_to c (results id v0 done_jobs) /\
    forall k j, done_jobs !! k = Some j ->
      results id v0 done_jobs !! k = Some (j, snd (serve1 id (fst (serve id v0 (take k done_jobs))) j)).
Proof.
  destruct (private_inv PanicAsErr ids v0 evs s id c R Cr Hid Pr) as (ctx & ran & Hc & S & Eq & Rc).
  assert (D : exists dj, dj `prefix_of` ran /\ answered id v0 ctx ran = results id v0 dj).
  { unfold answered. destruct (ph ctx) as [| |j e|] eqn:Ep; try (by exists ran).
    destruct S as [_ _ Sp]. rewrite Ep in Sp. destruct Sp as (pre & -> & _ & So). exists pre. split; [by exists [j]|].
    by rewrite (results_snoc _ _ _ _ _ So), removelast_last. }
  destruct D as (dj & Pd & Ed). exists dj. split_and!.
  - rewrite Eq. etrans; [exact Pd|]. by eexists.
  - by rewrite Rc, Ed.
  - intros k j Hk. unfold results. apply lookup_zip_with_Some. exists j, (snd (serve1 id (fst (serve id v0 (take k dj))) j)).
    split_and!; [done|done|by apply serve_at].
Qed.

Lemma lcore_results_witness :
  let s := default (ealLaunch [] 0) (run true (ealLaunch [3; 5] 4) sample_jobs) in
  received true 0 (ealLaunch [3; 5] 4) sample_jobs = [Some (ErrLcorePanic 3 9)] /\
  exists done_jobs, done_jobs `prefix_of` submitted 3 sample_jobs /\
    received true 0 (ealLaunch [3; 5] 4) sample_jobs ++ bufl 0 s = sent_to 0 (results 3 4 done_jobs).
Proof.
  intros s. split; [vm_compute; reflexivity|].
  destruct (lcore_results Z Z true [3; 5] 4 sample_jobs s 3 0) as (dj & A & B & _);
    [vm_compute; reflexivity|vm_compute; reflexivity|apply (bool_decide_unpack _); vm_compute; exact I|
     repeat constructor|exists dj; split; [exact A|exact B]].
Defined.

(** ** After the end *)

Section After.
Context {V P : Type}.
Variable PanicAsErr : bool.
Implicit Types (s : @ealConfig V P) (evs : list (@event V P)).

(** An ended thread stays ended and its queue only grows. *)
Lemma exec_exited s ev s' id ctx : exec PanicAsErr s ev = Some s' -> lcores s !! id = Some ctx -> ph ctx = Exited ->
  exists ctx' more, lcores s' !! id = Some ctx' /\ ph ctx' = Exited /\ ch ctx' = ch ctx ++ more.
Proof.
  intros E Hc Hp. assert (Nt : ev <> Thread id).
  { intros ->. unfold exec in E. destruct (crashed s); [done|]. unfold lcoreFuncListener in E. by rewrite Hc, Hp in E. }
  destruct (exec_queue PanicAsErr s ev s' id ctx E Hc Nt) as (ctx' & H & _ & _ & P' & Q). exists ctx', (submitted id [ev]).
  split_and!; [done|congruence|done].
Qed.

Lemma run_exited evs : forall s s' id ctx, run PanicAsErr s evs = Some s' -> lcores s !! id = Some ctx -> ph ctx = Exited ->
  exists ctx' more, lcores s' !! id = Some ctx' /\ ph ctx' = Exited /\ ch ctx' = ch ctx ++ more.
Proof.
  induction evs as [|ev evs IH]; intros s s' id ctx R Hc Hp; simpl in R.
  - injection R as <-. exists ctx, []. by rewrite app_nil_r.
  - destruct (exec PanicAsErr s ev) as [s1|] eqn:E; [|done].
    destruct (exec_exited s ev s1 id ctx E Hc Hp) as (c1 & m1 & H1 & P1 & Q1).
    destruct (IH s1 s' id c1 R H1 P1) as (c2 & m2 & H2 & P2 & Q2). exists c2, (m1 ++ m2).
    split_and!; [done|done|]. by rewrite Q2, Q1, app_assoc.
Qed.
End After.

(** C40. A job for an lcore whose thread has ended is accepted and never answered:
    [ExecOnLcore] then waits for ever, whatever the others do, for a result that
    never comes. *)
Theorem ExecOnLcore_after_stop V P (PanicAsErr : bool) ids (v0 : V) evs0 c id f ts (s0 s : @ealConfig V P) ctx
    (New : count (is_ask c) evs0 = 0%nat /\ count (is_recv c) evs0 = 0%nat)
    (R0 : run PanicAsErr (ealLaunch ids v0) evs0 = Some s0) (Hc : lcores s0 !! id = Some ctx) (Ended : ph ctx = Exited)
    (Own : count (is_ask c) ts = 0%nat)
    (R : run PanicAsErr s0 ([Make c 1; Submit id (mkJob f (Some c))] ++ ts) = Some s) (Cr : crashed s = false) :
  count (is_recv c) ts = 0%nat /\ exec PanicAsErr s (Recv c) = None.
Proof.
  destruct New as [A0 B0].
  assert (R' : run PanicAsErr (ealLaunch ids v0) (evs0 ++ [Make c 1; Submit id (mkJob f (Some c))] ++ ts) = Some s)
    by (rewrite run_app, R0; done).
  pose proof (balance PanicAsErr ids v0 _ s c R' Cr) as B. rewrite !count_app, A0, B0, Own in B.
  assert (A1 : count (is_ask c) [Make c 1; Submit id (mkJob f (Some c))] = 1%nat).
  { unfold count; simpl. unfold asks; simpl. by rewrite bool_decide_eq_true_2. }
  rewrite A1 in B. change (count (is_recv c) [Make c 1; Submit id (mkJob f (Some c))]) with 0%nat in B.
  rewrite run_app in R. destruct (run PanicAsErr s0 _) as [s1|] eqn:R1; [|done].
  assert (Q : exists ctx1 more, lcores s1 !! id = Some ctx1 /\ ph ctx1 = Exited /\ ch ctx1 = more ++ [mkJob f (Some c)]).
  { simpl in R1. destruct (exec PanicAsErr s0 (Make c 1)) as [sm|] eqn:Em; [|done].
    destruct (exec_exited PanicAsErr s0 _ sm id ctx Em Hc Ended) as (cm & mm & Hm & Pm & Qm).
    destruct (exec PanicAsErr sm _) as [sn|] eqn:En; [|done]. injection R1 as <-. unfold exec in En.
    destruct (crashed sm); [done|]. unfold ExecOnLcoreAsync in En. rewrite Hm in En. destruct (_ <? _)%nat; [|done].
    injection En as <-. simpl. rewrite lookup_insert_eq. eexists _, (ch cm). done. }
  destruct Q as (ctx1 & more & H1 & P1 & Q1). destruct (run_exited PanicAsErr ts s1 s id ctx1 R H1 P1) as (ctx2 & m2 & H2 & P2 & Q2).
  pose proof (msum_lookup (pend c) (lcores s) id ctx2 H2) as M. unfold pend at 1 in M.
  rewrite Q2, Q1, !List.filter_app, !length_app in M. simpl in M. unfold asks at 2 in M. simpl in M.
  rewrite bool_decide_eq_true_2 in M by done. simpl in M. split; [lia|]. unfold exec. rewrite Cr.
  assert (Z0 : buffered c s = 0%nat) by lia. unfold buffered in Z0. unfold receive.
  destruct (chans s !! c) as [[[|e r] n]|]; done.
Qed.

Lemma ExecOnLcore_after_stop_witness :
  let evs0 := sample_jobs ++ stop_jobs 1 [3] ++ [Thread 3; Thread 3; Thread 3; Recv 1] in
  let s0 := default (ealLaunch [] 0) (run true (ealLaunch [3; 5] 4) evs0) in
  let s := default (ealLaunch [] 0) (run true s0 ([Make 2 1; Submit 3 (mkJob (User (fun v => (v, None))) (Some 2%nat))] ++ [])) in
  exec true s (Recv 2) = None.
Proof.
  intros evs0 s0 s.
  destruct (ExecOnLcore_after_stop Z Z true [3; 5] 4 evs0 2 3 (User (fun v => (v, None))) [] s0 s
    (mkCtx 50 [] true Exited)) as [_ A]; [split; vm_compute; reflexivity|vm_compute; reflexivity..|exact A].
Defined.

(** ** Enumeration and initialisation *)

Section Iter.
Variable enabled : Z -> bool.
Variable main MAX : Z.

(** The lcores that count: enabled, and not the main one if it is skipped. *)
Definition counts (sm i : Z) : bool := enabled i && negb ((sm =? 1) && (i =? main)).

(** The documentation of [rte_get_next_lcore]: the next lcore that counts, or
    [RTE_MAX_LCORE]; from [-1] it starts with the first. *)
Fixpoint scan (n : nat) (i sm : Z) : Z :=
  match n with
  | O => MAX
  | S k => if counts sm i then i else scan k (i + 1) sm
  end.
Definition rte_get_next_lcore (i sm : Z) : Z := let i := u32 (i + 1) in scan (Z.to_nat (MAX - i)) i sm.

Hypothesis max_range : 0 <= MAX < 2 ^ 32.

Lemma scan_spec n : forall i sm, i + Z.of_nat n = MAX ->
  i <= scan n i sm <= MAX /\ (scan n i sm < MAX -> counts sm (scan n i sm) = true) /\
  forall k, i <= k < scan n i sm -> counts sm k = false.
Proof.
  induction n as [|n IH]; intros i sm H; cbn [scan]; [split_and!; intros; lia|].
  destruct (counts sm i) eqn:E; [split_and!; [lia|lia|done|intros; lia]|].
  destruct (IH (i + 1) sm ltac:(lia)) as (A & B & C). split_and!; [lia|lia|done|].
  intros k Hk. destruct (Z.eq_dec k i) as [->|]; [done|]. apply C. lia.
Qed.

Definition range (a b : Z) : list Z := map (fun k => a + Z.of_nat k) (seq 0 (Z.to_nat (b - a))).

Lemma elem_of_range a b x : x ∈ range a b <-> a <= x < b.
Proof.
  unfold range. rewrite list_elem_of_fmap. split.
  - intros (k & -> & Hk). apply elem_of_seq in Hk. lia.
  - intros H. exists (Z.to_nat (x - a)). split; [lia|]. apply elem_of_seq. lia.
Qed.

Lemma range_app a b c : a <= b <= c -> range a c = range a b ++ range b c.
Proof.
  intros H. unfold range. replace (Z.to_nat (c - a)) with (Z.to_nat (b - a) + Z.to_nat (c - b))%nat by lia.
  rewrite seq_app, map_app. f_equal. simpl. apply list_eq. intros i. rewrite !list_lookup_fmap.
  destruct (Nat.lt_ge_cases i (Z.to_nat (c - b))).
  - rewrite !lookup_seq_lt by done. simpl. f_equal. lia.
  - by rewrite !lookup_seq_ge.
Qed.

Lemma filter_range_none sm a b : (forall k, a <= k < b -> counts sm k = false) -> List.filter (counts sm) (range a b) = [].
Proof.
  intros H. assert (F : Forall (fun k => counts sm k = false) (range a b)).
  { apply Forall_forall. intros x Hx. apply H. by apply elem_of_range. }
  induction F as [|x l Hx _ IH]; [done|]. simpl. by rewrite Hx.
Qed.

Lemma lcores_loop_range fuel : forall i sm, 0 <= u32 (i + 1) <= MAX -> MAX - u32 (i + 1) <= Z.of_nat fuel ->
  lcores_loop rte_get_next_lcore MAX fuel i sm = List.filter (counts sm) (range (u32 (i + 1)) MAX).
Proof.
  induction fuel as [|k IH]; intros i sm Hi Hf; cbn [lcores_loop].
  - replace (u32 (i + 1)) with MAX by lia. unfold range. by rewrite Z.sub_diag.
  - unfold next, rte_get_next_lcore. set (a := u32 (i + 1)) in *.
    destruct (scan_spec (Z.to_nat (MAX - a)) a sm ltac:(lia)) as (A & B & C). set (x := scan _ a sm) in *.
    destruct (Z.ltb_spec x MAX) as [L|L].
    + rewrite (range_app a x MAX), List.filter_app, filter_range_none by (done || lia). simpl.
      rewrite (range_app x (x + 1) MAX), List.filter_app by lia.
      assert (E1 : range x (x + 1) = [x]).
      { unfold range. replace (x + 1 - x) with 1 by lia. simpl. by rewrite Z.add_0_r. }
      rewrite E1. simpl. rewrite (B L). simpl. f_equal. unfold next, rte_get_next_lcore in IH.
      rewrite IH; rewrite u32_small by lia; [done|lia|lia].
    + assert (x = MAX) as E by lia. rewrite filter_range_none; [done|]. intros j Hj. apply C. lia.
Qed.

End Iter.

(** [Lcores] lists the enabled lcores, each once, in ascending order, and
    [LcoresWorker] all of them but the main one, when [rte_get_next_lcore] does
    what its documentation says; the loop ends. *)
Theorem Lcores_spec enabled main MAX (H : 0 < MAX < 2 ^ 32) :
  Lcores (rte_get_next_lcore enabled main MAX) MAX = List.filter enabled (range 0 MAX) /\
  LcoresWorker (rte_get_next_lcore enabled main MAX) MAX = List.filter (fun i => enabled i && negb (i =? main)) (range 0 MAX).
Proof.
  assert (U : u32 (2 ^ 32 - 1 + 1) = 0) by reflexivity.
  split; unfold Lcores, LcoresWorker, getLcores; rewrite lcores_loop_range by (rewrite ?U; lia); rewrite U;
    apply filter_ext; intros i; unfold counts; simpl; [by rewrite andb_true_r|done].
Qed.

Lemma Lcores_spec_witness :
  Lcores (rte_get_next_lcore (fun i => i mod 3 =? 1) 4 10) 10 = [1; 4; 7] /\
  LcoresWorker (rte_get_next_lcore (fun i => i mod 3 =? 1) 4 10) 10 = [1; 7].
Proof. apply (Lcores_spec (fun i => i mod 3 =? 1) 4 10). lia. Defined.

(** ** The wait group *)

Lemma init_wg ids evs : forall s s', ids <> [] -> init_run ids s evs = Some s' ->
  (if added s then wg s = Z.of_nat (length ids) - Z.of_nat (length (launched s))
   else if failed s then wg s = 0 /\ launched s = [] else wg s = 1 /\ launched s = []) ->
  NoDup (launched s) /\ (launched s ⊆ ids) ->
  (if added s' then wg s' = Z.of_nat (length ids) - Z.of_nat (length (launched s'))
   else if failed s' then wg s' = 0 /\ launched s' = [] else wg s' = 1 /\ launched s' = []) /\
  NoDup (launched s') /\ (launched s' ⊆ ids).
Proof.
  induction evs as [|ev evs IH]; intros s s' Ne R I N; simpl in R; [by injection R as <-|].
  destruct (Init ids s ev) as [s1|] eqn:E; [|done]. apply (IH s1 s' Ne R).
  - destruct ev as [| |i]; simpl in E; destruct (added s) eqn:A, (failed s) eqn:F; simpl in E; try done;
      try (destruct (bool_decide _); simpl in E; [|done]; destruct (bool_decide _); simpl in E; [|done]);
      injection E as <-; simpl; try lia.
    destruct I as [-> _]. done.
  - destruct ev as [| |i]; simpl in E.
    + destruct (_ || _); [done|]. injection E as <-. split; [apply NoDup_nil_2|apply list_subseteq_nil].
    + destruct (_ || _); [done|]. injection E as <-. split; [apply NoDup_nil_2|apply list_subseteq_nil].
    + destruct (_ && _) eqn:B; [|done]. injection E as <-. apply andb_prop in B as [B B3]. apply andb_prop in B as [_ B2].
      apply bool_decide_eq_true in B2, B3. destruct N as [N1 N2]. split; [by apply NoDup_cons_2|].
      intros x [->|Hx]%elem_of_cons; [done|by apply N2].
Qed.

(** [Init] returns at the right moment: in every order of events its wait ends
    exactly when [rte_eal_init] has failed or every lcore has started its
    thread; before that it never ends. *)
Theorem Init_waits ids evs s (Ne : ids <> []) (Nd : NoDup ids) (R : init_run ids init_start evs = Some s) :
  init_returns s = true <-> failed s = true \/ (added s = true /\ forall id, id ∈ ids -> id ∈ launched s).
Proof.
  destruct (init_wg ids evs init_start s Ne R) as (I & Nl & Sub); [done|split; [apply NoDup_nil_2|apply list_subseteq_nil]|].
  unfold init_returns. rewrite Z.eqb_eq. destruct (added s) eqn:A.
  - split.
    + intros W. right. split; [done|]. assert (Len : length (launched s) = length ids) by lia.
      assert (Pm : launched s ≡ₚ ids).
      { apply submseteq_length_Permutation; [|lia]. by apply NoDup_submseteq. }
      intros id Hid. by rewrite Pm.
    + intros [F|[_ All]].
      * exfalso. clear - R A F. assert (G : forall evs s s', init_run ids s evs = Some s' -> (added s = true -> failed s = false) ->
          added s' = true -> failed s' = false).
        { induction evs0 as [|ev evs0 IH]; intros t t' Rt Ht; simpl in Rt; [by injection Rt as <-|].
          destruct (Init ids t ev) as [t1|] eqn:E; [|done]. apply (IH t1 t' Rt).
          destruct ev as [| |i]; simpl in E; destruct (added t), (failed t); simpl in E; try done;
            try (destruct (bool_decide _); simpl in E; [|done]; destruct (bool_decide _); simpl in E; [|done]);
            injection E as <-; done. }
        rewrite (G evs init_start s R ltac:(done) A) in F. done.
      * assert (Pm : ids ≡ₚ launched s).
        { apply (anti_symm submseteq); [by apply NoDup_submseteq|]. by apply NoDup_submseteq. }
        apply Permutation_length in Pm. lia.
  - destruct (failed s) eqn:F; destruct I as [W0 _]; rewrite W0.
    + split; [auto|done].
    + split; [lia|]. intros [?|[? _]]; done.
Qed.

Lemma Init_waits_witness :
  let s := default init_start (init_run [3; 5] init_start [InitSucceeds; LcoreDone 5; LcoreDone 3]) in
  init_returns s = true.
Proof.
  intros s. apply (Init_waits [3; 5] [InitSucceeds; LcoreDone 5; LcoreDone 3] s); [discriminate| |vm_compute; reflexivity|].
  - apply (bool_decide_unpack _). vm_compute. exact I.
  - right. split; [vm_compute; reflexivity|]. intros id Hid. rewrite !elem_of_cons in Hid.
    destruct Hid as [->|[->|H]]; [..|by apply elem_of_nil in H]; apply (bool_decide_unpack _); vm_compute; exact I.
Defined.
