(* ===== verification/Trace.v ===== *)
(** * Panics and their stacks as text

    The error of a panic on a lcore and the printing of its stack in
    [src/eal/init.go], [src/common/assert.go], and what the sniffer does with
    errors in [src/app/test-sniffer/util.go] and [main.go]. [runtime.CallersFrames]
    is an argument: program counters to frames. *)

From Stdlib Require Import ZArith Lia String.
From stdpp Require Import base list numbers option strings.
From S2P Require Import Prelude Text Split.

Open Scope Z_scope.

(** ** Stack frames *)

Record Frame := mkFrame { Function_ : list Z; File : list Z; Line : Z }.
Definition no_frame : Frame := mkFrame [] [] 0.

(** [Frames.Next]: a frame, or the zero one when there is none left, and whether
    there are more behind it. *)
Definition Next (frames : list Frame) : Frame * bool * list Frame :=
  match frames with
  | [] => (no_frame, false, [])
  | [f] => (f, false, [])
  | f :: r => (f, true, r)
  end.

(** [strings.Contains] and [strings.HasPrefix] *)
Definition Contains (s sub : list Z) : bool := bool_decide (is_Some (Index s sub)).
Definition HasPrefix (s prefix : list Z) : bool := bool_decide (take (length prefix) s = prefix).

(** ["%2d"] *)
Definition fmt_2d (n : Z) : list Z := replicate (2 - length (fmt_d n)) 32 ++ fmt_d n.

Definition newline : list Z := [10].
Definition stack_line (n : Z) (f : Frame) : list Z :=
  str " -- (" ++ fmt_2d n ++ str "): " ++ Function_ f ++ str ", " ++ File f ++ str ":" ++ fmt_d (Line f) ++ newline.

(** The loop at number [n]; at least one round. *)
Fixpoint print_loop (fuel : nat) (n : Z) (frames : list Frame) : option (list Z) :=
  match fuel with
  | O => None
  | S fuel =>
      let '(frame, more, frames) := Next frames in
      let line := if Contains (File frame) (str "runtime/") then [] else stack_line n frame in
      if more then app line <$> print_loop fuel (n + 1) frames else Some line
  end.

(* go: common/assert.go FprintStackFrames *)
Fixpoint FprintStackFrames (fuel : nat) (frames : list Frame) : option (list Z) :=
  match fuel with
  | O => None
  | S fuel =>
      let '(frame, more, frames) := Next frames in
      if negb more then Some []
      else if HasPrefix (Function_ frame) (str "runtime.") then FprintStackFrames fuel frames
      else app (str "... at " ++ File frame ++ str ":" ++ fmt_d (Line frame) ++ str ", " ++ Function_ frame ++ newline) <$> FprintStackFrames fuel frames
  end.

(** ** [common.Assert] *)

(** The calls of [testing.TB]. *)
Inductive tb_call {V} := Helper | Error_ (v : V) | FailNow.
Arguments tb_call : clear implicits.

(* go: common/assert.go Assert *)
Definition Assert {V} (fail expected : bool) (v : V) : list (tb_call V) :=
  if negb expected then [Helper; Error_ v] ++ if fail then [FailNow] else [] else [].

(** ** Errors *)

(** A Go error: the panic of a lcore, whose value may be an error, or another one
    with its text and what it wraps. *)
Inductive err_value :=
| LcorePanic (Pc : list Z) (LcoreID : Z) (R : panic_value)
| OtherError (text : list Z) (wrapped : option err_value)
with panic_value := ErrorValue (e : err_value) | PanicText (v : list Z).

Section Errors.
(** [runtime.CallersFrames] *)
Variable CallersFrames : list Z -> list Frame.

(* go: eal/init.go fPrintStack *)
Definition fPrintStack (pc : list Z) : option (list Z) :=
  let frames := CallersFrames pc in print_loop (length frames + 1) 0 frames.

(* go: eal/init.go strStack *)
Definition strStack (pc : list Z) : option (list Z) := fPrintStack pc.

(* go: eal/init.go ErrLcorePanic.FprintStack *)
Definition FprintStack (pc : list Z) : option (list Z) := fPrintStack pc.

(** [Error()]; ["%v"] of an error is its text. *)
(* go: eal/init.go ErrLcorePanic.Error *)
Fixpoint Error (e : err_value) : list Z :=
  match e with
  | LcorePanic _ id (ErrorValue e) => str "panic on lcore " ++ fmt_d id ++ str ": " ++ Error e
  | LcorePanic _ id (PanicText v) => str "panic on lcore " ++ fmt_d id ++ str ": " ++ v
  | OtherError t _ => t
  end.

(* go: eal/init.go ErrLcorePanic.Unwrap *)
Definition Unwrap (e : err_value) : option err_value :=
  match e with
  | LcorePanic _ _ (ErrorValue e) => Some e
  | LcorePanic _ _ (PanicText _) => None
  | OtherError _ w => w
  end.

(** [errors.As] with a target of type [*ErrLcorePanic]. *)
Fixpoint As (e : err_value) : option (list Z) :=
  match e with
  | LcorePanic pc _ _ => Some pc
  | OtherError _ (Some w) => As w
  | OtherError _ None => None
  end.

(** What is written to the standard output and to the log; [Fatal] also ends the
    program. *)
Inductive output := Stdout (t : list Z) | Log (t : list Z) | Fatal (t : list Z).

Definition stack_out (pc : list Z) : option (list output) := (fun t => [Stdout t]) <$> FprintStack pc.

(* go: app/test-sniffer/util.go failOnErr *)
Definition failOnErr (err : option err_value) : option (list output) :=
  match err with
  | None => Some []
  | Some err =>
      match As err with
      | Some pc => (fun l => l ++ [Fatal (Error err)]) <$> stack_out pc
      | None => Some [Fatal (Error err)]
      end
  end.

(** The goroutine that reads the results of the lcores, for the results [errs]. *)
(* go: app/test-sniffer/main.go 55-65 main *)
Fixpoint report_errors (errs : list (option err_value)) : option (list output) :=
  match errs with
  | [] => Some []
  | None :: errs => report_errors errs
  | Some err :: errs =>
      let shown := match err with LcorePanic pc _ _ => stack_out pc | OtherError _ _ => Some [] end in
      match shown, report_errors errs with
      | Some l, Some rest => Some (l ++ [Log (Error err)] ++ rest)
      | _, _ => None
      end
  end.
End Errors.

(** ["%v"] of the value is an argument. *)
(* go: eal/init.go LcoreCtx.String *)
Definition LcoreCtx_String (LcoreID SocketID : Z) (value : list Z) : list Z :=
  str "lcore=" ++ fmt_d LcoreID ++ str " socket=" ++ fmt_d SocketID ++ str " value=" ++ value.

(** ** What is printed *)

(** The lines of the frames outside of the runtime, with their numbers. *)
Fixpoint stack_lines (n : Z) (frames : list Frame) : list Z :=
  match frames with
  | [] => []
  | f :: r => (if Contains (File f) (str "runtime/") then [] else stack_line n f) ++ stack_lines (n + 1) r
  end.

Lemma print_loop_lines frames : forall fuel n, frames <> [] -> (length frames <= fuel)%nat -> print_loop fuel n frames = Some (stack_lines n frames).
Proof.
  induction frames as [|f r IH]; intros fuel n Ne L; [done|]. destruct fuel as [|fuel]; [cbn in L; lia|]. cbn [print_loop stack_lines].
  destruct r as [|g r]; [cbn; by rewrite app_nil_r|]. cbn [Next]. rewrite IH by (done || (cbn in *; lia)). done.
Qed.

(** [FprintStack] always ends, and prints all frames of the stack outside of the
    runtime, numbered from the top; of an empty stack it prints a line without a
    frame. *)
Theorem FprintStack_spec CallersFrames pc :
  FprintStack CallersFrames pc =
    Some (match CallersFrames pc with [] => stack_line 0 no_frame | frames => stack_lines 0 frames end).
Proof.
  unfold FprintStack, fPrintStack. destruct (CallersFrames pc) as [|f r] eqn:E; [done|]. apply print_loop_lines; [done|lia].
Qed.

(** A line of [FprintStackFrames]. *)
Definition frame_line (f : Frame) : list Z :=
  if HasPrefix (Function_ f) (str "runtime.") then []
  else str "... at " ++ File f ++ str ":" ++ fmt_d (Line f) ++ str ", " ++ Function_ f ++ newline.

(** [FprintStackFrames] never prints the last frame: it leaves the loop when there
    are no more frames, before it has printed the one it has just read. *)
Theorem FprintStackFrames_spec frames fuel : (length frames < fuel)%nat ->
  FprintStackFrames fuel frames = Some (concat (map frame_line (removelast frames))).
Proof.
  revert frames. induction fuel as [|fuel IH]; intros frames L; [lia|]. cbn [FprintStackFrames].
  destruct frames as [|f [|g r]]; [done..|]. cbn [Next negb]. rewrite IH by (cbn in *; lia). unfold frame_line at 2. cbn [removelast map concat].
  unfold frame_line at 2. destruct (HasPrefix (Function_ f) (str "runtime.")); [done|]. cbn [fmap option_fmap option_map]. do 2 f_equal.
Qed.

(** [failOnErr] shows the stack of a panic wherever it is in the chain of an
    error; the goroutine of [main] only that of an error that is one itself. *)
Theorem panic_shown CallersFrames t pc id R :
  (exists stack, failOnErr CallersFrames (Some (OtherError t (Some (LcorePanic pc id R)))) = Some [Stdout stack; Fatal t]) /\
  report_errors CallersFrames [None; Some (OtherError t (Some (LcorePanic pc id R)))] = Some [Log t] /\
  exists stack, report_errors CallersFrames [Some (LcorePanic pc id R)] = Some [Stdout stack; Log (Error (LcorePanic pc id R))].
Proof.
  cbn [failOnErr As report_errors]. unfold stack_out. rewrite FprintStack_spec. split_and!; [by eexists|done|by eexists].
Qed.
