(* ===== verification/Json.v ===== *)
(** * Addresses in JSON

    The [UnmarshalJSON] methods of [src/types/ipv4.go], [ipv6.go] and [mac.go], on
    what they use of the standard library: a JSON text read into a string by
    [encoding/json], and [net.ParseIP], as of the Go version of [src/go.mod]. What
    is printed is read back, for IPv4 and MAC addresses; the brackets of a printed
    IPv6 address are refused, its text without them is read. *)

From Stdlib Require Import ZArith Lia String.
From stdpp Require Import base list numbers option strings.
From S2P Require Import Prelude Text Types Split.

Open Scope Z_scope.

(** ** [json.Unmarshal] into an empty string *)

Definition json_space (c : Z) : bool := (c =? 32) || (c =? 9) || (c =? 13) || (c =? 10).
Fixpoint skip_json (s : list Z) : list Z :=
  match s with
  | [] => []
  | c :: r => if json_space c then skip_json r else s
  end.

Definition is_hex (c : Z) : bool := match hex_val c with Some _ => true | None => false end.
(** What may follow a backslash, but for [u], and what it stands for. *)
Definition escape (c : Z) : option Z :=
  if (c =? 34) || (c =? 92) || (c =? 47) then Some c
  else if c =? 98 then Some 8 else if c =? 102 then Some 12 else if c =? 110 then Some 10
  else if c =? 114 then Some 13 else if c =? 116 then Some 9 else None.

(** The text of a string literal behind its opening quote, up to the closing one,
    and what follows. *)
Fixpoint literal (s : list Z) : option (list Z * list Z) :=
  let put l t := match t with Some (raw, rest) => Some (l ++ raw, rest) | None => None end in
  match s with
  | [] => None
  | c :: r =>
      if c =? 34 then Some ([], r)
      else if c =? 92 then
        match r with
        | [] => None
        | e :: r =>
            if e =? 117 then
              match r with
              | a :: b :: x :: d :: r => if is_hex a && is_hex b && is_hex x && is_hex d then put [c; e; a; b; x; d] (literal r) else None
              | _ => None
              end
            else match escape e with Some _ => put [c; e] (literal r) | None => None end
        end
      else if c <? 0x20 then None
      else put [c] (literal r)
  end.

(** [getu4]: the number behind [\u]. *)
Definition getu4 (s : list Z) : option Z :=
  match s with
  | q :: u :: a :: b :: c :: d :: _ =>
      if (q =? 92) && (u =? 117) then
        match hex_val a, hex_val b, hex_val c, hex_val d with
        | Some a, Some b, Some c, Some d => Some (4096 * a + 256 * b + 16 * c + d)
        | _, _, _, _ => None
        end
      else None
  | _ => None
  end.

(** [utf8.EncodeRune] *)
Definition encode_rune (r : Z) : list Z := if r <? 0x80 then [r] else EncodeRune r.

(** The rune at a [\u] escape of number [rr] with [s] behind it, and how much of
    [s] belongs to it: the second half of a surrogate pair. *)
Definition unicode_escape (rr : Z) (s : list Z) : Z * nat :=
  if between 0xD800 0xDFFF rr then
    match getu4 s with
    | Some rr1 =>
        if between 0xD800 0xDBFF rr && between 0xDC00 0xDFFF rr1 then ((rr - 0xD800) * 1024 + (rr1 - 0xDC00) + 0x10000, 6%nat)
        else (RuneError, 0%nat)
    | None => (RuneError, 0%nat)
    end
  else (rr, 0%nat).

(** The string that a literal stands for; bytes that are not UTF-8 become
    [RuneError]. *)
Fixpoint unquote (fuel : nat) (s : list Z) : list Z :=
  match fuel, s with
  | O, _ | _, [] => []
  | S fuel, c :: r =>
      if c =? 92 then
        match getu4 s with
        | Some rr => let '(x, n) := unicode_escape rr (drop 6 s) in encode_rune x ++ unquote fuel (drop (6 + n) s)
        | None =>
            match r with
            | e :: r => default e (escape e) :: unquote fuel r
            | [] => []
            end
        end
      else if c <? 0x80 then c :: unquote fuel r
      else let '(x, w) := DecodeRune s in encode_rune x ++ unquote fuel (drop w s)
  end.

(** A string or [null], which leaves the string empty; [None] is an error. *)
Definition Unmarshal_string (b : list Z) : option (list Z) :=
  let v := skip_json b in
  if bool_decide (take 4 v = str "null") then match skip_json (drop 4 v) with [] => Some [] | _ => None end
  else match v with
       | [] => None
       | q :: r =>
           if q =? 34 then
             match literal r with
             | Some (raw, rest) => match skip_json rest with [] => Some (unquote (length raw) raw) | _ => None end
             | None => None
             end
           else None
       end.

(** ** [net.ParseIP] *)

(** [dtoi] and [xtoi]: the number at the head of a text and its length. *)
Fixpoint to_i (base : Z) (val : Z -> option Z) (s : list Z) (n : Z) (i : nat) : option (Z * nat) :=
  let fin := if (i =? 0)%nat then None else Some (n, i) in
  match s with
  | [] => fin
  | c :: r =>
      match val c with
      | None => fin
      | Some d => let n := n * base + d in if 0xFFFFFF <=? n then None else to_i base val r n (S i)
      end
  end.
Definition dec_val (c : Z) : option Z := if between 48 57 c then Some (c - 48) else None.
Definition dtoi (s : list Z) : option (Z * nat) := to_i 10 dec_val s 0 0.
Definition xtoi (s : list Z) : option (Z * nat) := to_i 16 hex_val s 0 0.

(** [k] numbers, with a dot in front of all but the first. *)
Fixpoint octets (k : nat) (first : bool) (s : list Z) : option (list Z) :=
  match k with
  | O => match s with [] => Some [] | _ => None end
  | S k =>
      let at_number := if first then Some s else match s with c :: r => if c =? 46 then Some r else None | [] => None end in
      match at_number with
      | None => None
      | Some s =>
          match dtoi s with
          | None => None
          | Some (n, c) =>
              if (0xFF <? n) || ((1 <? c)%nat && (s !!! 0%nat =? 48)) then None
              else match octets k false (drop c s) with Some p => Some (n :: p) | None => None end
          end
      end
  end.
(** The four bytes; package [net] keeps them behind [v4InV6Prefix]. *)
Definition parseIPv4 (s : list Z) : option (list Z) := octets 4 true s.
Definition v4InV6Prefix : list Z := replicate 10 0 ++ [0xff; 0xff].

(** The loop of [parseIPv6] on the bytes found so far and the place of the
    ellipsis; it runs while there are fewer than 16 bytes, two a round. *)
Fixpoint groups (fuel : nat) (s ip : list Z) (ellipsis : option nat) : option (list Z * list Z * option nat) :=
  match fuel with
  | O => Some (s, ip, ellipsis)
  | S fuel =>
      match xtoi s with
      | None => None
      | Some (n, c) =>
          if 0xFFFF <? n then None
          else if bool_decide (s !! c = Some 46) then
            if bool_decide (ellipsis = None) && negb (length ip =? 12)%nat then None
            else if (16 <? length ip + 4)%nat then None
            else match parseIPv4 s with Some p => Some ([], ip ++ p, ellipsis) | None => None end
          else
            let ip := ip ++ [n / 256; n mod 256] in
            match drop c s with
            | [] => Some ([], ip, ellipsis)
            | [_] => None
            | x :: y :: s =>
                if negb (x =? 58) then None
                else if y =? 58 then
                  match ellipsis with
                  | Some _ => None
                  | None => match s with [] => Some ([], ip, Some (length ip)) | _ => groups fuel s ip (Some (length ip)) end
                  end
                else groups fuel (y :: s) ip ellipsis
            end
      end
  end.

Definition parseIPv6 (s : list Z) : option (list Z) :=
  let lead := bool_decide (take 2 s = [58; 58]) in
  let s := if lead then drop 2 s else s in
  match lead, s with
  | true, [] => Some (replicate 16 0)
  | _, _ =>
      match groups 8 s [] (if lead then Some 0%nat else None) with
      | Some ([], ip, ellipsis) =>
          if (length ip <? 16)%nat then
            match ellipsis with
            | Some e => Some (take e ip ++ replicate (16 - length ip) 0 ++ drop e ip)
            | None => None
            end
          else match ellipsis with Some _ => None | None => Some ip end
      | _ => None
      end
  end.

(** The first dot or colon decides. The result has 16 bytes. *)
Fixpoint ip_kind (s : list Z) : option bool :=
  match s with
  | [] => None
  | c :: r => if c =? 46 then Some true else if c =? 58 then Some false else ip_kind r
  end.
Definition ParseIP (s : list Z) : option (list Z) :=
  match ip_kind s with
  | Some true => app v4InV6Prefix <$> parseIPv4 s
  | Some false => parseIPv6 s
  | None => None
  end.

(** [IP.To4] of 16 bytes. *)
Definition To4 (ip : list Z) : option (list Z) := if bool_decide (take 12 ip = v4InV6Prefix) then Some (drop 12 ip) else None.

(** ** The methods *)

Inductive address_error := JsonError | BadAddress (s : list Z) | ParseFailed (s : list Z) | MacError.

(** What [*out] becomes, and the error. *)
(* go: types/ipv4.go IPv4Address.UnmarshalJSON *)
Definition IPv4Address_UnmarshalJSON (out : Z) (b : list Z) : Z * option address_error :=
  match Unmarshal_string b with
  | None => (out, Some JsonError)
  | Some s =>
      match ParseIP s with
      | Some ip =>
          match To4 ip with
          | None => (out, Some (BadAddress s))
          | Some ipv4 => (BytesToIPv4 (ipv4 !!! 0%nat) (ipv4 !!! 1%nat) (ipv4 !!! 2%nat) (ipv4 !!! 3%nat), None)
          end
      | None => (out, Some (ParseFailed s))
      end
  end.

(** [To16] is the address itself. *)
(* go: types/ipv6.go IPv6Address.UnmarshalJSON *)
Definition IPv6Address_UnmarshalJSON (out : list Z) (b : list Z) : list Z * option address_error :=
  match Unmarshal_string b with
  | None => (out, Some JsonError)
  | Some s =>
      match ParseIP s with
      | Some ip => (ip, None)
      | None => (out, Some (ParseFailed s))
      end
  end.

(** An error of [StringToMACAddress] comes with the zero address. *)
(* go: types/mac.go MACAddress.UnmarshalJSON *)
Definition MACAddress_UnmarshalJSON (out : list Z) (b : list Z) : list Z * option address_error :=
  match Unmarshal_string b with
  | None => (out, Some JsonError)
  | Some s =>
      match StringToMACAddress s with
      | Some hw => (hw, None)
      | None => (replicate 6 0, Some MacError)
      end
  end.

Definition quoted (s : list Z) : list Z := [34] ++ s ++ [34].

Example unquote_escapes : Unmarshal_string (quoted [92; 117; 100; 56; 51; 100; 92; 117; 100; 101; 48; 48; 92; 110; 0xFF]) = Some [0xF0; 0x9F; 0x98; 0x80; 10; 0xEF; 0xBF; 0xBD].
Proof. vm_compute. reflexivity. Qed.
Example unmarshal_null : Unmarshal_string (str " null ") = Some [] /\ Unmarshal_string (str "nullx") = None /\ Unmarshal_string (str "12") = None.
Proof. vm_compute. auto. Qed.
Example parse_ellipsis : ParseIP (str "fe80::1:ab") = Some (0xfe :: 0x80 :: replicate 10 0 ++ [0; 1; 0; 0xab]) /\
  ParseIP (str "::ffff:10.0.0.255") = Some (v4InV6Prefix ++ [10; 0; 0; 255]) /\ ParseIP (str "1:2:3:4:5:6:7::8") = None /\
  ParseIP (str "10.0.0.01") = None /\ ParseIP (str "::") = Some (replicate 16 0).
Proof. vm_compute. auto. Qed.

(** * Theorems *)

(** ** Strings *)

(** Characters that JSON leaves as they are. *)
Definition plain (c : Z) : Prop := 0x20 <= c < 0x80 /\ c <> 34 /\ c <> 92.

Lemma literal_plain s r : Forall plain s -> literal (s ++ 34 :: r) = Some (s, r).
Proof.
  induction 1 as [|c s (L & N1 & N2) _ IH]; [done|]. cbn [app literal].
  rewrite (proj2 (Z.eqb_neq c 34)), (proj2 (Z.eqb_neq c 92)), (proj2 (Z.ltb_ge c 0x20)) by (done || lia). by rewrite IH.
Qed.

Lemma unquote_plain fuel s : Forall plain s -> (length s <= fuel)%nat -> unquote fuel s = s.
Proof.
  intros F. revert fuel. induction F as [|c s (L & N1 & N2) _ IH]; intros fuel Hf; [by destruct fuel|].
  destruct fuel as [|fuel]; [simpl in Hf; lia|]. cbn [unquote]. rewrite (proj2 (Z.eqb_neq c 92)), (proj2 (Z.ltb_lt c 0x80)) by (done || lia).
  simpl in Hf. rewrite IH by lia. done.
Qed.

Lemma Unmarshal_quoted s : Forall plain s -> Unmarshal_string (quoted s) = Some s.
Proof.
  intros F. unfold Unmarshal_string, quoted. cbn [app skip_json]. change (json_space 34) with false. cbv iota zeta.
  rewrite bool_decide_eq_false_2 by (by intros [=]). cbn. rewrite literal_plain by done. cbn. by rewrite unquote_plain.
Qed.

(** ** Numbers *)

Definition stops (val : Z -> option Z) (r : list Z) : Prop := match r with [] => True | c :: _ => val c = None end.

Lemma to_i_app base val r l : forall n i m, stops val r -> to_i base val l n i = Some (m, (i + length l)%nat) ->
  to_i base val (l ++ r) n i = Some (m, (i + length l)%nat).
Proof.
  induction l as [|c l IH]; intros n i m St; cbn [app to_i length].
  - destruct r as [|c r]; [done|]. cbn [to_i]. by rewrite St.
  - destruct (val c) as [d|]; [|destruct (i =? 0)%nat; [done|]; intros [= _ E]; lia].
    cbv zeta. destruct (_ <=? _); [done|]. replace (i + S (length l))%nat with (S i + length l)%nat by lia. by apply IH.
Qed.

(** The decimal text of a byte, checked for all of them. *)
Definition octet_text (x : Z) : bool :=
  bool_decide (dtoi (fmt_d x) = Some (x, length (fmt_d x))) && negb ((1 <? length (fmt_d x))%nat && (fmt_d x !!! 0%nat =? 48)) &&
  forallb (between 48 57) (fmt_d x).
Lemma octet_texts x : byte_ok x -> octet_text x = true.
Proof.
  intros H. assert (A : forallb (fun k => octet_text (Z.of_nat k)) (seq 0 256) = true) by (vm_compute; reflexivity).
  rewrite forallb_forall in A. specialize (A (Z.to_nat x)). rewrite Z2Nat.id in A by (unfold byte_ok in H; lia).
  apply A, in_seq. unfold byte_ok in H. lia.
Qed.

Lemma octets_fmt_d k first x s : byte_ok x -> stops dec_val s ->
  octets (S k) first ((if first then [] else [46]) ++ fmt_d x ++ s) = match octets k false s with Some p => Some (x :: p) | None => None end.
Proof.
  intros Hx St. pose proof (octet_texts x Hx) as T. unfold octet_text in T. apply andb_true_iff in T as [[T1 T2]%andb_true_iff _].
  apply bool_decide_eq_true in T1. apply negb_true_iff in T2. unfold byte_ok in Hx.
  assert (D : dtoi (fmt_d x ++ s) = Some (x, length (fmt_d x))) by (apply (to_i_app _ _ _ _ 0 0%nat x St T1)).
  cbn [octets]. destruct first; cbn [app]; [|change (46 =? 46) with true; cbv iota]; rewrite D, (proj2 (Z.ltb_ge _ _)) by lia; cbn [orb];
    (replace ((fmt_d x ++ s) !!! 0%nat) with (fmt_d x !!! 0%nat); [rewrite T2, drop_app_length; by destruct (octets k false s)|]);
    (destruct (fmt_d x) as [|c l] eqn:E; [exfalso; by vm_compute in T1|done]).
Qed.

Lemma xtoi_pair a b r : byte_ok a -> byte_ok b -> stops hex_val r -> xtoi (fmt_x 2 a ++ fmt_x 2 b ++ r) = Some (256 * a + b, 4%nat).
Proof.
  unfold byte_ok. intros Ha Hb St. rewrite app_assoc. apply (to_i_app 16 hex_val r (fmt_x 2 a ++ fmt_x 2 b) 0 0%nat _ St).
  cbn [fmt_x app to_i]. rewrite !hex_val_digit by (Z.div_mod_to_equations; lia). cbv zeta. rewrite !(proj2 (Z.leb_gt _ _)) by (Z.div_mod_to_equations; lia).
  cbn [length Nat.eqb Nat.add]. do 2 f_equal. Z.div_mod_to_equations; lia.
Qed.

(** ** Addresses *)

Lemma ip_kind_app l r : Forall (fun c => c <> 46 /\ c <> 58) l -> ip_kind (l ++ r) = ip_kind r.
Proof. induction 1 as [|c l [N1 N2] _ IH]; [done|]. cbn [app ip_kind]. by rewrite (proj2 (Z.eqb_neq c 46)), (proj2 (Z.eqb_neq c 58)). Qed.

Lemma fmt_d_digits x : byte_ok x -> Forall (fun c => 48 <= c <= 57) (fmt_d x).
Proof.
  intros Hx. pose proof (octet_texts x Hx) as T. unfold octet_text in T. apply andb_true_iff in T as [_ T]. rewrite forallb_forall in T.
  apply Forall_forall. intros c Hc. specialize (T c). unfold between in T. rewrite andb_true_iff, !Z.leb_le in T. apply T. by apply list_elem_of_In.
Qed.
Lemma fmt_x_digits n x : 0 <= x -> Forall (fun c => 48 <= c <= 57 \/ 97 <= c <= 102) (fmt_x n x).
Proof.
  revert x. induction n as [|n IH]; intros x Hx; cbn [fmt_x]; [constructor|]. apply Forall_app. split; [apply IH; Z.div_mod_to_equations; lia|].
  constructor; [|constructor]. unfold hex_digit. destruct (Z.ltb_spec (x mod 16) 10); Z.div_mod_to_equations; lia.
Qed.

Lemma ParseIP_IPv4 a b c d : Forall byte_ok [a; b; c; d] ->
  ParseIP (fmt_d a ++ dot ++ fmt_d b ++ dot ++ fmt_d c ++ dot ++ fmt_d d) = Some (v4InV6Prefix ++ [a; b; c; d]).
Proof.
  rewrite !Forall_cons. intros (Ha & Hb & Hc & Hd & _). unfold ParseIP, parseIPv4. change dot with [46].
  rewrite ip_kind_app by (eapply Forall_impl; [by apply fmt_d_digits|]; simpl; lia). cbn [app ip_kind].
  pose proof (fun x s => octets_fmt_d 3 true x s) as F1. pose proof (fun k x s => octets_fmt_d k false x s) as F2. cbn [app] in F1, F2.
  rewrite F1, !F2 by done. rewrite <- (app_nil_r (fmt_d d)), F2 by done. done.
Qed.

Lemma groups_pair fuel a b c r ip ell : byte_ok a -> byte_ok b -> c <> 58 ->
  groups (S fuel) (fmt_x 2 a ++ fmt_x 2 b ++ 58 :: c :: r) ip ell = groups fuel (c :: r) (ip ++ [a; b]) ell.
Proof.
  intros Ha Hb Nc. cbn [groups]. rewrite (xtoi_pair a b) by done. unfold byte_ok in *. rewrite (proj2 (Z.ltb_ge _ _)) by lia.
  cbn [fmt_x app lookup list_lookup drop]. rewrite bool_decide_eq_false_2 by done. cbn [negb Z.eqb]. rewrite (proj2 (Z.eqb_neq c 58)) by done.
  change (negb (58 =? 58)) with false. cbv iota. replace ((256 * a + b) / 256) with a by (Z.div_mod_to_equations; lia). replace ((256 * a + b) mod 256) with b by (Z.div_mod_to_equations; lia). done.
Qed.
Lemma groups_last fuel a b ip ell : byte_ok a -> byte_ok b ->
  groups (S fuel) (fmt_x 2 a ++ fmt_x 2 b) ip ell = Some ([], ip ++ [a; b], ell).
Proof.
  intros Ha Hb. cbn [groups]. rewrite <- (app_nil_r (fmt_x 2 b)), (xtoi_pair a b) by done. unfold byte_ok in *. rewrite (proj2 (Z.ltb_ge _ _)) by lia.
  cbn [fmt_x app lookup list_lookup drop]. rewrite bool_decide_eq_false_2 by done. replace ((256 * a + b) / 256) with a by (Z.div_mod_to_equations; lia). replace ((256 * a + b) mod 256) with b by (Z.div_mod_to_equations; lia). done.
Qed.

(** The text of an IPv6 address without its brackets. *)
Definition groups_text (addr : list Z) : list Z := take 39 (drop 1 (IPv6Address_String addr)).

Lemma hex_digit_start x r : 0 <= x -> exists c l, fmt_x 2 x ++ r = c :: l /\ c <> 58 /\ c <> 46.
Proof.
  intros Hx. pose proof (fmt_x_digits 2 x Hx) as F. destruct (fmt_x 2 x) as [|c l] eqn:E; [done|]. apply Forall_cons in F as [D _].
  exists c, (l ++ r). split_and!; [done|lia|lia].
Qed.

Lemma groups_next fuel a b x r ip ell : byte_ok a -> byte_ok b -> 0 <= x ->
  groups (S fuel) (fmt_x 2 a ++ fmt_x 2 b ++ colon ++ fmt_x 2 x ++ r) ip ell = groups fuel (fmt_x 2 x ++ r) (ip ++ [a; b]) ell.
Proof.
  intros Ha Hb Hx. destruct (hex_digit_start x r Hx) as (c & l & -> & N & _). by apply groups_pair.
Qed.

Lemma ip_kind_more l r k : ip_kind l = Some k -> ip_kind (l ++ r) = Some k.
Proof. induction l as [|c l IH]; [done|]. cbn [app ip_kind]. destruct (c =? 46); [done|]. by destruct (c =? 58). Qed.

Lemma plain_hex x : byte_ok x -> Forall plain (fmt_x 2 x).
Proof. intros Hx. eapply Forall_impl; [apply fmt_x_digits; by destruct Hx|]. unfold plain. simpl. lia. Qed.

Lemma plain_decimal x : byte_ok x -> Forall plain (fmt_d x).
Proof. intros Hx. eapply Forall_impl; [by apply fmt_d_digits|]. unfold plain. simpl. lia. Qed.

Ltac plain_text :=
  rewrite !Forall_app; split_and!; first [by apply plain_hex|apply plain_decimal, u8_range|done|change dot with [46] || change colon with [58] || idtac; repeat constructor; lia].

Lemma IPv6_texts addr : length addr = 16%nat -> Forall byte_ok addr ->
  IPv6Address_String addr = [91] ++ groups_text addr ++ [93] /\ ip_kind (groups_text addr) = Some false /\ parseIPv6 (groups_text addr) = Some addr /\
  Forall plain (groups_text addr).
Proof.
  intros L F. do 16 (destruct addr as [|? addr]; [done|]). destruct addr; [|done]. repeat (apply Forall_cons in F as [? F]). clear F L.
  match goal with |- IPv6Address_String [?a0; ?a1; ?a2; ?a3; ?a4; ?a5; ?a6; ?a7; ?a8; ?a9; ?b0; ?b1; ?b2; ?b3; ?b4; ?b5] = _ /\ _ =>
    assert (E : groups_text [a0; a1; a2; a3; a4; a5; a6; a7; a8; a9; b0; b1; b2; b3; b4; b5] =
      fmt_x 2 a0 ++ fmt_x 2 a1 ++ colon ++ fmt_x 2 a2 ++ fmt_x 2 a3 ++ colon ++ fmt_x 2 a4 ++ fmt_x 2 a5 ++ colon ++ fmt_x 2 a6 ++ fmt_x 2 a7 ++ colon ++
      fmt_x 2 a8 ++ fmt_x 2 a9 ++ colon ++ fmt_x 2 b0 ++ fmt_x 2 b1 ++ colon ++ fmt_x 2 b2 ++ fmt_x 2 b3 ++ colon ++ fmt_x 2 b4 ++ fmt_x 2 b5) by reflexivity;
    assert (B : forall x, byte_ok x -> 0 <= x) by (unfold byte_ok; lia)
  end.
  split; [reflexivity|]. rewrite E. split_and!.
  - rewrite (ip_kind_app (fmt_x 2 z)), (ip_kind_app (fmt_x 2 z0)); [reflexivity|..]; (eapply Forall_impl; [apply fmt_x_digits; by apply B|]; simpl; lia).
  - unfold parseIPv6. rewrite bool_decide_eq_false_2 by (cbn; unfold hex_digit; intros [= D _]; revert D; destruct (Z.ltb_spec ((z / 16) mod 16) 10); Z.div_mod_to_equations; lia).
    cbn match. rewrite !groups_next by auto. rewrite groups_last by done. reflexivity.
  - plain_text.
Qed.

Lemma octets_length k first s p : octets k first s = Some p -> length p = k.
Proof.
  revert first s p. induction k as [|k IH]; intros first s p; cbn [octets]; [destruct s; [by intros [= <-]|done]|].
  repeat case_match; try done; intros [= <-]; cbn; f_equal; by eapply IH.
Qed.

Lemma groups_length fuel s ip ell s' ip' ell' : groups fuel s ip ell = Some (s', ip', ell') -> (length ip + 2 * fuel = 16)%nat ->
  (match ell with Some e => (e <= length ip)%nat | None => True end) ->
  (length ip' <= 16)%nat /\ match ell' with Some e => (e <= length ip')%nat | None => True end.
Proof.
  revert s ip ell. induction fuel as [|fuel IH]; intros s ip ell; cbn [groups]; [intros [= _ <- <-] L E; split; [lia|done]|].
  destruct (xtoi s) as [[n c]|]; [|done]. destruct (_ <? n); [done|]. destruct (bool_decide (s !! c = Some 46)).
  - destruct (_ && _); [done|]. destruct (Nat.ltb_spec 16 (length ip + 4)); [done|]. destruct (parseIPv4 s) as [p|] eqn:P; [|done].
    apply octets_length in P. intros [= _ <- <-] L E. rewrite length_app, P. split; [lia|]. destruct ell; [lia|done].
  - cbv zeta. set (ip1 := ip ++ _). assert (L1 : length ip1 = (length ip + 2)%nat) by (unfold ip1; by rewrite length_app).
    destruct (drop c s) as [|x [|y s1]]; [|done|].
    + intros [= _ <- <-] L E. split; [lia|]. destruct ell; [lia|done].
    + destruct (negb _); [done|]. destruct (y =? 58).
      * destruct ell; [done|]. destruct s1; [intros [= _ <- <-] L E; lia|]. intros G L _. eapply IH; [exact G|lia|cbn; lia].
      * intros G L E. eapply IH; [exact G|lia|]. destruct ell; [lia|done].
Qed.

Lemma ParseIP_length s ip : ParseIP s = Some ip -> length ip = 16%nat.
Proof.
  unfold ParseIP. destruct (ip_kind s) as [[]|]; [| |done].
  - unfold parseIPv4. destruct (octets 4 true s) as [p|] eqn:P; [|done]. apply octets_length in P. intros [= <-]. rewrite <- P. reflexivity.
  - unfold parseIPv6. set (lead := bool_decide _). set (t := if lead then drop 2 s else s).
    assert (A : match groups 8 t [] (if lead then Some 0%nat else None) with
      | Some ([], ip, ellipsis) =>
          if (length ip <? 16)%nat then match ellipsis with Some e => Some (take e ip ++ replicate (16 - length ip) 0 ++ drop e ip) | None => None end
          else match ellipsis with Some _ => None | None => Some ip end
      | _ => None end = Some ip -> length ip = 16%nat).
    { destruct (groups _ _ _ _) as [[[[|] ip1] ell]|] eqn:G; [|done..]. apply groups_length in G as [G1 G2]; [|done|by destruct lead].
      destruct (Nat.ltb_spec (length ip1) 16).
      - destruct ell as [e|]; [|done]. intros [= <-]. rewrite !length_app, length_replicate, length_take, length_drop. lia.
      - destruct ell; [done|]. intros [= <-]. lia. }
    destruct lead; [destruct t; [by intros [= <-]|]|]; exact A.
Qed.

Lemma To4_prefix l : To4 (v4InV6Prefix ++ l) = Some l.
Proof. unfold To4. by rewrite bool_decide_eq_true_2. Qed.

(** The bytes of an address in the order of its text. *)
Lemma BytesToIPv4_bytes v : 0 <= v < 4294967296 ->
  BytesToIPv4 (u8 v) (u8 (Z.shiftr v 8)) (u8 (Z.shiftr v 16)) (u8 (Z.shiftr v 24)) = v.
Proof.
  intros Hv. rewrite BytesToIPv4_le by apply u8_range. change [_; _; _; _] with (IPv4ToBytes v).
  rewrite IPv4ToBytes_le, le_val_bytes by done. by apply Z.mod_small.
Qed.

Lemma MAC_plain mac : length mac = 6%nat -> Forall byte_ok mac -> Forall plain (MACAddress_String mac).
Proof.
  intros L F. do 6 (destruct mac as [|? mac]; [done|]). destruct mac; [|done]. repeat (apply Forall_cons in F as [? F]). unfold MACAddress_String.
  plain_text.
Qed.

(** C28. Addresses in JSON. The text that [String] gives for an IPv4 or a MAC
    address, put in quotes, is read by [UnmarshalJSON] as that address. The text
    of an IPv6 address stands in brackets, which [net.ParseIP] does not accept:
    reading it fails and leaves the variable as it was; without the brackets it
    is read. Whatever [net.ParseIP] reads has 16 bytes. *)
Theorem addresses_json v mac addr (Hv : 0 <= v < 4294967296) (Lm : length mac = 6%nat) (Fm : Forall byte_ok mac)
    (La : length addr = 16%nat) (Fa : Forall byte_ok addr) :
  (forall out, IPv4Address_UnmarshalJSON out (quoted (IPv4Address_String v)) = (v, None)) /\
  (forall out, MACAddress_UnmarshalJSON out (quoted (MACAddress_String mac)) = (mac, None)) /\
  (forall out, IPv6Address_UnmarshalJSON out (quoted (IPv6Address_String addr)) = (out, Some (ParseFailed (IPv6Address_String addr)))) /\
  (forall out, IPv6Address_UnmarshalJSON out (quoted (groups_text addr)) = (addr, None)) /\
  (forall s ip, ParseIP s = Some ip -> length ip = 16%nat).
Proof.
  destruct (IPv6_texts addr La Fa) as (E & K & P & Pl). split_and!.
  - intros out. unfold IPv4Address_UnmarshalJSON. pose proof (u8_range) as U.
    rewrite Unmarshal_quoted by (unfold IPv4Address_String; plain_text).
    unfold IPv4Address_String. rewrite ParseIP_IPv4 by (repeat constructor; apply U). rewrite To4_prefix. cbn [lookup_total list_lookup_total]. by rewrite BytesToIPv4_bytes.
  - intros out. unfold MACAddress_UnmarshalJSON. rewrite Unmarshal_quoted by (by apply MAC_plain). by rewrite MACAddress_String_roundtrip.
  - intros out. unfold IPv6Address_UnmarshalJSON. rewrite E, Unmarshal_quoted.
    + unfold ParseIP. rewrite app_assoc, (ip_kind_more ([91] ++ _) [93] false), <- app_assoc by exact K. reflexivity.
    + plain_text.
  - intros out. unfold IPv6Address_UnmarshalJSON. rewrite Unmarshal_quoted by done. unfold ParseIP. by rewrite K, P.
  - apply ParseIP_length.
Qed.

Lemma addresses_json_witness :
  IPv4Address_UnmarshalJSON 7 (quoted (str "10.0.200.1")) = (BytesToIPv4 10 0 200 1, None) /\
  MACAddress_UnmarshalJSON [] (quoted (str "00:1b:21:a2:b3:ff")) = ([0; 0x1b; 0x21; 0xa2; 0xb3; 0xff], None) /\
  IPv6Address_UnmarshalJSON [7] (quoted (str "[fe80:0000:0000:0000:0000:0000:0000:0001]")) =
    ([7], Some (ParseFailed (str "[fe80:0000:0000:0000:0000:0000:0000:0001]"))).
Proof.
  destruct (addresses_json (BytesToIPv4 10 0 200 1) [0; 0x1b; 0x21; 0xa2; 0xb3; 0xff] (0xfe :: 0x80 :: replicate 13 0 ++ [1])) as (A & B & C & _).
  - by vm_compute.
  - done.
  - repeat constructor; done.
  - done.
  - repeat constructor; done.
  - split; [exact (A 7)|split; [exact (B [])|exact (C [7])]].
Defined.
