(* ===== verification/Alloc.v ===== *)
(** * Allocators

    [src/common/allocator.go], [endian.go] and [pointers.go]: allocation sessions,
    which free what they allocated with one call, and the routines that place Go
    values in C memory. The allocator below a session ([StdAlloc], [RteAlloc],
    both calls to C) is an argument. *)

From Stdlib Require Import ZArith Lia.
From stdpp Require Import base list numbers option gmap.
From S2P Require Import Prelude Memory.

Open Scope Z_scope.

(** The operations of an allocator with state [St]; [0] is nil, and freeing or
    reallocating what is not allocated is undefined ([None]). *)
(* go: common/allocator.go Allocator *)
Class Allocator (St : Type) := {
  a_malloc : St -> Z -> Z * St;
  a_free : St -> Z -> option St;
  a_realloc : St -> Z -> Z -> option (Z * St)
}.

(** The allocator of DPDK: a socket for new blocks, but not for those that
    [rte_realloc] moves. *)
(* go: common/allocator_rte.go RteAlloc *)
Record RteAlloc := mkRteAlloc { Align : Z; Socket : Z }.
(* go: common/allocator_rte.go 25-40 RteAlloc.Malloc *)
Definition rte_allocator {St} (rte_malloc_socket : St -> Z -> Z -> Z -> Z * St) (rte_free : St -> Z -> option St)
    (rte_realloc : St -> Z -> Z -> Z -> option (Z * St)) (mem : RteAlloc) : Allocator St := {|
  a_malloc st size := rte_malloc_socket st size (u32 (Align mem)) (i32 (Socket mem));
  a_free := rte_free;
  a_realloc st p size := rte_realloc st p size (u32 (Align mem))
|}.

(** ** Sessions *)

(** The values of type [Allocator]: a root, or a session on another one. *)
Inductive alloc_value (B : Type) := Root (b : B) | SessionOn (mem : alloc_value B).
Arguments Root {B}.
Arguments SessionOn {B}.

(* go: common/allocator.go rootAlloc *)
Fixpoint rootAlloc {B} (mem : alloc_value B) : B :=
  match mem with
  | SessionOn mem => rootAlloc mem
  | Root b => b
  end.

Section Session.
Context {St : Type} `{Allocator St}.

(** The state of the root allocator, which other sessions share, and the session's
    pointers. *)
(* go: common/allocator.go AllocatorSession *)
Record AllocatorSession := mkSession { mem_ : St; ptrs : gset Z }.

(* go: common/allocator.go NewAllocatorSession *)
Definition NewAllocatorSession (st : St) : AllocatorSession := mkSession st ∅.

(* go: common/allocator.go AllocatorSession.Malloc *)
Definition Malloc (s : AllocatorSession) (size : Z) : Z * AllocatorSession :=
  let '(p, st) := a_malloc (mem_ s) size in
  (p, mkSession st ({[p]} ∪ ptrs s)).

(* go: common/allocator.go AllocatorSession.Free *)
Definition Free (s : AllocatorSession) (p : Z) : option AllocatorSession :=
  match a_free (mem_ s) p with
  | None => None
  | Some st => Some (mkSession st (ptrs s ∖ {[p]}))
  end.

(* go: common/allocator.go AllocatorSession.Realloc *)
Definition Realloc (s : AllocatorSession) (p size : Z) : option (Z * AllocatorSession) :=
  match a_realloc (mem_ s) p size with
  | None => None
  | Some (p1, st) =>
      if p =? p1 then Some (p1, mkSession st (ptrs s))
      else Some (p1, mkSession st (({[p1]} ∪ ptrs s) ∖ {[p]}))
  end.

Fixpoint free_all (st : St) (l : list Z) : option St :=
  match l with
  | [] => Some st
  | p :: l => match a_free st p with None => None | Some st => free_all st l end
  end.

(** [order] is the order in which Go happens to range over the map: some
    permutation of the pointers. *)
(* go: common/allocator.go AllocatorSession.Flush *)
Definition Flush (s : AllocatorSession) (order : list Z) : option AllocatorSession :=
  match free_all (mem_ s) order with
  | None => None
  | Some st => Some (mkSession st ∅)
  end.
End Session.
Arguments AllocatorSession : clear implicits.

(** ** Go values in C memory *)

(** [copy(MakeSlice(p, n), b)]: the slice is the memory at [p]. *)
(* go: common/endian.go CopyFromBytes *)
Definition CopyFromBytes (m : mem) (dst : Z) (src : list Z) (max : nat) : option (nat * mem) :=
  let bs := take max src in
  match store_bytes m dst bs with
  | None => None
  | Some m => Some (length bs, m)
  end.

(** The bytes of [dst] after the copy. *)
(* go: common/endian.go CopyToBytes *)
Definition CopyToBytes (m : mem) (dst : list Z) (src : Z) (max : nat) : option (nat * list Z) :=
  let n := (length dst `min` max)%nat in
  match load_bytes m src n with
  | None => None
  | Some bs => Some (n, bs ++ drop n dst)
  end.

(** [binary.ByteOrder]. *)
Inductive ByteOrder := LittleEndian | BigEndian.
Definition order_bytes (b : ByteOrder) (n : nat) (d : Z) : list Z :=
  match b with LittleEndian => le_bytes n d | BigEndian => rev (le_bytes n d) end.

(* go: common/endian.go PutUint16 *)
Definition PutUint16 (m : mem) (b : ByteOrder) (dst d : Z) : option mem := store_bytes m dst (order_bytes b 2 d).
(* go: common/endian.go PutUint32 *)
Definition PutUint32 (m : mem) (b : ByteOrder) (dst d : Z) : option mem := store_bytes m dst (order_bytes b 4 d).
(* go: common/endian.go PutUint64 *)
Definition PutUint64 (m : mem) (b : ByteOrder) (dst d : Z) : option mem := store_bytes m dst (order_bytes b 8 d).

(* go: common/pointers.go Memset *)
Definition Memset (m : mem) (p init : Z) (n : nat) : option mem := store_bytes m p (replicate n init).

Section Values.
(** [Malloc] of the allocator: where it puts the block, and the memory after. *)
Variable malloc : mem -> Z -> Z * mem.

(** [size] is the size of the type; [uintptr(nmemb)] and the product wrap. *)
(* go: common/allocator.go allocArray *)
Definition allocArray (m : mem) (size nmemb : Z) : option (Z * mem) :=
  let sz := u64 (size * u64 nmemb) in
  let '(p, m) := malloc m sz in
  match Memset m p 0 (Z.to_nat sz) with
  | None => None
  | Some m => Some (p, m)
  end.

(* go: common/allocator.go MallocT *)
Definition MallocT (m : mem) (size : Z) : option (Z * mem) := allocArray m size 1.
(* go: common/allocator.go CallocT *)
Definition CallocT (m : mem) (size nmemb : Z) : option (Z * mem) := allocArray m size nmemb.

(* go: common/allocator.go CBytes *)
Definition CBytes (m : mem) (b : list Z) : option (Z * mem) :=
  let '(p, m) := malloc m (Z.of_nat (length b)) in
  match CopyFromBytes m p b (length b) with
  | None => None
  | Some (_, m) => Some (p, m)
  end.

(* go: common/allocator.go CString *)
Definition CString (m : mem) (s : list Z) : option (Z * mem) :=
  let '(p, m) := malloc m (Z.of_nat (length s) + 1) in
  match CopyFromBytes m p s (length s + 1) with
  | None => None
  | Some (_, m) =>
      match store_bytes m (p + Z.of_nat (length s)) [0] with
      | None => None
      | Some m => Some (p, m)
      end
  end.

(** The object as its bytes. *)
(* go: common/allocator.go TransformPOD *)
Definition TransformPOD (m : mem) (obj : list Z) : option (Z * mem) :=
  let '(p, m) := malloc m (Z.of_nat (length obj)) in
  match store_bytes m p obj with
  | None => None
  | Some m => Some (p, m)
  end.
End Values.

(** [C.GoString], with the number of bytes to look at. *)
Fixpoint GoString (m : mem) (p : Z) (fuel : nat) : option (list Z) :=
  match fuel with
  | O => None
  | S k =>
      match m !! p with
      | None => None
      | Some b => if b =? 0 then Some [] else cons b <$> GoString m (p + 1) k
      end
  end.
