(* ===== verification/AllocSpec.v ===== *)
(** * Allocators: who frees what

    Over any allocator that keeps its contract ([AllocLaws]), a session frees
    exactly what it allocated, once, in whatever order Go ranges over its map -
    unless a [Realloc] fails, which loses the old block. Strings and values come
    back from C memory as they were. *)

From Stdlib Require Import ZArith Lia.
From stdpp Require Import base list numbers option gmap.
From S2P Require Import Prelude Memory Alloc.

Open Scope Z_scope.

(** The contract of malloc, free and realloc, in terms of the live blocks. *)
Class AllocLaws (St : Type) `{Allocator St} := {
  live : St -> gset Z;
  live_nil : forall st, 0 ∉ live st;
  malloc_law : forall st n,
    (fst (a_malloc st n) = 0 /\ live (snd (a_malloc st n)) = live st) \/
    ((fst (a_malloc st n) ∉ live st) /\ fst (a_malloc st n) <> 0 /\
     live (snd (a_malloc st n)) = ({[fst (a_malloc st n)]} ∪ live st));
  free_law : forall st p, p = 0 \/ p ∈ live st ->
    exists st', a_free st p = Some st' /\ live st' = (live st ∖ {[p]});
  realloc_law : forall st p n, p = 0 \/ p ∈ live st ->
    exists p1 st', a_realloc st p n = Some (p1, st') /\
      ((p1 = 0 /\ live st' = live st) \/
       (p1 <> 0 /\ (p1 ∉ live st ∖ {[p]}) /\ live st' = {[p1]} ∪ (live st ∖ {[p]})))
}.

(** The calls of a session's user. *)
Inductive sess_op := OMalloc (n : Z) | OFree (p : Z) | ORealloc (p n : Z).

Section Session.
Context {St : Type} `{AL : AllocLaws St}.

(** One call; [None] is undefined behaviour, and a failed [Realloc] of a block is
    told apart. *)
Definition do_op (s : AllocatorSession St) (o : sess_op) : option (AllocatorSession St * bool) :=
  match o with
  | OMalloc n => Some (snd (Malloc s n), true)
  | OFree p => match Free s p with None => None | Some s => Some (s, true) end
  | ORealloc p n =>
      match Realloc s p n with
      | None => None
      | Some (p1, s) => Some (s, (p =? 0) || negb (p1 =? 0))
      end
  end.

(** The pointers a call may name: nil and the session's own. *)
Definition op_own (s : AllocatorSession St) (o : sess_op) : Prop :=
  match o with
  | OMalloc _ => True
  | OFree p | ORealloc p _ => p = 0 \/ p ∈ ptrs s
  end.

#[export] Instance op_own_dec s o : Decision (op_own s o).
Proof. destruct o; simpl; apply _. Defined.

(** The calls in a row, each on own pointers; the flag tells that no [Realloc] of
    a block failed. *)
Fixpoint session_run (s : AllocatorSession St) (l : list sess_op) : option (AllocatorSession St * bool) :=
  match l with
  | [] => Some (s, true)
  | o :: l =>
      if decide (op_own s o) then
        match do_op s o with
        | None => None
        | Some (s1, ok) =>
            match session_run s1 l with
            | None => None
            | Some (s2, ok2) => Some (s2, ok && ok2)
            end
        end
      else None
  end.

(** The session's blocks are live, and the others are the ones of the start. *)
Definition sess_inv (others : gset Z) (s : AllocatorSession St) : Prop :=
  live (mem_ s) = others ∪ (ptrs s ∖ {[0]}) /\ others ## ptrs s.

Lemma do_op_inv others s o s1 : 0 ∉ others -> sess_inv others s -> op_own s o ->
  do_op s o = Some (s1, true) -> sess_inv others s1.
Proof.
  intros Z0 [L D] Own E. destruct o as [n|p|p n]; simpl in *.
  - injection E as <-. unfold Malloc. destruct (malloc_law (mem_ s) n) as [[E1 E2]|(E1 & E2 & E3)];
      destruct (a_malloc (mem_ s) n) as [p st]; simpl in *; split; simpl.
    + subst p. rewrite E2, L. set_solver.
    + set_solver.
    + rewrite E3, L. set_solver.
    + set_solver.
  - assert (Lp : p = 0 \/ p ∈ live (mem_ s)) by (destruct Own as [?|?]; [by left|]; destruct (Z.eq_dec p 0); [by left|right; set_solver]).
    unfold Free in E. destruct (free_law _ _ Lp) as (st & E1 & E2). rewrite E1 in E. injection E as <-. split; simpl.
    + rewrite E2, L. destruct Own as [->|Hp]; set_solver.
    + set_solver.
  - assert (Lp : p = 0 \/ p ∈ live (mem_ s)) by (destruct Own as [?|?]; [by left|]; destruct (Z.eq_dec p 0); [by left|right; set_solver]).
    unfold Realloc in E. destruct (realloc_law (mem_ s) p n Lp) as (p1 & st & E1 & E2). rewrite E1 in E.
    destruct (Z.eqb_spec p p1) as [->|Np]; injection E as <- Ok.
    + destruct E2 as [[-> E2]|(N1 & F1 & E2)]; split; simpl; try done.
      * by rewrite E2.
      * rewrite E2, L. destruct Own as [?|Hp]; [done|]. apply set_eq. intros x. destruct (decide (x = p1)); set_solver.
    + destruct E2 as [[-> E2]|(N1 & F1 & E2)]; split; simpl.
      * apply orb_true_iff in Ok as [Ok|Ok]; [apply Z.eqb_eq in Ok; by subst p|done].
      * apply orb_true_iff in Ok as [Ok|Ok]; [apply Z.eqb_eq in Ok; by subst p|done].
      * rewrite E2, L. apply set_eq. intros x. destruct (decide (x = p)) as [->|]; destruct Own as [?|Hp]; set_solver.
      * assert (p1 ∉ others); [|set_solver]. intros I. apply F1. set_solver.
Qed.

Lemma run_inv others l : 0 ∉ others -> forall s s', sess_inv others s -> session_run s l = Some (s', true) -> sess_inv others s'.
Proof.
  intros Z0. induction l as [|o l IH]; intros s s' I R; cbn [session_run] in R; [by injection R as <-|].
  destruct (decide (op_own s o)) as [Own|]; [|done]. destruct (do_op s o) as [[s1 ok]|] eqn:E; [|done].
  destruct (session_run s1 l) as [[s2 ok2]|] eqn:R1; [|done]. injection R as -> Ok. apply andb_true_iff in Ok as [-> ->].
  apply (IH s1); [|done]. by apply (do_op_inv others s o).
Qed.

Lemma free_all_live l : forall st, NoDup l -> (forall p, p ∈ l -> p = 0 \/ p ∈ live st) ->
  exists st', free_all st l = Some st' /\ live st' = live st ∖ list_to_set l.
Proof.
  induction l as [|p l IH]; intros st N Hl; simpl.
  - exists st. split; [done|]. set_solver.
  - apply NoDup_cons in N as [Np N]. destruct (free_law st p) as (st1 & -> & E1); [apply Hl; constructor|].
    destruct (IH st1 N) as (st2 & -> & E2).
    { intros q Hq. destruct (Hl q) as [?|?]; [by constructor|by left|right]. rewrite E1. set_solver. }
    exists st2. split; [done|]. rewrite E2, E1. set_solver.
Qed.

Lemma Flush_live others s order : sess_inv others s -> 0 ∉ others -> order ≡ₚ elements (ptrs s) ->
  exists s', Flush s order = Some s' /\ live (mem_ s') = others /\ ptrs s' = ∅.
Proof.
  intros [L D] Z0 P. unfold Flush.
  destruct (free_all_live order (mem_ s)) as (st & -> & E).
  - rewrite P. apply NoDup_elements.
  - intros p Hp. rewrite P in Hp. apply elem_of_elements in Hp. rewrite L. destruct (Z.eq_dec p 0); [by left|right; set_solver].
  - eexists. split; [reflexivity|]. split; [|done]. simpl. rewrite E, L.
    assert (Es : list_to_set order = ptrs s) by (rewrite P; apply list_to_set_elements_L). rewrite Es.
    apply set_eq. intros x. set_solver.
Qed.
End Session.

(** C13. A session leaks nothing: after any calls on its own pointers in which no
    [Realloc] of a block fails, [Flush] frees no block twice, in whatever order
    the map is ranged over, and the live blocks are those from before the
    session. *)
Theorem session_no_leak St `{AL : AllocLaws St} st l s order
    (R : session_run (NewAllocatorSession st) l = Some (s, true)) (P : order ≡ₚ elements (ptrs s)) :
  exists s', Flush s order = Some s' /\ live (mem_ s') = live st /\ ptrs s' = ∅.
Proof.
  apply (Flush_live (live st)); [|apply live_nil|done].
  apply (run_inv (live st) l (live_nil st) (NewAllocatorSession st)); [|done]. split; simpl; set_solver.
Qed.

(** A failed [Realloc] leaks: it returns nil, the old block stays allocated as
    in C, but the session forgets it and [Flush] does not free it. *)
Theorem Realloc_failure_leaks St `{AL : AllocLaws St} others s p n st order
    (I : sess_inv others s) (Z0 : 0 ∉ others) (Hp : p ∈ ptrs s) (Np : p <> 0)
    (Fail : a_realloc (mem_ s) p n = Some (0, st)) (P : order ≡ₚ elements (({[0]} ∪ ptrs s) ∖ {[p]})) :
  exists s1 s2, Realloc s p n = Some (0, s1) /\ Flush s1 order = Some s2 /\ live (mem_ s2) = {[p]} ∪ others.
Proof.
  destruct I as [L D]. unfold Realloc. rewrite Fail, (proj2 (Z.eqb_neq p 0) Np). eexists.
  assert (Lst : live st = live (mem_ s)).
  { destruct (realloc_law (mem_ s) p n) as (p1 & st' & E & C); [right; set_solver|].
    rewrite Fail in E. injection E as <- <-. destruct C as [[_ C]|[C _]]; done. }
  destruct (Flush_live ({[p]} ∪ others) (mkSession st (({[0]} ∪ ptrs s) ∖ {[p]})) order) as (s2 & E2 & E3 & _); [|set_solver|done|].
  - split; simpl; [|set_solver]. rewrite Lst, L. apply set_eq. intros x. destruct (decide (x = p)) as [->|]; set_solver.
  - exists s2. done.
Qed.

(** ** A small allocator

    Blocks are positive numbers, the new one is some number not in use; a realloc
    of more than 100 bytes fails, others leave the block where it is. *)
#[export] Instance toy_Allocator : Allocator (gset positive) := {
  a_malloc := fun st n => let p := fresh st in (Zpos p, {[p]} ∪ st);
  a_free := fun st p =>
    match p with
    | Zpos q => if bool_decide (q ∈ st) then Some (st ∖ {[q]}) else None
    | _ => Some st
    end;
  a_realloc := fun st p n =>
    if 100 <? n then Some (0, st)
    else match p with
         | Zpos q => if bool_decide (q ∈ st) then Some (p, st) else None
         | _ => let q := fresh st in Some (Zpos q, {[q]} ∪ st)
         end
}.

Definition toy_live (st : gset positive) : gset Z := set_map Zpos st.

Lemma toy_live_elem st p : p ∈ toy_live st <-> exists q, p = Zpos q /\ q ∈ st.
Proof. unfold toy_live. rewrite elem_of_map. done. Qed.

Lemma toy_fresh st : Zpos (fresh st) ∉ toy_live st.
Proof. rewrite toy_live_elem. intros (q & [= <-] & H). by apply is_fresh in H. Qed.

Lemma toy_live_add st q : toy_live ({[q]} ∪ st) = {[Zpos q]} ∪ toy_live st.
Proof. unfold toy_live. by rewrite set_map_union_L, set_map_singleton_L. Qed.

#[export] Instance toy_AllocLaws : AllocLaws (gset positive).
Proof.
  refine {| live := toy_live |}.
  - intros st. rewrite toy_live_elem. intros (q & E & _). done.
  - intros st n. right. simpl. split_and!; [apply toy_fresh|done|apply toy_live_add].
  - intros st p Hp. destruct p as [|q|q]; simpl.
    + exists st. split; [done|]. apply set_eq. intros x. rewrite elem_of_difference, toy_live_elem. set_solver.
    + destruct Hp as [?|Hp]; [done|]. apply toy_live_elem in Hp as (q' & [= <-] & Hq).
      rewrite bool_decide_eq_true_2 by done. eexists. split; [reflexivity|]. apply set_eq. intros x.
      rewrite elem_of_difference, !toy_live_elem. split.
      * intros (r & -> & Hr). split; [exists r; set_solver|set_solver].
      * intros [(r & -> & Hr) N]. exists r. set_solver.
    + destruct Hp as [?|Hp]; [done|]. apply toy_live_elem in Hp as (q' & E & _). done.
  - intros st p n Hp. simpl. destruct (100 <? n); [exists 0, st; split; [done|by left]|]. destruct p as [|q|q].
    + eexists _, _. split; [reflexivity|]. right. split; [done|]. split.
      * pose proof (toy_fresh st). set_solver.
      * rewrite toy_live_add. apply set_eq. intros x. rewrite !elem_of_union, elem_of_difference, toy_live_elem. set_solver.
    + destruct Hp as [?|Hp]; [done|]. pose proof Hp as Hl. apply toy_live_elem in Hp as (q' & [= <-] & Hq).
      rewrite bool_decide_eq_true_2 by done. eexists _, _. split; [reflexivity|]. right. split; [done|]. split; [set_solver|].
      apply set_eq. intros x. destruct (decide (x = Zpos q)) as [->|]; set_solver.
    + destruct Hp as [?|Hp]; [done|]. apply toy_live_elem in Hp as (q' & E & _). done.
Defined.

Definition toy_start : gset positive := {[1%positive]}.
(** The block of the first allocation is freed, the other one is not. *)
Definition toy_ops : list sess_op := [OMalloc 8; OMalloc 8; OFree 0; OFree (Zpos (fresh toy_start)); OMalloc 16].

Lemma session_no_leak_witness :
  let r := default (NewAllocatorSession ∅, false) (session_run (NewAllocatorSession toy_start) toy_ops) in
  snd r = true /\ size (ptrs (fst r)) = 2%nat /\
  exists s', Flush (fst r) (elements (ptrs (fst r))) = Some s' /\ live (mem_ s') = live toy_start /\ ptrs s' = ∅.
Proof.
  intros r. split; [vm_compute; reflexivity|]. split; [vm_compute; reflexivity|].
  apply (session_no_leak (gset positive) toy_start toy_ops (fst r)); [vm_compute; reflexivity|reflexivity].
Defined.

Lemma Realloc_failure_leaks_witness :
  let s := mkSession ({[2%positive]} ∪ toy_start) {[2]} in
  exists s1 s2, Realloc s 2 1000 = Some (0, s1) /\ Flush s1 (elements (({[0]} ∪ ptrs s) ∖ {[2]})) = Some s2 /\
    live (mem_ s2) = {[2]} ∪ {[1]}.
Proof.
  intros s. apply (Realloc_failure_leaks (gset positive) {[1]} s 2 1000 ({[2%positive]} ∪ toy_start)); try reflexivity.
  - split; [apply (bool_decide_unpack _); vm_compute; exact I|set_solver].
  - set_solver.
  - set_solver.
Defined.

(** ** Values in C memory *)

Section Values.
Variable malloc : mem -> Z -> Z * mem.
(** [malloc] gives a block of memory and changes no other byte. *)
Hypothesis malloc_block : forall m n, 0 <= n -> mapped (snd (malloc m n)) (fst (malloc m n)) n.

Lemma GoString_write m p s fuel : (length s < fuel)%nat -> Forall (fun b => b <> 0) s ->
  load_bytes m p (length s) = Some s -> m !! (p + Z.of_nat (length s)) = Some 0 -> GoString m p fuel = Some s.
Proof.
  revert p s. induction fuel as [|k IH]; intros p s Hf Hz Hl H0; [lia|]. simpl. destruct s as [|b s].
  - simpl in H0. rewrite Z.add_0_r in H0. by rewrite H0.
  - simpl in Hl. destruct (m !! p) as [c|]; [|done]. destruct (load_bytes m (p + 1) (length s)) as [l|] eqn:E; [|done].
    injection Hl as -> ->. apply Forall_cons in Hz as [Hb Hz]. rewrite (proj2 (Z.eqb_neq b 0) Hb).
    rewrite (IH (p + 1) s); [done|simpl in Hf; lia|done|done|]. rewrite <- H0. f_equal. simpl. lia.
Qed.

Lemma CString_spec m s : exists p m', CString malloc m s = Some (p, m') /\
  load_bytes m' p (length s + 1) = Some (s ++ [0]).
Proof.
  unfold CString. pose proof (malloc_block m (Z.of_nat (length s) + 1) ltac:(lia)) as M.
  destruct (malloc m _) as [p m1]. simpl in M. unfold CopyFromBytes. rewrite firstn_all2 by lia.
  rewrite store_bytes_mapped by (eapply mapped_sub; [exact M|lia|lia]).
  rewrite store_bytes_mapped.
  2: { apply mapped_write. eapply mapped_sub; [exact M|lia|simpl; lia]. }
  eexists p, _. split; [reflexivity|].
  assert (E : write (write m1 p s) (p + Z.of_nat (length s)) [0] = write m1 p (s ++ [0])).
  { apply map_eq. intros q. rewrite !lookup_write, length_app. simpl.
    repeat case_decide; try lia; [|rewrite lookup_app_l by lia; done|done].
    rewrite lookup_app_r by lia. f_equal. lia. }
  rewrite E. pose proof (load_write_same m1 p (s ++ [0]) _ eq_refl) as W. by rewrite length_app in W.
Qed.
End Values.

(** A string goes to C and comes back: [CString] writes its bytes and a NUL
    behind them into the block it gets, and reading up to the NUL gives the
    string, if it has no NUL of its own. *)
Theorem CString_roundtrip malloc m s
    (Hm : forall m n, 0 <= n -> mapped (snd (malloc m n)) (fst (malloc m n)) n) (Hz : Forall (fun b => b <> 0) s) :
  exists p m', CString malloc m s = Some (p, m') /\ GoString m' p (length s + 1) = Some s.
Proof.
  destruct (CString_spec malloc Hm m s) as (p & m' & E & L). exists p, m'. split; [done|].
  apply GoString_write; [lia|done| |].
  - assert (A : load_bytes m' p (length s) = Some (take (length s) (s ++ [0]))).
    { destruct (load_bytes_mapped m' p (length s)) as (l & El & Ll).
      { intros i Hi. pose proof (load_bytes_lookup _ _ _ _ (Z.to_nat (i - p)) L ltac:(lia)) as K.
        replace (p + Z.of_nat (Z.to_nat (i - p))) with i in K by lia. rewrite <- K. apply lookup_lt_is_Some_2. rewrite length_app. simpl. lia. }
      rewrite El. f_equal. apply list_eq. intros k. destruct (Nat.lt_ge_cases k (length s)) as [H|H].
      - rewrite (load_bytes_lookup _ _ _ _ _ El H), lookup_take_lt by done. symmetry. apply (load_bytes_lookup _ _ _ _ _ L). lia.
      - by rewrite lookup_take_ge, lookup_ge_None_2 by lia. }
    by rewrite A, take_app_length.
  - rewrite <- (load_bytes_lookup _ _ _ _ _ L) by lia. by rewrite list_lookup_middle.
Qed.

(** A block at address 16. *)
Definition toy_malloc (m : mem) (n : Z) : Z * mem := (16, write m 16 (replicate (Z.to_nat n) 255)).

Lemma CString_roundtrip_witness :
  exists p m', CString toy_malloc ∅ [108; 99] = Some (p, m') /\ GoString m' p 3 = Some [108; 99].
Proof.
  apply (CString_roundtrip toy_malloc ∅ [108; 99]).
  - intros m n Hn i Hi. simpl in *. rewrite lookup_write, length_replicate. case_decide; [|lia].
    apply lookup_lt_is_Some_2. rewrite length_replicate. lia.
  - repeat constructor; lia.
Defined.
