(* ===== verification/Framework.v ===== *)
(** * Packet framework: ports and tables

    [src/port/], [src/table/]: the Go parameters of ports and tables are
    recreated in C memory ([common.Transformer]), handed to the [f_create] of an
    operation table, and freed. C memory is a map from addresses to typed blocks;
    [malloc], and the pointer that a field of fresh memory happens to hold, are
    arguments, and so are the operation tables themselves. *)

From Stdlib Require Import ZArith Lia.
From stdpp Require Import base list numbers option gmap.
From S2P Require Import Prelude Errno.

Open Scope Z_scope.

(** ** C memory *)

(* go: table/acl.go ACLFieldDef *)
Record ACLFieldDef := mkACLFieldDef { fd_Type : Z; fd_Size : Z; FieldIndex : Z; InputIndex : Z; fd_Offset : Z }.

(** The C structures, field by field. *)
Inductive cstruct :=
| ethdev_reader_params (port_id queue_id : Z)
| ethdev_writer_nodrop_params (port_id queue_id tx_burst_sz n_retries : Z)
| fd_reader_params (fd mtu mempool : Z)
| fd_writer_nodrop_params (fd tx_burst_sz n_retries : Z)
| ring_reader_params (ring : Z)
| ring_writer_nodrop_params (ring tx_burst_sz n_retries : Z)
| source_params (mempool file_name n_bytes_per_pkt : Z)
| sink_params (file_name max_n_pkts : Z)
| acl_params (name n_rules n_rule_fields : Z) (field_format : list ACLFieldDef)
| array_params (n_entries offset : Z)
| hash_params (name key_size key_offset key_mask n_keys n_buckets f_hash seed : Z)
| hash_cuckoo_params (name key_size key_offset key_mask n_keys n_buckets f_hash seed : Z)
| lpm_params (name n_rules number_tbl8s entry_unique_size offset : Z)
| lpm_ipv6_params (name n_rules number_tbl8s entry_unique_size offset : Z)
| pipeline_params (name socket_id offset_port_id : Z).

(** Fresh memory, bytes, or a structure. *)
Inductive block := Fresh | Chars (bs : list Z) | Struct (c : cstruct).

Abbreviation heap := (gmap Z block).

(** Code that may panic, which keeps what it did to the memory, or do what C
    leaves undefined. *)
Inductive res (A : Type) := Ret (a : A) (h : heap) | Panic (h : heap) | Undefined.
Arguments Ret {A}.
Arguments Panic {A}.
Arguments Undefined {A}.

Definition P (A : Type) : Type := heap -> res A.
Definition pret {A} (a : A) : P A := fun h => Ret a h.
Definition pbind {A B} (m : P A) (k : A -> P B) : P B :=
  fun h => match m h with Ret a h => k a h | Panic h => Panic h | Undefined => Undefined end.
Definition ppanic {A} : P A := fun h => Panic h.

Declare Scope pf_scope.
Delimit Scope pf_scope with pf.
Notation "'let!' x ':=' m 'in' k" := (pbind m (fun x => k))
  (at level 10, x pattern, m at level 100, k at level 200) : pf_scope.
Notation "m1 ;; m2" := (pbind m1 (fun _ => m2))
  (at level 100, right associativity) : pf_scope.
Open Scope pf_scope.

(** [defer d()] in front of the rest of a function: [d] runs after a panic, too. *)
Definition defer {A} (d : P unit) (m : P A) : P A :=
  fun h =>
    match m h with
    | Ret a h => match d h with Ret _ h => Ret a h | Panic h => Panic h | Undefined => Undefined end
    | Panic h => match d h with Ret _ h => Panic h | Panic h => Panic h | Undefined => Undefined end
    | Undefined => Undefined
    end.

(** The sizes of the C structures, [C.malloc] ([0] being NULL) and the bytes of
    fresh memory that a pointer field finds. *)
Record CEnv := mkCEnv {
  sizeof : cstruct -> Z;
  malloc : heap -> Z -> Z;
  junk : heap -> Z;
  RTE_ACL_MAX_FIELDS : nat
}.

Section Memory.
Variable C : CEnv.

Definition Malloc (n : Z) : P Z := fun h => let p := malloc C h n in Ret p (if p =? 0 then h else <[p := Fresh]> h).

(** Nothing for NULL; undefined for what is not allocated. *)
Definition Free (p : Z) : P unit :=
  fun h => if p =? 0 then Ret tt h else match h !! p with None => Undefined | Some _ => Ret tt (delete p h) end.

(** A write panics for NULL. *)
Definition put (p : Z) (b : block) : P unit :=
  fun h => if p =? 0 then Panic h else match h !! p with None => Undefined | Some _ => Ret tt (<[p := b]> h) end.

Definition get (p : Z) : P cstruct :=
  fun h => if p =? 0 then Panic h else match h !! p with Some (Struct c) => Ret c h | _ => Undefined end.

Definition read_junk : P Z := fun h => Ret (junk C h) h.

(** [common.CString], [common.CBytes] and [common.TransformPOD] (see [Alloc] for
    their bytes); a copy of no bytes does not touch the memory. *)
Definition CString (s : list Z) : P Z :=
  let! p := Malloc (Z.of_nat (length s) + 1) in put p (Chars (s ++ [0])) ;; pret p.
Definition CBytes (b : list Z) : P Z :=
  let! p := Malloc (Z.of_nat (length b)) in
  (if p =? 0 then match b with [] => pret tt | _ => ppanic end else put p (Chars b)) ;; pret p.

Definition dtor : Type := Z -> P unit.

Definition TransformPOD (c : cstruct) : P (Z * dtor) :=
  let! p := Malloc (sizeof C c) in put p (Struct c) ;; pret (p, Free).

(** The name in a structure that has one. *)
Definition name_of (c : cstruct) : option Z :=
  match c with
  | source_params _ n _ | sink_params n _ | acl_params n _ _ _ | hash_params n _ _ _ _ _ _ _
  | hash_cuckoo_params n _ _ _ _ _ _ _ | lpm_params n _ _ _ _ | lpm_ipv6_params n _ _ _ _
  | pipeline_params n _ _ => Some n
  | _ => None
  end.
Definition mask_of (c : cstruct) : option Z :=
  match c with
  | hash_params _ _ _ m _ _ _ _ | hash_cuckoo_params _ _ _ m _ _ _ _ => Some m
  | _ => None
  end.
Definition free_field (field : cstruct -> option Z) (p : Z) : P unit :=
  let! c := get p in match field c with None => fun _ => Undefined | Some q => Free q end.

(** The destructors of the structures with a name, and with a name and a mask. *)
Definition free_named : dtor := fun p => free_field name_of p ;; Free p.
Definition free_masked : dtor := fun p => free_field name_of p ;; free_field mask_of p ;; Free p.

(** ** Input ports *)

(* go: port/ethdev.go EthdevRx *)
Record EthdevRx := mkEthdevRx { rx_PortID : Z; rx_QueueID : Z }.
(* go: port/ethdev.go EthdevRx.Transform *)
Definition EthdevRx_Transform (p : EthdevRx) : P (Z * dtor) :=
  TransformPOD (ethdev_reader_params (rx_PortID p) (rx_QueueID p)).

(* go: port/fd.go FdRx *)
Record FdRx := mkFdRx { fr_Mempool : Z; fr_Fd : Z; fr_MTU : Z }.
(* go: port/fd.go FdRx.Transform *)
Definition FdRx_Transform (rd : FdRx) : P (Z * dtor) :=
  TransformPOD (fd_reader_params (i32 (fr_Fd rd)) (fr_MTU rd) (fr_Mempool rd)).

(* go: port/ring.go RingRx *)
Record RingRx := mkRingRx { rr_Ring : Z; rr_Multi : bool }.
(* go: port/ring.go RingRx.Transform *)
Definition RingRx_Transform (rd : RingRx) : P (Z * dtor) := TransformPOD (ring_reader_params (rr_Ring rd)).

(* go: port/source_sink.go Source *)
Record Source := mkSource { sr_Mempool : Z; sr_Filename : list Z; BytesPerPacket : Z }.
(* go: port/source_sink.go Source.Transform *)
Definition Source_Transform (rd : Source) : P (Z * dtor) :=
  let! params := Malloc (sizeof C (source_params 0 0 0)) in
  let! unset := read_junk in
  put params (Struct (source_params (sr_Mempool rd) unset (BytesPerPacket rd))) ;;
  (match sr_Filename rd with
   | [] => pret tt
   | _ =>
       let! file_name := CString (sr_Filename rd) in
       put params (Struct (source_params (sr_Mempool rd) file_name (BytesPerPacket rd)))
   end) ;;
  pret (params, free_named).

(** The operation tables of DPDK. *)
Inductive in_ops :=
  rte_port_ethdev_reader_ops | rte_port_fd_reader_ops | rte_port_ring_reader_ops | rte_port_ring_multi_reader_ops |
  rte_port_source_ops.

(** The values of type [InParams]. *)
(* go: port/port.go InParams *)
Inductive InParams := InEthdev (p : EthdevRx) | InFd (p : FdRx) | InRing (p : RingRx) | InSource (p : Source).

(* go: port/ring.go RingRx.InOps *)
Definition RingRx_InOps (rd : RingRx) : in_ops :=
  if negb (rr_Multi rd) then rte_port_ring_reader_ops else rte_port_ring_multi_reader_ops.
Definition InOps (p : InParams) : in_ops :=
  match p with
  | InEthdev _ => rte_port_ethdev_reader_ops
  | InFd _ => rte_port_fd_reader_ops
  | InRing rd => RingRx_InOps rd
  | InSource _ => rte_port_source_ops
  end.

(** ** Output ports *)

(* go: port/ethdev.go EthdevTx *)
Record EthdevTx := mkEthdevTx { tx_PortID : Z; tx_QueueID : Z; et_BurstSize : Z; et_NoDrop : bool; et_Retries : Z }.
(* go: port/ethdev.go EthdevTx.Transform *)
Definition EthdevTx_Transform (p : EthdevTx) : P (Z * dtor) :=
  TransformPOD (ethdev_writer_nodrop_params (tx_PortID p) (tx_QueueID p) (et_BurstSize p) (et_Retries p)).

(* go: port/fd.go FdTx *)
Record FdTx := mkFdTx { ft_Fd : Z; ft_BurstSize : Z; ft_NoDrop : bool; ft_Retries : Z }.
(* go: port/fd.go FdTx.Transform *)
Definition FdTx_Transform (wr : FdTx) : P (Z * dtor) :=
  TransformPOD (fd_writer_nodrop_params (i32 (ft_Fd wr)) (ft_BurstSize wr) (ft_Retries wr)).

(* go: port/ring.go RingTx *)
Record RingTx := mkRingTx { rt_Ring : Z; rt_TxBurstSize : Z; rt_Multi : bool; rt_NoDrop : bool; rt_Retries : Z }.
(* go: port/ring.go RingTx.Transform *)
Definition RingTx_Transform (wr : RingTx) : P (Z * dtor) :=
  TransformPOD (ring_writer_nodrop_params (rt_Ring wr) (rt_TxBurstSize wr) (rt_Retries wr)).

(* go: port/source_sink.go Sink *)
Record Sink := mkSink { sk_Filename : list Z; MaxPackets : Z }.
(* go: port/source_sink.go Sink.Transform *)
Definition Sink_Transform (wr : Sink) : P (Z * dtor) :=
  let! params := Malloc (sizeof C (sink_params 0 0)) in
  let! unset := read_junk in
  put params (Struct (sink_params unset (MaxPackets wr))) ;;
  (match sk_Filename wr with
   | [] => pret tt
   | _ =>
       let! file_name := CString (sk_Filename wr) in
       put params (Struct (sink_params file_name (MaxPackets wr)))
   end) ;;
  pret (params, free_named).

Inductive out_ops :=
  rte_port_ethdev_writer_ops | rte_port_ethdev_writer_nodrop_ops | rte_port_fd_writer_ops |
  rte_port_fd_writer_nodrop_ops | rte_port_ring_writer_ops | rte_port_ring_multi_writer_ops |
  rte_port_ring_writer_nodrop_ops | rte_port_ring_multi_writer_nodrop_ops | rte_port_sink_ops.

(** The values of type [OutParams]. *)
(* go: port/port.go OutParams *)
Inductive OutParams := OutEthdev (p : EthdevTx) | OutFd (p : FdTx) | OutRing (p : RingTx) | OutSink (p : Sink).

(* go: port/ethdev.go EthdevTx.OutOps *)
Definition EthdevTx_OutOps (p : EthdevTx) : out_ops :=
  if negb (et_NoDrop p) then rte_port_ethdev_writer_ops else rte_port_ethdev_writer_nodrop_ops.
(* go: port/fd.go FdTx.OutOps *)
Definition FdTx_OutOps (wr : FdTx) : out_ops :=
  if ft_NoDrop wr then rte_port_fd_writer_nodrop_ops else rte_port_fd_writer_ops.
(** The slice of tables, cut from its front; [ops[0]] panics when it is empty. *)
(* go: port/ring.go RingTx.OutOps *)
Definition RingTx_OutOps (wr : RingTx) : option out_ops :=
  let ops := [rte_port_ring_writer_ops; rte_port_ring_multi_writer_ops;
              rte_port_ring_writer_nodrop_ops; rte_port_ring_multi_writer_nodrop_ops] in
  let ops := if rt_Multi wr then drop 1 ops else ops in
  let ops := if rt_NoDrop wr then drop 2 ops else ops in
  ops !! 0%nat.
Definition OutOps (p : OutParams) : option out_ops :=
  match p with
  | OutEthdev p => Some (EthdevTx_OutOps p)
  | OutFd wr => Some (FdTx_OutOps wr)
  | OutRing wr => RingTx_OutOps wr
  | OutSink _ => Some rte_port_sink_ops
  end.

(** ** Tables *)

Inductive table_ops :=
  rte_table_acl_ops | rte_table_array_ops | rte_table_hash_ext_ops | rte_table_hash_lru_ops | rte_table_hash_cuckoo_ops |
  rte_table_lpm_ops | rte_table_lpm_ipv6_ops | rte_table_stub_ops | other_ops (n : Z).

(* go: table/acl.go ACLParams *)
Record ACLParams := mkACLParams { acl_Name : list Z; acl_Rules : Z; FieldFormat : list ACLFieldDef }.
(** The array of the structure has [RTE_ACL_MAX_FIELDS] entries, the first ones
    being set. *)
(* go: table/acl.go ACLParams.Transform *)
Definition ACLParams_Transform (p : ACLParams) : P (Z * dtor) :=
  let! params := Malloc (sizeof C (acl_params 0 0 0 [])) in
  if (RTE_ACL_MAX_FIELDS C <? length (FieldFormat p))%nat then ppanic
  else
    let! name := CString (acl_Name p) in
    put params (Struct (acl_params name (acl_Rules p) (Z.of_nat (length (FieldFormat p))) (FieldFormat p))) ;;
    pret (params, free_named).

(* go: table/array.go ArrayParams *)
Record ArrayParams := mkArrayParams { Entries : Z; arr_Offset : Z }.
(* go: table/array.go ArrayParams.Transform *)
Definition ArrayParams_Transform (p : ArrayParams) : P (Z * dtor) :=
  TransformPOD (array_params (Entries p) (arr_Offset p)).

(* go: table/hash.go HashParams *)
Record HashParams := mkHashParams {
  hash_TableOps : table_ops; hash_Name : list Z; KeySize : Z; KeyOffset : Z; KeyMask : list Z; KeysNum : Z;
  BucketsNum : Z; Hash_Func : Z; Hash_Seed : Z; CuckooHash_Func : Z; CuckooHash_Seed : Z
}.
(* go: table/hash.go HashParams.tformToOrdinary *)
Definition tformToOrdinary (p : HashParams) : P (Z * dtor) :=
  let! params := Malloc (sizeof C (hash_params 0 0 0 0 0 0 0 0)) in
  let! name := CString (hash_Name p) in
  let! key_mask := CBytes (KeyMask p) in
  put params (Struct (hash_params name (KeySize p) (KeyOffset p) key_mask (KeysNum p) (BucketsNum p)
                        (Hash_Func p) (Hash_Seed p))) ;;
  pret (params, free_masked).
(* go: table/hash.go HashParams.tformToCuckoo *)
Definition tformToCuckoo (p : HashParams) : P (Z * dtor) :=
  let! params := Malloc (sizeof C (hash_cuckoo_params 0 0 0 0 0 0 0 0)) in
  let! name := CString (hash_Name p) in
  let! key_mask := CBytes (KeyMask p) in
  put params (Struct (hash_cuckoo_params name (KeySize p) (KeyOffset p) key_mask (KeysNum p) (BucketsNum p)
                        (CuckooHash_Func p) (CuckooHash_Seed p))) ;;
  pret (params, free_masked).
(* go: table/hash.go HashParams.Transform *)
Definition HashParams_Transform (p : HashParams) : P (Z * dtor) :=
  match hash_TableOps p with
  | rte_table_hash_ext_ops | rte_table_hash_lru_ops => tformToOrdinary p
  | rte_table_hash_cuckoo_ops => tformToCuckoo p
  | _ => ppanic
  end.

(* go: table/lpm.go LPMParams *)
Record LPMParams := mkLPMParams {
  lpm_TableOps : table_ops; lpm_Name : list Z; lpm_Rules : Z; NumTBL8 : Z; EntryUniqueSize : Z; lpm_Offset : Z
}.
(* go: table/lpm.go LPMParams.tformTo4 *)
Definition tformTo4 (p : LPMParams) : P (Z * dtor) :=
  let! params := Malloc (sizeof C (lpm_params 0 0 0 0 0)) in
  let! name := CString (lpm_Name p) in
  put params (Struct (lpm_params name (lpm_Rules p) (NumTBL8 p) (EntryUniqueSize p) (lpm_Offset p))) ;;
  pret (params, free_named).
(* go: table/lpm.go LPMParams.tformTo6 *)
Definition tformTo6 (p : LPMParams) : P (Z * dtor) :=
  let! params := Malloc (sizeof C (lpm_ipv6_params 0 0 0 0 0)) in
  let! name := CString (lpm_Name p) in
  put params (Struct (lpm_ipv6_params name (lpm_Rules p) (NumTBL8 p) (EntryUniqueSize p) (lpm_Offset p))) ;;
  pret (params, free_named).
(* go: table/lpm.go LPMParams.Transform *)
Definition LPMParams_Transform (p : LPMParams) : P (Z * dtor) :=
  match lpm_TableOps p with
  | rte_table_lpm_ops => tformTo4 p
  | rte_table_lpm_ipv6_ops => tformTo6 p
  | _ => ppanic
  end.

(* go: table/stub.go StubParams.Transform *)
Definition StubParams_Transform : P (Z * dtor) := pret (0, Free).

(** The values of type [Params] of package table. *)
(* go: table/table.go Params *)
Inductive TParams :=
  TACL (p : ACLParams) | TArray (p : ArrayParams) | THash (p : HashParams) | TLPM (p : LPMParams) | TStub.

Definition Ops (p : TParams) : table_ops :=
  match p with
  | TACL _ => rte_table_acl_ops
  | TArray _ => rte_table_array_ops
  | THash p => hash_TableOps p
  | TLPM p => lpm_TableOps p
  | TStub => rte_table_stub_ops
  end.
End Memory.

(** ** The interface *)

(** [common.Transformer]. *)
(* go: common/allocator.go Transformer *)
Class Transformer (T : Type) := Transform : CEnv -> T -> P (Z * dtor).

#[export] Instance In_Transformer : Transformer InParams := fun C p =>
  match p with
  | InEthdev p => EthdevRx_Transform C p
  | InFd p => FdRx_Transform C p
  | InRing p => RingRx_Transform C p
  | InSource p => Source_Transform C p
  end.
#[export] Instance Out_Transformer : Transformer OutParams := fun C p =>
  match p with
  | OutEthdev p => EthdevTx_Transform C p
  | OutFd p => FdTx_Transform C p
  | OutRing p => RingTx_Transform C p
  | OutSink p => Sink_Transform C p
  end.
#[export] Instance Table_Transformer : Transformer TParams := fun C p =>
  match p with
  | TACL p => ACLParams_Transform C p
  | TArray p => ArrayParams_Transform C p
  | THash p => HashParams_Transform C p
  | TLPM p => LPMParams_Transform C p
  | TStub => StubParams_Transform
  end.

(** ** Clients of the interface

    [f_create] of an operation table, which reads the memory: the port or table,
    [0] being NULL. *)
Section Clients.
Variable C : CEnv.

(** [arg, dtor := params.Transform(alloc); defer dtor(arg); return f(arg)]. *)
Definition with_arg {T A} `{Transformer T} (params : T) (f : heap -> Z -> A) : P A :=
  let! (arg, d) := Transform C params in
  defer (d arg) (fun h => Ret (f h arg) h).

Variable in_create : in_ops -> heap -> Z -> Z -> Z.
Variable out_create : out_ops -> heap -> Z -> Z -> Z.
Variable table_create : table_ops -> heap -> Z -> Z -> Z -> Z.
Variable E : rte_numbers.

(* go: port/port.go CreateIn *)
Definition CreateIn (socket : Z) (params : InParams) : P Z :=
  with_arg params (fun h arg => in_create (InOps params) h arg (i32 socket)).
(* go: port/port.go In.Free *)
Definition In_Free (in_free : in_ops -> Z -> Z) (port : Z) (inOps : in_ops) : option go_error :=
  IntErr E (in_free inOps port).

(* go: port/port.go CreateOut *)
Definition CreateOut (socket : Z) (params : OutParams) : P Z :=
  match OutOps params with
  | None => ppanic
  | Some ops => with_arg params (fun h arg => out_create ops h arg (i32 socket))
  end.
(* go: port/port.go Out.Free *)
Definition Out_Free (out_free : out_ops -> Z -> Z) (port : Z) (outOps : out_ops) : option go_error :=
  IntErr E (out_free outOps port).

(* go: table/table.go Create *)
Definition Table_Create (socket : Z) (p : TParams) (entrySize : Z) : P Z :=
  with_arg p (fun h arg => table_create (Ops p) h arg (i32 socket) entrySize).
(* go: table/table.go Table.Free *)
Definition Table_Free (table_free : table_ops -> Z -> Z) (t : Z) (tableOps : table_ops) : option go_error :=
  IntErr E (table_free tableOps t).
End Clients.
