(* ===== verification/Pipeline.v ===== *)
(** * Packet framework: pipelines

    [src/pipeline/]: creation of pipelines, their ports and tables from Go
    parameters, table entries in memory, and the loop that runs a pipeline
    ([pipeline_loop.go] with its C part [pipeline_loop.h]). The functions of
    [librte_pipeline] are arguments. *)

From Stdlib Require Import ZArith Lia.
From stdpp Require Import base list numbers option gmap.
From S2P Require Import Prelude Memory Errno Framework.

Open Scope Z_scope.
Open Scope pf_scope.

Section Pipelines.
Variable C : CEnv.
Variable E : rte_numbers.

(** ** Creation *)

(* go: pipeline/pipeline.go Params *)
Record Params := mkParams { pl_Name : list Z; pl_SocketID : Z; OffsetPortID : Z }.

(* go: pipeline/pipeline.go Params.Transform *)
#[export] Instance Params_Transform : Transformer Params := fun C p =>
  let! params := Malloc C (sizeof C (pipeline_params 0 0 0)) in
  let! name := CString C (pl_Name p) in
  put params (Struct (pipeline_params name (i32 (pl_SocketID p)) (OffsetPortID p))) ;;
  pret (params, free_named).

(* go: pipeline/pipeline.go Create *)
Definition Create (rte_pipeline_create : heap -> Z -> Z) (p : Params) : P Z := with_arg C p rte_pipeline_create.

(* go: pipeline/pipeline.go Pipeline.Free *)
Definition Pipeline_Free (rte_pipeline_free : Z -> Z) (pl : Z) : option go_error := IntErr E (rte_pipeline_free pl).
(* go: pipeline/pipeline.go Pipeline.Check *)
Definition Pipeline_Check (rte_pipeline_check : Z -> Z) (pl : Z) : option go_error := IntErr E (rte_pipeline_check pl).
(* go: pipeline/pipeline.go Pipeline.Run *)
Definition Pipeline_Run (rte_pipeline_run : Z -> Z) (pl : Z) : Z := rte_pipeline_run pl.
(* go: pipeline/pipeline.go Pipeline.Flush *)
Definition Pipeline_Flush (rte_pipeline_flush : Z -> Z) (pl : Z) : option go_error := IntErr E (rte_pipeline_flush pl).

(** ** Ports and tables of a pipeline

    [params] of the three creations; the C function gives its code and the
    identifier it stored, if any. *)

(* go: pipeline/port.go PortInParams *)
Record PortInParams := mkPortInParams { pi_Params : InParams; pi_Action : Z; pi_ActionArg : Z; BurstSize : Z }.
Record port_in_params := mkCPortIn { pin_ops : in_ops; pin_arg_create : Z; pin_f_action : Z; pin_arg_ah : Z; burst_size : Z }.

Definition created {A} (r : A * option Z) (err : A -> option go_error) : Z * option go_error :=
  (default 0 (snd r), err (fst r)).

(* go: pipeline/port.go Pipeline.PortInCreate *)
Definition PortInCreate (rte_pipeline_port_in_create : heap -> Z -> port_in_params -> Z * option Z)
    (pl : Z) (p : PortInParams) : P (Z * option go_error) :=
  with_arg C (pi_Params p) (fun h x =>
    created (rte_pipeline_port_in_create h pl
               (mkCPortIn (InOps (pi_Params p)) x (pi_Action p) (pi_ActionArg p) (u32 (BurstSize p)))) (IntErr E)).

(* go: pipeline/port.go PortOutParams *)
Record PortOutParams := mkPortOutParams { po_Params : OutParams; po_Action : Z; po_ActionArg : Z }.
Record port_out_params := mkCPortOut { pout_ops : out_ops; pout_arg_create : Z; pout_f_action : Z; pout_arg_ah : Z }.

(* go: pipeline/port.go Pipeline.PortOutCreate *)
Definition PortOutCreate (rte_pipeline_port_out_create : heap -> Z -> port_out_params -> Z * option Z)
    (pl : Z) (p : PortOutParams) : P (Z * option go_error) :=
  match OutOps (po_Params p) with
  | None => ppanic
  | Some ops =>
      with_arg C (po_Params p) (fun h x =>
        created (rte_pipeline_port_out_create h pl (mkCPortOut ops x (po_Action p) (po_ActionArg p))) (IntErr E))
  end.

(* go: pipeline/table.go TableParams *)
Record TableParams := mkTableParams { tp_Params : TParams; OnHit : Z; OnMiss : Z; tp_ActionArg : Z; ActionDataSize : Z }.
Record table_params := mkCTable {
  t_ops : table_ops; t_arg_create : Z; f_action_hit : Z; f_action_miss : Z; t_arg_ah : Z; action_data_size : Z
}.

(* go: pipeline/table.go Pipeline.TableCreate *)
Definition TableCreate (rte_pipeline_table_create : heap -> Z -> table_params -> Z * option Z)
    (pl : Z) (p : TableParams) : P (Z * option go_error) :=
  with_arg C (tp_Params p) (fun h x =>
    created (rte_pipeline_table_create h pl
               (mkCTable (Ops (tp_Params p)) x (OnHit p) (OnMiss p) (tp_ActionArg p) (u32 (ActionDataSize p))))
            (IntErr E)).

(* go: pipeline/port.go Pipeline.ConnectToTable *)
Definition ConnectToTable (rte_pipeline_port_in_connect_to_table : Z -> Z -> Z -> Z) (pl port table : Z) : option go_error :=
  IntErr E (rte_pipeline_port_in_connect_to_table pl port table).
(* go: pipeline/port.go Pipeline.Disable *)
Definition Disable (rte_pipeline_port_in_disable : Z -> Z -> Z) (pl port : Z) : option go_error :=
  IntErr E (rte_pipeline_port_in_disable pl port).
(* go: pipeline/port.go Pipeline.Enable *)
Definition Enable (rte_pipeline_port_in_enable : Z -> Z -> Z) (pl port : Z) : option go_error :=
  IntErr E (rte_pipeline_port_in_enable pl port).

(** [found], a C [int], and the code. *)
(* go: pipeline/table.go Pipeline.TableEntryAdd *)
Definition TableEntryAdd (rte_pipeline_table_entry_add : Z -> Z -> Z -> Z -> Z * option Z) (pl table pkey entry : Z) :
    bool * option go_error :=
  let '(found, err) := created (rte_pipeline_table_entry_add pl table pkey entry) (IntErr E) in (negb (found =? 0), err).
(* go: pipeline/table.go Pipeline.TableEntryDelete *)
Definition TableEntryDelete (rte_pipeline_table_entry_delete : Z -> Z -> Z -> Z -> Z * option Z) (pl table pkey entry : Z) :
    bool * option go_error :=
  let '(found, err) := created (rte_pipeline_table_entry_delete pl table pkey entry) (IntErr E) in (negb (found =? 0), err).
(* go: pipeline/table.go Pipeline.TableDefaultEntryAdd *)
Definition TableDefaultEntryAdd (rte_pipeline_table_default_entry_add : Z -> Z -> Z -> Z * option Z) (pl table entry : Z) :
    Z * option go_error :=
  created (rte_pipeline_table_default_entry_add pl table entry) (IntErr E).

(** [entry] is filled. *)
(* go: pipeline/table.go Pipeline.TableDefaultEntryDelete *)
Definition TableDefaultEntryDelete (rte_pipeline_table_default_entry_delete : Z -> Z -> Z -> Z) (pl table entry : Z) : option go_error :=
  IntErr E (rte_pipeline_table_default_entry_delete pl table entry).

(** ** Statistics

    The Go structures are those of C, whose sizes are compared when the package is
    compiled: the counters in their order. *)
(* go: pipeline/stats.go 17-22 PortInStats *)
Definition PortInStats : Type := list Z.
(* go: pipeline/stats.go 25-30 PortOutStats *)
Definition PortOutStats : Type := list Z.
(* go: pipeline/stats.go 33-40 TableStats *)
Definition TableStats : Type := list Z.

(** The code, the statistics, and the pipeline, whose counters [clear] resets. *)
Definition stats_read {S} (read : Z -> Z -> Z -> S -> (Z * list Z) * S) (pl id : Z) (clear : bool) (s : S) : (option go_error * list Z) * S :=
  let c := if clear then 1 else 0 in
  let '((rc, st), s) := read pl id c s in ((IntErr E rc, st), s).
(* go: pipeline/stats.go Pipeline.PortOutStatsRead *)
Definition PortOutStatsRead {S} (rte_pipeline_port_out_stats_read : Z -> Z -> Z -> S -> (Z * list Z) * S) :=
  stats_read rte_pipeline_port_out_stats_read.
(* go: pipeline/stats.go Pipeline.PortInStatsRead *)
Definition PortInStatsRead {S} (rte_pipeline_port_in_stats_read : Z -> Z -> Z -> S -> (Z * list Z) * S) :=
  stats_read rte_pipeline_port_in_stats_read.
(* go: pipeline/stats.go Pipeline.TableStatsRead *)
Definition TableStatsRead {S} (rte_pipeline_table_stats_read : Z -> Z -> Z -> S -> (Z * list Z) * S) :=
  stats_read rte_pipeline_table_stats_read.

(** ** Table entries in memory *)

(** The size of the C structure, and the offsets of its fields. *)
Record EntryLayout := mkEntryLayout {
  sizeof_entry : Z; ENTRY_ACTION : Z; TABLE_ENTRY_PORT_ID : Z; TABLE_ENTRY_TABLE_ID : Z; TABLE_ENTRY_ACTION_DATA : Z
}.
Variable L : EntryLayout.

(** A template in Go memory at [p], all zero. *)
(* go: pipeline/table.go NewTableEntry *)
Definition NewTableEntry (p actionDataSize : Z) (m : mem) : Z * mem :=
  (p, write m p (replicate (Z.to_nat (u64 (sizeof_entry L + actionDataSize))) 0)).
(* go: pipeline/table.go TableEntry.SetAction *)
Definition SetAction (m : mem) (entry code : Z) : option mem := store_le m (entry + ENTRY_ACTION L) 4 code.
(* go: pipeline/table.go TableEntry.GetAction *)
Definition GetAction (m : mem) (entry : Z) : option Z := load_le m (entry + ENTRY_ACTION L) 4.
(* go: pipeline/table.go TableEntry.SetPortID *)
Definition SetPortID (m : mem) (entry port : Z) : option mem := store_le m (entry + TABLE_ENTRY_PORT_ID L) 4 port.
(* go: pipeline/table.go TableEntry.GetPortID *)
Definition GetPortID (m : mem) (entry : Z) : option Z := load_le m (entry + TABLE_ENTRY_PORT_ID L) 4.
(* go: pipeline/table.go TableEntry.SetTableID *)
Definition SetTableID (m : mem) (entry table : Z) : option mem := store_le m (entry + TABLE_ENTRY_TABLE_ID L) 4 table.
(* go: pipeline/table.go TableEntry.GetTableID *)
Definition GetTableID (m : mem) (entry : Z) : option Z := load_le m (entry + TABLE_ENTRY_TABLE_ID L) 4.
(* go: pipeline/table.go TableEntry.GetActionData *)
Definition GetActionData (entry : Z) : Z := entry + TABLE_ENTRY_ACTION_DATA L.

(** ** The loop *)

Inductive event := Run | Flush | Ctrl.

(** Iterations [n], [n+1], ...; [f_ctrl] gives what the control function returns
    in an iteration, [None] being a NULL function. *)
(* go: pipeline/pipeline_loop.h 36-67 run_pipeline_loop *)
Fixpoint run_pipeline_loop (fuel : nat) (flush : Z) (f_ctrl : option (nat -> Z)) (n : nat) : option (Z * list event) :=
  match fuel with
  | O => None
  | S fuel =>
      let continue evs :=
        match run_pipeline_loop fuel flush f_ctrl (S n) with None => None | Some (rc, l) => Some (rc, evs ++ l) end in
      if (flush =? 0) || negb (Z.land (u32 (Z.of_nat n)) (u32 (flush - 1)) =? 0) then continue [Run]
      else
        match f_ctrl with
        | None => continue [Run; Flush]
        | Some f =>
            let rc := f n in
            if 0 <? rc then Some (0, [Run; Flush; Ctrl])
            else if rc <? 0 then Some (rc, [Run; Flush; Ctrl])
            else continue [Run; Flush; Ctrl]
        end
  end.

Inductive loop_result := LoopPanic | LoopDone (err : option go_error) (evs : list event).

(** [None] is a loop that is not over after [fuel] iterations. *)
(* go: pipeline/pipeline_loop.go Pipeline.RunLoop *)
Definition RunLoop (fuel : nat) (flush : Z) (c : option (option (nat -> Z))) : option loop_result :=
  if negb (Z.land flush (u32 (flush - 1)) =? 0) then Some LoopPanic
  else
    let f_ctrl := match c with None => None | Some f => f end in
    match run_pipeline_loop fuel flush f_ctrl 0 with
    | None => None
    | Some (rc, evs) => Some (LoopDone (IntErr E rc) evs)
    end.

(** The simple controller: a byte in C memory. *)
(* go: pipeline/pipeline_loop.go NewSimpleController *)
Definition NewSimpleController : P Z := let! stop := Malloc C 1 in put stop (Chars [0]) ;; pret stop.
(* go: pipeline/pipeline_loop.go SimpleController.Transform *)
Definition SimpleController_Transform (stop : Z) : P (Z * dtor) := pret (stop, fun _ => pret tt).
(* go: pipeline/pipeline_loop.go SimpleController.Stop *)
Definition SimpleController_Stop (stop : Z) : P unit := put stop (Chars [1]).
(** [simple_control]: the byte; undefined when it is not there. *)
(* go: pipeline/pipeline_loop.go 6-11 simple_control *)
Definition simple_control (h : heap) (params : Z) : option Z :=
  match h !! params with Some (Chars (b :: _)) => Some b | _ => None end.
End Pipelines.
