(* ===== verification/FrameworkSpec.v ===== *)
(** * Packet framework: theorems

    The interface [Lawful]: [Transform] leaves in C memory what the parameters
    say, and its destructor gives the memory back. The clients that create ports
    and tables are proved against it; the instances prove it for the parameters
    of every port and table. *)

From Stdlib Require Import ZArith Lia.
From stdpp Require Import base list numbers option gmap.
From S2P Require Import Prelude Errno Framework.

Open Scope Z_scope.
Open Scope pf_scope.

(** [malloc] never fails and gives memory that is not allocated. *)
Definition malloc_ok (C : CEnv) : Prop := forall h n, malloc C h n <> 0 /\ h !! malloc C h n = None.

(** The parameters [usable] in C, and what they are at an address. *)
Class Lawful (T : Type) `{Transformer T} := {
  usable : CEnv -> T -> Prop;
  holds : T -> heap -> Z -> Prop;
  transform_ok C p h : malloc_ok C -> usable C p ->
    exists a d h', Transform C p h = Ret (a, d) h' /\ holds p h' a /\ d a h' = Ret tt h
}.

Lemma with_arg_ok {T A} `{Lawful T} C (p : T) (f : Framework.heap -> Z -> A) h : malloc_ok C -> usable C p ->
  exists h' a, holds p h' a /\ with_arg C p f h = Ret (f h' a) h.
Proof.
  intros Hm U. destruct (transform_ok C p h Hm U) as (a & d & h' & E & Ho & D). exists h', a. split; [done|].
  unfold with_arg, pbind. rewrite E. unfold defer. by rewrite D.
Qed.

(** ** Steps *)

Section Steps.
Context (C : CEnv) (Hm : malloc_ok C).
Implicit Types h : heap.

Lemma bind_step {A B} (m : P A) (k : A -> P B) h a h' : m h = Ret a h' -> pbind m k h = k a h'.
Proof. intros E. unfold pbind. by rewrite E. Qed.

Lemma Malloc_step n h : exists p, p <> 0 /\ h !! p = None /\ p = malloc C h n /\ Malloc C n h = Ret p (<[p := Fresh]> h).
Proof.
  destruct (Hm h n) as [H0 H1]. exists (malloc C h n). split; [done|]. split; [done|]. split; [done|].
  unfold Malloc. by rewrite (proj2 (Z.eqb_neq _ 0) H0).
Qed.

Lemma put_step p b x h : p <> 0 -> h !! p = Some x -> put p b h = Ret tt (<[p := b]> h).
Proof. intros H0 Hx. unfold put. by rewrite (proj2 (Z.eqb_neq _ 0) H0), Hx. Qed.

Lemma Free_step p x h : p <> 0 -> h !! p = Some x -> Free p h = Ret tt (delete p h).
Proof. intros H0 Hx. unfold Free. by rewrite (proj2 (Z.eqb_neq _ 0) H0), Hx. Qed.

Lemma get_step p c h : p <> 0 -> h !! p = Some (Struct c) -> get p h = Ret c h.
Proof. intros H0 Hx. unfold get. by rewrite (proj2 (Z.eqb_neq _ 0) H0), Hx. Qed.

Lemma CString_step s h : exists p, p <> 0 /\ h !! p = None /\ CString C s h = Ret p (<[p := Chars (s ++ [0])]> h).
Proof.
  destruct (Malloc_step (Z.of_nat (length s) + 1) h) as (p & H0 & Hn & _ & E). exists p. split; [done|]. split; [done|].
  unfold CString. rewrite (bind_step _ _ _ _ _ E). unfold pbind.
  rewrite (put_step p _ Fresh) by (done || by rewrite lookup_insert_eq). by rewrite insert_insert_eq.
Qed.

Lemma CBytes_step b h : exists p, p <> 0 /\ h !! p = None /\ CBytes C b h = Ret p (<[p := Chars b]> h).
Proof.
  destruct (Malloc_step (Z.of_nat (length b)) h) as (p & H0 & Hn & _ & E). exists p. split; [done|]. split; [done|].
  unfold CBytes. rewrite (bind_step _ _ _ _ _ E). rewrite (proj2 (Z.eqb_neq p 0) H0). unfold pbind.
  rewrite (put_step p _ Fresh) by (done || by rewrite lookup_insert_eq). by rewrite insert_insert_eq.
Qed.

Lemma POD_ok c h : exists a h', TransformPOD C c h = Ret (a, Free) h' /\ h' !! a = Some (Struct c) /\ Free a h' = Ret tt h.
Proof.
  destruct (Malloc_step (sizeof C c) h) as (a & H0 & Hn & _ & E). exists a, (<[a := Struct c]> h).
  split; [|split; [by rewrite lookup_insert_eq|]].
  - unfold TransformPOD. rewrite (bind_step _ _ _ _ _ E). unfold pbind.
    rewrite (put_step a _ Fresh) by (done || by rewrite lookup_insert_eq). by rewrite insert_insert_eq.
  - rewrite (Free_step a (Struct c)) by (done || by rewrite lookup_insert_eq).
    rewrite delete_insert_id by done. done.
Qed.
End Steps.

(** Equal heaps, address by address. *)
Ltac heap_eq :=
  apply map_eq; intros i; repeat rewrite ?lookup_delete, ?lookup_insert; repeat case_decide; subst; congruence.

Section Structs.
Context (C : CEnv) (Hm : malloc_ok C).
Implicit Types h : heap.

(** The destructors on the memory their structures are in. *)
Lemma free_named_ok a q c x h : a <> 0 -> q <> 0 -> a <> q -> h !! a = None -> h !! q = None -> name_of c = Some q ->
  free_named a (<[a := Struct c]> (<[q := x]> h)) = Ret tt h.
Proof.
  intros Ha Hq Haq La Lq N. unfold free_named, free_field, pbind.
  rewrite (get_step a c) by (done || by rewrite lookup_insert_eq). rewrite N.
  rewrite (Free_step q x) by (done || by rewrite lookup_insert_ne, lookup_insert_eq by done).
  rewrite (Free_step a (Struct c)) by (done || by rewrite lookup_delete_ne, lookup_insert_eq by done).
  f_equal. heap_eq.
Qed.

Lemma free_masked_ok a q r c x y h : a <> 0 -> q <> 0 -> r <> 0 -> a <> q -> a <> r -> q <> r ->
  h !! a = None -> h !! q = None -> h !! r = None -> name_of c = Some q -> mask_of c = Some r ->
  free_masked a (<[a := Struct c]> (<[r := y]> (<[q := x]> h))) = Ret tt h.
Proof.
  intros Ha Hq Hr Haq Har Hqr La Lq Lr N M. unfold free_masked, free_field, pbind.
  rewrite (get_step a c) by (done || by rewrite lookup_insert_eq). rewrite N.
  rewrite (Free_step q x) by (done || by rewrite !lookup_insert_ne, lookup_insert_eq by done).
  rewrite (get_step a c) by (done || by rewrite lookup_delete_ne, lookup_insert_eq by done). rewrite M.
  rewrite (Free_step r y) by (done || by rewrite lookup_delete_ne, lookup_insert_ne, lookup_insert_eq by done).
  rewrite (Free_step a (Struct c)) by (done || by rewrite !lookup_delete_ne, lookup_insert_eq by done).
  f_equal. heap_eq.
Qed.

(** Structures with a name: what the transformations of LPM and ACL tables and
    of pipelines do. *)
Lemma named_ok n s mk h : (forall q, name_of (mk q) = Some q) ->
  exists a d h', (let! params := Malloc C n in let! name := CString C s in put params (Struct (mk name)) ;; pret (params, free_named)) h =
      Ret (a, d) h' /\
    (exists q, h' !! a = Some (Struct (mk q)) /\ h' !! q = Some (Chars (s ++ [0]))) /\ d a h' = Ret tt h.
Proof.
  intros N. destruct (Malloc_step C Hm n h) as (a & Ha & La & _ & Ea).
  destruct (CString_step C Hm s (<[a := Fresh]> h)) as (q & Hq & Lq & Eq).
  assert (Haq : a <> q) by (intros ->; by rewrite lookup_insert_eq in Lq).
  rewrite lookup_insert_ne in Lq by done.
  exists a, free_named, (<[a := Struct (mk q)]> (<[q := Chars (s ++ [0])]> h)). split; [|split].
  - rewrite (bind_step _ _ _ _ _ Ea), (bind_step _ _ _ _ _ Eq). unfold pbind.
    rewrite (put_step a _ Fresh) by (done || by rewrite lookup_insert_ne, lookup_insert_eq by done).
    unfold pret. f_equal. heap_eq.
  - exists q. split; [by rewrite lookup_insert_eq|by rewrite lookup_insert_ne, lookup_insert_eq by done].
  - by apply free_named_ok.
Qed.

(** Structures with a name and a mask: hash tables. *)
Lemma masked_ok n s b mk h : (forall q r, name_of (mk q r) = Some q) -> (forall q r, mask_of (mk q r) = Some r) ->
  exists a d h', (let! params := Malloc C n in let! name := CString C s in let! mask := CBytes C b in
                  put params (Struct (mk name mask)) ;; pret (params, free_masked)) h = Ret (a, d) h' /\
    (exists q r, h' !! a = Some (Struct (mk q r)) /\ h' !! q = Some (Chars (s ++ [0])) /\ h' !! r = Some (Chars b)) /\
    d a h' = Ret tt h.
Proof.
  intros N M. destruct (Malloc_step C Hm n h) as (a & Ha & La & _ & Ea).
  destruct (CString_step C Hm s (<[a := Fresh]> h)) as (q & Hq & Lq & Eq).
  assert (Haq : a <> q) by (intros ->; by rewrite lookup_insert_eq in Lq).
  rewrite lookup_insert_ne in Lq by done.
  destruct (CBytes_step C Hm b (<[q := Chars (s ++ [0])]> (<[a := Fresh]> h))) as (r & Hr & Lr & Er).
  assert (Hqr : q <> r) by (intros ->; by rewrite lookup_insert_eq in Lr).
  rewrite lookup_insert_ne in Lr by done.
  assert (Har : a <> r) by (intros ->; by rewrite lookup_insert_eq in Lr).
  rewrite lookup_insert_ne in Lr by done.
  exists a, free_masked, (<[a := Struct (mk q r)]> (<[r := Chars b]> (<[q := Chars (s ++ [0])]> h))). split; [|split].
  - rewrite (bind_step _ _ _ _ _ Ea), (bind_step _ _ _ _ _ Eq), (bind_step _ _ _ _ _ Er). unfold pbind.
    rewrite (put_step a _ Fresh) by (done || by rewrite !lookup_insert_ne, lookup_insert_eq by done).
    unfold pret. f_equal. heap_eq.
  - exists q, r. split_and!; [by rewrite lookup_insert_eq| |].
    + by rewrite !lookup_insert_ne, lookup_insert_eq by done.
    + by rewrite lookup_insert_ne, lookup_insert_eq by done.
  - by apply free_masked_ok.
Qed.

(** Structures whose file name is set after the rest: sources and sinks. *)
Lemma file_ok n s mk h : (forall q, name_of (mk q) = Some q) ->
  exists a d h', (let! params := Malloc C n in let! unset := read_junk C in put params (Struct (mk unset)) ;;
                  (let! name := CString C s in put params (Struct (mk name))) ;; pret (params, free_named)) h = Ret (a, d) h' /\
    (exists q, h' !! a = Some (Struct (mk q)) /\ h' !! q = Some (Chars (s ++ [0]))) /\ d a h' = Ret tt h.
Proof.
  intros N. destruct (Malloc_step C Hm n h) as (a & Ha & La & _ & Ea).
  set (j := junk C (<[a := Fresh]> h)).
  destruct (CString_step C Hm s (<[a := Struct (mk j)]> h)) as (q & Hq & Lq & Eq).
  assert (Haq : a <> q) by (intros ->; by rewrite lookup_insert_eq in Lq).
  rewrite lookup_insert_ne in Lq by done.
  exists a, free_named, (<[a := Struct (mk q)]> (<[q := Chars (s ++ [0])]> h)). split; [|split].
  - rewrite (bind_step _ _ _ _ _ Ea). unfold read_junk. unfold pbind at 1. fold j. unfold pbind at 1.
    rewrite (put_step a _ Fresh) by (done || by rewrite lookup_insert_eq). rewrite insert_insert_eq.
    unfold pbind. rewrite Eq.
    rewrite (put_step a _ (Struct (mk j))) by (done || by rewrite lookup_insert_ne, lookup_insert_eq by done).
    unfold pret. f_equal. heap_eq.
  - exists q. split; [by rewrite lookup_insert_eq|by rewrite lookup_insert_ne, lookup_insert_eq by done].
  - by apply free_named_ok.
Qed.
End Structs.

Lemma POD_lawful C c (Q : Framework.heap -> Z -> Prop) h : malloc_ok C -> (forall h a, h !! a = Some (Struct c) -> Q h a) ->
  exists a d h', TransformPOD C c h = Ret (a, d) h' /\ Q h' a /\ d a h' = Ret tt h.
Proof. intros Hm HQ. destruct (POD_ok C Hm c h) as (a & h' & E & Ho & D). exists a, Free, h'. eauto. Qed.

(** ** The parameters of ports and tables

    What the structure at an address says. *)

Definition named_at (mk : Z -> cstruct) (s : list Z) (h : Framework.heap) (a : Z) : Prop :=
  exists q, h !! a = Some (Struct (mk q)) /\ h !! q = Some (Chars (s ++ [0])).

Definition in_at (p : InParams) (h : Framework.heap) (a : Z) : Prop :=
  match p with
  | InEthdev p => h !! a = Some (Struct (ethdev_reader_params (rx_PortID p) (rx_QueueID p)))
  | InFd p => h !! a = Some (Struct (fd_reader_params (i32 (fr_Fd p)) (fr_MTU p) (fr_Mempool p)))
  | InRing p => h !! a = Some (Struct (ring_reader_params (rr_Ring p)))
  | InSource p => named_at (fun q => source_params (sr_Mempool p) q (BytesPerPacket p)) (sr_Filename p) h a
  end.
Definition in_usable (p : InParams) : Prop := match p with InSource p => sr_Filename p <> [] | _ => True end.

#[export] Program Instance In_Lawful : Lawful InParams := { usable := fun _ => in_usable; holds := in_at }.
Next Obligation.
  intros C p h Hm U. destruct p as [p|p|p|p].
  1-3: by apply POD_lawful.
  destruct p as [mp [|b s] n]; [done|].
  apply (file_ok C Hm _ (b :: s) (fun q => source_params mp q n)). done.
Qed.

Definition out_at (p : OutParams) (h : Framework.heap) (a : Z) : Prop :=
  match p with
  | OutEthdev p =>
      h !! a = Some (Struct (ethdev_writer_nodrop_params (tx_PortID p) (tx_QueueID p) (et_BurstSize p) (et_Retries p)))
  | OutFd p => h !! a = Some (Struct (fd_writer_nodrop_params (i32 (ft_Fd p)) (ft_BurstSize p) (ft_Retries p)))
  | OutRing p => h !! a = Some (Struct (ring_writer_nodrop_params (rt_Ring p) (rt_TxBurstSize p) (rt_Retries p)))
  | OutSink p => named_at (fun q => sink_params q (MaxPackets p)) (sk_Filename p) h a
  end.
Definition out_usable (p : OutParams) : Prop := match p with OutSink p => sk_Filename p <> [] | _ => True end.

#[export] Program Instance Out_Lawful : Lawful OutParams := { usable := fun _ => out_usable; holds := out_at }.
Next Obligation.
  intros C p h Hm U. destruct p as [p|p|p|p]; [by apply POD_lawful..|].
  destruct p as [[|b s] n]; [done|].
  apply (file_ok C Hm _ (b :: s) (fun q => sink_params q n)). done.
Qed.

#[export] Instance table_ops_eq_dec : EqDecision table_ops.
Proof. solve_decision. Defined.

Definition masked_at (mk : Z -> Z -> cstruct) (s b : list Z) (h : Framework.heap) (a : Z) : Prop :=
  exists q r, h !! a = Some (Struct (mk q r)) /\ h !! q = Some (Chars (s ++ [0])) /\ h !! r = Some (Chars b).

Definition table_at (p : TParams) (h : Framework.heap) (a : Z) : Prop :=
  match p with
  | TACL p =>
      named_at (fun q => acl_params q (acl_Rules p) (Z.of_nat (length (FieldFormat p))) (FieldFormat p)) (acl_Name p) h a
  | TArray p => h !! a = Some (Struct (array_params (Entries p) (arr_Offset p)))
  | THash p =>
      masked_at (fun q r =>
        if decide (hash_TableOps p = rte_table_hash_cuckoo_ops)
        then hash_cuckoo_params q (KeySize p) (KeyOffset p) r (KeysNum p) (BucketsNum p) (CuckooHash_Func p) (CuckooHash_Seed p)
        else hash_params q (KeySize p) (KeyOffset p) r (KeysNum p) (BucketsNum p) (Hash_Func p) (Hash_Seed p))
        (hash_Name p) (KeyMask p) h a
  | TLPM p =>
      named_at (fun q =>
        if decide (lpm_TableOps p = rte_table_lpm_ops)
        then lpm_params q (lpm_Rules p) (NumTBL8 p) (EntryUniqueSize p) (lpm_Offset p)
        else lpm_ipv6_params q (lpm_Rules p) (NumTBL8 p) (EntryUniqueSize p) (lpm_Offset p)) (lpm_Name p) h a
  | TStub => a = 0
  end.
Definition table_usable (C : CEnv) (p : TParams) : Prop :=
  match p with
  | TACL p => (length (FieldFormat p) <= RTE_ACL_MAX_FIELDS C)%nat
  | THash p => hash_TableOps p ∈ [rte_table_hash_ext_ops; rte_table_hash_lru_ops; rte_table_hash_cuckoo_ops]
  | TLPM p => lpm_TableOps p ∈ [rte_table_lpm_ops; rte_table_lpm_ipv6_ops]
  | _ => True
  end.

#[export] Program Instance Table_Lawful : Lawful TParams := { usable := table_usable; holds := table_at }.
Next Obligation.
  intros C p h Hm U. destruct p as [p|p|p|p|]; simpl in U.
  - change (Transform C (TACL p)) with (ACLParams_Transform C p). unfold ACLParams_Transform.
    rewrite (proj2 (Nat.ltb_ge _ _) U). by apply named_ok.
  - by apply POD_lawful.
  - change (Transform C (THash p)) with (HashParams_Transform C p). unfold HashParams_Transform, holds, table_at.
    set_unfold. destruct U as [U|[U|[U|[]]]]; rewrite U; by apply masked_ok.
  - change (Transform C (TLPM p)) with (LPMParams_Transform C p). unfold LPMParams_Transform, holds, table_at.
    set_unfold. destruct U as [U|[U|[]]]; rewrite U; by apply named_ok.
  - exists 0, Free, h. done.
Qed.

(** ** Creation *)

(** What an output port asks of its operation table: the medium, many producers,
    and whether packets are retried. *)
Definition describe (ops : out_ops) : nat * bool * bool :=
  match ops with
  | rte_port_ethdev_writer_ops => (0%nat, false, false)
  | rte_port_ethdev_writer_nodrop_ops => (0%nat, false, true)
  | rte_port_fd_writer_ops => (1%nat, false, false)
  | rte_port_fd_writer_nodrop_ops => (1%nat, false, true)
  | rte_port_ring_writer_ops => (2%nat, false, false)
  | rte_port_ring_multi_writer_ops => (2%nat, true, false)
  | rte_port_ring_writer_nodrop_ops => (2%nat, false, true)
  | rte_port_ring_multi_writer_nodrop_ops => (2%nat, true, true)
  | rte_port_sink_ops => (3%nat, false, false)
  end.
Definition asked (p : OutParams) : nat * bool * bool :=
  match p with
  | OutEthdev p => (0%nat, false, et_NoDrop p)
  | OutFd p => (1%nat, false, ft_NoDrop p)
  | OutRing p => (2%nat, rt_Multi p, rt_NoDrop p)
  | OutSink _ => (3%nat, false, false)
  end.

Lemma OutOps_asked p : exists ops, OutOps p = Some ops /\ describe ops = asked p.
Proof.
  destruct p as [[? ? ? [] ?]|[? ? [] ?]|[? ? [] [] ?]|p]; eexists; (split; [reflexivity|reflexivity]).
Qed.

(** C14. Creating ports and tables: for parameters that C can take, the creation
    function is called on a structure in C memory that holds the parameters, with
    the operation table they ask for, its result is the result, and the memory is
    afterwards what it was: names, masks and structures are all freed, none
    twice. *)
Theorem creations_no_leak C h (Hm : malloc_ok C) :
  (forall in_create socket p, in_usable p -> exists h' a,
     in_at p h' a /\ CreateIn C in_create socket p h = Ret (in_create (InOps p) h' a (i32 socket)) h) /\
  (forall out_create socket p, out_usable p -> exists h' a ops,
     out_at p h' a /\ describe ops = asked p /\
     CreateOut C out_create socket p h = Ret (out_create ops h' a (i32 socket)) h) /\
  (forall table_create socket p entrySize, table_usable C p -> exists h' a,
     table_at p h' a /\
     Table_Create C table_create socket p entrySize h = Ret (table_create (Ops p) h' a (i32 socket) entrySize) h).
Proof.
  split_and!.
  - intros in_create socket p U.
    exact (with_arg_ok C p (fun h arg => in_create (InOps p) h arg (i32 socket)) h Hm U).
  - intros out_create socket p U. destruct (OutOps_asked p) as (ops & E & D).
    destruct (with_arg_ok C p (fun h arg => out_create ops h arg (i32 socket)) h Hm) as (h' & a & Ho & W); [exact U|].
    exists h', a, ops. unfold CreateOut. by rewrite E.
  - intros table_create socket p entrySize U.
    exact (with_arg_ok C p (fun h arg => table_create (Ops p) h arg (i32 socket) entrySize) h Hm U).
Qed.

(** A source without a file name frees what fresh memory happened to hold: that
    goes well only for NULL; otherwise C is undefined, or a block of someone else
    is freed. *)
Theorem Source_no_filename C in_create socket mp n h (Hm : malloc_ok C) :
  let a := malloc C h (sizeof C (source_params 0 0 0)) in
  let q := junk C (<[a := Fresh]> h) in
  let r := CreateIn C in_create socket (InSource (mkSource mp [] n)) h in
  let port h' := in_create rte_port_source_ops h' a (i32 socket) in
  let h1 := <[a := Struct (source_params mp q n)]> h in
  (q = 0 -> r = Ret (port h1) h) /\
  (forall b, q <> 0 -> q <> a -> h !! q = Some b -> r = Ret (port h1) (delete q h)) /\
  (q <> 0 -> q <> a -> h !! q = None -> r = Undefined).
Proof.
  intros a q r port h1. destruct (Hm h (sizeof C (source_params 0 0 0))) as [Ha La]. fold a in Ha, La.
  assert (E : r = match free_named a h1 with Ret _ h' => Ret (port h1) h' | Panic h' => Panic h' | Undefined => Undefined end).
  { unfold r, CreateIn, with_arg, Transform, In_Transformer, Source_Transform, pbind, Malloc, read_junk, pret, defer.
    fold a. rewrite (proj2 (Z.eqb_neq _ 0) Ha). fold q.
    rewrite (put_step a _ Fresh) by (done || by rewrite lookup_insert_eq). by rewrite insert_insert_eq. }
  rewrite E. unfold h1, free_named, free_field, pbind. rewrite (get_step a (source_params mp q n)) by (done || by rewrite lookup_insert_eq).
  simpl. split_and!.
  - intros ->. unfold Free at 1. simpl. rewrite (Free_step a (Struct (source_params mp 0 n))) by (done || by rewrite lookup_insert_eq).
    f_equal. by rewrite delete_insert_id.
  - intros b H0 Hqa Lq. rewrite (Free_step q b) by (done || by rewrite lookup_insert_ne by done).
    rewrite (Free_step a (Struct (source_params mp q n))) by (done || by rewrite lookup_delete_ne, lookup_insert_eq by done).
    f_equal. heap_eq.
  - intros H0 Hqa Lq. unfold Free at 1. rewrite (proj2 (Z.eqb_neq _ 0) H0). by rewrite lookup_insert_ne, Lq by done.
Qed.

(** An ACL table with too many fields panics before its structure has an owner:
    the structure is leaked. *)
Theorem ACL_excess_leaks C table_create socket p entrySize h (Hm : malloc_ok C)
    (H : (RTE_ACL_MAX_FIELDS C < length (FieldFormat p))%nat) :
  exists a, h !! a = None /\ Table_Create C table_create socket (TACL p) entrySize h = Panic (<[a := Fresh]> h).
Proof.
  destruct (Malloc_step C Hm (sizeof C (acl_params 0 0 0 [])) h) as (a & Ha & La & _ & E). exists a. split; [done|].
  unfold Table_Create, with_arg, Transform, Table_Transformer, ACLParams_Transform. unfold pbind at 1. unfold pbind. rewrite E.
  by rewrite (proj2 (Nat.ltb_lt _ _) H).
Qed.

Definition sample_env (j : Z) : CEnv := mkCEnv (fun _ => 16) first_free (fun _ => j) 2.

Lemma sample_env_ok j : malloc_ok (sample_env j).
Proof. intros h n. destruct (first_free_ok h n). simpl. split; [lia|done]. Qed.

Lemma creations_no_leak_witness :
  let h := {[1 := Chars [7]]} : Framework.heap in
  CreateOut (sample_env 5) (fun _ h a s => match h !! a with Some (Struct (ring_writer_nodrop_params r _ _)) => r + s | _ => 0 end)
    3 (OutRing (mkRingTx 40 32 true true 0)) h = Ret 43 h /\
  exists h' a, table_at (TLPM (mkLPMParams rte_table_lpm_ops [65] 8 1 4 0)) h' a /\
    Table_Create (sample_env 5) (fun _ _ a _ _ => a) 0 (TLPM (mkLPMParams rte_table_lpm_ops [65] 8 1 4 0)) 8 h = Ret a h.
Proof.
  intros h. split; [vm_compute; reflexivity|].
  apply (creations_no_leak (sample_env 5) h (sample_env_ok 5)). set_unfold. by left.
Defined.

Lemma Source_no_filename_witness :
  let h := {[1 := Chars [7]]} : Framework.heap in
  CreateIn (sample_env 1) (fun _ _ a _ => a) 0 (InSource (mkSource 9 [] 0)) h = Ret 2 ∅ /\
  CreateIn (sample_env 77) (fun _ _ a _ => a) 0 (InSource (mkSource 9 [] 0)) h = Undefined.
Proof.
  intros h. split.
  - apply (Source_no_filename (sample_env 1) (fun _ _ a _ => a) 0 9 0 h (sample_env_ok 1)) with (b := Chars [7]); done.
  - apply (Source_no_filename (sample_env 77) (fun _ _ a _ => a) 0 9 0 h (sample_env_ok 77)); done.
Defined.

Lemma ACL_excess_leaks_witness :
  let p := mkACLParams [65] 4 (replicate 3 (mkACLFieldDef 0 1 0 0 0)) in
  exists a, (∅ : Framework.heap) !! a = None /\
    Table_Create (sample_env 0) (fun _ _ a _ _ => a) 0 (TACL p) 8 ∅ = Panic (<[a := Fresh]> ∅).
Proof. intros p. apply (ACL_excess_leaks (sample_env 0) (fun _ _ a _ _ => a) 0 p 8 ∅ (sample_env_ok 0)). simpl. lia. Defined.
