(* ===== verification/PipelineSpec.v ===== *)
(** * Packet framework: theorems on pipelines

    Creations give back their memory; the fields of a table entry; when the loop
    of a pipeline ends, and what it did until then. *)

From Stdlib Require Import ZArith Lia.
From stdpp Require Import base list numbers option gmap.
From S2P Require Import Prelude Memory Errno Framework FrameworkSpec Pipeline.

Open Scope Z_scope.
Open Scope pf_scope.

(** ** Creation *)

Definition params_at (p : Params) (h : Framework.heap) (a : Z) : Prop :=
  named_at (fun q => pipeline_params q (i32 (pl_SocketID p)) (OffsetPortID p)) (pl_Name p) h a.

#[export] Program Instance Params_Lawful : Lawful Params := { usable := fun _ _ => True; holds := params_at }.
Next Obligation. intros C p h Hm _. by apply named_ok. Qed.

(** Pipelines, their ports and their tables: each creation passes a structure
    that holds the parameters and gives all its memory back; a failed one
    returns the error of its code. *)
Theorem pipeline_creations C E h (Hm : malloc_ok C) :
  (forall create p, exists h' a, params_at p h' a /\ Create C create p h = Ret (create h' a) h) /\
  (forall f pl p, in_usable (pi_Params p) -> exists h' a,
     in_at (pi_Params p) h' a /\
     let r := f h' pl (mkCPortIn (InOps (pi_Params p)) a (pi_Action p) (pi_ActionArg p) (u32 (BurstSize p))) in
     PortInCreate C E f pl p h = Ret (default 0 (snd r), IntErr E (fst r)) h) /\
  (forall f pl p, out_usable (po_Params p) -> exists h' a ops,
     out_at (po_Params p) h' a /\ describe ops = asked (po_Params p) /\
     let r := f h' pl (mkCPortOut ops a (po_Action p) (po_ActionArg p)) in
     PortOutCreate C E f pl p h = Ret (default 0 (snd r), IntErr E (fst r)) h) /\
  (forall f pl p, table_usable C (tp_Params p) -> exists h' a,
     table_at (tp_Params p) h' a /\
     let r := f h' pl (mkCTable (Ops (tp_Params p)) a (OnHit p) (OnMiss p) (tp_ActionArg p) (u32 (ActionDataSize p))) in
     TableCreate C E f pl p h = Ret (default 0 (snd r), IntErr E (fst r)) h).
Proof.
  split_and!.
  - intros create p. exact (with_arg_ok C p create h Hm I).
  - intros f pl p U. eapply (with_arg_ok C (pi_Params p)) in Hm as (h' & a & Ho & W); [|exact U].
    exists h', a. split; [exact Ho|]. exact W.
  - intros f pl p U. destruct (OutOps_asked (po_Params p)) as (ops & Eo & D).
    eapply (with_arg_ok C (po_Params p)) in Hm as (h' & a & Ho & W); [|exact U].
    exists h', a, ops. split; [exact Ho|]. split; [done|]. intros r. unfold PortOutCreate. rewrite Eo. exact W.
  - intros f pl p U. eapply (with_arg_ok C (tp_Params p)) in Hm as (h' & a & Ho & W); [|exact U].
    exists h', a. split; [exact Ho|]. exact W.
Qed.

(** ** Table entries *)

(** The identifiers of an entry are read back as written, whatever is done to
    fields beside them. *)
Theorem TableEntry_roundtrip L m entry v :
  0 <= v < 2 ^ 32 ->
  (forall off, off ∈ [ENTRY_ACTION L; TABLE_ENTRY_PORT_ID L; TABLE_ENTRY_TABLE_ID L] -> mapped m (entry + off) 4) ->
  (exists m', SetAction L m entry v = Some m' /\ GetAction L m' entry = Some v /\
     (ENTRY_ACTION L + 4 <= TABLE_ENTRY_PORT_ID L -> GetPortID L m' entry = GetPortID L m entry)) /\
  (exists m', SetPortID L m entry v = Some m' /\ GetPortID L m' entry = Some v /\
     (ENTRY_ACTION L + 4 <= TABLE_ENTRY_PORT_ID L -> GetAction L m' entry = GetAction L m entry)) /\
  (exists m', SetTableID L m entry v = Some m' /\ GetTableID L m' entry = Some v /\
     (ENTRY_ACTION L + 4 <= TABLE_ENTRY_TABLE_ID L -> GetAction L m' entry = GetAction L m entry)).
Proof.
  intros Hv Hm.
  assert (S : forall off, off ∈ [ENTRY_ACTION L; TABLE_ENTRY_PORT_ID L; TABLE_ENTRY_TABLE_ID L] ->
    exists m', store_le m (entry + off) 4 v = Some m' /\ load_le m' (entry + off) 4 = Some v /\
      forall o, o + 4 <= off \/ off + 4 <= o -> load_le m' (entry + o) 4 = load_le m (entry + o) 4).
  { intros off Ho. exists (write m (entry + off) (le_bytes 4 v)). split; [|split].
    - apply store_bytes_mapped. rewrite length_le_bytes. by apply Hm.
    - by apply load_le_write_same.
    - intros o Hd. apply load_le_write_disj. rewrite length_le_bytes. lia. }
  split_and!.
  - destruct (S (ENTRY_ACTION L)) as (m' & A & B & D); [set_solver|]. exists m'. split_and!; [done..|]. intros. apply D. lia.
  - destruct (S (TABLE_ENTRY_PORT_ID L)) as (m' & A & B & D); [set_solver|]. exists m'. split_and!; [done..|]. intros. apply D. lia.
  - destruct (S (TABLE_ENTRY_TABLE_ID L)) as (m' & A & B & D); [set_solver|]. exists m'. split_and!; [done..|]. intros. apply D. lia.
Qed.

(** ** The loop *)

(** What an iteration does that does not end the loop, with a control function. *)
Definition iteration (flush : Z) (n : nat) : list event :=
  if Z.of_nat n mod flush =? 0 then [Run; Flush; Ctrl] else [Run].

Lemma flush_mask k n : 0 <= k < 32 -> Z.land (u32 (Z.of_nat n)) (u32 (2 ^ k - 1)) = Z.of_nat n mod 2 ^ k.
Proof.
  intros Hk. assert (B : 2 ^ k <= 2 ^ 31) by (apply Z.pow_le_mono_r; lia).
  assert (B0 : 0 < 2 ^ k) by (apply Z.pow_pos_nonneg; lia).
  rewrite (u32_small (2 ^ k - 1)) by lia. rewrite (land_ones_mod _ k) by lia. unfold u32.
  replace 4294967296 with (2 ^ k * 2 ^ (32 - k)); [apply Z.mod_mod_divide; by apply Z.divide_factor_l|].
  rewrite <- Z.pow_add_r by lia. by replace (k + (32 - k)) with 32 by lia.
Qed.

Lemma run_loop_stops k f d : 0 <= k < 32 -> forall fuel n,
  (forall i, (n <= i < n + d)%nat -> Z.of_nat i mod 2 ^ k = 0 -> f i = 0) ->
  Z.of_nat (n + d) mod 2 ^ k = 0 -> f (n + d)%nat <> 0 -> (d < fuel)%nat ->
  run_pipeline_loop fuel (2 ^ k) (Some f) n =
    Some (if 0 <? f (n + d)%nat then 0 else f (n + d)%nat, concat (map (iteration (2 ^ k)) (seq n (S d)))).
Proof.
  intros Hk. assert (B0 : 0 < 2 ^ k) by (apply Z.pow_pos_nonneg; lia).
  induction d as [|d IH]; intros fuel n Hz Hd Hf Hfu; (destruct fuel as [|fuel]; [lia|]); cbn [run_pipeline_loop].
  - rewrite Nat.add_0_r in *. rewrite (proj2 (Z.eqb_neq (2 ^ k) 0)) by lia. rewrite flush_mask, Hd by done. cbn [negb orb Z.eqb].
    unfold iteration. cbn [seq map concat]. rewrite Hd. cbn [Z.eqb].
    destruct (Z.ltb_spec 0 (f n)); [done|]. rewrite (proj2 (Z.ltb_lt _ _)) by lia. done.
  - rewrite (proj2 (Z.eqb_neq (2 ^ k) 0)) by lia. rewrite flush_mask by done. cbn [orb].
    rewrite IH; [| |by rewrite Nat.add_succ_comm|by rewrite Nat.add_succ_comm|lia].
    2:{ intros i Hi. apply Hz. lia. }
    rewrite <- Nat.add_succ_comm. cbn [seq map concat].
    change (iteration (2 ^ k) n) with (if Z.of_nat n mod 2 ^ k =? 0 then [Run; Flush; Ctrl] else [Run]).
    destruct (Z.eqb_spec (Z.of_nat n mod 2 ^ k) 0) as [E|E]; cbn [negb]; [|done].
    rewrite (Hz n) by (done || lia). done.
Qed.

Lemma run_loop_diverges flush f_ctrl fuel : flush = 0 \/ f_ctrl = None -> forall n,
  run_pipeline_loop fuel flush f_ctrl n = None.
Proof.
  intros H. induction fuel as [|fuel IH]; intros n; [done|]. cbn [run_pipeline_loop]. rewrite IH.
  destruct H as [-> | ->]; [done|]. by destruct (_ || _).
Qed.

(** The test for a power of two. *)
Lemma flush_test flush : 0 <= flush < 2 ^ 32 ->
  Z.land flush (u32 (flush - 1)) = 0 <-> flush = 0 \/ exists k, 0 <= k < 32 /\ flush = 2 ^ k.
Proof.
  intros Hf. split.
  - intros L. destruct (Z.eq_dec flush 0) as [|N]; [by left|]. right. exists (Z.log2 flush).
    assert (Hl : Z.log2 flush < 32) by (apply Z.log2_lt_pow2; lia). pose proof (Z.log2_nonneg flush).
    split; [lia|]. rewrite u32_small in L by lia.
    destruct (Z.log2_spec flush) as [A B]; [lia|].
    destruct (Z.eq_dec flush (2 ^ Z.log2 flush)) as [|Ne]; [done|exfalso].
    assert (L1 : Z.log2 (flush - 1) = Z.log2 flush) by (apply Z.log2_unique; lia).
    assert (T : Z.testbit (Z.land flush (flush - 1)) (Z.log2 flush) = true).
    { rewrite Z.land_spec, Z.bit_log2 by lia. rewrite <- L1 at 1. rewrite Z.bit_log2; [done|].
      assert (0 < 2 ^ Z.log2 flush) by (apply Z.pow_pos_nonneg; lia). lia. }
    by rewrite L, Z.bits_0 in T.
  - intros [->|(k & Hk & ->)]; [done|]. assert (B : 2 ^ k <= 2 ^ 31) by (apply Z.pow_le_mono_r; lia).
    assert (B0 : 0 < 2 ^ k) by (apply Z.pow_pos_nonneg; lia).
    rewrite u32_small by lia. rewrite (land_ones_mod _ k) by lia. apply Z.mod_same. lia.
Qed.

(** C16. [RunLoop] panics exactly for a [flush] that is neither zero nor a power of
    two. Otherwise it runs the pipeline in every iteration and flushes it in every
    [flush]-th, where it asks the control function, until that answers: for a
    positive answer it returns nil, for a negative one its error. It never
    returns for [flush] zero or without a control function. *)
Theorem RunLoop_spec E flush (Hf : 0 <= flush < 2 ^ 32) :
  ((forall fuel c, RunLoop E fuel flush c = Some LoopPanic) <-> flush <> 0 /\ ~ exists k, 0 <= k < 32 /\ flush = 2 ^ k) /\
  (flush = 0 -> forall fuel c, RunLoop E fuel flush c = None) /\
  (forall k, 0 <= k < 32 -> flush = 2 ^ k ->
    (forall fuel, RunLoop E fuel flush None = None) /\
    forall f d fuel, (forall i, (i < d)%nat -> Z.of_nat i mod flush = 0 -> f i = 0) ->
      Z.of_nat d mod flush = 0 -> f d <> 0 -> (d < fuel)%nat ->
      RunLoop E fuel flush (Some (Some f)) =
        Some (LoopDone (IntErr E (if 0 <? f d then 0 else f d)) (concat (map (iteration flush) (seq 0 (S d)))))).
Proof.
  pose proof (flush_test flush Hf) as T. split_and!.
  - split.
    + intros H. specialize (H 0%nat None). unfold RunLoop in H.
      destruct (Z.eqb_spec (Z.land flush (u32 (flush - 1))) 0) as [L|L]; [done|]. rewrite T in L. naive_solver.
    + intros [N1 N2] fuel c. unfold RunLoop.
      destruct (Z.eqb_spec (Z.land flush (u32 (flush - 1))) 0) as [L|L]; [|done]. rewrite T in L. naive_solver.
  - intros -> fuel c. unfold RunLoop. simpl Z.land. cbn [Z.eqb negb]. rewrite run_loop_diverges; auto.
  - intros k Hk Ek. assert (L : Z.land flush (u32 (flush - 1)) = 0) by (apply T; right; eauto). split.
    + intros fuel. unfold RunLoop. rewrite L. cbn [Z.eqb negb]. rewrite run_loop_diverges; auto.
    + intros f d fuel Hz Hd Hn Hfu. unfold RunLoop. rewrite L. cbn [Z.eqb negb]. rewrite Ek in *.
      rewrite (run_loop_stops k f d Hk fuel 0) by (try done; intros i Hi; apply Hz; lia). done.
Qed.

(** ** The simple controller *)

(** A new controller lets the loop run; once [Stop] was called, before iteration
    [t], the loop ends with nil at the next flush, which is less than [flush]
    iterations away. *)
Theorem SimpleController_stops C E h0 h1 stop k t (memory : nat -> Framework.heap) fuel (Hm : malloc_ok C) h
    (New : NewSimpleController C h = Ret stop h0) (Stop : SimpleController_Stop stop h0 = Ret tt h1)
    (Hk : 0 <= k < 32) (Run0 : forall n, memory n !! stop = if (n <? t)%nat then h0 !! stop else h1 !! stop)
    (Fuel : (t + Z.to_nat (2 ^ k) <= fuel)%nat) :
  exists d, (t <= d < t + Z.to_nat (2 ^ k))%nat /\
    RunLoop E fuel (2 ^ k) (Some (Some (fun n => default 0 (simple_control (memory n) stop)))) =
      Some (LoopDone None (concat (map (iteration (2 ^ k)) (seq 0 (S d))))).
Proof.
  assert (B0 : 0 < 2 ^ k) by (apply Z.pow_pos_nonneg; lia).
  assert (B : 2 ^ k <= 2 ^ 31) by (apply Z.pow_le_mono_r; lia).
  unfold NewSimpleController, pbind in New. destruct (Malloc_step C Hm 1 h) as (p & Hp & _ & _ & Em). rewrite Em in New.
  rewrite (put_step p _ Fresh) in New by (done || by rewrite lookup_insert_eq). injection New as <- <-.
  unfold SimpleController_Stop in Stop.
  rewrite (put_step p _ (Chars [0])) in Stop by (done || by rewrite lookup_insert_eq). injection Stop as <-.
  set (f := fun n => default 0 (simple_control (memory n) p)).
  assert (F : forall n, f n = if (n <? t)%nat then 0 else 1).
  { intros n. unfold f, simple_control. rewrite Run0. destruct (n <? t)%nat; by rewrite lookup_insert_eq. }
  set (d := Z.to_nat ((Z.of_nat t + (2 ^ k - 1)) / 2 ^ k * 2 ^ k)).
  pose proof (Z.div_mod (Z.of_nat t + (2 ^ k - 1)) (2 ^ k)) as D.
  pose proof (Z.mod_pos_bound (Z.of_nat t + (2 ^ k - 1)) (2 ^ k) B0) as Mb.
  assert (Hd : (t <= d < t + Z.to_nat (2 ^ k))%nat) by lia. exists d. split; [done|].
  unfold RunLoop. rewrite (proj2 (flush_test (2 ^ k) ltac:(lia))) by (right; eauto). cbn [Z.eqb negb].
  rewrite (run_loop_stops k f d Hk fuel 0).
  - simpl. rewrite F, (proj2 (Nat.ltb_ge _ _)) by lia. done.
  - intros i Hi M0. rewrite F. destruct (Nat.ltb_spec i t) as [|Hit]; [done|exfalso].
    apply Z.mod_divide in M0 as [c Ec]; [|lia]. assert (c < (Z.of_nat t + (2 ^ k - 1)) / 2 ^ k) by nia. nia.
  - simpl. unfold d. rewrite Z2Nat.id by nia. apply Z.mod_mul. lia.
  - simpl. rewrite F, (proj2 (Nat.ltb_ge _ _)) by lia. lia.
  - lia.
Qed.

Lemma pipeline_creations_witness :
  let E := mkRteNumbers 1002 1001 1003 1000 in
  let p := mkPortInParams (InRing (mkRingRx 40 true)) 0 0 32 in
  exists h' a, in_at (pi_Params p) h' a /\
    PortInCreate (sample_env 0) E (fun _ _ q => (if pin_arg_create q =? 0 then -22 else 0, Some (burst_size q))) 5 p ∅ =
      Ret (32, None) ∅.
Proof.
  intros E p.
  destruct (pipeline_creations (sample_env 0) E ∅ (sample_env_ok 0)) as (_ & I & _).
  destruct (I (fun _ _ q => (if pin_arg_create q =? 0 then -22 else 0, Some (burst_size q))) 5 p Logic.I) as (h' & a & Ho & _).
  exists h', a. split; [exact Ho|]. vm_compute. reflexivity.
Defined.

Lemma TableEntry_roundtrip_witness :
  let L := mkEntryLayout 8 0 4 4 8 in
  let m := write ∅ 100 (replicate 8 0) in
  exists m', SetPortID L m 100 7 = Some m' /\ GetPortID L m' 100 = Some 7 /\ GetAction L m' 100 = Some 0.
Proof.
  intros L m. destruct (TableEntry_roundtrip L m 100 7) as (_ & (m' & A & B & D) & _); [lia| |].
  - intros off Ho i Hi. unfold m. rewrite lookup_write. simpl in Ho. case_decide as Hd.
    + apply lookup_lt_is_Some_2. rewrite length_replicate in *. lia.
    + exfalso. apply Hd. rewrite length_replicate. set_unfold. destruct Ho as [->|[->|[->|[]]]]; lia.
  - exists m'. split; [exact A|]. split; [exact B|]. rewrite D by (simpl; lia). vm_compute. reflexivity.
Defined.

Lemma RunLoop_spec_witness :
  let E := mkRteNumbers 1002 1001 1003 1000 in
  RunLoop E 9 4 (Some (Some (fun n => if (n =? 4)%nat then -5 else 0))) =
    Some (LoopDone (Some (Errno 5)) [Run; Flush; Ctrl; Run; Run; Run; Run; Flush; Ctrl]) /\
  RunLoop E 9 6 None = Some LoopPanic /\ RunLoop E 100 0 (Some (Some (fun _ => 1))) = None.
Proof.
  intros E. split_and!.
  - destruct (RunLoop_spec E 4) as (_ & _ & H); [lia|]. destruct (H 2) as [_ H']; [lia|done|].
    apply (H' (fun n => if (n =? 4)%nat then -5 else 0) 4%nat 9%nat); [|done|done|lia].
    intros i Hi _. by rewrite (proj2 (Nat.eqb_neq i 4)) by lia.
  - vm_compute. reflexivity.
  - apply (RunLoop_spec E 0); [lia|done].
Defined.

Lemma SimpleController_stops_witness :
  let E := mkRteNumbers 1002 1001 1003 1000 in
  let h0 := {[1 := Chars [0]]} : Framework.heap in
  let h1 := {[1 := Chars [1]]} : Framework.heap in
  exists d, (3 <= d < 7)%nat /\
    RunLoop E 7 (2 ^ 2) (Some (Some (fun n => default 0 (simple_control (if (n <? 3)%nat then h0 else h1) 1)))) =
      Some (LoopDone None (concat (map (iteration (2 ^ 2)) (seq 0 (S d))))).
Proof.
  intros E h0 h1.
  apply (SimpleController_stops (sample_env 0) E h0 h1 1 2 3 (fun n => if (n <? 3)%nat then h0 else h1) 7 (sample_env_ok 0) ∅).
  - vm_compute. reflexivity.
  - vm_compute. reflexivity.
  - lia.
  - intros n. by destruct (n <? 3)%nat.
  - simpl. lia.
Defined.
