(* ===== verification/Ethdev.v ===== *)
(** * Ethernet devices

    [src/ethdev/ethdev.go] and [mtr.go]: options that make the configuration
    structures of DPDK, the calls they are made for, hairpin queues, the list of
    ports, and meters. The functions of DPDK are arguments. RSS keys are copied to
    blocks of C memory; a fault there is [None]. *)

From Stdlib Require Import ZArith Lia.
From stdpp Require Import base list numbers option gmap.
From S2P Require Import Prelude Errno Framework.

Open Scope Z_scope.
Open Scope go_scope.

Abbreviation cheap := (gmap Z (list Z)).

(** ** C structures *)

Record rte_eth_rxmode := mkRxmode { rx_mq_mode : Z; rx_len : Z; split_hdr_size : Z; rx_offloads : Z }.
Record rte_eth_txmode := mkTxmode {
  tx_mq_mode : Z; tx_offloads : Z; pvid : Z; hw_vlan_reject_tagged : Z; hw_vlan_reject_untagged : Z; hw_vlan_insert_pvid : Z
}.
Record rte_eth_rss_conf := mkRssC { rss_key : Z; rss_key_len : Z; rss_hf : Z }.
Record rte_eth_intr_conf := mkIntrC { lsc : Z; rxq : Z; rmv : Z }.
Record rte_eth_conf := mkEthC {
  link_speeds : Z; rxmode : rte_eth_rxmode; txmode : rte_eth_txmode; lpbk_mode : Z; rss_conf : rte_eth_rss_conf;
  intr_conf : rte_eth_intr_conf
}.
Definition zero_conf : rte_eth_conf :=
  mkEthC 0 (mkRxmode 0 0 0 0) (mkTxmode 0 0 0 0 0 0) 0 (mkRssC 0 0 0) (mkIntrC 0 0 0).

(** ** Options of a device *)

(* go: ethdev/ethdev.go RxMode *)
Record RxMode := mkRxMode { rm_MqMode : Z; MTU : Z; SplitHdrSize : Z; rm_Offloads : Z }.
(* go: ethdev/ethdev.go TxMode *)
Record TxMode := mkTxMode {
  tm_MqMode : Z; tm_Offloads : Z; Pvid : Z; HwVlanRejectTagged : bool; HwVlanRejectUntagged : bool; HwVlanInsertPvid : bool
}.
(* go: ethdev/ethdev.go RssConf *)
Record RssConf := mkRssConf { Key : list Z; Hf : Z }.
(* go: ethdev/ethdev.go IntrConf *)
Record IntrConf := mkIntrConf { LSC : bool; RXQ : bool; RMV : bool }.

(** The structure being made, and the C blocks it points to. *)
(* go: ethdev/ethdev.go ethConf *)
Record ethConf := mkEthConf { conf : rte_eth_conf; cptrs : list Z }.

Section Device.
(** [C.CBytes]: where the copy goes; cgo ends the program when there is no
    memory. The DPDK release, before 22.11. *)
Variable malloc : cheap -> Z -> Z.
Variable has_split_hdr : bool.
Variable E : rte_numbers.

Definition CBytes (b : list Z) : M cheap Z :=
  let! p := gets (fun h => malloc h (Z.of_nat (length b))) in
  modify (fun h => <[p := b]> h) ;; ret p.
Definition c_free (p : Z) : M cheap unit :=
  if p =? 0 then ret tt
  else let! _ := (fun h : cheap => lift (h !! p) h) in modify (fun h => delete p h).

(** What an option does to the structure. *)
(* go: ethdev/ethdev.go Option *)
Definition Option : Type := ethConf -> M cheap ethConf.

Definition with_conf (f : rte_eth_conf -> rte_eth_conf) : Option := fun c => ret (mkEthConf (f (conf c)) (cptrs c)).

(* go: ethdev/ethdev.go OptLinkSpeeds *)
Definition OptLinkSpeeds (speeds : Z) : Option :=
  with_conf (fun c => mkEthC (u32 speeds) (rxmode c) (txmode c) (lpbk_mode c) (rss_conf c) (intr_conf c)).

(** [max_rx_pkt_len] or [mtu], by the version of DPDK. *)
(* go: ethdev/ethdev.go ethConf.setRxPktLen *)
Definition setRxPktLen (n : Z) (m : rte_eth_rxmode) : rte_eth_rxmode := mkRxmode (rx_mq_mode m) n (split_hdr_size m) (rx_offloads m).

(** [C.set_split_hdr_size_compat] does nothing from 22.11 on. *)
(* go: ethdev/ethdev.go 21-28 set_split_hdr_size_compat *)
Definition set_split_hdr_size_compat (m : rte_eth_rxmode) (v : Z) : rte_eth_rxmode :=
  if has_split_hdr then mkRxmode (rx_mq_mode m) (rx_len m) v (rx_offloads m) else m.
(* go: ethdev/ethdev.go OptRxMode *)
Definition OptRxMode (o : RxMode) : Option :=
  with_conf (fun c =>
    let m := mkRxmode (u32 (rm_MqMode o)) 0 0 (rm_Offloads o) in
    let m := if negb (SplitHdrSize o =? 0) then set_split_hdr_size_compat m (SplitHdrSize o) else m in
    mkEthC (link_speeds c) (setRxPktLen (MTU o) m) (txmode c) (lpbk_mode c) (rss_conf c) (intr_conf c)).

(** The C functions that set the bit fields. *)
(* go: ethdev/ethdev.go 41-43 set_tx_reject_tagged *)
Definition set_tx_reject_tagged (m : rte_eth_txmode) : rte_eth_txmode :=
  mkTxmode (tx_mq_mode m) (tx_offloads m) (pvid m) 1 (hw_vlan_reject_untagged m) (hw_vlan_insert_pvid m).
(* go: ethdev/ethdev.go 45-47 set_tx_reject_untagged *)
Definition set_tx_reject_untagged (m : rte_eth_txmode) : rte_eth_txmode :=
  mkTxmode (tx_mq_mode m) (tx_offloads m) (pvid m) (hw_vlan_reject_tagged m) 1 (hw_vlan_insert_pvid m).
(* go: ethdev/ethdev.go 49-51 set_tx_insert_pvid *)
Definition set_tx_insert_pvid (m : rte_eth_txmode) : rte_eth_txmode :=
  mkTxmode (tx_mq_mode m) (tx_offloads m) (pvid m) (hw_vlan_reject_tagged m) (hw_vlan_reject_untagged m) 1.

(* go: ethdev/ethdev.go OptTxMode *)
Definition OptTxMode (o : TxMode) : Option :=
  with_conf (fun c =>
    let m := mkTxmode (u32 (tm_MqMode o)) (tm_Offloads o) (Pvid o) 0 0 0 in
    let m := if HwVlanRejectTagged o then set_tx_reject_tagged m else m in
    let m := if HwVlanRejectUntagged o then set_tx_reject_untagged m else m in
    let m := if HwVlanInsertPvid o then set_tx_insert_pvid m else m in
    mkEthC (link_speeds c) (rxmode c) m (lpbk_mode c) (rss_conf c) (intr_conf c)).

(* go: ethdev/ethdev.go OptLoopbackMode *)
Definition OptLoopbackMode (mode : Z) : Option :=
  with_conf (fun c => mkEthC (link_speeds c) (rxmode c) (txmode c) mode (rss_conf c) (intr_conf c)).

(* go: ethdev/ethdev.go boolToInt *)
Definition boolToInt (flag : bool) : Z := if flag then 1 else 0.

(** The fields are one bit wide. *)
(* go: ethdev/ethdev.go 57-61 set_intr_conf_flag *)
Definition set_intr_conf_flag (flag : Z * Z * Z) : rte_eth_intr_conf :=
  let bit f := Z.land f 1 in let '(f0, f1, f2) := flag in mkIntrC (bit f0) (bit f1) (bit f2).
(* go: ethdev/ethdev.go OptIntrConf *)
Definition OptIntrConf (intr : IntrConf) : Option :=
  with_conf (fun c =>
    mkEthC (link_speeds c) (rxmode c) (txmode c) (lpbk_mode c) (rss_conf c)
      (set_intr_conf_flag (boolToInt (LSC intr), boolToInt (RXQ intr), boolToInt (RMV intr)))).

(** A [nil] key and an empty one are the same here. *)
(* go: ethdev/ethdev.go OptRss *)
Definition OptRss (o : RssConf) : Option := fun c =>
  let set p :=
    mkEthC (link_speeds (conf c)) (rxmode (conf c)) (txmode (conf c)) (lpbk_mode (conf c))
      (mkRssC p (u8 (Z.of_nat (length (Key o)))) (Hf o)) (intr_conf (conf c)) in
  if (0 <? length (Key o))%nat then
    let! p := CBytes (Key o) in ret (mkEthConf (set p) (cptrs c ++ [p]))
  else ret (mkEthConf (set (rss_key (rss_conf (conf c)))) (cptrs c)).

Fixpoint apply_opts (opts : list Option) (c : ethConf) : M cheap ethConf :=
  match opts with
  | [] => ret c
  | o :: opts => let! c := o c in apply_opts opts c
  end.

Fixpoint free_list (ps : list Z) : M cheap unit :=
  match ps with
  | [] => ret tt
  | p :: ps => c_free p ;; free_list ps
  end.
(* go: ethdev/ethdev.go ethConf.free *)
Definition ethConf_free (c : ethConf) : M cheap unit := free_list (cptrs c).

(** [errget(n)] of a C [int]. *)
(* go: ethdev/ethdev.go errget *)
Definition errget (n : Z) : option go_error := errno E n.

(* go: ethdev/ethdev.go Port.DevConfigure *)
Definition DevConfigure (rte_eth_dev_configure : Z -> Z -> Z -> rte_eth_conf -> cheap -> Z)
    (pid nrxq ntxq : Z) (opts : list Option) : M cheap (option go_error) :=
  let! ec := apply_opts opts (mkEthConf zero_conf []) in
  let! rc := gets (rte_eth_dev_configure pid nrxq ntxq (conf ec)) in
  ethConf_free ec ;;
  ret (errget rc).

(* go: ethdev/ethdev.go Port.RssHashUpdate *)
Definition RssHashUpdate (rte_eth_dev_rss_hash_update : Z -> rte_eth_rss_conf -> cheap -> Z) (pid : Z) (o : RssConf) :
    M cheap (option go_error) :=
  let rss p := mkRssC p (u8 (Z.of_nat (length (Key o)))) (Hf o) in
  if (0 <? length (Key o))%nat then
    let! p := CBytes (Key o) in
    let! rc := gets (rte_eth_dev_rss_hash_update pid (rss p)) in
    c_free p ;;
    ret (errget rc)
  else
    let! rc := gets (rte_eth_dev_rss_hash_update pid (rss 0)) in
    ret (errget rc).

(** ** Options of a queue *)

(* go: ethdev/ethdev.go Thresh *)
Record Thresh := mkThresh { PThresh : Z; HThresh : Z; WThresh : Z }.
(* go: ethdev/ethdev.go RxqConf *)
Record RxqConf := mkRxqConf { rq_Thresh : Thresh; rq_FreeThresh : Z; DropEn : Z; rq_DeferredStart : Z; rq_Offloads : Z }.
(* go: ethdev/ethdev.go TxqConf *)
Record TxqConf := mkTxqConf { tq_Thresh : Thresh; RsThresh : Z; tq_FreeThresh : Z; tq_DeferredStart : Z; tq_Offloads : Z }.

(** The C structures of a queue, thresholds first. *)
Record rte_eth_rxconf := mkRxC { rx_thresh : Z * Z * Z; rx_free_thresh : Z; rx_drop_en : Z; rx_deferred_start : Z; rxc_offloads : Z }.
Record rte_eth_txconf := mkTxC { tx_thresh : Z * Z * Z; tx_rs_thresh : Z; tx_free_thresh : Z; tx_deferred_start : Z; txc_offloads : Z }.

(* go: ethdev/ethdev.go qConf *)
Record qConf := mkQConf { socket : Z; rx_ : rte_eth_rxconf; tx_ : rte_eth_txconf }.

(* go: ethdev/ethdev.go Thresh.cThresh *)
Definition cThresh (t : Thresh) : Z * Z * Z := (PThresh t, HThresh t, WThresh t).

(* go: ethdev/ethdev.go QueueOption *)
Definition QueueOption : Type := qConf -> qConf.
(* go: ethdev/ethdev.go OptRxqConf *)
Definition OptRxqConf (o : RxqConf) : QueueOption := fun q =>
  mkQConf (socket q) (mkRxC (cThresh (rq_Thresh o)) (rq_FreeThresh o) (DropEn o) (rq_DeferredStart o) (rq_Offloads o)) (tx_ q).
(* go: ethdev/ethdev.go OptTxqConf *)
Definition OptTxqConf (o : TxqConf) : QueueOption := fun q =>
  mkQConf (socket q) (rx_ q) (mkTxC (cThresh (tq_Thresh o)) (RsThresh o) (tq_FreeThresh o) (tq_DeferredStart o) (tq_Offloads o)).
(* go: ethdev/ethdev.go OptSocket *)
Definition OptSocket (s : Z) : QueueOption := fun q => mkQConf (i32 s) (rx_ q) (tx_ q).

Definition SOCKET_ID_ANY : Z := -1.
Definition new_qConf : qConf := mkQConf SOCKET_ID_ANY (mkRxC (0, 0, 0) 0 0 0 0) (mkTxC (0, 0, 0) 0 0 0 0).

(* go: ethdev/ethdev.go Port.RxqSetup *)
Definition RxqSetup (rte_eth_rx_queue_setup : Z -> Z -> Z -> Z -> rte_eth_rxconf -> Z -> Z)
    (pid qid nDesc mp : Z) (opts : list QueueOption) : option go_error :=
  let q := foldl (fun q o => o q) new_qConf opts in
  errget (rte_eth_rx_queue_setup pid qid nDesc (u32 (socket q)) (rx_ q) mp).
(* go: ethdev/ethdev.go Port.TxqSetup *)
Definition TxqSetup (rte_eth_tx_queue_setup : Z -> Z -> Z -> Z -> rte_eth_txconf -> Z)
    (pid qid nDesc : Z) (opts : list QueueOption) : option go_error :=
  let q := foldl (fun q o => o q) new_qConf opts in
  errget (rte_eth_tx_queue_setup pid qid nDesc (u32 (socket q)) (tx_ q)).

(** ** Hairpin queues *)

(** [rte_eth_{rx,tx}_hairpin_queue_setup(port, queue, nb_desc, conf)] with one
    peer. *)
Inductive hairpin_call := RxHairpin (pi qi nb_rxd peer_port peer_queue : Z) | TxHairpin (pi qi nb_txd peer_port peer_queue : Z).

Variable hairpin_rc : hairpin_call -> Z.

(** One loop of [setup_hairpin_queues]: from the queue [qi] and the index [i], while
    [qi < nb_hpq + first]; [qi] is a [uint16_t] and wraps. [None] is a loop that
    is not over. *)
Fixpoint hairpin_loop (fuel : nat) (mk : Z -> Z -> hairpin_call) (bound other qi i : Z) : option (list hairpin_call * bool) :=
  match fuel with
  | O => None
  | S fuel =>
      if qi <? bound then
        let c := mk qi (u16 (i + other)) in
        if hairpin_rc c =? 0 then
          match hairpin_loop fuel mk bound other (u16 (qi + 1)) (i + 1) with
          | None => None
          | Some (l, ok) => Some (c :: l, ok)
          end
        else Some ([c], false)
      else Some ([], true)
  end.

(** The calls made, and the code. *)
(* go: ethdev/ethdev.go 112-144 setup_hairpin_queues *)
Definition setup_hairpin_queues (fuel : nat) (pi nb_rxq nb_txq nb_hpq nb_rxd nb_txd : Z) : option (list hairpin_call * Z) :=
  match hairpin_loop fuel (fun qi peer => RxHairpin pi qi nb_rxd pi peer) (nb_hpq + nb_rxq) nb_txq nb_rxq 0 with
  | None => None
  | Some (l, false) => Some (l, -1)
  | Some (l, true) =>
      match hairpin_loop fuel (fun qi peer => TxHairpin pi qi nb_txd pi peer) (nb_hpq + nb_txq) nb_rxq nb_txq 0 with
      | None => None
      | Some (l', ok) => Some (l ++ l', if ok then 0 else -1)
      end
  end.

(* go: ethdev/ethdev.go Port.HairpinQueueSetup *)
Definition HairpinQueueSetup (fuel : nat) (pid nrxq ntxq nhpq nrxd ntxd : Z) : option (list hairpin_call * option go_error) :=
  match setup_hairpin_queues fuel pid nrxq ntxq nhpq nrxd ntxd with
  | None => None
  | Some (l, rc) => Some (l, errget rc)
  end.

(** ** Ports *)

(** [RTE_ETH_FOREACH_DEV] as the list of its ports. *)
(* go: ethdev/ethdev.go 69-81 go_rte_get_ethdev_ports *)
Fixpoint go_rte_get_ethdev_ports (devs : list Z) (n_ports : nat) : list Z :=
  match devs, n_ports with
  | [], _ | _, O => []
  | pid :: devs, S n => pid :: go_rte_get_ethdev_ports devs n
  end.

(** [None] is a nil slice. *)
(* go: ethdev/ethdev.go ValidPorts *)
Definition ValidPorts (devs : list Z) (avail : nat) : option (list Z) :=
  if (avail =? 0)%nat then None else Some (go_rte_get_ethdev_ports devs avail).

(** [rte_eth_link], with the fields of [go_rte_eth_link]. *)
(* go: ethdev/ethdev.go EthLink *)
Record EthLink := mkEthLink { link_speed : Z; link_duplex : Z; link_autoneg : Z; link_status : Z }.
(* go: ethdev/ethdev.go EthLink.Duplex *)
Definition Duplex (link : EthLink) : bool := 0 <? link_duplex link.
(* go: ethdev/ethdev.go EthLink.AutoNeg *)
Definition AutoNeg (link : EthLink) : bool := 0 <? link_autoneg link.
(* go: ethdev/ethdev.go EthLink.Status *)
Definition Status (link : EthLink) : bool := 0 <? link_status link.
(* go: ethdev/ethdev.go EthLink.Speed *)
Definition Speed (link : EthLink) : Z := link_speed link.

(** Calls of one argument, with the error of their code. *)
(* go: ethdev/ethdev.go Port.Reset *)
Definition Reset (rte_eth_dev_reset : Z -> Z) (pid : Z) : option go_error := errget (rte_eth_dev_reset pid).
(* go: ethdev/ethdev.go Port.Start *)
Definition Start (rte_eth_dev_start : Z -> Z) (pid : Z) : option go_error := errget (rte_eth_dev_start pid).
(** The return code is dropped. *)
(* go: ethdev/ethdev.go Port.Stop *)
Definition Stop {S} (rte_eth_dev_stop : Z -> S -> Z * S) (pid : Z) : M S unit := modify (fun s => snd (rte_eth_dev_stop pid s)).
(* go: ethdev/ethdev.go Port.Close *)
Definition Close {S} (rte_eth_dev_close : Z -> S -> Z * S) (pid : Z) : M S unit := modify (fun s => snd (rte_eth_dev_close pid s)).
(* go: ethdev/ethdev.go Port.PromiscEnable *)
Definition PromiscEnable (rte_eth_promiscuous_enable : Z -> Z) (pid : Z) : option go_error := errget (rte_eth_promiscuous_enable pid).
(* go: ethdev/ethdev.go Port.PromiscDisable *)
Definition PromiscDisable (rte_eth_promiscuous_disable : Z -> Z) (pid : Z) : option go_error := errget (rte_eth_promiscuous_disable pid).
(* go: ethdev/ethdev.go Port.SetMTU *)
Definition SetMTU (rte_eth_dev_set_mtu : Z -> Z -> Z) (pid mtu : Z) : option go_error := errget (rte_eth_dev_set_mtu pid mtu).
(* go: ethdev/ethdev.go Port.SetLinkUp *)
Definition SetLinkUp (rte_eth_dev_set_link_up : Z -> Z) (pid : Z) : option go_error := errget (rte_eth_dev_set_link_up pid).
(* go: ethdev/ethdev.go Port.SetLinkDown *)
Definition SetLinkDown (rte_eth_dev_set_link_down : Z -> Z) (pid : Z) : option go_error := errget (rte_eth_dev_set_link_down pid).
(* go: ethdev/ethdev.go Port.IsValid *)
Definition IsValid (rte_eth_dev_is_valid_port : Z -> Z) (pid : Z) : bool := negb (rte_eth_dev_is_valid_port pid =? 0).

(** ** Meters *)

(* go: ethdev/mtr.go MtrStats *)
Record MtrStats := mkMtrStats { Pkts : Z; Bytes_ : Z; DropPkts : Z; DropBytes : Z }.
(** [rte_mtr_stats]: packets and bytes per colour, green first. *)
Record rte_mtr_stats := mkRteMtr { n_pkts : Z * Z * Z; n_bytes : Z * Z * Z; n_pkts_dropped : Z; n_bytes_dropped : Z }.

(** The statistics after the call: those given, when the read fails. *)
(* go: ethdev/mtr.go 21-38 query_mtr_stats *)
Definition query_mtr_stats (rte_mtr_stats_read : Z -> Z -> Z * rte_mtr_stats) (port mtr_id : Z) (stats : MtrStats) : Z * MtrStats :=
  let '(ret, s) := rte_mtr_stats_read port mtr_id in
  if negb (ret =? 0) then (ret, stats)
  else (ret, mkMtrStats (u64 (fst (fst (n_pkts s)) + snd (fst (n_pkts s))))
               (u64 (fst (fst (n_bytes s)) + snd (fst (n_bytes s)))) (n_pkts_dropped s) (n_bytes_dropped s)).
(* go: ethdev/mtr.go QueryMtrStats *)
Definition QueryMtrStats (rte_mtr_stats_read : Z -> Z -> Z * rte_mtr_stats) (port mtrID : Z) (stats : MtrStats) :
    option go_error * MtrStats :=
  let '(rc, s) := query_mtr_stats rte_mtr_stats_read port mtrID stats in (errno E rc, s).
End Device.
