(* ===== verification/EthdevSpec.v ===== *)
(** * Ethernet devices: theorems

    The configuration DPDK gets is the one of the last option of each kind, and
    the copies of the keys are freed; hairpin queues are bound in pairs, in a loop
    that ends when the queue numbers fit. *)

From Stdlib Require Import ZArith Lia.
From stdpp Require Import base list numbers option gmap.
From S2P Require Import Prelude Errno Framework Ethdev.

Open Scope Z_scope.
Open Scope go_scope.

(** ** Options

    The options as data, and what a list of them asks for. *)
Inductive opt :=
| LinkSpeeds (speeds : Z) | Rx (m : RxMode) | Tx (m : TxMode) | Loopback (mode : Z) | Intr (i : IntrConf) | Rss (r : RssConf).

Section Options.
Context (malloc : cheap -> Z -> Z) (Hm : forall h n, malloc h n <> 0 /\ h !! malloc h n = None) (split : bool).
Implicit Types h : cheap.

Definition option_of (o : opt) : Ethdev.Option :=
  match o with
  | LinkSpeeds s => OptLinkSpeeds s
  | Rx m => OptRxMode split m
  | Tx m => OptTxMode m
  | Loopback n => OptLoopbackMode n
  | Intr i => OptIntrConf i
  | Rss r => OptRss malloc r
  end.

(** The value the last option that has one gives. *)
Definition the {A} (f : opt -> option A) (d : A) (opts : list opt) : A := default d (last (omap f opts)).

Definition speeds_of (o : opt) : option Z := match o with LinkSpeeds s => Some (u32 s) | _ => None end.
Definition rx_of (o : opt) : option rte_eth_rxmode :=
  match o with
  | Rx m => Some (mkRxmode (u32 (rm_MqMode m)) (MTU m) (if split then SplitHdrSize m else 0) (rm_Offloads m))
  | _ => None
  end.
Definition tx_of (o : opt) : option rte_eth_txmode :=
  match o with
  | Tx m => Some (mkTxmode (u32 (tm_MqMode m)) (tm_Offloads m) (Pvid m) (Z.b2z (HwVlanRejectTagged m))
                    (Z.b2z (HwVlanRejectUntagged m)) (Z.b2z (HwVlanInsertPvid m)))
  | _ => None
  end.
Definition loopback_of (o : opt) : option Z := match o with Loopback n => Some n | _ => None end.
Definition intr_of (o : opt) : option rte_eth_intr_conf :=
  match o with Intr i => Some (mkIntrC (Z.b2z (LSC i)) (Z.b2z (RXQ i)) (Z.b2z (RMV i))) | _ => None end.
Definition rss_of (o : opt) : option RssConf := match o with Rss r => Some r | _ => None end.
(** A key that is copied. *)
Definition key_of (o : opt) : option (list Z) :=
  match o with Rss (mkRssConf (b :: k) _) => Some (b :: k) | _ => None end.

(** The configuration, but for the address of the key. *)
Definition conf_of (opts : list opt) (p : Z) : rte_eth_conf :=
  mkEthC (the speeds_of 0 opts) (the rx_of (mkRxmode 0 0 0 0) opts) (the tx_of (mkTxmode 0 0 0 0 0 0) opts)
    (the loopback_of 0 opts)
    (mkRssC p (u8 (Z.of_nat (length (Key (the rss_of (mkRssConf [] 0) opts))))) (Hf (the rss_of (mkRssConf [] 0) opts)))
    (the intr_of (mkIntrC 0 0 0) opts).

(** The blocks [ps] are what the heap [h'] has more than [h]. *)
Record grown (h h' : cheap) (ps : list Z) : Prop := {
  gr_nodup : NoDup ps;
  gr_new q : q ∈ ps -> q <> 0 /\ h !! q = None /\ is_Some (h' !! q);
  gr_old q : q ∉ ps -> h' !! q = h !! q
}.

Lemma free_list_grown h ps : forall h', grown h h' ps -> free_list ps h' = Some (tt, h).
Proof.
  induction ps as [|p ps IH]; intros h' G; simpl.
  - unfold ret. do 2 f_equal. apply map_eq. intros q. apply (gr_old _ _ _ G). set_solver.
  - destruct (gr_new _ _ _ G p) as (H0 & Hn & x & Hx); [set_solver|].
    pose proof (gr_nodup _ _ _ G) as Nd. apply NoDup_cons in Nd as [Np Nd].
    unfold bind at 1. unfold c_free. rewrite (proj2 (Z.eqb_neq p 0) H0). unfold bind, lift, modify. rewrite Hx.
    apply IH. split; [done| |].
    + intros q Hq. destruct (gr_new _ _ _ G q) as (A & B & D); [set_solver|]. split; [done|]. split; [done|].
      rewrite lookup_delete_ne by (intros ->; done). done.
    + intros q Hq. rewrite lookup_delete. case_decide as Hqp; [by subst|].
      apply (gr_old _ _ _ G). set_solver.
Qed.

Lemma grown_snoc h h' ps k : grown h h' ps ->
  let p := malloc h' (Z.of_nat (length k)) in grown h (<[p := k]> h') (ps ++ [p]).
Proof.
  intros G p. destruct (Hm h' (Z.of_nat (length k))) as [H0 Hn]. fold p in H0, Hn.
  assert (Np : p ∉ ps). { intros Hp. destruct (gr_new _ _ _ G p Hp) as (_ & _ & x & Hx). congruence. }
  split.
  - apply NoDup_app. split; [apply (gr_nodup _ _ _ G)|]. split; [set_solver|apply NoDup_singleton].
  - intros q Hq. destruct (decide (q = p)) as [->|Ne].
    + split; [done|]. split; [by rewrite <- (gr_old _ _ _ G)|]. rewrite lookup_insert_eq. eauto.
    + destruct (gr_new _ _ _ G q) as (A & B & D); [set_solver|]. by rewrite lookup_insert_ne.
  - intros q Hq. rewrite lookup_insert_ne by set_solver. apply (gr_old _ _ _ G). set_solver.
Qed.

Lemma the_snoc {A} (f : opt -> option A) d opts o : the f d (opts ++ [o]) = default (the f d opts) (f o).
Proof.
  unfold the. rewrite omap_app. simpl. destruct (f o) as [a|]; simpl; [by rewrite last_snoc|by rewrite app_nil_r].
Qed.

Lemma split_hdr x mq n off : let m := mkRxmode mq 0 0 off in
  setRxPktLen n (if negb (x =? 0) then set_split_hdr_size_compat split m x else m) = mkRxmode mq n (if split then x else 0) off.
Proof. unfold set_split_hdr_size_compat. destruct (Z.eqb_spec x 0) as [->|], split; done. Qed.

Lemma apply_opts_snoc l o c h : apply_opts (l ++ [o]) c h = bind (apply_opts l c) o h.
Proof.
  revert c h. induction l as [|o' l IH]; intros c h; simpl.
  - unfold bind, ret. by destruct (o c h) as [[]|].
  - unfold bind at 1 2. unfold bind at 1. destruct (o' c h) as [[c' h']|]; [|done]. apply IH.
Qed.

(** After the options: the structure, and the key it points to. *)
Lemma apply_opts_spec opts h : exists ps h' p,
  apply_opts (map option_of opts) (mkEthConf zero_conf []) h = Some (mkEthConf (conf_of opts p) ps, h') /\
  grown h h' ps /\
  match last (omap key_of opts) with Some k => p ∈ ps /\ h' !! p = Some k | None => p = 0 end.
Proof.
  induction opts as [|o opts IH] using rev_ind.
  - exists [], h, 0. split; [done|]. split; [|done]. split; [apply NoDup_nil_2|set_solver|done].
  - destruct IH as (ps & h' & p & E & G & K). rewrite map_app. cbn [map].
    rewrite apply_opts_snoc. unfold bind. rewrite E.
    assert (Plain : key_of o = None -> (forall p, option_of o (mkEthConf (conf_of opts p) ps) h' =
        Some (mkEthConf (conf_of (opts ++ [o]) p) ps, h')) ->
      exists ps0 h'0 p0, option_of o (mkEthConf (conf_of opts p) ps) h' = Some (mkEthConf (conf_of (opts ++ [o]) p0) ps0, h'0) /\
        grown h h'0 ps0 /\
        match last (omap key_of (opts ++ [o])) with Some k => p0 ∈ ps0 /\ h'0 !! p0 = Some k | None => p0 = 0 end).
    { intros N Ho. exists ps, h', p. split; [apply Ho|]. split; [done|]. rewrite omap_app. simpl. by rewrite N, app_nil_r. }
    destruct o as [s|m|m|n|i|[[|b k] f]].
    1-6: apply Plain; [done|]; intros p'; unfold conf_of; rewrite !the_snoc; simpl; try reflexivity.
    + unfold OptRxMode, with_conf. simpl conf. by rewrite split_hdr.
    + by destruct m as [? ? ? [] [] []].
    + by destruct i as [[] [] []].
    + exists (ps ++ [malloc h' (Z.of_nat (length (b :: k)))]), (<[malloc h' (Z.of_nat (length (b :: k))) := b :: k]> h'),
        (malloc h' (Z.of_nat (length (b :: k)))).
      split; [|split; [by apply grown_snoc|]].
      * unfold conf_of. rewrite !the_snoc. done.
      * rewrite omap_app. simpl. rewrite last_snoc. split; [set_solver|by rewrite lookup_insert_eq].
Qed.
End Options.

(** C18. [DevConfigure] gives DPDK the structure its options ask for: each field is
    the one of the last option that sets it, the rest is zero; the key pointer is
    a block with the last key that was not empty, NULL without one, while its
    length is that of the last [OptRss] in a byte. The error is that of the code,
    and all copies of keys are freed, once each. *)
Theorem DevConfigure_spec malloc split E configure pid nrxq ntxq opts (h : cheap)
    (Hm : forall h n, malloc h n <> 0 /\ h !! malloc h n = None) :
  exists h' p,
    DevConfigure E configure pid nrxq ntxq (map (option_of malloc split) opts) h =
      Some (errno E (configure pid nrxq ntxq (conf_of split opts p) h'), h) /\
    match last (omap key_of opts) with Some k => p <> 0 /\ h' !! p = Some k | None => p = 0 end.
Proof.
  destruct (apply_opts_spec malloc Hm split opts h) as (ps & h' & p & A & G & K). exists h', p. split.
  - unfold DevConfigure, bind at 1. rewrite A. unfold bind, gets, ethConf_free. simpl.
    by rewrite (free_list_grown malloc Hm h ps h' G).
  - destruct (last (omap key_of opts)) as [k|]; [|done]. destruct K as [Hp K]. split; [|done].
    by apply (gr_new _ _ _ G p).
Qed.

(** ** Hairpin queues *)

Section Hairpin.
Context (rc : hairpin_call -> Z).

(** The calls up to the first that fails, and whether none does. *)
Fixpoint attempt_calls (l : list hairpin_call) : list hairpin_call * bool :=
  match l with
  | [] => ([], true)
  | c :: l => if rc c =? 0 then let '(made, ok) := attempt_calls l in (c :: made, ok) else ([c], false)
  end.

Lemma attempt_calls_spec l : exists rest, l = fst (attempt_calls l) ++ rest /\
  (snd (attempt_calls l) = true -> rest = [] /\ forall c, c ∈ l -> rc c = 0) /\
  (snd (attempt_calls l) = false -> exists pre c, fst (attempt_calls l) = pre ++ [c] /\ rc c <> 0 /\ forall c', c' ∈ pre -> rc c' = 0).
Proof.
  induction l as [|c l (rest & E & T & F)]; simpl; [exists []; split; [done|]; split; [by split; [|set_solver]|done]|].
  destruct (Z.eqb_spec (rc c) 0) as [Hc|Hc].
  - destruct (attempt_calls l) as [made ok]. simpl in *. exists rest. split; [by rewrite E|]. split.
    + intros Ho. destruct (T Ho) as [-> Hl]. split; [done|]. intros c' Hc'. set_unfold. destruct Hc' as [->|]; auto.
    + intros Ho. destruct (F Ho) as (pre & c' & -> & Hf & Hp). exists (c :: pre), c'. split; [done|]. split; [done|].
      intros c0 H0. set_unfold. destruct H0 as [->|]; auto.
  - exists l. split; [done|]. split; [done|]. intros _. exists [], c. split; [done|]. split; [done|set_solver].
Qed.

Lemma attempt_calls_app l l' : attempt_calls (l ++ l') =
  (if snd (attempt_calls l) then (fst (attempt_calls l) ++ fst (attempt_calls l'), snd (attempt_calls l')) else attempt_calls l).
Proof.
  induction l as [|c l IH]; simpl; [by destruct (attempt_calls l')|]. destruct (rc c =? 0); [|done].
  rewrite IH. destruct (attempt_calls l) as [made []]; simpl; [|done]. done.
Qed.

(** The calls of a loop: the [i]-th hairpin queue has the [i]-th one of the other
    side as its peer. *)
Definition pairs (mk : Z -> Z -> hairpin_call) (first other : Z) (i n : nat) : list hairpin_call :=
  map (fun i => mk (first + Z.of_nat i) (other + Z.of_nat i)) (seq i n).

Lemma hairpin_loop_spec mk first other n : forall fuel i,
  0 <= first -> 0 <= other -> first + Z.of_nat (i + n) < 65536 -> other + Z.of_nat (i + n) < 65536 -> (n < fuel)%nat ->
  hairpin_loop rc fuel mk (Z.of_nat (i + n) + first) other (first + Z.of_nat i) (Z.of_nat i) =
    Some (attempt_calls (pairs mk first other i n)).
Proof.
  induction n as [|n IH]; intros fuel i Hf Ho B1 B2 Hfu; (destruct fuel as [|fuel]; [lia|]); cbn [hairpin_loop].
  - rewrite (proj2 (Z.ltb_ge _ _)) by lia. done.
  - rewrite (proj2 (Z.ltb_lt _ _)) by lia. unfold pairs. cbn [seq map attempt_calls].
    rewrite (u16_small (Z.of_nat i + other)) by lia. rewrite (Z.add_comm (Z.of_nat i) other).
    destruct (rc _ =? 0); [|done]. rewrite u16_small by lia.
    replace (first + Z.of_nat i + 1) with (first + Z.of_nat (S i)) by lia.
    replace (Z.of_nat i + 1) with (Z.of_nat (S i)) by lia. rewrite <- Nat.add_succ_comm.
    rewrite IH by lia. unfold pairs. by destruct (attempt_calls _).
Qed.

Lemma hairpin_loop_diverges mk bound other fuel : 65536 <= bound -> (forall qi peer, rc (mk qi peer) = 0) ->
  forall qi i, 0 <= qi < 65536 -> hairpin_loop rc fuel mk bound other qi i = None.
Proof.
  intros Hb Hr. induction fuel as [|fuel IH]; intros qi i Hq; [done|]. cbn [hairpin_loop].
  rewrite (proj2 (Z.ltb_lt _ _)) by lia. rewrite Hr. cbn [Z.eqb]. by rewrite IH by apply u16_range.
Qed.
End Hairpin.

(** All the calls: receive queues first, each bound to the transmit queue that is
    bound to it. *)
Definition hairpin_calls (pi nrxq ntxq nrxd ntxd : Z) (n : nat) : list hairpin_call :=
  pairs (fun qi peer => RxHairpin pi qi nrxd pi peer) nrxq ntxq 0 n ++
  pairs (fun qi peer => TxHairpin pi qi ntxd pi peer) ntxq nrxq 0 n.

(** When the queue numbers fit in 16 bits, [HairpinQueueSetup] binds the [i]-th
    hairpin receive queue and the [i]-th hairpin transmit queue to each other, in
    order, up to the first call that fails: it returns nil exactly when none did,
    and the error of [-1] otherwise. When they do not fit and no call fails, the
    16-bit queue number wraps below the bound for ever and it never returns. *)
Theorem HairpinQueueSetup_spec E rc pid nrxq ntxq nrxd ntxd n fuel
    (R : 0 <= nrxq < 65536) (T : 0 <= ntxq < 65536) :
  (nrxq + Z.of_nat n < 65536 -> ntxq + Z.of_nat n < 65536 -> (n < fuel)%nat ->
   exists made err rest, HairpinQueueSetup E rc fuel pid nrxq ntxq (Z.of_nat n) nrxd ntxd = Some (made, err) /\
     hairpin_calls pid nrxq ntxq nrxd ntxd n = made ++ rest /\
     ((rest = [] /\ err = None /\ forall c, c ∈ made -> rc c = 0) \/
      (err = errno E (-1) /\ exists pre c, made = pre ++ [c] /\ rc c <> 0 /\ forall c', c' ∈ pre -> rc c' = 0))) /\
  (65536 <= nrxq + Z.of_nat n -> (forall c, rc c = 0) ->
   HairpinQueueSetup E rc fuel pid nrxq ntxq (Z.of_nat n) nrxd ntxd = None).
Proof.
  split.
  - intros B1 B2 Hfu. set (all := hairpin_calls pid nrxq ntxq nrxd ntxd n).
    assert (S : HairpinQueueSetup E rc fuel pid nrxq ntxq (Z.of_nat n) nrxd ntxd =
        Some (fst (attempt_calls rc all), errget E (if snd (attempt_calls rc all) then 0 else -1))).
    { unfold HairpinQueueSetup, setup_hairpin_queues.
      pose proof (hairpin_loop_spec rc (fun qi peer => RxHairpin pid qi nrxd pid peer) nrxq ntxq n fuel 0) as L1.
      pose proof (hairpin_loop_spec rc (fun qi peer => TxHairpin pid qi ntxd pid peer) ntxq nrxq n fuel 0) as L2.
      cbn [Nat.add] in L1, L2. change (Z.of_nat 0) with 0 in L1, L2. rewrite !Z.add_0_r in L1, L2. rewrite L1 by lia.
      unfold all, hairpin_calls. rewrite attempt_calls_app.
      destruct (attempt_calls rc (pairs (fun qi peer => RxHairpin pid qi nrxd pid peer) nrxq ntxq 0 n)) as [l1 []];
        cbn [fst snd]; [|done]. rewrite L2 by lia. by destruct (attempt_calls rc (pairs _ ntxq _ 0 n)) as [l2 []]. }
    rewrite S. destruct (attempt_calls_spec rc all) as (rest & Ea & HT & HF). exists (fst (attempt_calls rc all)), (errget E (if snd (attempt_calls rc all) then 0 else -1)), rest.
    split; [done|]. split; [done|]. destruct (snd (attempt_calls rc all)).
    + left. destruct HT as [-> Hc]; [done|]. split; [done|]. split; [done|]. intros c Hc'. apply Hc. rewrite Ea. set_solver.
    + right. split; [done|]. by apply HF.
  - intros B Hr. unfold HairpinQueueSetup, setup_hairpin_queues.
    by rewrite (hairpin_loop_diverges rc _ (Z.of_nat n + nrxq)) by (lia || done).
Qed.

(** ** Ports *)

(** The C loop and the count: the first [avail] ports, all of them when the count
    is right. *)
Lemma ValidPorts_take devs avail : (0 < avail)%nat -> ValidPorts devs avail = Some (take avail devs).
Proof.
  intros H. unfold ValidPorts. rewrite (proj2 (Nat.eqb_neq avail 0)) by lia. f_equal. clear H.
  revert avail. induction devs as [|d devs IH]; intros [|n]; simpl; [done..|]. by rewrite IH.
Qed.

Definition sample_numbers := mkRteNumbers 1002 1001 1003 1000.

Lemma DevConfigure_spec_witness :
  let opts := [Rss (mkRssConf [1; 2] 4); Loopback 1; Rx (mkRxMode 1 1500 0 0); Rss (mkRssConf [5] 8); Loopback 2] in
  exists (h' : cheap) p, DevConfigure sample_numbers (fun _ _ _ c h => if decide (h !! rss_key (rss_conf c) = Some [5]) then lpbk_mode c else 0)
      0 4 4 (map (option_of first_free true) opts) ∅ = Some (Some (Errno 2), ∅) /\ p <> 0 /\ h' !! p = Some [5].
Proof.
  intros opts.
  destruct (DevConfigure_spec first_free true sample_numbers
    (fun _ _ _ c h => if decide (h !! rss_key (rss_conf c) = Some [5]) then lpbk_mode c else 0) 0 4 4 opts ∅) as (h' & p & _ & K).
  { intros h n. destruct (first_free_ok h n). split; [lia|done]. }
  exists h', p. split; [vm_compute; reflexivity|exact K].
Defined.

Lemma HairpinQueueSetup_spec_witness :
  HairpinQueueSetup sample_numbers (fun _ => 0) 3 7 4 2 2 512 256 =
    Some ([RxHairpin 7 4 512 7 2; RxHairpin 7 5 512 7 3; TxHairpin 7 2 256 7 4; TxHairpin 7 3 256 7 5], None) /\
  HairpinQueueSetup sample_numbers (fun _ => 0) 99 7 65535 2 2 512 256 = None.
Proof.
  split.
  - destruct (HairpinQueueSetup_spec sample_numbers (fun _ => 0) 7 4 2 512 256 2 3) as [H _]; [lia|lia|].
    destruct H as (made & err & rest & S & A & [(-> & -> & _)|(_ & pre & c & _ & N & _)]); [lia|lia|lia| |done].
    change (Z.of_nat 2) with 2 in S. rewrite S. rewrite app_nil_r in A. rewrite <- A. reflexivity.
  - apply (HairpinQueueSetup_spec sample_numbers (fun _ => 0) 7 65535 2 512 256 2 99); [lia|lia|simpl; lia|done].
Defined.
