(* ===== verification/Lpm.v ===== *)
(** * Longest prefix match tables

    [src/lpm/]: addresses and networks of package [net] as the arguments of
    [librte_lpm], whose tables are a class here. An address or a mask is the list
    of its bytes, [[]] being nil; a panic is [None]. *)

From Stdlib Require Import ZArith Lia.
From stdpp Require Import base list numbers option sets.
From S2P Require Import Prelude Errno.

Open Scope Z_scope.
Open Scope go_scope.

(** ** Package net *)

Definition v4InV6Prefix : list Z := replicate 10 0 ++ [255; 255].

(** [IP.To4] and [IP.To16]; [[]] is nil. *)
Definition To4 (ip : list Z) : list Z :=
  if (length ip =? 4)%nat then ip
  else if (length ip =? 16)%nat && bool_decide (take 12 ip = v4InV6Prefix) then drop 12 ip else [].
Definition To16 (ip : list Z) : list Z :=
  if (length ip =? 4)%nat then v4InV6Prefix ++ ip else if (length ip =? 16)%nat then ip else [].

(** [IP.Mask] *)
Definition IP_Mask (ip mask : list Z) : list Z :=
  let mask :=
    if (length mask =? 16)%nat && (length ip =? 4)%nat && bool_decide (take 12 mask = replicate 12 255)
    then drop 12 mask else mask in
  let ip :=
    if (length mask =? 4)%nat && (length ip =? 16)%nat && bool_decide (take 12 ip = v4InV6Prefix) then drop 12 ip else ip in
  if (length ip =? length mask)%nat then zip_with Z.land ip mask else [].

(** The ones at the top of a byte, and what follows them: [simpleMaskLength]'s
    inner loop, on eight bits. *)
Fixpoint top_ones (fuel : nat) (n v : Z) : Z * Z :=
  match fuel with
  | O => (n, v)
  | S k => if Z.land v 128 =? 0 then (n, v) else top_ones k (n + 1) (u8 (Z.shiftl v 1))
  end.
Fixpoint simpleMaskLength (mask : list Z) (n : Z) : Z :=
  match mask with
  | [] => n
  | v :: rest =>
      if v =? 255 then simpleMaskLength rest (n + 8)
      else
        let '(n, v) := top_ones 8 n v in
        if negb (v =? 0) then -1 else if forallb (fun b => b =? 0) rest then n else -1
  end.
(** [IPMask.Size]: the ones, zero for a mask that is no prefix. *)
Definition IPMask_Size (mask : list Z) : Z :=
  let ones := simpleMaskLength mask 0 in if ones =? -1 then 0 else ones.

(** [net.CIDRMask(ones, 8 * n)] *)
Fixpoint CIDRMask (ones : Z) (n : nat) : list Z :=
  match n with
  | O => []
  | S n =>
      if 8 <=? ones then 255 :: CIDRMask (ones - 8) n
      else u8 (Z.lnot (Z.shiftr 255 ones)) :: CIDRMask 0 n
  end.

(** ** Conversions *)

(* go: lpm/common.go cvtIPv4 *)
Definition cvtIPv4 (addr : list Z) : option Z :=
  match To4 addr with
  | [] => None
  | addr => Some (be_val (take 4 addr))
  end.

(* go: lpm/common.go cvtIPv4Net *)
Definition cvtIPv4Net (IP Mask : list Z) : option (Z * Z) :=
  let addr := IP_Mask IP Mask in
  let ones := IPMask_Size Mask in
  match cvtIPv4 addr with
  | None => None
  | Some ip => Some (ip, u8 ones)
  end.

(** The array of 16 bytes starts with zeros. *)
(* go: lpm/common.go cvtIPv6Net *)
Definition cvtIPv6Net (IP Mask : list Z) : option (list Z * Z) :=
  let addr := IP_Mask IP Mask in
  let ones := IPMask_Size Mask in
  if (length addr <=? 4)%nat then None
  else
    let a := take 16 (To16 addr) in
    Some (a ++ replicate (16 - length a) 0, u8 ones).

(** ** Tables *)

(** A table of [librte_lpm] or [librte_lpm6]: keys are 32-bit numbers there and 16
    bytes here. The code of a call, what it stores where it was asked to, and
    the table behind it. *)
Class RteLpm (K T : Type) := {
  rte_lpm_add (ip : K) (depth next_hop : Z) : T -> Z * T;
  rte_lpm_delete (ip : K) (depth : Z) : T -> Z * T;
  rte_lpm_lookup (ip : K) : T -> Z * option Z;
  rte_lpm_is_rule_present (ip : K) (depth : Z) : T -> Z * option Z;
  rte_lpm_delete_all : T -> T
}.

Section Tables.
Variable E : rte_numbers.

(** [0] is NULL. *)
Definition pointer_or_errno (r : Z * Z) : Z * option go_error :=
  if negb (fst r =? 0) then (fst r, None) else (0, RteErrno E (snd r)).
(** The error of a code, for a call that changes the table. *)
Definition int_to_err {T} (f : T -> Z * T) : M T (option go_error) := fun s => let '(rc, s) := f s in Some (errno E rc, s).
(** [*p], when the call may have stored there. *)
Definition stored (old : Z) (res : option Z) : Z := default old res.

(* go: lpm/lpm.go Config *)
Record Config := mkConfig { MaxRules : Z; NumberTbl8s : Z; Flags : Z }.
(* go: lpm/lpm6.go Config6 *)
Definition Config6 := Config.
(* go: lpm/lpm.go Create *)
Definition Create (rte_lpm_create : list Z -> Z -> Z -> Z -> Z -> Z * Z) (name : list Z) (socket : Z) (cfg : Config) : Z * option go_error :=
  pointer_or_errno (rte_lpm_create (c_str name) (i32 socket) (MaxRules cfg) (NumberTbl8s cfg) (i32 (Flags cfg))).
(* go: lpm/lpm6.go Create6 *)
Definition Create6 (rte_lpm6_create : list Z -> Z -> Z -> Z -> Z -> Z * Z) (name : list Z) (socket : Z) (cfg : Config6) : Z * option go_error :=
  pointer_or_errno (rte_lpm6_create (c_str name) (i32 socket) (MaxRules cfg) (NumberTbl8s cfg) (i32 (Flags cfg))).

Section LPM.
Context {T : Type} `{RteLpm Z T}.

(* go: lpm/lpm.go LPM.Add *)
Definition Add (IP Mask : list Z) (nextHop : Z) : M T (option go_error) :=
  let! (ip, prefix) := lift (cvtIPv4Net IP Mask) in int_to_err (rte_lpm_add ip prefix nextHop).
(* go: lpm/lpm.go LPM.Delete *)
Definition Delete (IP Mask : list Z) : M T (option go_error) :=
  let! (ip, prefix) := lift (cvtIPv4Net IP Mask) in int_to_err (rte_lpm_delete ip prefix).
(* go: lpm/lpm.go LPM.Lookup *)
Definition Lookup (ip : list Z) : M T (Z * option go_error) :=
  let! b := lift (cvtIPv4 ip) in
  let! (rc, res) := gets (rte_lpm_lookup b) in ret (stored 0 res, errno E rc).
(* go: lpm/lpm.go LPM.DeleteAll *)
Definition DeleteAll : M T unit := modify rte_lpm_delete_all.
(** The last part of the result is [*nextHop]. *)
(* go: lpm/lpm.go LPM.IsRulePresent *)
Definition IsRulePresent (IP Mask : list Z) (nextHop : Z) : M T (bool * option go_error * Z) :=
  let! (ip, prefix) := lift (cvtIPv4Net IP Mask) in
  let! (rc, res) := gets (rte_lpm_is_rule_present ip prefix) in
  let! (n, err) := lift (IntOrErr E (Some rc)) in ret (negb (n =? 0), err, stored nextHop res).
End LPM.

Section LPM6.
Context {T : Type} `{RteLpm (list Z) T}.

(* go: lpm/lpm6.go LPM6.Add *)
Definition Add6 (IP Mask : list Z) (nextHop : Z) : M T (option go_error) :=
  let! (b, prefix) := lift (cvtIPv6Net IP Mask) in int_to_err (rte_lpm_add b prefix nextHop).
(* go: lpm/lpm6.go LPM6.Delete *)
Definition Delete6 (IP Mask : list Z) : M T (option go_error) :=
  let! (b, prefix) := lift (cvtIPv6Net IP Mask) in int_to_err (rte_lpm_delete b prefix).
(** DPDK reads 16 bytes from the first one of the slice: past its end ([None], as
    the panic for a nil address) when it is shorter. *)
(* go: lpm/lpm6.go LPM6.Lookup *)
Definition Lookup6 (ip : list Z) : M T (Z * option go_error) :=
  if (16 <=? length ip)%nat then
    let! (rc, res) := gets (rte_lpm_lookup (take 16 ip)) in ret (stored 0 res, errno E rc)
  else panic.
(* go: lpm/lpm6.go LPM6.DeleteAll *)
Definition DeleteAll6 : M T unit := modify rte_lpm_delete_all.
(* go: lpm/lpm6.go LPM6.IsRulePresent *)
Definition IsRulePresent6 (IP Mask : list Z) (nextHop : Z) : M T (bool * option go_error * Z) :=
  let! (b, prefix) := lift (cvtIPv6Net IP Mask) in
  let! (rc, res) := gets (rte_lpm_is_rule_present b prefix) in
  let! (n, err) := lift (IntOrErr E (Some rc)) in ret (negb (n =? 0), err, stored nextHop res).
End LPM6.

(** The types of the pointer that gets the table. *)
Inductive table_ptr := PtrLPM | PtrLPM6 | PtrOther.
(** The pointer found and the error; [None] is the panic for another type. *)
(* go: lpm/lpm.go FindExisting *)
Definition FindExisting (rte_lpm_find_existing rte_lpm6_find_existing : list Z -> Z * Z) (name : list Z) (ptr : table_ptr) :
    option (Z * option go_error) :=
  match ptr with
  | PtrLPM => Some (pointer_or_errno (rte_lpm_find_existing (c_str name)))
  | PtrLPM6 => Some (pointer_or_errno (rte_lpm6_find_existing (c_str name)))
  | PtrOther => None
  end.

(* go: lpm/lpm.go LPM.Free *)
Definition LPM_Free {S} (rte_lpm_free : Z -> S -> S) (r : Z) : M S unit := modify (rte_lpm_free r).
(* go: lpm/lpm6.go LPM6.Free *)
Definition LPM6_Free {S} (rte_lpm6_free : Z -> S -> S) (r : Z) : M S unit := modify (rte_lpm6_free r).
End Tables.

Example CIDR_12 : CIDRMask 12 4 = [255; 240; 0; 0].
Proof. reflexivity. Qed.
(** The mask of an IPv4 network in the form of 16 bytes: too deep for DPDK. *)
Example net_long_mask : cvtIPv4Net (v4InV6Prefix ++ [10; 0; 0; 0]) (CIDRMask 104 16) = Some (0x0A000000, 104).
Proof. reflexivity. Qed.
Example net_12 : cvtIPv4Net [172; 31; 7; 9] (CIDRMask 12 4) = Some (0xAC100000, 12).
Proof. reflexivity. Qed.

