(* ===== verification/LpmSpec.v ===== *)
(** * Longest prefix match tables: theorems

    What networks become as keys ([cvtIPNet_spec]), and what a table of DPDK that
    keeps its documentation ([RteLpmLaws]) does with them: a lookup finds the
    longest of the networks that contain the address. *)

From Stdlib Require Import ZArith Lia.
From stdpp Require Import base list numbers option sets gmap.
From S2P Require Import Prelude Errno Lpm.

Open Scope Z_scope.
Open Scope go_scope.

(** ** Masks of a prefix length *)

(** Statements on all bytes and on the ones of a byte, by computation. *)
Lemma all_bytes (f : Z -> bool) : forallb f (map Z.of_nat (seq 0 256)) = true -> forall b, byte_ok b -> f b = true.
Proof.
  intros H b Hb. rewrite forallb_forall in H. apply H. apply in_map_iff. exists (Z.to_nat b). unfold byte_ok in Hb.
  split; [lia|]. apply in_seq. lia.
Qed.

Lemma below8 (p : Z) : 0 <= p < 8 -> p ∈ [0; 1; 2; 3; 4; 5; 6; 7].
Proof. intros H. set_unfold. lia. Qed.

Lemma partial_byte b p : byte_ok b -> 0 <= p < 8 ->
  Z.land b (u8 (Z.lnot (Z.shiftr 255 p))) = b / 2 ^ (8 - p) * 2 ^ (8 - p).
Proof.
  intros Hb Hp. apply below8 in Hp. apply Z.eqb_eq. set_unfold.
  repeat destruct Hp as [->|Hp]; [..|done]; revert b Hb; apply all_bytes; vm_compute; reflexivity.
Qed.

Lemma partial_ones n p : 0 <= p < 8 -> top_ones 8 n (u8 (Z.lnot (Z.shiftr 255 p))) = (n + p, 0).
Proof.
  intros Hp. apply below8 in Hp. set_unfold.
  repeat destruct Hp as [->|Hp]; [..|done]; cbn; f_equal; lia.
Qed.

Lemma partial_not_ff p : 0 <= p < 8 -> (u8 (Z.lnot (Z.shiftr 255 p)) =? 255) = false.
Proof. intros Hp. apply below8 in Hp. set_unfold. repeat destruct Hp as [->|Hp]; done. Qed.

Lemma length_CIDRMask n : forall p, length (CIDRMask p n) = n.
Proof. induction n as [|n IH]; intros p; simpl; [done|]. case_match; simpl; by rewrite IH. Qed.

Lemma CIDRMask_0 n : CIDRMask 0 n = replicate n 0.
Proof. induction n as [|n IH]; [done|]. cbn [CIDRMask replicate]. by rewrite IH. Qed.

Lemma mask_length n : forall p acc, 0 <= p <= 8 * Z.of_nat n -> simpleMaskLength (CIDRMask p n) acc = acc + p.
Proof.
  induction n as [|n IH]; intros p acc Hp; [simpl; lia|]. cbn [CIDRMask]. destruct (Z.leb_spec 8 p) as [H|H].
  - cbn [simpleMaskLength]. change (255 =? 255) with true. cbv iota. rewrite IH by lia. lia.
  - cbn [simpleMaskLength]. rewrite partial_not_ff, partial_ones by lia. cbn [Z.eqb negb].
    rewrite CIDRMask_0. replace (forallb (fun b => b =? 0) (replicate n 0)) with true; [done|].
    symmetry. apply forallb_forall. intros x Hx%list_elem_of_In%elem_of_replicate_inv. by subst.
Qed.

Lemma be_val_range l : Forall byte_ok l -> 0 <= be_val l < 256 ^ Z.of_nat (length l).
Proof.
  induction 1 as [|b l Hb _ IH]; [simpl; lia|]. unfold byte_ok in Hb. cbn [be_val length].
  rewrite Nat2Z.inj_succ, Z.pow_succ_r by lia. nia.
Qed.

Lemma masked_zeros l : be_val (zip_with Z.land l (replicate (length l) 0)) = 0.
Proof.
  induction l as [|b l IH]; [done|]. cbn [length replicate zip_with be_val]. rewrite IH, Z.land_0_r. lia.
Qed.

(** The mask clears the bits behind the prefix. *)
Lemma masked_val l : Forall byte_ok l -> forall p, 0 <= p <= 8 * Z.of_nat (length l) ->
  let e := 8 * Z.of_nat (length l) - p in
  be_val (zip_with Z.land l (CIDRMask p (length l))) = be_val l / 2 ^ e * 2 ^ e.
Proof.
  induction 1 as [|b l Hb Hl IH]; intros p Hp e; [simpl in *; by replace e with 0 by lia|].
  pose proof (be_val_range l Hl) as R. set (n := length l) in *.
  assert (E : 256 ^ Z.of_nat n = 2 ^ (8 * Z.of_nat n)) by (rewrite Z.pow_mul_r by lia; done).
  cbn [length CIDRMask]. fold n. destruct (Z.leb_spec 8 p) as [H|H]; cbn [zip_with be_val].
  - rewrite length_zip_with, length_CIDRMask. fold n. rewrite Nat.min_id. rewrite IH by (cbn [length] in Hp; fold n in Hp; lia).
    replace (8 * Z.of_nat n - (p - 8)) with e by (unfold e; cbn [length]; fold n; lia).
    rewrite land_ff, Z.mod_small by done.
    assert (He : 0 <= e <= 8 * Z.of_nat n) by (unfold e; cbn [length] in *; fold n in Hp |- *; lia).
    rewrite E. replace (8 * Z.of_nat n) with ((8 * Z.of_nat n - e) + e) by lia.
    rewrite Z.pow_add_r by lia. rewrite Z.mul_assoc.
    rewrite Z.div_add_l by (apply Z.pow_nonzero; lia). lia.
  - rewrite CIDRMask_0. rewrite length_zip_with, length_replicate. fold n. rewrite Nat.min_id.
    unfold n at 2. rewrite masked_zeros. rewrite partial_byte by (done || lia).
    replace e with (8 * Z.of_nat n + (8 - p)) by (unfold e; cbn [length]; fold n; lia).
    rewrite Z.pow_add_r by lia. rewrite E in R |- *. rewrite <- Z.div_div by (apply Z.pow_nonzero || apply Z.pow_pos_nonneg; lia).
    rewrite Z.div_add_l by (apply Z.pow_nonzero; lia). rewrite (Z.div_small (be_val l)), !Z.add_0_r by lia. ring.
Qed.

(** Only masks of a prefix have a length. *)
Lemma top_ones_shift f : forall n v, top_ones f n v = (n + fst (top_ones f 0 v), snd (top_ones f 0 v)).
Proof.
  induction f as [|f IH]; intros n v; simpl; [f_equal; lia|]. destruct (Z.land v 128 =? 0); [simpl; f_equal; lia|].
  rewrite (IH (n + 1)), (IH 1). simpl. f_equal; lia.
Qed.

Lemma top_ones_partial v : byte_ok v -> v <> 255 -> snd (top_ones 8 0 v) = 0 ->
  let p := fst (top_ones 8 0 v) in 0 <= p < 8 /\ v = u8 (Z.lnot (Z.shiftr 255 p)).
Proof.
  intros Hv Hne Hs.
  assert (A : (v =? 255) || negb (snd (top_ones 8 0 v) =? 0) ||
    ((0 <=? fst (top_ones 8 0 v)) && (fst (top_ones 8 0 v) <? 8) && (v =? u8 (Z.lnot (Z.shiftr 255 (fst (top_ones 8 0 v)))))) = true)
    by (revert v Hv Hne Hs; intros v Hv _ _; revert v Hv; apply all_bytes; vm_compute; reflexivity).
  rewrite Hs, (proj2 (Z.eqb_neq v 255) Hne) in A. simpl in A.
  apply andb_prop in A as [[A B]%andb_prop D]. apply Z.leb_le in A. apply Z.ltb_lt in B. apply Z.eqb_eq in D. done.
Qed.

Lemma mask_is_prefix mask : Forall byte_ok mask -> forall acc, 0 <= acc -> simpleMaskLength mask acc <> -1 ->
  let p := simpleMaskLength mask acc - acc in 0 <= p <= 8 * Z.of_nat (length mask) /\ mask = CIDRMask p (length mask).
Proof.
  induction 1 as [|v rest Hv Hr IH]; intros acc Ha N; cbv zeta; [cbn [simpleMaskLength length CIDRMask]; split; [lia|done]|].
  cbn [simpleMaskLength length CIDRMask] in N |- *. destruct (Z.eqb_spec v 255) as [->|Ne].
  - destruct (IH (acc + 8)) as [A B]; [lia|done|].
    rewrite (proj2 (Z.leb_le 8 _)) by lia.
    replace (simpleMaskLength rest (acc + 8) - acc - 8) with (simpleMaskLength rest (acc + 8) - (acc + 8)) by lia.
    rewrite <- B. split; [lia|done].
  - rewrite top_ones_shift in N |- *. pose proof (top_ones_partial v Hv Ne) as T.
    destruct (Z.eqb_spec (snd (top_ones 8 0 v)) 0) as [S|S]; cbn [negb] in N |- *; [|done].
    destruct (T S) as [T1 T2]. destruct (forallb (fun b => b =? 0) rest) eqn:F; [|done].
    replace (acc + fst (top_ones 8 0 v) - acc) with (fst (top_ones 8 0 v)) by lia.
    rewrite (proj2 (Z.leb_gt 8 _)) by lia. rewrite <- T2, CIDRMask_0. split; [lia|]. f_equal.
    apply list_eq. intros i. rewrite forallb_forall in F. destruct (rest !! i) as [b|] eqn:L.
    + assert (b = 0) by (apply Z.eqb_eq, F, list_elem_of_In; by eapply list_elem_of_lookup_2). subst.
      symmetry. apply lookup_replicate. split; [done|]. by eapply lookup_lt_Some.
    + symmetry. apply lookup_ge_None. rewrite length_replicate. by apply lookup_ge_None.
Qed.

(** A network's address in the two forms of an IPv4 address. *)
Definition same_ipv4 (ip v4 : list Z) : Prop := ip = v4 \/ ip = v4InV6Prefix ++ v4.

Lemma IP_Mask_ipv4 ip v4 mask : same_ipv4 ip v4 -> length v4 = 4%nat -> length mask = 4%nat ->
  IP_Mask ip mask = zip_with Z.land v4 mask.
Proof.
  intros [-> | ->] L M; unfold IP_Mask.
  - rewrite M. cbn [Nat.eqb andb]. cbv zeta. rewrite ?M, ?L. cbn [Nat.eqb andb]. by rewrite ?L, ?M.
  - assert (L16 : length (v4InV6Prefix ++ v4) = 16%nat) by (rewrite length_app, L; done).
    rewrite M. cbn [Nat.eqb andb]. cbv zeta. rewrite L16, M. cbn [Nat.eqb andb].
    rewrite (bool_decide_eq_true_2 (take 12 (v4InV6Prefix ++ v4) = v4InV6Prefix) eq_refl).
    change (drop 12 (v4InV6Prefix ++ v4)) with v4. by rewrite L.
Qed.

Lemma To4_4 l : length l = 4%nat -> To4 l = l.
Proof. intros L. unfold To4. by rewrite L. Qed.

(** The key of a table for an IPv4 network: for the mask of a prefix length, it
    is the network's address with all bits behind the prefix cleared, and that
    length, in whichever form the address is given; but for any other 4-byte
    mask the prefix length is 0, the one of the default route. For IPv6 it is
    the same on 128 bits. *)
Theorem cvtIPNet_spec v4 ip mask v6 (H4 : Forall byte_ok v4) (L4 : length v4 = 4%nat) (S : same_ipv4 ip v4)
    (H6 : Forall byte_ok v6) (L6 : length v6 = 16%nat) :
  (forall p, 0 <= p <= 32 ->
     cvtIPv4Net ip (CIDRMask p 4) = Some (be_val v4 / 2 ^ (32 - p) * 2 ^ (32 - p), p)) /\
  (Forall byte_ok mask -> length mask = 4%nat -> (forall p, 0 <= p <= 32 -> mask <> CIDRMask p 4) ->
     exists a, cvtIPv4Net ip mask = Some (a, 0)) /\
  (forall p, 0 <= p <= 128 -> exists b, cvtIPv6Net v6 (CIDRMask p 16) = Some (b, p) /\ length b = 16%nat /\
     be_val b = be_val v6 / 2 ^ (128 - p) * 2 ^ (128 - p)).
Proof.
  assert (K : forall mask, length mask = 4%nat -> cvtIPv4Net ip mask = Some (be_val (zip_with Z.land v4 mask), u8 (IPMask_Size mask))).
  { intros m M. unfold cvtIPv4Net, cvtIPv4. rewrite (IP_Mask_ipv4 ip v4 m S L4 M).
    assert (L : length (zip_with Z.land v4 m) = 4%nat) by (rewrite length_zip_with; lia).
    rewrite To4_4 by done. destruct (zip_with Z.land v4 m) as [|x l] eqn:Z0; [done|].
    by rewrite firstn_all2 by (rewrite L; lia). }
  split_and!.
  - intros p Hp. rewrite K by apply length_CIDRMask. pose proof (masked_val v4 H4 p) as M. rewrite L4 in M.
    rewrite M by lia. unfold IPMask_Size. rewrite mask_length by lia. rewrite (proj2 (Z.eqb_neq _ _)) by lia.
    by rewrite u8_small by lia.
  - intros Hm M Np. rewrite K by done. eexists. f_equal. unfold IPMask_Size.
    destruct (Z.eqb_spec (simpleMaskLength mask 0) (-1)) as [|N]; [done|exfalso].
    destruct (mask_is_prefix mask Hm 0 ltac:(lia) N) as [A B]. rewrite M in *. by apply (Np (simpleMaskLength mask 0 - 0)); [lia|].
  - intros p Hp. unfold cvtIPv6Net. pose proof (masked_val v6 H6 p) as M. rewrite L6 in M.
    assert (Ez : IP_Mask v6 (CIDRMask p 16) = zip_with Z.land v6 (CIDRMask p 16)).
    { unfold IP_Mask. cbv zeta. rewrite !length_CIDRMask, L6. cbn [Nat.eqb andb]. rewrite !length_CIDRMask. cbn [Nat.eqb andb]. by rewrite L6. }
    rewrite Ez. set (z := zip_with Z.land v6 (CIDRMask p 16)) in *.
    assert (Lz : length z = 16%nat) by (unfold z; rewrite length_zip_with, length_CIDRMask; lia).
    exists z. rewrite Lz. cbn [Nat.leb]. unfold To16. rewrite Lz. cbn [Nat.eqb].
    rewrite firstn_all2 by lia. rewrite Lz. cbn [Nat.sub replicate]. rewrite app_nil_r.
    split; [|split; [done|by apply M; lia]].
    unfold IPMask_Size. rewrite mask_length by lia. rewrite (proj2 (Z.eqb_neq _ _)) by lia. by rewrite u8_small by lia.
Qed.

Lemma cvtIPNet_spec_witness :
  cvtIPv4Net (v4InV6Prefix ++ [10; 1; 2; 3]) (CIDRMask 20 4) = Some (0x0A010000, 20) /\
  exists a, cvtIPv4Net [10; 1; 2; 3] [255; 0; 255; 0] = Some (a, 0).
Proof.
  assert (H4 : Forall byte_ok [10; 1; 2; 3]) by (repeat constructor; unfold byte_ok; lia).
  assert (H6 : Forall byte_ok (replicate 16 1)) by (repeat constructor; unfold byte_ok; lia).
  split.
  - apply (cvtIPNet_spec [10; 1; 2; 3] (v4InV6Prefix ++ [10; 1; 2; 3]) [] (replicate 16 1) H4 eq_refl ltac:(by right) H6 eq_refl). lia.
  - apply (cvtIPNet_spec [10; 1; 2; 3] [10; 1; 2; 3] [255; 0; 255; 0] (replicate 16 1) H4 eq_refl ltac:(by left) H6 eq_refl).
    + repeat constructor; unfold byte_ok; lia.
    + done.
    + intros p Hp E. assert (N : simpleMaskLength [255; 0; 255; 0] 0 = 0 + p) by (rewrite E; apply mask_length; lia).
      vm_compute in N. lia.
Defined.

(** ** Tables

    What is documented of the tables of DPDK: [rules t] are the rules stored, by
    key without the bits behind the prefix, and depth. Depths go from 1 to the
    width of a key, next hops are below a bound; a call that fails changes
    nothing. *)

Section Best.
Context {K : Type} `{Countable K}.
Variable mask : K -> Z -> K.

(** The hop of the deepest rule that [k] falls under, of at most depth [d]. *)
Fixpoint best (m : gmap (K * Z) Z) (k : K) (d : nat) : option Z :=
  match d with
  | O => None
  | S d' => match m !! (mask k (Z.of_nat d), Z.of_nat d) with Some h => Some h | None => best m k d' end
  end.

Lemma best_some m k : forall d h, best m k d = Some h <->
  exists p, 1 <= p <= Z.of_nat d /\ m !! (mask k p, p) = Some h /\ forall p', p < p' <= Z.of_nat d -> m !! (mask k p', p') = None.
Proof.
  induction d as [|d IH]; intros h; cbn [best].
  - split; [done|]. intros (p & Hp & _). lia.
  - destruct (m !! (mask k (Z.of_nat (S d)), Z.of_nat (S d))) as [h'|] eqn:L; rewrite ?IH; split.
    + intros [= <-]. exists (Z.of_nat (S d)). split_and!; [lia|lia|done|]. intros p' Hp. lia.
    + intros (p & Hp & Lp & Hi). destruct (decide (p = Z.of_nat (S d))) as [->|N]; [congruence|].
      rewrite Hi in L by lia. done.
    + intros (p & Hp & Lp & Hi). exists p. split_and!; [lia|lia|done|]. intros p' Hp'.
      destruct (decide (p' = Z.of_nat (S d))) as [->|N]; [done|]. apply Hi. lia.
    + intros (p & Hp & Lp & Hi). destruct (decide (p = Z.of_nat (S d))) as [->|N]; [congruence|].
      exists p. split_and!; [lia|lia|done|]. intros p' Hp'. apply Hi. lia.
Qed.

Lemma best_none m k d : (forall p, 1 <= p <= Z.of_nat d -> m !! (mask k p, p) = None) -> best m k d = None.
Proof.
  intros N. destruct (best m k d) as [h|] eqn:B; [|done]. apply best_some in B as (p & Hp & L & _). by rewrite N in L.
Qed.

Lemma best_is_some m k d p h : 1 <= p <= Z.of_nat d -> m !! (mask k p, p) = Some h -> is_Some (best m k d).
Proof.
  revert p h. induction d as [|d IH]; intros p h Hp L; [lia|]. cbn [best].
  destruct (m !! (mask k (Z.of_nat (S d)), Z.of_nat (S d))) as [x|] eqn:Lx; [by exists x|]. apply (IH p h); [|done].
  destruct (decide (p = Z.of_nat (S d))) as [->|]; [congruence|lia].
Qed.
End Best.

Class RteLpmLaws (K T : Type) `{RteLpm K T} `{Countable K} (w : nat) (mask : K -> Z -> K) (hops ENOENT : Z) := {
  rules : T -> gmap (K * Z) Z;
  add_law k d h t : 1 <= d <= Z.of_nat w -> 0 <= h < hops ->
    (fst (rte_lpm_add k d h t) = 0 /\ rules (snd (rte_lpm_add k d h t)) = <[(mask k d, d) := h]> (rules t)) \/
    (- 2 ^ 31 <= fst (rte_lpm_add k d h t) < 0 /\ rules (snd (rte_lpm_add k d h t)) = rules t);
  add_depth k d h t : ~ 1 <= d <= Z.of_nat w ->
    - 2 ^ 31 <= fst (rte_lpm_add k d h t) < 0 /\ rules (snd (rte_lpm_add k d h t)) = rules t;
  delete_law k d t : 1 <= d <= Z.of_nat w ->
    (fst (rte_lpm_delete k d t) = 0 /\ rules (snd (rte_lpm_delete k d t)) = delete (mask k d, d) (rules t)) \/
    (- 2 ^ 31 <= fst (rte_lpm_delete k d t) < 0 /\ rules (snd (rte_lpm_delete k d t)) = rules t);
  delete_depth k d t : ~ 1 <= d <= Z.of_nat w ->
    - 2 ^ 31 <= fst (rte_lpm_delete k d t) < 0 /\ rules (snd (rte_lpm_delete k d t)) = rules t;
  delete_all_law t : rules (rte_lpm_delete_all t) = ∅;
  lookup_hit k h t : best mask (rules t) k w = Some h -> rte_lpm_lookup k t = (0, Some h);
  lookup_miss k t : best mask (rules t) k w = None -> fst (rte_lpm_lookup k t) = - ENOENT;
  present_law k d h t : 1 <= d <= Z.of_nat w -> rules t !! (mask k d, d) = Some h -> rte_lpm_is_rule_present k d t = (1, Some h);
  absent_law k d t : 1 <= d <= Z.of_nat w -> rules t !! (mask k d, d) = None -> fst (rte_lpm_is_rule_present k d t) = 0
}.

(** ** Networks

    A network is an address and the number of ones of its mask. *)

(** The bytes of an address behind [net.CIDRMask(p, 8*len)]. *)
Definition masked (l : list Z) (p : Z) : list Z := zip_with Z.land l (CIDRMask p (length l)).
(** [IPNet.Contains] *)
Definition contains (net : list Z) (p : Z) (ip : list Z) : Prop := masked ip p = masked net p.

Lemma length_masked l p : length (masked l p) = length l.
Proof. unfold masked. rewrite length_zip_with, length_CIDRMask. lia. Qed.

Lemma masked_again l p : masked (masked l p) p = masked l p.
Proof.
  unfold masked at 1. rewrite length_masked. unfold masked. generalize (CIDRMask p (length l)) as m.
  induction l as [|b l IH]; intros [|x m]; cbn [zip_with]; [done..|]. by rewrite IH, <- Z.land_assoc, Z.land_diag.
Qed.

Lemma masked_bytes l p : Forall byte_ok l -> Forall byte_ok (masked l p).
Proof.
  unfold masked. generalize (CIDRMask p (length l)) as m. intros m F. revert m.
  induction F as [|b l Hb _ IH]; intros [|x m]; cbn [zip_with]; constructor; [|done]. unfold byte_ok in *.
  assert (Z.land b x = Z.land (Z.land b x) 255) as ->; [|rewrite land_ff; apply Z.mod_pos_bound; lia].
  rewrite <- Z.land_assoc, (Z.land_comm x), Z.land_assoc, land_ff. by rewrite Z.mod_small.
Qed.

Lemma be_val_inj l : forall l', Forall byte_ok l -> Forall byte_ok l' -> length l = length l' -> be_val l = be_val l' -> l = l'.
Proof.
  induction l as [|b l IH]; intros [|b' l'] F F' L Eq; [done..|]. apply Forall_cons in F as [Hb F], F' as [Hb' F'].
  cbn [length] in L. injection L as L. cbn [be_val] in Eq. rewrite <- L in Eq.
  pose proof (be_val_range l F) as R. pose proof (be_val_range l' F') as R'. rewrite <- L in R'.
  pose proof (f_equal (fun x => x / 256 ^ Z.of_nat (length l)) Eq) as D. cbv beta in D.
  rewrite !Z.div_add_l, !Z.div_small, !Z.add_0_r in D by (done || lia). subst b'. f_equal. apply IH; [done..|lia].
Qed.

(** ** Requests

    Changes of a table by the networks they name; [routes] is the table of the
    networks that the answers say are stored. *)

Inductive request := AddNet (ip : list Z) (p hop : Z) | DelNet (ip : list Z) (p : Z) | DelAll.

Section Requests.
(** The bytes of an address of package [net]. *)
Variable bytes : list Z -> list Z.

Definition answered (tbl : gmap (list Z * Z) Z) (x : request * option go_error) : gmap (list Z * Z) Z :=
  match x with
  | (AddNet ip p hop, None) => <[(masked (bytes ip) p, p) := hop]> tbl
  | (DelNet ip p, None) => delete (masked (bytes ip) p, p) tbl
  | (DelAll, _) => ∅
  | _ => tbl
  end.
Definition routes (reqs : list request) (answers : list (option go_error)) : gmap (list Z * Z) Z :=
  foldl answered ∅ (zip reqs answers).

(** The hop of the longest network that contains the address. *)
Definition route (tbl : gmap (list Z * Z) Z) (ip : list Z) (h : Z) : Prop :=
  exists net p, tbl !! (net, p) = Some h /\ contains net p ip /\
    forall net' p', is_Some (tbl !! (net', p')) -> contains net' p' ip -> p' <= p.
Definition no_route (tbl : gmap (list Z * Z) Z) (ip : list Z) : Prop :=
  forall net p, is_Some (tbl !! (net, p)) -> ~ contains net p ip.

Variable n : nat.
Definition addr (l : list Z) : Prop := Forall byte_ok l /\ length l = n.
Definition req_ok (hops : Z) (r : request) : Prop :=
  match r with
  | AddNet ip p hop => addr (bytes ip) /\ 0 <= p <= 8 * Z.of_nat n /\ 0 <= hop < hops
  | DelNet ip p => addr (bytes ip) /\ 0 <= p <= 8 * Z.of_nat n
  | DelAll => True
  end.
(** A change of the default route, which the tables do not have. *)
Definition of_default (r : request) : bool :=
  match r with AddNet _ p _ | DelNet _ p => p =? 0 | DelAll => false end.
End Requests.

(** ** Runs

    A table that keeps its laws, a family of addresses of [n] bytes that are keys
    of it, and a client's calls. *)

Section Run.
Context {K T : Type} {w : nat} {mask : K -> Z -> K} {hops ENOENT : Z} `{RL : RteLpmLaws K T w mask hops ENOENT}.
Variable E : rte_numbers.
Variable n : nat.
Variable key : list Z -> K.
Variable bytes : list Z -> list Z.
Hypothesis width : Z.of_nat w = 8 * Z.of_nat n.
Hypothesis key_mask : forall l p, addr n l -> 0 <= p <= 8 * Z.of_nat n -> mask (key l) p = key (masked l p).
Hypothesis key_inj : forall l l', addr n l -> addr n l' -> key l = key l' -> l = l'.

(** The rules are the networks of [tbl]. *)
Record keeps (t : T) (tbl : gmap (list Z * Z) Z) : Prop := {
  kp_rules l p : addr n l -> rules t !! (key l, p) = tbl !! (l, p);
  kp_nets l p : is_Some (tbl !! (l, p)) -> addr n l /\ masked l p = l /\ 1 <= p <= 8 * Z.of_nat n
}.

Lemma addr_masked l p : addr n l -> addr n (masked l p).
Proof. intros [F L]. split; [by apply masked_bytes|by rewrite length_masked]. Qed.

Lemma keeps_same t t' tbl : keeps t tbl -> rules t' = rules t -> keeps t' tbl.
Proof. intros [R N] E'. split; [by rewrite E'|done]. Qed.

Lemma keeps_empty t : rules t = ∅ -> keeps t ∅.
Proof. intros R. split; [intros l p _; by rewrite R, !lookup_empty|]. intros l p [? X]. by rewrite lookup_empty in X. Qed.

Lemma keeps_add t t' tbl l p h : keeps t tbl -> addr n l -> 1 <= p <= 8 * Z.of_nat n ->
  rules t' = <[(mask (key (masked l p)) p, p) := h]> (rules t) -> keeps t' (<[(masked l p, p) := h]> tbl).
Proof.
  intros [R N] A Hp E'. pose proof (addr_masked l p A) as Am. rewrite key_mask, masked_again in E' by (done || lia). split.
  - intros l' p' A'. rewrite E'. destruct (decide ((masked l p, p) = (l', p'))) as [[= <- <-]|Ne]; [by rewrite !lookup_insert_eq|].
    rewrite !lookup_insert_ne; [by apply R|done|]. intros [= K1 <-]. apply Ne. f_equal. by apply key_inj.
  - intros l' p'. destruct (decide ((masked l p, p) = (l', p'))) as [[= <- <-]|Ne].
    + intros _. split_and!; [done|apply masked_again|lia|lia].
    + rewrite lookup_insert_ne by done. apply N.
Qed.

Lemma keeps_delete t t' tbl l p : keeps t tbl -> addr n l -> 1 <= p <= 8 * Z.of_nat n ->
  rules t' = delete (mask (key (masked l p)) p, p) (rules t) -> keeps t' (delete (masked l p, p) tbl).
Proof.
  intros [R N] A Hp E'. pose proof (addr_masked l p A) as Am. rewrite key_mask, masked_again in E' by (done || lia). split.
  - intros l' p' A'. rewrite E'. destruct (decide ((masked l p, p) = (l', p'))) as [[= <- <-]|Ne]; [by rewrite !lookup_delete_eq|].
    rewrite !lookup_delete_ne; [by apply R|done|]. intros [= K1 <-]. apply Ne. f_equal. by apply key_inj.
  - intros l' p' [x Hx]. apply N. destruct (decide ((masked l p, p) = (l', p'))) as [Eq|Ne].
    + rewrite Eq, lookup_delete_eq in Hx. done.
    + rewrite lookup_delete_ne in Hx by done. by exists x.
Qed.

Lemma keeps_route t tbl b : keeps t tbl -> addr n b ->
  (forall h, route tbl b h -> rte_lpm_lookup (key b) t = (0, Some h)) /\
  (no_route tbl b -> fst (rte_lpm_lookup (key b) t) = - ENOENT).
Proof.
  intros [R N] A. assert (L : forall p, 1 <= p <= Z.of_nat w -> rules t !! (mask (key b) p, p) = tbl !! (masked b p, p)).
  { intros p Hp. rewrite key_mask by (done || lia). apply R. by apply addr_masked. }
  split.
  - intros h (net & p & Hn & C & Max). destruct (N net p) as (_ & M & Hp); [by exists h|]. unfold contains in C. rewrite M in C.
    apply lookup_hit, best_some. exists p. split_and!; [lia|lia|by rewrite L, C by lia|]. intros p' Hp'. rewrite L by lia.
    destruct (tbl !! (masked b p', p')) as [h'|] eqn:E'; [|done]. exfalso.
    assert (p' <= p); [|lia]. apply (Max (masked b p')); [by exists h'|]. unfold contains. by rewrite masked_again.
  - intros No. apply lookup_miss, best_none. intros p Hp. rewrite L by done.
    destruct (tbl !! (masked b p, p)) as [h'|] eqn:E'; [|done]. exfalso.
    apply (No (masked b p) p); [by exists h'|]. unfold contains. by rewrite masked_again.
Qed.

Lemma keeps_present t tbl b p : keeps t tbl -> addr n b -> 1 <= p <= 8 * Z.of_nat n ->
  match tbl !! (masked b p, p) with
  | Some h => rte_lpm_is_rule_present (key (masked b p)) p t = (1, Some h)
  | None => fst (rte_lpm_is_rule_present (key (masked b p)) p t) = 0
  end.
Proof.
  intros [R N] A Hp. pose proof (addr_masked b p A) as Am.
  assert (L : rules t !! (mask (key (masked b p)) p, p) = tbl !! (masked b p, p)).
  { rewrite key_mask, masked_again by (done || lia). by apply R. }
  destruct (tbl !! (masked b p, p)) as [h|]; [apply present_law|apply absent_law]; done || lia.
Qed.

(** The calls, as what they ask DPDK for. *)
Variable exec : request -> M T (option go_error).
Hypothesis exec_add : forall ip p hop t, addr n (bytes ip) -> 0 <= p <= 8 * Z.of_nat n ->
  exec (AddNet ip p hop) t = int_to_err E (rte_lpm_add (key (masked (bytes ip) p)) p hop) t.
Hypothesis exec_del : forall ip p t, addr n (bytes ip) -> 0 <= p <= 8 * Z.of_nat n ->
  exec (DelNet ip p) t = int_to_err E (rte_lpm_delete (key (masked (bytes ip) p)) p) t.
Hypothesis exec_all : forall t, exec DelAll t = Some (None, rte_lpm_delete_all t).

Lemma errno_neg rc : - 2 ^ 31 <= rc < 0 -> is_Some (errno E rc).
Proof. intros R. unfold errno. rewrite (proj2 (Z.eqb_neq _ _)) by lia. eauto. Qed.

(** The answer of a call whose code is zero or an error. *)
Lemma call_keeps (f : T -> Z * T) t (ok bad : T -> Prop) :
  (fst (f t) = 0 /\ ok (snd (f t))) \/ (- 2 ^ 31 <= fst (f t) < 0 /\ bad (snd (f t))) ->
  exists a t', int_to_err E f t = Some (a, t') /\ match a with None => ok t' | Some _ => bad t' end.
Proof.
  unfold int_to_err. destruct (f t) as [rc t']. cbn [fst snd]. intros [[-> G]|[R G]]; [by exists None, t'|].
  destruct (errno_neg rc R) as [e Ee]. exists (Some e), t'. by rewrite Ee.
Qed.

Lemma request_keeps r t tbl : req_ok bytes n hops r -> keeps t tbl -> exists a t', exec r t = Some (a, t') /\
  keeps t' (answered bytes tbl (r, a)) /\ (of_default r = true -> a <> None).
Proof.
  intros Ok Kp. destruct r as [ip p hop|ip p|]; cbn [req_ok of_default answered] in *.
  - destruct Ok as (A & Hp & Hh). rewrite exec_add by done. destruct (Z.eqb_spec p 0) as [->|N0].
    + destruct (call_keeps (rte_lpm_add (key (masked (bytes ip) 0)) 0 hop) t (fun _ => False) (fun t' => rules t' = rules t)) as (a & t' & E' & G).
      { right. apply add_depth. lia. }
      destruct a as [e|]; [|done]. exists (Some e), t'. split_and!; [done|by eapply keeps_same|done].
    + destruct (call_keeps (rte_lpm_add (key (masked (bytes ip) p)) p hop) t
        (fun t' => rules t' = <[(mask (key (masked (bytes ip) p)) p, p) := hop]> (rules t)) (fun t' => rules t' = rules t)) as (a & t' & E' & G).
      { apply add_law; lia. }
      exists a, t'. split_and!; [done| |done]. destruct a as [e|]; [by eapply keeps_same|]. apply (keeps_add t); done || lia.
  - destruct Ok as (A & Hp). rewrite exec_del by done. destruct (Z.eqb_spec p 0) as [->|N0].
    + destruct (call_keeps (rte_lpm_delete (key (masked (bytes ip) 0)) 0) t (fun _ => False) (fun t' => rules t' = rules t)) as (a & t' & E' & G).
      { right. apply delete_depth. lia. }
      destruct a as [e|]; [|done]. exists (Some e), t'. split_and!; [done|by eapply keeps_same|done].
    + destruct (call_keeps (rte_lpm_delete (key (masked (bytes ip) p)) p) t
        (fun t' => rules t' = delete (mask (key (masked (bytes ip) p)) p, p) (rules t)) (fun t' => rules t' = rules t)) as (a & t' & E' & G).
      { apply delete_law; lia. }
      exists a, t'. split_and!; [done| |done]. destruct a as [e|]; [by eapply keeps_same|]. apply (keeps_delete t); done || lia.
  - exists None, (rte_lpm_delete_all t). split_and!; [apply exec_all| |done]. apply keeps_empty, delete_all_law.
Qed.

Lemma requests_keep reqs : forall t tbl, Forall (req_ok bytes n hops) reqs -> keeps t tbl -> exists answers t',
  mapM_ exec reqs t = Some (answers, t') /\ Forall2 (fun r a => of_default r = true -> a <> None) reqs answers /\
  keeps t' (foldl (answered bytes) tbl (zip reqs answers)).
Proof.
  induction reqs as [|r reqs IH]; intros t tbl F Kp; [by exists [], t|]. apply Forall_cons in F as [Or F].
  destruct (request_keeps r t tbl Or Kp) as (a & t1 & E1 & K1 & D1). destruct (IH t1 _ F K1) as (answers & t2 & E2 & D2 & K2).
  exists (a :: answers), t2. split_and!; [|by constructor|done]. cbn [mapM_]. rewrite (bind_some _ _ _ _ _ E1), (bind_some _ _ _ _ _ E2). done.
Qed.
End Run.

(** [best] on networks is the longest of those that contain the address. *)
Lemma best_route tbl n b (Hk : forall l p, is_Some (tbl !! (l, p)) -> masked l p = l /\ 1 <= p <= Z.of_nat n) :
  match best masked tbl b n with Some h => route tbl b h | None => no_route tbl b end.
Proof.
  assert (In : forall net p, is_Some (tbl !! (net, p)) -> contains net p b -> net = masked b p /\ 1 <= p <= Z.of_nat n).
  { intros net p S C. destruct (Hk net p S) as [M R]. unfold contains in C. by rewrite C, M. }
  destruct (best masked tbl b n) as [h|] eqn:B.
  - apply best_some in B as (p & Hp & L & Max). exists (masked b p), p. split_and!; [done|unfold contains; by rewrite masked_again|].
    intros net' p' S C. destruct (In net' p' S C) as [-> Hp']. destruct (decide (p' <= p)) as [|N]; [done|].
    rewrite Max in S by lia. by destruct S.
  - intros net p S C. destruct (In net p S C) as [-> Hp]. destruct S as [h' L].
    destruct (best_is_some masked tbl b n p h' Hp L) as [h B']. congruence.
Qed.

(** ** IPv4 *)

Definition mask32 (k p : Z) : Z := k / 2 ^ (32 - p) * 2 ^ (32 - p).

Lemma key32_mask l p : addr 4 l -> 0 <= p <= 8 * Z.of_nat 4 -> mask32 (be_val l) p = be_val (masked l p).
Proof. intros [F L] Hp. unfold masked. rewrite masked_val by (done || lia). by rewrite L. Qed.

Lemma key32_inj l l' : addr 4 l -> addr 4 l' -> be_val l = be_val l' -> l = l'.
Proof. intros [F L] [F' L']. apply be_val_inj; [done..|lia]. Qed.

Lemma To4_same ip : length (To4 ip) = 4%nat -> same_ipv4 ip (To4 ip).
Proof.
  unfold To4, same_ipv4. destruct (Nat.eqb_spec (length ip) 4) as [|N]; [by left|].
  destruct (Nat.eqb_spec (length ip) 16) as [L|]; [|done]. cbn [andb]. case_bool_decide as D; [|done]. intros _. right.
  by rewrite <- D, take_drop.
Qed.

Lemma To4_masked l p : addr 4 l -> cvtIPv4 (masked l p) = Some (be_val (masked l p)).
Proof.
  intros [_ L]. unfold cvtIPv4. assert (Lm : length (masked l p) = 4%nat) by (by rewrite length_masked). rewrite To4_4 by done.
  destruct (masked l p) as [|x r] eqn:M; [done|]. by rewrite firstn_all2 by (rewrite Lm; lia).
Qed.

Lemma IPMask_Size_CIDR p n : 0 <= p <= 8 * Z.of_nat n -> IPMask_Size (CIDRMask p n) = p.
Proof. intros Hp. unfold IPMask_Size. rewrite mask_length by lia. by rewrite (proj2 (Z.eqb_neq _ _)) by lia. Qed.

Lemma cvtIPv4Net_addr ip p : addr 4 (To4 ip) -> 0 <= p <= 32 -> cvtIPv4Net ip (CIDRMask p 4) = Some (be_val (masked (To4 ip) p), p).
Proof.
  intros A Hp. pose proof A as [F L]. unfold cvtIPv4Net.
  rewrite (IP_Mask_ipv4 ip (To4 ip)) by (done || apply length_CIDRMask || by apply To4_same).
  pose proof (To4_masked (To4 ip) p A) as C. unfold masked in C at 1. rewrite L in C. rewrite C.
  rewrite IPMask_Size_CIDR by lia. by rewrite u8_small by lia.
Qed.

(** The calls of a client with networks of CIDR masks. *)
Definition request4 {T} `{RteLpm Z T} (E : rte_numbers) (r : request) : M T (option go_error) :=
  match r with
  | AddNet ip p hop => Add E ip (CIDRMask p 4) hop
  | DelNet ip p => Delete E ip (CIDRMask p 4)
  | DelAll => DeleteAll ;; ret None
  end.

Lemma request4_add {T} `{RteLpm Z T} E ip p hop (t : T) : addr 4 (To4 ip) -> 0 <= p <= 8 * Z.of_nat 4 ->
  request4 E (AddNet ip p hop) t = int_to_err E (rte_lpm_add (be_val (masked (To4 ip) p)) p hop) t.
Proof. intros A Hp. cbn [request4]. unfold Add. by rewrite cvtIPv4Net_addr by (done || lia). Qed.

Lemma request4_del {T} `{RteLpm Z T} E ip p (t : T) : addr 4 (To4 ip) -> 0 <= p <= 8 * Z.of_nat 4 ->
  request4 E (DelNet ip p) t = int_to_err E (rte_lpm_delete (be_val (masked (To4 ip) p)) p) t.
Proof. intros A Hp. cbn [request4]. unfold Delete. by rewrite cvtIPv4Net_addr by (done || lia). Qed.

(** C24. A table of IPv4 networks, on a DPDK that keeps its documentation: whatever
    networks a client adds and deletes, in 4-byte or in mapped form, no call
    panics, and the default route is always refused with an error. A lookup finds
    the hop of the longest network that contains the address, among those that
    were added without an error and not deleted since, or the error of DPDK when
    none does; and [IsRulePresent] tells whether a network, with whatever bits
    behind its mask, is one of them. *)
Theorem LPM_routes {T hops ENOENT} `{!RteLpm Z T} {RL : RteLpmLaws Z T 32 mask32 hops ENOENT} E reqs (t : T) ip net p old
    (Hr : Forall (req_ok To4 4 hops) reqs) (He : rules t = ∅) (Hi : addr 4 (To4 ip)) (Hn : addr 4 (To4 net)) (Hp : 1 <= p <= 32) :
  exists answers t', mapM_ (request4 E) reqs t = Some (answers, t') /\
    Forall2 (fun r a => of_default r = true -> a <> None) reqs answers /\
    let tbl := routes To4 reqs answers in
    ((exists h, route tbl (To4 ip) h /\ Lookup E ip t' = Some ((h, None), t')) \/
     (no_route tbl (To4 ip) /\ exists x, Lookup E ip t' = Some ((x, errno E (- ENOENT)), t'))) /\
    match tbl !! (masked (To4 net) p, p) with
    | Some h => IsRulePresent E net (CIDRMask p 4) old t' = Some ((true, None, h), t')
    | None => exists x, IsRulePresent E net (CIDRMask p 4) old t' = Some ((false, None, x), t')
    end.
Proof.
  destruct (requests_keep E 4 be_val To4 (eq_refl : Z.of_nat 32 = 8 * Z.of_nat 4) key32_mask key32_inj (request4 E) (request4_add E) (request4_del E) (fun _ => eq_refl)
    reqs t ∅ Hr) as (answers & t' & R & D & K); [by apply keeps_empty|].
  exists answers, t'. split; [done|]. split; [done|]. intros tbl. fold (routes To4 reqs answers) tbl in K. split.
  - destruct (keeps_route 4 be_val (eq_refl : Z.of_nat 32 = 8 * Z.of_nat 4) key32_mask t' tbl (To4 ip) K Hi) as [Hit Miss].
    assert (C : cvtIPv4 ip = Some (be_val (To4 ip))).
    { pose proof (To4_masked (To4 ip) 32 Hi) as C. unfold cvtIPv4 in C |- *. destruct Hi as [F L]. destruct (To4 ip) as [|x r] eqn:T4; [done|].
      by rewrite firstn_all2 by lia. }
    pose proof (best_route tbl 32 (To4 ip)) as B. unfold Lookup. rewrite C. destruct (best masked tbl (To4 ip) 32) as [h|].
    + left. exists h. assert (Rt : route tbl (To4 ip) h) by (apply B; intros l q S; by destruct (kp_nets _ _ _ _ K l q S) as (_ & ? & ?)).
      split; [done|]. unfold bind, lift, gets, ret. by rewrite (Hit h Rt).
    + right. assert (Nr : no_route tbl (To4 ip)) by (apply B; intros l q S; by destruct (kp_nets _ _ _ _ K l q S) as (_ & ? & ?)).
      split; [done|]. unfold bind, lift, gets, ret. specialize (Miss Nr). destruct (rte_lpm_lookup (be_val (To4 ip)) t') as [rc res].
      cbn [fst] in Miss. subst rc. eauto.
  - pose proof (keeps_present 4 be_val (eq_refl : Z.of_nat 32 = 8 * Z.of_nat 4) key32_mask t' tbl (To4 net) p K Hn Hp) as P. unfold IsRulePresent.
    rewrite cvtIPv4Net_addr by (done || lia). unfold bind, lift, gets, ret. destruct (tbl !! (masked (To4 net) p, p)) as [h|].
    + by rewrite P.
    + destruct (rte_lpm_is_rule_present (be_val (masked (To4 net) p)) p t') as [rc res]. cbn [fst] in P. subst rc. eauto.
Qed.

(** ** IPv6 *)

Lemma cvtIPv6Net_addr ip p : addr 16 ip -> 0 <= p <= 128 -> cvtIPv6Net ip (CIDRMask p 16) = Some (masked ip p, p).
Proof.
  intros [F L] Hp. assert (Ez : IP_Mask ip (CIDRMask p 16) = masked ip p).
  { unfold IP_Mask, masked. cbv zeta. rewrite !length_CIDRMask, L. cbn [Nat.eqb andb]. rewrite !length_CIDRMask. cbn [Nat.eqb andb]. by rewrite L. }
  unfold cvtIPv6Net. rewrite Ez. cbv zeta. unfold To16. rewrite length_masked, L. cbn [Nat.leb Nat.eqb].
  rewrite firstn_all2 by (rewrite length_masked; lia). rewrite length_masked, L. cbn [Nat.sub replicate]. rewrite app_nil_r.
  rewrite IPMask_Size_CIDR by lia. by rewrite u8_small by lia.
Qed.

Definition request6 {T} `{RteLpm (list Z) T} (E : rte_numbers) (r : request) : M T (option go_error) :=
  match r with
  | AddNet ip p hop => Add6 E ip (CIDRMask p 16) hop
  | DelNet ip p => Delete6 E ip (CIDRMask p 16)
  | DelAll => DeleteAll6 ;; ret None
  end.

Lemma request6_add {T} `{RteLpm (list Z) T} E ip p hop (t : T) : addr 16 ip -> 0 <= p <= 8 * Z.of_nat 16 ->
  request6 E (AddNet ip p hop) t = int_to_err E (rte_lpm_add (masked ip p) p hop) t.
Proof. intros A Hp. cbn [request6]. unfold Add6. by rewrite cvtIPv6Net_addr by (done || lia). Qed.

Lemma request6_del {T} `{RteLpm (list Z) T} E ip p (t : T) : addr 16 ip -> 0 <= p <= 8 * Z.of_nat 16 ->
  request6 E (DelNet ip p) t = int_to_err E (rte_lpm_delete (masked ip p) p) t.
Proof. intros A Hp. cbn [request6]. unfold Delete6. by rewrite cvtIPv6Net_addr by (done || lia). Qed.

(** The same of IPv6 networks; a mapped IPv4 address is one of 128 bits there. *)
Theorem LPM6_routes {T hops ENOENT} `{!RteLpm (list Z) T} {RL : RteLpmLaws (list Z) T 128 masked hops ENOENT} E reqs (t : T) ip net p old
    (Hr : Forall (req_ok (fun l => l) 16 hops) reqs) (He : rules t = ∅) (Hi : addr 16 ip) (Hn : addr 16 net) (Hp : 1 <= p <= 128) :
  exists answers t', mapM_ (request6 E) reqs t = Some (answers, t') /\
    Forall2 (fun r a => of_default r = true -> a <> None) reqs answers /\
    let tbl := routes (fun l => l) reqs answers in
    ((exists h, route tbl ip h /\ Lookup6 E ip t' = Some ((h, None), t')) \/
     (no_route tbl ip /\ exists x, Lookup6 E ip t' = Some ((x, errno E (- ENOENT)), t'))) /\
    match tbl !! (masked net p, p) with
    | Some h => IsRulePresent6 E net (CIDRMask p 16) old t' = Some ((true, None, h), t')
    | None => exists x, IsRulePresent6 E net (CIDRMask p 16) old t' = Some ((false, None, x), t')
    end.
Proof.
  destruct (requests_keep E 16 (fun l => l) (fun l => l) (eq_refl : Z.of_nat 128 = 8 * Z.of_nat 16) (fun _ _ _ _ => eq_refl) (fun _ _ _ _ Eq => Eq)
    (request6 E) (request6_add E) (request6_del E) (fun _ => eq_refl) reqs t ∅ Hr) as (answers & t' & R & D & K); [by apply keeps_empty|].
  exists answers, t'. split; [done|]. split; [done|]. intros tbl. fold (routes (fun l => l) reqs answers) tbl in K. split.
  - destruct (keeps_route 16 (fun l => l) (eq_refl : Z.of_nat 128 = 8 * Z.of_nat 16) (fun _ _ _ _ => eq_refl) t' tbl ip K Hi) as [Hit Miss].
    pose proof (best_route tbl 128 ip) as B. unfold Lookup6. rewrite (proj2 (Nat.leb_le _ _)) by (destruct Hi; lia).
    rewrite firstn_all2 by (destruct Hi; lia). destruct (best masked tbl ip 128) as [h|].
    + left. exists h. assert (Rt : route tbl ip h) by (apply B; intros l q S; by destruct (kp_nets _ _ _ _ K l q S) as (_ & ? & ?)).
      split; [done|]. unfold bind, gets, ret. by rewrite (Hit h Rt).
    + right. assert (Nr : no_route tbl ip) by (apply B; intros l q S; by destruct (kp_nets _ _ _ _ K l q S) as (_ & ? & ?)).
      split; [done|]. unfold bind, gets, ret. specialize (Miss Nr). destruct (rte_lpm_lookup ip t') as [rc res].
      cbn [fst] in Miss. subst rc. eauto.
  - pose proof (keeps_present 16 (fun l => l) (eq_refl : Z.of_nat 128 = 8 * Z.of_nat 16) (fun _ _ _ _ => eq_refl) t' tbl net p K Hn Hp) as P.
    unfold IsRulePresent6. rewrite cvtIPv6Net_addr by (done || lia). unfold bind, lift, gets, ret. destruct (tbl !! (masked net p, p)) as [h|].
    + by rewrite P.
    + destruct (rte_lpm_is_rule_present (masked net p) p t') as [rc res]. cbn [fst] in P. subst rc. eauto.
Qed.

(** ** A sample

    A table for two rules. *)

Definition in_depth (d : Z) : bool := (1 <=? d) && (d <=? 32).
#[local] Instance sample_lpm : RteLpm Z (gmap (Z * Z) Z) := {
  rte_lpm_add k d h t :=
    if negb (in_depth d) then (-22, t)
    else if (size t <? 2)%nat || bool_decide (is_Some (t !! (mask32 k d, d))) then (0, <[(mask32 k d, d) := h]> t) else (-28, t);
  rte_lpm_delete k d t :=
    if in_depth d && bool_decide (is_Some (t !! (mask32 k d, d))) then (0, delete (mask32 k d, d) t) else (-22, t);
  rte_lpm_lookup k t := match best mask32 t k 32 with Some h => (0, Some h) | None => (-2, Some 77) end;
  rte_lpm_is_rule_present k d t := match t !! (mask32 k d, d) with Some h => (1, Some h) | None => (0, None) end;
  rte_lpm_delete_all _ := ∅
}.

Lemma in_depth_spec d : in_depth d = true <-> 1 <= d <= Z.of_nat 32.
Proof. unfold in_depth. rewrite andb_true_iff, Z.leb_le, Z.leb_le. lia. Qed.

#[local] Instance sample_laws : RteLpmLaws Z (gmap (Z * Z) Z) 32 mask32 16777216 2.
Proof.
  refine {| rules t := t |}.
  - intros k d h t Hd Hh. apply in_depth_spec in Hd. cbn. rewrite Hd. cbn [negb]. destruct (_ || _); [by left|right; by split; [cbn; lia|]].
  - intros k d h t Hd. rewrite <- in_depth_spec in Hd. cbn. destruct (in_depth d); [done|]. by split; [cbn; lia|].
  - intros k d t Hd. cbn. destruct (in_depth d && _); [by left|right; by split; [cbn; lia|]].
  - intros k d t Hd. rewrite <- in_depth_spec in Hd. cbn. destruct (in_depth d); [done|]. by split; [cbn; lia|].
  - done.
  - intros k h t B. cbn [rte_lpm_lookup sample_lpm]. by rewrite B.
  - intros k t B. cbn [rte_lpm_lookup sample_lpm]. by rewrite B.
  - intros k d h t _ L. cbn [rte_lpm_is_rule_present sample_lpm]. by rewrite L.
  - intros k d t _ L. cbn [rte_lpm_is_rule_present sample_lpm]. by rewrite L.
Defined.

Definition sample_requests : list request :=
  [AddNet [10; 0; 0; 0] 8 1; AddNet (v4InV6Prefix ++ [10; 1; 2; 3]) 16 2; AddNet [0; 0; 0; 0] 0 3; AddNet [10; 1; 2; 0] 24 4; DelNet [10; 9; 9; 9] 8].

(** The rule for 10.1.2.0/24 finds no room, the one for 10.0.0.0/8 is deleted by
    another address of the network. *)
Lemma LPM_routes_witness :
  let E := mkRteNumbers 1002 1001 1003 1000 in
  exists t', mapM_ (request4 E) sample_requests (∅ : gmap (Z * Z) Z) =
      Some ([None; None; Some (Errno 22); Some (Errno 28); None], t') /\
    Lookup E [10; 1; 2; 9] t' = Some ((2, None), t') /\
    IsRulePresent E [10; 1; 77; 77] (CIDRMask 16 4) 5 t' = Some ((true, None, 2), t').
Proof.
  intros E. assert (B : forall a b c d, 0 <= a < 256 -> 0 <= b < 256 -> 0 <= c < 256 -> 0 <= d < 256 -> addr 4 [a; b; c; d])
    by (intros; split; [repeat constructor; unfold byte_ok; lia|done]).
  destruct (LPM_routes E sample_requests (∅ : gmap (Z * Z) Z) [10; 1; 2; 9] [10; 1; 77; 77] 16 5) as (answers & t' & R & _ & L & I).
  - repeat constructor; cbn; try lia; apply B; lia.
  - done.
  - apply B; lia.
  - apply B; lia.
  - lia.
  - assert (A : answers = [None; None; Some (Errno 22); Some (Errno 28); None]).
    { assert (O : fst <$> mapM_ (request4 E) sample_requests (∅ : gmap (Z * Z) Z) = Some [None; None; Some (Errno 22); Some (Errno 28); None])
        by (vm_compute; reflexivity). rewrite R in O. by injection O. }
    subst answers. exists t'. split; [exact R|]. split.
    + destruct L as [(h & (net & q & Hn & C & _) & L)|(N & _)].
      * assert (O : fst <$> bind (mapM_ (request4 E) sample_requests) (fun _ => Lookup E [10; 1; 2; 9]) (∅ : gmap (Z * Z) Z) = Some (2, None))
          by (vm_compute; reflexivity).
        rewrite (bind_some _ _ _ _ _ R), L in O. injection O as ->. exact L.
      * exfalso. apply (N [10; 1; 0; 0] 16); [by exists 2|done].
    + exact I.
Defined.
