(* ===== verification/Acl.v ===== *)
(** * Access control lists

    [src/acl/acl.go] and [src/table/acl_params.go]: the rules and fields of an
    access control list as the bytes DPDK reads. The layout of the C structures
    and the functions of [librte_acl] are arguments; a panic is [None]. *)

From Stdlib Require Import ZArith Lia.
From stdpp Require Import base list numbers option.
From S2P Require Import Prelude Errno.

Open Scope Z_scope.

(** A value of type [any], where the code looks for unsigned integers. *)
Inductive any := U8 (v : Z) | U16 (v : Z) | U32 (v : Z) | U64 (v : Z) | Other.

(* go: acl/acl.go FieldDef *)
Record FieldDef := mkFieldDef { Type_ : Z; Size : Z; FieldIndex : Z; InputIndex : Z; Offset : Z }.
(* go: acl/acl.go Config *)
Record Config := mkConfig { Categories : Z; Defs : list FieldDef; MaxSize : Z }.
(* go: acl/acl.go Field *)
Record Field := mkField { Value : any; MaskRange : any }.
(* go: acl/acl.go RuleData *)
Record RuleData := mkRuleData { CategoryMask : Z; Priority : Z; Userdata : Z }.
(* go: acl/acl.go Rule *)
Record Rule := mkRule { Data : RuleData; Fields : list Field }.

(** ** Bytes of a structure *)

(** Assignment of bytes at an offset; [None] is outside of the memory. *)
Definition set_bytes (off : nat) (bs b : list Z) : option (list Z) :=
  if (off + length bs <=? length b)%nat then Some (take off b ++ bs ++ drop (off + length bs) b) else None.
Definition get_bytes (off n : nat) (b : list Z) : list Z := take n (drop off b).

(** The bytes an assignment through the pointer writes. *)
(* go: acl/acl.go setUint *)
Definition setUint (v : any) : option (list Z) :=
  match v with
  | U8 v => Some (le_bytes 1 v)
  | U16 v => Some (le_bytes 2 v)
  | U32 v => Some (le_bytes 4 v)
  | U64 v => Some (le_bytes 8 v)
  | Other => None
  end.

(** [rte_acl_field]: two unions of eight bytes. *)
Definition sizeof_field : nat := 16.

(** Both values in a zero structure. *)
Definition field_bytes (value mask_range : list Z) : option (list Z) :=
  match set_bytes 0 value (replicate sizeof_field 0) with
  | None => None
  | Some b => set_bytes 8 mask_range b
  end.
(* go: acl/acl.go Field.field *)
Definition field (f : Field) : option (list Z) :=
  match setUint (Value f), setUint (MaskRange f) with
  | Some v, Some m => field_bytes v m
  | _, _ => None
  end.

(* go: table/acl_params.go NewACLField8 *)
Definition NewACLField8 (value maskRange : Z) : option (list Z) := field_bytes (le_bytes 1 value) (le_bytes 1 maskRange).
(* go: table/acl_params.go NewACLField16 *)
Definition NewACLField16 (value maskRange : Z) : option (list Z) := field_bytes (le_bytes 2 value) (le_bytes 2 maskRange).
(* go: table/acl_params.go NewACLField32 *)
Definition NewACLField32 (value maskRange : Z) : option (list Z) := field_bytes (le_bytes 4 value) (le_bytes 4 maskRange).
(* go: table/acl_params.go NewACLField64 *)
Definition NewACLField64 (value maskRange : Z) : option (list Z) := field_bytes (le_bytes 8 value) (le_bytes 8 maskRange).

(** [rte_acl_rule_data], the fields behind it, and [RTE_ACL_RULE_SZ], a [size_t]. *)
Record RuleLayout := mkRuleLayout {
  CATEGORY_MASK : nat; PRIORITY : nat; USERDATA : nat; FIELD : nat; rule_sz : Z -> Z; MAX_FIELDS : nat
}.

Section ACL.
Variable L : RuleLayout.
Variable E : rte_numbers.

(* go: acl/acl.go 11-15 get_rule_size *)
Definition get_rule_size (n_defs : Z) : Z := rule_sz L n_defs.
(* go: acl/acl.go RuleSize *)
Definition RuleSize (numDefs : Z) : Z := u32 (get_rule_size (i32 numDefs)).

(** Assign each of the bytes at its offset, in order. *)
Fixpoint set_all (ws : list (nat * list Z)) (b : list Z) : option (list Z) :=
  match ws with
  | [] => Some b
  | (off, bs) :: ws => match set_bytes off bs b with None => None | Some b => set_all ws b end
  end.

Definition data_writes (d : RuleData) : list (nat * list Z) :=
  [(CATEGORY_MASK L, le_bytes 4 (CategoryMask d)); (PRIORITY L, le_bytes 4 (u32 (Priority d))); (USERDATA L, le_bytes 4 (Userdata d))].

(** The loop over [ruleFields], from index [j]: an index past the rule's own
    fields panics. *)
Fixpoint field_writes (fieldsNum j : nat) (fs : list Field) : option (list (nat * list Z)) :=
  match fieldsNum with
  | O => Some []
  | S k =>
      match fs with
      | [] => None
      | f :: fs =>
          match field f, field_writes k (S j) fs with
          | Some b, Some ws => Some ((FIELD L + sizeof_field * j, b)%nat :: ws)
          | _, _ => None
          end
      end
  end.

(** One rule in its part of [rules], which is zero before. *)
Definition rule_bytes (fieldsNum : nat) (r : Rule) : option (list Z) :=
  match field_writes fieldsNum 0 (Fields r) with
  | None => None
  | Some ws => set_all (data_writes (Data r) ++ ws) (replicate (Z.to_nat (RuleSize (Z.of_nat fieldsNum))) 0)
  end.

Fixpoint all_rules (fieldsNum : nat) (input : list Rule) : option (list (list Z)) :=
  match input with
  | [] => Some []
  | r :: input =>
      match rule_bytes fieldsNum r, all_rules fieldsNum input with
      | Some b, Some bs => Some (b :: bs)
      | _, _ => None
      end
  end.

(** [rte_acl_add_rules] on the bytes and the number of the rules. *)
(* go: acl/acl.go Context.AddRules *)
Definition AddRules (rte_acl_add_rules : list Z -> Z -> Z) (input : list Rule) : option (option go_error) :=
  match input with
  | [] => None
  | r0 :: _ =>
      match all_rules (length (Fields r0)) input with
      | None => None
      | Some bs => Some (IntErr E (rte_acl_add_rules (concat bs) (u32 (Z.of_nat (length input)))))
      end
  end.

(** [rte_acl_config], with the definitions its array starts with; [inr] is the
    error of too many. The number is 32 bits wide, the copy panics behind the
    array. *)
(* go: acl/acl.go Context.Build *)
Definition Build (rte_acl_build : Z -> Z -> list FieldDef -> Z) (cfg : Config) : option (option go_error + nat) :=
  if (MAX_FIELDS L <? Z.to_nat (u32 (Z.of_nat (length (Defs cfg)))))%nat then Some (inr (length (Defs cfg)))
  else if (MAX_FIELDS L <? length (Defs cfg))%nat then None
  else Some (inl (IntErr E (rte_acl_build (Categories cfg) (MaxSize cfg) (Defs cfg)))).

(** A pointer, or the error of [rte_errno]; [nil] is [0]. *)
Definition context_or_errno (r : Z * Z) : Z * option go_error :=
  let '(ctx, errno_) := r in if negb (ctx =? 0) then (ctx, None) else (0, RteErrno E errno_).
(* go: acl/acl.go Param *)
Record Param := mkParam { Name : list Z; SocketID : Z; pm_RuleSize : Z; MaxRuleNum : Z }.
(** The arguments are the fields of [rte_acl_param]. *)
(* go: acl/acl.go Create *)
Definition Create (rte_acl_create : list Z -> Z -> Z -> Z -> Z * Z) (p : Param) : Z * option go_error :=
  context_or_errno (rte_acl_create (c_str (Name p)) (i32 (SocketID p)) (pm_RuleSize p) (MaxRuleNum p)).
(* go: acl/acl.go FindExisting *)
Definition FindExisting (rte_acl_find_existing : list Z -> Z * Z) (name : list Z) : Z * option go_error :=
  context_or_errno (rte_acl_find_existing (c_str name)).
(** [&data[0]] and [&results[0]] panic for empty slices; the results come back
    in the memory of the slice. *)
(* go: acl/acl.go Context.Classify *)
Definition Classify (rte_acl_classify : list Z -> list Z -> Z -> Z -> Z * list Z) (data results : list Z) (categories : Z) :
  option (option go_error * list Z) :=
  match data, results with
  | [], _ | _, [] => None
  | _, _ => let '(rc, res) := rte_acl_classify data results (u32 (Z.of_nat (length data))) categories in Some (IntErr E rc, res)
  end.
(** What these three do to the contexts is in DPDK. *)
(* go: acl/acl.go Context.Free *)
Definition Context_Free {S} (rte_acl_free : Z -> S -> S) (ctx : Z) : M S unit := modify (rte_acl_free ctx).
(* go: acl/acl.go Context.Reset *)
Definition Context_Reset {S} (rte_acl_reset : Z -> S -> S) (ctx : Z) : M S unit := modify (rte_acl_reset ctx).
(* go: acl/acl.go Context.ResetRules *)
Definition ResetRules {S} (rte_acl_reset_rules : Z -> S -> S) (ctx : Z) : M S unit := modify (rte_acl_reset_rules ctx).
End ACL.
