(* ===== verification/AclSpec.v ===== *)
(** * Access control lists: theorems

    The bytes [AddRules] passes on read back as the rules. *)

From Stdlib Require Import ZArith Lia.
From stdpp Require Import base list numbers option.
From S2P Require Import Prelude Errno Acl.

Open Scope Z_scope.

(** ** Assignments at ascending offsets *)

Lemma get_bytes_get a n o m b : (a + n <= m)%nat -> get_bytes a n (get_bytes o m b) = get_bytes (o + a) n b.
Proof.
  intros H. unfold get_bytes. apply list_eq. intros i. rewrite !lookup_take. case_decide; [|done].
  rewrite !lookup_drop, lookup_take. rewrite decide_True by lia. rewrite lookup_drop. f_equal. lia.
Qed.

Lemma bytes_set_ok off bs b : (off + length bs <= length b)%nat ->
  exists b', set_bytes off bs b = Some b' /\ length b' = length b /\ get_bytes off (length bs) b' = bs /\
    forall o n, (o + n <= off)%nat \/ (off + length bs <= o)%nat -> get_bytes o n b' = get_bytes o n b.
Proof.
  intros H. unfold set_bytes. rewrite (proj2 (Nat.leb_le _ _) H). eexists. split; [done|]. split; [|split].
  - rewrite !length_app, length_take, length_drop. lia.
  - unfold get_bytes. rewrite drop_app_length' by (rewrite length_take; lia). by rewrite take_app_length.
  - intros o n D. unfold get_bytes. apply list_eq. intros i. rewrite !lookup_take. case_decide; [|done].
    rewrite !lookup_drop. destruct D.
    + rewrite lookup_app_l by (rewrite length_take; lia). rewrite lookup_take, decide_True by lia. done.
    + rewrite lookup_app_r by (rewrite length_take; lia). rewrite length_take, Nat.min_l by lia.
      rewrite lookup_app_r by lia. rewrite lookup_drop. f_equal. lia.
Qed.

(** Assignments within [lo] and [hi], none before the end of the one before. *)
Fixpoint ascending (lo : nat) (ws : list (nat * list Z)) (hi : nat) : Prop :=
  match ws with
  | [] => (lo <= hi)%nat
  | (off, bs) :: ws => (lo <= off)%nat /\ ascending (off + length bs) ws hi
  end.

Lemma ascending_le ws : forall lo hi, ascending lo ws hi -> (lo <= hi)%nat.
Proof. induction ws as [|[off bs] ws IH]; intros lo hi H; [done|]. destruct H as [A B]. apply IH in B. lia. Qed.

Lemma ascending_app ws ws' : forall lo mid hi, ascending lo ws mid -> ascending mid ws' hi -> ascending lo (ws ++ ws') hi.
Proof.
  induction ws as [|[off bs] ws IH]; intros lo mid hi A B; simpl in *.
  - destruct ws' as [|[o b] ws']; simpl in *; [lia|]. destruct B. split; [lia|done].
  - destruct A. split; [done|]. by eapply IH.
Qed.

Lemma set_all_ok ws : forall lo hi b, ascending lo ws hi -> (hi <= length b)%nat ->
  exists b', set_all ws b = Some b' /\ length b' = length b /\
    (forall off bs, (off, bs) ∈ ws -> get_bytes off (length bs) b' = bs) /\
    (forall o n, (o + n <= lo)%nat -> get_bytes o n b' = get_bytes o n b).
Proof.
  induction ws as [|[off bs] ws IH]; intros lo hi b A H; simpl.
  - exists b. split; [done|]. split; [done|]. split; [|done]. intros off bs Hx. by apply elem_of_nil in Hx.
  - destruct A as [A1 A2]. pose proof (ascending_le _ _ _ A2).
    destruct (bytes_set_ok off bs b) as (b1 & E1 & L1 & G1 & K1); [lia|]. rewrite E1.
    destruct (IH (off + length bs)%nat hi b1 A2) as (b2 & E2 & L2 & G2 & K2); [lia|].
    exists b2. split; [done|]. split; [by rewrite L2|]. split.
    + intros o x Hx. apply elem_of_cons in Hx as [[= -> ->]|Hx]; [by rewrite K2 by lia|by apply G2].
    + intros o n Hn. rewrite K2 by lia. apply K1. lia.
Qed.

(** ** Fields *)

(** An unsigned value in its range. *)
Definition any_val (v : any) : Z := match v with U8 v | U16 v | U32 v | U64 v => v | Other => 0 end.
Definition any_ok (v : any) : bool :=
  match v with
  | U8 v => (0 <=? v) && (v <? 2 ^ 8)
  | U16 v => (0 <=? v) && (v <? 2 ^ 16)
  | U32 v => (0 <=? v) && (v <? 2 ^ 32)
  | U64 v => (0 <=? v) && (v <? 2 ^ 64)
  | Other => false
  end.

Lemma le_val_zeros l n : le_val (l ++ replicate n 0) = le_val l.
Proof.
  induction l as [|b l IH]; simpl; [|by rewrite IH]. induction n as [|n IH]; [done|]. cbn [replicate le_val]. rewrite IH. lia.
Qed.

Lemma setUint_ok v : any_ok v = true -> exists bs, setUint v = Some bs /\ (length bs <= 8)%nat /\ le_val bs = any_val v.
Proof.
  destruct v as [v|v|v|v|]; cbn [any_ok any_val setUint]; intros H; try done; apply andb_prop in H as [A%Z.leb_le B%Z.ltb_lt];
    eexists; (split; [reflexivity|]); rewrite length_le_bytes, le_val_bytes; (split; [lia|]); by apply Z.mod_small.
Qed.

Lemma field_bytes_ok v m : (length v <= 8)%nat -> (length m <= 8)%nat ->
  exists b, field_bytes v m = Some b /\ length b = sizeof_field /\
    get_bytes 0 8 b = v ++ replicate (8 - length v) 0 /\ get_bytes 8 8 b = m ++ replicate (8 - length m) 0.
Proof.
  intros Hv Hm. unfold field_bytes.
  assert (E1 : set_bytes 0 v (replicate sizeof_field 0) = Some (v ++ replicate (16 - length v) 0)).
  { unfold set_bytes. rewrite length_replicate. rewrite (proj2 (Nat.leb_le _ _)) by (unfold sizeof_field; lia).
    simpl take. rewrite drop_replicate. done. }
  rewrite E1. replace (16 - length v)%nat with ((8 - length v) + 8)%nat by lia. rewrite replicate_add, app_assoc.
  set (v8 := v ++ replicate (8 - length v) 0).
  assert (L : length v8 = 8%nat) by (unfold v8; rewrite length_app, length_replicate; lia).
  exists (v8 ++ m ++ replicate (8 - length m) 0). split; [|split; [|split]].
  - unfold set_bytes. rewrite length_app, L, length_replicate. rewrite (proj2 (Nat.leb_le _ _)) by lia. f_equal.
    rewrite take_app_length' by done. rewrite drop_app_ge by lia. rewrite L, drop_replicate. do 3 f_equal. lia.
  - rewrite !length_app, L, length_replicate. unfold sizeof_field. lia.
  - unfold get_bytes. rewrite drop_0. by rewrite take_app_length'.
  - unfold get_bytes. rewrite drop_app_length' by done. apply firstn_all2. rewrite length_app, length_replicate. lia.
Qed.

Lemma field_ok f : any_ok (Value f) = true -> any_ok (MaskRange f) = true ->
  exists b, field f = Some b /\ length b = sizeof_field /\
    le_val (get_bytes 0 8 b) = any_val (Value f) /\ le_val (get_bytes 8 8 b) = any_val (MaskRange f).
Proof.
  intros Hv Hm. destruct (setUint_ok _ Hv) as (v & Ev & Lv & Vv), (setUint_ok _ Hm) as (m & Em & Lm & Vm).
  destruct (field_bytes_ok v m Lv Lm) as (b & E & L & G0 & G8). exists b. unfold field. rewrite Ev, Em. split; [done|].
  split; [done|]. by rewrite G0, G8, !le_val_zeros.
Qed.

(** ** Rules *)

Section Rules.
Context (L : RuleLayout).

(** The fields of [rte_acl_rule_data] in order before the fields of the rule, and
    room for those; the size of a rule of fewer than [2^27] fields has 32 bits. *)
Definition layout_ok : Prop :=
  (CATEGORY_MASK L + 4 <= PRIORITY L)%nat /\ (PRIORITY L + 4 <= USERDATA L)%nat /\ (USERDATA L + 4 <= FIELD L)%nat /\
  forall n, 0 <= n < 2 ^ 27 -> Z.of_nat (FIELD L) + Z.of_nat sizeof_field * n <= rule_sz L n < 2 ^ 32.

Lemma RuleSize_ok n : layout_ok -> Z.of_nat n < 2 ^ 27 ->
  RuleSize L (Z.of_nat n) = rule_sz L (Z.of_nat n) /\ (FIELD L + sizeof_field * n <= Z.to_nat (rule_sz L (Z.of_nat n)))%nat.
Proof.
  intros (_ & _ & _ & R) H. specialize (R (Z.of_nat n) ltac:(lia)). unfold RuleSize, get_rule_size.
  assert (Ei : i32 (Z.of_nat n) = Z.of_nat n) by (unfold i32; zlia). rewrite Ei, u32_small by lia. split; [done|]. lia.
Qed.

(** A rule with at least [n] fields, the first [n] of them with values. *)
Definition rule_ok (n : nat) (r : Rule) : Prop :=
  (n <= length (Fields r))%nat /\ Forall (fun f => any_ok (Value f) && any_ok (MaskRange f) = true) (take n (Fields r)).

Lemma field_writes_ok n : forall j fs, (n <= length fs)%nat ->
  Forall (fun f => any_ok (Value f) && any_ok (MaskRange f) = true) (take n fs) ->
  exists ws, field_writes L n j fs = Some ws /\
    ascending (FIELD L + sizeof_field * j) ws (FIELD L + sizeof_field * (j + n)) /\
    forall k f, (k < n)%nat -> fs !! k = Some f -> exists b, (FIELD L + sizeof_field * (j + k), b)%nat ∈ ws /\
      length b = sizeof_field /\
      le_val (get_bytes 0 8 b) = any_val (Value f) /\ le_val (get_bytes 8 8 b) = any_val (MaskRange f).
Proof.
  induction n as [|n IH]; intros j fs Hl Hf; cbn [field_writes].
  - exists []. split; [done|]. split; [simpl; lia|intros; lia].
  - destruct fs as [|f fs]; [simpl in Hl; lia|]. cbn [take] in Hf. apply Forall_cons_1 in Hf as [Hvm Hf]. apply andb_prop in Hvm as [Hv Hm].
    destruct (field_ok f Hv Hm) as (b & E & Lb & V & Mk). rewrite E.
    destruct (IH (S j) fs) as (ws & Ew & A & G); [simpl in Hl; lia|done|]. rewrite Ew.
    exists ((FIELD L + sizeof_field * j, b)%nat :: ws). split; [done|]. split.
    + cbn [ascending]. split; [lia|]. rewrite Lb.
      replace (FIELD L + sizeof_field * j + sizeof_field)%nat with (FIELD L + sizeof_field * S j)%nat by lia.
      rewrite <- Nat.add_succ_comm. exact A.
    + intros [|k] g Hk Hg.
      * injection Hg as <-. exists b. rewrite Nat.add_0_r. split; [by left|done].
      * destruct (G k g) as (b' & I & R); [lia|done|]. exists b'. split; [|done]. right.
        by replace (j + S k)%nat with (S j + k)%nat by lia.
Qed.

Lemma field_writes_none n : forall j fs, field_writes L n j fs <> None -> (n <= length fs)%nat.
Proof.
  induction n as [|n IH]; intros j fs H; [lia|]. destruct fs as [|f fs]; [done|]. cbn [field_writes] in H.
  destruct (field f); [|done]. destruct (field_writes L n (S j) fs) eqn:E; [|done]. simpl.
  enough (n <= length fs)%nat by lia. apply (IH (S j)). by rewrite E.
Qed.

(** What DPDK reads from the bytes of a rule. *)
Definition reads (n : nat) (r : Rule) (b : list Z) : Prop :=
  length b = Z.to_nat (rule_sz L (Z.of_nat n)) /\
  le_val (get_bytes (CATEGORY_MASK L) 4 b) = CategoryMask (Data r) /\
  le_val (get_bytes (PRIORITY L) 4 b) = u32 (Priority (Data r)) /\
  le_val (get_bytes (USERDATA L) 4 b) = Userdata (Data r) /\
  forall j f, (j < n)%nat -> Fields r !! j = Some f ->
    le_val (get_bytes (FIELD L + sizeof_field * j) 8 b) = any_val (Value f) /\
    le_val (get_bytes (FIELD L + sizeof_field * j + 8) 8 b) = any_val (MaskRange f).

Definition data_range (d : RuleData) : Prop := 0 <= CategoryMask d < 2 ^ 32 /\ 0 <= Userdata d < 2 ^ 32.

Lemma rule_bytes_ok n r : layout_ok -> Z.of_nat n < 2 ^ 27 -> rule_ok n r -> data_range (Data r) -> exists b, rule_bytes L n r = Some b /\ reads n r b.
Proof.
  intros Lo Hn [Hl Hf] [R1 R2]. destruct (RuleSize_ok n Lo Hn) as [Rs A4]. destruct Lo as (A1 & A2 & A3 & _). destruct (field_writes_ok n 0 (Fields r) Hl Hf) as (ws & E & Aw & G).
  rewrite Nat.mul_0_r, Nat.add_0_r, Nat.add_0_l in Aw.
  destruct (set_all_ok (data_writes L (Data r) ++ ws) (CATEGORY_MASK L) (FIELD L + sizeof_field * n) (replicate (Z.to_nat (rule_sz L (Z.of_nat n))) 0))
    as (b & Es & Lb & Gb & _).
  { apply ascending_app with (mid := FIELD L); [|done]. unfold data_writes. cbn [ascending]. rewrite !length_le_bytes. lia. }
  { rewrite length_replicate. done. }
  exists b. unfold rule_bytes. rewrite E, Rs. split; [done|].
  assert (D : forall off v, (off, le_bytes 4 v) ∈ data_writes L (Data r) -> 0 <= v < 2 ^ 32 -> le_val (get_bytes off 4 b) = v).
  { intros off v I Hv. specialize (Gb off (le_bytes 4 v)). rewrite length_le_bytes in Gb.
    rewrite Gb by (apply elem_of_app; by left). rewrite le_val_bytes. by apply Z.mod_small. }
  split; [by rewrite Lb, length_replicate|]. split; [|split; [|split]].
  - apply D; [by left|done].
  - apply D; [right; by left|apply u32_range].
  - apply D; [right; right; by left|done].
  - intros j f Hj Hf'. destruct (G j f Hj Hf') as (c & I & Lc & V & Mk). rewrite Nat.add_0_l in I.
    pose proof (Gb _ c (proj2 (elem_of_app _ _ _) (or_intror I))) as Gc. rewrite Lc in Gc.
    split; [rewrite <- V|rewrite <- Mk]; rewrite <- Gc, get_bytes_get by (unfold sizeof_field; lia); by rewrite ?Nat.add_0_r.
Qed.

(** C29. [AddRules] passes on one record per rule, in order, from which the data of
    the rule and, for as many fields as the first rule has, the value and the
    mask or range of each field are read back; further fields of a rule are
    dropped. Values and masks are of the unsigned types the package documents, and
    a rule has fewer than 2^27 fields, so that its size has 32 bits. It panics
    without rules and when a rule has fewer fields than the first. *)
Theorem AddRules_spec E add input r0 rest (Lo : layout_ok) (I : input = r0 :: rest) :
  let n := length (Fields r0) in
  (Z.of_nat n < 2 ^ 27 -> Forall (rule_ok n) input -> Forall (fun r => data_range (Data r)) input ->
   exists bs, AddRules L E add input = Some (IntErr E (add (concat bs) (u32 (Z.of_nat (length input))))) /\
     Forall2 (reads n) input bs) /\
  ((exists r, r ∈ input /\ (length (Fields r) < n)%nat) -> AddRules L E add input = None) /\
  AddRules L E add [] = None.
Proof.
  intros n. split_and!; [| |done].
  - intros Hn Ok Da. assert (A : exists bs, all_rules L n input = Some bs /\ Forall2 (reads n) input bs).
    { clear I. induction Ok as [|r l Hr Ok IH]; [exists []; split; [done|constructor]|].
      apply Forall_cons_1 in Da as [Hd Da]. destruct (rule_bytes_ok n r Lo Hn Hr Hd) as (b & Eb & Rb).
      destruct (IH Da) as (bs & Ebs & Rbs). exists (b :: bs). cbn [all_rules]. rewrite Eb, Ebs. split; [done|by constructor]. }
    destruct A as (bs & Eb & R). exists bs. split; [|done]. subst input. unfold AddRules. fold n. by rewrite Eb.
  - intros (r & Hr & Hn). assert (A : all_rules L n input = None).
    { clear I. induction input as [|r' l IH]; [by apply elem_of_nil in Hr|]. cbn [all_rules].
      apply elem_of_cons in Hr as [->|Hr].
      - destruct (rule_bytes L n r') eqn:B; [exfalso|done]. unfold rule_bytes in B.
        destruct (field_writes L n 0 (Fields r')) eqn:F; [|done].
        assert (n <= length (Fields r'))%nat; [apply (field_writes_none n 0); by rewrite F|lia].
      - rewrite IH by done. by destruct (rule_bytes L n r'). }
    subst input. unfold AddRules. fold n. by rewrite A.
Qed.
End Rules.

Definition sample_layout : RuleLayout := mkRuleLayout 0 4 8 16 (fun n => 16 + 16 * n) 64.

Lemma AddRules_spec_witness :
  let f v m := mkField (U16 v) (U64 m) in
  let r1 := mkRule (mkRuleData 1 (-2) 7) [f 0x1234 5] in
  let r2 := mkRule (mkRuleData 1 3 8) [f 2 6; f 3 9] in
  let E := mkRteNumbers 1002 1001 1003 1000 in
  AddRules sample_layout E (fun bs n => - le_val (get_bytes 48 2 bs)) [r1; r2] = Some (Some (Errno 2)) /\
  (exists bs, Forall2 (reads sample_layout 1) [r1; r2] bs) /\
  AddRules sample_layout E (fun _ _ => 0) [r2; r1] = None.
Proof.
  intros f r1 r2 E. assert (Lo : layout_ok sample_layout).
  { unfold layout_ok, sizeof_field. simpl. split; [lia|]. split; [lia|]. split; [lia|]. intros n. lia. }
  split; [vm_compute; reflexivity|]. split.
  - destruct (AddRules_spec sample_layout E (fun _ _ => 0) [r1; r2] r1 [r2] Lo eq_refl) as [H _].
    destruct H as (bs & _ & R); [simpl; lia| | |by exists bs].
    + repeat constructor; simpl; lia.
    + repeat constructor; simpl; lia.
  - destruct (AddRules_spec sample_layout E (fun _ _ => 0) [r2; r1] r2 [r1] Lo eq_refl) as (_ & H & _).
    apply H. exists r1. split; [right; by left|exact (Nat.lt_succ_diag_r 1)].
Defined.
