(* ===== verification/Ring.v ===== *)
(** * Rings

    [src/ring/]: options, creation and the twelve ways to put objects into a ring
    and to take them out. The ring itself is DPDK's: an interface, [RteRing], with
    one function per variant; its laws are in [RingSpec]. *)

From Stdlib Require Import ZArith Lia.
From stdpp Require Import base list numbers option gmap.
From S2P Require Import Prelude Errno Framework.

Open Scope Z_scope.

(** ** Options *)

(** [cname] is the C string's address. *)
(* go: ring/ring.go ringConf *)
Record ringConf := mkRingConf { cname : Z; socket : Z; align : Z; flags : Z }.
(* go: ring/ring.go Option *)
Definition Option : Type := ringConf -> ringConf.

(* go: ring/ring.go OptAlign *)
Definition OptAlign (a : Z) : Option := fun rc => mkRingConf (cname rc) (socket rc) (u32 a) (flags rc).
(* go: ring/ring.go OptSocket *)
Definition OptSocket (s : Z) : Option := fun rc => mkRingConf (cname rc) (i32 s) (align rc) (flags rc).
(* go: ring/ring.go OptFlag *)
Definition OptFlag (flag : Z) : Option := fun rc => mkRingConf (cname rc) (socket rc) (align rc) (Z.lor (flags rc) (u32 flag)).

(** [SOCKET_ID_ANY] is [-1]; the finalizer that frees the name is not modelled. *)
(* go: ring/ring.go makeOpts *)
Definition makeOpts (cname : Z) (opts : list Option) : ringConf := foldl (fun rc o => o rc) (mkRingConf cname (-1) 0 0) opts.

(** ** Creation *)

Section Creation.
Variable E : rte_numbers.
Variable ENOMEM : Z.

(** A pointer, [0] being NULL, or the error of [rte_errno]. *)
Definition pointer_or_errno (r errno_ : Z) : Z * option go_error := if r =? 0 then (0, RteErrno E errno_) else (r, None).

(* go: ring/ring.go Create *)
Definition Create (rte_ring_create : Z -> Z -> Z -> Z -> Z * Z) (cname count : Z) (opts : list Option) : Z * option go_error :=
  let rc := makeOpts cname opts in
  let '(r, errno_) := rte_ring_create cname (u32 count) (socket rc) (flags rc) in pointer_or_errno r errno_.

(* go: ring/ring.go Ring.Init *)
Definition Init (rte_ring_init : Z -> Z -> Z -> Z -> Z) (r cname count : Z) (opts : list Option) : option go_error :=
  let rc := makeOpts cname opts in errno E (rte_ring_init r cname (u32 count) (flags rc)).

(* go: ring/ring.go GetMemSize *)
Definition GetMemSize (rte_ring_get_memsize : Z -> Z) (count : Z) : option (Z * option go_error) :=
  IntOrErr E (Some (rte_ring_get_memsize (u32 count))).

(* go: ring/ring.go Lookup *)
Definition Lookup (rte_ring_lookup : Z -> Z * Z) (cname : Z) : Z * option go_error :=
  let '(r, errno_) := rte_ring_lookup cname in pointer_or_errno r errno_.

(** EAL memory is the set of its blocks: [rte_zmalloc_socket(size, align, socket)]
    gives a new one or NULL; freeing what is not allocated is undefined. *)
Variable rte_zmalloc_socket : gset Z -> Z -> Z -> Z -> Z.

Definition rte_free (heap : gset Z) (p : Z) : option (gset Z) :=
  if p =? 0 then Some heap else if decide (p ∈ heap) then Some (heap ∖ {[p]}) else None.

(* go: ring/ring.go NewEAL *)
Definition NewEAL (rte_ring_get_memsize : Z -> Z) (rte_ring_init : Z -> Z -> Z -> Z -> Z)
    (heap : gset Z) (cname count : Z) (opts : list Option) : option ((Z * option go_error) * gset Z) :=
  match GetMemSize rte_ring_get_memsize count with
  | None => None
  | Some (size, err) =>
      match err with
      | Some e => Some ((0, Some e), heap)
      | None =>
          let rc := makeOpts cname opts in
          let r := rte_zmalloc_socket heap (u64 size) (align rc) (socket rc) in
          if r =? 0 then Some ((0, Some (Errno ENOMEM)), heap)
          else
            let heap := {[r]} ∪ heap in
            match Init rte_ring_init r cname count opts with
            | Some e => match rte_free heap r with None => None | Some heap => Some ((0, Some e), heap) end
            | None => Some ((r, None), heap)
            end
      end
  end.

(** In Go memory at [r], which the collector frees; a size of zero panics. *)
(* go: ring/ring.go New *)
Definition New (rte_ring_get_memsize : Z -> Z) (rte_ring_init : Z -> Z -> Z -> Z -> Z) (r cname count : Z) (opts : list Option) :
    option (Z * option go_error) :=
  match GetMemSize rte_ring_get_memsize count with
  | None => None
  | Some (_, Some e) => Some (0, Some e)
  | Some (size, None) => if size =? 0 then None else Some (r, Init rte_ring_init r cname count opts)
  end.

(* go: ring/ring.go Ring.Size *)
Definition Size (rte_ring_get_size : Z -> Z) (r : Z) : Z := rte_ring_get_size r.
(* go: ring/ring.go Ring.FreeCount *)
Definition FreeCount (rte_ring_free_count : Z -> Z) (r : Z) : Z := rte_ring_free_count r.
(* go: ring/ring.go Ring.IsFull *)
Definition IsFull (rte_ring_full : Z -> Z) (r : Z) : bool := negb (rte_ring_full r =? 0).
(* go: ring/ring.go Ring.IsEmpty *)
Definition IsEmpty (rte_ring_empty : Z -> Z) (r : Z) : bool := negb (rte_ring_empty r =? 0).

(** A ring with a memzone is freed by [rte_ring_free]; [r] may be nil. *)
(* go: ring/ring.go Ring.Free *)
Definition Ring_Free (memzone : Z -> Z) (rte_ring_free : Z -> gset Z -> option (gset Z)) (r : Z) (heap : gset Z) : option (gset Z) :=
  if negb (r =? 0) && negb (memzone r =? 0) then rte_ring_free r heap else rte_free heap r.
End Creation.

(** ** Objects

    The functions of [rte_ring.h] that put objects into a ring and take them out,
    by their names without [rte_ring_]. *)
Inductive enqueue_fn :=
  | mp_enqueue_bulk | sp_enqueue_bulk | enqueue_bulk | mp_enqueue_burst | sp_enqueue_burst | enqueue_burst.
Inductive dequeue_fn :=
  | mc_dequeue_bulk | sc_dequeue_bulk | dequeue_bulk | mc_dequeue_burst | sc_dequeue_burst | dequeue_burst.

(** The calls of other threads on the ring that are under way at some time of a
    call. *)
Inductive ring_fn := Enq (f : enqueue_fn) | Deq (f : dequeue_fn).
Definition under_way : Type := list ring_fn.

(** A call of such a function, with what is under way beside it, the objects (or
    the number of objects wanted) and the count given: what it returns, the number
    it stores through its last argument, the objects taken. *)
Class RteRing (R : Type) := {
  rte_ring_enqueue : enqueue_fn -> under_way -> R -> list Z -> Z -> (Z * Z) * R;
  rte_ring_dequeue : dequeue_fn -> under_way -> R -> Z -> ((Z * Z) * list Z) * R
}.

(* go: ring/ring.h 4-7 compound_int *)
Record compound_int := mkCompoundInt { ci_n : Z; ci_rc : Z }.

Section Objects.
Context {R : Type} `{RteRing R}.
Variable others : under_way.

(** The wrapper that the macro makes of a function. *)
(* go: ring/ring.h 11-18 GO_RING_FUNC *)
Definition GO_RING_FUNC_enqueue (func : enqueue_fn) (r : R) (objs : list Z) (n : Z) : compound_int * R :=
  let '((rc, out_n), r) := rte_ring_enqueue func others r objs n in (mkCompoundInt out_n rc, r).
(** The objects taken are stored from the start of the table on. *)
(* go: ring/ring.h 11-18 GO_RING_FUNC *)
Definition GO_RING_FUNC_dequeue (func : dequeue_fn) (r : R) (objs : list Z) (n : Z) : compound_int * list Z * R :=
  let '(((rc, out_n), got), r) := rte_ring_dequeue func others r n in
  (mkCompoundInt out_n rc, got ++ drop (length got) objs, r).

(** [&obj[0]] panics for an empty slice; the length is cut to [C.uint]. *)
(* go: ring/common.go args *)
Definition args (obj : list Z) : option (list Z * Z) :=
  match obj with [] => None | _ => Some (obj, u32 (Z.of_nat (length obj))) end.
(* go: ring/common.go ret *)
Definition ret (out : compound_int) : Z * Z := (u32 (ci_rc out), u32 (ci_n out)).

(** [ret(C.func(args(r, obj)))] *)
(* go: ring/enqueue.go Ring.MpEnqueueBulk *)
Definition enqueue (func : enqueue_fn) (r : R) (obj : list Z) : option ((Z * Z) * R) :=
  match args obj with
  | None => None
  | Some (objs, n) => let '(out, r) := GO_RING_FUNC_enqueue func r objs n in Some (ret out, r)
  end.
(** The slice after the call, the number of objects and the rest. *)
(* go: ring/dequeue.go Ring.McDequeueBulk *)
Definition dequeue (func : dequeue_fn) (r : R) (obj : list Z) : option ((list Z * (Z * Z)) * R) :=
  match args obj with
  | None => None
  | Some (objs, n) => let '(out, objs, r) := GO_RING_FUNC_dequeue func r objs n in Some ((objs, ret out), r)
  end.

(* go: ring/enqueue.go Ring.MpEnqueueBulk *)
Definition MpEnqueueBulk := enqueue mp_enqueue_bulk.
(* go: ring/enqueue.go Ring.SpEnqueueBulk *)
Definition SpEnqueueBulk := enqueue sp_enqueue_bulk.
(* go: ring/enqueue.go Ring.EnqueueBulk *)
Definition EnqueueBulk := enqueue enqueue_bulk.
(* go: ring/enqueue.go Ring.MpEnqueueBurst *)
Definition MpEnqueueBurst := enqueue mp_enqueue_burst.
(* go: ring/enqueue.go Ring.SpEnqueueBurst *)
Definition SpEnqueueBurst := enqueue sp_enqueue_burst.
(* go: ring/enqueue.go Ring.EnqueueBurst *)
Definition EnqueueBurst := enqueue enqueue_burst.
(* go: ring/dequeue.go Ring.McDequeueBulk *)
Definition McDequeueBulk := dequeue mc_dequeue_bulk.
(* go: ring/dequeue.go Ring.ScDequeueBulk *)
Definition ScDequeueBulk := dequeue sc_dequeue_bulk.
(* go: ring/dequeue.go Ring.DequeueBulk *)
Definition DequeueBulk := dequeue dequeue_bulk.
(* go: ring/dequeue.go Ring.McDequeueBurst *)
Definition McDequeueBurst := dequeue mc_dequeue_burst.
(* go: ring/dequeue.go Ring.ScDequeueBurst *)
Definition ScDequeueBurst := dequeue sc_dequeue_burst.
(* go: ring/dequeue.go Ring.DequeueBurst *)
Definition DequeueBurst := dequeue dequeue_burst.

(* go: ring/enqueue.go Ring.Enqueue *)
Definition one_in (bulk : R -> list Z -> option ((Z * Z) * R)) (r : R) (obj : Z) : option (bool * R) :=
  match bulk r [obj] with None => None | Some ((n, _), r) => Some (negb (n =? 0), r) end.
(** [objs[0]] and whether it was filled. *)
(* go: ring/dequeue.go Ring.Dequeue *)
Definition one_out (bulk : R -> list Z -> option ((list Z * (Z * Z)) * R)) (r : R) : option ((Z * bool) * R) :=
  match bulk r [0] with
  | None => None
  | Some ((objs, (n, _)), r) => match objs with [] => None | o :: _ => Some ((o, negb (n =? 0)), r) end
  end.

(* go: ring/enqueue.go Ring.Enqueue *)
Definition Enqueue := one_in EnqueueBulk.
(* go: ring/enqueue.go Ring.SpEnqueue *)
Definition SpEnqueue := one_in SpEnqueueBulk.
(* go: ring/enqueue.go Ring.MpEnqueue *)
Definition MpEnqueue := one_in MpEnqueueBulk.
(* go: ring/dequeue.go Ring.Dequeue *)
Definition Dequeue := one_out DequeueBulk.
(* go: ring/dequeue.go Ring.ScDequeue *)
Definition ScDequeue := one_out ScDequeueBulk.
(* go: ring/dequeue.go Ring.McDequeue *)
Definition McDequeue := one_out McDequeueBulk.
End Objects.
