(* ===== verification/RingSpec.v ===== *)
(** * Rings: theorems

    Options add up in any order for flags; a failed creation in EAL memory leaks
    nothing; over a ring that keeps DPDK's promises ([RteRingLaws]) the Go
    operations are a bounded first-in-first-out queue, as long as each call is
    made beside calls that its variant allows. *)

From Stdlib Require Import ZArith Lia.
From stdpp Require Import base list numbers option gmap sets.
From S2P Require Import Prelude Errno Framework Ring.

Open Scope Z_scope.

(** ** What DPDK promises

    [Multi] is safe beside others on its side of the ring, [Single] is not,
    [Default] is as the ring was created. *)
Inductive sync := Multi | Single | Default.
Inductive amount := Bulk | Burst.

Definition enqueue_kind (f : enqueue_fn) : sync * amount :=
  match f with
  | mp_enqueue_bulk => (Multi, Bulk) | sp_enqueue_bulk => (Single, Bulk) | enqueue_bulk => (Default, Bulk)
  | mp_enqueue_burst => (Multi, Burst) | sp_enqueue_burst => (Single, Burst) | enqueue_burst => (Default, Burst)
  end.
Definition dequeue_kind (f : dequeue_fn) : sync * amount :=
  match f with
  | mc_dequeue_bulk => (Multi, Bulk) | sc_dequeue_bulk => (Single, Bulk) | dequeue_bulk => (Default, Bulk)
  | mc_dequeue_burst => (Multi, Burst) | sc_dequeue_burst => (Single, Burst) | dequeue_burst => (Default, Burst)
  end.

Definition multi (by_default : bool) (s : sync) : bool :=
  match s with Multi => true | Single => false | Default => by_default end.
(** The calls under way on one side. *)
Definition puts (o : under_way) : list sync := omap (fun f => match f with Enq f => Some (fst (enqueue_kind f)) | Deq _ => None end) o.
Definition takes (o : under_way) : list sync := omap (fun f => match f with Deq f => Some (fst (dequeue_kind f)) | Enq _ => None end) o.
(** A call of kind [s] beside the calls [l] of its side: there are none, or all of
    them are safe. *)
Definition beside (by_default : bool) (s : sync) (l : list sync) : bool :=
  match l with [] => true | _ => multi by_default s && forallb (multi by_default) l end.

(** How many of [want] objects find room. *)
Definition fits (a : amount) (want room : nat) : nat :=
  match a with Bulk => if (want <=? room)%nat then want else 0%nat | Burst => (want `min` room)%nat end.
(** How many are moved: all of them or none in bulk. What is under way can make a
    call see less room, or fewer objects, than there are when it takes effect;
    alone it sees what there is. *)
Definition moves (o : under_way) (a : amount) (want room k : nat) : Prop :=
  (k <= want)%nat /\ (k <= room)%nat /\ (a = Bulk -> k = 0%nat \/ k = want) /\ (o = [] -> k = fits a want room).

(** [items] is the content, oldest first, at the time a call takes effect, which is
    between its start and its end; [by_default] is whether the ring was created for
    several producers, and several consumers. *)
Class RteRingLaws (R : Type) `{RteRing R} := {
  items : R -> list Z;
  capacity : R -> nat;
  by_default : R -> bool * bool;
  items_bound r : (length (items r) <= capacity r)%nat;
  capacity_bound r : Z.of_nat (capacity r) < 4294967296;
  enqueue_law f o r obj n :
    beside (fst (by_default r)) (fst (enqueue_kind f)) (puts o) = true -> 0 <= n <= Z.of_nat (length obj) ->
    let room := (capacity r - length (items r))%nat in
    let '((rc, free), r') := rte_ring_enqueue f o r obj n in
    exists k, moves o (snd (enqueue_kind f)) (Z.to_nat n) room k /\ rc = Z.of_nat k /\
      0 <= free < 4294967296 /\ (o = [] -> free = Z.of_nat (room - k)) /\
      items r' = items r ++ take k obj /\ capacity r' = capacity r /\ by_default r' = by_default r;
  dequeue_law f o r n :
    beside (snd (by_default r)) (fst (dequeue_kind f)) (takes o) = true -> 0 <= n ->
    let '(((rc, avail), got), r') := rte_ring_dequeue f o r n in
    exists k, moves o (snd (dequeue_kind f)) (Z.to_nat n) (length (items r)) k /\ rc = Z.of_nat k /\
      0 <= avail < 4294967296 /\ (o = [] -> avail = Z.of_nat (length (items r) - k)) /\
      got = take k (items r) /\ items r' = drop k (items r) /\ capacity r' = capacity r /\ by_default r' = by_default r
}.

(** ** A client *)

(** Calls of the Go methods, named by what their names say, with what is under way
    beside each; and what a client sees. *)
Inductive call :=
  | Put (o : under_way) (s : sync) (objs : list Z) (a : amount) | Take (o : under_way) (s : sync) (n : nat) (a : amount)
  | Put1 (o : under_way) (s : sync) (x : Z) | Take1 (o : under_way) (s : sync).
Inductive seen := Counts (n rest : Z) | Objects (objs : list Z) (n rest : Z) | Done (ok : bool) | Object (x : Z) (ok : bool) | Panics.

Section Client.
Context {R : Type} `{RL : RteRingLaws R}.

Definition do_put (o : under_way) (s : sync) (a : amount) : R -> list Z -> option ((Z * Z) * R) :=
  match s, a with
  | Multi, Bulk => MpEnqueueBulk o | Single, Bulk => SpEnqueueBulk o | Default, Bulk => EnqueueBulk o
  | Multi, Burst => MpEnqueueBurst o | Single, Burst => SpEnqueueBurst o | Default, Burst => EnqueueBurst o
  end.
Definition do_take (o : under_way) (s : sync) (a : amount) : R -> list Z -> option ((list Z * (Z * Z)) * R) :=
  match s, a with
  | Multi, Bulk => McDequeueBulk o | Single, Bulk => ScDequeueBulk o | Default, Bulk => DequeueBulk o
  | Multi, Burst => McDequeueBurst o | Single, Burst => ScDequeueBurst o | Default, Burst => DequeueBurst o
  end.
Definition do_put1 (o : under_way) (s : sync) : R -> Z -> option (bool * R) :=
  match s with Multi => MpEnqueue o | Single => SpEnqueue o | Default => Enqueue o end.
Definition do_take1 (o : under_way) (s : sync) : R -> option ((Z * bool) * R) :=
  match s with Multi => McDequeue o | Single => ScDequeue o | Default => Dequeue o end.

(** A panic ends the run. *)
Fixpoint run (r : R) (l : list call) : list seen :=
  match l with
  | [] => []
  | Put o s objs a :: l =>
      match do_put o s a r objs with None => [Panics] | Some ((n, rest), r) => Counts n rest :: run r l end
  | Take o s n a :: l =>
      match do_take o s a r (replicate n 0) with None => [Panics] | Some ((objs, (n, rest)), r) => Objects objs n rest :: run r l end
  | Put1 o s x :: l => match do_put1 o s r x with None => [Panics] | Some (ok, r) => Done ok :: run r l end
  | Take1 o s :: l => match do_take1 o s r with None => [Panics] | Some ((x, ok), r) => Object x ok :: run r l end
  end.
End Client.

(** ** The queue

    A list of at most [cap] objects. A length is taken modulo [2^32]. *)
Definition cut (n : nat) : nat := Z.to_nat (u32 (Z.of_nat n)).

(** What a client may see of the calls [l] on the queue [q]. *)
Fixpoint queue_allows (cap : nat) (q : list Z) (l : list call) (out : list seen) : Prop :=
  match l with
  | [] => out = []
  | Put o _ objs a :: l =>
      if decide (objs = []) then out = [Panics]
      else exists k rest out', out = Counts (Z.of_nat k) rest :: out' /\ moves o a (cut (length objs)) (cap - length q) k /\
        (o = [] -> rest = Z.of_nat (cap - length q - k)) /\ queue_allows cap (q ++ take k objs) l out'
  | Take o _ n a :: l =>
      if decide (n = 0%nat) then out = [Panics]
      else exists k rest out', out = Objects (take k q ++ replicate (n - k) 0) (Z.of_nat k) rest :: out' /\ moves o a (cut n) (length q) k /\
        (o = [] -> rest = Z.of_nat (length q - k)) /\ queue_allows cap (drop k q) l out'
  | Put1 o _ x :: l =>
      exists k out', out = Done (negb (k =? 0)%nat) :: out' /\ moves o Bulk 1 (cap - length q) k /\
        queue_allows cap (q ++ take k [x]) l out'
  | Take1 o _ :: l =>
      exists k out', out = Object (default 0 (take k q !! 0%nat)) (negb (k =? 0)%nat) :: out' /\ moves o Bulk 1 (length q) k /\
        queue_allows cap (drop k q) l out'
  end.

(** What it sees when no two calls overlap. *)
Fixpoint queue_run (cap : nat) (q : list Z) (l : list call) : list seen :=
  match l with
  | [] => []
  | Put _ _ objs a :: l =>
      if decide (objs = []) then [Panics]
      else
        let n := fits a (cut (length objs)) (cap - length q) in
        Counts (Z.of_nat n) (Z.of_nat (cap - length q - n)) :: queue_run cap (q ++ take n objs) l
  | Take _ _ n a :: l =>
      if decide (n = 0%nat) then [Panics]
      else
        let k := fits a (cut n) (length q) in
        Objects (take k q ++ replicate (n - k) 0) (Z.of_nat k) (Z.of_nat (length q - k)) :: queue_run cap (drop k q) l
  | Put1 _ _ x :: l =>
      if decide (length q < cap)%nat then Done true :: queue_run cap (q ++ [x]) l else Done false :: queue_run cap q l
  | Take1 _ _ :: l =>
      match q with [] => Object 0 false :: queue_run cap [] l | x :: q => Object x true :: queue_run cap q l end
  end.

(** The rule of the documentation: beside calls of its side only where its name
    allows. *)
Definition overlap (c : call) : under_way :=
  match c with Put o _ _ _ | Take o _ _ _ | Put1 o _ _ | Take1 o _ => o end.
Definition allowed (by_default : bool * bool) (c : call) : bool :=
  match c with
  | Put o s _ _ | Put1 o s _ => beside (fst by_default) s (puts o)
  | Take o s _ _ | Take1 o s => beside (snd by_default) s (takes o)
  end.

Lemma fits_le a want room : (fits a want room <= want)%nat /\ (fits a want room <= room)%nat.
Proof. unfold fits. destruct a; [case_match eqn:E; [apply Nat.leb_le in E|]|]; lia. Qed.

Lemma cut_le n : (cut n <= n)%nat.
Proof. unfold cut, u32. pose proof (Z.mod_le (Z.of_nat n) 4294967296 ltac:(lia) ltac:(lia)). pose proof (Z.mod_pos_bound (Z.of_nat n) 4294967296 ltac:(lia)). lia. Qed.

Lemma u32_length n : 0 <= u32 (Z.of_nat n) <= Z.of_nat n.
Proof. unfold u32. pose proof (Z.mod_le (Z.of_nat n) 4294967296 ltac:(lia) ltac:(lia)). pose proof (Z.mod_pos_bound (Z.of_nat n) 4294967296 ltac:(lia)). lia. Qed.

(** Without overlap only one answer is allowed. *)
Lemma queue_alone cap l : Forall (fun c => overlap c = []) l -> forall q out, (length q <= cap)%nat ->
  queue_allows cap q l out -> out = queue_run cap q l.
Proof.
  induction 1 as [|c l Ho _ IH]; intros q out Hq Q; [done|].
  destruct c as [o s objs a|o s n a|o s x|o s]; cbn [overlap] in Ho; subst o; cbn [queue_allows queue_run] in *.
  - case_decide; [done|]. destruct Q as (k & rest & out' & -> & (K1 & K2 & _ & K) & F & Q).
    rewrite F, (IH (q ++ take k objs) out' ltac:(rewrite length_app, length_take; lia) Q), (K eq_refl) by done. done.
  - case_decide; [done|]. destruct Q as (k & rest & out' & -> & (K1 & K2 & _ & K) & F & Q).
    rewrite F, (IH (drop k q) out' ltac:(rewrite length_drop; lia) Q), (K eq_refl) by done. done.
  - destruct Q as (k & out' & -> & (K1 & K2 & _ & K) & Q). rewrite (IH (q ++ take k [x]) out' ltac:(rewrite length_app, length_take; simpl; lia) Q).
    rewrite (K eq_refl) in *. unfold fits in *. destruct (Nat.leb_spec 1 (cap - length q)).
    + by rewrite decide_True by lia.
    + rewrite decide_False by lia. cbn [take]. by rewrite app_nil_r.
  - destruct Q as (k & out' & -> & (K1 & K2 & _ & K) & Q). rewrite (IH (drop k q) out' ltac:(rewrite length_drop; lia) Q).
    rewrite (K eq_refl) in *. by destruct q.
Qed.

Section Refinement.
Context {R : Type} `{RL : RteRingLaws R}.
Implicit Types r : R.

(** A call of a function of kind [(s, a)]. *)
Lemma enqueue_moves o f s a r objs : enqueue_kind f = (s, a) -> beside (fst (by_default r)) s (puts o) = true -> objs <> [] ->
  exists k rest r', enqueue o f r objs = Some ((Z.of_nat k, rest), r') /\
    moves o a (cut (length objs)) (capacity r - length (items r)) k /\ (o = [] -> rest = Z.of_nat (capacity r - length (items r) - k)) /\
    items r' = items r ++ take k objs /\ capacity r' = capacity r /\ by_default r' = by_default r.
Proof.
  intros Kf B N. unfold enqueue, args. destruct objs as [|x objs]; [done|]. unfold GO_RING_FUNC_enqueue.
  pose proof (enqueue_law f o r (x :: objs) (u32 (Z.of_nat (length (x :: objs))))) as L. rewrite Kf in L.
  specialize (L B (u32_length _)). cbv zeta in L. cbn [snd] in L.
  destruct (rte_ring_enqueue _ _ _ _ _) as [[rc free] r']. destruct L as (k & M & -> & Fb & F & I & C & D).
  exists k, free, r'. unfold ret. cbn [ci_rc ci_n]. pose proof (capacity_bound r). destruct M as (M1 & M2 & M3).
  rewrite !u32_small by lia. done.
Qed.

Lemma dequeue_moves o f s a r objs : dequeue_kind f = (s, a) -> beside (snd (by_default r)) s (takes o) = true -> objs <> [] ->
  exists k rest r', dequeue o f r objs = Some ((take k (items r) ++ drop k objs, (Z.of_nat k, rest)), r') /\
    moves o a (cut (length objs)) (length (items r)) k /\ (o = [] -> rest = Z.of_nat (length (items r) - k)) /\
    items r' = drop k (items r) /\ capacity r' = capacity r /\ by_default r' = by_default r.
Proof.
  intros Kf B N. unfold dequeue, args. destruct objs as [|x objs]; [done|]. unfold GO_RING_FUNC_dequeue.
  pose proof (dequeue_law f o r (u32 (Z.of_nat (length (x :: objs))))) as L. rewrite Kf in L.
  specialize (L B (proj1 (u32_length _))). cbn [snd] in L.
  destruct (rte_ring_dequeue _ _ _ _) as [[[rc avail] got] r']. destruct L as (k & M & -> & Fb & F & -> & I & C & D).
  exists k, avail, r'. unfold ret. cbn [ci_rc ci_n]. pose proof (capacity_bound r). pose proof (items_bound r). destruct M as (M1 & M2 & M3).
  rewrite !u32_small by lia. rewrite length_take, Nat.min_l by lia. done.
Qed.

Lemma do_put_moves o s a r objs : beside (fst (by_default r)) s (puts o) = true -> objs <> [] ->
  exists k rest r', do_put o s a r objs = Some ((Z.of_nat k, rest), r') /\
    moves o a (cut (length objs)) (capacity r - length (items r)) k /\ (o = [] -> rest = Z.of_nat (capacity r - length (items r) - k)) /\
    items r' = items r ++ take k objs /\ capacity r' = capacity r /\ by_default r' = by_default r.
Proof.
  intros B N. destruct s, a; cbn [do_put];
    [by eapply (enqueue_moves _ mp_enqueue_bulk)|by eapply (enqueue_moves _ mp_enqueue_burst)|by eapply (enqueue_moves _ sp_enqueue_bulk)
    |by eapply (enqueue_moves _ sp_enqueue_burst)|by eapply (enqueue_moves _ enqueue_bulk)|by eapply (enqueue_moves _ enqueue_burst)].
Qed.
Lemma do_take_moves o s a r objs : beside (snd (by_default r)) s (takes o) = true -> objs <> [] ->
  exists k rest r', do_take o s a r objs = Some ((take k (items r) ++ drop k objs, (Z.of_nat k, rest)), r') /\
    moves o a (cut (length objs)) (length (items r)) k /\ (o = [] -> rest = Z.of_nat (length (items r) - k)) /\
    items r' = drop k (items r) /\ capacity r' = capacity r /\ by_default r' = by_default r.
Proof.
  intros B N. destruct s, a; cbn [do_take];
    [by eapply (dequeue_moves _ mc_dequeue_bulk)|by eapply (dequeue_moves _ mc_dequeue_burst)|by eapply (dequeue_moves _ sc_dequeue_bulk)
    |by eapply (dequeue_moves _ sc_dequeue_burst)|by eapply (dequeue_moves _ dequeue_bulk)|by eapply (dequeue_moves _ dequeue_burst)].
Qed.

Lemma do_put_nil o s a r : do_put o s a r [] = None.
Proof. by destruct s, a. Qed.
Lemma do_take_nil o s a r : do_take o s a r [] = None.
Proof. by destruct s, a. Qed.
Lemma do_put1_bulk o s r x : do_put1 o s r x = one_in (do_put o s Bulk) r x.
Proof. by destruct s. Qed.
Lemma do_take1_bulk o s r : do_take1 o s r = one_out (do_take o s Bulk) r.
Proof. by destruct s. Qed.

Lemma run_allowed l : forall r, Forall (fun c => allowed (by_default r) c = true) l -> queue_allows (capacity r) (items r) l (run r l).
Proof.
  induction l as [|c l IH]; intros r A; [done|]. apply Forall_cons in A as [Ac A].
  assert (Next : forall r', by_default r' = by_default r -> capacity r' = capacity r -> queue_allows (capacity r) (items r') l (run r' l)).
  { intros r' D C. rewrite <- C. apply IH. by rewrite D. }
  destruct c as [o s objs a|o s n a|o s x|o s]; cbn [allowed run queue_allows] in *.
  - case_decide as E; [by rewrite E, do_put_nil|]. destruct (do_put_moves o s a r objs Ac E) as (k & rest & r' & -> & M & F & I & C & D).
    exists k, rest, (run r' l). rewrite <- I. auto.
  - case_decide as E; [by rewrite E, do_take_nil|].
    destruct (do_take_moves o s a r (replicate n 0) Ac) as (k & rest & r' & -> & M & F & I & C & D); [by destruct n|].
    rewrite length_replicate in M. exists k, rest, (run r' l). rewrite drop_replicate, <- I. auto.
  - rewrite do_put1_bulk. unfold one_in. destruct (do_put_moves o s Bulk r [x] Ac) as (k & rest & r' & -> & M & F & I & C & D); [done|].
    exists k, (run r' l). rewrite <- I. split_and!; [by destruct k|done|auto].
  - rewrite do_take1_bulk. unfold one_out. destruct (do_take_moves o s Bulk r [0] Ac) as (k & rest & r' & -> & M & F & I & C & D); [done|].
    change (cut (length [0])) with 1%nat in M. pose proof M as (M1 & M2 & _).
    assert (Hk : k = 0%nat \/ k = 1%nat) by lia. destruct Hk as [-> | ->].
    + exists 0%nat, (run r' l). rewrite <- I. split_and!; [done|done|auto].
    + destruct (items r) as [|x q] eqn:Q; [simpl in M2; lia|]. exists 1%nat, (run r' l). rewrite <- I. split_and!; [done|done|auto].
Qed.

(** C17. Over a ring that does what DPDK documents, the Go operations show a client
    what a bounded first-in-first-out queue shows, for calls in any order, each
    beside any calls of other threads that its variant is made for (a Mp/Mc call,
    or a default call on such a ring, beside others like it on its side of the
    ring; a Sp/Sc call alone on its side): objects leave in the order they came,
    none is lost or doubled, a bulk call moves all or nothing. Where no call
    overlaps, counts, objects and the rest of the slices are exactly those of the
    queue. Only a call with an empty slice panics. A slice counts with its length
    modulo 2^32. *)
Theorem Ring_queue l r (A : Forall (fun c => allowed (by_default r) c = true) l) :
  queue_allows (capacity r) (items r) l (run r l) /\
  (Forall (fun c => overlap c = []) l -> run r l = queue_run (capacity r) (items r) l).
Proof.
  pose proof (run_allowed l r A) as Q. split; [done|]. intros O. apply queue_alone; [done|apply items_bound|done].
Qed.

(** The count of objects is cut to 32 bits: of [2^32 + 3] objects a bulk call puts
    three and reports three. *)
Lemma Bulk_truncates r objs : Z.of_nat (length objs) = 4294967299 -> (length (items r) + 3 <= capacity r)%nat ->
  exists rest r', MpEnqueueBulk [] r objs = Some ((3, rest), r') /\ items r' = items r ++ take 3 objs.
Proof.
  intros L Room. assert (N : objs <> []) by (intros ->; simpl in L; lia).
  destruct (enqueue_moves [] mp_enqueue_bulk Multi Bulk r objs eq_refl eq_refl N) as (k & rest & r' & E & M & _ & I & _).
  assert (K : k = 3%nat).
  { destruct M as (_ & _ & _ & M). rewrite (M eq_refl). unfold cut. rewrite L. change (Z.to_nat (u32 4294967299)) with 3%nat.
    unfold fits. by rewrite (proj2 (Nat.leb_le _ _)) by lia. }
  subst k. by exists rest, r'.
Qed.
End Refinement.

(** ** Options *)

Inductive ring_opt := RAlign (a : Z) | RSocket (s : Z) | RFlag (f : Z).
Definition ring_option (o : ring_opt) : Ring.Option := match o with RAlign a => OptAlign a | RSocket s => OptSocket s | RFlag f => OptFlag f end.
Definition sockets (o : ring_opt) : option Z := match o with RSocket s => Some (i32 s) | _ => None end.
Definition aligns (o : ring_opt) : option Z := match o with RAlign a => Some (u32 a) | _ => None end.
Definition flags_ (o : ring_opt) : option Z := match o with RFlag f => Some (u32 f) | _ => None end.

(** The socket and the alignment are the last ones given, the flags are all of
    them together. *)
Lemma makeOpts_spec cname l : makeOpts cname (map ring_option l) =
  mkRingConf cname (default (-1) (last (omap sockets l))) (default 0 (last (omap aligns l))) (foldl Z.lor 0 (omap flags_ l)).
Proof.
  induction l as [|o l IH] using rev_ind; [done|]. unfold makeOpts in *. rewrite map_app, foldl_app, IH.
  rewrite !omap_app. destruct o; simpl; rewrite ?last_snoc, ?app_nil_r, ?foldl_app; done.
Qed.

(** ** Rings in EAL memory *)

(** [NewEAL] returns either a new block and no error, or an error and no memory:
    a failed allocation is [ENOMEM], and a ring that could not be initialised is
    freed again. *)
Theorem NewEAL_no_leak E ENOMEM zmalloc memsize init heap cname count opts
    (Hz : forall h n a s, zmalloc h n a s ∉ h) :
  exists r err heap', NewEAL E ENOMEM zmalloc memsize init heap cname count opts = Some ((r, err), heap') /\
    ((err = None /\ r <> 0 /\ (r ∉ heap) /\ heap' = {[r]} ∪ heap) \/ (is_Some err /\ r = 0 /\ heap' = heap)).
Proof.
  unfold NewEAL, GetMemSize, IntOrErr. destruct (Z.leb_spec 0 (memsize (u32 count))) as [H|H].
  - set (rc := makeOpts cname opts). set (r := zmalloc heap (u64 (memsize (u32 count))) (align rc) (socket rc)).
    assert (Hr : r ∉ heap) by apply Hz. destruct (Z.eqb_spec r 0) as [R0|R0].
    + do 3 eexists. split; [reflexivity|]. right. eauto.
    + destruct (Init E init r cname count opts) as [e|].
      * unfold rte_free. rewrite (proj2 (Z.eqb_neq r 0) R0). rewrite decide_True by set_solver.
        do 3 eexists. split; [reflexivity|]. right. split; [eauto|]. split; [done|]. set_solver.
      * do 3 eexists. split; [reflexivity|]. left. done.
  - unfold errno. rewrite (proj2 (Z.eqb_neq _ 0)) by lia. do 3 eexists. split; [reflexivity|]. right. eauto.
Qed.

(** ** A ring for the examples: its content and its free space, for several
    producers and consumers by default. A call beside one that its variant is not
    made for loses the content. *)

Definition small_ring (c : list Z) (m : nat) : bool := Z.of_nat (length c + m) <? 4294967296.
Record list_ring := mkListRing { content : list Z; room : nat; small : small_ring content room = true }.
(** The capacity has 32 bits. *)
Definition ring_of (c : list Z) (m : nat) : list_ring :=
  match Bool.bool_dec (small_ring c m) true with left p => mkListRing c m p | right _ => mkListRing [] 0 eq_refl end.

#[export] Instance list_RteRing : RteRing list_ring := {
  rte_ring_enqueue f o r obj n :=
    if beside true (fst (enqueue_kind f)) (puts o) then
      let k := fits (snd (enqueue_kind f)) (Z.to_nat n) (room r) in
      ((Z.of_nat k, Z.of_nat (room r - k)), ring_of (content r ++ take k obj) (room r - k))
    else ((0, 0), ring_of [] (room r + length (content r)));
  rte_ring_dequeue f o r n :=
    if beside true (fst (dequeue_kind f)) (takes o) then
      let k := fits (snd (dequeue_kind f)) (Z.to_nat n) (length (content r)) in
      ((Z.of_nat k, Z.of_nat (length (content r) - k)), take k (content r), ring_of (drop k (content r)) (room r + k))
    else ((0, 0), [], ring_of [] (room r + length (content r)))
}.

Lemma ring_of_fields r c m : (length c + m = length (content r) + room r)%nat -> content (ring_of c m) = c /\ room (ring_of c m) = m.
Proof.
  intros E. unfold ring_of. destruct (Bool.bool_dec _ _) as [p|N]; [done|]. exfalso. apply N.
  pose proof (small r) as S. unfold small_ring in *. by rewrite E.
Qed.

Lemma small_lt r : Z.of_nat (length (content r) + room r) < 4294967296.
Proof. apply Z.ltb_lt. exact (small r). Qed.

#[export] Instance list_RteRingLaws : RteRingLaws list_ring.
Proof.
  refine {| items := content; capacity := fun r => (length (content r) + room r)%nat; by_default := fun _ => (true, true) |}.
  - intros r. lia.
  - intros r. by apply small_lt.
  - intros f o r obj n B Hn. cbv zeta. replace (length (content r) + room r - length (content r))%nat with (room r) by lia.
    cbn in B |- *. rewrite B. pose proof (fits_le (snd (enqueue_kind f)) (Z.to_nat n) (room r)) as F.
    set (k := fits _ _ _) in *. pose proof (small_lt r) as S.
    destruct (ring_of_fields r (content r ++ take k obj) (room r - k)) as [C M]; [rewrite length_app, length_take; lia|].
    exists k. split; [split_and!; [lia|lia| |done]|rewrite C, M, length_app, length_take; split_and!; (done || lia)].
    intros E. unfold k, fits. rewrite E. case_match; auto.
  - intros f o r n B Hn. cbn in B |- *. rewrite B. pose proof (fits_le (snd (dequeue_kind f)) (Z.to_nat n) (length (content r))) as F.
    set (k := fits _ _ _) in *. pose proof (small_lt r) as S.
    destruct (ring_of_fields r (drop k (content r)) (room r + k)) as [C M]; [rewrite length_drop; lia|].
    exists k. split; [split_and!; [lia|lia| |done]|rewrite C, M, length_drop; split_and!; (done || lia)].
    intros E. unfold k, fits. rewrite E. case_match; auto.
Defined.

(** A bulk call of three beside two others that are safe, and one that is not. *)
Example Ring_two : run (ring_of [] 2) [Put [] Multi [5; 6; 7] Burst; Put1 [Deq sc_dequeue_bulk] Single 8; Take [] Default 3 Bulk; Take1 [] Multi; Take1 [] Default; Take1 [] Default] =
  [Counts 2 0; Done false; Objects [0; 0; 0] 0 2; Object 5 true; Object 6 true; Object 0 false].
Proof. vm_compute. reflexivity. Qed.
Example Ring_race : run (ring_of [5] 2) [Put [Enq mp_enqueue_bulk] Single [6] Bulk; Take1 [] Multi] = [Counts 0 0; Object 0 false].
Proof. vm_compute. reflexivity. Qed.

Lemma Ring_queue_witness :
  let calls := [Put1 [] Multi 6; Put1 [] Single 7; Take1 [] Default] in
  let busy := [Put [Enq mp_enqueue_burst; Enq enqueue_bulk; Deq sc_dequeue_bulk] Multi [6] Bulk; Take1 [Deq mc_dequeue_bulk] Default] in
  run (ring_of [5] 1) calls = [Done true; Done false; Object 5 true] /\
  queue_allows 2 [5] busy (run (ring_of [5] 1) busy).
Proof.
  intros calls busy. split.
  - destruct (Ring_queue (R := list_ring) calls (ring_of [5] 1) ltac:(repeat constructor)) as [_ E].
    rewrite E by (repeat constructor). reflexivity.
  - exact (proj1 (Ring_queue (R := list_ring) busy (ring_of [5] 1) ltac:(repeat constructor))).
Defined.

Lemma NewEAL_no_leak_witness :
  let E := mkRteNumbers 1002 1001 1003 1000 in
  let zmalloc (h : gset Z) (n a s : Z) := fresh h in
  NewEAL E 12 zmalloc (fun n => n * 8 + 128) (fun _ _ _ _ => -22) {[0; 1]} 1 64 [] = Some ((0, Some (Errno 22)), {[0; 1]}) /\
  exists r err heap', NewEAL E 12 zmalloc (fun n => n * 8 + 128) (fun _ _ _ _ => 0) {[0; 1]} 1 64 [] = Some ((r, err), heap') /\
    ((err = None /\ r <> 0 /\ (r ∉ ({[0; 1]} : gset Z)) /\ heap' = {[r]} ∪ {[0; 1]}) \/ (is_Some err /\ r = 0 /\ heap' = {[0; 1]})).
Proof.
  intros E zmalloc. split; [vm_compute; reflexivity|].
  apply (NewEAL_no_leak E 12 zmalloc (fun n => n * 8 + 128) (fun _ _ _ _ => 0) {[0; 1]} 1 64 []).
  intros h n a s. apply is_fresh.
Defined.
