(* ===== verification/Pools.v ===== *)
(** * Memory pools and memory zones

    [src/mempool/] and [src/memzone/]: options, creation, the operations of a pool
    by their names, and walks, which hand a Go function to C as an identifier in
    a registry of callbacks. The functions of DPDK are arguments. *)

From Stdlib Require Import ZArith Lia String.
From stdpp Require Import base list numbers option gmap.
From S2P Require Import Prelude Text Errno Framework Registry.

Open Scope Z_scope.

(** ** Memory pools *)

(** [opsName]: [None] is nil. *)
(* go: mempool/mempool.go mpConf *)
Record mpConf := mkMpConf { cacheSize : Z; privDataSize : Z; mp_socket : Z; mp_flags : Z; opsName : option (list Z) }.
(* go: mempool/mempool.go Option *)
Definition Option : Type := mpConf -> mpConf.

(* go: mempool/mempool.go OptOpsName *)
Definition OptOpsName (name : list Z) : Option := fun c =>
  mkMpConf (cacheSize c) (privDataSize c) (mp_socket c) (mp_flags c) (Some name).
(* go: mempool/mempool.go OptCacheSize *)
Definition OptCacheSize (size : Z) : Option := fun c => mkMpConf size (privDataSize c) (mp_socket c) (mp_flags c) (opsName c).
(* go: mempool/mempool.go OptPrivateDataSize *)
Definition OptPrivateDataSize (size : Z) : Option := fun c => mkMpConf (cacheSize c) size (mp_socket c) (mp_flags c) (opsName c).
(* go: mempool/mempool.go OptSocket *)
Definition OptSocket (socket : Z) : Option := fun c => mkMpConf (cacheSize c) (privDataSize c) (i32 socket) (mp_flags c) (opsName c).
(* go: mempool/mempool.go OptFlag *)
Definition OptFlag (flag : Z) : Option := fun c =>
  mkMpConf (cacheSize c) (privDataSize c) (mp_socket c) (Z.lor (mp_flags c) (u32 flag)) (opsName c).

Definition mp_conf (opts : list Option) : mpConf := foldl (fun c o => o c) (mkMpConf 0 0 (-1) 0 None) opts.

Section Pools.
Variable E : rte_numbers.

(** A pointer, [0] being NULL, or the error of [rte_errno]. *)
Definition pointer_or_err (r : Z * Z) : Z * option go_error :=
  if fst r =? 0 then (0, RteErrno E (snd r)) else (fst r, None).

(* go: mempool/mempool.go CreateEmpty *)
Definition CreateEmpty (rte_mempool_create_empty : list Z -> Z -> Z -> Z -> Z -> Z -> Z -> Z * Z)
    (name : list Z) (n eltsize : Z) (opts : list Option) : Z * option go_error :=
  let c := mp_conf opts in
  pointer_or_err (rte_mempool_create_empty name n eltsize (cacheSize c) (privDataSize c) (mp_socket c) (mp_flags c)).

(** [C.ushort(conf.privDataSize)] truncates. *)
(* go: mempool/mbuf.go CreateMbufPool *)
Definition CreateMbufPool (rte_pktmbuf_pool_create_by_ops : list Z -> Z -> Z -> Z -> Z -> Z -> option (list Z) -> Z * Z)
    (name : list Z) (n dataRoomSize : Z) (opts : list Option) : Z * option go_error :=
  let c := mp_conf opts in
  pointer_or_err (rte_pktmbuf_pool_create_by_ops name n (cacheSize c) (u16 (privDataSize c)) dataRoomSize (mp_socket c) (opsName c)).

(* go: mempool/cache.go CreateCache *)
Definition CreateCache (rte_mempool_cache_create : Z -> Z -> Z * Z) (opts : list Option) : Z * option go_error :=
  let c := mp_conf opts in pointer_or_err (rte_mempool_cache_create (cacheSize c) (mp_socket c)).

(* go: mempool/cache.go Cache.Flush *)
Definition Cache_Flush {S} (rte_mempool_cache_flush : Z -> Z -> S -> S) (mpc mp : Z) : M S unit := modify (rte_mempool_cache_flush mpc mp).
(* go: mempool/cache.go Cache.Free *)
Definition Cache_Free {S} (rte_mempool_cache_free : Z -> S -> S) (mpc : Z) : M S unit := modify (rte_mempool_cache_free mpc).

(* go: mempool/mempool.go Mempool.SetOpsByName *)
Definition SetOpsByName (rte_mempool_set_ops_byname : Z -> list Z -> Z -> Z) (mp : Z) (name : list Z) (poolConfig : Z) :
    option go_error := errno E (rte_mempool_set_ops_byname mp name poolConfig).

(** The flags of the pool, and the two constants. *)
(* go: mempool/mempool.go Mempool.SetOpsRing *)
Definition SetOpsRing (SP_PUT SC_GET : Z) (rte_mempool_set_ops_byname : Z -> list Z -> Z -> Z) (mp flags : Z) : option go_error :=
  let ops := if negb (Z.land flags SP_PUT =? 0) then str "ring_sp" else str "ring_mp" in
  let ops := if negb (Z.land flags SC_GET =? 0) then ops ++ str "_sc" else ops ++ str "_mc" in
  SetOpsByName rte_mempool_set_ops_byname mp ops 0.

(* go: mempool/mempool.go Mempool.PopulateDefault *)
Definition PopulateDefault (rte_mempool_populate_default : Z -> Z) (mp : Z) : option (Z * option go_error) :=
  IntOrErr E (Some (rte_mempool_populate_default mp)).
(* go: mempool/mempool.go Mempool.PopulateAnon *)
Definition PopulateAnon (rte_mempool_populate_anon : Z -> Z) (mp : Z) : option (Z * option go_error) :=
  IntOrErr E (Some (rte_mempool_populate_anon mp)).
(* go: mempool/mempool.go Mempool.IsFull *)
Definition IsFull (rte_mempool_full : Z -> Z) (mp : Z) : bool := negb (rte_mempool_full mp =? 0).
(* go: mempool/mempool.go Mempool.IsEmpty *)
Definition IsEmpty (rte_mempool_empty : Z -> Z) (mp : Z) : bool := negb (rte_mempool_empty mp =? 0).
(* go: mempool/mempool.go Lookup *)
Definition Lookup (rte_mempool_lookup : list Z -> Z * Z) (name : list Z) : Z * option go_error :=
  pointer_or_err (rte_mempool_lookup name).

(** [&objs[0]] panics for an empty slice. *)
(* go: mempool/mempool.go Mempool.GenericGet *)
Definition GenericGet (rte_mempool_generic_get : Z -> nat -> Z -> Z * list Z) (mp : Z) (objs : list Z) (cache : Z) :
    option (option go_error * list Z) :=
  match objs with
  | [] => None
  | _ =>
      let '(rc, got) := rte_mempool_generic_get mp (length objs) cache in
      Some (errno E rc, got ++ drop (length got) objs)
  end.

(** [&objs[0]] panics here as well. *)
(* go: mempool/mempool.go Mempool.GenericPut *)
Definition GenericPut {S} (rte_mempool_generic_put : Z -> list Z -> Z -> S -> S) (mp : Z) (objs : list Z) (cache : Z) : M S unit :=
  match objs with [] => panic | _ => modify (rte_mempool_generic_put mp objs cache) end.
(* go: mempool/mempool.go Mempool.Free *)
Definition Mp_Free {S} (rte_mempool_free : Z -> S -> S) (mp : Z) : M S unit := modify (rte_mempool_free mp).
(* go: mempool/mempool.go Mempool.AvailCount *)
Definition AvailCount (rte_mempool_avail_count : Z -> Z) (mp : Z) : Z := rte_mempool_avail_count mp.
(* go: mempool/mempool.go Mempool.InUseCount *)
Definition InUseCount (rte_mempool_in_use_count : Z -> Z) (mp : Z) : Z := rte_mempool_in_use_count mp.

(** ** Memory zones *)

(** [nil] is [None]. *)
(* go: memzone/memzone.go conf *)
Record conf := mkConf { size : Z; socket : Z; flags : Z; aligned : option Z; bound : option Z }.
(* go: memzone/memzone.go Option *)
Definition MzOption : Type := conf -> conf.
(* go: memzone/memzone.go OptSocket *)
Definition MzOptSocket (s : Z) : MzOption := fun c => mkConf (size c) (i32 s) (flags c) (aligned c) (bound c).
(* go: memzone/memzone.go OptFlag *)
Definition MzOptFlag (f : Z) : MzOption := fun c => mkConf (size c) (socket c) (Z.lor (flags c) (u32 f)) (aligned c) (bound c).
(* go: memzone/memzone.go OptAligned *)
Definition OptAligned (a : Z) : MzOption := fun c => mkConf (size c) (socket c) (flags c) (Some (u32 a)) (bound c).
(* go: memzone/memzone.go OptBounded *)
Definition OptBounded (b : Z) : MzOption := fun c => mkConf (size c) (socket c) (flags c) (aligned c) (Some (u32 b)).

(** The three functions of DPDK, as one call. *)
Inductive reserve_call :=
| rte_memzone_reserve (name : list Z) (size socket flags : Z)
| rte_memzone_reserve_aligned (name : list Z) (size socket flags align : Z)
| rte_memzone_reserve_bounded (name : list Z) (size socket flags align bound : Z).

(** [None] is the panic of a nil [rc.aligned]. *)
(* go: memzone/memzone.go doReserve *)
Definition doReserve (name : list Z) (rc : conf) : option reserve_call :=
  match bound rc, aligned rc with
  | None, None => Some (rte_memzone_reserve name (size rc) (socket rc) (flags rc))
  | None, Some a => Some (rte_memzone_reserve_aligned name (size rc) (socket rc) (flags rc) a)
  | Some b, Some a => Some (rte_memzone_reserve_bounded name (size rc) (socket rc) (flags rc) a b)
  | Some _, None => None
  end.

(* go: memzone/memzone.go Reserve *)
Definition Reserve (reserve : reserve_call -> Z * Z) (name : list Z) (size : Z) (opts : list MzOption) :
    option (Z * option go_error) :=
  let rc := foldl (fun c o => o c) (mkConf size (-1) 0 None None) opts in
  match doReserve name rc with
  | None => None
  | Some c => Some (pointer_or_err (reserve c))
  end.

(* go: memzone/memzone.go Lookup *)
Definition MzLookup (rte_memzone_lookup : list Z -> Z * Z) (name : list Z) : Z * option go_error :=
  pointer_or_err (rte_memzone_lookup name).
(* go: memzone/memzone.go Memzone.Free *)
Definition Mz_Free (rte_memzone_free : Z -> Z) (mz : Z) : option go_error := errno E (rte_memzone_free mz).
End Pools.

(** ** Walks

    The registry is global; what else the function may change is [S]. A function
    may walk again, so it works on the registry, too. [None] is a panic, as is the
    type assertion on a nil or forgotten callback. *)
Section Walk.
Context {R S : Type}.
Definition callback : Type := Z -> R * S -> option (R * S).
Context `{Registry R V} (as_fn : V -> callback).

(** What C does for each pool or zone: call back with the identifier. *)
(* go: mempool/mempool.go mpWalkCb *)
Definition mpWalkCb (cb : Z) (mp : Z) (st : R * S) : option (R * S) :=
  match reg_read (fst st) cb with
  | Some (Some v) => as_fn v mp st
  | _ => None
  end.
Fixpoint each (cb : Z) (l : list Z) (st : R * S) : option (R * S) :=
  match l with
  | [] => Some st
  | mp :: l => match mpWalkCb cb mp st with None => None | Some st => each cb l st end
  end.

(** [pools]: what [rte_mempool_walk] visits. *)
(* go: mempool/mempool.go Walk *)
Definition Walk (pools : list Z) (fn : V) (st : R * S) : option (R * S) :=
  let '(cb, r) := reg_create (fst st) (Some fn) in
  match each cb pools (r, snd st) with
  | None => None
  | Some (r, s) => match reg_delete r cb with None => None | Some r => Some (r, s) end
  end.

(** [memzone.mzCb] and [memzone.Walk] are the same code on memory zones. *)
(* go: memzone/memzone.go mzCb *)
Definition mzCb := mpWalkCb.
(* go: memzone/memzone.go Walk *)
Definition MzWalk := Walk.

(** [ObjIter]: the callback gets the bytes of each object; the count is C's. *)
(* go: mempool/mempool.go Mempool.ObjIter *)
Definition ObjIter (objects : list Z) (fn : V) (st : R * S) : option (Z * (R * S)) :=
  match Walk objects fn st with
  | None => None
  | Some st => Some (Z.of_nat (length objects), st)
  end.
End Walk.
