(* ===== verification/PoolsSpec.v ===== *)
(** * Memory pools and memory zones: theorems

    Which reservation a list of options asks for, and walks: against the interface
    of registries, a walk calls its function once for each pool and leaves the
    registry with the live objects it had, so that walks nest. *)

From Stdlib Require Import ZArith Lia.
From stdpp Require Import base list numbers option gmap.
From S2P Require Import Prelude Text Errno Framework Registry RegistrySpec Pools.

Open Scope Z_scope.

(** ** Reservations *)

Inductive mz_opt := MSocket (s : Z) | MFlag (f : Z) | MAligned (a : Z) | MBounded (b : Z).
Definition mz_option (o : mz_opt) : MzOption :=
  match o with MSocket s => MzOptSocket s | MFlag f => MzOptFlag f | MAligned a => OptAligned a | MBounded b => OptBounded b end.

Definition msockets (o : mz_opt) : option Z := match o with MSocket s => Some (i32 s) | _ => None end.
Definition mflags (o : mz_opt) : option Z := match o with MFlag f => Some (u32 f) | _ => None end.
Definition maligned (o : mz_opt) : option Z := match o with MAligned a => Some (u32 a) | _ => None end.
Definition mbounded (o : mz_opt) : option Z := match o with MBounded b => Some (u32 b) | _ => None end.

Lemma mz_conf l size : foldl (fun c o => o c) (mkConf size (-1) 0 None None) (map mz_option l) =
  mkConf size (default (-1) (last (omap msockets l))) (foldl Z.lor 0 (omap mflags l)) (last (omap maligned l)) (last (omap mbounded l)).
Proof.
  induction l as [|o l IH] using rev_ind; [done|]. rewrite map_app, foldl_app, IH, !omap_app.
  destruct o; simpl; rewrite ?last_snoc, ?app_nil_r, ?foldl_app; done.
Qed.

(** [Reserve] asks DPDK for the zone its options describe: the last socket,
    alignment and bound, all flags together, through the function that takes as
    many of them; a bound without an alignment panics. *)
Theorem Reserve_spec E reserve name size l :
  let socket := default (-1) (last (omap msockets l)) in
  let flags := foldl Z.lor 0 (omap mflags l) in
  Reserve E reserve name size (map mz_option l) =
    match last (omap maligned l), last (omap mbounded l) with
    | None, None => Some (pointer_or_err E (reserve (rte_memzone_reserve name size socket flags)))
    | Some a, None => Some (pointer_or_err E (reserve (rte_memzone_reserve_aligned name size socket flags a)))
    | Some a, Some b => Some (pointer_or_err E (reserve (rte_memzone_reserve_bounded name size socket flags a b)))
    | None, Some _ => None
    end.
Proof.
  intros socket flags. unfold Reserve, doReserve. rewrite mz_conf. cbn [Pools.size Pools.socket Pools.flags aligned bound].
  fold socket flags. by destruct (last (omap maligned l)), (last (omap mbounded l)).
Qed.

(** ** Walks *)

Section Walks.
Context {R S V : Type} `{RL : RegistryLaws R V} (as_fn : V -> callback (R := R) (S := S)).

(** The callback does [step] and gives the registry back with the same live
    objects, having used room for at most [k] new ones. *)
Definition conserving (k : Z) (v : V) (step : Z -> S -> S) : Prop :=
  forall mp r s m n, reg_rep r m -> reg_room r n -> k <= n ->
    exists r', as_fn v mp (r, s) = Some (r', step mp s) /\ reg_rep r' m /\ reg_room r' (n - k).

Lemma each_conserves k fn step cb pools : 0 <= k -> conserving k fn step -> forall r s m n,
  reg_rep r m -> reg_room r n -> m !! cb = Some (Some fn) -> k * Z.of_nat (length pools) <= n ->
  exists r', each as_fn cb pools (r, s) = Some (r', foldl (fun s mp => step mp s) s pools) /\ reg_rep r' m /\
    reg_room r' (n - k * Z.of_nat (length pools)).
Proof.
  intros Hk Co. induction pools as [|mp pools IH]; intros r s m n Hr Hn Hcb Hl; cbn [each foldl length].
  - exists r. split; [done|]. split; [done|]. by replace (n - k * Z.of_nat 0) with n by lia.
  - cbn [length] in Hl. unfold mpWalkCb. cbn [fst]. rewrite (reg_read_law r m cb _ Hr Hcb).
    destruct (Co mp r s m n Hr Hn) as (r1 & -> & Hr1 & Hn1); [lia|].
    destruct (IH r1 (step mp s) m (n - k) Hr1 Hn1 Hcb) as (r2 & E & Hr2 & Hn2); [lia|].
    exists r2. split; [done|]. split; [done|].
    by replace (n - k * Z.of_nat (Datatypes.S (length pools))) with (n - k - k * Z.of_nat (length pools)) by lia.
Qed.

Lemma Walk_ok k fn step pools r s m n : 0 <= k -> conserving k fn step ->
  reg_rep r m -> reg_room r n -> 1 + k * Z.of_nat (length pools) <= n ->
  exists r', Walk as_fn pools fn (r, s) = Some (r', foldl (fun s mp => step mp s) s pools) /\ reg_rep r' m /\
    reg_room r' (n - (1 + k * Z.of_nat (length pools))).
Proof.
  intros Hk Co Hr Hn Hl. unfold Walk. cbn [fst snd].
  destruct (reg_create_law r m (Some fn) n Hr Hn) as (F & Hr1 & Hn1); [lia|].
  destruct (reg_create r (Some fn)) as [cb r1]. cbn [fst snd] in *.
  destruct (each_conserves k fn step cb pools Hk Co r1 s _ _ Hr1 Hn1) as (r2 & E & Hr2 & Hn2); [by rewrite lookup_insert_eq|lia|].
  rewrite E. destruct (reg_delete_law r2 _ cb _ Hr2 Hn2) as (r3 & D & Hr3 & Hn3); [rewrite lookup_insert_eq; eauto|].
  exists r3. rewrite D. split; [done|]. rewrite delete_insert_id in Hr3 by done. split; [done|].
  by replace (n - (1 + k * Z.of_nat (length pools))) with (n - 1 - k * Z.of_nat (length pools)) by lia.
Qed.

(** A walk calls its function once for each pool, in DPDK's order, and gives
    back the registry of callbacks with the live objects it had, when the
    function does; so a function may itself walk: it then conserves the registry
    as well. No callback is lost and no type assertion panics. *)
Theorem Walk_conserves k fn step pools (Hk : 0 <= k) (Co : conserving k fn step) :
  (forall r s m n, reg_rep r m -> reg_room r n -> 1 + k * Z.of_nat (length pools) <= n ->
    exists r', Walk as_fn pools fn (r, s) = Some (r', foldl (fun s mp => step mp s) s pools) /\ reg_rep r' m) /\
  (forall v, (forall mp st, as_fn v mp st = Walk as_fn pools fn st) ->
    conserving (1 + k * Z.of_nat (length pools)) v (fun _ s => foldl (fun s mp => step mp s) s pools)).
Proof.
  split.
  - intros r s m n Hr Hn Hl. destruct (Walk_ok k fn step pools r s m n Hk Co Hr Hn Hl) as (r' & E & Hr' & _). eauto.
  - intros v Hv mp r s m n Hr Hn Hl. rewrite Hv. by apply (Walk_ok k fn step pools r s m n).
Qed.
End Walks.

(** Callback [0] notes the pool; callback [1] walks pools 7 and 8 with it. *)
Definition note (mp : Z) (st : objArray nat * list Z) : option (objArray nat * list Z) := Some (fst st, snd st ++ [mp]).
Definition sample_fn (v : nat) : callback (R := objArray nat) (S := list Z) :=
  match v with O => note | _ => fun _ st => Walk (fun _ => note) [7; 8] 0%nat st end.

Lemma Walk_conserves_witness :
  (exists r', Walk sample_fn [1; 2] 0%nat (NewRegistryArray, []) = Some (r', [1; 2]) /\ reg_rep r' ∅) /\
  Walk sample_fn [1; 2] 1%nat (NewRegistryArray, []) = Some (NewRegistryArray, [7; 8; 7; 8]).
Proof.
  split; [|vm_compute; reflexivity].
  destruct (Walk_conserves sample_fn 0 0%nat (fun mp s => s ++ [mp]) [1; 2]) as [H _]; [done| |].
  - intros mp r s m n Hr Hn _. exists r. split; [done|]. split; [done|]. by rewrite Z.sub_0_r.
  - apply (H NewRegistryArray [] ∅ 1).
    + split; [intros i o Hi; by rewrite lookup_empty in Hi|done].
    + split; [lia|simpl; lia].
    + simpl. lia.
Defined.

Example Reserve_bounded_only : Reserve (mkRteNumbers 1002 1001 1003 1000) (fun _ => (64, 0)) [65] 4096 [OptBounded 8192] = None.
Proof. reflexivity. Qed.
