(* ===== verification/MbufPool.v ===== *)
(** * Package mbuf: buffers from pools

    The part of [src/mbuf/mbuf.go] that works through DPDK: taking mbufs from a
    pool and giving them back, and the functions that append data, with the C
    functions of the file's preamble. What DPDK does to its pools and
    descriptors is the class [RteMbuf]; a [0] pointer is NULL, and [None] is
    undefined behaviour or a fault. The theorems use what the documentation of
    [rte_mbuf] says, [RteMbufLaws]. *)

From Stdlib Require Import ZArith Lia.
From stdpp Require Import base list numbers option gmap.
From S2P Require Import Prelude Memory Mbuf.

Open Scope Z_scope.
Open Scope go_scope.

(** [common.CStruct], an array in C memory. *)
(* go: common/pointers.go CStruct *)
Record CStruct := mkCStruct { Ptr : Z; Len : Z }.
(* go: common/pointers.go CStruct.Init *)
Definition CStruct_Init (ptr len : Z) (_ : CStruct) : CStruct := mkCStruct ptr len.
(* go: common/pointers.go CStruct.Bytes *)
Definition CStruct_Bytes (cs : CStruct) : Slice := mkSlice (Ptr cs) (Len cs).

Class RteMbuf (St : Type) := {
  memory : St -> mem;
  with_memory : mem -> St -> St;
  rte_pktmbuf_alloc (mp : Z) : M St Z;
  rte_pktmbuf_alloc_bulk (mp : Z) (count : nat) : M St (Z * list Z);
  rte_pktmbuf_free (m : Z) : M St unit;
  rte_pktmbuf_clone (m mp : Z) : M St Z;
  rte_pktmbuf_reset (m : Z) : M St unit;
  rte_pktmbuf_append (m len : Z) : M St Z;
  rte_mbuf_refcnt_read (m : Z) : M St Z;
  rte_mbuf_refcnt_update (m v : Z) : M St Z;
  rte_mbuf_refcnt_set (m v : Z) : M St unit
}.

Section Ops.
Context {St : Type} `{RteMbuf St}.

(* go: mbuf/mbuf.go PktMbufAlloc *)
Definition PktMbufAlloc (p : Z) : M St Z := rte_pktmbuf_alloc p.
(* go: mbuf/mbuf.go Mbuf.PktMbufFree *)
Definition PktMbufFree (m : Z) : M St unit := rte_pktmbuf_free m.
(** One mbuf back to its pool, without its segments. *)
(* go: mbuf/mbuf.go Mbuf.RawFree *)
Definition RawFree (rte_mbuf_raw_free : Z -> M St unit) (m : Z) : M St unit := rte_mbuf_raw_free m.
(* go: mbuf/mbuf.go Mbuf.PktMbufClone *)
Definition PktMbufClone (m p : Z) : M St Z := rte_pktmbuf_clone m p.
(* go: mbuf/mbuf.go Mbuf.PktMbufReset *)
Definition PktMbufReset (m : Z) : M St unit := rte_pktmbuf_reset m.

(** The result and what the slice [ms] holds afterwards: the new mbufs when the
    code is [0], else what it held. [IntErr] is [toErr]. *)
(* go: mbuf/mbuf.go PktMbufAllocBulk *)
Definition PktMbufAllocBulk {E} (IntErr : Z -> E) (p : Z) (ms : list Z) : M St (E * list Z) :=
  let! (e, new) := rte_pktmbuf_alloc_bulk p (length ms) in
  ret (IntErr e, if e =? 0 then new else ms).

(** With either version of DPDK each mbuf is freed. *)
(* go: mbuf/mbuf.go 32-42 free_bulk *)
Fixpoint free_bulk (ms : list Z) : M St unit :=
  match ms with
  | [] => ret tt
  | m :: ms => rte_pktmbuf_free m ;; free_bulk ms
  end.
(* go: mbuf/mbuf.go PktMbufFreeBulk *)
Definition PktMbufFreeBulk (ms : list Z) : M St unit := free_bulk ms.

(* go: mbuf/mbuf.go Mbuf.RefCntRead *)
Definition RefCntRead (m : Z) : M St Z := let! n := rte_mbuf_refcnt_read m in ret (u16 n).
(* go: mbuf/mbuf.go Mbuf.RefCntSet *)
Definition RefCntSet (m v : Z) : M St unit := rte_mbuf_refcnt_set m (u16 v).
(* go: mbuf/mbuf.go Mbuf.RefCntUpdate *)
Definition RefCntUpdate (m v : Z) : M St Z := let! n := rte_mbuf_refcnt_update m v in ret (u16 n).

(** Bytes written at a pointer. *)
Definition put_bytes (p : Z) (bs : list Z) : M St unit := fun st =>
  match store_bytes (memory st) p bs with None => None | Some m => Some (tt, with_memory m st) end.
Definition get_bytes (p n : Z) : M St (list Z) := fun st =>
  match load_bytes (memory st) p (Z.to_nat n) with None => None | Some bs => Some (bs, st) end.

(** [true] is a nil error, [false] is [ErrNullData]. *)
(* go: mbuf/mbuf.go Mbuf.PktMbufAppend *)
Definition PktMbufAppend (m : Z) (data : list Z) : M St bool :=
  let! ptr := rte_pktmbuf_append m (u16 (Z.of_nat (length data))) in
  if ptr =? 0 then ret false
  else put_bytes ptr data ;; ret true.

(** [len] is a [size_t]; the argument of [rte_pktmbuf_append] is 16 bits wide. *)
(* go: mbuf/mbuf.go 9-17 reset_and_append *)
Definition reset_and_append (mbuf ptr len : Z) : M St Z :=
  rte_pktmbuf_reset mbuf ;;
  let! data := rte_pktmbuf_append mbuf (u16 len) in
  if data =? 0 then ret 0
  else
    let! bs := get_bytes ptr len in
    put_bytes data bs ;;
    ret data.

(* go: mbuf/mbuf.go 18-30 alloc_reset_and_append *)
Definition alloc_reset_and_append (mp ptr len : Z) : M St Z :=
  let! mbuf := rte_pktmbuf_alloc mp in
  if mbuf =? 0 then ret 0
  else
    rte_pktmbuf_reset mbuf ;;
    let! data := rte_pktmbuf_append mbuf (u16 len) in
    if data =? 0 then ret 0
    else
      let! bs := get_bytes ptr len in
      put_bytes data bs ;;
      ret mbuf.

(* go: mbuf/mbuf.go Mbuf.ResetAndAppend *)
Definition ResetAndAppend (m : Z) (data : CStruct) : M St bool :=
  let! ptr := reset_and_append m (Ptr data) (u64 (Len data)) in
  ret (negb (ptr =? 0)).
(* go: mbuf/mbuf.go AllocResetAndAppend *)
Definition AllocResetAndAppend (p : Z) (data : CStruct) : M St Z :=
  alloc_reset_and_append p (Ptr data) (u64 (Len data)).
End Ops.

(** ** What the documentation says *)

(** [rte_pktmbuf_reset] of a descriptor: an empty packet of one segment, the data
    behind the headroom, or at the end of a buffer smaller than that. *)
Definition reset_mbuf (headroom : Z) (mb : Mbuf) : Mbuf :=
  mkMbuf (buf_addr mb) (headroom `min` buf_len mb) 0 0 (buf_len mb) 0 (pool mb) (priv_size mb) (hash_rss mb).

(** [valid] holds of the states of a running program; [desc] has the mbufs in use, [avail] the number of mbufs left in a pool, whose
    buffers have [room] bytes. Each law holds of a packet of one segment. *)
Class RteMbufLaws (St : Type) `{RteMbuf St} := {
  valid : St -> Prop;
  desc : St -> gmap Z Mbuf;
  avail : St -> Z -> nat;
  room : Z -> Z;
  headroom : Z;
  headroom_pos : 0 <= headroom;
  room_range p : 0 <= room p < 65536;
  memory_with m st : memory (with_memory m st) = m;
  desc_with m st : desc (with_memory m st) = desc st;
  avail_with m st : avail (with_memory m st) = avail st;
  valid_write p bs st : valid st -> valid (with_memory (write (memory st) p bs) st);
  alloc_none p st : avail st p = 0%nat -> rte_pktmbuf_alloc p st = Some (0, st);
  alloc_some p st n : valid st -> avail st p = S n -> exists m mb st',
    rte_pktmbuf_alloc p st = Some (m, st') /\ m <> 0 /\ desc st !! m = None /\ desc st' = <[m := mb]> (desc st) /\
    buf_len mb = room p /\ 0 < buf_addr mb /\ buf_addr mb + buf_len mb < 2 ^ 64 /\
    memory st' = memory st /\ mapped (memory st) (buf_addr mb) (buf_len mb) /\ avail st' p = n /\ valid st';
  reset_law m mb st : desc st !! m = Some mb -> exists st',
    rte_pktmbuf_reset m st = Some (tt, st') /\ desc st' = <[m := reset_mbuf headroom mb]> (desc st) /\
    memory st' = memory st /\ (forall p, avail st' p = avail st p) /\ (valid st -> valid st');
  append_none m mb st len : desc st !! m = Some mb -> next mb = 0 -> wf_mbuf mb -> TailRoomSize mb < len < 65536 ->
    rte_pktmbuf_append m len st = Some (0, st);
  append_some m mb st len : desc st !! m = Some mb -> next mb = 0 -> wf_mbuf mb -> 0 <= len <= TailRoomSize mb -> exists st',
    rte_pktmbuf_append m len st = Some (buf_addr mb + data_off mb + data_len mb, st') /\
    desc st' = <[m := set_data (data_off mb) (data_len mb + len) (pkt_len mb + len) mb]> (desc st) /\
    memory st' = memory st /\ (forall p, avail st' p = avail st p) /\ (valid st -> valid st')
}.

Section Laws.
Context {St : Type} `{RL : RteMbufLaws St}.

Lemma reset_wf mb : 0 <= buf_len mb < 65536 -> 0 < buf_addr mb -> buf_addr mb + buf_len mb < 2 ^ 64 -> wf_mbuf (reset_mbuf headroom mb).
Proof. pose proof headroom_pos. split; simpl; lia. Qed.

Lemma put_bytes_run p bs st : mapped (memory st) p (Z.of_nat (length bs)) ->
  put_bytes p bs st = Some (tt, with_memory (write (memory st) p bs) st).
Proof. intros M. unfold put_bytes. by rewrite store_bytes_mapped. Qed.

(** A successful append, and the copy of [k] recorded bytes behind the packet. *)
Lemma append_put m mb st k bs : desc st !! m = Some mb -> next mb = 0 -> wf_mbuf mb -> 0 <= k <= TailRoomSize mb ->
  mapped (memory st) (buf_addr mb + data_off mb + data_len mb) (Z.of_nat (length bs)) ->
  let tail := buf_addr mb + data_off mb + data_len mb in
  exists st1 st', rte_pktmbuf_append m k st = Some (tail, st1) /\ tail <> 0 /\ memory st1 = memory st /\
    put_bytes tail bs st1 = Some (tt, st') /\ memory st' = write (memory st) tail bs /\
    desc st' = <[m := set_data (data_off mb) (data_len mb + k) (pkt_len mb + k) mb]> (desc st) /\ (forall p, avail st' p = avail st p).
Proof.
  intros D N W Hk Mp tail. destruct (append_some m mb st k D N W Hk) as (st1 & A & D1 & M1 & V1 & _).
  exists st1, (with_memory (write (memory st) tail bs) st1). rewrite put_bytes_run by (by rewrite M1).
  rewrite M1, memory_with, desc_with. pose proof W as []. split_and!; try done; [unfold tail; lia|].
  intros p. by rewrite avail_with.
Qed.

(** [PktMbufAppend] of data that fits behind the packet makes the packet longer
    by that data and writes it there; with too little room it changes nothing and
    returns [ErrNullData]. But the length is cut to 16 bits before the room is
    checked: longer data whose remainder fits is copied in full, over whatever
    lies behind the buffer, and the result is nil. *)
Theorem PktMbufAppend_spec st m mb data (D : desc st !! m = Some mb) (N : next mb = 0) (W : wf_mbuf mb)
    (Mp : mapped (memory st) (buf_addr mb) (buf_len mb)) :
  let n := Z.of_nat (length data) in
  let tail := buf_addr mb + data_off mb + data_len mb in
  let grown k := set_data (data_off mb) (data_len mb + k) (pkt_len mb + k) mb in
  (n <= TailRoomSize mb -> exists st', PktMbufAppend m data st = Some (true, st') /\
     desc st' = <[m := grown n]> (desc st) /\
     (forall old, load_bytes (memory st) (Mbuf_L2 mb) (Z.to_nat (data_len mb)) = Some old ->
        slice_bytes (memory st') (Mbuf_Data (grown n)) = Some (old ++ data)) /\
     forall a, a < tail \/ tail + n <= a -> memory st' !! a = memory st !! a) /\
  (TailRoomSize mb < n < 65536 -> PktMbufAppend m data st = Some (false, st)) /\
  (65536 <= n -> u16 n <= TailRoomSize mb -> mapped (memory st) tail n ->
     exists st', PktMbufAppend m data st = Some (true, st') /\ desc st' = <[m := grown (u16 n)]> (desc st) /\
       memory st' !! (buf_addr mb + buf_len mb) = data !! Z.to_nat (TailRoomSize mb)).
Proof.
  intros n tail grown. pose proof (TailRoomSize_wf mb W) as T. pose proof (Mbuf_L2_wf mb W) as L2. pose proof W as [].
  unfold PktMbufAppend. fold n. split_and!.
  - intros Hn. rewrite (u16_small n) by lia.
    assert (Ms : mapped (memory st) tail n) by (apply (mapped_sub _ _ _ _ _ Mp); unfold tail; lia).
    destruct (append_put m mb st n data D N W ltac:(lia) Ms) as (st1 & st' & A & Ht & M1 & P & M2 & D2 & _).
    exists st'. unfold bind at 1. rewrite A. rewrite (proj2 (Z.eqb_neq _ _) Ht). unfold bind. rewrite P.
    split_and!; [done|done| |].
    + intros old Hold. unfold slice_bytes, Mbuf_Data, grown. cbn [s_ptr s_len set_data data_len data_off buf_addr].
      fold (Mbuf_L2 mb). replace (Z.to_nat (data_len mb + n)) with (Z.to_nat (data_len mb) + length data)%nat by lia.
      apply load_bytes_app. exists old, data. rewrite M2, L2 in *. rewrite Z2Nat.id by lia.
      split_and!; [|by apply load_write_same|done]. rewrite load_write_disj; [done|]. unfold tail. lia.
    + intros a Ha. rewrite M2. by apply lookup_write_out.
  - intros Hn. rewrite (u16_small n) by lia. unfold bind. by rewrite (append_none m mb st n D N W).
  - intros Hn Hu Ms. destruct (append_put m mb st (u16 n) data D N W ltac:(pose proof (u16_range n); lia) Ms)
      as (st1 & st' & A & Ht & M1 & P & M2 & D2 & _).
    exists st'. unfold bind at 1. rewrite A. rewrite (proj2 (Z.eqb_neq _ _) Ht). unfold bind. rewrite P.
    split_and!; [done|done|]. rewrite M2, lookup_write. rewrite decide_True by lia. f_equal. lia.
Qed.

(** The room behind the headroom in an mbuf of the pool. *)
Definition capacity (p : Z) : Z := room p - headroom `min` room p.

(** The packet that [m] holds. *)
Definition packet_of (st : St) (m : Z) : option (list Z) := mb ← desc st !! m; slice_bytes (memory st) (Mbuf_Data mb).

(** What [alloc_reset_and_append] does behind a successful allocation. *)
Lemma reset_append_ok m mb st len bs : desc st !! m = Some mb -> wf_mbuf (reset_mbuf headroom mb) ->
  mapped (memory st) (buf_addr mb) (buf_len mb) -> len = Z.of_nat (length bs) -> len <= buf_len mb - headroom `min` buf_len mb ->
  exists st1 st2 st3 data, rte_pktmbuf_reset m st = Some (tt, st1) /\ rte_pktmbuf_append m (u16 len) st1 = Some (data, st2) /\
    data <> 0 /\ memory st2 = memory st /\ put_bytes data bs st2 = Some (tt, st3) /\
    packet_of st3 m = Some bs /\ (forall m', m' <> m -> desc st3 !! m' = desc st !! m') /\ (forall p, avail st3 p = avail st p).
Proof.
  intros D W Mp -> Hl. pose proof headroom_pos. set (n := Z.of_nat (length bs)) in *.
  destruct (reset_law m mb st D) as (st1 & R & D1 & M1 & V1 & _). pose proof (TailRoomSize_wf _ W) as T.
  cbn [reset_mbuf buf_len data_off data_len] in T. pose proof (wf_buf _ W) as B. cbn [reset_mbuf buf_len] in B.
  pose proof (wf_off _ W) as Wo. cbn [reset_mbuf data_off] in Wo.
  set (tail := buf_addr mb + headroom `min` buf_len mb + 0).
  assert (Ms : mapped (memory st1) tail n). { rewrite M1. apply (mapped_sub _ _ _ _ _ Mp); unfold tail; lia. }
  destruct (append_put m (reset_mbuf headroom mb) st1 n bs) as (st2 & st3 & A & Ht & M2 & P & M3 & D3 & V3).
  1: { by rewrite D1, lookup_insert_eq. } 1: done. 1: done. 1: lia. 1: exact Ms.
  exists st1, st2, st3, tail. rewrite u16_small by lia. split_and!; [done|done|done|by rewrite M2|done| | |intros q; by rewrite V3].
  - unfold packet_of. rewrite D3, lookup_insert_eq. cbn [mbind option_bind]. unfold slice_bytes, Mbuf_Data.
    cbn [set_data reset_mbuf s_ptr s_len data_len data_off buf_addr]. rewrite M3. unfold ptr_add.
    pose proof (wf_nowrap _ W) as Nw. cbn [reset_mbuf buf_addr buf_len] in Nw. pose proof (wf_addr _ W) as Pa. cbn [reset_mbuf buf_addr] in Pa.
    rewrite u64_small by lia. unfold reset_mbuf. cbn [buf_addr data_off data_len].
    rewrite Z.add_0_r. apply load_write_same. lia.
  - intros m' Hm. by rewrite D3, D1, !lookup_insert_ne by done.
Qed.

Lemma AllocResetAndAppend_leak st p data n : valid st -> 0 <= Len data < 65536 -> avail st p = S n -> capacity p < Len data ->
  exists st', AllocResetAndAppend p data st = Some (0, st') /\ avail st' p = n /\ size (desc st') = S (size (desc st)) /\ valid st'.
Proof.
  intros Vs Hl V C. pose proof headroom_pos. pose proof (room_range p). unfold capacity in C.
  destruct (alloc_some p st n Vs V) as (m & mb & st1 & A & Hm & F & D1 & B & Pa & Pw & M1 & Mp & V1 & Va).
  destruct (reset_law m mb st1) as (st2 & R & D2 & M2 & V2 & Va2); [by rewrite D1, lookup_insert_eq|].
  assert (W : wf_mbuf (reset_mbuf headroom mb)) by (apply reset_wf; lia).
  pose proof (TailRoomSize_wf _ W) as T. cbn [reset_mbuf buf_len data_off data_len] in T.
  exists st2. split_and!; [|by rewrite V2| |by apply Va2].
  - unfold AllocResetAndAppend, alloc_reset_and_append, bind. rewrite A. rewrite (proj2 (Z.eqb_neq _ _) Hm), R.
    rewrite (u64_small (Len data)), u16_small by lia.
    rewrite (append_none m (reset_mbuf headroom mb) st2) by first [done | by rewrite D2, lookup_insert_eq | lia]. done.
  - rewrite D2, D1, insert_insert_eq. by rewrite map_size_insert_None.
Qed.

(** [AllocResetAndAppend] takes an mbuf from the pool and fills it with the
    data, when there is one and the data fits behind the headroom; it returns
    nil on an empty pool. It also returns nil when the data does not fit, but
    then the mbuf it took stays in use though nobody has it: as many such calls
    as there are mbufs in the pool empty it. *)
Theorem AllocResetAndAppend_spec st p data bs (Vs : valid st) (Hl : 0 <= Len data < 65536)
    (L : load_bytes (memory st) (Ptr data) (Z.to_nat (Len data)) = Some bs) :
  (avail st p = 0%nat -> AllocResetAndAppend p data st = Some (0, st)) /\
  (forall n, avail st p = S n -> Len data <= capacity p -> exists m st',
     AllocResetAndAppend p data st = Some (m, st') /\ m <> 0 /\ desc st !! m = None /\
     packet_of st' m = Some bs /\ (forall m', m' <> m -> desc st' !! m' = desc st !! m') /\ avail st' p = n) /\
  (capacity p < Len data -> exists st',
     Nat.iter (avail st p) (fun r => '(_, st) ← r; AllocResetAndAppend p data st) (Some (0, st)) = Some (0, st') /\
     avail st' p = 0%nat /\ size (desc st') = (size (desc st) + avail st p)%nat).
Proof.
  split_and!.
  - intros V. unfold AllocResetAndAppend, alloc_reset_and_append, bind. by rewrite alloc_none.
  - intros n V C. pose proof headroom_pos. pose proof (room_range p). unfold capacity in C.
    destruct (alloc_some p st n Vs V) as (m & mb & st1 & A & Hm & F & D1 & B & Pa & Pw & M1 & Mp & V1 & Va).
    destruct (reset_append_ok m mb st1 (Len data) bs) as (st2 & st3 & st4 & q & R & A3 & Hq & M3 & P & K & O & V4).
    { by rewrite D1, lookup_insert_eq. } { apply reset_wf; lia. } { by rewrite M1. }
    { rewrite (load_bytes_length _ _ _ _ L). lia. } { rewrite B. lia. }
    exists m, st4. split_and!; [|done|done|done| |by rewrite V4].
    + unfold AllocResetAndAppend, alloc_reset_and_append, bind. rewrite A. rewrite (proj2 (Z.eqb_neq _ _) Hm), R.
      rewrite (u64_small (Len data)) by lia. rewrite A3. rewrite (proj2 (Z.eqb_neq _ _) Hq). unfold get_bytes.
      rewrite M3, M1, L. by rewrite P.
    + intros m' N. by rewrite O, D1, lookup_insert_ne by done.
  - intros C. clear L. remember (avail st p) as k eqn:V. revert st Vs V.
    induction k as [|k IH]; intros st Vs V; [exists st; by rewrite Nat.add_0_r|].
    destruct (AllocResetAndAppend_leak st p data k Vs Hl (eq_sym V) C) as (st1 & A & V1 & S1 & Vs1).
    destruct (IH st1 Vs1 (eq_sym V1)) as (st' & It & V' & S'). exists st'. split_and!; [|done|lia].
    rewrite Nat.iter_succ_r. cbn [mbind option_bind]. by rewrite A.
Qed.
End Laws.

(** ** A pool in one block of memory

    Four mbufs of 512 bytes each, from address 65536; the headroom is 128. *)
Record block := mkBlock { b_mem : mem; b_desc : gmap Z Mbuf; b_refs : gmap Z Z }.

Definition slot_mbuf (m : Z) : Mbuf := mkMbuf (65536 + 512 * m) 128 0 0 512 0 1 0 0.
Definition free_slots (st : block) : list Z := filter (fun m => b_desc st !! m = None) [1; 2; 3; 4].
Definition set_slots (f : gmap Z Mbuf -> gmap Z Mbuf) (st : block) : block := mkBlock (b_mem st) (f (b_desc st)) (b_refs st).
Definition on_slot {A} (m : Z) (f : Mbuf -> A * Mbuf) : M block A := fun st =>
  match b_desc st !! m with None => None | Some mb => let '(a, mb) := f mb in Some (a, set_slots (insert m mb) st) end.

#[export] Instance block_RteMbuf : RteMbuf block := {
  memory := b_mem;
  with_memory m st := mkBlock m (b_desc st) (b_refs st);
  rte_pktmbuf_alloc _ st := match free_slots st with [] => Some (0, st) | m :: _ => Some (m, set_slots (insert m (slot_mbuf m)) st) end;
  rte_pktmbuf_alloc_bulk _ n st :=
    if (length (free_slots st) <? n)%nat then Some ((-2, []), st)
    else Some ((0, take n (free_slots st)), set_slots (fun d => foldr (fun m => insert m (slot_mbuf m)) d (take n (free_slots st))) st);
  rte_pktmbuf_free m := on_slot m (fun mb => (tt, mb)) ;; modify (set_slots (delete m));
  rte_pktmbuf_clone _ _ := ret 0;
  rte_pktmbuf_reset m := on_slot m (fun mb => (tt, reset_mbuf 128 mb));
  rte_pktmbuf_append m len := fun st =>
    match b_desc st !! m with
    | None => None
    | Some mb =>
        if TailRoomSize mb <? len then Some (0, st)
        else Some (buf_addr mb + data_off mb + data_len mb,
                   set_slots (insert m (set_data (data_off mb) (data_len mb + len) (pkt_len mb + len) mb)) st)
    end;
  rte_mbuf_refcnt_read m st := Some (default 1 (b_refs st !! m), st);
  rte_mbuf_refcnt_update m v st := let n := default 1 (b_refs st !! m) + v in Some (n, mkBlock (b_mem st) (b_desc st) (<[m := n]> (b_refs st)));
  rte_mbuf_refcnt_set m v st := Some (tt, mkBlock (b_mem st) (b_desc st) (<[m := v]> (b_refs st)))
}.

Lemma free_slots_elem st m : m ∈ free_slots st -> 1 <= m <= 4 /\ b_desc st !! m = None.
Proof.
  unfold free_slots. intros H. apply list_elem_of_filter in H as [E H]. split; [|done].
  repeat (apply elem_of_cons in H as [->|H]; [lia|]). by apply elem_of_nil in H.
Qed.

Lemma filter_other (d : gmap Z Mbuf) m mb (k : list Z) : m ∉ k ->
  filter (fun x => <[m := mb]> d !! x = None) k = filter (fun x => d !! x = None) k.
Proof.
  induction k as [|x k IH]; intros N; [done|]. apply not_elem_of_cons in N as [Nx N].
  rewrite !filter_cons, IH, lookup_insert_ne by done. done.
Qed.

Lemma filter_taken (d : gmap Z Mbuf) m mb l (k : list Z) : NoDup k -> filter (fun x => d !! x = None) k = m :: l ->
  filter (fun x => <[m := mb]> d !! x = None) k = l.
Proof.
  induction 1 as [|x k Hx ND IH]; intros F; [done|]. rewrite filter_cons in F |- *.
  case_decide as D1.
  - injection F as -> <-. rewrite decide_False by (by rewrite lookup_insert_eq).
    by apply filter_other.
  - assert (M : d !! m = None) by (apply (list_elem_of_filter (fun x => d !! x = None) k m); rewrite F; set_solver).
    rewrite decide_False; [by apply IH|]. rewrite lookup_insert_ne; [done|]. by intros ->.
Qed.

Lemma free_slots_insert st m l mb : free_slots st = m :: l -> free_slots (set_slots (insert m mb) st) = l.
Proof. apply filter_taken. repeat constructor; set_solver. Qed.

Lemma free_slots_update st m mb0 mb : b_desc st !! m = Some mb0 -> free_slots (set_slots (insert m mb) st) = free_slots st.
Proof.
  intros D. unfold free_slots. apply list_filter_iff. intros x. cbn [b_desc set_slots].
  destruct (decide (x = m)) as [->|]; [by rewrite lookup_insert_eq, D|by rewrite lookup_insert_ne].
Qed.
#[local] Opaque free_slots.

#[export] Program Instance block_RteMbufLaws : RteMbufLaws block := {
  valid st := mapped (b_mem st) 65536 4096;
  desc := b_desc;
  avail st _ := length (free_slots st);
  room _ := 512;
  headroom := 128
}.
Next Obligation. done. Qed.
Next Obligation. intros. simpl. lia. Qed.
Next Obligation. done. Qed.
Next Obligation. done. Qed.
Next Obligation. done. Qed.
Next Obligation. intros p bs st V. by apply mapped_write. Qed.
Next Obligation. intros p st V. cbn in *. by destruct (free_slots st). Qed.
Next Obligation.
  intros p st n V A. cbn in *. destruct (free_slots st) as [|m l] eqn:F; [done|].
  destruct (free_slots_elem st m) as [R E]; [rewrite F; set_solver|].
  exists m, (slot_mbuf m), (set_slots (insert m (slot_mbuf m)) st). cbn. split_and!; try (done || lia).
  - apply (mapped_sub _ _ _ _ _ V); lia.
  - rewrite (free_slots_insert st m l) by done. by injection A.
Qed.
Next Obligation.
  intros m mb st D. cbn in *. unfold on_slot. rewrite D. eexists. split_and!; try done.
  intros _. by rewrite (free_slots_update st m mb).
Qed.
Next Obligation.
  intros m mb st len D N W T. cbn in *. rewrite D. by rewrite (proj2 (Z.ltb_lt _ _)) by lia.
Qed.
Next Obligation.
  intros m mb st len D N W T. cbn in *. rewrite D. rewrite (proj2 (Z.ltb_ge _ _)) by lia.
  eexists. split_and!; try done. intros _. by rewrite (free_slots_update st m mb).
Qed.
#[local] Transparent free_slots.

Definition sample_block : block :=
  mkBlock (write ∅ 65536 (replicate (Z.to_nat 5000) 7)) {[1 := set_data 128 300 300 (slot_mbuf 1)]} ∅.

Lemma sample_block_mapped a n : 65536 <= a -> a + n <= 70536 -> mapped (b_mem sample_block) a n.
Proof.
  intros Ha Hn i Hi. cbn [b_mem sample_block]. rewrite lookup_write.
  rewrite decide_True by (rewrite length_replicate; lia). apply lookup_lt_is_Some_2. rewrite length_replicate. lia.
Qed.

Lemma PktMbufAppend_spec_witness :
  (exists st', PktMbufAppend 1 [1; 2; 3] sample_block = Some (true, st') /\
     b_desc st' !! 1 = Some (set_data 128 303 303 (slot_mbuf 1))) /\
  PktMbufAppend 1 (replicate 85 0) sample_block = Some (false, sample_block).
Proof.
  assert (W : wf_mbuf (set_data 128 300 300 (slot_mbuf 1))) by (split; vm_compute; done).
  assert (D : desc sample_block !! 1 = Some (set_data 128 300 300 (slot_mbuf 1))) by apply lookup_insert_eq.
  assert (Mp : mapped (memory sample_block) 66048 512) by (apply sample_block_mapped; lia).
  split.
  - destruct (PktMbufAppend_spec sample_block 1 (set_data 128 300 300 (slot_mbuf 1)) [1; 2; 3] D eq_refl W Mp) as [H _].
    destruct H as (st' & E & D1 & _); [vm_compute; discriminate|]. exists st'. split; [exact E|]. cbn [desc block_RteMbufLaws] in D1.
    rewrite D1. apply lookup_insert_eq.
  - destruct (PktMbufAppend_spec sample_block 1 (set_data 128 300 300 (slot_mbuf 1)) (replicate 85 0) D eq_refl W Mp) as (_ & H & _).
    apply H. rewrite length_replicate. split; reflexivity.
Defined.

(** Four bytes are copied into one of the three free mbufs; packets of 385 bytes
    do not fit, and three of them empty the pool. *)
Lemma AllocResetAndAppend_spec_witness :
  (exists m st', AllocResetAndAppend 1 (mkCStruct 65540 4) sample_block = Some (m, st') /\
     packet_of st' m = Some [7; 7; 7; 7] /\ avail st' 1 = 2%nat) /\
  (exists st', Nat.iter 3 (fun r => '(_, st) ← r; AllocResetAndAppend 1 (mkCStruct 65540 385) st) (Some (0, sample_block)) = Some (0, st') /\
     avail st' 1 = 0%nat /\ size (b_desc st') = 4%nat).
Proof.
  assert (V : valid sample_block) by (apply sample_block_mapped; lia).
  split.
  - destruct (AllocResetAndAppend_spec sample_block 1 (mkCStruct 65540 4) [7; 7; 7; 7] V) as (_ & H & _).
    + simpl. lia.
    + vm_compute. reflexivity.
    + destruct (H 2%nat) as (m & st' & A & _ & _ & P & _ & R); [vm_compute; reflexivity|vm_compute; discriminate|]. exists m, st'. split; [exact A|]. split; [exact P|exact R].
  - destruct (AllocResetAndAppend_spec sample_block 1 (mkCStruct 65540 385) (replicate 385 7) V) as (_ & _ & H).
    + simpl. lia.
    + vm_compute. reflexivity.
    + destruct H as (st' & A & E & S); [vm_compute; reflexivity|]. exists st'. split; [exact A|]. split; [exact E|exact S].
Defined.
