(* ===== verification/Loop.v ===== *)
(** * The test-sniffer application: the loop of an lcore

    The receive loop of [src/app/test-sniffer/lcores.go] [LcoreFunc] around the
    answers of [Echo]: transmit what is buffered, receive a burst, answer or free
    each packet, count the burst. DPDK, its devices and pools and everybody else
    who uses them are one state, of the class [Dpdk]: each of its functions may
    change the memory of all packets and their descriptors. [RxBurst] brings
    packets that were not there before, and an mbuf that is given back can have
    another owner and other contents when the call returns. *)

From Stdlib Require Import ZArith Lia.
From stdpp Require Import base list numbers option gmap sets.
From S2P Require Import Prelude Memory Text Types Mbuf Headers Parse ParseSpec Checksum Build Echo Sniffer.

Open Scope Z_scope.
Open Scope go_scope.

(** What the program shares with DPDK: memory and descriptors. *)
Definition packets : Type := mem * gmap Z Mbuf.

(** The C functions, with DPDK and its environment in state [D]:
    [rte_eth_rx_burst(port, queue, mbufs, nb)] with the mbufs it gives,
    [rte_pktmbuf_free(mbuf)], [rte_eth_tx_buffer(port, queue, buffer, mbuf)] and the
    flush, with the number of packets sent. *)
Class Dpdk (D : Type) := {
  rte_eth_rx_burst (pid qid nb : Z) : D -> packets -> list Z * (D * packets);
  rte_pktmbuf_free (m : Z) : D -> packets -> unit * (D * packets);
  rte_eth_tx_buffer (pid qid m : Z) : D -> packets -> Z * (D * packets);
  rte_eth_tx_buffer_flush (pid qid : Z) : D -> packets -> Z * (D * packets)
}.

Section Loop.
Context {D : Type} `{Dpdk D}.

Record lcore_st := mkLcoreSt { world : World; dpdk : D; rx_packets : Z; rx_bytes : Z }.

Definition on_world {A} (m : M World A) : M lcore_st A := fun s =>
  match m (world s) with
  | None => None
  | Some (a, w) => Some (a, mkLcoreSt w (dpdk s) (rx_packets s) (rx_bytes s))
  end.

(** The program's memory as DPDK sees it, and after a call. *)
Definition shared (s : lcore_st) : packets := (heap (world s), mbufs (world s)).
Definition after (d : D) (p : packets) (s : lcore_st) : lcore_st :=
  mkLcoreSt (set_mbufs (snd p) (set_heap (fst p) (world s))) d (rx_packets s) (rx_bytes s).
Definition C_call {A} (f : D -> packets -> A * (D * packets)) : M lcore_st A := fun s =>
  let '(a, (d, p)) := f (dpdk s) (shared s) in Some (a, after d p s).

Variable pq : PortQueue.

(* go: ethdev/rxtx.go Port.TxBufferFlush *)
Definition TxBufferFlush : M lcore_st Z :=
  let! n := C_call (rte_eth_tx_buffer_flush (Pid pq) (RxQid pq)) in ret (u16 n).
(* go: ethdev/rxtx.go Port.TxBuffer *)
Definition TxBuffer_ (m : Z) : M lcore_st Z :=
  let! n := C_call (rte_eth_tx_buffer (Pid pq) (RxQid pq) m) in ret (u16 n).
(** The part of the slice that was filled, [buf[:n]]. *)
(* go: ethdev/rxtx.go Port.RxBurst *)
Definition RxBurst (burst : Z) : M lcore_st (list Z) := C_call (rte_eth_rx_burst (Pid pq) (RxQid pq) burst).
(* go: mbuf/mbuf.go Mbuf.PktMbufFree *)
Definition free_mbuf (m : Z) : M lcore_st unit := C_call (rte_pktmbuf_free m).

(** One packet of the burst: answered and buffered, or freed. *)
(* go: app/test-sniffer/lcores.go 305-305 LcoreFunc *)
Definition process (c : Z) : M lcore_st unit :=
  let! v := on_world (answer c) in
  match v with
  | PktMbufFree => free_mbuf c
  | TxBuffer => TxBuffer_ c ;; ret tt
  end.

Fixpoint process_all (buf : list Z) : M lcore_st unit :=
  match buf with
  | [] => ret tt
  | c :: r => process c ;; process_all r
  end.

(** [len(m.Data())] of each mbuf of the burst, from the descriptors of now. *)
Definition data_lens (buf : list Z) : M World (list Z) := fun w =>
  match mapM (fun c => mb ← mbufs w !! c; Some (s_len (Mbuf_Data mb))) buf with None => None | Some l => Some (l, w) end.
(* go: app/test-sniffer/lcores.go 307-307 LcoreFunc *)
Definition count_burst (buf : list Z) : M lcore_st unit :=
  let! lens := on_world (data_lens buf) in
  modify (fun s => let '(p, b) := Incr (rx_packets s) (rx_bytes s) lens in mkLcoreSt (world s) (dpdk s) p b).

(** The flag [burstSize]. *)
Variable burstSize : Z.

(** The burst of an iteration. *)
Definition receive : M lcore_st (list Z) := TxBufferFlush ;; RxBurst (u16 burstSize).
(* go: app/test-sniffer/lcores.go 125-133 LcoreFunc *)
Definition iteration : M lcore_st unit :=
  let! buf := receive in
  process_all buf ;; count_burst buf.

(** The first [k] iterations of the loop, which has no end. *)
(* go: app/test-sniffer/lcores.go 105-124 LcoreFunc *)
Fixpoint LcoreFunc (dryRun : bool) (k : nat) : M lcore_st unit :=
  if dryRun then ret tt
  else
    match k with
    | O => ret tt
    | S k => iteration ;; LcoreFunc dryRun k
    end.
End Loop.
Arguments lcore_st : clear implicits.

(** ** Descriptors stay as they are

    Answering a packet changes its bytes, never its descriptor. *)
Definition keeps {A} (m : M World A) : Prop := forall w a w', m w = Some (a, w') -> mbufs w' = mbufs w.

Ltac keeps_leaf f := intros w a w'; unfold f; repeat case_match; intros; by simplify_eq.

Lemma keeps_ret {A} (a : A) : keeps (ret a).
Proof. intros w a' w' [=]. by subst. Qed.
Lemma keeps_panic {A} : keeps (panic (A := A)).
Proof. by intros w a w'. Qed.
Lemma keeps_bind {A C} (m : M World A) (k : A -> M World C) : keeps m -> (forall a, keeps (k a)) -> keeps (bind m k).
Proof.
  intros Hm Hk w c w'. unfold bind. destruct (m w) as [[a w1]|] eqn:E; [|done]. intros K.
  rewrite (Hk a w1 c w' K). by apply (Hm w a).
Qed.
Lemma keeps_getP {A} (f : Packet -> A) : keeps (getP f).
Proof. intros w a w' [=]. by subst. Qed.
Lemma keeps_putP f : keeps (putP f).
Proof. intros w a w' [=]. by subst. Qed.
Lemma keeps_of_mbuf {A} c (f : Mbuf -> A) : keeps (of_mbuf c f).
Proof. keeps_leaf @of_mbuf. Qed.
Lemma keeps_rd h f : keeps (rd h f).
Proof. keeps_leaf rd. Qed.
Lemma keeps_rdb h f : keeps (rdb h f).
Proof. keeps_leaf rdb. Qed.
Lemma keeps_peek p n : keeps (peek p n).
Proof. keeps_leaf peek. Qed.
Lemma keeps_wr h f v : keeps (wr h f v).
Proof. keeps_leaf wr. Qed.
Lemma keeps_wrb h f v : keeps (wrb h f v).
Proof. keeps_leaf wrb. Qed.

Create HintDb keeps.
#[export] Hint Resolve keeps_ret keeps_panic keeps_getP keeps_putP keeps_of_mbuf keeps_rd keeps_rdb keeps_peek keeps_wr keeps_wrb : keeps.

(** One rule, or the definition at the head. *)
Ltac head_of t := lazymatch t with ?f _ => head_of f | _ => t end.
Ltac keep :=
  repeat first
    [ solve [eauto 1 with keeps]
    | apply keeps_bind; [|intros]
    | lazymatch goal with
      | |- keeps (if ?b then _ else _) => destruct b
      | |- keeps (match ?x with _ => _ end) => destruct x
      | |- keeps ?m => let h := head_of m in unfold h
      end ].

Lemma keeps_sum_words p n : forall sum, keeps (sum_words p n sum).
Proof. revert p. induction n as [|n IH]; intros p sum; cbn [sum_words]; [apply keeps_ret|]. apply keeps_bind; [apply keeps_peek|]. auto. Qed.
#[export] Hint Resolve keeps_sum_words : keeps.

Lemma keeps_answer c : keeps (answer c).
Proof. keep. Qed.
