(* ===== verification/LoopSpec.v ===== *)
(** * The loop of an lcore: theorems

    Every packet received is given back exactly once, freed or handed to the
    transmit buffer in order, and counted; but it is counted after that, when its
    mbuf can be another packet's. *)

From Stdlib Require Import ZArith Lia.
From stdpp Require Import base list numbers option gmap sets.
From S2P Require Import Prelude Memory Text Types Mbuf Headers Parse ParseSpec Checksum Build Echo EchoSpec BuildSpec Sniffer Loop.

Open Scope Z_scope.
Open Scope go_scope.

(** What has gone through a queue: packets received, freed by the program, out of
    the transmit buffer (sent or freed by its error callback) and in it, each in
    order. *)
Record ledger := mkLedger { received_ : list Z; freed_ : list Z; gone : list Z; pending : list Z }.

(** Descriptors with 16-bit lengths; and that none of them vanishes: the memory of
    a pool stays where it is, whatever is written there. *)
Definition lens_ok (ms : gmap Z Mbuf) : Prop := map_Forall (fun _ mb => 0 <= data_len mb < 65536) ms.
Definition stays (p p' : packets) : Prop :=
  (forall c, is_Some (snd p !! c) -> is_Some (snd p' !! c)) /\ (lens_ok (snd p) -> lens_ok (snd p')).

(** What the comments of [RxBurst], [PktMbufFree], [TxBuffer] and [TxBufferFlush]
    say. Nothing is said of the bytes and descriptors behind a call. *)
Class DpdkLaws (D : Type) `{Dpdk D} := {
  book : D -> ledger;
  rx_law pid qid nb d p : 0 <= nb < 65536 -> let '(buf, (d', p')) := rte_eth_rx_burst pid qid nb d p in
    Z.of_nat (length buf) <= nb /\ Forall (fun c => is_Some (snd p' !! c)) buf /\ stays p p' /\
    book d' = mkLedger (received_ (book d) ++ buf) (freed_ (book d)) (gone (book d)) (pending (book d));
  free_law m d p : let '(_, (d', p')) := rte_pktmbuf_free m d p in
    stays p p' /\ book d' = mkLedger (received_ (book d)) (freed_ (book d) ++ [m]) (gone (book d)) (pending (book d));
  buffer_law pid qid m d p : let '(_, (d', p')) := rte_eth_tx_buffer pid qid m d p in
    stays p p' /\ received_ (book d') = received_ (book d) /\ freed_ (book d') = freed_ (book d) /\
    gone (book d') ++ pending (book d') = gone (book d) ++ pending (book d) ++ [m];
  flush_law pid qid d p : let '(_, (d', p')) := rte_eth_tx_buffer_flush pid qid d p in
    stays p p' /\ book d' = mkLedger (received_ (book d)) (freed_ (book d)) (gone (book d) ++ pending (book d)) []
}.

(** The packets with the verdict [v]. *)
Definition chosen (v : verdict) (vs : list verdict) (buf : list Z) : list Z :=
  map snd (filter (fun x => fst x = v) (zip vs buf)).

Lemma chosen_app v va vb a b : length va = length a -> chosen v (va ++ vb) (a ++ b) = chosen v va a ++ chosen v vb b.
Proof. intros L. unfold chosen. by rewrite zip_with_app, filter_app, map_app. Qed.

Lemma chosen_cons v x vs c buf : chosen v (x :: vs) (c :: buf) = (if decide (x = v) then [c] else []) ++ chosen v vs buf.
Proof. unfold chosen. cbn [zip zip_with]. rewrite filter_cons. cbn [fst]. by case_decide. Qed.

(** The length [Data] has for the packet of an mbuf. *)
Definition len_of (w : World) (c : Z) : Z := match mbufs w !! c with Some mb => data_len mb | None => 0 end.

Lemma data_lens_run buf w : Forall (fun c => is_Some (mbufs w !! c)) buf -> data_lens buf w = Some (map (len_of w) buf, w).
Proof.
  intros F. unfold data_lens.
  assert (E : mapM (fun c => mb ← mbufs w !! c; Some (s_len (Mbuf_Data mb))) buf = Some (map (len_of w) buf)); [|by rewrite E].
  induction F as [|c r [mb E] _ IH]; [done|]. cbn [mapM map]. unfold len_of at 1. by rewrite E, IH.
Qed.

Lemma foldl_u64 lens : forall a, 0 <= a -> Forall (fun l => 0 <= l < 65536) lens ->
  a + 65536 * Z.of_nat (length lens) < 2 ^ 64 -> foldl (fun s l => u64 (s + l)) a lens = a + sumZ lens.
Proof.
  induction lens as [|l r IH]; intros a Ha F Hb; [simpl; lia|]. apply Forall_cons in F as [Hl F].
  cbn [length foldl sumZ foldr] in *. fold (sumZ r). rewrite u64_small by lia. rewrite IH by (done || lia). lia.
Qed.

Lemma len_of_range w c : lens_ok (mbufs w) -> 0 <= len_of w c < 65536.
Proof. intros L. unfold len_of. destruct (mbufs w !! c) as [mb|] eqn:E; [by apply (L c)|lia]. Qed.

Section Spec.
Context {D : Type} `{TL : DpdkLaws D} (pq : PortQueue) (burstSize : Z).

Definition entries (s : lcore_st D) : ledger := book (dpdk s).
Definition received (s : lcore_st D) : list Z := received_ (entries s).
Definition freed (s : lcore_st D) : list Z := freed_ (entries s).
(** All packets the transmit buffer was given, in order. *)
Definition handed (s : lcore_st D) : list Z := gone (entries s) ++ pending (entries s).

(** What a step leaves of the counters and of the descriptors. *)
Definition steady (s s' : lcore_st D) : Prop :=
  stays (shared s) (shared s') /\ rx_packets s' = rx_packets s /\ rx_bytes s' = rx_bytes s.

Lemma steady_refl s : steady s s.
Proof. unfold steady, stays. auto. Qed.
Lemma steady_trans s1 s2 s3 : steady s1 s2 -> steady s2 s3 -> steady s1 s3.
Proof. intros ((A & B) & P & Q) ((A' & B') & P' & Q'). unfold steady, stays. split_and!; [auto|auto|congruence|congruence]. Qed.

Lemma answer_has_mbuf c w : answer c w <> None -> is_Some (mbufs w !! c).
Proof.
  unfold answer, VxlanDecap, ParseL2, bind. intros A. destruct (mbufs w !! c) as [mb|] eqn:E; [done|].
  exfalso. apply A. cbn. unfold of_mbuf, set_pkt. cbn. by rewrite E.
Qed.

(** An answer leaves all but the bytes as it was. *)
Lemma on_answer c s : match answer c (world s) with
  | None => on_world (answer c) s = None
  | Some (v, w) => exists s', on_world (answer c) s = Some (v, s') /\ dpdk s' = dpdk s /\ steady s s'
  end.
Proof.
  unfold on_world. destruct (answer c (world s)) as [[v w]|] eqn:A; [|done]. eexists. split; [done|]. split; [done|].
  pose proof (keeps_answer c _ _ _ A) as K. unfold steady, stays, shared. cbn. by rewrite K.
Qed.

Lemma free_run c s : exists s', free_mbuf c s = Some (tt, s') /\ steady s s' /\
  entries s' = mkLedger (received s) (freed s ++ [c]) (gone (entries s)) (pending (entries s)).
Proof.
  unfold free_mbuf, C_call. pose proof (free_law c (dpdk s) (shared s)) as F.
  destruct (rte_pktmbuf_free c (dpdk s) (shared s)) as [[] [d p]]. destruct F as [St B]. eexists. split; [done|]. by destruct p.
Qed.

Lemma buffer_run c s : exists s', (TxBuffer_ pq c ;; ret tt) s = Some (tt, s') /\ steady s s' /\
  received s' = received s /\ freed s' = freed s /\ handed s' = handed s ++ [c].
Proof.
  unfold TxBuffer_, bind, C_call. pose proof (buffer_law (Pid pq) (RxQid pq) c (dpdk s) (shared s)) as F.
  destruct (rte_eth_tx_buffer _ _ c (dpdk s) (shared s)) as [n [d p]]. destruct F as (St & R & Fr & B). eexists. split; [done|].
  unfold handed, received, freed, entries. cbn. rewrite <- app_assoc. by destruct p.
Qed.

(** One packet: freed or handed on, as its answer says. *)
Lemma process_run c s : match answer c (world s) with
  | None => process pq c s = None
  | Some (v, _) => exists s', process pq c s = Some (tt, s') /\ steady s s' /\ received s' = received s /\
      freed s' = freed s ++ chosen PktMbufFree [v] [c] /\ handed s' = handed s ++ chosen TxBuffer [v] [c]
  end.
Proof.
  pose proof (on_answer c s) as A. destruct (answer c (world s)) as [[v w]|].
  2: { unfold process, bind. by rewrite A. }
  destruct A as (s1 & A & E & K). unfold process. rewrite (bind_some _ _ _ _ _ A). clear A. assert (E' : entries s1 = entries s) by (unfold entries; by rewrite E). destruct v.
  - destruct (free_run c s1) as (s' & R & K' & B). exists s'. split; [exact R|]. split; [by eapply steady_trans|].
    unfold received, freed, handed in *. rewrite B, E'. cbn. by rewrite app_nil_r.
  - destruct (buffer_run c s1) as (s' & R & K' & B1 & B2 & B3). exists s'. split; [exact R|]. split; [by eapply steady_trans|].
    unfold received, freed, handed in *. rewrite B1, B2, B3, E'. cbn. by rewrite app_nil_r.
Qed.

Lemma process_all_app a r s : process_all pq (a ++ r) s = (process_all pq a ;; process_all pq r) s.
Proof.
  revert s. induction a as [|c a IH]; intros s; [done|]. cbn [app process_all]. unfold bind.
  destruct (process pq c s) as [[[] s1]|]; [|done]. by rewrite IH.
Qed.

(** The packets of a burst are given back as their answers say, each answer being
    the one in the memory as it is when the packet's turn comes. *)
Lemma process_all_run buf : forall s,
  match process_all pq buf s with
  | None => exists a c r s1, buf = a ++ c :: r /\ process_all pq a s = Some (tt, s1) /\ answer c (world s1) = None
  | Some (_, s') => exists vs, length vs = length buf /\ steady s s' /\ received s' = received s /\
      freed s' = freed s ++ chosen PktMbufFree vs buf /\ handed s' = handed s ++ chosen TxBuffer vs buf /\
      Forall (fun c => is_Some (mbufs (world s') !! c)) buf /\
      forall i c v, buf !! i = Some c -> vs !! i = Some v ->
        exists s1 w, process_all pq (take i buf) s = Some (tt, s1) /\ answer c (world s1) = Some (v, w)
  end.
Proof.
  induction buf as [|c r IH]; intros s; cbn [process_all].
  - exists []. rewrite !app_nil_r. split; [done|]. split; [apply steady_refl|done].
  - unfold bind. pose proof (process_run c s) as P. destruct (answer c (world s)) as [[v w]|] eqn:A.
    2: { rewrite P. by exists [], c, r, s. }
    destruct P as (s1 & P & K & R & F & G). rewrite P. specialize (IH s1). destruct (process_all pq r s1) as [[[] s']|].
    + destruct IH as (vs & Lv & K' & R' & F' & G' & Al & T). exists (v :: vs).
      rewrite F', F, G', G, R', R, <- !app_assoc. change (v :: vs) with ([v] ++ vs). change (c :: r) with ([c] ++ r).
      rewrite !chosen_app by done. split_and!; [simpl; lia|by eapply steady_trans|done|done|done| |].
      * constructor; [|done]. apply K', K. apply answer_has_mbuf. by rewrite A.
      * intros [|i] c' v' Hc Hv; cbn in Hc, Hv.
        { injection Hc as <-. injection Hv as <-. by exists s, w. }
        destruct (T i c' v' Hc Hv) as (s2 & w' & Pi & An). exists s2, w'. cbn [app take process_all]. unfold bind. by rewrite P.
    + destruct IH as (a & c' & r' & s2 & -> & Pa & An). exists (c :: a), c', r', s2. cbn [app process_all]. unfold bind. by rewrite P.
Qed.

(** In the iteration from [s], packet [i] of the burst is [c], and [s'] is the state
    in which its turn comes. *)
Definition at_turn (s : lcore_st D) (i : nat) (c : Z) (s' : lcore_st D) : Prop :=
  exists s1 buf, receive pq burstSize s = Some (buf, s1) /\ buf !! i = Some c /\ process_all pq (take i buf) s1 = Some (tt, s').

(** An iteration: its burst, its verdicts and the memory when the burst is counted. *)
Record round := mkRound { r_buf : list Z; r_verdicts : list verdict; r_end : World }.

(** The iteration from [s] to [s'] is the round [r]. *)
Definition plays (s s' : lcore_st D) (r : round) : Prop :=
  length (r_verdicts r) = length (r_buf r) /\ Z.of_nat (length (r_buf r)) <= u16 burstSize /\ r_end r = world s' /\
  forall i c v, r_buf r !! i = Some c -> r_verdicts r !! i = Some v ->
    exists s1 w, at_turn s i c s1 /\ answer c (world s1) = Some (v, w).

Definition r_bytes (r : round) : Z := sumZ (map (len_of (r_end r)) (r_buf r)).

(** The books and the counters of [s'] are those of [s] and the round. *)
Definition accounts (s s' : lcore_st D) (buf : list Z) (vs : list verdict) (bytes : Z) : Prop :=
  received s' = received s ++ buf /\ freed s' = freed s ++ chosen PktMbufFree vs buf /\
  handed s' = handed s ++ chosen TxBuffer vs buf /\
  rx_packets s' = rx_packets s + Z.of_nat (length buf) /\ rx_bytes s' = rx_bytes s + bytes.

Lemma receive_run s : exists buf s', receive pq burstSize s = Some (buf, s') /\ steady s s' /\
  Z.of_nat (length buf) <= u16 burstSize /\ received s' = received s ++ buf /\ freed s' = freed s /\ handed s' = handed s.
Proof.
  unfold receive, TxBufferFlush, RxBurst, bind, C_call. pose proof (flush_law (Pid pq) (RxQid pq) (dpdk s) (shared s)) as F.
  destruct (rte_eth_tx_buffer_flush _ _ (dpdk s) (shared s)) as [n [d p]]. destruct F as [St B]. cbn.
  set (s1 := after d p s). change d with (dpdk s1).
  assert (B1 : entries s1 = mkLedger (received s) (freed s) (handed s) []) by exact B.
  assert (K1 : steady s s1) by (split; [by destruct p|done]).
  pose proof (rx_law (Pid pq) (RxQid pq) (u16 burstSize) (dpdk s1) (shared s1) ltac:(unfold u16; zlia)) as R.
  destruct (rte_eth_rx_burst _ _ _ (dpdk s1) (shared s1)) as [buf [d' p']]. destruct R as (Lb & _ & St' & B').
  exists buf, (after d' p' s1). split; [done|]. split; [eapply steady_trans; [exact K1|split; [by destruct p'|done]]|].
  split; [done|]. unfold handed, received, freed, entries in *. cbn [dpdk after] in *. rewrite B', B1. cbn. by rewrite app_nil_r.
Qed.

Lemma count_run buf (s : lcore_st D) : Forall (fun c => is_Some (mbufs (world s) !! c)) buf -> lens_ok (mbufs (world s)) ->
  Z.of_nat (length buf) < 65536 ->
  count_burst buf s = Some (tt, mkLcoreSt (world s) (dpdk s) (rx_packets s + Z.of_nat (length buf)) (rx_bytes s + sumZ (map (len_of (world s)) buf))).
Proof.
  intros Al L Lb. unfold count_burst, bind, on_world. rewrite (data_lens_run buf (world s) Al). unfold modify, Incr.
  cbn [world dpdk rx_packets rx_bytes]. rewrite length_map, (foldl_u64 _ 0), Z.add_0_l; [done|lia| |rewrite length_map; lia].
  apply Forall_forall. intros x Hx. apply list_elem_of_fmap in Hx as (c & -> & _). by apply len_of_range.
Qed.

Lemma iteration_run s : lens_ok (mbufs (world s)) ->
  match iteration pq burstSize s with
  | None => exists i c s1, at_turn s i c s1 /\ answer c (world s1) = None
  | Some (_, s') => lens_ok (mbufs (world s')) /\ exists r, plays s s' r /\ accounts s s' (r_buf r) (r_verdicts r) (r_bytes r)
  end.
Proof.
  intros L. destruct (receive_run s) as (buf & s1 & E & K & Lb & R & F & G). unfold iteration. rewrite (bind_some _ _ _ _ _ E).
  pose proof (process_all_run buf s1) as P. unfold bind. destruct (process_all pq buf s1) as [[[] s2]|].
  - destruct P as (vs & Lv & K2 & R2 & F2 & G2 & Al & T). pose proof (steady_trans _ _ _ K K2) as ((_ & Lk) & Np & Nb).
    rewrite (count_run buf s2 Al (Lk L)) by (unfold u16 in Lb; zlia). split; [exact (Lk L)|].
    exists (mkRound buf vs (world s2)). split.
    + split_and!; [done|done|done|]. intros i c v Hc Hv. destruct (T i c v Hc Hv) as (s3 & w & Pi & An).
      exists s3, w. split; [|done]. by exists s1, buf.
    + unfold accounts, r_bytes, handed, received, freed, entries in *. cbn [dpdk rx_packets rx_bytes r_buf r_verdicts r_end].
      rewrite R2, F2, G2, R, F, G, Np, Nb. done.
  - destruct P as (a & c & r & s2 & -> & Pa & An). exists (length a), c, s2. split; [|done]. exists s1, (a ++ c :: r).
    split; [done|]. split; [by apply list_lookup_middle|]. by rewrite take_app_length.
Qed.

Lemma accounts_app s s1 s2 a va x b vb y : length va = length a -> accounts s s1 a va x -> accounts s1 s2 b vb y ->
  accounts s s2 (a ++ b) (va ++ vb) (x + y).
Proof.
  intros Lv (R & F & G & P & Q) (R' & F' & G' & P' & Q'). unfold accounts.
  rewrite R', F', G', P', Q', R, F, G, P, Q, !chosen_app, length_app, Nat2Z.inj_add, <- !app_assoc by done. split_and!; (done || lia).
Qed.


(** A dropped packet is counted after it was freed: what is added to the byte
    counter is the length its mbuf has by then, its next owner's. *)
Theorem count_after_free (s : lcore_st D) c w (L : lens_ok (mbufs (world s))) (A : answer c (world s) = Some (PktMbufFree, w)) :
  exists s2 s', process_all pq [c] s = Some (tt, s2) /\ freed s2 = freed s ++ [c] /\
    count_burst [c] s2 = Some (tt, s') /\ rx_bytes s' = rx_bytes s + len_of (world s2) c.
Proof.
  pose proof (process_all_run [c] s) as P. destruct (process_all pq [c] s) as [[[] s2]|] eqn:E.
  - destruct P as (vs & Lv & ((_ & Lk) & _ & Nb) & _ & F & _ & Al & T). destruct vs as [|v [|? ?]]; try done.
    destruct (T 0%nat c v eq_refl eq_refl) as (s1 & w' & E1 & An). injection E1 as <-. rewrite A in An. injection An as <- _.
    eexists s2, _. split; [done|]. split; [exact F|]. split; [apply (count_run [c] s2 Al (Lk L)); simpl; lia|]. cbn. lia.
  - destruct P as (a & c' & r & s1 & Ea & Pa & An). destruct a as [|? [|? ?]]; try done. injection Ea as <- <-. injection Pa as <-. congruence.
Qed.

(** Where nobody touches the lengths of the mbufs given back before the burst is
    counted, the byte counter grows by the lengths received. *)
Definition lengths (p : packets) : gmap Z Z := data_len <$> snd p.

Lemma len_of_lengths s1 s2 c : lengths (shared s1) = lengths (shared s2) -> len_of (world (D := D) s1) c = len_of (world (D := D) s2) c.
Proof.
  unfold lengths, shared, len_of. cbn. intros E. pose proof (f_equal (fun m => m !! c) E) as X. cbn in X. rewrite !lookup_fmap in X.
  destruct (mbufs (world s1) !! c), (mbufs (world s2) !! c); simpl in X; congruence.
Qed.

Theorem bytes_as_received s s1 s' buf (L : lens_ok (mbufs (world s)))
    (Qf : forall m d p, lengths (snd (snd (rte_pktmbuf_free m d p))) = lengths p)
    (Qb : forall p q m d x, lengths (snd (snd (rte_eth_tx_buffer p q m d x))) = lengths x)
    (R : receive pq burstSize s = Some (buf, s1)) (I : iteration pq burstSize s = Some (tt, s')) :
  rx_bytes s' = rx_bytes s + sumZ (map (len_of (world s1)) buf).
Proof.
  assert (Lp : forall c t t', process pq c t = Some (tt, t') -> lengths (shared t') = lengths (shared t)).
  { intros c t t' P. unfold process in P. pose proof (on_answer c t) as A. destruct (answer c (world t)) as [[v w]|] eqn:An.
    2: { unfold bind in P. by rewrite A in P. }
    destruct A as (t1 & A & E & _). rewrite (bind_some _ _ _ _ _ A) in P.
    assert (E1 : lengths (shared t1) = lengths (shared t)).
    { unfold on_world in A. rewrite An in A. injection A as <-. unfold lengths, shared. cbn. by rewrite (keeps_answer c _ _ _ An). }
    rewrite <- E1. destruct v.
    - unfold free_mbuf, C_call in P. pose proof (Qf c (dpdk t1) (shared t1)) as Q.
      destruct (rte_pktmbuf_free c (dpdk t1) (shared t1)) as [[] [d p]]. injection P as <-. by destruct p.
    - unfold TxBuffer_, bind, C_call in P. pose proof (Qb (Pid pq) (RxQid pq) c (dpdk t1) (shared t1)) as Q.
      destruct (rte_eth_tx_buffer _ _ c (dpdk t1) (shared t1)) as [u [d p]]. injection P as <-. by destruct p. }
  assert (La : forall b t t', process_all pq b t = Some (tt, t') -> lengths (shared t') = lengths (shared t)).
  { induction b as [|c b IH]; intros t t' P; cbn [process_all] in P; [by injection P as <-|]. unfold bind in P.
    destruct (process pq c t) as [[[] t1]|] eqn:E; [|done]. rewrite <- (Lp _ _ _ E). exact (IH _ _ P). }
  unfold iteration in I. rewrite (bind_some _ _ _ _ _ R) in I. unfold bind in I.
  destruct (receive_run s) as (buf' & s1' & R' & K & Lb & _). rewrite R in R'. injection R' as <- <-.
  pose proof (process_all_run buf s1) as P. destruct (process_all pq buf s1) as [[[] s2]|] eqn:E; [|done].
  destruct P as (vs & _ & K2 & _ & _ & _ & Al & _). pose proof (steady_trans _ _ _ K K2) as ((_ & Lk) & Np & Nb).
  rewrite (count_run buf s2 Al (Lk L)) in I by (unfold u16 in Lb; zlia). injection I as <-. cbn [rx_bytes]. rewrite Nb. do 2 f_equal.
  apply map_ext. intros c. apply len_of_lengths. by eapply La.
Qed.
End Spec.

(** ** A device

    Frames come to the mbuf at 8; the buffer holds 128 packets; the pool gives an
    mbuf that was freed to somebody with a packet of 7 bytes. *)
Record nic := mkNic { n_book : ledger; arrivals : list (list Z) }.
Definition nic_mb (f : list Z) : Mbuf :=
  mkMbuf 4096 128 (u16 (Z.of_nat (length f))) (u16 (Z.of_nat (length f))) 2048 0 0 64 0.

#[export] Instance nic_Dpdk : Dpdk nic := {
  rte_eth_rx_burst _ _ nb d p :=
    match arrivals d with
    | f :: r =>
        if 1 <=? nb then
          let b := n_book d in
          ([8], (mkNic (mkLedger (received_ b ++ [8]) (freed_ b) (gone b) (pending b)) r, (write (fst p) 4224 f, <[8 := nic_mb f]> (snd p))))
        else ([], (d, p))
    | [] => ([], (d, p))
    end;
  rte_pktmbuf_free m d p :=
    let b := n_book d in
    (tt, (mkNic (mkLedger (received_ b) (freed_ b ++ [m]) (gone b) (pending b)) (arrivals d),
          (fst p, alter (fun mb => set_data (data_off mb) 7 7 mb) m (snd p))));
  rte_eth_tx_buffer _ _ m d p :=
    let b := n_book d in
    let q := pending b ++ [m] in
    if (length (pending b) <? 127)%nat then (0, (mkNic (mkLedger (received_ b) (freed_ b) (gone b) q) (arrivals d), p))
    else (Z.of_nat (length q), (mkNic (mkLedger (received_ b) (freed_ b) (gone b ++ q) []) (arrivals d), p));
  rte_eth_tx_buffer_flush _ _ d p :=
    let b := n_book d in
    (Z.of_nat (length (pending b)), (mkNic (mkLedger (received_ b) (freed_ b) (gone b ++ pending b) []) (arrivals d), p))
}.

Lemma stays_refl p : stays p p.
Proof. by split. Qed.

#[export] Instance nic_DpdkLaws : DpdkLaws nic.
Proof.
  refine {| book := n_book |}.
  - intros pid qid nb d [h ms] H. unfold rte_eth_rx_burst, nic_Dpdk.
    assert (N : Z.of_nat (length (@nil Z)) <= nb /\ Forall (fun c => is_Some (ms !! c)) [] /\ stays (h, ms) (h, ms) /\
      n_book d = mkLedger (received_ (n_book d) ++ []) (freed_ (n_book d)) (gone (n_book d)) (pending (n_book d))).
    { split; [simpl; lia|]. split; [constructor|]. split; [apply stays_refl|]. rewrite app_nil_r. by destruct (n_book d). }
    destruct (arrivals d) as [|f r]; [exact N|]. destruct (Z.leb_spec 1 nb); [|exact N]. cbn [snd fst].
    split; [simpl; lia|]. split; [constructor; [rewrite lookup_insert_eq; eauto|constructor]|]. split; [|done]. split; cbn [snd].
    + intros c Hc. destruct (Z.eq_dec 8 c) as [<-|]; [rewrite lookup_insert_eq; eauto|by rewrite lookup_insert_ne].
    + intros L c mb Hc. apply lookup_insert_Some in Hc as [[_ <-]|[_ Hc]]; [cbn; unfold u16; zlia|by apply (L c)].
  - intros m d [h ms]. cbn. split; [|done]. split; cbn [snd].
    + intros c Hc. by apply lookup_alter_is_Some.
    + intros L c mb Hc. destruct (Z.eq_dec m c) as [<-|]; [|rewrite lookup_alter_ne in Hc by done; by apply (L c)].
      rewrite lookup_alter_eq in Hc. destruct (ms !! m); [|done]. injection Hc as <-. cbn. lia.
  - intros p q m d x. unfold rte_eth_tx_buffer, nic_Dpdk. destruct (_ <? 127)%nat; cbn; split; [apply stays_refl|done|apply stays_refl|].
    by rewrite app_nil_r.
  - intros p q d x. cbn. split; [apply stays_refl|done].
Defined.

(** An ARP reply, which is dropped. *)
Definition sample_reply : list Z :=
  arp_bytes own_mac mac_a [0; 1; 8; 0; 6; 4] [0; 2] mac_a ip_a mac_b ip_b ++ replicate 60 0.
(** One packet waits to be sent; the reply is still to come. *)
Definition sample_lcore : lcore_st nic :=
  mkLcoreSt (mkWorld ∅ ∅ (zero_packet 0) false 120) (mkNic (mkLedger [9] [] [] [9]) [sample_reply]) 0 0.


Lemma count_after_free_witness : exists s s2 s' : lcore_st nic, process_all (mkPortQueue 0 0 0) [8] s = Some (tt, s2) /\
  freed s2 = [8] /\ count_burst [8] s2 = Some (tt, s') /\ rx_bytes s' = 7.
Proof.
  set (s := mkLcoreSt (sample_world sample_reply) (mkNic (mkLedger [8] [] [] []) []) 0 0 : lcore_st nic).
  assert (A : match answer 8 (world s) with Some (v, _) => v = PktMbufFree | None => False end) by (vm_compute; reflexivity).
  destruct (answer 8 (world s)) as [[v w]|] eqn:R; [|destruct A]. subst v.
  destruct (count_after_free (mkPortQueue 0 0 0) s 8 w) as (s2 & s' & P & F & C & B); [|exact R|].
  - unfold lens_ok. apply (bool_decide_unpack _). vm_compute. exact I.
  - exists s, s2, s'. split; [exact P|]. split; [exact F|]. split; [exact C|]. rewrite B.
    assert (E : match process_all (mkPortQueue 0 0 0) [8] s with Some (_, t) => len_of (world t) 8 = 7 | None => False end) by (vm_compute; reflexivity).
    rewrite P in E. rewrite E. reflexivity.
Defined.
