(* ===== verification/Exporter.v ===== *)
(** * The exporter application: collecting metrics

    [src/app/dpdk-exporter/metrics.go] over the device information of
    [src/ethdev/ethdev.go], the extended statistics of [src/ethdev/stats.go], the
    memory zones of [src/memzone/memzone.go] and the ring queries of
    [src/ring/ring.go]. Prometheus' gauges are the class [Gauges]; the logging of
    failed queries is left out. *)

From Stdlib Require Import ZArith Lia.
From stdpp Require Import base list numbers option gmap.
From S2P Require Import Prelude Text Types Errno Registry Pools EthStats Ethdev.

Open Scope Z_scope.

(** ** Numbers

    [float64(n)] of a natural number, as an integer: exact up to 53 bits, and
    rounded to the nearest multiple of a power of two behind that, ties to even. *)
Definition float64 (n : Z) : Z :=
  let e := Z.log2 n - 52 in
  if e <=? 0 then n
  else
    let u := 2 ^ e in
    let q := n / u in
    let r := n mod u in
    (if (2 * r <? u) || ((2 * r =? u) && Z.even q) then q else q + 1) * u.

(** ** Metrics *)

Inductive metric :=
| AvailablePorts | AutoNeg_ | Duplex_ | Speed_ | Status_ | SocketID_ | NbRxQueues_ | NbTxQueues_ | RetaSize_ | Info
| MemzoneLen | MemzonePageSize | MemzoneSocketID | Cap_ | Count_.

#[export] Instance metric_eq_dec : EqDecision metric.
Proof. solve_decision. Defined.

(** [With(labels).Set(v)]: a gauge is a metric with the values of its labels. *)
Abbreviation gauge := (metric * list (list Z))%type.
Class Gauges (G : Type) := { gauge_set : gauge -> Z -> G -> G }.

(** What DPDK has of a device and of a memory zone. *)
(* go: ethdev/ethdev.go DevInfo *)
Record DevInfo := mkDevInfo { driver_name : list Z; ifname : list Z; reta_size : Z; nb_rx_queues : Z; nb_tx_queues : Z }.
(* go: ethdev/ethdev.go DevInfo.DriverName *)
Definition DriverName (i : DevInfo) : list Z := driver_name i.
(* go: ethdev/ethdev.go DevInfo.InterfaceName *)
Definition InterfaceName (i : DevInfo) : list Z := ifname i.
(* go: ethdev/ethdev.go DevInfo.RetaSize *)
Definition RetaSize (i : DevInfo) : Z := reta_size i.
(* go: ethdev/ethdev.go DevInfo.NbRxQueues *)
Definition NbRxQueues (i : DevInfo) : Z := nb_rx_queues i.
(* go: ethdev/ethdev.go DevInfo.NbTxQueues *)
Definition NbTxQueues (i : DevInfo) : Z := nb_tx_queues i.

(** [inl] is a non-nil error. *)
Record devices := mkDevices {
  dev_avail : Z;
  dev_iter : list Z;
  dev_name : Z -> go_error + list Z;
  dev_link : Z -> go_error + EthLink;
  dev_socket : Z -> Z;
  dev_mac : Z -> go_error + list Z;
  dev_info : Z -> go_error + DevInfo
}.

Section Collect.
Context {G : Type} `{Gauges G}.
Variable D : devices.
(** [syscall.ENOTSUP]. *)
Variable ENOTSUP : Z.

(* go: app/dpdk-exporter/metrics.go setBooleanGauge *)
Definition setBooleanGauge (g : gauge) (v : bool) : G -> G := if v then gauge_set g 1 else gauge_set g 0.

(* go: app/dpdk-exporter/metrics.go LinkMetrics.Collect *)
Definition LinkMetrics_Collect (port : Z) (labels : list (list Z)) (s : G) : option go_error * G :=
  match dev_link D port with
  | inl e => if decide (e = Errno ENOTSUP) then (None, s) else (Some e, s)
  | inr link =>
      let s := setBooleanGauge (AutoNeg_, labels) (AutoNeg link) s in
      let s := setBooleanGauge (Duplex_, labels) (Duplex link) s in
      let s := gauge_set (Speed_, labels) (float64 (Speed link)) s in
      let s := setBooleanGauge (Status_, labels) (Status link) s in
      (None, s)
  end.

(** The body of the loop over the ports; [continue] ends it early. *)
(* go: app/dpdk-exporter/metrics.go 150-183 EthDevMetrics.Collect *)
Definition collect_port (port : Z) (s : G) : G :=
  match dev_name D port with
  | inl _ => s
  | inr name =>
      let labels := [name] in
      let s := snd (LinkMetrics_Collect port labels s) in
      let s := gauge_set (SocketID_, labels) (dev_socket D port) s in
      match dev_mac D port with
      | inl _ => s
      | inr macAddr =>
          match dev_info D port with
          | inl _ => s
          | inr devInfo =>
              let s := gauge_set (NbRxQueues_, labels) (float64 (NbRxQueues devInfo)) s in
              let s := gauge_set (NbTxQueues_, labels) (float64 (NbTxQueues devInfo)) s in
              let s := gauge_set (RetaSize_, labels) (float64 (RetaSize devInfo)) s in
              gauge_set (Info, [name; MACAddress_String macAddr; DriverName devInfo; InterfaceName devInfo]) 1 s
          end
      end
  end.

(* go: app/dpdk-exporter/metrics.go EthDevMetrics.Collect *)
Definition EthDevMetrics_Collect (s : G) : G :=
  let s := gauge_set (AvailablePorts, []) (float64 (dev_avail D)) s in
  foldl (fun s port => collect_port port s) s (default [] (ValidPorts (dev_iter D) (Z.to_nat (dev_avail D)))).

(** A memory zone, and the ring that lies in it if its name says so. *)
(* go: memzone/memzone.go Memzone *)
Record Memzone := mkMemzone { mz_name : list Z; mz_addr : Z; mz_len : Z; mz_hugepage_sz : Z; mz_socket_id : Z }.
Variable zone : Z -> Memzone.
Variable rte_ring_get_capacity : Z -> Z.
Variable rte_ring_count : Z -> Z.
(** [C.RTE_RING_MZ_PREFIX]. *)
Variable RING_PREFIX : list Z.

(* go: ring/ring.go Ring.Cap *)
Definition Cap (r : Z) : Z := rte_ring_get_capacity r.
(* go: ring/ring.go Ring.Count *)
Definition Count (r : Z) : Z := rte_ring_count r.

(** [strings.HasPrefix]. *)
Definition HasPrefix (s p : list Z) : bool := bool_decide (take (length p) s = p).

(* go: app/dpdk-exporter/metrics.go 352-367 RingMetrics.Collect *)
Definition collect_zone (mz : Z) (s : G) : G :=
  let name := mz_name (zone mz) in
  if negb (HasPrefix name RING_PREFIX) then s
  else
    let labels := [name] in
    let s := gauge_set (MemzoneLen, labels) (float64 (mz_len (zone mz))) s in
    let s := gauge_set (MemzonePageSize, labels) (float64 (mz_hugepage_sz (zone mz))) s in
    let s := gauge_set (MemzoneSocketID, labels) (mz_socket_id (zone mz)) s in
    let r := mz_addr (zone mz) in
    let s := gauge_set (Cap_, labels) (float64 (Cap r)) s in
    gauge_set (Count_, labels) (float64 (Count r)) s.

(** The callback goes through the registry [r] of package memzone; [v] is the
    closure, which calls [collect_zone]. *)
(* go: app/dpdk-exporter/metrics.go RingMetrics.Collect *)
Definition RingMetrics_Collect {R V} `{Registry R V} (as_fn : V -> callback (R := R) (S := G)) (zones : list Z) (v : V) (st : R * G) :
    option (R * G) :=
  MzWalk as_fn zones v st.

(* go: app/dpdk-exporter/metrics.go Metrics.Collect *)
Definition Metrics_Collect {R V} `{Registry R V} (as_fn : V -> callback (R := R) (S := G)) (zones : list Z) (v : V) (st : R * G) :
    option (R * G) :=
  RingMetrics_Collect as_fn zones v (fst st, EthDevMetrics_Collect (snd st)).
End Collect.

(** ** Extended statistics *)

Section Xstats.
(** [rte_eth_xstats_get_by_id(port, ids, values, n)]: its code and [values] after. *)
Variable get_by_id : Z -> list Z -> list Z -> Z * list Z.
Variable E : rte_numbers.

(* go: ethdev/stats.go Port.XstatGetByID *)
Definition XstatGetByID (pid : Z) (ids values : list Z) : (Z * option go_error) * list Z :=
  let '(rc, values) := get_by_id pid ids values in
  if rc <? 0 then ((0, errno E rc), values) else ((rc, None), values).

(** The counters by their values: [Add] adds a [float64]. *)
(* go: app/dpdk-exporter/metrics.go ethXstat *)
Record ethXstat := mkEthXstat { cnt : list Z; ids : list Z; prev : list Z; next : list Z }.

(** [for i, p := range ex.prev]; an index past [next] or [cnt] panics. *)
Fixpoint add_deltas (prev next cnt : list Z) : option (list Z) :=
  match prev with
  | [] => Some cnt
  | p :: prev =>
      match next, cnt with
      | n :: next, c :: cnt =>
          cons (if p <? n then c + float64 (u64 (n - p)) else c) <$> add_deltas prev next cnt
      | n :: next, [] => if p <? n then None else add_deltas prev next []
      | [], _ => None
      end
  end.

(** One port: the error ends the collection with what was read in [next]. *)
(* go: app/dpdk-exporter/metrics.go 291-303 EthXstats.Collect *)
Definition collect_xstats (port : Z) (ex : ethXstat) : option (option go_error * ethXstat) :=
  let '((_, err), next') := XstatGetByID port (ids ex) (next ex) in
  match err with
  | Some e => Some (Some e, mkEthXstat (cnt ex) (ids ex) (prev ex) next')
  | None =>
      match add_deltas (prev ex) next' (cnt ex) with
      | None => None
      | Some cnt => Some (None, mkEthXstat cnt (ids ex) next' (prev ex))
      end
  end.

(** [order]: how Go ranges over the map, some order of its keys. *)
(* go: app/dpdk-exporter/metrics.go EthXstats.Collect *)
Fixpoint EthXstats_Collect (order : list Z) (stats : gmap Z ethXstat) : option (option go_error * gmap Z ethXstat) :=
  match order with
  | [] => Some (None, stats)
  | port :: order =>
      match stats !! port with
      | None => EthXstats_Collect order stats
      | Some ex =>
          match collect_xstats port ex with
          | None => None
          | Some (Some e, ex) => Some (Some e, <[port := ex]> stats)
          | Some (None, ex) => EthXstats_Collect order (<[port := ex]> stats)
          end
      end
  end.

(** One port as it starts: [id_order] is the order in which Go ranges over the
    map from identifiers to names. *)
(* go: app/dpdk-exporter/metrics.go 274-283 NewEthXstats *)
Definition new_ethXstat (id_order : list Z) : ethXstat :=
  mkEthXstat (replicate (length id_order) 0) id_order (replicate (length id_order) 0) (replicate (length id_order) 0).

(** The ports with their names and identifiers, or the first error. *)
(* go: app/dpdk-exporter/metrics.go NewEthXstats *)
Fixpoint NewEthXstats (names : Z -> go_error + list Z) (xstat_ids : Z -> go_error + list Z) (ports : list Z) (stats : gmap Z ethXstat) :
    go_error + gmap Z ethXstat :=
  match ports with
  | [] => inr stats
  | port :: ports =>
      match names port with
      | inl e => inl e
      | inr _ =>
          match xstat_ids port with
          | inl e => inl e
          | inr id_order => NewEthXstats names xstat_ids ports (<[port := new_ethXstat id_order]> stats)
          end
      end
  end.
End Xstats.
