(* ===== verification/ExporterSpec.v ===== *)
(** * The exporter: theorems

    After a collection each gauge shows what its port or ring said last; the
    gauges of what could not be read, or is gone, keep their values. The counters
    of extended statistics follow the device. *)

From Stdlib Require Import ZArith Lia.
From stdpp Require Import base list numbers option gmap sets.
From S2P Require Import Prelude Text Types Errno Registry RegistrySpec Pools PoolsSpec EthStats EthStatsSpec Ethdev Exporter.

Open Scope Z_scope.

(** ** Numbers *)

Lemma float64_small n : 0 <= n < 2 ^ 53 -> float64 n = n.
Proof.
  intros H. unfold float64. destruct (Z.leb_spec (Z.log2 n - 52) 0) as [L|L]; [done|exfalso].
  assert (53 <= Z.log2 n) by lia. pose proof (Z.log2_spec n) as S. destruct (decide (0 < n)) as [P|P].
  - pose proof (Z.pow_le_mono_r 2 53 (Z.log2 n) ltac:(lia) ltac:(lia)). specialize (S P). lia.
  - rewrite (Z.log2_nonpos n) in L by lia. lia.
Qed.

(** The rounding changes a number by at most one part in [2^53]. *)
Lemma float64_error n : 0 <= n -> 2 ^ 53 * Z.abs (float64 n - n) <= n.
Proof.
  intros H. unfold float64. destruct (Z.leb_spec (Z.log2 n - 52) 0) as [L|L]; [rewrite Z.sub_diag; lia|].
  destruct (Z.log2_spec n) as [S _]; [destruct (decide (0 < n)); [done|rewrite (Z.log2_nonpos n) in L by lia; lia]|].
  set (e := Z.log2 n - 52) in *. replace (Z.log2 n) with (e + 52) in S by (unfold e; lia). rewrite Z.pow_add_r in S by lia.
  pose proof (Z.pow_pos_nonneg 2 e ltac:(lia) ltac:(lia)) as U. set (u := 2 ^ e) in *.
  pose proof (Z.div_mod n u ltac:(lia)) as D. pose proof (Z.mod_pos_bound n u U) as R.
  set (q := n / u) in *. set (r := n mod u) in *. clearbody q r u. change (2 ^ 53) with (2 * 2 ^ 52).
  destruct (Z.ltb_spec (2 * r) u); [|destruct (Z.eqb_spec (2 * r) u); [destruct (Z.even q)|]]; cbn [orb andb];
    (replace (Z.abs _) with r by lia) || (replace (Z.abs _) with (u - r) by lia); lia.
Qed.

(** ** Gauges *)

(** [Set] sets one gauge. *)
Class GaugesLaws (G : Type) `{Gauges G} := {
  gauge_get : G -> gauge -> option Z;
  gauge_get_set k v s k' : gauge_get (gauge_set k v s) k' = if decide (k = k') then Some v else gauge_get s k'
}.

Section Shown.
Context {G : Type} `{GL : GaugesLaws G}.

(** A function of the gauges that sets those in [f] to the values there. *)
Definition shows (u : G -> G) (f : gauge -> option Z) : Prop :=
  forall s k, gauge_get (u s) k = match f k with Some v => Some v | None => gauge_get s k end.

Definition over (f g : gauge -> option Z) (k : gauge) : option Z := match g k with Some v => Some v | None => f k end.
Definition just (k : gauge) (v : Z) (k' : gauge) : option Z := if decide (k = k') then Some v else None.
Definition nothing (_ : gauge) : option Z := None.

Lemma shows_id : shows (fun s => s) nothing.
Proof. by intros s k. Qed.
Lemma shows_set k v : shows (gauge_set k v) (just k v).
Proof. intros s k'. rewrite gauge_get_set. unfold just. by case_decide. Qed.
Lemma shows_seq u1 u2 f1 f2 : shows u1 f1 -> shows u2 f2 -> shows (fun s => u2 (u1 s)) (over f1 f2).
Proof. intros H1 H2 s k. rewrite H2, H1. unfold over. by destruct (f2 k). Qed.

(** Items that agree on the gauges they share, in a row. *)
Lemma shows_foldl {X} (u : X -> G -> G) (f : X -> gauge -> option Z) l : (forall x, shows (u x) (f x)) ->
  (forall x y k v v', x ∈ l -> y ∈ l -> f x k = Some v -> f y k = Some v' -> v = v') ->
  forall s k,
    (forall x v, x ∈ l -> f x k = Some v -> gauge_get (foldl (fun s x => u x s) s l) k = Some v) /\
    ((forall x, x ∈ l -> f x k = None) -> gauge_get (foldl (fun s x => u x s) s l) k = gauge_get s k).
Proof.
  intros Hu. induction l as [|x l IH]; intros Ag s k; [split; [intros x v Hx; by apply elem_of_nil in Hx|done]|].
  cbn [foldl]. destruct (IH ltac:(set_solver) (u x s) k) as [A B]. split.
  - intros y v Hy Fy. destruct (decide (Exists (fun z => is_Some (f z k)) l)) as [Ex|Nx].
    + apply Exists_exists in Ex as (z & Hz & v' & Fz). rewrite (A z v') by done.
      f_equal. symmetry. apply (Ag y z k); [done|set_solver|done|done].
    + assert (N : forall z, z ∈ l -> f z k = None).
      { intros z Hz. destruct (f z k) eqn:F; [|done]. exfalso. apply Nx. apply Exists_exists. eauto. }
      rewrite B by done. apply elem_of_cons in Hy as [->|Hy]; [by rewrite Hu, Fy|]. by rewrite N in Fy.
  - intros N. rewrite B by set_solver. by rewrite Hu, N by set_solver.
Qed.
End Shown.

Section Devices.
Context {G : Type} `{GL : GaugesLaws G} (D : devices) (ENOTSUP : Z).

Definition bool_val (b : bool) : Z := if b then 1 else 0.

(** What a collection shows of a link, and of a port. *)
Definition link_shown (name : list Z) (link : EthLink) : gauge -> option Z :=
  over (over (over (just (AutoNeg_, [name]) (bool_val (AutoNeg link))) (just (Duplex_, [name]) (bool_val (Duplex link))))
    (just (Speed_, [name]) (float64 (Speed link)))) (just (Status_, [name]) (bool_val (Status link))).
Definition info_shown (name mac : list Z) (i : DevInfo) : gauge -> option Z :=
  over (over (over (just (NbRxQueues_, [name]) (float64 (NbRxQueues i))) (just (NbTxQueues_, [name]) (float64 (NbTxQueues i))))
    (just (RetaSize_, [name]) (float64 (RetaSize i)))) (just (Info, [name; MACAddress_String mac; DriverName i; InterfaceName i]) 1).
Definition port_shown (port : Z) : gauge -> option Z :=
  match dev_name D port with
  | inl _ => nothing
  | inr name =>
      over (over (match dev_link D port with inl _ => nothing | inr link => link_shown name link end)
              (just (SocketID_, [name]) (dev_socket D port)))
        (match dev_mac D port, dev_info D port with inr mac, inr i => info_shown name mac i | _, _ => nothing end)
  end.

Lemma shows_boolean k b : shows (setBooleanGauge (G := G) k b) (just k (bool_val b)).
Proof. unfold setBooleanGauge, bool_val. destruct b; apply shows_set. Qed.

Lemma shows_ext (u : G -> G) f g : (forall k, f k = g k) -> shows u f -> shows u g.
Proof. intros E S s k. by rewrite S, E. Qed.

Lemma over_nothing f k : over f nothing k = f k.
Proof. done. Qed.

Lemma link_shows port name : dev_name D port = inr name -> shows (G := G) (fun s => snd (LinkMetrics_Collect D ENOTSUP port [name] s))
  (match dev_link D port with inl _ => nothing | inr link => link_shown name link end).
Proof.
  intros N. unfold LinkMetrics_Collect. destruct (dev_link D port) as [e|link]; [case_decide; apply shows_id|].
  exact (shows_seq _ _ _ _ (shows_seq _ _ _ _ (shows_seq _ _ _ _ (shows_boolean _ _) (shows_boolean _ _)) (shows_set _ _)) (shows_boolean _ _)).
Qed.

Lemma port_shows port : shows (G := G) (collect_port D ENOTSUP port) (port_shown port).
Proof.
  unfold collect_port, port_shown. destruct (dev_name D port) as [e|name] eqn:N; [apply shows_id|].
  pose proof (shows_seq _ _ _ _ (link_shows port name N) (shows_set (SocketID_, [name]) (dev_socket D port))) as S.
  destruct (dev_mac D port) as [e|mac]; [exact S|]. destruct (dev_info D port) as [e|i]; [exact S|].
  exact (shows_seq _ _ _ _ S (shows_seq _ _ _ _ (shows_seq _ _ _ _ (shows_seq _ _ _ _ (shows_set _ _) (shows_set _ _)) (shows_set _ _)) (shows_set _ _))).
Qed.

(** Every gauge of a port is labelled with its name first, and not one of a ring. *)
Definition of_ring (m : metric) : bool :=
  match m with MemzoneLen | MemzonePageSize | MemzoneSocketID | Cap_ | Count_ => true | _ => false end.
Definition labelled (name : list Z) (ring : bool) (f : gauge -> option Z) : Prop :=
  forall k v, f k = Some v -> of_ring (fst k) = ring /\ exists rest, snd k = name :: rest.
Lemma labelled_over name ring f g : labelled name ring f -> labelled name ring g -> labelled name ring (over f g).
Proof. intros Hf Hg k v. unfold over. destruct (g k) eqn:E; intros; [by eapply Hg|by eapply Hf]. Qed.
Lemma labelled_just name ring m rest v : of_ring m = ring -> labelled name ring (just (m, name :: rest) v).
Proof. intros R k v'. unfold just. case_decide; [subst k; split; [done|by eexists]|done]. Qed.

Lemma port_labelled port k v : port_shown port k = Some v ->
  exists name, dev_name D port = inr name /\ of_ring (fst k) = false /\ exists rest, snd k = name :: rest.
Proof.
  unfold port_shown. destruct (dev_name D port) as [e|name]; [done|]. intros Hk. exists name. split; [done|].
  match type of Hk with ?f k = _ => assert (Lb : labelled name false f) end; [|by apply (Lb k v)].
  repeat (apply labelled_over || (by apply labelled_just) || case_match || done).
Qed.

(** What a collection shows of a memory zone. *)
Variable zone : Z -> Memzone.
Variables rte_ring_get_capacity rte_ring_count : Z -> Z.
Variable RING_PREFIX : list Z.
Definition zone_shown (mz : Z) : gauge -> option Z :=
  let z := zone mz in
  let name := mz_name z in
  if HasPrefix name RING_PREFIX then
    over (over (over (over (just (MemzoneLen, [name]) (float64 (mz_len z))) (just (MemzonePageSize, [name]) (float64 (mz_hugepage_sz z))))
      (just (MemzoneSocketID, [name]) (mz_socket_id z)))
      (just (Cap_, [name]) (float64 (rte_ring_get_capacity (mz_addr z))))) (just (Count_, [name]) (float64 (rte_ring_count (mz_addr z))))
  else nothing.

Lemma zone_shows mz : shows (G := G) (collect_zone zone rte_ring_get_capacity rte_ring_count RING_PREFIX mz) (zone_shown mz).
Proof.
  unfold collect_zone, zone_shown. destruct (HasPrefix _ _); cbn [negb]; [|apply shows_id].
  exact (shows_seq _ _ _ _ (shows_seq _ _ _ _ (shows_seq _ _ _ _ (shows_seq _ _ _ _ (shows_set _ _) (shows_set _ _)) (shows_set _ _)) (shows_set _ _)) (shows_set _ _)).
Qed.

Lemma zone_labelled mz k v : zone_shown mz k = Some v -> of_ring (fst k) = true /\ exists rest, snd k = mz_name (zone mz) :: rest.
Proof.
  unfold zone_shown. intros Hk. match type of Hk with ?f k = _ => assert (Lb : labelled (mz_name (zone mz)) true f) end; [|by apply (Lb k v)].
  repeat (apply labelled_over || (by apply labelled_just) || case_match || done).
Qed.

(** The ports that a collection visits. *)
Definition visited : list Z := default [] (ValidPorts (dev_iter D) (Z.to_nat (dev_avail D))).

(** What a collection makes of the gauges. *)
Definition collect_step (zones : list Z) (s : G) : G :=
  foldl (fun s mz => collect_zone zone rte_ring_get_capacity rte_ring_count RING_PREFIX mz s) (EthDevMetrics_Collect D ENOTSUP s) zones.

(** Names tell the ports, and the zones, apart. *)
Definition names_apart (zones : list Z) : Prop :=
  (forall p q name, p ∈ visited -> q ∈ visited -> dev_name D p = inr name -> dev_name D q = inr name -> p = q) /\
  (forall y z, y ∈ zones -> z ∈ zones -> mz_name (zone y) = mz_name (zone z) -> y = z).

Lemma collect_shows zones s : names_apart zones ->
  gauge_get (collect_step zones s) (AvailablePorts, []) = Some (float64 (dev_avail D)) /\
  (forall p k x, p ∈ visited -> port_shown p k = Some x -> gauge_get (collect_step zones s) k = Some x) /\
  (forall z k x, z ∈ zones -> zone_shown z k = Some x -> gauge_get (collect_step zones s) k = Some x) /\
  (forall k, k <> (AvailablePorts, []) -> (forall p, p ∈ visited -> port_shown p k = None) ->
     (forall z, z ∈ zones -> zone_shown z k = None) -> gauge_get (collect_step zones s) k = gauge_get s k).
Proof.
  intros [Up Uz]. unfold collect_step, EthDevMetrics_Collect. fold visited.
  set (s0 := gauge_set (AvailablePorts, []) (float64 (dev_avail D)) s).
  assert (Ap : forall p q k a b, p ∈ visited -> q ∈ visited -> port_shown p k = Some a -> port_shown q k = Some b -> a = b).
  { intros p q k a b Hp Hq A B. destruct (port_labelled p k a A) as (x & Nx & _ & rx & Kx). destruct (port_labelled q k b B) as (y & Ny & _ & ry & Ky).
    rewrite Kx in Ky. injection Ky as <- _. rewrite (Up p q x) in A by done. congruence. }
  assert (Az : forall y z k a b, y ∈ zones -> z ∈ zones -> zone_shown y k = Some a -> zone_shown z k = Some b -> a = b).
  { intros y z k a b Hy Hz A B. destruct (zone_labelled y k a A) as (_ & rx & Kx). destruct (zone_labelled z k b B) as (_ & ry & Ky).
    rewrite Kx in Ky. injection Ky as Nm _. rewrite (Uz y z) in A by done. congruence. }
  pose proof (fun k => shows_foldl _ _ visited port_shows Ap s0 k) as P. set (s1 := foldl _ s0 visited) in *.
  pose proof (fun k => shows_foldl _ _ zones zone_shows Az s1 k) as Q. set (s2 := foldl _ s1 zones) in *.
  assert (Nz : forall z k, of_ring (fst k) = false -> zone_shown z k = None).
  { intros z k F. destruct (zone_shown z k) eqn:Ez; [|done]. apply zone_labelled in Ez as [T _]. congruence. }
  split_and!.
  - rewrite (proj2 (Q _)) by (intros; by apply Nz). rewrite (proj2 (P _)); [unfold s0; rewrite gauge_get_set; by rewrite decide_True|].
    intros p _. destruct (port_shown p (AvailablePorts, [])) eqn:Ep; [|done]. by apply port_labelled in Ep as (? & _ & _ & ? & ?).
  - intros p k x Hp Sp. rewrite (proj2 (Q k)); [by apply (proj1 (P k) p)|]. intros z _. apply Nz. by apply port_labelled in Sp as (? & _ & ? & _).
  - intros z k x Hz Sz. by apply (proj1 (Q k) z).
  - intros k Nk Hp Hz. rewrite (proj2 (Q k)), (proj2 (P k)) by done. unfold s0. rewrite gauge_get_set. by rewrite decide_False.
Qed.

Context {R V : Type} `{RL : RegistryLaws R V} (as_fn : V -> callback (R := R) (S := G)).

(** The closure that the walk over the zones calls. *)
Definition calls_collect_zone (v : V) : Prop :=
  forall mz r s, as_fn v mz (r, s) = Some (r, collect_zone zone rte_ring_get_capacity rte_ring_count RING_PREFIX mz s).

Lemma Metrics_Collect_run zones v r s m n : calls_collect_zone v -> reg_rep r m -> reg_room r n -> 1 <= n ->
  exists r', Metrics_Collect D ENOTSUP as_fn zones v (r, s) = Some (r', collect_step zones s) /\ reg_rep r' m /\ reg_room r' (n - 1).
Proof.
  intros Fn Hr Hn Hl. destruct (Walk_ok as_fn 0 v (collect_zone zone rte_ring_get_capacity rte_ring_count RING_PREFIX) zones r
    (EthDevMetrics_Collect D ENOTSUP s) m n) as (r' & E & Hr' & Hn'); [done| |done|done|lia|].
  { intros mz r1 s1 m1 n1 Hr1 Hn1 _. exists r1. rewrite Fn, Z.sub_0_r. done. }
  exists r'. split_and!; [exact E|exact Hr'|]. by replace (n - 1) with (n - (1 + 0 * Z.of_nat (length zones))) by lia.
Qed.

(** C23. A collection over ports and zones with names of their own sets every gauge
    of a port, link or ring it could read to the value read, as a float, and the
    number of ports; it leaves all others as they were, those of ports and rings
    that cannot be read any more, or are gone, too. The walk over the zones
    gives back the registry of callbacks as it was, and does not panic. *)
Theorem Metrics_Collect_spec zones v r s m n (Hr : reg_rep r m) (Hn : reg_room r n) (Hl : 1 <= n)
    (Fn : calls_collect_zone v) (Ap : names_apart zones) :
  exists r' s', Metrics_Collect D ENOTSUP as_fn zones v (r, s) = Some (r', s') /\ reg_rep r' m /\
    gauge_get s' (AvailablePorts, []) = Some (float64 (dev_avail D)) /\
    (forall p k x, p ∈ visited -> port_shown p k = Some x -> gauge_get s' k = Some x) /\
    (forall z k x, z ∈ zones -> zone_shown z k = Some x -> gauge_get s' k = Some x) /\
    (forall k, k <> (AvailablePorts, []) -> (forall p, p ∈ visited -> port_shown p k = None) ->
       (forall z, z ∈ zones -> zone_shown z k = None) -> gauge_get s' k = gauge_get s k).
Proof.
  destruct (Metrics_Collect_run zones v r s m n Fn Hr Hn Hl) as (r' & E & Hr' & _).
  exists r', (collect_step zones s). split; [exact E|]. split; [exact Hr'|]. by apply collect_shows.
Qed.
End Devices.

(** ** Extended statistics *)

Section Counters.
Variable get_by_id : Z -> list Z -> list Z -> Z * list Z.
Variable E : rte_numbers.

(** What a port says, and the port behind a collection that it answered. *)
Definition reading (p : Z) (ex : ethXstat) : list Z := snd (get_by_id p (ids ex) (next ex)).
Definition after (p : Z) (ex : ethXstat) : ethXstat := mkEthXstat (reading p ex) (ids ex) (reading p ex) (prev ex).

(** The counters are at the last reading, and the next is not below it, by less
    than what a float can hold. *)
Definition follows (p : Z) (ex : ethXstat) : Prop :=
  0 <= fst (get_by_id p (ids ex) (next ex)) /\ cnt ex = prev ex /\
  Forall2 (fun a b => a <= b < a + 2 ^ 53) (prev ex) (reading p ex).

Lemma add_deltas_exact prev next : Forall2 (fun a b => a <= b < a + 2 ^ 53) prev next -> add_deltas prev next prev = Some next.
Proof.
  induction 1 as [|a b prev next H _ IH]; [done|]. cbn [add_deltas]. rewrite IH. cbn. do 2 f_equal.
  destruct (Z.ltb_spec a b); [|lia]. rewrite u64_small, float64_small by lia. lia.
Qed.

Lemma collect_follows p ex : follows p ex -> collect_xstats get_by_id E p ex = Some (None, after p ex).
Proof.
  intros (C & I & F). unfold collect_xstats, XstatGetByID, after, reading in *.
  destruct (get_by_id p (ids ex) (next ex)) as [rc vals]. cbn [fst snd] in *. rewrite (proj2 (Z.ltb_ge _ _)) by done.
  by rewrite I, add_deltas_exact.
Qed.

Definition advance (l : list Z) (stats : gmap Z ethXstat) : gmap Z ethXstat :=
  map_imap (fun p ex => Some (if decide (p ∈ l) then after p ex else ex)) stats.

Lemma collect_prefix l rest : forall stats, NoDup l -> (forall p, p ∈ l -> exists ex, stats !! p = Some ex /\ follows p ex) ->
  EthXstats_Collect get_by_id E (l ++ rest) stats = EthXstats_Collect get_by_id E rest (advance l stats).
Proof.
  induction l as [|p l IH]; intros stats ND F.
  - f_equal. apply map_eq. intros q. unfold advance. rewrite map_lookup_imap. by destruct (stats !! q).
  - apply NoDup_cons in ND as [Np ND]. destruct (F p) as (ex & Ex & Fp); [set_solver|].
    cbn [app EthXstats_Collect]. rewrite Ex, (collect_follows p ex Fp), IH.
    + f_equal. apply map_eq. intros q. unfold advance. rewrite !map_lookup_imap. destruct (decide (p = q)) as [<-|N].
      * rewrite lookup_insert_eq, Ex. cbn. rewrite decide_False by done. by rewrite decide_True by set_solver.
      * rewrite lookup_insert_ne by done. destruct (stats !! q) as [eq|]; [|done]. cbn. do 2 f_equal.
        destruct (decide (q ∈ l)); [by rewrite decide_True by set_solver|by rewrite decide_False by set_solver].
    + done.
    + intros q Hq. rewrite lookup_insert_ne by (by intros ->). apply F. set_solver.
Qed.

(** In whatever order Go visits the ports: while the statistics do not decrease
    and grow by less than [2^53] between two collections, a collection in which
    every port answers leaves all counters at the values read, ready for the
    next; and when a port fails, its error is returned, the ports visited
    before it have been counted, its own counters and those of the ports behind
    it stay. *)
Theorem EthXstats_Collect_spec stats order (ND : NoDup order) :
  ((forall p, p ∈ order <-> is_Some (stats !! p)) -> map_Forall follows stats ->
     EthXstats_Collect get_by_id E order stats = Some (None, map_imap (fun p ex => Some (after p ex)) stats)) /\
  (forall pre p post ex, order = pre ++ p :: post -> (forall q, q ∈ pre -> exists eq, stats !! q = Some eq /\ follows q eq) ->
     stats !! p = Some ex -> fst (get_by_id p (ids ex) (next ex)) < 0 ->
     exists stats', EthXstats_Collect get_by_id E order stats = Some (errno E (fst (get_by_id p (ids ex) (next ex))), stats') /\
       (forall q eq, q ∈ pre -> stats !! q = Some eq -> stats' !! q = Some (after q eq)) /\
       (exists ex', stats' !! p = Some ex' /\ cnt ex' = cnt ex /\ prev ex' = prev ex) /\
       forall q, q ∈ post -> stats' !! q = stats !! q).
Proof.
  split.
  - intros Dom F. rewrite <- (app_nil_r order), collect_prefix; [|done|].
    + cbn [EthXstats_Collect]. do 2 f_equal. apply map_eq. intros q. unfold advance. rewrite !map_lookup_imap.
      destruct (stats !! q) as [eq|] eqn:Q; [|done]. cbn. rewrite decide_True; [done|]. apply Dom. eauto.
    + intros p Hp. apply Dom in Hp as [ex Ex]. exists ex. split; [done|]. by apply F.
  - intros pre p post ex -> F Ex C. apply NoDup_app in ND as (ND1 & Dj & ND2). apply NoDup_cons in ND2 as [Np _].
    assert (Npre : p ∉ pre) by (intros Hp; by apply (Dj p Hp), list_elem_of_here).
    rewrite collect_prefix by done. cbn [EthXstats_Collect]. unfold advance at 1. rewrite map_lookup_imap, Ex. cbn [mbind option_bind].
    rewrite decide_False by done. unfold collect_xstats, XstatGetByID. destruct (get_by_id p (ids ex) (next ex)) as [rc vals]. cbn [fst snd] in *.
    rewrite (proj2 (Z.ltb_lt _ _)) by done. destruct (errno E rc) as [e|] eqn:Er.
    2: { exfalso. unfold errno in Er. rewrite (proj2 (Z.eqb_neq _ _)) in Er by lia. done. }
    eexists. split; [done|]. split_and!.
    + intros q eq Hq Q. rewrite lookup_insert_ne by (by intros ->). unfold advance. rewrite map_lookup_imap, Q. cbn. by rewrite decide_True.
    + eexists. by rewrite lookup_insert_eq.
    + intros q Hq. rewrite lookup_insert_ne by (by intros ->). unfold advance. rewrite map_lookup_imap.
      destruct (stats !! q) as [eq|]; [|done]. cbn. rewrite decide_False; [done|]. intros Hp. apply (Dj q Hp). set_solver.
Qed.
End Counters.

Definition sample_get (p : Z) (_ _ : list Z) : Z * list Z := if p =? 3 then (2, [10; 20]) else (-5, [7]).
Definition sample_xstats : gmap Z ethXstat := {[3 := mkEthXstat [4; 20] [0; 1] [4; 20] [0; 0]; 5 := mkEthXstat [1] [9] [1] [0]]}.

Lemma EthXstats_Collect_spec_witness :
  exists stats', EthXstats_Collect sample_get (mkRteNumbers 1000 1001 1002 1003) [3; 5] sample_xstats = Some (Some (Errno 5), stats') /\
    stats' !! 3 = Some (mkEthXstat [10; 20] [0; 1] [10; 20] [4; 20]) /\
    exists ex, stats' !! 5 = Some ex /\ cnt ex = [1] /\ prev ex = [1].
Proof.
  destruct (EthXstats_Collect_spec sample_get (mkRteNumbers 1000 1001 1002 1003) sample_xstats [3; 5]) as [_ H].
  - repeat constructor; set_solver.
  - destruct (H [3] 5 [] (mkEthXstat [1] [9] [1] [0])) as (stats' & R & Q & P & _); [done| |done|vm_compute; reflexivity|].
    + intros q Hq. apply list_elem_of_singleton in Hq as ->. eexists. split; [reflexivity|]. split; [vm_compute; discriminate|].
      split; [done|]. repeat constructor; vm_compute; discriminate || reflexivity.
    + exists stats'. split; [exact R|]. split; [by apply (Q 3 (mkEthXstat [4; 20] [0; 1] [4; 20] [0; 0])); [set_solver|]|exact P].
Defined.

(** Gauges as a function, a device of two ports of which one is without a link,
    a zone of a ring and another one. *)
#[export] Instance fun_Gauges : Gauges (gauge -> option Z) := {
  gauge_set k v s := fun k' => if decide (k = k') then Some v else s k'
}.
#[export] Instance fun_GaugesLaws : GaugesLaws (gauge -> option Z).
Proof. by refine {| gauge_get s k := s k |}. Defined.

Definition sample_devices : devices :=
  mkDevices 2 [0; 1] (fun p => inr [65 + p]) (fun p => if p =? 0 then inr (mkEthLink 10000 1 1 1) else inl (Errno 95))
    (fun _ => 0) (fun _ => inr [2; 0; 0; 0; 0; 1]) (fun _ => inr (mkDevInfo [100] [101] 128 4 2)).
Definition sample_zone (z : Z) : Memzone := if z =? 1 then mkMemzone [82; 71; 95; 49] 4096 512 2097152 0 else mkMemzone [77; 80] 8192 64 4096 1.

Lemma sample_names_apart : names_apart sample_devices sample_zone [1; 2].
Proof.
  split; [intros p q name _ _ A B; cbn in A, B; simplify_eq; lia|]. intros y z Hy Hz.
  repeat (apply elem_of_cons in Hy as [->|Hy]); repeat (apply elem_of_cons in Hz as [->|Hz]); try (by apply elem_of_nil in Hy); try (by apply elem_of_nil in Hz); done.
Qed.

Lemma Metrics_Collect_spec_witness : exists r' s',
  Metrics_Collect sample_devices 95 (fun (_ : unit) mz st => Some (fst st, collect_zone sample_zone (fun _ => 63) (fun _ => 5) [82; 71; 95] mz (snd st)))
    [1; 2] tt (NewRegistryArray, fun _ => None) = Some (r', s') /\
  s' (Speed_, [[65]]) = Some 10000 /\ s' (NbRxQueues_, [[66]]) = Some 4 /\ s' (Speed_, [[66]]) = None /\ s' (Count_, [[82; 71; 95; 49]]) = Some 5.
Proof.
  destruct (Metrics_Collect_spec sample_devices 95 sample_zone (fun _ => 63) (fun _ => 5) [82; 71; 95]
    (fun (_ : unit) mz st => Some (fst st, collect_zone sample_zone (fun _ => 63) (fun _ => 5) [82; 71; 95] mz (snd st)))
    [1; 2] tt NewRegistryArray (fun _ => None) ∅ 1) as (r' & s' & R & _ & _ & P & Z & N).
  - split; [intros i o Hi; by rewrite lookup_empty in Hi|done].
  - split; [lia|simpl; lia].
  - lia.
  - done.
  - exact sample_names_apart.
  - exists r', s'. split; [exact R|]. split_and!.
    + apply (P 0); [set_solver|reflexivity].
    + apply (P 1); [set_solver|reflexivity].
    + apply N; [done| |].
      * intros p Hp. repeat (apply elem_of_cons in Hp as [->|Hp]); [reflexivity|reflexivity|by apply elem_of_nil in Hp].
      * intros z Hz. repeat (apply elem_of_cons in Hz as [->|Hz]); [reflexivity|reflexivity|by apply elem_of_nil in Hz].
    + apply (Z 1); [set_solver|reflexivity].
Defined.
