(* ===== verification/LcoreThread.v ===== *)
(** * Locked threads

    [src/lcore/thread.go]: a goroutine bound to its OS thread that runs the
    functions sent to it through a channel. The channel, the goroutine and the
    callers are one state; a step is one action of the goroutine ([loop_step]) or
    of a caller ([caller_step]), and a run is any interleaving of them. The system
    calls on the affinity of the thread use a number that a job has asked for. *)

From Stdlib Require Import ZArith Lia.
From stdpp Require Import base list numbers option sets gmap.
From S2P Require Import Prelude.

Local Close Scope Z_scope.

Section Thread.
(** What the jobs work on; [None] is a panic, which ends the process. *)
Context {S : Type}.
Definition job_fn : Type := S -> option S.

(** A function sent by [Exec]; with [wait], the closure that also calls [Done] on
    the wait group of the call. *)
Record job := mkJob { fn : job_fn; call : option nat }.

(** The channel with its capacity and what it holds, what the goroutine runs, the
    calls of [Exec] that wait and those whose wait group is at zero, the state of
    the jobs, and how it ended. [sent] and [ran] record the history. *)
Record thread := mkThread {
  cap : nat;
  queue : list job;
  closed : bool;
  running : option job;
  waiting : gset nat;
  finished : gset nat;
  value : S;
  exited : bool;
  crashed : bool;
  sent : list job;
  ran : list job
}.

(** The state with a goroutine that has just started. *)
Definition new_thread (n : nat) (s : S) : thread := mkThread n [] false None ∅ ∅ s false false [] [].

(** [for f := range ch { f() }] *)
(* go: lcore/thread.go NewLockedThread *)
Inductive loop_step : thread -> thread -> Prop :=
| Receive t j q : exited t = false -> crashed t = false -> running t = None -> queue t = j :: q ->
    loop_step t (mkThread (cap t) q (closed t) (Some j) (waiting t) (finished t) (value t) false false (sent t) (ran t))
| Return t j s : exited t = false -> crashed t = false -> running t = Some j -> fn j (value t) = Some s ->
    loop_step t (mkThread (cap t) (queue t) (closed t) None (waiting t)
                   (match call j with Some c => {[c]} ∪ finished t | None => finished t end) s false false (sent t) (ran t ++ [j]))
| Panic t j : exited t = false -> crashed t = false -> running t = Some j -> fn j (value t) = None ->
    loop_step t (mkThread (cap t) (queue t) (closed t) None (waiting t) (finished t) (value t) false true (sent t) (ran t))
| RangeEnds t : exited t = false -> crashed t = false -> running t = None -> queue t = [] -> closed t = true ->
    loop_step t (mkThread (cap t) [] true None (waiting t) (finished t) (value t) true false (sent t) (ran t)).

Definition enqueue (j : job) (t : thread) : thread :=
  mkThread (cap t) (queue t ++ [j]) (closed t) (running t) (match call j with Some c => {[c]} ∪ waiting t | None => waiting t end)
    (finished t) (value t) (exited t) false (sent t ++ [j]) (ran t).

(** The job that a call sends; with [wait] it has a wait group of its own, [c]. *)
(* go: lcore/thread.go Thread.Exec *)
Definition exec_job (wait : bool) (f : job_fn) (c : nat) : job := mkJob f (if wait then Some c else None).

(** A send is possible when the buffer has room; without a buffer, when the
    goroutine receives, and it has the job at once. *)
(* go: lcore/thread.go Thread.Exec *)
Inductive exec_step : thread -> thread -> Prop :=
| Send t j : crashed t = false -> closed t = false -> length (queue t) < cap t ->
    (forall c, call j = Some c -> c ∉ waiting t ∪ finished t) -> exec_step t (enqueue j t)
| HandOver t j : crashed t = false -> closed t = false -> exited t = false -> cap t = 0 -> running t = None ->
    (forall c, call j = Some c -> c ∉ waiting t ∪ finished t) ->
    exec_step t (mkThread 0 [] false (Some j) (match call j with Some c => {[c]} ∪ waiting t | None => waiting t end)
                   (finished t) (value t) false false (sent t ++ [j]) (ran t))
| SendClosed t : crashed t = false -> closed t = true ->
    exec_step t (mkThread (cap t) (queue t) true (running t) (waiting t) (finished t) (value t) (exited t) true (sent t) (ran t))
| WaitReturns t c : crashed t = false -> c ∈ waiting t -> c ∈ finished t ->
    exec_step t (mkThread (cap t) (queue t) (closed t) (running t) (waiting t ∖ {[c]}) (finished t) (value t) (exited t) false (sent t) (ran t)).

(** Closing twice panics. *)
(* go: lcore/thread.go Thread.Close *)
Definition Close (t : thread) : thread :=
  mkThread (cap t) (queue t) true (running t) (waiting t) (finished t) (value t) (exited t) (closed t || crashed t) (sent t) (ran t).

Inductive thread_step : thread -> thread -> Prop :=
| ByLoop t t' : loop_step t t' -> thread_step t t'
| ByCaller t t' : exec_step t t' -> thread_step t t'
| ByClose t : crashed t = false -> thread_step t (Close t).

(** ** Invariant *)

Definition running_jobs (t : thread) : list job := match running t with Some j => [j] | None => [] end.
Definition run_jobs (l : list job) (s : S) : option S := foldl (fun r j => r ≫= fn j) (Some s) l.
Definition calls_of (l : list job) : gset nat := list_to_set (omap call l).

Lemma run_jobs_snoc l j s : run_jobs (l ++ [j]) s = run_jobs l s ≫= fn j.
Proof. unfold run_jobs. by rewrite foldl_app. Qed.
Lemma calls_of_snoc l j : calls_of (l ++ [j]) = calls_of l ∪ match call j with Some c => {[c]} | None => ∅ end.
Proof. unfold calls_of. rewrite omap_app, list_to_set_app_L. cbn. destruct (call j); cbn; set_solver. Qed.

Record thread_inv (s0 : S) (t : thread) : Prop := {
  ti_order : sent t = ran t ++ running_jobs t ++ queue t;
  ti_value : run_jobs (ran t) s0 = Some (value t);
  ti_room : length (queue t) <= cap t;
  ti_finished : finished t = calls_of (ran t);
  ti_waiting : waiting t ⊆ calls_of (sent t);
  ti_over : forall c, c ∈ calls_of (sent t) -> c ∈ waiting t \/ c ∈ finished t;
  ti_exited : exited t = true -> closed t = true /\ running t = None /\ queue t = []
}.

Lemma loop_inv s0 t t' : loop_step t t' -> thread_inv s0 t -> crashed t' = false -> thread_inv s0 t'.
Proof.
  intros St [O V R F W Ov X] C. destruct St as [t j q E Cr Ru Q|t j s E Cr Ru Fn|t j E Cr Ru Fn|t E Cr Ru Q Cl]; [| |done|].
  - unfold running_jobs in O. rewrite Ru, Q in O. rewrite Q in R.
    split; cbn [sent ran queue value cap finished waiting exited closed running]; try done. simpl in R. lia.
  - unfold running_jobs in O. rewrite Ru in O.
    split; cbn [sent ran queue value cap finished waiting exited closed running]; try done.
    + rewrite O. cbn. by rewrite <- app_assoc.
    + by rewrite run_jobs_snoc, V.
    + rewrite calls_of_snoc, F. destruct (call j); set_solver.
    + intros c Hc. destruct (Ov c Hc) as [|Hf]; [by left|right]. destruct (call j); set_solver.
  - unfold running_jobs in O. rewrite Ru, Q in O.
    split; cbn [sent ran queue value cap finished waiting exited closed running]; try done. simpl. lia.
Qed.

Lemma caller_inv s0 t t' : exec_step t t' -> thread_inv s0 t -> crashed t' = false -> thread_inv s0 t'.
Proof.
  intros St [O V R F W Ov X] C. destruct St as [t j Cr Cl Rm Fr|t j Cr Cl E Cp Ru Fr|t Cr Cl|t c Cr Hw Hf]; [| |done|].
  - split; cbn [enqueue sent ran queue value cap finished waiting exited closed running].
    + rewrite O. unfold running_jobs. cbn. by rewrite <- !app_assoc.
    + done.
    + rewrite length_app. simpl. lia.
    + done.
    + rewrite calls_of_snoc. destruct (call j); set_solver.
    + intros c. rewrite calls_of_snoc. destruct (call j); set_solver.
    + intros E. apply X in E as [E _]. congruence.
  - assert (Q : queue t = []) by (apply length_zero_iff_nil; lia). unfold running_jobs in O. rewrite Ru, Q in O.
    split; cbn [sent ran queue value cap finished waiting exited closed running running_jobs]; try done.
    + unfold running_jobs. cbn. by rewrite O, !app_nil_r.
    + rewrite calls_of_snoc. destruct (call j); set_solver.
    + intros c. rewrite calls_of_snoc. destruct (call j); set_solver.
  - split; cbn [sent ran queue value cap finished waiting exited closed running]; try done; [set_solver|].
    intros c' Hc. destruct (decide (c' = c)) as [->|]; [by right|]. destruct (Ov c' Hc); [left; set_solver|by right].
Qed.

Lemma thread_step_inv s0 t t' : thread_step t t' -> thread_inv s0 t -> crashed t' = false -> thread_inv s0 t' /\ crashed t = false.
Proof.
  intros St I C. destruct St as [t t' St|t t' St|t Cr].
  - split; [by eapply loop_inv|by destruct St].
  - split; [by eapply caller_inv|by destruct St].
  - split; [|done]. destruct I as [O V R F W Ov X]. split; try done. intros E. by apply X in E as (_ & ? & ?).
Qed.

Lemma new_thread_inv n s0 : thread_inv s0 (new_thread n s0).
Proof. split; try done. cbn. lia. Qed.

Lemma reachable_inv n s0 t : rtc thread_step (new_thread n s0) t -> crashed t = false -> thread_inv s0 t.
Proof.
  intros R. pattern t. revert t R. apply rtc_ind_r; [intros _; apply new_thread_inv|].
  intros t1 t2 _ St IH C. destruct (crashed t1) eqn:C1; [destruct St as [? ? St|? ? St|]; [destruct St|destruct St|]; congruence|].
  by eapply thread_step_inv; [exact St|apply IH|].
Qed.

(** C19. Whatever the callers do, on a channel of any capacity: the thread runs the
    jobs in the order in which they were sent, each once, on the state the one
    before left; a job that was sent has run, runs, or is in the channel; and a
    call of [Exec] that waits comes back only when its job has run. *)
Theorem thread_runs_in_order n s0 t (R : rtc thread_step (new_thread n s0) t) (C : crashed t = false) :
  sent t = ran t ++ running_jobs t ++ queue t /\
  run_jobs (ran t) s0 = Some (value t) /\ length (queue t) <= cap t /\
  (forall j c, j ∈ sent t -> call j = Some c -> c ∉ waiting t -> exists j', j' ∈ ran t /\ call j' = Some c) /\
  (forall c t', exec_step t t' -> waiting t' = waiting t ∖ {[c]} -> c ∈ waiting t -> crashed t' = false ->
     exists j', j' ∈ ran t /\ call j' = Some c).
Proof.
  destruct (reachable_inv n s0 t R C) as [O V Rm F W Ov X].
  assert (Fin : forall c, c ∈ finished t -> exists j', j' ∈ ran t /\ call j' = Some c).
  { intros c. rewrite F. unfold calls_of. intros Hc. apply elem_of_list_to_set, list_elem_of_omap in Hc as (j & Hj & E). eauto. }
  split_and!; [done|done|done| |].
  - intros j c Hj E Nw. apply Fin. destruct (Ov c) as [|Hf]; [|done|done]. unfold calls_of.
    apply elem_of_list_to_set, list_elem_of_omap. eauto.
  - intros c t' St Hw Hc Cr. apply Fin. destruct St as [t j' _ _ _ Fr|t j' _ _ _ _ _ Fr|t|t c' _ Hw' Hf]; cbn in Hw, Cr; [| |done|].
    + exfalso. assert (c ∈ waiting t ∖ {[c]}); [rewrite <- Hw|]; destruct (call j'); set_solver.
    + exfalso. assert (c ∈ waiting t ∖ {[c]}); [rewrite <- Hw|]; destruct (call j'); set_solver.
    + destruct (decide (c' = c)) as [->|N]; [done|]. exfalso. assert (c ∈ waiting t ∖ {[c]}); [rewrite <- Hw|]; set_solver.
Qed.

(** ** Closing *)

(** The actions the goroutine has left on a closed channel. *)
Definition left_to_do (t : thread) : nat :=
  if exited t || crashed t then 0 else 1 + length (running_jobs t) + 2 * length (queue t).

Lemma loop_step_less t t' : closed t = true -> loop_step t t' -> left_to_do t' < left_to_do t /\ closed t' = true /\ sent t' = sent t.
Proof.
  intros Cl St. unfold left_to_do. destruct St as [t j q E Cr Ru Q|t j s E Cr Ru Fn|t j E Cr Ru Fn|t E Cr Ru Q _];
    rewrite E, Cr; unfold running_jobs; cbn; rewrite ?Ru, ?Q; cbn; split; (done || lia).
Qed.

Lemma loop_progress t : closed t = true -> exited t = false -> crashed t = false -> exists t', loop_step t t'.
Proof.
  intros Cl E Cr. destruct (running t) as [j|] eqn:Ru.
  - destruct (fn j (value t)) as [s|] eqn:F; eexists; [by eapply Return|by eapply Panic].
  - destruct (queue t) as [|j q] eqn:Q; eexists; [by apply RangeEnds|by eapply Receive].
Qed.

(** C20. Once the channel of a thread is closed, the goroutine ends on its own
    within a number of actions computed from the channel, whatever it does first;
    unless a job panicked it has then run all that was ever sent, and every
    call of [Exec] that waits can return. A later [Exec] or [Close] panics. *)
Theorem Close_ends_thread n s0 t (R : rtc thread_step (new_thread n s0) t) (C : crashed t = false) (Cl : closed t = true) :
  (forall k t', nsteps loop_step k t t' -> k <= left_to_do t) /\
  (forall t', rtc loop_step t t' -> ~ (exists t'', loop_step t' t'') -> crashed t' = false ->
     exited t' = true /\ ran t' = sent t /\ forall c, c ∈ waiting t' -> c ∈ finished t') /\
  (forall t', exec_step t t' -> crashed t' = true \/ exists c, c ∈ finished t /\ waiting t' = waiting t ∖ {[c]}) /\
  crashed (Close t) = true.
Proof.
  split_and!.
  - assert (H : forall k t t', nsteps loop_step k t t' -> closed t = true -> k <= left_to_do t); [|by eauto].
    clear. induction k as [|k IH]; intros t t' N Cl; [lia|]. inversion N as [|? ? t1 ? St N']; subst.
    destruct (loop_step_less t t1 Cl St) as (L & Cl1 & _). specialize (IH t1 t' N' Cl1). lia.
  - intros t' Rl Stuck C'. assert (Cl' : closed t' = true /\ sent t' = sent t).
    { revert Cl. clear -Rl. induction Rl as [|t1 t2 t3 St Rl IH]; intros Cl; [done|].
      destruct (loop_step_less t1 t2 Cl St) as (_ & Cl2 & Se). destruct (IH Cl2) as [? Se']. split; [done|congruence]. }
    destruct Cl' as [Cl' Se]. assert (X : exited t' = true).
    { destruct (exited t') eqn:X; [done|]. exfalso. by apply Stuck, loop_progress. }
    destruct (reachable_inv n s0 t') as [O V Rm F W Ov Xi]; [|done|].
    { etrans; [exact R|]. clear -Rl. induction Rl as [|t1 t2 t3 St Rl IH]; [done|]. eapply rtc_l; [by apply ByLoop|done]. }
    destruct (Xi X) as (_ & Ru & Q). unfold running_jobs in O. rewrite Ru, Q in O. cbn in O. rewrite app_nil_r in O.
    split_and!; [done|by rewrite <- O|]. intros c Hc. rewrite F, <- O. by apply W.
  - intros t' St. destruct St as [t j _ Cl'|t j _ Cl'|t|t c Cr Hw Hf]; [congruence|congruence|by left|right; eauto].
  - unfold Close. cbn. by rewrite Cl.
Qed.
End Thread.
Arguments job : clear implicits.
Arguments thread : clear implicits.

(** ** Affinity

    The goroutine is bound to the OS thread [tid]. The state of the jobs has the
    variables that calls of [Gettid] leave their result in, by call. CPU sets and
    the system calls are those of [golang.org/x/sys/unix]. *)

Section Affinity.
Context {U CPUSet OS Err : Type}.
Variable tid : Z.
Variable no_cpus : CPUSet.
Variable cpu_set : CPUSet -> Z -> CPUSet.
Variable SchedSetaffinity : OS -> Z -> CPUSet -> option Err * OS.
Variable SchedGetaffinity : OS -> Z -> CPUSet -> CPUSet * option Err.
Abbreviation state := (gmap nat Z * U)%type.

(** The job of a call of [Gettid], and the result once it has returned. *)
(* go: lcore/thread.go Thread.Gettid *)
Definition Gettid_job (c : nat) : job state := exec_job true (fun s => Some (<[c := tid]> (fst s), snd s)) c.
Definition Gettid (t : thread state) (c : nat) : Z := default 0%Z (fst (value t) !! c).

(** The calls, when their call [c] of [Gettid] has returned in state [t]. *)
(* go: lcore/thread.go Thread.SetAffinity *)
Definition SetAffinity (t : thread state) (c : nat) (id : Z) (os : OS) : option Err * OS :=
  let s := cpu_set no_cpus (i64 id) in SchedSetaffinity os (Gettid t c) s.
(* go: lcore/thread.go Thread.GetAffinity *)
Definition GetAffinity (t : thread state) (c : nat) (os : OS) : CPUSet * option Err := SchedGetaffinity os (Gettid t c) no_cpus.

(** A job of another call that leaves the variable of call [c] alone. *)
Definition keeps (c : nat) (j : job state) : Prop := call j <> Some c /\ forall s s', fn j s = Some s' -> fst s' !! c = fst s !! c.

Lemma run_jobs_tid c l : forall s s', run_jobs l s = Some s' -> Gettid_job c ∈ l -> (forall j, j ∈ l -> j = Gettid_job c \/ keeps c j) ->
  fst s' !! c = Some tid.
Proof.
  induction l as [|j l IH] using rev_ind; intros s s' R Hj K; [by apply not_elem_of_nil in Hj|]. rewrite run_jobs_snoc in R.
  destruct (run_jobs l s) as [s1|] eqn:R1; [|done]. cbn in R. destruct (K j) as [->|[Nc Kj]]; [apply elem_of_app; right; constructor| |].
  - injection R as <-. cbn. apply lookup_insert_eq.
  - rewrite (Kj s1 s' R). apply (IH s s1 R1).
    + apply elem_of_app in Hj as [?|Hj]; [done|]. apply list_elem_of_singleton in Hj. by subst.
    + intros j' ?. apply K. apply elem_of_app. by left.
Qed.

(** Whatever the thread runs besides, if the other jobs leave the variable of the
    call alone: when [Gettid] has returned, the affinity calls are about the OS
    thread of the goroutine, whichever the caller runs on. *)
Theorem affinity_of_thread n s0 t c id os : rtc thread_step (new_thread n s0) t -> crashed t = false ->
  Gettid_job c ∈ sent t -> c ∉ waiting t -> (forall j, j ∈ sent t -> j = Gettid_job c \/ keeps c j) ->
  SetAffinity t c id os = SchedSetaffinity os tid (cpu_set no_cpus (i64 id)) /\
  GetAffinity t c os = SchedGetaffinity os tid no_cpus.
Proof.
  intros R C Hs Nw K. destruct (reachable_inv n s0 t R C) as [O V _ F _ Ov _].
  assert (Hr : forall j, j ∈ ran t -> j ∈ sent t) by (intros j Hj; rewrite O; apply elem_of_app; by left).
  assert (Hj : Gettid_job c ∈ ran t).
  { destruct (Ov c) as [|Hf]; [unfold calls_of; apply elem_of_list_to_set, list_elem_of_omap; by exists (Gettid_job c)|done|].
    rewrite F in Hf. unfold calls_of in Hf. apply elem_of_list_to_set, list_elem_of_omap in Hf as (j & Hj & Ec).
    destruct (K j (Hr j Hj)) as [->|[Nc _]]; [done|congruence]. }
  unfold SetAffinity, GetAffinity, Gettid. rewrite (run_jobs_tid c (ran t) s0 (value t) V Hj); [done|]. intros j Hjr. by apply K, Hr.
Qed.
End Affinity.

(** A call that waits for [3] to be stored, and one that adds without waiting; the
    channel is closed while the second is in its buffer. *)
Definition store3 : job nat := exec_job true (fun _ => Some 3) 0.
Definition add4 : job nat := exec_job false (fun v => Some (v + 4)) 1.
Definition t_sent : thread nat := mkThread 1 [add4] false (Some store3) {[0]} ∅ 0 false false [store3; add4] [].
Definition t_closed : thread nat := Close (mkThread 1 [add4] false None {[0]} {[0]} 3 false false [store3; add4] [store3]).

Lemma t_sent_reachable : rtc thread_step (new_thread 1 0) t_sent.
Proof.
  eapply rtc_l; [apply ByCaller, (Send _ store3); [done|done|cbn; lia|set_solver]|].
  eapply rtc_l; [apply ByLoop; by eapply Receive|].
  eapply rtc_l; [apply ByCaller, (Send _ add4); [done|done|cbn; lia|done]|].
  unfold enqueue. cbn. rewrite union_empty_r_L. apply rtc_refl.
Qed.
Lemma t_closed_reachable : rtc thread_step (new_thread 1 0) t_closed.
Proof.
  etrans; [exact t_sent_reachable|]. eapply rtc_l; [apply ByLoop; by eapply (Return _ store3)|].
  cbn. rewrite union_empty_r_L. eapply rtc_l; [by apply ByClose|apply rtc_refl].
Qed.

Lemma thread_runs_in_order_witness : ran t_closed = [store3] /\ run_jobs (ran t_closed) 0 = Some 3 /\
  exists j, j ∈ ran t_closed /\ call j = Some 0.
Proof.
  destruct (thread_runs_in_order 1 0 t_closed t_closed_reachable eq_refl) as (_ & V & _ & _ & W).
  split; [done|]. split; [exact V|].
  apply (W 0 (mkThread 1 [add4] true None ({[0]} ∖ {[0]}) {[0]} 3 false false [store3; add4] [store3])); [|done|set_solver|done].
  apply (WaitReturns t_closed 0); [done|set_solver|set_solver].
Defined.

Lemma Close_ends_thread_witness : exists t', rtc loop_step t_closed t' /\ exited t' = true /\ ran t' = [store3; add4] /\ left_to_do t_closed = 3.
Proof.
  destruct (Close_ends_thread 1 0 t_closed t_closed_reachable eq_refl eq_refl) as (_ & H & _).
  set (t' := mkThread 1 [] true None {[0]} {[0]} 7 true false [store3; add4] [store3; add4]).
  assert (R : rtc loop_step t_closed t').
  { eapply rtc_l; [by eapply Receive|]. eapply rtc_l; [by eapply (Return _ add4)|]. eapply rtc_l; [by apply RangeEnds|]. apply rtc_refl. }
  exists t'. destruct (H t' R) as (X & Rn & _); [intros [t'' St]; by inversion St|done|]. split; [exact R|]. split; [exact X|]. split; [exact Rn|reflexivity].
Defined.
