(* ===== verification/EalInit.v ===== *)
(** * EAL initialisation: the arguments

    [ealInit] of [src/eal/init.go] puts its arguments in C memory through an
    allocation session ([Alloc]) over C's malloc and frees them when
    [rte_eal_init] has returned; [SafeEALArgs] of [src/eal/init_once.go]; the
    shortcuts of [src/eal/eal.go] for the main lcore. C memory is a map of blocks.
    The theorem says that [rte_eal_init] finds the arguments where it looks for
    them and that nothing is left behind. *)

From Stdlib Require Import ZArith Lia String.
From stdpp Require Import base list numbers option gmap sets.
From S2P Require Import Prelude Text Errno Alloc Eal.

Open Scope Z_scope.
Open Scope go_scope.

Abbreviation blocks := (gmap Z (list Z)).

Section EalInit.
(** Where malloc puts a block and what is in it; realloc, which is not used. *)
Variable malloc_at : blocks -> Z -> Z.
Variable junk : blocks -> Z -> list Z.
Variable realloc : blocks -> Z -> Z -> option (Z * blocks).

(** [StdAlloc] on these functions: [C.malloc] of cgo does not return NULL. *)
(* go: common/allocator_std.go 12-29 StdAlloc *)
#[local] Instance StdAlloc : Allocator blocks := {
  a_malloc h n := (malloc_at h n, <[malloc_at h n := junk h n]> h);
  a_free h p := if p =? 0 then Some h else match h !! p with None => None | Some _ => Some (delete p h) end;
  a_realloc := realloc
}.

(** [common.CString] on the session [mem]. *)
Definition session_CString (s : list Z) : M (AllocatorSession blocks) Z := fun mem =>
  let '(p, mem) := Malloc mem (Z.of_nat (length s) + 1) in
  match mem_ mem !! p with
  | None => None
  | Some _ => Some (p, mkSession (<[p := s ++ [0]]> (mem_ mem)) (ptrs mem))
  end.

(** [for i := range args { argv[i] = ... }] *)
Fixpoint put_args (args : list (list Z)) : M (AllocatorSession blocks) (list Z) :=
  match args with
  | [] => ret []
  | a :: args => let! p := session_CString a in let! ps := put_args args in ret (p :: ps)
  end.

Variable E : rte_numbers.
(** [rte_eal_init(argc, argv)], which reads the blocks, and [rte_errno] behind it. *)
Variable rte_eal_init : blocks -> Z -> list Z -> Z.
Variable rte_errno : Z.
(** The order in which Go ranges over a map. *)
Variable order : gset Z -> list Z.

(* go: eal/init.go ealInit *)
Definition ealInit (args : list (list Z)) (h : blocks) : option ((Z * option go_error) * blocks) :=
  let argc := Z.of_nat (length args) in
  match put_args args (NewAllocatorSession h) with
  | None => None
  | Some (ps, mem) =>
      let argv := ps ++ [0] in
      let n := rte_eal_init (mem_ mem) argc argv in
      match Flush mem (order (ptrs mem)) with
      | None => None
      | Some mem => Some ((n, if n <? 0 then RteErrno E rte_errno else None), mem_ mem)
      end
  end.

(** [put_args] on a session that owns its blocks. *)
Definition fresh_malloc : Prop := forall h n, malloc_at h n <> 0 /\ h !! malloc_at h n = None.

Record owns (h0 : blocks) (mem : AllocatorSession blocks) : Prop := {
  own_nil : 0 ∉ ptrs mem;
  own_dom p : p ∈ ptrs mem -> h0 !! p = None /\ is_Some (mem_ mem !! p);
  own_rest p : p ∉ ptrs mem -> mem_ mem !! p = h0 !! p
}.

Lemma put_args_spec h0 args : fresh_malloc -> forall mem, owns h0 mem -> exists ps mem',
  put_args args mem = Some (ps, mem') /\ owns h0 mem' /\ ptrs mem' = ptrs mem ∪ list_to_set ps /\
  Forall2 (fun p a => mem_ mem' !! p = Some (a ++ [0])) ps args /\
  NoDup ps /\ (forall p, p ∈ ps -> p ∉ ptrs mem) /\ forall p, p ∈ ptrs mem -> mem_ mem' !! p = mem_ mem !! p.
Proof.
  intros Hm. induction args as [|a args IH]; intros mem O.
  - exists [], mem. cbn. split_and!; try done; try (by constructor); set_solver.
  - destruct (Hm (mem_ mem) (Z.of_nat (length a) + 1)) as [Hp Fp]. set (p := malloc_at (mem_ mem) (Z.of_nat (length a) + 1)) in *.
    set (mem1 := mkSession (<[p := a ++ [0]]> (mem_ mem)) ({[p]} ∪ ptrs mem)).
    assert (Np : p ∉ ptrs mem) by (intros I; apply O in I as [_ [x Ix]]; congruence).
    assert (O1 : owns h0 mem1).
    { destruct O as [On Od Or]. split; cbn [ptrs mem_ mem1].
      - set_solver.
      - intros q Hq. destruct (decide (q = p)) as [->|N].
        + rewrite lookup_insert_eq. split; [rewrite <- Or; done|eauto].
        + rewrite lookup_insert_ne by done. apply Od. set_solver.
      - intros q Hq. rewrite lookup_insert_ne by set_solver. apply Or. set_solver. }
    destruct (IH mem1 O1) as (ps & mem' & R & O' & P & F & ND & Nin & K). exists (p :: ps), mem'. split_and!.
    + cbn [put_args]. unfold bind, session_CString, Malloc. cbn [a_malloc StdAlloc mem_ ptrs]. fold p.
      rewrite lookup_insert_eq, insert_insert_eq. fold mem1. by rewrite R.
    + done.
    + rewrite P. cbn [mem1 ptrs list_to_set]. set_solver.
    + constructor; [|done]. rewrite K by (cbn [mem1 ptrs]; set_solver). cbn [mem1 mem_]. apply lookup_insert_eq.
    + constructor; [|done]. intros I. apply (Nin p I). cbn [mem1 ptrs]. set_solver.
    + intros q Hq. apply elem_of_cons in Hq as [->|Hq]; [done|]. specialize (Nin q Hq). cbn [mem1 ptrs] in Nin. set_solver.
    + intros q Hq. rewrite K by (cbn [mem1 ptrs]; set_solver). cbn [mem1 mem_]. rewrite lookup_insert_ne; [done|]. by intros ->.
Qed.

Lemma free_all_blocks l : forall h, NoDup l -> (forall p, p ∈ l -> p <> 0 /\ is_Some (h !! p)) ->
  exists h', free_all h l = Some h' /\ forall p, h' !! p = if decide (p ∈ l) then None else h !! p.
Proof.
  induction l as [|q l IH]; intros h ND Own; [exists h; split; [done|]; intros p; by rewrite decide_False by set_solver|].
  apply NoDup_cons in ND as [Nq ND]. destruct (Own q) as [Hq [x Hx]]; [set_solver|].
  destruct (IH (delete q h)) as (h' & F & L); [done| |].
  { intros p Hp. rewrite lookup_delete_ne by (by intros ->). apply Own. set_solver. }
  exists h'. cbn [free_all a_free StdAlloc]. rewrite (proj2 (Z.eqb_neq _ _) Hq), Hx, F. split; [done|]. intros p. rewrite L.
  destruct (decide (p = q)) as [->|N].
  - rewrite lookup_delete_eq. rewrite (decide_True (P := q ∈ q :: l)) by set_solver. by case_decide.
  - rewrite lookup_delete_ne by done. destruct (decide (p ∈ l)); [by rewrite decide_True by set_solver|by rewrite decide_False by set_solver].
Qed.

(** [ealInit] calls [rte_eal_init] once, with the number of its arguments and an
    array of as many different pointers and a NULL behind them, each to its
    argument with a zero byte; it returns what that returns, with the error of
    [rte_errno] exactly for a negative value; and whatever the order in which
    the session is flushed, C memory is then what it was. *)
Theorem ealInit_no_leak args h (Hm : fresh_malloc) (N0 : h !! 0 = None) (Ho : forall X, order X ≡ₚ elements X) :
  exists ps h', Forall2 (fun p a => p <> 0 /\ h !! p = None /\ h' !! p = Some (a ++ [0])) ps args /\ NoDup ps /\
    (forall p, p ∉ ps -> h' !! p = h !! p) /\
    let n := rte_eal_init h' (Z.of_nat (length args)) (ps ++ [0]) in
    ealInit args h = Some ((n, if n <? 0 then errno E rte_errno else None), h).
Proof.
  destruct (put_args_spec h args Hm (NewAllocatorSession h)) as (ps & mem & R & [On Od Or] & P & F & ND & _ & _).
  { split; cbn; [set_solver|set_solver|done]. }
  cbn [NewAllocatorSession ptrs] in P. rewrite union_empty_l_L in P. exists ps, (mem_ mem). split_and!.
  - apply Forall2_same_length_lookup in F as [Ln F]. apply Forall2_same_length_lookup. split; [done|]. intros i p a Hp Ha.
    split_and!; [|apply Od|by eapply F]; [intros ->; apply On|]; rewrite P; apply elem_of_list_to_set; by eapply list_elem_of_lookup_2.
  - done.
  - intros p Hp. apply Or. rewrite P. by rewrite elem_of_list_to_set.
  - cbn zeta. unfold ealInit. rewrite R. unfold Flush.
    destruct (free_all_blocks (order (ptrs mem)) (mem_ mem)) as (h' & Fr & L).
    + rewrite Ho. apply NoDup_elements.
    + intros p Hp. rewrite Ho, elem_of_elements in Hp. split; [by intros ->|]. by apply Od.
    + rewrite Fr. cbn [mem_]. unfold RteErrno. repeat f_equal. apply map_eq. intros p. rewrite L.
      destruct (decide (p ∈ order (ptrs mem))) as [I|I]; rewrite Ho, elem_of_elements in I; [symmetry; by apply Od|by apply Or].
Qed.
End EalInit.

(** ** Other calls of the EAL *)

Section Calls.
Variable malloc_at : blocks -> Z -> Z.

(** [C.CString] and [C.free] around the call, for a path that is not empty. *)
(* go: eal/eal.go PrimaryProcAlive *)
Definition PrimaryProcAlive (rte_eal_primary_proc_alive : blocks -> Z -> Z) (path : list Z) : M blocks bool := fun h =>
  match path with
  | [] => Some (negb (rte_eal_primary_proc_alive h 0 =? 0), h)
  | _ => let s := malloc_at h (Z.of_nat (length path) + 1) in
         let h := <[s := path ++ [0]]> h in Some (negb (rte_eal_primary_proc_alive h s =? 0), delete s h)
  end.

(** The string is there for the call and gone behind it. *)
Theorem PrimaryProcAlive_spec alive path h (Hm : fresh_malloc malloc_at) :
  exists s h', PrimaryProcAlive alive path h = Some (negb (alive h' s =? 0), h) /\
    if decide (path = []) then s = 0 /\ h' = h else s <> 0 /\ h' !! s = Some (path ++ [0]).
Proof.
  destruct path as [|b path]; [by exists 0, h|]. destruct (Hm h (Z.of_nat (length (b :: path)) + 1)) as [N F].
  exists (malloc_at h (Z.of_nat (length (b :: path)) + 1)), (<[malloc_at h (Z.of_nat (length (b :: path)) + 1) := (b :: path) ++ [0]]> h).
  split; [|by rewrite lookup_insert_eq]. unfold PrimaryProcAlive. by rewrite delete_insert_id.
Qed.
End Calls.

(* go: eal/init.go Cleanup *)
Definition Cleanup {S} (E : rte_numbers) (rte_eal_cleanup : S -> Z * S) : M S (option go_error) :=
  fun s => let '(rc, s) := rte_eal_cleanup s in Some (errno E rc, s).

(** ** Arguments for tests *)

(** [random] is what [hex.EncodeToString] gives of sixteen random bytes. *)
(* go: eal/init_once.go SafeEALArgs *)
Definition SafeEALArgs (random cmdname : list Z) (lcores : Z) : list (list Z) :=
  [cmdname; str "--lcores"; str "(0-" ++ fmt_d (lcores - 1) ++ str ")@0"; str "--file-prefix"; str "_" ++ random;
   str "--vdev"; str "net_null0"; str "-m"; str "128"; str "--no-huge"; str "--no-pci"; str "--main-lcore"; str "0"].
(** [hex.EncodeToString]. *)
(* go: eal/init_once.go makeRandomString *)
Definition makeRandomString (random : list Z) : list Z := concat (map (fmt_x 2) random).
(* go: eal/init_once.go InitOnceSafe *)
Definition InitOnceSafe (already : bool) (Init : list (list Z) -> option go_error) (random cmdname : list Z) (lcores : Z) : bool * bool :=
  InitOnce already (Init (SafeEALArgs (makeRandomString random) cmdname lcores)).

(** ** The main lcore *)

(* go: eal/eal.go ExecOnMainAsync *)
Definition ExecOnMainAsync {V P} (main : Z) (s : ealConfig) (ret : option nat) (f : func) : option (ealConfig (V := V) (P := P)) :=
  ExecOnLcoreAsync s main ret f.
(* go: eal/eal.go ExecOnMain *)
Definition ExecOnMain {V P} (main : Z) (c : nat) (f : func) : list (event (V := V) (P := P)) := ExecOnLcore c main f.

(** ** A sample *)

Definition sample_malloc (h : blocks) (n : Z) : Z := 1 + foldr Z.max 0 (map fst (map_to_list h)).

Lemma sample_malloc_fresh : fresh_malloc sample_malloc.
Proof.
  intros h n. assert (B : forall l : list Z, 0 <= foldr Z.max 0 l /\ forall x, x ∈ l -> x <= foldr Z.max 0 l).
  { induction l as [|y l [B0 B]]; cbn [foldr]; split; [lia|set_solver|lia|]. intros x Hx. apply elem_of_cons in Hx as [->|Hx]; [lia|].
    specialize (B x Hx). lia. }
  destruct (B (map fst (map_to_list h))) as [B0 B1]. split; [unfold sample_malloc; lia|].
  destruct (h !! sample_malloc h n) as [x|] eqn:L; [|done]. exfalso. assert (sample_malloc h n <= foldr Z.max 0 (map fst (map_to_list h))).
  { apply B1, list_elem_of_fmap. exists (sample_malloc h n, x). split; [done|]. by apply elem_of_map_to_list. }
  unfold sample_malloc in *. lia.
Qed.

Lemma ealInit_no_leak_witness :
  exists ps : list Z, length ps = 2%nat /\
    ealInit sample_malloc (fun _ _ => []) (fun _ _ _ => None) (mkRteNumbers 1000 1001 1002 1003)
      (fun _ argc argv => if decide (last argv = Some 0) then argc else -1) 22 elements [[97]; [45; 99]] {[7 := [1]]} =
    Some ((2, None), {[7 := [1]]}) /\ NoDup ps.
Proof.
  destruct (ealInit_no_leak sample_malloc (fun _ _ => []) (fun _ _ _ => None) (mkRteNumbers 1000 1001 1002 1003)
    (fun _ argc argv => if decide (last argv = Some 0) then argc else -1) 22 elements [[97]; [45; 99]] {[7 := [1]]}
    sample_malloc_fresh) as (ps & h' & F & ND & _ & R); [by apply lookup_singleton_ne|done|].
  exists ps. split; [by apply Forall2_length in F|]. split; [|done]. rewrite R. rewrite last_snoc. reflexivity.
Defined.
