(* ===== verification/CommandLine.v ===== *)
(** * A command line as the arguments of DPDK

    [InitCmd] of [src/eal/parse.go] with the initialisation of [EalInit]: from the
    text over the scanner to the array of C strings. *)

From Stdlib Require Import ZArith Lia String.
From stdpp Require Import base list numbers option gmap sets.
From S2P Require Import Prelude Text Errno Split SplitSpec Scanner Alloc Eal EalInit.

Open Scope Z_scope.

Section InitCmd.
Variable malloc_at : blocks -> Z -> Z.
Variable junk : blocks -> Z -> list Z.
Variable realloc : blocks -> Z -> Z -> option (Z * blocks).
Variable E : rte_numbers.
Variable rte_eal_init : blocks -> Z -> list Z -> Z.
Variable rte_errno : Z.
Variable order : gset Z -> list Z.

(** What [Init] returns, when C memory is [h]; a panic would be an error here. *)
Definition Init_in (h : blocks) (argv : list (list Z)) : Z * option go_error :=
  match ealInit malloc_at junk realloc E rte_eal_init rte_errno order argv h with
  | Some (r, _) => r
  | None => (0, Some ErrNoConfig)
  end.

(** C31. A command line of less than 65536 bytes: with an open quote DPDK is not called
    and the error is that of the splitter; otherwise [rte_eal_init] is called with
    as many arguments as the text has words, each a C string of its own with the
    bytes of its word, and [InitCmd] returns its result. *)
Theorem InitCmd_spec input h (L : len input < MaxScanTokenSize) (Hm : fresh_malloc malloc_at) (N0 : h !! 0 = None)
    (Ho : forall X, order X ≡ₚ elements X) :
  let '(words, e) := split_words [] None (runes input) in
  match e with
  | Some e => InitCmd (Init_in h) input = Some (0, Some (inr (SplitError e)))
  | None => exists ps h', Forall2 (fun p w => p <> 0 /\ h' !! p = Some (w ++ [0])) ps words /\ NoDup ps /\
      let n := rte_eal_init h' (Z.of_nat (length words)) (ps ++ [0]) in
      InitCmd (Init_in h) input = Some (n, inl <$> if n <? 0 then errno E rte_errno else None)
  end.
Proof.
  unfold InitCmd. rewrite (parseCmd_short input L). destruct (split_words [] None (runes input)) as [words [e|]]; [done|]. cbn [fst snd fmap option_fmap option_map].
  destruct (ealInit_no_leak malloc_at junk realloc E rte_eal_init rte_errno order words h Hm N0 Ho) as (ps & h' & F & ND & _ & R).
  exists ps, h'. split; [|split; [exact ND|]].
  - eapply Forall2_impl; [exact F|]. intros p w (? & _ & ?). done.
  - unfold Init_in. cbv zeta in R. rewrite R. done.
Qed.
End InitCmd.

Lemma InitCmd_spec_witness :
  let init := fun _ argc argv => if decide (last argv = Some 0) then argc else -1 in
  let run := Init_in sample_malloc (fun _ _ => []) (fun _ _ _ => None) (mkRteNumbers 1000 1001 1002 1003) init 22 elements {[7 := [1]]} in
  InitCmd run (str "app -l '0, 1'") = Some (3, None) /\ InitCmd run (str "app 'x") = Some (0, Some (inr (SplitError ErrOpenQuote))).
Proof.
  intros init run.
  assert (S : split_words [] None (runes (str "app -l '0, 1'")) = ([str "app"; str "-l"; str "'0, 1'"], None)) by (vm_compute; reflexivity).
  assert (S' : split_words [] None (runes (str "app 'x")) = ([str "app"], Some ErrOpenQuote)) by (vm_compute; reflexivity).
  pose proof (InitCmd_spec sample_malloc (fun _ _ => []) (fun _ _ _ => None) (mkRteNumbers 1000 1001 1002 1003) init 22 elements (str "app -l '0, 1'") {[7 := [1]]}) as A.
  pose proof (InitCmd_spec sample_malloc (fun _ _ => []) (fun _ _ _ => None) (mkRteNumbers 1000 1001 1002 1003) init 22 elements (str "app 'x") {[7 := [1]]}) as B.
  rewrite S in A. rewrite S' in B. cbv beta iota in A, B. split.
  - destruct A as (ps & h' & _ & _ & R); [done|exact sample_malloc_fresh|by apply lookup_singleton_ne|done|].
    unfold run. rewrite R. unfold init. rewrite last_snoc. reflexivity.
  - apply B; [done|exact sample_malloc_fresh|by apply lookup_singleton_ne|done].
Defined.
