(* ===== verification/App.v ===== *)
(** * Applications: starting up

    How the test sniffer starts ([src/app/test-sniffer/init.go] [newApp], on top
    of [Sniffer]), the arguments that [main] keeps for itself, and the two loops of
    the sample [src/app/ring/main.go] on a ring of [Ring]. The calls to DPDK and
    Prometheus succeed or fail as functions given as arguments say; the trace has
    the calls that were made. *)

From Stdlib Require Import ZArith Lia.
From stdpp Require Import base list numbers option gmap sets.
From S2P Require Import Prelude Errno Sniffer Framework Ring RingSpec.

Open Scope Z_scope.

(** [os.Args[n], os.Args = os.Args[0], os.Args[n:]]: the operands on the right are
    those of before; [None] is an index out of range. *)
(* go: app/test-sniffer/main.go 27-27 main *)
Definition main_args (n : nat) (args : list (list Z)) : option (list (list Z)) :=
  match args with
  | [] => None
  | a0 :: _ => if (n <? length args)%nat then Some (drop n (<[n := a0]> args)) else None
  end.

(** The error of the call, or else that of the function. *)
(* go: app/test-sniffer/util.go doOnMain *)
Definition doOnMain {E} (e err : option E) : option E := match e with Some e => Some e | None => err end.

(** ** [newApp] *)

Inductive app_call :=
| APools | AIsolate (pid : Z) | AConfigure (pid : Z) | AStats | ADistribute | AValidate (pid : Z) | ACreate (pid : Z).

(** Calls made so far and the value, if no error was returned. *)
Definition traced (A : Type) : Type := list app_call * option A.
Definition tret {A} (a : A) : traced A := ([], Some a).
Definition tbind {A B} (m : traced A) (k : A -> traced B) : traced B :=
  match m with
  | (l, None) => (l, None)
  | (l, Some a) => let '(l', r) := k a in (l ++ l', r)
  end.
Definition tcall {A} (c : app_call) (r : option A) : traced A := ([c], r).

Section NewApp.
Context {Pools Stats : Type}.
Variable CountTotal : nat.
Variable IsValid : Z -> bool.
(** The flag [-isolate]. *)
Variable isolate : bool.
(** What the calls give; [None] is an error. [configure] is [EthdevConfig.Configure]
    and [distribute] is [DistributeQueues] on the worker lcores, which does not
    panic. *)
Variable pools : option Pools.
Variable isolate_port configure validate : Z -> option unit.
Variable new_stats : list Z -> option Stats.
Variable distribute : list Z -> option (gmap Z PortQueue).
Variable create_flow : Z -> option Z.

(* go: app/test-sniffer/init.go App *)
Record App := mkApp { RxqMempooler : Pools; Stats_ : Stats; Ports : list Z; Work : gmap Z PortQueue; Flows : list Z }.

(** The valid ports among the first [n] from [i] on. *)
Fixpoint valid_ports (i : Z) (n : nat) : list Z :=
  match n with
  | O => []
  | S n => let pid := u16 i in if IsValid pid then pid :: valid_ports (i + 1) n else valid_ports (i + 1) n
  end.

(** The first loop over the ports. *)
(* go: app/test-sniffer/init.go 98-115 newApp *)
Fixpoint configure_ports (ports : list Z) : traced unit :=
  match ports with
  | [] => tret tt
  | pid :: r =>
      tbind (if isolate then tcall (AIsolate pid) (isolate_port pid) else tret tt) (fun _ =>
        tbind (tcall (AConfigure pid) (configure pid)) (fun _ => configure_ports r))
  end.

(** The second one, which appends to [app.Flows]. *)
(* go: app/test-sniffer/init.go 135-174 newApp *)
Fixpoint create_flows (ports : list Z) (flows : list Z) : traced (list Z) :=
  match ports with
  | [] => tret flows
  | pid :: r =>
      if isolate then
        tbind (tcall (AValidate pid) (validate pid)) (fun _ =>
          tbind (tcall (ACreate pid) (create_flow pid)) (fun f => create_flows r (flows ++ [f])))
      else create_flows r flows
  end.

(* go: app/test-sniffer/init.go newApp *)
Definition newApp : traced App :=
  tbind (tcall APools pools) (fun rxqPools =>
    let ports := valid_ports 0 CountTotal in
    tbind (configure_ports ports) (fun _ =>
      tbind (tcall AStats (new_stats ports)) (fun metrics =>
        tbind (tcall ADistribute (distribute ports)) (fun work =>
          tbind (create_flows ports []) (fun flows =>
            tret (mkApp rxqPools metrics ports work flows)))))).

(** ** The start as a plan *)

(** All calls of a start in order, and which fail. *)
Definition plan (ports : list Z) : list app_call :=
  [APools] ++ concat (map (fun p => (if isolate then [AIsolate p] else []) ++ [AConfigure p]) ports) ++ [AStats; ADistribute] ++
  (if isolate then concat (map (fun p => [AValidate p; ACreate p]) ports) else []).
Definition succeeds (ports : list Z) (c : app_call) : bool :=
  match c with
  | APools => bool_decide (is_Some pools)
  | AIsolate p => bool_decide (is_Some (isolate_port p))
  | AConfigure p => bool_decide (is_Some (configure p))
  | AStats => bool_decide (is_Some (new_stats ports))
  | ADistribute => bool_decide (is_Some (distribute ports))
  | AValidate p => bool_decide (is_Some (validate p))
  | ACreate p => bool_decide (is_Some (create_flow p))
  end.
(** The calls up to the first that fails, and whether none does. *)
Fixpoint up_to_failure (ok : app_call -> bool) (l : list app_call) : list app_call * bool :=
  match l with
  | [] => ([], true)
  | c :: l => if ok c then let '(m, b) := up_to_failure ok l in (c :: m, b) else ([c], false)
  end.

Definition follows {A} (ok : app_call -> bool) (m : traced A) (l : list app_call) : Prop :=
  fst m = fst (up_to_failure ok l) /\ (is_Some (snd m) <-> snd (up_to_failure ok l) = true).

Lemma up_to_failure_app ok l1 l2 : up_to_failure ok (l1 ++ l2) =
  let '(m1, b1) := up_to_failure ok l1 in
  if b1 then let '(m2, b2) := up_to_failure ok l2 in (m1 ++ m2, b2) else (m1, false).
Proof.
  induction l1 as [|c l1 IH]; cbn [up_to_failure app]; [by destruct (up_to_failure ok l2)|].
  destruct (ok c); [|done]. rewrite IH. destruct (up_to_failure ok l1) as [m1 []]; [|done].
  by destruct (up_to_failure ok l2).
Qed.

Lemma follows_ret {A} ok (a : A) : follows ok (tret a) [].
Proof. split; [done|]. cbn. split; [done|eauto]. Qed.
Lemma follows_call {A} (ok : app_call -> bool) c (r : option A) : ok c = bool_decide (is_Some r) -> follows ok (tcall c r) [c].
Proof. intros E. unfold follows. cbn. rewrite E. case_bool_decide; split; (done || naive_solver). Qed.
Lemma follows_bind {A B} ok (m : traced A) (k : A -> traced B) l1 l2 :
  follows ok m l1 -> (forall a, follows ok (k a) l2) -> follows ok (tbind m k) (l1 ++ l2).
Proof.
  intros [T1 R1] K. unfold follows, tbind. rewrite up_to_failure_app. destruct (up_to_failure ok l1) as [m1 b1]. destruct m as [t [a|]]; cbn in *; subst t.
  - rewrite (proj1 R1) by eauto. destruct (K a) as [T2 R2]. destruct (k a) as [t2 r2], (up_to_failure ok l2) as [m2 b2].
    cbn in *. by subst.
  - destruct b1; [destruct R1 as [_ R1]; by destruct R1|]. cbn. split; [done|]. split; [by intros []|done].
Qed.

Lemma configure_ports_follows ports l :
  follows (succeeds ports) (configure_ports l) (concat (map (fun p => (if isolate then [AIsolate p] else []) ++ [AConfigure p]) l)).
Proof.
  induction l as [|p l IH]; cbn [configure_ports map concat]; [apply follows_ret|]. rewrite <- app_assoc.
  apply follows_bind; [destruct isolate; [by apply follows_call|apply follows_ret]|intros _].
  apply follows_bind; [by apply follows_call|done].
Qed.

Lemma create_flows_follows ports l : forall flows, follows (succeeds ports) (create_flows l flows)
  (if isolate then concat (map (fun p => [AValidate p; ACreate p]) l) else []).
Proof.
  induction l as [|p l IH]; intros flows; cbn [create_flows map concat]; [destruct isolate; apply follows_ret|].
  destruct isolate; [|by apply IH].
  apply (follows_bind _ _ _ [AValidate p]); [by apply follows_call|intros _].
  apply (follows_bind _ _ _ [ACreate p]); [by apply follows_call|done].
Qed.

Lemma create_flows_value l : forall flows fs, snd (create_flows l flows) = Some fs ->
  if isolate then exists new, fs = flows ++ new /\ Forall2 (fun p f => create_flow p = Some f) l new else fs = flows.
Proof.
  induction l as [|p l IH]; intros flows fs; cbn [create_flows].
  - intros [=]. subst. destruct isolate; [exists []; split; [by rewrite app_nil_r|constructor]|done].
  - destruct isolate; [|apply IH]. unfold tbind, tcall. destruct (validate p); [|done]. destruct (create_flow p) as [f|] eqn:F; [|done].
    destruct (create_flows l (flows ++ [f])) as [t r] eqn:Cf. cbn. intros ->. destruct (IH (flows ++ [f]) fs) as (new & -> & Fn); [by rewrite Cf|].
    exists (f :: new). split; [by rewrite <- app_assoc|by constructor].
Qed.

(** [newApp] makes the calls of its plan in their order (pools, each valid port
    isolated and configured, statistics, queues, a validated flow per isolated
    port) up to the first that fails, and no other: it gives an application
    exactly when none fails, with the valid ports in ascending order, their
    queues as distributed and their flows. What was made before a failure is
    not given back. *)
Theorem newApp_spec :
  let ports := valid_ports 0 CountTotal in
  fst newApp = fst (up_to_failure (succeeds ports) (plan ports)) /\
  (snd (up_to_failure (succeeds ports) (plan ports)) = true <-> is_Some (snd newApp)) /\
  forall app, snd newApp = Some app ->
    pools = Some (RxqMempooler app) /\ Ports app = ports /\ new_stats ports = Some (Stats_ app) /\
    distribute ports = Some (Work app) /\
    if isolate then Forall2 (fun p f => create_flow p = Some f) ports (Flows app) else Flows app = [].
Proof.
  intros ports. assert (F : follows (succeeds ports) newApp (plan ports)).
  { unfold newApp, plan. fold ports. apply follows_bind; [by apply follows_call|intros mp]. apply follows_bind; [apply configure_ports_follows|intros _].
    apply (follows_bind _ _ _ [AStats]); [by apply follows_call|intros st]. apply (follows_bind _ _ _ [ADistribute]); [by apply follows_call|intros w].
    rewrite <- (app_nil_r (if isolate then _ else _)). apply follows_bind; [apply create_flows_follows|intros fs]. apply follows_ret. }
  destruct F as [T R]. split_and!; [done|by symmetry|]. intros app. unfold newApp. fold ports.
  unfold tbind, tcall, tret. destruct pools as [mp|]; [|done]. destruct (configure_ports ports) as [t [[]|]]; [|done].
  destruct (new_stats ports) as [st|]; [|done]. destruct (distribute ports) as [w|]; [|done].
  destruct (create_flows ports []) as [t' [fs|]] eqn:Cf; [|done]. cbn. intros [=]. subst app. cbn. split_and!; try done.
  pose proof (create_flows_value ports [] fs) as V. rewrite Cf in V. specialize (V eq_refl).
  destruct isolate; [by destruct V as (new & -> & V)|done].
Qed.
End NewApp.
Arguments App : clear implicits.

Definition sample_newApp (bad : Z) : traced (App unit unit) :=
  newApp 3 (fun p => negb (p =? 1)) true (Some tt) (fun _ => Some tt) (fun p => if p =? bad then None else Some tt) (fun _ => Some tt)
    (fun _ => Some tt) (fun _ => Some ∅) (fun p => Some (100 + p)).

Lemma newApp_spec_witness :
  fst (sample_newApp 2) = [APools; AIsolate 0; AConfigure 0; AIsolate 2; AConfigure 2] /\
  exists app, snd (sample_newApp 7) = Some app /\ Ports app = [0; 2] /\ Forall2 (fun p f => Some (100 + p) = Some f) [0; 2] (Flows app).
Proof.
  split.
  - unfold sample_newApp. rewrite (proj1 (newApp_spec 3 _ true (Some tt) _ _ _ _ _ _)). reflexivity.
  - destruct (newApp_spec 3 (fun p => negb (p =? 1)) true (Some tt) (fun _ => Some tt) (fun p => if p =? 7 then None else Some tt) (fun _ => Some tt)
      (fun _ => Some tt) (fun _ => Some ∅) (fun p => Some (100 + p))) as (_ & [S _] & V).
    destruct S as [app A]; [reflexivity|]. destruct (V app A) as (_ & P & _ & _ & F). exists app. split; [exact A|]. split; [exact P|exact F].
Defined.

(** ** The sample of two loops on a ring *)

Section RingSample.
Context {R : Type} `{RL : RteRingLaws R}.

(** The loop counters and the ring; [ptr] is the object sent. *)
Record ring_sample := mkRingSample { r_ring : R; r_sent : nat; r_received : nat }.
Variable n : nat.
Variable ptr : Z.

(** One turn of the sender's loop, when it goes on. *)
(* go: app/ring/main.go 42-46 main *)
Definition send_turn (s : ring_sample) : option ring_sample :=
  if (r_sent s <? n)%nat then
    match Enqueue [] (r_ring s) ptr with
    | None => None
    | Some (ok, r) => Some (mkRingSample r (if ok then S (r_sent s) else r_sent s) (r_received s))
    end
  else Some s.
(* go: app/ring/main.go 54-60 main *)
Definition receive_turn (s : ring_sample) : option ring_sample :=
  if (r_received s <? n)%nat then
    match Dequeue [] (r_ring s) with
    | None => None
    | Some ((o, ok), r) =>
        let ok := ok && (ptr =? o) in
        Some (mkRingSample r (r_sent s) (if ok then S (r_received s) else r_received s))
    end
  else Some s.
(** The lcores interleave: [true] is a turn of the sender. A call on the ring is one
    turn, beside no other call. *)
Fixpoint turns (l : list bool) (s : ring_sample) : option ring_sample :=
  match l with
  | [] => Some s
  | b :: l => match (if b then send_turn s else receive_turn s) with None => None | Some s => turns l s end
  end.

Record sample_inv (cap : nat) (s : ring_sample) : Prop := {
  si_le : (r_received s <= r_sent s <= n)%nat;
  si_items : items (r_ring s) = replicate (r_sent s - r_received s) ptr;
  si_cap : capacity (r_ring s) = cap
}.

Lemma Enqueue_one r x : exists r', Enqueue [] r x = Some (bool_decide (length (items r) < capacity r)%nat, r') /\
  items r' = (if decide (length (items r) < capacity r)%nat then items r ++ [x] else items r) /\ capacity r' = capacity r.
Proof.
  unfold Enqueue, one_in. destruct (do_put_moves [] Default Bulk r [x] eq_refl) as (k & rest & r' & E & (_ & _ & _ & M) & _ & I & C & _); [done|].
  cbn [do_put] in E. rewrite E. exists r'. specialize (M eq_refl). change (cut (length [x])) with 1%nat in M. unfold fits in M.
  destruct (Nat.leb_spec 1 (capacity r - length (items r))) as [L|L]; subst k.
  - rewrite bool_decide_eq_true_2, decide_True by lia. done.
  - rewrite bool_decide_eq_false_2, decide_False by lia. cbn [take] in I. by rewrite app_nil_r in I.
Qed.

Lemma Dequeue_one r : exists o r', Dequeue [] r = Some ((o, bool_decide (items r <> [])), r') /\
  items r' = tail (items r) /\ capacity r' = capacity r /\ (forall x q, items r = x :: q -> o = x).
Proof.
  unfold Dequeue, one_out. destruct (do_take_moves [] Default Bulk r [0] eq_refl) as (k & rest & r' & E & (_ & _ & _ & M) & _ & I & C & _); [done|].
  cbn [do_take] in E. rewrite E. specialize (M eq_refl). change (cut (length [0])) with 1%nat in M.
  destruct (items r) as [|x q] eqn:Q; cbn in M; subst k; cbn in *.
  - exists 0, r'. split_and!; done.
  - exists x, r'. split_and!; [done|by rewrite I|done|]. by intros ? ? [= -> _].
Qed.

Lemma send_turn_inv cap s : sample_inv cap s -> exists s', send_turn s = Some s' /\ sample_inv cap s' /\ r_received s' = r_received s /\
  ((0 < cap)%nat -> (r_received s < n)%nat -> items (r_ring s') <> []).
Proof.
  intros [L I C]. unfold send_turn. destruct (Nat.ltb_spec (r_sent s) n) as [Lt|Ge].
  - destruct (Enqueue_one (r_ring s) ptr) as (r' & -> & I' & C'). eexists. split; [done|].
    rewrite I, length_replicate, C in *. destruct (decide (r_sent s - r_received s < cap)%nat) as [F|F].
    + rewrite bool_decide_eq_true_2 by done. split; [split; cbn; [lia| |congruence]|split; [done|]].
      * rewrite I'. replace (S (r_sent s) - r_received s)%nat with (r_sent s - r_received s + 1)%nat by lia. by rewrite replicate_add.
      * cbn. rewrite I'. intros _ _ E. by apply app_eq_nil in E as [_ E].
    + rewrite bool_decide_eq_false_2 by done. split; [split; cbn; [lia|done|congruence]|split; [done|]].
      cbn. rewrite I'. intros Hc _ E. apply (f_equal length) in E. rewrite length_replicate in E. simpl in E. lia.
  - exists s. split; [done|]. split; [done|]. split; [done|]. intros _ Hr E. rewrite I in E. apply (f_equal length) in E.
    rewrite length_replicate in E. simpl in E. lia.
Qed.

Lemma receive_turn_inv cap s : sample_inv cap s -> exists s', receive_turn s = Some s' /\ sample_inv cap s' /\
  (r_received s <= r_received s')%nat /\ ((r_received s < n)%nat -> items (r_ring s) <> [] -> r_received s' = S (r_received s)).
Proof.
  intros [L I C]. unfold receive_turn. destruct (Nat.ltb_spec (r_received s) n) as [Lt|Ge].
  - destruct (Dequeue_one (r_ring s)) as (o & r' & -> & I' & C' & Ho). eexists. split; [done|].
    destruct (r_sent s - r_received s)%nat as [|k] eqn:K; rewrite I in *; cbn [replicate] in *.
    + rewrite bool_decide_eq_false_2 by (by intros []). cbn [andb]. split; [split; cbn; [lia| |congruence]|split; [cbn; lia|done]].
      by rewrite I', K.
    + rewrite bool_decide_eq_true_2 by done. rewrite (Ho ptr (replicate k ptr)), Z.eqb_refl by done. cbn [andb].
      split; [split; cbn; [lia| |congruence]|split; [cbn; lia|done]]. rewrite I'. cbn. f_equal. lia.
  - exists s. split; [done|]. split; [done|]. split; [lia|lia].
Qed.

Lemma turns_inv cap l : forall s, sample_inv cap s -> exists s', turns l s = Some s' /\ sample_inv cap s' /\ (r_received s <= r_received s')%nat.
Proof.
  induction l as [|b l IH]; intros s I; [by exists s|]. cbn [turns]. destruct b.
  - destruct (send_turn_inv cap s I) as (s1 & -> & I1 & E & _). destruct (IH s1 I1) as (s' & T & I' & Le). exists s'. split_and!; [done|done|lia].
  - destruct (receive_turn_inv cap s I) as (s1 & -> & I1 & E & _). destruct (IH s1 I1) as (s' & T & I' & Le). exists s'. split_and!; [done|done|lia].
Qed.

Lemma turns_app l1 l2 s : turns (l1 ++ l2) s = match turns l1 s with None => None | Some s => turns l2 s end.
Proof. revert s. induction l1 as [|b l1 IH]; intros s; [done|]. cbn. destruct b; [destruct (send_turn s)|destruct (receive_turn s)]; auto. Qed.

Lemma turns_nonempty cap l : (0 < cap)%nat -> forall s s', sample_inv cap s -> (r_received s < n)%nat -> items (r_ring s) <> [] ->
  turns l s = Some s' -> (r_received s < r_received s')%nat \/ items (r_ring s') <> [].
Proof.
  intros Hc. induction l as [|b l IH]; intros s s' I Lt Ne T; [injection T as <-; by right|]. cbn [turns] in T. destruct b.
  - destruct (send_turn_inv cap s I) as (s1 & E & I1 & Rc & N1). rewrite E in T. rewrite <- Rc in Lt |- *.
    apply (IH s1); [done|done| |done]. apply N1; [done|lia].
  - destruct (receive_turn_inv cap s I) as (s1 & E & I1 & _ & Up). rewrite E in T. specialize (Up Lt Ne).
    destruct (turns_inv cap l s1 I1) as (s2 & E2 & _ & Le). left. rewrite E2 in T. injection T as <-. lia.
Qed.

(** A stretch of turns with one of the sender before one of the receiver. *)
Definition fair (l : list bool) : Prop := exists a b c, l = a ++ true :: b ++ false :: c.

Lemma fair_progress cap l s s' : (0 < cap)%nat -> fair l -> sample_inv cap s -> turns l s = Some s' ->
  (n `min` S (r_received s) <= r_received s')%nat.
Proof.
  intros Hc (a & b & c & ->) I T. rewrite turns_app in T. destruct (turns_inv cap a s I) as (s1 & E1 & I1 & L1). rewrite E1 in T.
  cbn [turns] in T. destruct (send_turn_inv cap s1 I1) as (s2 & E2 & I2 & R2 & N2). rewrite E2, turns_app in T.
  destruct (turns_inv cap b s2 I2) as (s3 & E3 & I3 & L3). rewrite E3 in T. cbn [turns] in T.
  destruct (receive_turn_inv cap s3 I3) as (s4 & E4 & I4 & L4 & U4). rewrite E4 in T.
  destruct (turns_inv cap c s4 I4) as (s5 & E5 & _ & L5). rewrite E5 in T. injection T as <-.
  destruct (decide (r_received s2 < n)%nat) as [Lt|Ge]; [|lia].
  destruct (turns_nonempty cap b Hc s2 s3 I2 Lt) as [Up|Ne]; [apply N2; [done|lia]|done|lia|].
  destruct (decide (r_received s3 < n)%nat) as [Lt3|]; [rewrite (U4 Lt3 Ne) in L5; lia|lia].
Qed.

(** C30. The two loops of the sample on a ring that is empty at first, in any
    interleaving: no call panics, what is in the ring is what was sent and not
    received, and not more than [n] is sent; and as many stretches of turns as
    there are messages, each with a turn of the sender before one of the
    receiver, are enough for both loops to end, whatever the size of the ring, which
    is not zero. *)
Theorem ring_sample_ends r (I0 : items r = []) :
  (forall l, exists s, turns l (mkRingSample r 0 0) = Some s /\ (r_received s <= r_sent s <= n)%nat /\
     items (r_ring s) = replicate (r_sent s - r_received s) ptr) /\
  ((0 < capacity r)%nat -> forall ls, length ls = n -> Forall fair ls ->
     exists s, turns (concat ls) (mkRingSample r 0 0) = Some s /\ r_sent s = n /\ r_received s = n).
Proof.
  assert (I : sample_inv (capacity r) (mkRingSample r 0 0)) by (split; [cbn; lia|exact I0|done]). split.
  - intros l. destruct (turns_inv _ l _ I) as (s & T & [L Is C] & _). exists s. done.
  - intros Hc ls Ln F. assert (Hall : forall s0, sample_inv (capacity r) s0 -> exists s, turns (concat ls) s0 = Some s /\
      sample_inv (capacity r) s /\ (n `min` (r_received s0 + length ls) <= r_received s)%nat).
    { clear -Hc F. induction F as [|l ls Fl F IH]; intros s0 I; [exists s0; cbn; split_and!; [done|done|lia]|].
      destruct (turns_inv _ l s0 I) as (s1 & T & I1 & _). pose proof (fair_progress _ l s0 s1 Hc Fl I T) as P.
      destruct (IH s1 I1) as (s & T' & I' & P'). exists s. cbn [concat length]. rewrite turns_app, T. split_and!; [done|done|lia]. }
    destruct (Hall _ I) as (s & T & [L _ _] & P). exists s. cbn [r_received] in P. split_and!; [done|lia|lia].
Qed.
End RingSample.

Lemma ring_sample_ends_witness : exists s,
  turns 3 9 (concat [[true; false]; [true; true; false]; [false; true; false]]) (mkRingSample (ring_of [] 1) 0 0) = Some s /\
  r_sent s = 3%nat /\ r_received s = 3%nat.
Proof.
  destruct (ring_sample_ends (R := list_ring) 3 9 (ring_of [] 1)) as [_ H]; [reflexivity|]. apply H; [simpl; lia|done|].
  repeat constructor; [exists [], [], []|exists [], [true], []|exists [false], [], []]; done.
Defined.
