(* ===== verification/RxBuffer.v ===== *)
(** * Receive buffers of a queue

    [src/util/rx_buffer.go] with the C functions of [src/util/mbuf_array.h]: an
    array of mbufs in EAL memory that remembers its port and queue in 64 opaque
    bytes, gives back the packets of the last burst and receives the next. What
    DPDK allocates, receives and frees is an argument; the state logs the mbufs
    received and freed. *)

From Stdlib Require Import ZArith Lia.
From stdpp Require Import base list numbers option gmap.
From S2P Require Import Prelude Errno.

Open Scope Z_scope.
Open Scope go_scope.

(** [pkts] are the pointers behind the header, as many as the block has room for. *)
(* go: util/mbuf_array.h 15-27 mbuf_array *)
Record MbufArray := mkMbufArray { size_ : Z; length_ : Z; n_ : Z; opaque : list Z; pkts : list Z }.

(** The device, and the mbufs it gave and got back so far. *)
Record rx_st (D : Type) := mkRx { dev : D; received : list Z; freed : list Z }.
Arguments mkRx {D}.
Arguments dev {D}.
Arguments received {D}.
Arguments freed {D}.

Section RxBuffer.
Context {D : Type}.
(** A burst of at most the given number of mbufs, from a port and a queue. *)
Variable rte_eth_rx_burst : D -> Z -> Z -> Z -> list Z * D.
Variable rte_pktmbuf_free : D -> Z -> D.
(** Whether there is memory on a socket for a number of bytes. *)
Variable rte_zmalloc_socket : Z -> Z -> bool.
Variable E : rte_numbers.
Variable ENOMEM : Z.

(** The size of the header and of a pointer, and the 64 bytes of the user. *)
Definition sizeof_mbuf_array : Z := 80.
Definition sizeof_ptr : Z := 8.
Definition MBUF_ARRAY_USER_SIZE : nat := 64.

(** The header has room for one pointer; [(sz)-1] is an [int]. *)
(* go: util/mbuf_array.h 9-9 RX_BUFFER_SIZE *)
Definition RX_BUFFER_SIZE (sz : Z) : Z := u64 (sizeof_mbuf_array + (sz - 1) * sizeof_ptr).

(** The block is zero: so are the pointers that lie in it. *)
(* go: util/mbuf_array.h 33-44 new_mbuf_array *)
Definition new_mbuf_array (socket count : Z) : Z * option MbufArray :=
  let size := RX_BUFFER_SIZE count in
  if rte_zmalloc_socket socket size then
    (0, Some (mkMbufArray count 0 0 (replicate MBUF_ARRAY_USER_SIZE 0)
                (replicate (Z.to_nat ((size - (sizeof_mbuf_array - sizeof_ptr)) / sizeof_ptr)) 0)))
  else (- ENOMEM, None).

(** [None] is the panic. *)
(* go: util/rx_buffer.go NewMbufArray *)
Definition NewMbufArray (socket size : Z) : option MbufArray :=
  let '(rc, p) := new_mbuf_array socket size in
  match errno E rc with Some _ => None | None => p end.

(** [struct ethdev_data]: two 16-bit numbers at the start of the opaque bytes. *)
Definition put_data (pid qid : Z) (bs : list Z) : list Z := le_bytes 2 pid ++ le_bytes 2 qid ++ drop 4 bs.
Definition data_pid (b : MbufArray) : Z := le_val (take 2 (opaque b)).
Definition data_qid (b : MbufArray) : Z := le_val (take 2 (drop 2 (opaque b))).

(* go: util/rx_buffer.go NewEthdevMbufArray *)
Definition NewEthdevMbufArray (pid qid socket size : Z) : option MbufArray :=
  p ← NewMbufArray socket size;
  Some (mkMbufArray (size_ p) (length_ p) (n_ p) (put_data pid qid (opaque p)) (pkts p)).

(** A pointer outside of the block is [None]. *)
(* go: util/rx_buffer.go MbufArray.cursor *)
Definition cursor (buf : MbufArray) : option Z := pkts buf !! Z.to_nat (n_ buf).
(* go: util/rx_buffer.go MbufArray.Buffer *)
Definition Buffer (buf : MbufArray) : list Z := take (Z.to_nat (size_ buf)) (pkts buf).
(** [Buffer()[:length]], which panics when the length exceeds the capacity. *)
(* go: util/rx_buffer.go MbufArray.Mbufs *)
Definition Mbufs (buf : MbufArray) : option (list Z) :=
  if length_ buf <=? size_ buf then Some (take (Z.to_nat (length_ buf)) (Buffer buf)) else None.

(** [for (n = 0; n < buf->length; n++) rte_pktmbuf_free(buf->pkts[n])] *)
Fixpoint free_all (ps : list Z) (s : rx_st D) : rx_st D :=
  match ps with
  | [] => s
  | p :: r => free_all r (mkRx (rte_pktmbuf_free (dev s) p) (received s) (freed s ++ [p]))
  end.

(* go: util/mbuf_array.h 46-58 mbuf_array_ethdev_reload *)
Definition mbuf_array_ethdev_reload (buf : MbufArray) : M (rx_st D) (Z * MbufArray) := fun s =>
  if (Z.to_nat (length_ buf) <=? length (pkts buf))%nat then
    let s := free_all (take (Z.to_nat (length_ buf)) (pkts buf)) s in
    let '(burst, d) := rte_eth_rx_burst (dev s) (data_pid buf) (data_qid buf) (size_ buf) in
    if (length burst <=? length (pkts buf))%nat then
      let n := u16 (Z.of_nat (length burst)) in
      Some ((n, mkMbufArray (size_ buf) n 0 (opaque buf) (burst ++ drop (length burst) (pkts buf))),
            mkRx d (received s ++ burst) (freed s))
    else None
  else None.

(* go: util/rx_buffer.go MbufArray.Recharge *)
Definition Recharge (buf : MbufArray) : M (rx_st D) (Z * MbufArray) := mbuf_array_ethdev_reload buf.

(** The block goes back, the mbufs of the last burst stay with nobody. *)
(* go: util/rx_buffer.go MbufArray.Free *)
Definition MbufArray_Free {S} (rte_free : MbufArray -> S -> S) (buf : MbufArray) : M S unit := modify (rte_free buf).

(** [k] calls in a row. *)
Fixpoint recharges (k : nat) (buf : MbufArray) : M (rx_st D) MbufArray :=
  match k with
  | O => ret buf
  | S k => let! r := Recharge buf in recharges k (snd r)
  end.

(** ** The bursts of a queue

    What a program does that frees the packets of a burst before it receives the
    next: the device, all bursts so far, and the current one. *)
Fixpoint bursts (pid qid nb : Z) (k : nat) (d : D) (held : list Z) : D * list (list Z) * list Z :=
  match k with
  | O => (d, [], held)
  | S k =>
      let '(burst, d) := rte_eth_rx_burst (foldl rte_pktmbuf_free d held) pid qid nb in
      let '(d, l, last) := bursts pid qid nb k d burst in
      (d, burst :: l, last)
  end.

(** The array holds a burst of its queue. *)
Record holds (pid qid size : Z) (held : list Z) (buf : MbufArray) : Prop := {
  h_size : size_ buf = size;
  h_length : length_ buf = Z.of_nat (length held);
  h_room : length (pkts buf) = Z.to_nat size;
  h_pkts : take (length held) (pkts buf) = held;
  h_fits : Z.of_nat (length held) <= size;
  h_pid : data_pid buf = pid;
  h_qid : data_qid buf = qid;
  h_n : n_ buf = 0
}.

Lemma free_all_run ps : forall s, free_all ps s = mkRx (foldl rte_pktmbuf_free (dev s) ps) (received s) (freed s ++ ps).
Proof.
  induction ps as [|p ps IH]; intros [d r f]; cbn [free_all foldl dev received freed]; [by rewrite app_nil_r|].
  rewrite IH. cbn. by rewrite <- app_assoc.
Qed.

Lemma take_two x y (l : list Z) : take 2 (le_bytes 2 x ++ le_bytes 2 y ++ l) = le_bytes 2 x.
Proof. reflexivity. Qed.

Lemma new_holds pid qid socket size (Hp : 0 <= pid < 65536) (Hq : 0 <= qid < 65536) (Hs : 0 <= size < 65536) :
  rte_zmalloc_socket socket (72 + 8 * size) = true ->
  exists b, NewEthdevMbufArray pid qid socket size = Some b /\ holds pid qid size [] b.
Proof.
  clear rte_eth_rx_burst rte_pktmbuf_free D. intros A. unfold NewEthdevMbufArray, NewMbufArray, new_mbuf_array, RX_BUFFER_SIZE, sizeof_mbuf_array, sizeof_ptr.
  rewrite u64_small by lia. replace (80 + (size - 1) * 8) with (72 + 8 * size) by lia. rewrite A. cbn.
  replace ((72 + 8 * size - (80 - 8)) / 8) with size by zlia.
  eexists. split; [reflexivity|]. split; cbn; [done|done|by rewrite length_replicate|done|lia| | |done].
  - unfold data_pid. cbn. zlia.
  - unfold data_qid. cbn. zlia.
Qed.

Hypothesis rx_at_most : forall d pid qid nb, 0 <= nb -> Z.of_nat (length (fst (rte_eth_rx_burst d pid qid nb))) <= nb.

Lemma recharge_run pid qid size held buf s (H : holds pid qid size held buf) (Hs : 0 <= size < 65536) :
  let '(burst, d) := rte_eth_rx_burst (foldl rte_pktmbuf_free (dev s) held) pid qid size in
  exists buf', Recharge buf s = Some ((Z.of_nat (length burst), buf'), mkRx d (received s ++ burst) (freed s ++ held)) /\
    holds pid qid size burst buf'.
Proof.
  destruct H as [Sz Ln Rm Pk Ft Pi Qi _]. unfold Recharge, mbuf_array_ethdev_reload.
  rewrite Ln, Nat2Z.id, Pk, free_all_run, Sz, Pi, Qi, Rm. cbn [dev received freed].
  pose proof (rx_at_most (foldl rte_pktmbuf_free (dev s) held) pid qid size ltac:(lia)) as Mx.
  destruct (rte_eth_rx_burst _ pid qid size) as [burst d]. cbn [fst] in Mx.
  rewrite (proj2 (Nat.leb_le _ _)) by lia. rewrite (proj2 (Nat.leb_le _ _)) by lia. rewrite u16_small by lia.
  eexists. split; [reflexivity|]. split; cbn; try done.
  - rewrite length_app, length_drop. lia.
  - by rewrite take_app_length.
Qed.

Lemma recharges_run pid qid size k : forall held buf s, holds pid qid size held buf -> 0 <= size < 65536 ->
  let '(d, l, last) := bursts pid qid size k (dev s) held in
  exists buf' f, recharges k buf s = Some (buf', mkRx d (received s ++ concat l) f) /\ holds pid qid size last buf' /\
    f ++ last = freed s ++ held ++ concat l.
Proof.
  induction k as [|k IH]; intros held buf s H Hs; cbn [bursts recharges].
  - exists buf, (freed s). cbn. rewrite !app_nil_r. destruct s. done.
  - pose proof (recharge_run pid qid size held buf s H Hs) as R.
    destruct (rte_eth_rx_burst _ pid qid size) as [burst d]. destruct R as (b1 & R & H1).
    rewrite (bind_some _ _ _ _ _ R). cbn [snd].
    specialize (IH burst b1 (mkRx d (received s ++ burst) (freed s ++ held)) H1 Hs). cbn [dev received freed] in IH.
    destruct (bursts pid qid size k d burst) as [[d' l] last]. destruct IH as (b2 & f & R2 & H2 & F).
    exists b2, f. cbn [concat]. rewrite app_assoc. split_and!; [exact R2|exact H2|].
    by rewrite F, <- app_assoc.
Qed.
End RxBuffer.

(** C32. An array made for a queue receives from that queue, whatever its number of
    calls of [Recharge]: none faults, each frees the packets of the burst before
    in their order and only then asks for as many as fit, and [Mbufs] is the last
    burst. So of all packets received all but those of the last burst have been
    freed, once; [Free] of the array loses these. Without memory the
    constructor panics. *)
Theorem Recharge_bursts {D} (rx : D -> Z -> Z -> Z -> list Z * D) (free : D -> Z -> D) (zmalloc : Z -> Z -> bool) E ENOMEM pid qid socket size k d
    (Hx : forall d pid qid nb, 0 <= nb -> Z.of_nat (length (fst (rx d pid qid nb))) <= nb)
    (Hp : 0 <= pid < 65536) (Hq : 0 <= qid < 65536) (Hs : 0 <= size < 65536) (He : 0 < ENOMEM < 2 ^ 31) :
  if zmalloc socket (72 + 8 * size) then
    exists b, NewEthdevMbufArray zmalloc E ENOMEM pid qid socket size = Some b /\
    let '(d', l, last) := bursts rx free pid qid size k d [] in
    exists b' f, recharges rx free k b (mkRx d [] []) = Some (b', mkRx d' (concat l) f) /\
      Mbufs b' = Some last /\ f ++ last = concat l /\ length (Buffer b') = Z.to_nat size
  else NewEthdevMbufArray zmalloc E ENOMEM pid qid socket size = None.
Proof.
  destruct (zmalloc socket (72 + 8 * size)) eqn:A.
  - destruct (new_holds zmalloc E ENOMEM pid qid socket size Hp Hq Hs A) as (b & N & H). exists b. split; [done|].
    pose proof (recharges_run rx free Hx pid qid size k [] b (mkRx d [] []) H Hs) as R. cbn [dev received freed] in R.
    destruct (bursts rx free pid qid size k d []) as [[d' l] last]. destruct R as (b' & f & R & [Sz Ln Rm Pk Ft _ _ _] & F).
    exists b', f. split_and!; [exact R| |exact F|].
    + unfold Mbufs, Buffer. rewrite Sz, Ln, (proj2 (Z.leb_le _ _)) by lia. rewrite Nat2Z.id, take_take, Nat.min_l by lia. by rewrite Pk.
    + unfold Buffer. rewrite Sz, length_take, Rm. lia.
  - unfold NewEthdevMbufArray, NewMbufArray, new_mbuf_array, RX_BUFFER_SIZE, sizeof_mbuf_array, sizeof_ptr.
    rewrite u64_small by lia. replace (80 + (size - 1) * 8) with (72 + 8 * size) by lia. rewrite A.
    unfold errno. rewrite (proj2 (Z.eqb_neq _ _)) by lia. done.
Qed.

(** A device that numbers its mbufs and has two more in each burst than there were
    bursts before, as far as they fit. *)
Definition counting_rx (d : Z * Z) (pid qid nb : Z) : list Z * (Z * Z) :=
  let k := Z.to_nat (Z.min nb (snd d + 2)) in (map (fun i => fst d + Z.of_nat i) (seq 1 k), (fst d + Z.of_nat k, snd d + 1)).

Lemma Recharge_bursts_witness :
  exists b, NewEthdevMbufArray (fun _ _ => true) (mkRteNumbers 1002 1001 1003 1000) 12 1 7 0 3 = Some b /\
    exists b' f, recharges counting_rx (fun d _ => d) 3 b (mkRx (100, 0) [] []) =
        Some (b', mkRx (108, 3) [101; 102; 103; 104; 105; 106; 107; 108] f) /\
      Mbufs b' = Some [106; 107; 108] /\ f = [101; 102; 103; 104; 105] /\ data_qid b' = 7.
Proof.
  assert (Hx : forall d pid qid nb, 0 <= nb -> Z.of_nat (length (fst (counting_rx d pid qid nb))) <= nb).
  { intros d pid qid nb Hn. unfold counting_rx. cbn [fst]. rewrite length_map, length_seq. lia. }
  destruct (Recharge_bursts counting_rx (fun d _ => d) (fun _ _ => true) (mkRteNumbers 1002 1001 1003 1000) 12 1 7 0 3 3 (100, 0) Hx
    ltac:(lia) ltac:(lia) ltac:(lia) ltac:(lia)) as (b & N & b' & f & R & Mb & F & _).
  exists b. split; [exact N|]. exists b', f. injection N as <-. vm_compute in R. injection R as <- <-. 
  split_and!; vm_compute; reflexivity.
Defined.
