(* ===== verification/Meter.v ===== *)
(** * Meters, and errors with a text

    [src/ethdev/mtr.go]: the C functions of its preamble that fill the structures
    of a meter profile, a policy and a meter, and the Go functions around them;
    the errors of the meter library and those of [src/ethdev/flow/errors.go],
    whose text comes from a table that [registerErr] fills. The meter library is
    an argument: a function of the structures that reach it. *)

From Stdlib Require Import ZArith Lia String.
From stdpp Require Import base list numbers option gmap.
From S2P Require Import Prelude Text Errno.

Open Scope Z_scope.

(** ** Errors

    [rte_mtr_error] and [rte_flow_error]: a type, a cause and a message, which may
    be NULL. *)
Record rte_error := mkRteError { type_ : Z; cause : Z; message : option (list Z) }.

(** [C.GoString]: NULL is the empty string. *)
Definition GoString (s : option (list Z)) : list Z := default [] s.

Section ErrorText.
(** The table of a package. *)
Variable errStr : gmap Z (list Z).

(* go: ethdev/flow/errors.go ErrorType.Error *)
Definition ErrorType_Error (e : Z) : list Z :=
  match errStr !! e with Some s => s | None => [] end.
(** [ErrorType(e._type)]: the C enumeration is an [int], [ErrorType] a [uint]. *)
(* go: ethdev/flow/errors.go Error.Unwrap *)
Definition Error_Unwrap (e : rte_error) : Z := u64 (type_ e).
(** ["%v: %s"]; ["%v"] of an error is its text. *)
(* go: ethdev/flow/errors.go Error.Error *)
Definition Error_Error (e : rte_error) : list Z := ErrorType_Error (Error_Unwrap e) ++ str ": " ++ GoString (message e).
End ErrorText.
(* go: ethdev/flow/errors.go Error.Cause *)
Definition Error_Cause (e : rte_error) : Z := cause e.

(* go: ethdev/flow/errors.go registerErr *)
Definition registerErr (c : Z) (s : list Z) (errStr : gmap Z (list Z)) : Z * gmap Z (list Z) := (c, <[c := s]> errStr).

(** The texts, in the order in which the variables are initialised. *)
(* go: ethdev/flow/errors.go 59-77 ErrTypeNone *)
Definition flow_error_texts : list (list Z) := map str
  ["No error"; "Cause unspecified"; "Flow rule (handle)"; "Group field"; "Priority field"; "Ingress field"; "Egress field";
   "Transfer field"; "Attributes structure"; "Pattern length"; "Item specification spec"; "Item specification range";
   "Item specification mask"; "Specific pattern item"; "Number of actions"; "Action configuration"; "Specific action"]%string.

(** The table of package [flow]; the argument is the list of the 17 numbers
    [RTE_FLOW_ERROR_TYPE_*] in this order. *)
Definition flow_errStr (codes : list Z) : gmap Z (list Z) :=
  foldl (fun t ct => snd (registerErr (fst ct) (snd ct) t)) ∅ (zip codes flow_error_texts).

(** Package [ethdev] has a table of its own, and no [registerErr]. *)
(* go: ethdev/mtr.go 139-141 errStr *)
Definition mtr_errStr : gmap Z (list Z) := ∅.
(* go: ethdev/mtr.go ErrorType.Error *)
Definition mtr_ErrorType_Error : Z -> list Z := ErrorType_Error mtr_errStr.
(* go: ethdev/mtr.go MtrError.Unwrap *)
Definition MtrError_Unwrap (e : rte_error) : Z := u64 (type_ e).
(* go: ethdev/mtr.go MtrError.Error *)
Definition MtrError_Error (e : rte_error) : list Z := mtr_ErrorType_Error (MtrError_Unwrap e) ++ str ": " ++ GoString (message e).
(* go: ethdev/mtr.go MtrError.Cause *)
Definition MtrError_Cause (e : rte_error) : Z := cause e.

Lemma register_all l : forall t c s, NoDup (map fst l) -> (c, s) ∈ l ->
  foldl (fun t ct => snd (registerErr (fst ct) (snd ct) t)) t l !! c = Some s.
Proof.
  assert (K : forall l (t : gmap Z (list Z)) c, c ∉ map fst l -> foldl (fun t ct => snd (registerErr (fst ct) (snd ct) t)) t l !! c = t !! c).
  { clear. induction l as [|[c' s'] l IH]; intros t c Hc; [done|]. cbn [map] in Hc. apply not_elem_of_cons in Hc as [Ne Hc].
    cbn [foldl]. rewrite IH by done. by apply lookup_insert_ne. }
  induction l as [|[c' s'] l IH]; intros t c s ND Hin; [by apply elem_of_nil in Hin|]. cbn [map] in ND. apply NoDup_cons in ND as [Nc ND].
  cbn [foldl]. apply elem_of_cons in Hin as [[= <- <-]|Hin]; [|by apply IH].
  rewrite K by done. apply lookup_insert_eq.
Qed.

(** With the numbers of DPDK all different, the text of a flow error is that of
    its type, a colon and the message of the driver, for each type the source
    lists. A meter error never has the text of its type: its table is empty. *)
Theorem error_texts codes e (ND : NoDup codes) (Hc : Forall (fun c => 0 <= c < 2 ^ 32) codes) (Hl : length codes = 17%nat) :
  (forall i, codes !! i = Some (type_ e) -> exists s, flow_error_texts !! i = Some s /\
     Error_Error (flow_errStr codes) e = s ++ str ": " ++ GoString (message e) /\
     Error_Unwrap e = type_ e) /\
  MtrError_Error e = str ": " ++ GoString (message e).
Proof.
  split; [|done]. intros i Hi. destruct (flow_error_texts !! i) as [s|] eqn:S.
  2:{ apply lookup_ge_None in S. apply lookup_lt_Some in Hi. change (length flow_error_texts) with 17%nat in S. lia. }
  exists s. split; [done|]. assert (R : 0 <= type_ e < 2 ^ 32) by (eapply Forall_lookup_1 in Hi; eauto; done).
  assert (U : Error_Unwrap e = type_ e) by (unfold Error_Unwrap; rewrite u64_small; [done|lia]).
  split; [|done]. unfold Error_Error, ErrorType_Error, flow_errStr. rewrite U.
  rewrite (register_all _ _ _ s); [done| |].
  - change (NoDup (fst <$> zip codes flow_error_texts)). rewrite fst_zip; [done|]. change (length flow_error_texts) with 17%nat. lia.
  - apply list_elem_of_lookup_2 with i. rewrite lookup_zip_with, Hi, S. done.
Qed.

Lemma error_texts_witness :
  let e := mkRteError 4 0 (Some (str "bad priority")) in
  Error_Error (flow_errStr (map Z.of_nat (seq 0 17))) e = str "Priority field: bad priority" /\
  MtrError_Error e = str ": bad priority".
Proof.
  intros e. destruct (error_texts (map Z.of_nat (seq 0 17)) e) as [A B].
  - apply (bool_decide_unpack _). vm_compute. exact I.
  - apply (bool_decide_unpack _). vm_compute. exact I.
  - reflexivity.
  - split; [|exact B]. destruct (A 4%nat eq_refl) as (s & S & T & _). rewrite T. injection S as <-. vm_compute. reflexivity.
Defined.

(** ** Structures of the meter library *)

Record rte_mtr_meter_profile := mkProfile { alg : Z; cir : Z; cbs : Z; ebs : Z; packet_mode : Z }.
Record rte_mtr_params := mkMtrParams {
  meter_profile_id : Z; meter_policy_id : Z; use_prev_mtr_color : Z; meter_enable : Z; dscp_table : Z; vlan_table : Z; stats_mask : Z
}.
(** The types of the actions of a colour; [None] is NULL. *)
Record rte_mtr_meter_policy_params := mkPolicy { green : option (list Z); yellow : option (list Z); red : option (list Z) }.

(** The library: each call with the port and a number, and its result. *)
Class RteMtr (S : Type) := {
  rte_mtr_meter_profile_add : Z -> Z -> rte_mtr_meter_profile -> S -> Z * S;
  rte_mtr_meter_profile_delete : Z -> Z -> S -> Z * S;
  rte_mtr_meter_policy_add : Z -> Z -> rte_mtr_meter_policy_params -> S -> Z * S;
  rte_mtr_meter_policy_delete : Z -> Z -> S -> Z * S;
  rte_mtr_create : Z -> Z -> rte_mtr_params -> Z -> S -> Z * S;
  rte_mtr_destroy : Z -> Z -> S -> Z * S;
  rte_mtr_meter_profile_update : Z -> Z -> Z -> S -> Z * S
}.

Section Meter.
Context {S : Type} `{RteMtr S}.
Variable E : rte_numbers.
Variables RTE_MTR_SRTCM_RFC2697 RTE_FLOW_ACTION_TYPE_DROP RTE_FLOW_ACTION_TYPE_END : Z.

Definition zero_profile := mkProfile 0 0 0 0 0.
Definition zero_params := mkMtrParams 0 0 0 0 0 0 0.

(* go: ethdev/mtr.go 40-58 add_srtcm_mtr_profile *)
Definition add_srtcm_mtr_profile (port profile_id cir cbs ebs : Z) (s : S) : Z * S :=
  let profile := zero_profile in
  let profile := mkProfile RTE_MTR_SRTCM_RFC2697 cir cbs ebs (packet_mode profile) in
  let profile := mkProfile (alg profile) (Meter.cir profile) (Meter.cbs profile) (Meter.ebs profile) 0 in
  rte_mtr_meter_profile_add port profile_id profile s.

(* go: ethdev/mtr.go 60-82 add_mtr_policy *)
Definition add_mtr_policy (port policy_id : Z) (s : S) : Z * S :=
  let policy := mkPolicy None None (Some [RTE_FLOW_ACTION_TYPE_DROP; RTE_FLOW_ACTION_TYPE_END]) in
  rte_mtr_meter_policy_add port policy_id policy s.

(* go: ethdev/mtr.go 84-100 add_mtr *)
Definition add_mtr (port mtr_id profile_id policy_id : Z) (s : S) : Z * S :=
  let params := zero_params in
  let params := mkMtrParams profile_id policy_id 0 1 (dscp_table params) (vlan_table params) 0xffff in
  rte_mtr_create port mtr_id params 1 s.

Definition to_err (r : Z * S) : option go_error * S := (errno E (fst r), snd r).

(* go: ethdev/mtr.go AddMeterProfile *)
Definition AddMeterProfile (port profileID cir cbs ebs : Z) (s : S) := to_err (add_srtcm_mtr_profile port profileID cir cbs ebs s).
(* go: ethdev/mtr.go DeleteMeterProfile *)
Definition DeleteMeterProfile (port profileID : Z) (s : S) := to_err (rte_mtr_meter_profile_delete port profileID s).
(* go: ethdev/mtr.go AddMeterPolicy *)
Definition AddMeterPolicy (port policyID : Z) (s : S) := to_err (add_mtr_policy port policyID s).
(* go: ethdev/mtr.go DeleteMeterPolicy *)
Definition DeleteMeterPolicy (port policyID : Z) (s : S) := to_err (rte_mtr_meter_policy_delete port policyID s).
(* go: ethdev/mtr.go AddMtr *)
Definition AddMtr (port mtrID profileID policyID : Z) (s : S) := to_err (add_mtr port mtrID profileID policyID s).
(* go: ethdev/mtr.go DeleteMtr *)
Definition DeleteMtr (port mtrID : Z) (s : S) := to_err (rte_mtr_destroy port mtrID s).
(* go: ethdev/mtr.go UpdateMtrMeterProfile *)
Definition UpdateMtrMeterProfile (port mtrID profileID : Z) (s : S) := to_err (rte_mtr_meter_profile_update port mtrID profileID s).

(** A meter that drops what exceeds a rate is made with three calls. The library
    gets the rate as given and all other fields zero, a policy that drops red
    packets and lets the others pass, and a shared, enabled meter with all
    statistics that refers to the two; every result is the errno of its call. *)
Lemma meter_set_up port profileID policyID mtrID c b x s :
  let '(r1, s1) := rte_mtr_meter_profile_add port profileID (mkProfile RTE_MTR_SRTCM_RFC2697 c b x 0) s in
  let '(r2, s2) := rte_mtr_meter_policy_add port policyID
                     (mkPolicy None None (Some [RTE_FLOW_ACTION_TYPE_DROP; RTE_FLOW_ACTION_TYPE_END])) s1 in
  let '(r3, s3) := rte_mtr_create port mtrID (mkMtrParams profileID policyID 0 1 0 0 65535) 1 s2 in
  AddMeterProfile port profileID c b x s = (errno E r1, s1) /\ AddMeterPolicy port policyID s1 = (errno E r2, s2) /\
  AddMtr port mtrID profileID policyID s2 = (errno E r3, s3).
Proof.
  destruct (rte_mtr_meter_profile_add _ _ _ s) as [r1 s1] eqn:A1. destruct (rte_mtr_meter_policy_add _ _ _ s1) as [r2 s2] eqn:A2.
  destruct (rte_mtr_create _ _ _ _ s2) as [r3 s3] eqn:A3.
  unfold AddMeterProfile, AddMeterPolicy, AddMtr, to_err, add_srtcm_mtr_profile, add_mtr_policy, add_mtr. cbn.
  by rewrite A1, A2, A3.
Qed.
End Meter.
