(* ===== verification/FlowRules.v ===== *)
(** * Flow rules of the programs

    What [src/app/test-sniffer] does with [src/ethdev/flow]: the rules it makes
    ([init.go] [newApp], [util.go]), which are validated and then created from the
    same objects, and the query of their counters ([flow.go], with the C function
    of its preamble). The rules are built on [Flow]; the theorems on [FlowSpec] and
    [FlowRss]. *)

From Stdlib Require Import ZArith Lia String.
From stdpp Require Import base list numbers option gmap.
From S2P Require Import Prelude Text Errno Sniffer Flow FlowSpec FlowRss.

Open Scope Z_scope.
Open Scope go_scope.

(** ** Rules *)

Section Rules.
Variable L : Layout.
Variable malloc : gmap Z (list Z) -> Z -> Z.
Variable go_new : state -> Z.
Variable E : rte_numbers.
Variable rte_flow_create : Z -> c_attr -> list c_item -> list c_action -> state -> Z * Z.
Variable rte_flow_validate : Z -> c_attr -> list c_item -> list c_action -> state -> Z.
(** The address of a new Go object. *)
Variable go_ref : state -> Z.

(** [&flow.ItemIPv4{...}] *)
Definition new_obj (d : data) : M state Z :=
  let! r := gets go_ref in
  modify (fun s => set_objs s (<[r := mkObj None d]> (objs s))) ;; ret r.

Definition Create_ := Create L malloc go_new rte_flow_create E.
Definition Validate_ := Validate L malloc go_new rte_flow_validate E.

Definition zero_IPv4Header : IPv4Header := mkIPv4Header 0 0 0 0 0 0 0 0 (replicate 4 0) (replicate 4 0).

(** The rule of an isolated port: the flow, or the error of the call that failed. *)
(* go: app/test-sniffer/init.go 138-171 newApp *)
Definition app_rule (port : Z) : M state (Z * option go_error) :=
  let flowAttr := mkAttr 0 0 true false false in
  let! spec := new_obj (DIPv4 zero_IPv4Header) in
  let! mask := new_obj (DIPv4 zero_IPv4Header) in
  let flowPatterns := [mkItem (IType (ItemTypeEth L)) None None; mkItem (IObj spec) None (Some (IObj mask))] in
  let! count := new_obj (DCount 0) in
  let! queue := new_obj (DQueue 0) in
  let flowActions := [IObj count; IObj queue] in
  let! err := Validate_ port flowAttr flowPatterns flowActions in
  match err with
  | Some e => ret (0, Some e)
  | None => Create_ port flowAttr flowPatterns flowActions
  end.

(** The end of both functions of [util.go]: the flow, or nil with the structure
    [e] as the error, [None]. *)
(* go: app/test-sniffer/util.go 72-79 rssEthVlanIPv4 *)
Definition validate_create (pid : Z) (attr : Attr) (pattern : list Item) (actions : list iface) : M state (option Z) :=
  let! err := Validate_ pid attr pattern actions in
  match err with
  | Some _ => ret None
  | None =>
      let! f := Create_ pid attr pattern actions in
      match snd f with
      | None => ret (Some (fst f))
      | Some _ => ret None
      end
  end.

(** [flow.HashFunctionToeplitz] *)
Variable HashFunctionToeplitz : Z.

(* go: ethdev/ethdev.go RssConf *)
Record RssConf := mkRssConf { RssKey : list Z; Hf : Z }.

Definition types_only (ts : list Z) : list Item := map (fun t => mkItem (IType t) None None) ts.

(* go: app/test-sniffer/util.go rssEthVlanIPv4 *)
Definition rssEthVlanIPv4 (pid : Z) (conf : RssConf) : M state (option Z) :=
  let attr := mkAttr 0 0 true false false in
  let pattern := types_only [ItemTypeEth L; ItemTypeVlan L; ItemTypeIPv4 L] in
  let! rss := new_obj (DRSS (mkActionRSS HashFunctionToeplitz [] [] 0 (Hf conf))) in
  validate_create pid attr pattern [IObj rss].

(** [nb_rx_queues] is the number [InfoGet] reads, [None] its error; the result is
    [None] for any error. *)
(* go: app/test-sniffer/util.go mlxRssEthVlanIPv4 *)
Definition mlxRssEthVlanIPv4 (nb_rx_queues : option Z) (pid : Z) (conf : RssConf) : M state (option Z) :=
  let attr := mkAttr 0 0 true false false in
  let pattern := types_only [ItemTypeEth L; ItemTypeIPv4 L] in
  match nb_rx_queues with
  | None => ret None
  | Some n =>
      let! rss := new_obj (DRSS (mkActionRSS HashFunctionToeplitz (queuesSeq (Z.to_nat n)) (RssKey conf) 0 (Hf conf))) in
      validate_create pid attr pattern [IObj rss]
  end.

(** The name that [InfoGet] reads, empty on its error. *)
(* go: app/test-sniffer/util.go driverName *)
Definition driverName (info : Z -> option (list Z)) (pid : Z) : list Z := default [] (info pid).

(** Whether there was no error; drivers other than the named have no rule. *)
(* go: app/test-sniffer/util.go RssConfig.EthdevCall *)
Definition EthdevCall (info : Z -> option (list Z)) (pid : Z) (conf : RssConf) : M state bool :=
  let name := driverName info pid in
  if decide (name = str "mlx5_pci"%string) then ret true
  else if decide (name = str "net_af_packet"%string) then let! f := rssEthVlanIPv4 pid conf in ret (bool_decide (is_Some f))
  else if decide (name = str "net_ice"%string) then let! f := rssEthVlanIPv4 pid conf in ret (bool_decide (is_Some f))
  else ret true.
End Rules.

(** ** Writing a structure again *)

Lemma apply_store_holds st b : (fst (foot st) + snd (foot st) <= length b)%nat -> holds b st -> apply_store st b = Some b.
Proof.
  destruct st as [o bs|o v]; cbn [foot fst snd apply_store holds]; intros R H.
  - rewrite (proj2 (Nat.leb_le _ _) R). f_equal. apply list_eq. intros i. rewrite splice_lookup by done. case_decide; [|done].
    rewrite <- H by lia. f_equal. lia.
  - destruct H as (x & Hx & Hv). rewrite Hx. f_equal. rewrite <- Hv. replace (x - Z.land x 1 + Z.land x 1) with x by lia.
    by apply list_insert_id.
Qed.

Lemma apply_stores_holds sts b : fits (length b) (map foot sts) = true -> Forall (holds b) sts -> apply_stores sts b = Some b.
Proof.
  intros F H. induction H as [|st sts Hst H IH]; [done|]. cbn [map fits] in F. apply andb_prop in F as [F F3].
  apply andb_prop in F as [F1 _]. apply Nat.leb_le in F1. cbn [apply_stores]. rewrite apply_store_holds by done. by apply IH.
Qed.

Section Again.
Variable L : Layout.
Variable malloc : gmap Z (list Z) -> Z -> Z.
Variable go_new : state -> Z.
Hypothesis LOk : layout_ok L = true.

Lemma set_heap_id s : set_heap s (heap s) = s.
Proof. by destruct s. Qed.

(** An object whose structure is up to date is left as it is. *)
Lemma Reload_plain_again s i p : good s i -> describes L s i p ->
  Reload_plain L malloc i s = Some (tt, s) /\ Pointer i s = Some (p, s).
Proof.
  destruct i as [t|r]; [by intros _ ->|]. intros (o & Ho & D) (o' & b & n & sts & Ho' & C & Hb & P & Hl & H).
  rewrite Ho in Ho'. injection Ho' as <-. unfold Reload_plain, Pointer, get_obj, bind, lift. rewrite Ho. unfold ret. rewrite C, P.
  split; [|done]. unfold createOrRet, get_obj, bind, lift, ret. rewrite Ho, C. unfold c_store, bind, lift. rewrite Hb.
  destruct (plain_fits L (fields_ o) LOk D) as (n' & sts' & P' & F). rewrite P in P'. injection P' as <- <-.
  rewrite apply_stores_holds by (by rewrite ?Hl). unfold modify. do 2 f_equal. rewrite insert_id by done. apply set_heap_id.
Qed.

Lemma opt_reload_again s i p : (forall j, i = Some j -> good s j) ->
  match i with None => p = 0 | Some j => describes L s j p end -> opt_reload L malloc i s = Some (p, s).
Proof.
  destruct i as [j|]; [|by intros _ ->]. intros G D. destruct (Reload_plain_again s j p (G j eq_refl) D) as [R P].
  unfold opt_reload. by rewrite (bind_some _ _ _ _ _ R).
Qed.

Lemma Type_of s i : good s i -> exists t, Type_ L i s = Some (t, s) /\
  (match i with IType t' => t = t' | IObj r => exists o, objs s !! r = Some o /\ t = type_of L (fields_ o) end).
Proof.
  destruct i as [t|r]; [by exists t|]. intros (o & Ho & _). unfold Type_, get_obj, bind, lift. rewrite Ho. eauto.
Qed.

(** Two references to an object see the same type. *)
Lemma type_same s i t x : (match i with IType t' => t = t' | IObj r => exists o, objs s !! r = Some o /\ t = type_of L (fields_ o) end) ->
  (match i with IType t' => x = u32 t' | IObj r => exists o, objs s !! r = Some o /\ x = u32 (type_of L (fields_ o)) end) -> x = u32 t.
Proof. destruct i as [t'|r]; [by intros -> ->|]. intros (o & Ho & ->) (o' & Ho' & ->). rewrite Ho in Ho'. by injection Ho' as <-. Qed.

Lemma cItem_again s it c : item_good s it -> entry_ok L s it c -> cItem L malloc it s = Some (c, s).
Proof.
  intros (G & Gm & Gl) (T & D & Dm & Dl). destruct (Type_of s (Spec it) G) as (t & Et & Ht). unfold cItem.
  destruct (Reload_plain_again s (Spec it) _ G D) as [R P].
  rewrite (bind_some _ _ _ _ _ Et), (bind_some _ _ _ _ _ R), (bind_some _ _ _ _ _ P).
  rewrite (bind_some _ _ _ _ _ (opt_reload_again s (Mask it) _ Gm Dm)), (bind_some _ _ _ _ _ (opt_reload_again s (Last it) _ Gl Dl)).
  rewrite <- (type_same s (Spec it) t (i_type c) Ht T). by destruct c.
Qed.

Lemma cAction_again s a c : good s a -> action_ok L s a c -> cAction L (Reload L malloc go_new) a s = Some (c, s).
Proof.
  intros G (T & D). destruct (Type_of s a G) as (t & Et & Ht). unfold cAction.
  destruct (Reload_plain_again s a _ G D) as [R P]. rewrite <- Reload_good with (go_new := go_new) in R by done.
  rewrite (bind_some _ _ _ _ _ Et), (bind_some _ _ _ _ _ R), (bind_some _ _ _ _ _ P).
  rewrite <- (type_same s a t (a_type c) Ht T). by destruct c.
Qed.

Lemma map_M_again {A B} (f : A -> M state B) (Q : A -> B -> Prop) s l cs :
  (forall a c, Q a c -> f a s = Some (c, s)) -> Forall2 Q l cs -> map_M f l s = Some (cs, s).
Proof.
  intros H. induction 1 as [|a c l cs Hac F IH]; [done|]. cbn [map_M]. rewrite (bind_some _ _ _ _ _ (H a c Hac)).
  by rewrite (bind_some _ _ _ _ _ IH).
Qed.

Lemma Forall2_and {A B} (P : A -> Prop) (Q : A -> B -> Prop) l k : Forall P l -> Forall2 Q l k -> Forall2 (fun a b => P a /\ Q a b) l k.
Proof. intros K F. revert K. induction F; intros K; inversion K; subst; constructor; auto. Qed.

(** The arrays of a rule that was built before, with the state as it was. *)
Lemma rule_arrays_again s pattern acts pat act : Forall (item_good s) pattern -> Forall (good s) acts ->
  Forall2 (entry_ok L s) pattern pat -> Forall2 (action_ok L s) acts act ->
  cPattern L malloc pattern s = Some (pat ++ [mkCItem 0 0 0 0], s) /\
  cActions L (Reload L malloc go_new) acts s = Some (act ++ [mkCAction 0 0], s).
Proof.
  intros G1 G2 O1 O2. unfold cPattern, cActions. split.
  - rewrite (bind_some _ _ _ _ _ (map_M_again _ (fun it c => item_good s it /\ entry_ok L s it c) s pattern pat
      (fun it c Q => cItem_again s it c (proj1 Q) (proj2 Q)) (Forall2_and _ _ _ _ G1 O1))). done.
  - rewrite (bind_some _ _ _ _ _ (map_M_again _ (fun a c => good s a /\ action_ok L s a c) s acts act
      (fun a c Q => cAction_again s a c (proj1 Q) (proj2 Q)) (Forall2_and _ _ _ _ G2 O2))). done.
Qed.
End Again.

Lemma cvtAttr_bits attr : cvtAttr attr = mkCAttr (Group attr) (Priority attr) (Z.b2z (Ingress attr)) (Z.b2z (Egress attr)) (Z.b2z (Transfer attr)).
Proof. by destruct attr as [g p [|] [|] [|]]. Qed.

(** [Validate] and then [Create] on the same rule. *)
Lemma rule_twice L malloc go_new create validate E port attr pattern acts s : layout_ok L = true ->
  (forall h n, malloc h n <> 0 /\ h !! malloc h n = None) -> wf L s -> Forall (item_good s) pattern -> Forall (good s) acts ->
  exists s' pat act, Forall2 (entry_ok L s') pattern pat /\ Forall2 (action_ok L s') acts act /\ keeps L s s' /\
    let a := mkCAttr (Group attr) (Priority attr) (Z.b2z (Ingress attr)) (Z.b2z (Egress attr)) (Z.b2z (Transfer attr)) in
    let pat := pat ++ [mkCItem 0 0 0 0] in
    let act := act ++ [mkCAction 0 0] in
    Validate L malloc go_new validate E port attr pattern acts s = Some (errno E (validate port a pat act s'), s') /\
    Create L malloc go_new create E port attr pattern acts s' =
      Some (let f := create port a pat act s' in if fst f =? 0 then (0, RteErrno E (snd f)) else (fst f, None), s').
Proof.
  intros LOk Hm W G1 G2.
  destruct (rule_arrays L malloc go_new LOk Hm s pattern acts W G1 G2) as (s1 & s2 & pat & act & E1 & E2 & K & O1 & O2).
  exists s2, pat, act. split; [done|]. split; [done|]. split; [done|]. cbv zeta. split.
  - unfold Validate. rewrite (bind_some _ _ _ _ _ E1), (bind_some _ _ _ _ _ E2). unfold bind, gets, ret. by rewrite cvtAttr_bits.
  - destruct (rule_arrays_again L malloc go_new LOk s2 pattern acts pat act) as [A1 A2]; try done.
    { eapply Forall_impl; [exact G1|]. intros it. by apply (item_good_keeps L _ _ it K). }
    { eapply Forall_impl; [exact G2|]. intros x. by apply (keeps_good L _ _ x K). }
    unfold Create. rewrite (bind_some _ _ _ _ _ A1), (bind_some _ _ _ _ _ A2). unfold bind, gets, ret. rewrite cvtAttr_bits.
    cbv zeta. by destruct (fst _ =? 0).
Qed.

(** C10. The rule that is created is the rule that was validated, for items and
    actions whose C structure has no pointers (all but [ActionSample],
    [ActionVxlanEncap] and [ActionRSS], whose [Reload] makes new arrays or blocks
    each time: [rss_rules_spec] says what the two calls see then): after [Validate],
    [Create] on the same objects hands DPDK the same attributes and the same two
    arrays, in a heap that has not changed since, and these show the Go fields as in
    [Create_spec]; so what a driver accepts is what it gets. Each call gives the
    result of DPDK or its error. The structures that exist are the ones earlier calls
    made ([wf]); memory does not run out; a MAC address of an action has six bytes. *)
Theorem created_as_validated L malloc go_new create validate E port attr pattern acts s (LOk : layout_ok L = true)
    (Hm : forall h n, malloc h n <> 0 /\ h !! malloc h n = None) (W : wf L s)
    (G1 : Forall (item_good s) pattern) (G2 : Forall (good s) acts) :
  exists s' pat act, Forall2 (item_seen L s s') pattern pat /\ Forall2 (action_seen L s s') acts act /\
    let a := mkCAttr (Group attr) (Priority attr) (Z.b2z (Ingress attr)) (Z.b2z (Egress attr)) (Z.b2z (Transfer attr)) in
    let pat := pat ++ [mkCItem 0 0 0 0] in
    let act := act ++ [mkCAction 0 0] in
    Validate L malloc go_new validate E port attr pattern acts s = Some (errno E (validate port a pat act s'), s') /\
    Create L malloc go_new create E port attr pattern acts s' =
      Some (let f := create port a pat act s' in if fst f =? 0 then (0, RteErrno E (snd f)) else (fst f, None), s').
Proof.
  destruct (rule_twice L malloc go_new create validate E port attr pattern acts s) as (s' & pat & act & O1 & O2 & K & R); try done.
  destruct (rule_seen L s s' K pattern acts pat act G1 G2 O1 O2) as [S1 S2]. by exists s', pat, act.
Qed.

Lemma created_as_validated_witness :
  let s := mkState (<[4 := mkObj None (DQueue 3)]> (objs flow_sample)) ∅ ∅ ∅ in
  let E := mkRteNumbers 1002 1001 1003 1000 in
  let attr := mkAttr 0 1 true false false in
  exists s' pat act, Forall2 (item_seen dpdk_layout s s') flow_items pat /\ Forall2 (action_seen dpdk_layout s s') [IObj 4] act /\
    Validate dpdk_layout first_free (fun _ => 0) (fun _ _ _ _ _ => 0) E 0 attr flow_items [IObj 4] s = Some (None, s') /\
    Create dpdk_layout first_free (fun _ => 0) sample_driver E 0 attr flow_items [IObj 4] s' = Some (4096, None, s').
Proof.
  intros s E attr.
  assert (W : wf dpdk_layout s).
  { assert (N : forall r o, objs s !! r = Some o -> cptr o = None).
    { intros r o H. unfold s in H; simpl in H.
      repeat (apply lookup_insert_Some in H as [[_ <-]|[_ H]]; [done|]). by apply lookup_singleton_Some in H as [_ <-]. }
    split; intros; exfalso; [pose proof (N _ _ H)|pose proof (N _ _ H)]; congruence. }
  destruct (created_as_validated dpdk_layout first_free (fun _ => 0) sample_driver (fun _ _ _ _ _ => 0) E 0 attr flow_items [IObj 4] s
    dpdk_layout_ok) as (s' & pat & act & O1 & O2 & V & C).
  - intros h n. destruct (first_free_ok h n). split; [lia|done].
  - exact W.
  - repeat constructor; simpl; try (intros j [= <-]; simpl); eexists; (split; [vm_compute; reflexivity|reflexivity]).
  - repeat constructor; simpl; eexists; (split; [vm_compute; reflexivity|reflexivity]).
  - exists s', pat, act. split; [exact O1|]. split; [exact O2|]. split; [exact V|]. rewrite C. reflexivity.
Defined.

(** ** The rule of an isolated port *)

Section AppRule.
Variable L : Layout.
Variable malloc : gmap Z (list Z) -> Z -> Z.
Variable go_ref : state -> Z.
Hypothesis LOk : layout_ok L = true.
Hypothesis malloc_ok : forall h n, malloc h n <> 0 /\ h !! malloc h n = None.
Hypothesis ref_ok : forall s, objs s !! go_ref s = None.

(** A new object: the others stay, and it has no structure yet. *)
Lemma new_obj_spec s d : wf L s -> exists s' r, new_obj go_ref d s = Some (r, s') /\ wf L s' /\ heap s' = heap s /\
  objs s' !! r = Some (mkObj None d) /\ forall q o, objs s !! q = Some o -> objs s' !! q = Some o.
Proof.
  intros [Wb Wo]. unfold new_obj, bind, gets, modify, ret. eexists _, (go_ref s). split; [reflexivity|]. cbn [objs heap set_objs].
  split_and!; [split|done|apply lookup_insert_eq|].
  - intros q o p H C. cbn in H. apply lookup_insert_Some in H as [[_ <-]|[_ H]]; [done|]. by eapply Wb.
  - intros q1 q2 o1 o2 p H1 H2 C1 C2. cbn in H1, H2. apply lookup_insert_Some in H1 as [[_ <-]|[_ H1]]; [done|].
    apply lookup_insert_Some in H2 as [[_ <-]|[_ H2]]; [done|]. by eapply Wo.
  - intros q o H. rewrite lookup_insert_ne; [done|]. intros <-. by rewrite ref_ok in H.
Qed.

Lemma fields_kept s s' r d : keeps L s s' -> objs s !! r = Some (mkObj None d) -> fields_ <$> objs s' !! r = Some d.
Proof. intros K H. destruct (k_ext _ _ _ K r _ H) as (o & -> & F & _). cbn. by f_equal. Qed.

Lemma entry_of_type s t c : entry_ok L s (mkItem (IType t) None None) c -> c = mkCItem (u32 t) 0 0 0.
Proof. destruct c. unfold entry_ok. cbn. intros (-> & -> & -> & ->). done. Qed.

Lemma entry_of_obj s s' r m c d : keeps L s s' -> objs s !! r = Some (mkObj None d) ->
  entry_ok L s' (mkItem (IObj r) None (Some (IObj m))) c ->
  exists p q, fields_ <$> objs s' !! r = Some d /\ describes L s' (IObj r) p /\ describes L s' (IObj m) q /\
  c = mkCItem (u32 (type_of L d)) p 0 q.
Proof.
  intros K H ((o & Ho & T) & D & Dm & Dl). pose proof (fields_kept s s' r d K H) as F. exists (i_spec c), (i_mask c). split; [done|].
  rewrite Ho in F. injection F as F. destruct c. cbn in *. by subst.
Qed.

Lemma action_of_obj s s' r c d : keeps L s s' -> objs s !! r = Some (mkObj None d) -> action_ok L s' (IObj r) c ->
  exists p, fields_ <$> objs s' !! r = Some d /\ describes L s' (IObj r) p /\ c = mkCAction (u32 (type_of L d)) p.
Proof.
  intros K H ((o & Ho & T) & D). pose proof (fields_kept s s' r d K H) as F. exists (a_conf c). split; [done|].
  rewrite Ho in F. injection F as F. destruct c. cbn in *. by subst.
Qed.
End AppRule.

(** [newApp] on an isolated port asks DPDK to validate and then to create one rule
    on ingress: an Ethernet item, an IPv4 item whose fields and mask are all zero
    (any IPv4 packet), counter 0 and queue 0, each array ended. *)
Theorem app_rule_spec L malloc go_new E create validate go_ref port s (LOk : layout_ok L = true)
    (Hm : forall h n, malloc h n <> 0 /\ h !! malloc h n = None) (Hr : forall s, objs s !! go_ref s = None) (W : wf L s) :
  exists s' ip mask cnt queue p pm pc pq,
    describes L s' (IObj ip) p /\ describes L s' (IObj mask) pm /\ describes L s' (IObj cnt) pc /\ describes L s' (IObj queue) pq /\
    map (fun r => fields_ <$> objs s' !! r) [ip; mask; cnt; queue] =
      map Some [DIPv4 zero_IPv4Header; DIPv4 zero_IPv4Header; DCount 0; DQueue 0] /\
    let pat := [mkCItem (u32 (ItemTypeEth L)) 0 0 0; mkCItem (u32 (ItemTypeIPv4 L)) p 0 pm; mkCItem 0 0 0 0] in
    let act := [mkCAction (u32 (ActionTypeCount L)) pc; mkCAction (u32 (ActionTypeQueue L)) pq; mkCAction 0 0] in
    let attr := mkCAttr 0 0 1 0 0 in
    app_rule L malloc go_new E create validate go_ref port s =
      Some (match errno E (validate port attr pat act s') with
            | Some e => (0, Some e)
            | None => let f := create port attr pat act s' in if fst f =? 0 then (0, RteErrno E (snd f)) else (fst f, None)
            end, s').
Proof.
  unfold app_rule.
  destruct (new_obj_spec L go_ref Hr s (DIPv4 zero_IPv4Header) W) as (s1 & ip & E1 & W1 & _ & I1 & _). rewrite (bind_some _ _ _ _ _ E1).
  destruct (new_obj_spec L go_ref Hr s1 (DIPv4 zero_IPv4Header) W1) as (s2 & mask & E2 & W2 & _ & M2 & K2). rewrite (bind_some _ _ _ _ _ E2).
  destruct (new_obj_spec L go_ref Hr s2 (DCount 0) W2) as (s3 & cnt & E3 & W3 & _ & C3 & K3). rewrite (bind_some _ _ _ _ _ E3).
  destruct (new_obj_spec L go_ref Hr s3 (DQueue 0) W3) as (s4 & queue & E4 & W4 & _ & Q4 & K4). rewrite (bind_some _ _ _ _ _ E4).
  assert (I4 : objs s4 !! ip = Some (mkObj None (DIPv4 zero_IPv4Header))) by auto.
  assert (M4 : objs s4 !! mask = Some (mkObj None (DIPv4 zero_IPv4Header))) by auto.
  assert (C4 : objs s4 !! cnt = Some (mkObj None (DCount 0))) by auto.
  set (attr := mkAttr 0 0 true false false).
  set (pattern := [mkItem _ None None; _]). set (acts := [IObj cnt; IObj queue]).
  assert (G1 : Forall (item_good s4) pattern).
  { repeat constructor; cbn; try (intros j [= <-]; cbn); eexists; (split; [eassumption|reflexivity]). }
  assert (G2 : Forall (good s4) acts) by (repeat constructor; cbn; eexists; (split; [eassumption|reflexivity])).
  destruct (rule_twice L malloc go_new create validate E port attr pattern acts s4 LOk Hm W4 G1 G2) as (s' & pat & act & O1 & O2 & K & V & C).
  inversion O1 as [|? c1 ? ? Oa Oz]; subst. inversion Oz as [|? c2 ? ? Ob Oe]; subst. inversion Oe; subst.
  inversion O2 as [|? c3 ? ? Oc Oy]; subst. inversion Oy as [|? c4 ? ? Od Of]; subst. inversion Of; subst.
  pose proof (entry_of_type L s' (ItemTypeEth L) c1 Oa) as ->.
  destruct (entry_of_obj L s4 s' ip mask c2 _ K I4 Ob) as (p & pm & Fi & D2 & D2' & ->).
  destruct (action_of_obj L s4 s' cnt c3 _ K C4 Oc) as (pc & Fc & D3 & ->). destruct (action_of_obj L s4 s' queue c4 _ K Q4 Od) as (pq & Fq & D4 & ->).
  exists s', ip, mask, cnt, queue, p, pm, pc, pq.
  split; [exact D2|]. split; [exact D2'|]. split; [exact D3|]. split; [exact D4|].
  split; [cbn; by rewrite Fi, (fields_kept L s4 s' mask _ K M4), Fc, Fq|]. cbv zeta.
  unfold Validate_. rewrite (bind_some _ _ _ _ _ V). cbn [app]. destruct (errno E _); [done|exact C].
Qed.

(** ** RSS rules *)

Section RssRules.
Variable L : Layout.
Variable malloc : gmap Z (list Z) -> Z -> Z.
Variable go_new : state -> Z.
Hypothesis LOk : layout_ok L = true.
Hypothesis malloc_ok : forall h n, Z.of_nat (size h) < 2 ^ 32 -> 0 < malloc h n < 2 ^ 64 /\ h !! malloc h n = None.

(** What DPDK reads of an array field: a number of values and a pointer to them,
    or NULL for none. *)
Definition array_read (h : gmap Z (list Z)) (b : list Z) (n : nat) (bytes : list Z) (on op : nat) : Prop :=
  let q := le_val (slice b op 8) in
  if (0 <? n)%nat then h !! q = Some bytes /\ le_val (slice b on 4) = Z.of_nat n else q = 0.
Definition rss_read (h : gmap Z (list Z)) (a : ActionRSS) (p : Z) : Prop :=
  exists b, h !! p = Some b /\ le_val (slice b (RSS_FUNC L) 4) = Func a /\ le_val (slice b (RSS_LEVEL L) 4) = Level a /\
    le_val (slice b (RSS_TYPES L) 8) = Types a /\
    array_read h b (length (Queues a)) (queue_bytes a) (RSS_QUEUE_NUM L) (RSS_QUEUE L) /\
    array_read h b (length (Key a)) (Key a) (RSS_KEY_LEN L) (RSS_KEY L).

(** Fields that are empty have had no array before. *)
Definition no_stale (a : ActionRSS) (q k : Z) : Prop := (length (Queues a) = 0%nat -> q = 0) /\ (length (Key a) = 0%nat -> k = 0).

Lemma array_set_read h b n bytes on op q qb q0 qb0 : array_set b n bytes on q qb q0 qb0 -> le_val (slice b op 8) = q ->
  (n = 0%nat -> q0 = 0) -> (q <> 0 -> h !! q = Some qb) -> array_read h b n bytes on op /\ (n = 0%nat -> q = 0).
Proof.
  unfold array_set, array_read. intros A S Z0 Hq. rewrite S. destruct (Nat.ltb_spec 0 n).
  - destruct A as (Nq & -> & En). split; [auto|lia].
  - destruct A as (-> & _). split; intros; apply Z0; lia.
Qed.

Lemma rss_reloaded_read h r a q0 qb0 k0 kb0 s p : rss_reloaded L h r a q0 qb0 k0 kb0 s p -> no_stale a q0 k0 ->
  rss_read (heap s) a p /\ exists b q qb k kb, rss_owns L h r s p b q qb k kb /\ no_stale a q k.
Proof.
  intros (b & q & qb & k & kb & O & Aq & Ak & El & Et & Ef) [Nq0 Nk0].
  pose proof O as (_ & Hh & _ & Sq & Sk & Np & Fp & Nq & Nk & Nqk & Fq & Fk).
  assert (Hq : q <> 0 -> heap s !! q = Some qb).
  { intros Q. rewrite Hh, lookup_insert_ne by auto. rewrite own_pos by done. apply lookup_insert_eq. }
  assert (Hk : k <> 0 -> heap s !! k = Some kb).
  { intros Q. rewrite Hh, lookup_insert_ne by auto. destruct (Z.eq_dec q 0) as [->|Q0]; [rewrite own_0|rewrite own_lookup_ne by auto];
      rewrite own_pos by done; apply lookup_insert_eq. }
  destruct (array_set_read (heap s) b _ _ _ (RSS_QUEUE L) q qb q0 qb0 Aq Sq Nq0 Hq) as [Rq Eq].
  destruct (array_set_read (heap s) b _ _ _ (RSS_KEY L) k kb k0 kb0 Ak Sk Nk0 Hk) as [Rk Ek].
  split; [|by exists b, q, qb, k, kb]. exists b. split_and!; try done. rewrite Hh. apply lookup_insert_eq.
Qed.

Lemma cPattern_types ts s : cPattern L malloc (types_only ts) s = Some (map (fun t => mkCItem (u32 t) 0 0 0) ts ++ [mkCItem 0 0 0 0], s).
Proof.
  unfold cPattern. assert (R : map_M (cItem L malloc) (types_only ts) s = Some (map (fun t => mkCItem (u32 t) 0 0 0) ts, s)); [|by rewrite (bind_some _ _ _ _ _ R)].
  induction ts as [|t ts IH]; [done|]. cbn [types_only map map_M]. unfold bind at 1. cbn. fold (types_only ts).
  by rewrite (bind_some _ _ _ _ _ IH).
Qed.

(** [cActions] on one RSS action whose [Reload] succeeds. *)
Lemma cActions_rss r a s s' c p : objs s !! r = Some (mkObj c (DRSS a)) -> ActionRSS_Reload L malloc r a s = Some (tt, s') ->
  objs s' !! r = Some (mkObj (Some p) (DRSS a)) ->
  cActions L (Reload L malloc go_new) [IObj r] s = Some ([mkCAction (u32 (ActionTypeRss L)) p; mkCAction 0 0], s').
Proof.
  intros Ho R Ho'. unfold cActions, map_M, cAction.
  assert (T : Type_ L (IObj r) s = Some (ActionTypeRss L, s)) by (unfold Type_, get_obj, bind, lift; by rewrite Ho).
  assert (R' : Reload L malloc go_new (IObj r) s = Some (tt, s')) by (unfold Reload, get_obj; unfold bind at 1; rewrite Ho; exact R).
  assert (P : Pointer (IObj r) s' = Some (p, s')) by (unfold Pointer, get_obj, bind, lift; by rewrite Ho').
  rewrite !bind_assoc. rewrite (bind_some _ _ _ _ _ T), !bind_assoc. rewrite (bind_some _ _ _ _ _ R'), !bind_assoc.
  by rewrite (bind_some _ _ _ _ _ P).
Qed.

(** Both calls of [validate_create] on a new RSS action. *)
Lemma rss_twice r a s : objs s !! r = Some (mkObj None (DRSS a)) -> Z.of_nat (size (heap s)) + 3 < 2 ^ 32 -> rss_range a ->
  exists s1 s2 p, rss_read (heap s1) a p /\ rss_read (heap s2) a p /\
    cActions L (Reload L malloc go_new) [IObj r] s = Some ([mkCAction (u32 (ActionTypeRss L)) p; mkCAction 0 0], s1) /\
    cActions L (Reload L malloc go_new) [IObj r] s1 = Some ([mkCAction (u32 (ActionTypeRss L)) p; mkCAction 0 0], s2).
Proof.
  intros Ho Room Ra. destruct (rss_struct L malloc malloc_ok r s a ltac:(lia) Ho) as (s0 & p & E0 & O0 & Ob0).
  destruct (rss_reload_owned L malloc LOk malloc_ok (heap s) r a s0 s p _ _ _ _ _ E0 O0 Room Ra) as (s1 & R1 & Ob1 & Re1).
  destruct (rss_reloaded_read _ _ _ _ _ _ _ _ _ Re1) as (Rd1 & b & q & qb & k & kb & O1 & Ns); [by split|].
  destruct (rss_reload_owned L malloc LOk malloc_ok (heap s) r a s1 s1 p b q qb k kb) as (s2 & R2 & Ob2 & Re2);
    [by apply (rss_struct_again L malloc (heap s) r s1 p b q qb k kb)|done|done|done|].
  destruct (rss_reloaded_read _ _ _ _ _ _ _ _ _ Re2 Ns) as (Rd2 & _).
  assert (H1 : objs s1 !! r = Some (mkObj (Some p) (DRSS a))) by (rewrite Ob1, Ob0; apply lookup_insert_eq).
  exists s1, s2, p. split_and!; [done|done|by eapply cActions_rss|eapply cActions_rss; [done|done|by rewrite Ob2]].
Qed.

Variable E : rte_numbers.
Variable create : Z -> c_attr -> list c_item -> list c_action -> state -> Z * Z.
Variable validate : Z -> c_attr -> list c_item -> list c_action -> state -> Z.

(** The result of both calls, from what DPDK answers in the two states. *)
Definition rss_result (pid : Z) (pat : list c_item) (act : list c_action) (s1 s2 : state) : option Z * state :=
  match errno E (validate pid (mkCAttr 0 0 1 0 0) pat act s1) with
  | Some _ => (None, s1)
  | None =>
      let f := create pid (mkCAttr 0 0 1 0 0) pat act s2 in
      (if fst f =? 0 then match RteErrno E (snd f) with None => Some 0 | Some _ => None end else Some (fst f), s2)
  end.

Lemma validate_create_rss r a pid ts s : objs s !! r = Some (mkObj None (DRSS a)) -> Z.of_nat (size (heap s)) + 3 < 2 ^ 32 -> rss_range a ->
  exists s1 s2 p, rss_read (heap s1) a p /\ rss_read (heap s2) a p /\
    validate_create L malloc go_new E create validate pid (mkAttr 0 0 true false false) (types_only ts) [IObj r] s =
      Some (rss_result pid (map (fun t => mkCItem (u32 t) 0 0 0) ts ++ [mkCItem 0 0 0 0])
              [mkCAction (u32 (ActionTypeRss L)) p; mkCAction 0 0] s1 s2).
Proof.
  intros Ho Room Ra. destruct (rss_twice r a s Ho Room Ra) as (s1 & s2 & p & R1 & R2 & C1 & C2). exists s1, s2, p.
  split; [done|]. split; [done|]. unfold validate_create, Validate_, Validate, rss_result.
  rewrite bind_assoc, (bind_some _ _ _ _ _ (cPattern_types ts s)), bind_assoc, (bind_some _ _ _ _ _ C1).
  unfold bind at 1. unfold bind at 1. unfold gets, ret at 1. change (cvtAttr (mkAttr 0 0 true false false)) with (mkCAttr 0 0 1 0 0).
  destruct (errno E _); [done|]. unfold Create_, Create. rewrite bind_assoc, (bind_some _ _ _ _ _ (cPattern_types ts s1)), bind_assoc.
  rewrite (bind_some _ _ _ _ _ C2). unfold bind, gets, ret. change (cvtAttr (mkAttr 0 0 true false false)) with (mkCAttr 0 0 1 0 0).
  destruct (fst _ =? 0); [|done]. cbn [snd fst]. by destruct (RteErrno E _).
Qed.
End RssRules.

(** The RSS rules of the sniffer: DPDK is asked to validate and, if it agrees, to
    create a rule on ingress that matches by types only (Ethernet, VLAN, IPv4 in
    one case, Ethernet and IPv4 in the other) with one RSS action; each time it
    finds the hash types of the configuration, the Toeplitz function and, in the
    second case, the key and all receive queues in order. A rule is made for the
    drivers [net_af_packet] and [net_ice] only. *)
Theorem rss_rules_spec L malloc go_new E create validate go_ref toeplitz pid conf n s (LOk : layout_ok L = true)
    (Hm : forall h n, Z.of_nat (size h) < 2 ^ 32 -> 0 < malloc h n < 2 ^ 64 /\ h !! malloc h n = None)
    (Room : Z.of_nat (size (heap s)) + 3 < 2 ^ 32) (Ht : 0 <= toeplitz < 2 ^ 32) (Hf_ : 0 <= Hf conf < 2 ^ 64)
    (Hk : Z.of_nat (length (RssKey conf)) < 2 ^ 32) (Hn : 0 <= n < 65536) :
  let rss p := [mkCAction (u32 (ActionTypeRss L)) p; mkCAction 0 0] in
  let item t := mkCItem (u32 t) 0 0 0 in
  (exists s1 s2 p, let a := mkActionRSS toeplitz [] [] 0 (Hf conf) in
     rss_read L (heap s1) a p /\ rss_read L (heap s2) a p /\
     rssEthVlanIPv4 L malloc go_new E create validate go_ref toeplitz pid conf s =
       Some (rss_result E create validate pid [item (ItemTypeEth L); item (ItemTypeVlan L); item (ItemTypeIPv4 L); mkCItem 0 0 0 0] (rss p) s1 s2)) /\
  (exists s1 s2 p, let a := mkActionRSS toeplitz (map Z.of_nat (seq 0 (Z.to_nat n))) (RssKey conf) 0 (Hf conf) in
     rss_read L (heap s1) a p /\ rss_read L (heap s2) a p /\
     mlxRssEthVlanIPv4 L malloc go_new E create validate go_ref toeplitz (Some n) pid conf s =
       Some (rss_result E create validate pid [item (ItemTypeEth L); item (ItemTypeIPv4 L); mkCItem 0 0 0 0] (rss p) s1 s2)) /\
  forall info, info pid <> Some (str "net_af_packet"%string) -> info pid <> Some (str "net_ice"%string) ->
    EthdevCall L malloc go_new E create validate go_ref toeplitz info pid conf s = Some (true, s).
Proof.
  intros rss item.
  assert (New : forall a, exists r, let s0 := set_objs s (<[r := mkObj None (DRSS a)]> (objs s)) in
    new_obj go_ref (DRSS a) s = Some (r, s0) /\ objs s0 !! r = Some (mkObj None (DRSS a)) /\ heap s0 = heap s).
  { intros a. exists (go_ref s). split_and!; [done|apply lookup_insert_eq|done]. }
  assert (Q : queuesSeq (Z.to_nat n) = map Z.of_nat (seq 0 (Z.to_nat n))).
  { unfold queuesSeq. apply map_ext_in. intros i Hi%in_seq. apply u16_small. lia. }
  split_and!.
  - destruct (New (mkActionRSS toeplitz [] [] 0 (Hf conf))) as (r & N & Ho & Hh). unfold rssEthVlanIPv4.
    rewrite (bind_some _ _ _ _ _ N). apply (validate_create_rss L malloc go_new LOk Hm); [exact Ho|by rewrite Hh|repeat split; cbn; lia].
  - destruct (New (mkActionRSS toeplitz (map Z.of_nat (seq 0 (Z.to_nat n))) (RssKey conf) 0 (Hf conf))) as (r & N & Ho & Hh).
    unfold mlxRssEthVlanIPv4. rewrite Q, (bind_some _ _ _ _ _ N).
    apply (validate_create_rss L malloc go_new LOk Hm); [exact Ho|by rewrite Hh|].
    repeat split; cbn; try lia. rewrite length_map, length_seq. lia.
  - intros info N1 N2. unfold EthdevCall, driverName. destruct (info pid) as [name|]; [|reflexivity].
    change (default [] (Some name)) with name. cbv zeta.
    destruct (decide (name = str "mlx5_pci"%string)); [done|].
    destruct (decide (name = _)) as [->|]; [done|]. by destruct (decide (name = _)) as [->|].
Qed.

Lemma rss_rules_spec_witness :
  let s := mkState ∅ {[1 := [7; 7]]} ∅ ∅ in
  let E := mkRteNumbers 1002 1001 1003 1000 in
  let run := rssEthVlanIPv4 dpdk_layout first_free (fun _ => 0) E sample_driver (fun _ _ _ _ _ => 0) (fun s => first_free (objs s) 0) 1 in
  exists s1 s2 p, rss_read dpdk_layout (heap s1) (mkActionRSS 1 [] [] 0 260) p /\ rss_read dpdk_layout (heap s2) (mkActionRSS 1 [] [] 0 260) p /\
    run 0 (mkRssConf [] 260) s = Some (Some 4096, s2).
Proof.
  intros s E run.
  destruct (rss_rules_spec dpdk_layout first_free (fun _ => 0) E sample_driver (fun _ _ _ _ _ => 0) (fun s => first_free (objs s) 0) 1 0
    (mkRssConf [] 260) 4 s dpdk_layout_ok first_free_rss) as [(s1 & s2 & p & R1 & R2 & R) _].
  - vm_compute. reflexivity.
  - lia.
  - cbn. lia.
  - cbn. lia.
  - lia.
  - exists s1, s2, p. split; [exact R1|]. split; [exact R2|]. exact R.
Defined.

(** ** Counters of rules *)

(** [rte_flow_query_count], and an action of the query with its counter. *)
Record rte_flow_query_count := mkQueryCount { reset : Z; hits_set : Z; bytes_set : Z; hits : Z; bytes : Z }.
(* go: ethdev/flow/flow.go RXTXStats *)
Record RXTXStats := mkRXTXStats { Hits : Z; Bytes_ : Z }.

Section Query.
Variable L : Layout.
Variable E : rte_numbers.
(** The result and the counter filled in; [0] is success. *)
Variable rte_flow_query : Z -> Z -> list (Z * option rte_flow_query_count) -> rte_flow_query_count -> Z * rte_flow_query_count.
Variables rte_flow_destroy rte_flow_isolate : Z -> Z -> Z.
Variable rte_flow_flush : Z -> Z.

(* go: ethdev/flow/flow.go 9-25 g_flow_query_count *)
Definition g_flow_query_count : rte_flow_query_count := mkQueryCount 0 1 1 0 0.

(** The statistics are set on every return. *)
(* go: ethdev/flow/flow.go 32-55 bec_rte_flow_query_count *)
Definition bec_rte_flow_query_count (port flow : Z) : Z * RXTXStats :=
  let actions := [(ActionTypeCount L, Some g_flow_query_count); (0, None)] in
  let '(ret, count) := rte_flow_query port flow actions (mkQueryCount 0 0 0 0 0) in
  if ret =? 0 then (ret, mkRXTXStats (hits count) (bytes count)) else (ret, mkRXTXStats 0 0).

(* go: ethdev/flow/flow.go Query *)
Definition Query (port flow : Z) : option go_error * RXTXStats :=
  let '(rc, stats) := bec_rte_flow_query_count port flow in (errno E rc, stats).
(* go: ethdev/flow/flow.go Destroy *)
Definition Destroy (port flow : Z) : option go_error := errno E (rte_flow_destroy port flow).
(* go: ethdev/flow/flow.go Flush *)
Definition Flush (port : Z) : option go_error := errno E (rte_flow_flush port).
(* go: ethdev/flow/flow.go Isolate *)
Definition Isolate (port set : Z) : option go_error := errno E (rte_flow_isolate port set).

(** The queries made, in order; [None] is the panic of [app.Ports[0]]. *)
(* go: app/test-sniffer/init.go App.ReportFlowStats *)
Fixpoint ReportFlowStats (Ports Flows : list Z) : option (list (Z * Z)) :=
  match Flows with
  | [] => Some []
  | f :: Flows =>
      match Ports with
      | [] => None
      | p :: _ =>
          match fst (Query p f) with
          | Some _ => Some [(p, f)]
          | None => cons (p, f) <$> ReportFlowStats Ports Flows
          end
      end
  end.

(** The counters of all flows are asked of the first port, though the flow at
    place [i] was made on the port at place [i]; the first error ends the report. *)
Lemma ReportFlowStats_first_port p ps fs :
  exists asked rest, fs = asked ++ rest /\ ReportFlowStats (p :: ps) fs = Some (map (pair p) asked) /\
    (rest <> [] -> exists f, last asked = Some f /\ is_Some (fst (Query p f))).
Proof.
  induction fs as [|f fs IH]; [by exists [], []|]. cbn [ReportFlowStats]. destruct (fst (Query p f)) as [e|] eqn:Q.
  - exists [f], fs. split_and!; [done|done|]. intros _. exists f. rewrite Q. eauto.
  - destruct IH as (asked & rest & -> & -> & H). exists (f :: asked), rest. split_and!; [done|done|].
    intros R. destruct (H R) as (g & Lg & Qg). exists g. split; [|done]. destruct asked; [done|]. by rewrite last_cons_cons.
Qed.
End Query.
