(* ===== verification/HeaderText.v ===== *)
(** * Headers as text

    The [String] methods of the headers in [src/packet/packet.go] and [arp.go],
    and what [src/app/test-sniffer/lcores.go] prints of a packet with [-print].
    [fmt.Sprintf] is concatenation of its parts; a nil header given to ["%s"]
    prints as [<nil>], since [fmt] recovers the panic of the method. *)

From Stdlib Require Import ZArith Lia String.
From stdpp Require Import base list numbers option gmap.
From S2P Require Import Prelude Memory Text Types Mbuf Headers Parse ParseSpec.

Open Scope Z_scope.
Open Scope go_scope.

(** Text that ends a line. *)
Definition line (s : list Z) : list Z := s ++ [10].
Definition lit (s : string) : list Z := str s.
(** [fmt.Sprintf] of a text with one number at its end. *)
Definition numbered (s : string) (v : Z) : list Z := line (lit s ++ fmt_d v).

(** ** The methods *)

(* go: packet/packet.go etherTypeNameLookupTable *)
Definition etherTypeNameLookupTable : gmap Z (list Z) :=
  list_to_map [(SwapIPV4Number, lit "IPv4"); (SwapARPNumber, lit "ARP"); (SwapVLANNumber, lit "VLAN");
               (SwapMPLSNumber, lit "MPLS"); (SwapIPV6Number, lit "IPv6")].
(* go: packet/packet.go getEtherTypeName *)
Definition getEtherTypeName (et : Z) : list Z := default (lit "unknown") (etherTypeNameLookupTable !! et).

(* go: packet/packet.go EtherHdr.String *)
Definition EtherHdr_String (hdr : EtherHdr.t) : list Z :=
  line (lit "L2 protocol: Ethernet, EtherType: 0x" ++ fmt_x 4 (EtherHdr.EtherType hdr) ++ lit " (" ++
        getEtherTypeName (EtherHdr.EtherType hdr) ++ lit ")") ++
  line (lit "Ethernet Source: " ++ MACAddress_String (EtherHdr.SAddr hdr)) ++
  line (lit "Ethernet Destination: " ++ MACAddress_String (EtherHdr.DAddr hdr)).

(* go: packet/packet.go IPv4Hdr.String *)
Definition IPv4Hdr_String (hdr : IPv4Hdr.t) : list Z :=
  line (lit "    L3 protocol: IPv4") ++
  line (lit "    IPv4 Source: " ++ IPv4Address_String (IPv4Hdr.SrcAddr hdr)) ++
  line (lit "    IPv4 Destination: " ++ IPv4Address_String (IPv4Hdr.DstAddr hdr)).

(* go: packet/packet.go IPv6Hdr.String *)
Definition IPv6Hdr_String (hdr : IPv6Hdr.t) : list Z :=
  line (lit "    L3 protocol: IPv6") ++
  line (lit "    IPv6 Source: " ++ IPv6Address_String (IPv6Hdr.SrcAddr hdr)) ++
  line (lit "    IPv6 Destination " ++ IPv6Address_String (IPv6Hdr.DstAddr hdr)).

(** The ports in the order of the host. *)
Definition ports_text (src dst : Z) : list Z :=
  numbered "        L4 Source: " (SwapBytesUint16 src) ++ numbered "        L4 Destination: " (SwapBytesUint16 dst).
(* go: packet/packet.go TCPHdr.String *)
Definition TCPHdr_String (hdr : TCPHdr.t) : list Z :=
  line (lit "        L4 protocol: TCP") ++ ports_text (TCPHdr.SrcPort hdr) (TCPHdr.DstPort hdr).
(* go: packet/packet.go UDPHdr.String *)
Definition UDPHdr_String (hdr : UDPHdr.t) : list Z :=
  line (lit "        L4 protocol: UDP") ++ ports_text (UDPHdr.SrcPort hdr) (UDPHdr.DstPort hdr).

(* go: packet/packet.go ICMPHdr.String *)
Definition ICMPHdr_String (hdr : ICMPHdr.t) : list Z :=
  line (lit "        L4 protocol: ICMP") ++
  numbered "        ICMP Type: " (ICMPHdr.MsgType hdr) ++
  numbered "        ICMP Code: " (ICMPHdr.Code hdr) ++
  numbered "        ICMP Cksum: " (SwapBytesUint16 (ICMPHdr.Cksum hdr)) ++
  numbered "        ICMP Identifier: " (SwapBytesUint16 (ICMPHdr.Identifier hdr)) ++
  numbered "        ICMP SeqNum: " (SwapBytesUint16 (ICMPHdr.SeqNum hdr)).

(* go: packet/packet.go VXLANHeader.String *)
Definition VXLANHeader_String (hdr : VXLANHeader.t) : list Z :=
  line (lit "        Protocol: VXLAN") ++ numbered "     VXLAN VNI: " (Z.shiftr (VXLANHeader.VNI hdr) 16).

(** The format is a raw string: its [\n] are two characters before the line end. *)
Definition raw_line (s : list Z) : list Z := line (s ++ lit "\n").
Definition raw_numbered (s : string) (v : Z) : list Z := raw_line (lit s ++ fmt_d v).
Definition last_raw (s : list Z) : list Z := s ++ lit "\n".
(* go: packet/arp.go ARPHdr.String *)
Definition ARPHdr_String (hdr : ARPHdr.t) : list Z :=
  raw_line (lit "    L3 protocol: ARP") ++
  raw_numbered "    HType: " (ARPHdr.HType hdr) ++
  raw_numbered "    PType: " (ARPHdr.PType hdr) ++
  raw_numbered "    HLen:  " (ARPHdr.HLen hdr) ++
  raw_numbered "    PLen:  " (ARPHdr.PLen hdr) ++
  raw_numbered "    Operation: " (ARPHdr.Operation hdr) ++
  raw_line (lit "    Sender MAC address: " ++ MACAddress_String (ARPHdr.SHA hdr)) ++
  raw_line (lit "    Sender IPv4 address: " ++ IPv4ArrayToString (ARPHdr.SPA hdr)) ++
  raw_line (lit "    Target MAC address: " ++ MACAddress_String (ARPHdr.THA hdr)) ++
  last_raw (lit "    Target IPv4 address: " ++ IPv4ArrayToString (ARPHdr.TPA hdr)).

(** ** Printing a packet *)

(** A pointer to a header as an argument of ["%s"]: [None] is a fault. *)
Definition shown {H} (size : nat) (decode : list Z -> H) (text : H -> list Z) (p : Z) : M World (list Z) :=
  if p =? 0 then ret (lit "<nil>")
  else let! l := (fun w => lift (load_bytes (heap w) p size) w) in ret (text (decode l)).
Definition ether_text := shown EtherHdr.size EtherHdr.decode EtherHdr_String.
Definition ipv4_text := shown IPv4Hdr.size IPv4Hdr.decode IPv4Hdr_String.
Definition ipv6_text := shown IPv6Hdr.size IPv6Hdr.decode IPv6Hdr_String.
Definition udp_text := shown UDPHdr.size UDPHdr.decode UDPHdr_String.
Definition icmp_text := shown ICMPHdr.size ICMPHdr.decode ICMPHdr_String.
Definition arp_text := shown ARPHdr.size ARPHdr.decode ARPHdr_String.
Definition vxlan_text := shown VXLANHeader.size VXLANHeader.decode VXLANHeader_String.

(** The arguments are computed first, in their order, then printed. *)
(* go: app/test-sniffer/lcores.go 142-169 LcoreFunc *)
Definition print_packet (head : string) : M World (list Z) :=
  let! overlay := getP Overlay in
  if overlay then
    let! oe := getP OuterEther in let! oi := getP OuterIPv4Hdr in let! ou := getP OuterUDPHdr in let! vx := getP VxlanHeader in
    let! e := GetEther in let! a := GetARP in let! i4 := GetIPv4 in let! ic := GetICMPForIPv4 in let! i6 := GetIPv6 in
    let! t1 := ether_text oe in let! t2 := ipv4_text oi in let! t3 := udp_text ou in let! t4 := vxlan_text vx in
    let! t5 := ether_text e in let! t6 := arp_text a in let! t7 := ipv4_text i4 in let! t8 := icmp_text ic in
    let! t9 := ipv6_text i6 in
    ret (line (lit head) ++ line (lit "ether " ++ t1) ++ line (lit "ipv4 " ++ t2) ++ line (lit "udp " ++ t3) ++
         line (lit "vxlan " ++ t4) ++ line (lit "inner ether " ++ t5) ++ line (lit "arp " ++ t6) ++ line (lit "ipv4 " ++ t7) ++
         line (lit "icmp " ++ t8) ++ line (lit "ipv6 " ++ t9))
  else
    let! e := GetEther in let! i4 := GetIPv4 in let! ic := GetICMPForIPv4 in
    let! t1 := ether_text e in let! t2 := ipv4_text i4 in let! t3 := icmp_text ic in
    ret (line (lit head) ++ line (lit "ether " ++ t1) ++ line (lit "ipv4 " ++ t2) ++ line (lit "icmp " ++ t3)).
(* go: app/test-sniffer/lcores.go 277-304 LcoreFunc *)
Definition print_tx_packet : M World (list Z) := print_packet "tx packet:".

(** ** Printing only reads *)

Definition reads {A} (m : M World A) : Prop := forall w a w', m w = Some (a, w') -> w' = w.

Lemma reads_ret {A} (a : A) : reads (ret a).
Proof. intros w b w'. by intros [= _ ->]. Qed.
Lemma reads_gets {A} (f : World -> A) : reads (gets f).
Proof. intros w b w'. by intros [= _ ->]. Qed.
Lemma reads_bind {A B} (m : M World A) (k : A -> M World B) : reads m -> (forall a, reads (k a)) -> reads (bind m k).
Proof.
  intros Hm Hk w b w'. unfold bind. destruct (m w) as [[a w1]|] eqn:E; [|done]. intros K. apply Hm in E as ->. by eapply Hk.
Qed.
Lemma reads_rd h f : reads (rd h f).
Proof. intros w b w'. unfold rd. case_match; [done|]. destruct (load_le _ _ _); [|done]. by intros [= _ ->]. Qed.
Lemma reads_shown {H} n (d : list Z -> H) t p : reads (shown n d t p).
Proof.
  unfold shown. case_match; [apply reads_ret|]. apply reads_bind; [|intros; apply reads_ret].
  intros w b w'. unfold lift. destruct (load_bytes _ _ _); [|done]. by intros [= _ ->].
Qed.

Create HintDb reads.
#[export] Hint Resolve reads_ret reads_gets reads_bind reads_rd reads_shown : reads.

Lemma reads_if {A} (b : bool) (m k : M World A) : reads m -> reads k -> reads (if b then m else k).
Proof. by destruct b. Qed.
#[export] Hint Resolve reads_if : reads.

Lemma print_packet_reads head : reads (print_packet head).
Proof.
  assert (G : reads GetEther /\ reads GetARP /\ reads GetIPv4 /\ reads GetICMPForIPv4 /\ reads GetIPv6).
  { unfold GetEther, GetARP, GetIPv4, GetICMPForIPv4, GetIPv6, GetEther, getP, GetIPv4NoCheck, getP. split_and!; eauto 10 with reads. }
  destruct G as (G1 & G2 & G3 & G4 & G5).
  unfold print_packet, getP, ether_text, arp_text, ipv4_text, ipv6_text, icmp_text, udp_text, vxlan_text.
  apply reads_bind; [apply reads_gets|intros o]. destruct o; repeat (apply reads_bind; [auto with reads|intros ?]); apply reads_ret.
Qed.

(** ** What the texts say of the wire *)

(** The number on the wire in two bytes. *)
Definition wire16 (l : list Z) (o : nat) : Z := be_val (take 2 (drop o l)).
Definition num_line (s : string) (v : Z) : list Z := numbered s v.

Lemma take2_nth (l : list Z) o : (o + 2 <= length l)%nat -> exists a b, take 2 (drop o l) = [a; b] /\ l !! o = Some a /\ l !! S o = Some b.
Proof.
  intros H. destruct (lookup_lt_is_Some_2 l o ltac:(lia)) as [a Ha]. destruct (lookup_lt_is_Some_2 l (S o) ltac:(lia)) as [b Hb].
  exists a, b. split; [|done]. by rewrite (drop_S _ _ _ Ha), (drop_S _ _ _ Hb).
Qed.

Lemma swap_wire l o : Forall byte_ok l -> (o + 2 <= length l)%nat -> SwapBytesUint16 (le_val (take 2 (drop o l))) = wire16 l o.
Proof. intros B H. apply SwapBytesUint16_be; [by apply Forall_take, Forall_drop|]. rewrite length_take, length_drop. lia. Qed.

(** A 16-bit number that is shown as it lies in memory. *)
Lemma unswapped_wire l o : Forall byte_ok l -> (o + 2 <= length l)%nat ->
  le_val (take 2 (drop o l)) = wire16 l o mod 256 * 256 + wire16 l o / 256.
Proof.
  intros B H. unfold wire16. destruct (take2_nth l o H) as (a & b & -> & Ha & Hb).
  pose proof (Forall_lookup_1 _ _ _ _ B Ha) as Ra. pose proof (Forall_lookup_1 _ _ _ _ B Hb) as Rb. unfold byte_ok in Ra, Rb.
  cbn [le_val be_val length]. rewrite Z.pow_0_r. change (Z.of_nat 1) with 1. change (256 ^ 1) with 256. zlia.
Qed.

(** The texts of TCP, UDP and ICMP headers show the numbers that are on the wire.
    Others do not, on a little-endian machine: the type of a frame and the
    operation of an ARP packet are shown with their bytes swapped (a request is
    operation 256), and what is shown as the VNI is the last byte of the
    VNI, and wrong from 256 on. *)
Theorem header_texts l (B : Forall byte_ok l) (Hl : (40 <= length l)%nat) :
  TCPHdr_String (TCPHdr.decode l) = line (lit "        L4 protocol: TCP") ++
    numbered "        L4 Source: " (wire16 l 0) ++ numbered "        L4 Destination: " (wire16 l 2) /\
  UDPHdr_String (UDPHdr.decode l) = line (lit "        L4 protocol: UDP") ++
    numbered "        L4 Source: " (wire16 l 0) ++ numbered "        L4 Destination: " (wire16 l 2) /\
  ICMPHdr_String (ICMPHdr.decode l) = line (lit "        L4 protocol: ICMP") ++
    numbered "        ICMP Type: " (be_val (take 1 l)) ++ numbered "        ICMP Code: " (be_val (take 1 (drop 1 l))) ++
    numbered "        ICMP Cksum: " (wire16 l 2) ++ numbered "        ICMP Identifier: " (wire16 l 4) ++
    numbered "        ICMP SeqNum: " (wire16 l 6) /\
  EtherHdr.EtherType (EtherHdr.decode l) = wire16 l 12 mod 256 * 256 + wire16 l 12 / 256 /\
  ARPHdr.Operation (ARPHdr.decode l) = wire16 l 6 mod 256 * 256 + wire16 l 6 / 256 /\
  (l !! 7%nat = Some 0 -> VXLANHeader_String (VXLANHeader.decode l) = line (lit "        Protocol: VXLAN") ++
    numbered "     VXLAN VNI: " (be_val (take 3 (drop 4 l)) mod 256)).
Proof.
  split_and!.
  - unfold TCPHdr_String, ports_text, TCPHdr.decode. cbn [TCPHdr.SrcPort TCPHdr.DstPort]. by rewrite !swap_wire by (done || lia).
  - unfold UDPHdr_String, ports_text, UDPHdr.decode. cbn [UDPHdr.SrcPort UDPHdr.DstPort]. by rewrite !swap_wire by (done || lia).
  - unfold ICMPHdr_String, ICMPHdr.decode. cbn [ICMPHdr.MsgType ICMPHdr.Code ICMPHdr.Cksum ICMPHdr.Identifier ICMPHdr.SeqNum].
    rewrite !swap_wire by (done || lia). rewrite drop_0. destruct l as [|a [|b l]]; cbn in Hl; [lia|lia|]. cbn.
    by rewrite !Z.mul_1_r, !Z.add_0_r.
  - by apply unswapped_wire; [|lia].
  - by apply unswapped_wire; [|lia].
  - intros H7. destruct (take2_nth l 4 ltac:(lia)) as (a & b & _ & Ha & Hb). destruct (take2_nth l 6 ltac:(lia)) as (c & d & _ & Hc & Hd).
    pose proof (Forall_lookup_1 _ _ _ _ B Ha) as Ra. pose proof (Forall_lookup_1 _ _ _ _ B Hb) as Rb.
    pose proof (Forall_lookup_1 _ _ _ _ B Hc) as Rc. unfold byte_ok in Ra, Rb, Rc. rewrite H7 in Hd. injection Hd as <-.
    unfold VXLANHeader_String, VXLANHeader.decode. cbn [VXLANHeader.VNI]. do 2 f_equal.
    rewrite (drop_S _ _ _ Ha), (drop_S _ _ _ Hb), (drop_S _ _ _ Hc), (drop_S _ _ _ H7). cbn. rewrite Z.shiftr_div_pow2, take_0 by lia. cbn [le_val]. change (2 ^ 16) with 65536. change (256 ^ Z.of_nat 2) with 65536. change (256 ^ Z.of_nat 1) with 256.
    change (256 ^ Z.of_nat 0) with 1. zlia.
Qed.

Lemma header_texts_witness :
  let l := [0; 80; 1; 187; 0; 1; 44; 0] ++ replicate 32 0 in
  TCPHdr_String (TCPHdr.decode l) = str "        L4 protocol: TCP" ++ [10] ++ str "        L4 Source: 80" ++ [10] ++
    str "        L4 Destination: 443" ++ [10] /\
  be_val (take 3 (drop 4 l)) = 300 /\
  VXLANHeader_String (VXLANHeader.decode l) = str "        Protocol: VXLAN" ++ [10] ++ str "     VXLAN VNI: 44" ++ [10].
Proof.
  intros l. destruct (header_texts l) as (T & _ & _ & _ & _ & V).
  - apply (bool_decide_unpack _). vm_compute. exact I.
  - vm_compute. lia.
  - rewrite T, V by reflexivity. vm_compute. split_and!; reflexivity.
Defined.
