(* ===== verification/Prom.v ===== *)
(** * Prometheus metrics

    What the applications use of the Prometheus client: a registry of metric
    descriptors, a class with the rules that its documentation gives, and the
    facts about registering several metrics. *)

From Stdlib Require Import ZArith Lia Ascii String.
From stdpp Require Import base list numbers option sets strings.
From S2P Require Import Prelude Text.

Open Scope Z_scope.
Open Scope go_scope.

(** A descriptor: the full name, the constant labels with their values, the names
    of the variable labels. *)
Record desc := mkDesc { fqName : list Z; constLabels : list (list Z * list Z); variableLabels : list (list Z) }.

#[export] Instance desc_eq_dec : EqDecision desc.
Proof. solve_decision. Defined.

Definition labelNames (d : desc) : list (list Z) := map fst (constLabels d) ++ variableLabels d.

(** [MustRegister] panics ([None]) on a descriptor that is there already, and on
    one whose label names differ from those of another with its name. *)
Class PromRegistry (R : Type) := {
  registered : R -> list desc;
  MustRegister : desc -> R -> option R
}.
Class PromRegistryLaws (R : Type) `{PromRegistry R} := {
  register_new : forall d r, d ∉ registered r ->
    (forall d', d' ∈ registered r -> fqName d' = fqName d -> labelNames d' = labelNames d) ->
    exists r', MustRegister d r = Some r' /\ registered r' = registered r ++ [d];
  register_again : forall d r, d ∈ registered r -> MustRegister d r = None
}.

(** [BuildFQName]: the parts joined by underscores. *)
Definition fq (parts : list (list Z)) : list Z := join (str "_"%string) parts.

Section Metrics.
Context {R : Type} `{PromRegistry R}.

Definition must_register (d : desc) : M R unit := fun r => match MustRegister d r with None => None | Some r => Some (tt, r) end.

(** A Prometheus counter is named by its descriptor and the values of its
    variable labels. *)
Record counter := mkCounter { c_desc : desc; c_values : list (list Z) }.
End Metrics.

(** ** Registering *)

Section Registering.
Context {R : Type} `{PromRegistryLaws R}.

(** Descriptors that can be registered together on top of others. *)
Record can_register (old new : list desc) : Prop := {
  cr_nodup : NoDup new;
  cr_new : forall d, d ∈ new -> d ∉ old;
  cr_labels : forall d d', d ∈ new -> d' ∈ old ++ new -> fqName d' = fqName d -> labelNames d' = labelNames d
}.

Lemma must_register_run d r : d ∉ registered r ->
  (forall d', d' ∈ registered r -> fqName d' = fqName d -> labelNames d' = labelNames d) ->
  exists r', must_register d r = Some (tt, r') /\ registered r' = registered r ++ [d].
Proof. intros N L. destruct (register_new d r N L) as (r' & E & Hr). exists r'. unfold must_register. by rewrite E. Qed.

Lemma can_register_cons old d new : can_register old (d :: new) ->
  (d ∉ old) /\ (forall d', d' ∈ old -> fqName d' = fqName d -> labelNames d' = labelNames d) /\ can_register (old ++ [d]) new.
Proof.
  intros [ND N L]. apply NoDup_cons in ND as [Nd ND]. split_and!; [apply N; constructor|intros d' Hd'; apply L; [constructor|set_solver]|].
  split; [done|intros d' Hd'; rewrite elem_of_app, list_elem_of_singleton; intros [Ho| ->]; [by apply (N d'); [by right|]|done]|].
  intros d1 d2 H1 H2. apply L; [by right|]. rewrite <- app_assoc in H2. exact H2.
Qed.
End Registering.

(** ** A registry as the list of its descriptors *)

(** A registry that is a list. *)
Definition consistent (d d' : desc) : bool := bool_decide (fqName d' = fqName d -> labelNames d' = labelNames d).
#[export] Instance list_registry : PromRegistry (list desc) := {
  registered r := r;
  MustRegister d r := if decide (d ∈ r) then None else if forallb (consistent d) r then Some (r ++ [d]) else None
}.
#[export] Instance list_registry_laws : PromRegistryLaws (list desc).
Proof.
  split; intros d r; cbn; intros Hd.
  - intros L. rewrite decide_False by done. exists (r ++ [d]). split; [|done].
    assert (A : forallb (consistent d) r = true); [|by rewrite A].
    apply forallb_forall. intros d' H'. apply bool_decide_eq_true_2. intros E. apply L; [by apply list_elem_of_In|done].
  - by rewrite decide_True.
Qed.
