(* ===== verification/SnifferMain.v ===== *)
(** * The test-sniffer application: metrics and start of the lcores

    The parts of [src/app/test-sniffer] that put the others to work: the metrics
    that [stats.go] [NewStats] and [queue_count.go] [Register] make in a Prometheus
    registry, and [main.go], which sends every lcore of the table of queues its
    function ([Sniffer], [Eal]). The registry is a class with the rules that
    Prometheus documents. *)

From Stdlib Require Import ZArith Lia Ascii String.
From stdpp Require Import base list numbers option gmap sets strings pretty.
From S2P Require Import Prelude Text Prom Errno Sniffer SnifferSpec Eal EalSpec.

Open Scope Z_scope.
Open Scope go_scope.

Definition statsNamespace : list Z := str "dpdk"%string.
Section Metrics.
Context {R : Type} `{PromRegistry R}.

(** ** Statistics of ports *)

(** [InfoGet] with the name of the driver, the name of the port, and the ids and
    names of its extended statistics in the order in which Go visits the map. *)
Variable driver : Z -> go_error + list Z.
Variable port_name : Z -> go_error + list Z.
Variable XstatNameIDs : Z -> go_error + list (Z * list Z).

(** [basic] in the order of the source, then the ids and their counters. *)
Record port_metrics := mkPortMetrics { m_pid : Z; m_basic : list counter; m_ids : list Z; m_counters : list counter }.

Definition xstats_desc : desc :=
  mkDesc (fq [statsNamespace; str "xstats"%string]) [] (map str ["index"; "driver"; "name"; "xstat_name"]%string).
Definition port_labels (pid : Z) (drv name : list Z) : list (list Z * list Z) :=
  [(str "index"%string, fmt_d pid); (str "driver"%string, drv); (str "name"%string, name)].
Definition basic_names : list (list Z) :=
  map str ["ipackets"; "opackets"; "ibytes"; "obytes"; "imissed"; "ierrors"; "oerrors"; "rxnombuf"]%string.
Definition port_desc (labels : list (list Z * list Z)) (name : list Z) : desc := mkDesc (fq [statsNamespace; name]) labels [].

Definition newCounter (labels : list (list Z * list Z)) (name : list Z) : M R counter :=
  must_register (port_desc labels name) ;; ret (mkCounter (port_desc labels name) []).

(** One turn of the loop; [inl] is an early return. *)
(* go: app/test-sniffer/stats.go 59-117 NewStats *)
Definition new_port_stats (pid : Z) : M R (go_error + port_metrics) :=
  match driver pid with
  | inl e => ret (inl e)
  | inr drv =>
      match port_name pid with
      | inl e => ret (inl e)
      | inr name =>
          let labels := port_labels pid drv name in
          let! basic := mapM_ (newCounter labels) basic_names in
          match XstatNameIDs pid with
          | inl e => ret (inl e)
          | inr ids =>
              ret (inr (mkPortMetrics pid basic (map fst ids)
                (map (fun idn => mkCounter xstats_desc (map snd labels ++ [snd idn])) ids)))
          end
      end
  end.

Fixpoint new_stats_from (pids : list Z) (portStats : list port_metrics) : M R (go_error + list port_metrics) :=
  match pids with
  | [] => ret (inr portStats)
  | pid :: pids =>
      let! p := new_port_stats pid in
      match p with
      | inl e => ret (inl e)
      | inr ps => new_stats_from pids (portStats ++ [ps])
      end
  end.

(* go: app/test-sniffer/stats.go NewStats *)
Definition NewStats (pids : list Z) : M R (go_error + list port_metrics) :=
  let! _ := must_register xstats_desc in
  new_stats_from pids [].

(** ** Counters of queues *)

Definition queue_desc (pid qid : Z) (name metric : list Z) : desc :=
  mkDesc (fq [statsNamespace; str "rxq"%string; metric])
    [(str "index"%string, fmt_d pid); (str "queue"%string, fmt_d qid); (str "name"%string, name)] [].

(** The counters that a [QueueCounter] points to; nil at first. *)
(* go: app/test-sniffer/queue_count.go QueueCounter *)
Definition QueueCounter : Type := option counter * option counter.

(** The slot of a lcore in the table of the reporter, which grows up to it, gets a
    new counter. *)
(* go: app/test-sniffer/queue_count.go QueueCounterReporter.getLcoresCounter *)
Definition getLcoresCounter (lcore : Z) (lcores : list (option QueueCounter)) : list (option QueueCounter) :=
  let extra := lcore - Z.of_nat (length lcores) + 1 in
  let lcores := if 0 <? extra then lcores ++ replicate (Z.to_nat extra) None else lcores in
  <[Z.to_nat lcore := Some (None, None)]> lcores.

(* go: app/test-sniffer/queue_count.go 54-63 QueueCounterReporter.Register *)
Definition queue_newCounter (pid qid : Z) (name metric : list Z) : M R counter :=
  let d := queue_desc pid qid name metric in must_register d ;; ret (mkCounter d []).

(** Called by the thread of [lcore], under the mutex, on the registry and the slots;
    the panic for a port without a name is [None]. The counters are stored through
    the pointer that the slot of the lcore holds. *)
(* go: app/test-sniffer/queue_count.go QueueCounterReporter.Register *)
Definition Register (lcore pid qid : Z) : M (R * list (option QueueCounter)) (counter * counter) := fun '(r, lcores) =>
  let lcores := getLcoresCounter lcore lcores in
  match port_name pid with
  | inl _ => None
  | inr name =>
      let counters :=
        let! packets := queue_newCounter pid qid name (str "rx_packets"%string) in
        let! bytes := queue_newCounter pid qid name (str "rx_bytes"%string) in
        ret (packets, bytes) in
      match counters r with
      | None => None
      | Some ((packets, bytes), r) => Some ((packets, bytes), (r, <[Z.to_nat lcore := Some (Some packets, Some bytes)]> lcores))
      end
  end.
End Metrics.

(** ** Registering *)

Section Registering.
Context {R : Type} `{PromRegistryLaws R}.

Lemma newCounters_run labels names : forall r, can_register (registered r) (map (port_desc labels) names) ->
  exists r', mapM_ (newCounter labels) names r = Some (map (fun n => mkCounter (port_desc labels n) []) names, r') /\
    registered r' = registered r ++ map (port_desc labels) names.
Proof.
  induction names as [|n names IH]; intros r C; cbn [mapM_ map]; [exists r; by rewrite app_nil_r|].
  cbn [map] in C. apply can_register_cons in C as (N & L & C). destruct (must_register_run _ r N L) as (r1 & E1 & R1).
  assert (E : newCounter labels n r = Some (mkCounter (port_desc labels n) [], r1)) by (unfold newCounter; by rewrite (bind_some _ _ _ _ _ E1)).
  rewrite (bind_some _ _ _ _ _ E). rewrite <- R1 in C. destruct (IH r1 C) as (r2 & E2 & R2).
  rewrite (bind_some _ _ _ _ _ E2). exists r2. split; [done|]. by rewrite R2, R1, <- app_assoc.
Qed.

Variable driver : Z -> go_error + list Z.
Variable port_name : Z -> go_error + list Z.
Variable XstatNameIDs : Z -> go_error + list (Z * list Z).

(** What a port that answers gets, and its descriptors. *)
Definition port_descs (pid : Z) (drv name : list Z) : list desc := map (port_desc (port_labels pid drv name)) basic_names.
Definition metrics_of (pid : Z) (drv name : list Z) (ids : list (Z * list Z)) : port_metrics :=
  mkPortMetrics pid (map (fun d => mkCounter d []) (port_descs pid drv name)) (map fst ids)
    (map (fun idn => mkCounter xstats_desc ([fmt_d pid; drv; name] ++ [snd idn])) ids).

(** A descriptor of a port: one of eight names, with the labels of ports. *)
Definition is_port_desc (d : desc) : Prop := exists pid drv name n, n ∈ basic_names /\ d = port_desc (port_labels pid drv name) n.
(** The registry of [NewStats]: others' metrics have other names. *)
Definition foreign (d : desc) : Prop :=
  fqName d <> fqName xstats_desc /\ forall n, n ∈ basic_names -> fqName d <> fq [statsNamespace; n].

Lemma fq_basic_inj n m : n ∈ basic_names -> m ∈ basic_names -> fq [statsNamespace; n] = fq [statsNamespace; m] -> n = m.
Proof. intros _ _ E. unfold fq in E. cbn [join] in E. apply app_inv_head in E. by apply app_inv_head in E. Qed.

Lemma fq_xstats n : n ∈ basic_names -> fqName xstats_desc <> fq [statsNamespace; n].
Proof.
  intros Hn E. unfold fq, xstats_desc in E. cbn [join fqName] in E. apply app_inv_head in E. apply app_inv_head in E.
  assert (A : ~ (str "xstats"%string ∈ basic_names)) by (apply (bool_decide_unpack _); vm_compute; exact I). by rewrite E in A.
Qed.

Lemma NoDup_basic_names : NoDup basic_names.
Proof. apply (bool_decide_unpack _). vm_compute. exact I. Qed.

Lemma port_labels_names pid drv name pid' drv' name' : map fst (port_labels pid drv name) = map fst (port_labels pid' drv' name').
Proof. done. Qed.

Lemma port_descs_register old pid drv name :
  (forall d, d ∈ old -> foreign d \/ d = xstats_desc \/ exists p dr na n, p <> pid /\ n ∈ basic_names /\ d = port_desc (port_labels p dr na) n) ->
  can_register old (port_descs pid drv name).
Proof.
  intros O. unfold port_descs. split.
  - apply NoDup_fmap_2_strong; [|apply NoDup_basic_names]. intros n m Hn Hm E. apply (f_equal fqName) in E. by apply fq_basic_inj.
  - intros d Hd Ho. apply list_elem_of_fmap in Hd as (n & -> & Hn). destruct (O _ Ho) as [[_ F]|[E|(p & dr & na & m & Np & _ & E)]].
    + by apply (F n Hn).
    + apply (f_equal fqName) in E. symmetry in E. by apply fq_xstats in E.
    + apply (f_equal (fun d => snd <$> head (constLabels d))) in E. cbn in E. injection E as E. by apply Np, fmt_d_inj.
  - intros d d' Hd Hd' E. apply list_elem_of_fmap in Hd as (n & -> & Hn). apply elem_of_app in Hd' as [Ho|Hn'].
    + destruct (O _ Ho) as [[_ F]|[->|(p & dr & na & m & _ & _ & ->)]]; [by apply F in E|by apply fq_xstats in E|done].
    + by apply list_elem_of_fmap in Hn' as (m & -> & _).
Qed.

Definition xstats_kept (r r' : R) : Prop := xstats_desc ∈ registered r -> xstats_desc ∈ registered r'.

(** The first error of a port. *)
Definition port_error (pid : Z) : option go_error :=
  match driver pid, port_name pid, XstatNameIDs pid with
  | inl e, _, _ => Some e
  | _, inl e, _ => Some e
  | _, _, inl e => Some e
  | _, _, _ => None
  end.
Definition port_answers (pid : Z) (m : port_metrics) : Prop :=
  exists drv name ids, driver pid = inr drv /\ port_name pid = inr name /\ XstatNameIDs pid = inr ids /\ m = metrics_of pid drv name ids.
Definition basic_descs (m : port_metrics) : list desc := map c_desc (m_basic m).

Lemma basic_descs_of pid drv name ids : basic_descs (metrics_of pid drv name ids) = port_descs pid drv name.
Proof. unfold basic_descs, metrics_of. cbn [m_basic]. rewrite map_map. apply map_id. Qed.

(** What the registry holds before a port is added: nothing of this port. *)
Definition clear_of (pids : list Z) (old : list desc) : Prop :=
  forall d, d ∈ old -> foreign d \/ d = xstats_desc \/ exists p dr na n, (p ∉ pids) /\ n ∈ basic_names /\ d = port_desc (port_labels p dr na) n.

Lemma clear_of_port pid pids old : clear_of (pid :: pids) old -> forall drv name, can_register old (port_descs pid drv name).
Proof.
  intros C drv name. apply port_descs_register. intros d Hd. destruct (C d Hd) as [|[|(p & dr & na & n & Np & Q)]]; [by left|by right; left|].
  right; right. exists p, dr, na, n. split; [|done]. intros ->. apply Np. constructor.
Qed.

Lemma clear_of_next pid pids old drv name : pid ∉ pids -> clear_of (pid :: pids) old -> clear_of pids (old ++ port_descs pid drv name).
Proof.
  intros Np C d Hd. apply elem_of_app in Hd as [Hd|Hd].
  - destruct (C d Hd) as [|[|(p & dr & na & n & Nq & Q)]]; [by left|by right; left|]. right; right. exists p, dr, na, n. split; [|done].
    intros Hp. apply Nq. by right.
  - right; right. apply list_elem_of_fmap in Hd as (n & -> & Hn). by exists pid, drv, name, n.
Qed.

Lemma new_port_run pid pids r : clear_of (pid :: pids) (registered r) -> pid ∉ pids ->
  exists res r', new_port_stats driver port_name XstatNameIDs pid r = Some (res, r') /\ xstats_kept r r' /\
    match res with
    | inl e => port_error pid = Some e
    | inr m => port_answers pid m /\ registered r' = registered r ++ basic_descs m /\ clear_of pids (registered r')
    end.
Proof.
  intros C Np. unfold new_port_stats, port_error. destruct (driver pid) as [e|drv] eqn:D; [exists (inl e), r; split_and!; [done|by intros ?|done]|].
  destruct (port_name pid) as [e|name] eqn:N; [exists (inl e), r; split_and!; [done|by intros ?|done]|].
  destruct (newCounters_run (port_labels pid drv name) basic_names r) as (r1 & E1 & R1); [by eapply clear_of_port|].
  rewrite (bind_some _ _ _ _ _ E1). fold (port_descs pid drv name) in R1. assert (K : xstats_kept r r1) by (intros X; rewrite R1; set_solver).
  destruct (XstatNameIDs pid) as [e|ids] eqn:X; [exists (inl e), r1; split_and!; [done|done|done]|].
  exists (inr (metrics_of pid drv name ids)), r1. split_and!; [|done|by exists drv, name, ids|rewrite basic_descs_of; exact R1|rewrite R1; by apply clear_of_next].
  unfold ret, metrics_of, port_descs. by rewrite map_map.
Qed.

Lemma new_stats_run pids : forall acc r, NoDup pids -> clear_of pids (registered r) ->
  exists res r', new_stats_from driver port_name XstatNameIDs pids acc r = Some (res, r') /\ xstats_kept r r' /\
    match res with
    | inr l => exists ms, l = acc ++ ms /\ Forall2 port_answers pids ms /\ registered r' = registered r ++ concat (map basic_descs ms)
    | inl e => exists pre pid post, pids = pre ++ pid :: post /\ Forall (fun p => port_error p = None) pre /\ port_error pid = Some e
    end.
Proof.
  induction pids as [|pid pids IH]; intros acc r ND C; cbn [new_stats_from].
  - exists (inr acc), r. split_and!; [done|by intros ?|]. exists []. rewrite !app_nil_r. by split_and!.
  - apply NoDup_cons in ND as [Np ND]. destruct (new_port_run pid pids r C Np) as (res & r1 & E1 & K1 & Q). rewrite (bind_some _ _ _ _ _ E1).
    destruct res as [e|m]; [exists (inl e), r1; split_and!; [done|done|by exists [], pid, pids]|]. destruct Q as (A & R1 & C1).
    destruct (IH (acc ++ [m]) r1 ND C1) as (res & r2 & E2 & K2 & Q2). exists res, r2. split_and!; [done|by intros X; apply K2, K1|].
    destruct res as [e|l].
    + destruct Q2 as (pre & p & post & -> & F & Pe). exists (pid :: pre), p, post. split_and!; [done| |done]. constructor; [|done].
      destruct A as (drv & name & ids & D & N & X & _). unfold port_error. by rewrite D, N, X.
    + destruct Q2 as (ms & -> & F & R2). exists (m :: ms). split_and!; [by rewrite <- app_assoc|by constructor|].
      by rewrite R2, R1, <- app_assoc.
Qed.
End Registering.

(** C34. [NewStats] on a registry that has no metrics of its names does not panic. It
    gives every port eight counters of its own and a counter per extended
    statistic, labelled with the port, its driver and names, and registers just
    these; if a port cannot be read it returns the first error, but the metrics
    made before stay registered, so that calling it again panics, as it does
    after a success. *)
Theorem NewStats_spec {R} `{PromRegistryLaws R} driver port_name XstatNameIDs pids (r : R) (ND : NoDup pids)
    (F : forall d, d ∈ registered r -> foreign d) :
  exists res r', NewStats driver port_name XstatNameIDs pids r = Some (res, r') /\
    match res with
    | inr ms => Forall2 (port_answers driver port_name XstatNameIDs) pids ms /\
        registered r' = registered r ++ xstats_desc :: concat (map basic_descs ms)
    | inl e => exists pre pid post, pids = pre ++ pid :: post /\
        Forall (fun p => port_error driver port_name XstatNameIDs p = None) pre /\ port_error driver port_name XstatNameIDs pid = Some e
    end /\
    forall pids', NewStats driver port_name XstatNameIDs pids' r' = None.
Proof.
  unfold NewStats. destruct (must_register_run xstats_desc r) as (r1 & E1 & R1).
  { intros Hd. by destruct (F _ Hd) as [? _]. }
  { intros d' Hd' E. by destruct (F _ Hd') as [? _]. }
  rewrite (bind_some _ _ _ _ _ E1). destruct (new_stats_run driver port_name XstatNameIDs pids [] r1) as (res & r2 & E2 & K & Q); [done| |].
  { intros d Hd. rewrite R1 in Hd. apply elem_of_app in Hd as [Hd|Hd]; [left; by apply F|]. apply list_elem_of_singleton in Hd as ->. by right; left. }
  exists res, r2. split; [done|]. split.
  - destruct res as [e|l]; [done|]. destruct Q as (ms & -> & A & R2). split; [done|]. by rewrite R2, R1, <- app_assoc.
  - intros pids'. unfold bind, must_register. rewrite register_again; [done|]. apply K. rewrite R1. set_solver.
Qed.

Definition sample_ids (p : Z) : go_error + list (Z * list Z) :=
  if p =? 7 then inl (Errno 19) else inr [(0, str "rx_good_packets"%string); (5, str "tx_good_packets"%string)].

Lemma NewStats_spec_witness :
  let new := NewStats (R := list desc) (fun _ => inr (str "net_ice"%string)) (fun p => inr (fmt_d p)) sample_ids in
  (exists r', fst <$> new [0; 1] [] = Some (inr [metrics_of 0 (str "net_ice"%string) (fmt_d 0) [(0, str "rx_good_packets"%string); (5, str "tx_good_packets"%string)];
                                      metrics_of 1 (str "net_ice"%string) (fmt_d 1) [(0, str "rx_good_packets"%string); (5, str "tx_good_packets"%string)]]) /\
     length r' = 17%nat /\ new [] r' = None) /\
  fst <$> new [0; 7; 1] [] = Some (inl (Errno 19)).
Proof.
  intros new. split; [|vm_compute; reflexivity].
  destruct (NewStats_spec (R := list desc) (fun _ => inr (str "net_ice"%string)) (fun p => inr (fmt_d p)) sample_ids [0; 1] [])
    as (res & r' & E & Q & N).
  - apply (bool_decide_unpack _). vm_compute. exact I.
  - intros d Hd. by apply elem_of_nil in Hd.
  - exists r'. unfold new. rewrite E. assert (V : fst <$> new [0; 1] [] = Some res) by (unfold new; by rewrite E).
    destruct res as [e|ms]; [vm_compute in V; discriminate V|]. vm_compute in V. injection V as <-.
    destruct Q as [_ Q]. split; [vm_compute; reflexivity|]. split; [change r' with (registered r'); rewrite Q; vm_compute; reflexivity|]. apply N.
Defined.

(** ** Counters of all queues *)

Section Queues.
Context {R : Type} `{PromRegistryLaws R}.
Variable port_name : Z -> go_error + list Z.

Definition rxq_metrics : list (list Z) := map str ["rx_packets"; "rx_bytes"]%string.
Definition queue_descs (name : Z -> list Z) (q : Z * Z) : list desc := map (queue_desc (fst q) (snd q) (name (fst q))) rxq_metrics.
Definition queue_counters (name : Z -> list Z) (q : Z * Z) : counter * counter :=
  (mkCounter (queue_desc (fst q) (snd q) (name (fst q)) (str "rx_packets"%string)) [],
   mkCounter (queue_desc (fst q) (snd q) (name (fst q)) (str "rx_bytes"%string)) []).
Definition not_rxq (d : desc) : Prop := forall m, m ∈ rxq_metrics -> fqName d <> fq [statsNamespace; str "rxq"%string; m].

Lemma queue_desc_inj p q n m p' q' n' m' : queue_desc p q n m = queue_desc p' q' n' m' -> p = p' /\ q = q' /\ m = m'.
Proof.
  intros E. pose proof (f_equal (fun d => snd <$> head (constLabels d)) E) as E1. cbn in E1. injection E1 as E1.
  pose proof (f_equal (fun d => snd <$> constLabels d !! 1%nat) E) as E2. cbn in E2. injection E2 as E2.
  apply (f_equal fqName) in E. unfold queue_desc, fq in E. cbn [fqName join] in E. do 4 apply app_inv_head in E.
  split_and!; [by apply fmt_d_inj|by apply fmt_d_inj|done].
Qed.

(** What the registry holds while the queues [qs] are still to come. *)
Definition without (qs : list (Z * Z)) (old : list desc) : Prop :=
  forall d, d ∈ old -> not_rxq d \/ exists p q n m, ((p, q) ∉ qs) /\ m ∈ rxq_metrics /\ d = queue_desc p q n m.

Lemma queue_descs_register name q qs old : without (q :: qs) old -> can_register old (queue_descs name q).
Proof.
  intros O. unfold queue_descs. split.
  - apply NoDup_fmap_2_strong; [|apply (bool_decide_unpack _); vm_compute; exact I].
    intros n m _ _ E. by apply queue_desc_inj in E as (_ & _ & ->).
  - intros d Hd Ho. apply list_elem_of_fmap in Hd as (m & -> & Hm). destruct (O _ Ho) as [F|(p & k & n & m' & Nq & _ & E)]; [by apply (F m Hm)|].
    apply queue_desc_inj in E as (E1 & E2 & _). apply Nq. rewrite <- E1, <- E2. destruct q. constructor.
  - intros d d' Hd Hd' E. apply list_elem_of_fmap in Hd as (m & -> & Hm). apply elem_of_app in Hd' as [Ho|Hn].
    + destruct (O _ Ho) as [F|(p & k & n & m' & _ & _ & ->)]; [by apply F in E|done].
    + by apply list_elem_of_fmap in Hn as (m' & -> & _).
Qed.

(** The counters that [lcore] got. *)
Definition slot (q : counter * counter) : QueueCounter := (Some (fst q), Some (snd q)).

Lemma getLcoresCounter_slots (lcore : Z) (x : option QueueCounter) l : 0 <= lcore ->
  let l' := <[Z.to_nat lcore := x]> (getLcoresCounter lcore l) in
  l' !! Z.to_nat lcore = Some x /\ forall k, k <> Z.to_nat lcore -> (k < length l)%nat -> l' !! k = l !! k.
Proof.
  intros Hl. cbv zeta. unfold getLcoresCounter.
  set (l1 := if 0 <? lcore - Z.of_nat (length l) + 1 then _ else l).
  assert (L1 : (Z.to_nat lcore < length l1)%nat /\ forall k, (k < length l)%nat -> l1 !! k = l !! k).
  { unfold l1. destruct (Z.ltb_spec 0 (lcore - Z.of_nat (length l) + 1)); [|split; [lia|done]].
    split; [rewrite length_app, length_replicate; lia|]. intros k Hk. by rewrite lookup_app_l. }
  destruct L1 as [L1 L2]. split.
  - rewrite list_lookup_insert_eq; [done|]. by rewrite length_insert.
  - intros k Nk Hk. rewrite !list_lookup_insert_ne by done. by apply L2.
Qed.

Lemma Register_run name (w : Z * (Z * Z)) qs r lcores : port_name (fst (snd w)) = inr (name (fst (snd w))) -> without (snd w :: qs) (registered r) ->
  exists r', Register port_name (fst w) (fst (snd w)) (snd (snd w)) (r, lcores) =
      Some (queue_counters name (snd w), (r', <[Z.to_nat (fst w) := Some (slot (queue_counters name (snd w)))]> (getLcoresCounter (fst w) lcores))) /\
    registered r' = registered r ++ queue_descs name (snd w).
Proof.
  destruct w as [lc q]. cbn [fst snd]. intros Nm W. unfold Register. rewrite Nm. pose proof (queue_descs_register name q qs _ W) as C.
  unfold queue_descs, rxq_metrics in C. cbn [map] in C. apply can_register_cons in C as (N1 & L1 & C).
  destruct (must_register_run _ r N1 L1) as (r1 & E1 & R1). rewrite <- R1 in C.
  apply can_register_cons in C as (N2 & L2 & _). destruct (must_register_run _ r1 N2 L2) as (r2 & E2 & R2).
  assert (F1 : queue_newCounter (fst q) (snd q) (name (fst q)) (str "rx_packets"%string) r = Some (fst (queue_counters name q), r1))
    by (unfold queue_newCounter; by rewrite (bind_some _ _ _ _ _ E1)).
  assert (F2 : queue_newCounter (fst q) (snd q) (name (fst q)) (str "rx_bytes"%string) r1 = Some (snd (queue_counters name q), r2))
    by (unfold queue_newCounter; by rewrite (bind_some _ _ _ _ _ E2)).
  rewrite (bind_some _ _ _ _ _ F1), (bind_some _ _ _ _ _ F2).
  exists r2. split; [done|]. by rewrite R2, R1, <- app_assoc.
Qed.

Lemma Registers_run name (ws : list (Z * (Z * Z))) : forall r lcores, (forall w, w ∈ ws -> port_name (fst (snd w)) = inr (name (fst (snd w)))) ->
  NoDup (map snd ws) -> without (map snd ws) (registered r) ->
  exists r' lcores', mapM_ (fun w => Register port_name (fst w) (fst (snd w)) (snd (snd w))) ws (r, lcores) =
      Some (map (fun w => queue_counters name (snd w)) ws, (r', lcores')) /\
    registered r' = registered r ++ concat (map (fun w => queue_descs name (snd w)) ws) /\
    (NoDup (map fst ws) -> (forall w, w ∈ ws -> 0 <= fst w) ->
       (forall w, w ∈ ws -> lcores' !! Z.to_nat (fst w) = Some (Some (slot (queue_counters name (snd w))))) /\
       forall k, (k < length lcores)%nat -> (forall w, w ∈ ws -> Z.to_nat (fst w) <> k) -> lcores' !! k = lcores !! k).
Proof.
  induction ws as [|w ws IH]; intros r lcores Nm ND W; cbn [mapM_ map concat].
  { exists r, lcores. rewrite app_nil_r. split_and!; [done|done|]. intros _ _. split; [|done]. intros w Hw. by apply not_elem_of_nil in Hw. }
  apply NoDup_cons in ND as [Nq ND]. destruct (Register_run name w (map snd ws) r lcores) as (r1 & E1 & R1); [apply Nm; constructor|done|].
  rewrite (bind_some _ _ _ _ _ E1). set (lc1 := <[Z.to_nat (fst w) := _]> _). destruct (IH r1 lc1) as (r2 & lc2 & E2 & R2 & S2); [intros k Hk; apply Nm; by constructor|done| |].
  - intros d Hd. rewrite R1 in Hd. apply elem_of_app in Hd as [Hd|Hd].
    + destruct (W d Hd) as [|(p & k & n & m & Nk & Q)]; [by left|]. right. exists p, k, n, m. split; [|done]. intros Hin. apply Nk. by constructor.
    + right. apply list_elem_of_fmap in Hd as (m & -> & Hm). exists (fst (snd w)), (snd (snd w)), (name (fst (snd w))), m. by destruct (snd w).
  - rewrite (bind_some _ _ _ _ _ E2). exists r2, lc2. split; [done|]. split; [by rewrite R2, R1, <- app_assoc|].
    intros NDf Pos. apply NoDup_cons in NDf as [Nf NDf]. destruct (S2 NDf) as [Sa Sb]; [intros k Hk; apply Pos; by constructor|].
    destruct (getLcoresCounter_slots (fst w) (Some (slot (queue_counters name (snd w)))) lcores) as [G1 G2]; [apply Pos; constructor|].
    fold lc1 in G1, G2.
    assert (Far : forall w', w' ∈ ws -> Z.to_nat (fst w') <> Z.to_nat (fst w)).
    { intros w' Hw' E. apply Nf. apply list_elem_of_fmap. exists w'. split; [|done].
      assert (0 <= fst w) by (apply Pos; constructor). assert (0 <= fst w') by (apply Pos; by constructor). lia. }
    split.
    + intros w' Hw'. apply elem_of_cons in Hw' as [->|Hw']; [|by apply Sa]. rewrite Sb; [done|by eapply lookup_lt_Some|exact Far].
    + intros k Hk Fk. assert (Nk : k <> Z.to_nat (fst w)) by (intros ->; eapply Fk; [constructor|done]).
      pose proof (G2 k Nk Hk) as Gk. destruct (lookup_lt_is_Some_2 lcores k Hk) as [x Hx].
      rewrite Sb; [done| |].
      * apply (lookup_lt_Some _ _ x). by rewrite Gk.
      * intros w' Hw'. apply Fk. by constructor.
Qed.
End Queues.

(** ** Starting the lcores *)

Section Main.
Context {V P : Type}.
Variable PanicAsErr : bool.
(** The function of an lcore for its queue, on [ctx.Value]. *)
Variable LcoreFunc : PortQueue -> V -> V * option P.

Definition lcore_job (retCh : nat) (pq : PortQueue) : @lcoreJob V P := mkJob (User (LcoreFunc pq)) (Some retCh).
Definition submission (retCh : nat) (w : Z * PortQueue) : @event V P := Submit (fst w) (lcore_job retCh (snd w)).

(** The jobs are sent in the order in which Go visits the table; the channel has
    room for a result of each. An empty table has no channel to model. *)
(* go: app/test-sniffer/main.go 38-42 main *)
Definition main_jobs (retCh : nat) (order : list (Z * PortQueue)) : list (@event V P) :=
  match order with
  | [] => []
  | _ => Make retCh (length order) :: map (submission retCh) order
  end.

(** The submissions of a run. *)
Definition submissions (evs : list (@event V P)) : list (@event V P) := List.filter is_submit evs.

Lemma submitted_submissions id evs : submitted id evs = submitted id (submissions evs).
Proof.
  unfold submitted, submissions. induction evs as [|ev evs IH]; [done|]. destruct ev as [i j|i|c|c n]; cbn; try exact IH.
  destruct (i =? id); [f_equal|]; exact IH.
Qed.
Lemma ask_submissions c evs : count (is_ask c) evs = count (is_ask c) (submissions evs).
Proof.
  unfold count, submissions. induction evs as [|ev evs IH]; [done|]. destruct ev as [i j|i|k|k n]; cbn; try exact IH.
  destruct (asks c j); cbn; [f_equal|]; exact IH.
Qed.

(** The jobs among these submissions, for an lcore and for the channel. *)
Lemma submitted_map id c l : NoDup (map fst l) -> submitted id (map (submission c) l) = match (list_to_map l : gmap Z PortQueue) !! id with
                                                                       | Some pq => [lcore_job c pq] | None => [] end.
Proof.
  unfold submitted. induction l as [|[lc pq] l IH]; intros ND; [done|]. cbn [map] in ND. apply NoDup_cons in ND as [N ND].
  cbn [map omap list_omap submission fst snd list_to_map foldr uncurry]. destruct (Z.eqb_spec lc id) as [->|Ne].
  - rewrite lookup_insert_eq. f_equal. change (submitted id (map (submission c) l) = []). unfold submitted. rewrite IH by done.
    destruct (list_to_map l !! id) eqn:L; [|done]. apply elem_of_list_to_map_2 in L. exfalso. apply N.
    apply list_elem_of_fmap. by exists (id, p).
  - rewrite lookup_insert_ne by done. by apply IH.
Qed.
Lemma asks_map c l : count (is_ask c) (map (submission c) l) = length l.
Proof.
  unfold count. induction l as [|w l IH]; [done|]. cbn. unfold asks at 1. cbn. rewrite bool_decide_eq_true_2 by done. cbn. by f_equal.
Qed.

Variable ids : list Z.
Variable v0 : V.
Variable order : list (Z * PortQueue).
Variable c : nat.
Hypothesis keys : NoDup (map fst order).

(** A run in which [main] has sent the jobs [started] so far. *)
Record starting (started : list (Z * PortQueue)) (evs : list (@event V P)) (s : @ealConfig V P) : Prop := {
  st_prefix : started `prefix_of` order;
  st_make : exists evs', evs = Make c (length order) :: evs';
  st_sent : submissions evs = map (submission c) started;
  st_run : run PanicAsErr (ealLaunch ids v0) evs = Some s;
  st_live : crashed s = false
}.

Lemma started_keys started evs s : starting started evs s -> NoDup (map fst started).
Proof. intros [[k Hk] _ _ _ _]. rewrite Hk, map_app in keys. by apply NoDup_app in keys as (? & _ & _). Qed.

Lemma started_submitted started evs s id : starting started evs s ->
  submitted id evs = match (list_to_map started : gmap Z PortQueue) !! id with Some pq => [lcore_job c pq] | None => [] end.
Proof. intros S. rewrite submitted_submissions, (st_sent _ _ _ S). by eapply submitted_map, started_keys. Qed.

(** The next job finds an empty queue. *)
Lemma next_accepted started evs s lc pq rest : starting started evs s -> order = started ++ (lc, pq) :: rest -> lc ∈ ids ->
  is_Some (exec PanicAsErr s (submission c (lc, pq))).
Proof.
  intros S E Hlc. destruct (lcore_inv PanicAsErr ids v0 evs s lc (st_run _ _ _ S) (st_live _ _ _ S) Hlc) as (ctx & ran & Hc & _ & Sub).
  rewrite (started_submitted _ _ _ lc S) in Sub. assert (L : (list_to_map started : gmap Z PortQueue) !! lc = None).
  { apply not_elem_of_list_to_map. rewrite E, map_app in keys. apply NoDup_app in keys as (_ & D & _). intros Hin. apply (D lc Hin). constructor. }
  rewrite L in Sub. symmetry in Sub. apply app_nil in Sub as [_ Sub]. apply app_nil in Sub as [_ Sub].
  unfold exec. rewrite (st_live _ _ _ S). cbn [submission]. unfold ExecOnLcoreAsync. cbn [fst]. rewrite Hc, Sub. cbn. eauto.
Qed.

(** A result finds room in the channel. *)
Lemma result_accepted started evs s id ctx j e : starting started evs s -> lcores s !! id = Some ctx -> ph ctx = Replying j e ->
  is_Some (exec PanicAsErr s (Thread id)).
Proof.
  intros S Hc Ph. pose proof (run_dom PanicAsErr ids v0 evs s id (st_run _ _ _ S) ltac:(eauto)) as Hid.
  destruct (lcore_inv PanicAsErr ids v0 evs s id (st_run _ _ _ S) (st_live _ _ _ S) Hid) as (ctx' & ran & Hc' & Sv & Sub).
  rewrite Hc in Hc'. injection Hc' as <-. pose proof (served_pending id v0 ran ctx j e Sv Ph) as Hj.
  assert (Rj : ret_ j = Some c).
  { assert (J : j ∈ submitted id evs) by (rewrite Sub; set_solver). rewrite (started_submitted _ _ _ id S) in J.
    destruct (list_to_map started !! id) as [pq|]; [by apply list_elem_of_singleton in J as ->|by apply elem_of_nil in J]. }
  assert (Cap : exists x, chans s !! c = Some x /\ cap x = length order).
  { destruct (st_make _ _ _ S) as (evs' & E). pose proof (st_run _ _ _ S) as R. rewrite E in R. cbn [run] in R.
    destruct (exec PanicAsErr (ealLaunch ids v0) (Make c (length order))) as [s1|] eqn:X; [|done].
    unfold exec in X. cbn [crashed ealLaunch chans] in X. rewrite lookup_empty in X. destruct (0 <? length order)%nat; [|done]. injection X as <-.
    apply (run_cap PanicAsErr c evs' _ s (mkChan [] (length order)) R). cbn. apply lookup_insert_eq. }
  destruct Cap as (x & Hx & Cx). pose proof (balance PanicAsErr ids v0 evs s c (st_run _ _ _ S) (st_live _ _ _ S)) as B.
  rewrite ask_submissions, (st_sent _ _ _ S), asks_map in B. unfold buffered in B. rewrite Hx in B.
  pose proof (msum_lookup (pend c) (lcores s) id ctx Hc) as Pd.
  assert (P1 : (1 <= pend c ctx)%nat).
  { unfold pend. rewrite Ph. unfold asks at 2. rewrite Rj, bool_decide_eq_true_2 by done. lia. }
  assert (Ls : (length started <= length order)%nat) by (destruct (st_prefix _ _ _ S) as [k ->]; rewrite length_app; lia).
  unfold exec. rewrite (st_live _ _ _ S). unfold lcoreFuncListener. rewrite Hc, Ph, Rj. unfold send. rewrite Hx.
  rewrite (proj2 (Nat.ltb_lt _ _)) by lia. eauto.
Qed.
End Main.

(** C6. The start of the sniffer, from a table that [DistributeQueues] made for all
    worker lcores: whatever the threads do meanwhile, [main] never waits to send
    a job and no thread ever waits to report its result, even if nobody reads the
    results; an lcore has at most one job, for the queue the table gives it; and
    when all are sent, each receive queue of each port is served by exactly one
    worker, on the socket of its port, whose function gets counters of its own
    without a panic, in whatever order the threads ask for them, and the slot of
    its lcore keeps them. That ports have names is assumed. *)
Theorem main_starts V P (PanicAsErr : bool) {R} `{PromRegistryLaws R} (LcoreFunc : PortQueue -> V -> V * option P)
    LcoreToSocket NbRxQueues SocketID name ports workers ids (v0 : V) Work order c started evs s (r : R)
    (Nw : NoDup workers) (Np : NoDup ports) (Nr : forall pid n, NbRxQueues pid = Some n -> 0 <= n < 65536)
    (D : DistributeQueues LcoreToSocket NbRxQueues SocketID ports workers = Done Work)
    (Sub : forall lc, lc ∈ workers -> lc ∈ ids) (O : order ≡ₚ map_to_list Work)
    (S : starting PanicAsErr LcoreFunc ids v0 order c started evs s)
    (Fr : forall d, d ∈ registered r -> not_rxq d) :
  (forall w rest, order = started ++ w :: rest -> is_Some (exec PanicAsErr s (submission LcoreFunc c w))) /\
  (forall id ctx j e, lcores s !! id = Some ctx -> ph ctx = Replying j e -> is_Some (exec PanicAsErr s (Thread id))) /\
  (forall id, submitted id evs = [] \/ exists pq, Work !! id = Some pq /\ submitted id evs = [lcore_job LcoreFunc c pq]) /\
  (started = order -> forall pid i, pid ∈ ports -> 0 <= i < nrx NbRxQueues pid -> exists id,
     id ∈ workers /\ LcoreToSocket id = SocketID pid /\ Work !! id = Some (mkPortQueue pid i 0) /\
     submitted id evs = [lcore_job LcoreFunc c (mkPortQueue pid i 0)] /\
     forall id', Work !! id' = Some (mkPortQueue pid i 0) -> id' = id) /\
  (forall asked lcs, asked ≡ₚ map (fun w => (fst w, (Pid (snd w), RxQid (snd w)))) order -> exists r' lcs',
     mapM_ (fun w => Register (fun p => inr (name p)) (fst w) (fst (snd w)) (snd (snd w))) asked (r, lcs) =
       Some (map (fun w => queue_counters name (snd w)) asked, (r', lcs')) /\
     ((forall id, id ∈ workers -> 0 <= id) -> forall w, w ∈ asked ->
        lcs' !! Z.to_nat (fst w) = Some (Some (slot (queue_counters name (snd w)))))).
Proof.
  destruct (distribute_ok LcoreToSocket NbRxQueues SocketID ports workers Work Nw Nr D) as [Fit T].
  assert (K : NoDup (map fst order)) by (change (NoDup (order.*1)); rewrite O; apply NoDup_fst_map_to_list).
  assert (M : forall id pq, (list_to_map started : gmap Z PortQueue) !! id = Some pq -> Work !! id = Some pq).
  { intros id pq L. apply elem_of_list_to_map_2 in L. apply elem_of_map_to_list. rewrite <- O.
    destruct (st_prefix _ _ _ _ _ _ _ _ _ S) as [k ->]. apply elem_of_app. by left. }
  split_and!.
  - intros [lc pq] rest E. eapply (next_accepted _ _ _ _ order c K started evs s lc pq rest S E). apply Sub.
    assert (W : Work !! lc = Some pq) by (apply elem_of_map_to_list; rewrite <- O, E; set_solver).
    apply T in W as (k & Hk & _). apply list_elem_of_lookup_2 in Hk. by apply list_elem_of_filter in Hk as [_ ?].
  - intros id ctx j e. by apply (result_accepted _ _ _ _ order c K started evs s id ctx j e S).
  - intros id. rewrite (started_submitted _ _ _ _ order c K _ _ _ id S).
    destruct (list_to_map started !! id) as [pq|] eqn:L; [right; exists pq; split; [by apply M|done]|by left].
  - intros -> pid i Hp Hi. destruct (queue_served LcoreToSocket NbRxQueues SocketID workers ports Work pid i Fit T Hp Hi) as (id & Hw & So & W).
    exists id. split_and!; [done|done|done| |].
    + rewrite (started_submitted _ _ _ _ order c K _ _ _ id S).
      assert (L : (list_to_map order : gmap Z PortQueue) !! id = Some (mkPortQueue pid i 0)); [|by rewrite L].
      apply elem_of_list_to_map_1; [done|]. rewrite O. by apply elem_of_map_to_list.
    + intros id' W'. by apply (table_apart LcoreToSocket NbRxQueues SocketID workers ports Work Np T id' id (mkPortQueue pid i 0)).
  - intros asked lcs As. destruct (Registers_run (fun p => inr (name p)) name asked r lcs) as (r' & lcs' & E & _ & Sl); [done| | |].
    + rewrite As, map_map. change (NoDup ((fun w : Z * PortQueue => (Pid (snd w), RxQid (snd w))) <$> order)). rewrite O.
      apply NoDup_fmap_2_strong; [|apply NoDup_map_to_list]. intros [l1 q1] [l2 q2] H1 H2 E. cbn in E.
      apply elem_of_map_to_list in H1, H2. injection E as E1 E2.
      pose proof (table_TxQid _ _ _ _ _ _ T l1 q1 H1) as Q1. pose proof (table_TxQid _ _ _ _ _ _ T l2 q2 H2) as Q2.
      assert (q1 = q2) as -> by congruence. f_equal.
      by apply (table_apart LcoreToSocket NbRxQueues SocketID workers ports Work Np T l1 l2 q2 H1 H2).
    + intros d Hd. left. by apply Fr.
    + exists r', lcs'. split; [done|]. intros Pos w Hw. apply Sl; [| |done].
      * rewrite As, map_map. exact K.
      * intros w' Hw'. apply Pos. rewrite As in Hw'. apply list_elem_of_fmap in Hw' as ([lc pq] & -> & Ho). cbn.
        rewrite O in Ho. apply elem_of_map_to_list in Ho. apply T in Ho as (k & Hk & _).
        apply list_elem_of_lookup_2 in Hk. by apply list_elem_of_filter in Hk as [_ ?].
Qed.

(** Two queues of a port, for workers 2 and 4; the first thread has returned from its
    function, and waits to report, when the second job is sent. *)
Definition sample_order : list (Z * PortQueue) := [(2, mkPortQueue 0 0 0); (4, mkPortQueue 0 1 0)].
Definition sample_func (pq : PortQueue) (v : Z) : Z * option Z := (v + RxQid pq, None).
Definition sample_start : list (@event Z Z) :=
  [Make 9 2; submission sample_func 9 (2, mkPortQueue 0 0 0); Thread 2; Thread 2; submission sample_func 9 (4, mkPortQueue 0 1 0)].

Lemma main_starts_witness :
  exists s, run true (ealLaunch [0; 2; 4] 5) sample_start = Some s /\ is_Some (exec true s (Thread 2)) /\
    (exists id, id ∈ [2; 4] /\ submitted id sample_start = [lcore_job sample_func 9 (mkPortQueue 0 1 0)]) /\
    exists r' lcs', mapM_ (fun w => Register (R := list desc) (fun p => inr (fmt_d p)) (fst w) (fst (snd w)) (snd (snd w))) [(4, (0, 1)); (2, (0, 0))] ([], []) =
      Some (map (fun w => queue_counters fmt_d (snd w)) [(4, (0, 1)); (2, (0, 0))], (r', lcs')) /\
      lcs' !! 4%nat = Some (Some (slot (queue_counters fmt_d (0, 1)))).
Proof.
  assert (R : exists s, run true (ealLaunch [0; 2; 4] 5) sample_start = Some s /\ crashed s = false) by (eexists; split; vm_compute; reflexivity).
  destruct R as (s & R & Cr). exists s. split; [exact R|].
  assert (D : DistributeQueues (fun _ => 0) (fun _ => Some 2) (fun _ => 0) [0] [2; 4] =
    Done (<[4 := mkPortQueue 0 1 0]> {[2 := mkPortQueue 0 0 0]})) by (vm_compute; reflexivity).
  destruct (main_starts Z Z true (R := list desc) sample_func (fun _ => 0) (fun _ => Some 2) (fun _ => 0) fmt_d [0] [2; 4] [0; 2; 4] 5
    (<[4 := mkPortQueue 0 1 0]> {[2 := mkPortQueue 0 0 0]}) sample_order 9 sample_order sample_start s []) as (_ & A & _ & B & C).
  - apply (bool_decide_unpack _). vm_compute. exact I.
  - apply (bool_decide_unpack _). vm_compute. exact I.
  - intros pid n [= <-]. lia.
  - exact D.
  - intros lc H. by apply elem_of_cons; right.
  - rewrite map_to_list_insert by reflexivity. rewrite map_to_list_singleton. apply perm_swap.
  - split; [done|by eexists|reflexivity|exact R|exact Cr].
  - intros d Hd. by apply elem_of_nil in Hd.
  - split_and!.
    + assert (P : exists ctx j e, lcores s !! 2 = Some ctx /\ ph ctx = Replying j e).
      { clear -R. vm_compute in R. injection R as <-. eexists _, _, _. split; vm_compute; reflexivity. }
      destruct P as (ctx & j & e & Hc & Ph). by apply (A 2 ctx j e).
    + destruct (B eq_refl 0 1) as (id & Hid & _ & _ & Sb & _); [set_solver|vm_compute; split; congruence|]. by exists id.
    + destruct (C [(4, (0, 1)); (2, (0, 0))] []) as (r' & lcs' & E & Sl); [apply perm_swap|]. exists r', lcs'. split; [exact E|].
      apply (Sl ltac:(intros id Hid; set_solver by lia) (4, (0, 1))). constructor.
Defined.
