(* ===== verification/Telemetry.v ===== *)
(** * Telemetry of ports and rings

    The counters of link state changes, [src/ethdev/lsc_telemetry.go] with the C
    functions of [lsc_telemetry.h]: a callback that DPDK runs on every interrupt of
    a port, a table of counters, a telemetry handler that shows them. And the
    telemetry of rings, [src/ring/ring_telemetry.go] with [ring_telemetry.h]. What
    DPDK keeps (callbacks, zones, rings, telemetry commands) is in classes and
    arguments. *)

From Stdlib Require Import ZArith Lia String.
From stdpp Require Import base list numbers option gmap.
From S2P Require Import Prelude Text Errno.

Open Scope Z_scope.
Open Scope go_scope.

(** ** Link state changes *)

(** What a callback is registered with: a function, named, and its argument, a
    pointer. [CounterOf p] is [&global_lsc_counters.ports[p].counter]. *)
Inductive callback_fn := LscCallback | OtherCallback (n : Z).
Inductive void_ptr := CounterOf (port : Z) | OtherPtr (a : Z).
#[export] Instance callback_fn_dec : EqDecision callback_fn.
Proof. solve_decision. Defined.
#[export] Instance void_ptr_dec : EqDecision void_ptr.
Proof. solve_decision. Defined.

(** An entry of the list of callbacks of a port: event, function, argument. *)
Definition entry : Type := Z * callback_fn * void_ptr.
Definition fn_of (e : entry) : callback_fn := snd (fst e).

(** The callbacks DPDK keeps for each port. Registering what is there already
    changes nothing, unregistering takes out what was registered with the same
    event, function and argument. *)
Class LscDev (D : Type) := {
  rte_eth_dev_is_valid_port : Z -> bool;
  rte_eth_dev_callback_register : Z -> Z -> callback_fn -> void_ptr -> D -> Z * D;
  rte_eth_dev_callback_unregister : Z -> Z -> callback_fn -> void_ptr -> D -> Z * D;
  callbacks : D -> Z -> list entry
}.
Class LscDevLaws (D : Type) `{LscDev D} := {
  lsc_register : forall p ev f a d, let '(rc, d') := rte_eth_dev_callback_register p ev f a d in
    callbacks d' p = (if (rc =? 0) && negb (bool_decide ((ev, f, a) ∈ callbacks d p)) then callbacks d p ++ [(ev, f, a)] else callbacks d p) /\
    forall q, q <> p -> callbacks d' q = callbacks d q;
  lsc_unregister : forall p ev f a d, let '(rc, d') := rte_eth_dev_callback_unregister p ev f a d in
    callbacks d' p = (if rc =? 0 then filter (.≠ (ev, f, a)) (callbacks d p) else callbacks d p) /\
    forall q, q <> p -> callbacks d' q = callbacks d q
}.

Section Lsc.
Context {D : Type} `{LscDev D}.
Variable E : rte_numbers.
Variable EINVAL ENOENT : Z.
Variable RTE_ETH_EVENT_INTR_LSC : Z.

(** The element of a port: [enabled] and the 64-bit counter; [ports] is the table. *)
(* go: ethdev/lsc_telemetry.h 17-22 lsc_counters *)
Record lsc_counters := mkLsc { dev : D; ports : list (Z * Z) }.

(** A store to an element; [None] is one outside of the table. *)
Definition update (p : Z) (f : Z * Z -> Z * Z) (s : lsc_counters) : option lsc_counters :=
  match ports s !! Z.to_nat p with
  | None => None
  | Some x => Some (mkLsc (dev s) (<[Z.to_nat p := f x]> (ports s)))
  end.
Definition set_enabled (v : Z) (x : Z * Z) : Z * Z := (v, snd x).
(** [rte_atomic64_add] *)
Definition add_counter (n : Z) (x : Z * Z) : Z * Z := (fst x, i64 (snd x + n)).

(** The addition goes through [cb_arg]; through another pointer it is a store to
    memory that is not ours. *)
(* go: ethdev/lsc_telemetry.h 26-36 lsc_counters_callback *)
Definition lsc_counters_callback (port_id event : Z) (cb_arg : void_ptr) (s : lsc_counters) : option (Z * lsc_counters) :=
  match cb_arg with
  | CounterOf p => (pair 0) <$> update p (add_counter (if event =? RTE_ETH_EVENT_INTR_LSC then 1 else 0)) s
  | OtherPtr _ => None
  end.

Definition call_dev (f : D -> Z * D) (s : lsc_counters) : Z * lsc_counters :=
  let '(rc, d) := f (dev s) in (rc, mkLsc d (ports s)).

(* go: ethdev/lsc_telemetry.h 38-49 lsc_counters_callback_register *)
Definition lsc_counters_callback_register (port_id : Z) (s : lsc_counters) : option (Z * lsc_counters) :=
  if negb (rte_eth_dev_is_valid_port port_id) then Some (- EINVAL, s)
  else
    match update port_id (set_enabled 1) s with
    | None => None
    | Some s =>
        let counter := CounterOf port_id in
        Some (call_dev (rte_eth_dev_callback_register port_id RTE_ETH_EVENT_INTR_LSC LscCallback counter) s)
    end.
(* go: ethdev/lsc_telemetry.h 51-62 lsc_counters_callback_unregister *)
Definition lsc_counters_callback_unregister (port_id : Z) (s : lsc_counters) : option (Z * lsc_counters) :=
  if negb (rte_eth_dev_is_valid_port port_id) then Some (- EINVAL, s)
  else
    match update port_id (set_enabled 0) s with
    | None => None
    | Some s =>
        let counter := CounterOf port_id in
        Some (call_dev (rte_eth_dev_callback_unregister port_id RTE_ETH_EVENT_INTR_LSC LscCallback counter) s)
    end.

Definition int_err (r : option (Z * lsc_counters)) : option (option go_error * lsc_counters) :=
  match r with None => None | Some (rc, s) => Some (IntErr E rc, s) end.
(* go: ethdev/lsc_telemetry.go Port.RegisterCallbackLSC *)
Definition RegisterCallbackLSC (p : Z) (s : lsc_counters) := int_err (lsc_counters_callback_register p s).
(* go: ethdev/lsc_telemetry.go Port.UnregisterCallbackLSC *)
Definition UnregisterCallbackLSC (p : Z) (s : lsc_counters) := int_err (lsc_counters_callback_unregister p s).

(** What the handler shows of a port: [enabled] and the counter as unsigned. The
    parameter is the text behind the command, read by [strtoul] as a number and
    what is left; the number is cut to [int] for the table and to 16 bits for
    the check. [None] is a read outside of the table. *)
(* go: ethdev/lsc_telemetry.h 64-88 ethdev_lsc *)
Definition ethdev_lsc (strtoul : list Z -> Z * list Z) (params : option (list Z)) (s : lsc_counters) : option (Z + Z * Z) :=
  match params with
  | None | Some [] => Some (inl (-1))
  | Some t =>
      let '(n, rest) := strtoul t in
      match rest with
      | _ :: _ => Some (inl (-1))
      | [] =>
          let port_id := i32 n in
          if negb (rte_eth_dev_is_valid_port (u16 port_id)) then Some (inl (- ENOENT))
          else if port_id <? 0 then None
          else
            match ports s !! Z.to_nat port_id with
            | None => None
            | Some (enabled, counter) => Some (inr (enabled, u64 counter))
            end
      end
  end.

(** ** Runs *)

(** An event [ev] of DPDK on a port runs the callbacks of the port that are
    registered for it, one after the other; those of others leave the table
    alone. *)
Inductive lsc_event := Reg (p : Z) | Unreg (p : Z) | Interrupt (p ev : Z).

Definition call_callback (p ev : Z) (e : entry) (s : lsc_counters) : option lsc_counters :=
  match e with
  | (event, LscCallback, arg) => if event =? ev then snd <$> lsc_counters_callback p ev arg s else Some s
  | (event, OtherCallback _, arg) => Some s
  end.
Fixpoint run_callbacks (p ev : Z) (l : list entry) (s : lsc_counters) : option lsc_counters :=
  match l with
  | [] => Some s
  | e :: l => match call_callback p ev e s with None => None | Some s => run_callbacks p ev l s end
  end.

Definition lsc_exec (s : lsc_counters) (ev : lsc_event) : option lsc_counters :=
  match ev with
  | Reg p => snd <$> RegisterCallbackLSC p s
  | Unreg p => snd <$> UnregisterCallbackLSC p s
  | Interrupt p ev => run_callbacks p ev (callbacks (dev s) p) s
  end.
Fixpoint lsc_run (s : lsc_counters) (evs : list lsc_event) : option lsc_counters :=
  match evs with [] => Some s | ev :: evs => match lsc_exec s ev with None => None | Some s => lsc_run s evs end end.

(** What one port sees: whether its callback was asked for last; whether it is
    installed, by the answers of DPDK; and the link changes that came while it
    was. *)
Fixpoint asked_for (p : Z) (before : Z) (evs : list lsc_event) : Z :=
  match evs with
  | [] => before
  | Reg q :: evs => asked_for p (if q =? p then 1 else before) evs
  | Unreg q :: evs => asked_for p (if q =? p then 0 else before) evs
  | _ :: evs => asked_for p before evs
  end.
Definition answer_of (d : D) (ev : lsc_event) : Z * D :=
  match ev with
  | Reg p => if rte_eth_dev_is_valid_port p then rte_eth_dev_callback_register p RTE_ETH_EVENT_INTR_LSC LscCallback (CounterOf p) d else (- EINVAL, d)
  | Unreg p => if rte_eth_dev_is_valid_port p then rte_eth_dev_callback_unregister p RTE_ETH_EVENT_INTR_LSC LscCallback (CounterOf p) d else (- EINVAL, d)
  | Interrupt _ _ => (0, d)
  end.
Definition installed_after (p : Z) (before : bool) (d : D) (ev : lsc_event) : bool :=
  match ev with
  | Reg q => if (q =? p) && rte_eth_dev_is_valid_port q && (fst (answer_of d ev) =? 0) then true else before
  | Unreg q => if (q =? p) && rte_eth_dev_is_valid_port q && (fst (answer_of d ev) =? 0) then false else before
  | Interrupt _ _ => before
  end.
Definition link_change (p : Z) (ev : lsc_event) : bool :=
  match ev with Interrupt q e => (q =? p) && (e =? RTE_ETH_EVENT_INTR_LSC) | _ => false end.
Fixpoint changes (p : Z) (inst : bool) (d : D) (evs : list lsc_event) : nat :=
  match evs with
  | [] => 0
  | ev :: evs =>
      ((if inst && link_change p ev then 1 else 0) + changes p (installed_after p inst d ev) (snd (answer_of d ev)) evs)%nat
  end.

Context `{!LscDevLaws D}.
Variable MAX : nat.
(** Ports that DPDK calls valid have an element in the table. *)
Hypothesis valid_max : forall p, rte_eth_dev_is_valid_port p = true -> 0 <= p < Z.of_nat MAX.

(** The entries of [lsc_counters_callback]. *)
Definition ours (d : D) (p : Z) : list entry := filter (fun e => fn_of e = LscCallback) (callbacks d p).
Definition the_entry (p : Z) : entry := (RTE_ETH_EVENT_INTR_LSC, LscCallback, CounterOf p).
Definition entries (inst : bool) (p : Z) : list entry := if inst then [the_entry p] else [].

(** Each port has our callback at most once, with its own counter, and only a
    valid port has it. *)
Record lsc_inv (inst : Z -> bool) (s : lsc_counters) : Prop := {
  li_table : length (ports s) = MAX;
  li_ours : forall q, ours (dev s) q = entries (inst q) q;
  li_valid : forall q, inst q = true -> rte_eth_dev_is_valid_port q = true
}.

Lemma update_run p f s : length (ports s) = MAX -> rte_eth_dev_is_valid_port p = true ->
  exists x, ports s !! Z.to_nat p = Some x /\ update p f s = Some (mkLsc (dev s) (<[Z.to_nat p := f x]> (ports s))).
Proof.
  intros T V. apply valid_max in V. destruct (lookup_lt_is_Some_2 (ports s) (Z.to_nat p) ltac:(lia)) as [x Hx].
  exists x. unfold update. by rewrite Hx.
Qed.

(** The element of [p] after a change of the element of [q]. *)
Lemma insert_at p q (f : Z * Z -> Z * Z) (l : list (Z * Z)) x y : 0 <= p -> 0 <= q -> l !! Z.to_nat q = Some x -> l !! Z.to_nat p = Some y ->
  <[Z.to_nat q := f x]> l !! Z.to_nat p = Some (if q =? p then f y else y).
Proof.
  intros Hp Hq Hx Hy. destruct (Z.eqb_spec q p) as [->|N].
  - rewrite Hx in Hy. injection Hy as <-. apply list_lookup_insert_eq. by eapply lookup_lt_Some.
  - rewrite list_lookup_insert_ne by lia. done.
Qed.

(** Only our entries touch the table. *)
Lemma run_callbacks_ours p ev l s :
  run_callbacks p ev l s = run_callbacks p ev (filter (fun e => fn_of e = LscCallback) l) s.
Proof.
  revert s. induction l as [|[[e f] a] l IH]; intros s; [done|]. rewrite filter_cons. cbn [run_callbacks].
  destruct f as [|n]; cbn [fn_of fst snd].
  - rewrite decide_True by done. cbn [run_callbacks]. by destruct (call_callback _ _ _ _).
  - rewrite decide_False by done. cbn. apply IH.
Qed.

Lemma run_entries inst p ev s : lsc_inv inst s ->
  run_callbacks p ev (callbacks (dev s) p) s =
    if inst p && (ev =? RTE_ETH_EVENT_INTR_LSC) then update p (add_counter 1) s else Some s.
Proof.
  intros I. rewrite run_callbacks_ours. fold (ours (dev s) p). rewrite (li_ours _ _ I). unfold entries.
  destruct (inst p) eqn:Ip; [|done]. cbn. rewrite (Z.eqb_sym ev). destruct (Z.eqb_spec RTE_ETH_EVENT_INTR_LSC ev) as [<-|]; [|done].
  destruct (update_run p (add_counter 1) s (li_table _ _ I) (li_valid _ _ I p Ip)) as (x & _ & ->). done.
Qed.

Lemma filter_swap (P Q : entry -> Prop) `{!forall e, Decision (P e)} `{!forall e, Decision (Q e)} (l : list entry) :
  filter P (filter Q l) = filter Q (filter P l).
Proof. rewrite !list_filter_filter. apply list_filter_iff. naive_solver. Qed.

(** Our entries after a registration and after its end. *)
Lemma ours_register p d rc d' inst :
  rte_eth_dev_callback_register p RTE_ETH_EVENT_INTR_LSC LscCallback (CounterOf p) d = (rc, d') ->
  (forall q, ours d q = entries (inst q) q) ->
  forall q, ours d' q = entries (if (p =? q) && (rc =? 0) then true else inst q) q.
Proof.
  intros Er I q. pose proof (lsc_register p RTE_ETH_EVENT_INTR_LSC LscCallback (CounterOf p) d) as L. rewrite Er in L. destruct L as [L1 L2].
  unfold ours in *. destruct (Z.eqb_spec p q) as [<-|N]; [|rewrite L2 by done; apply I].
  rewrite L1. clear L1 L2. specialize (I p). cbn [andb]. destruct (rc =? 0); cbn [andb]; [|done]. case_bool_decide as B; cbn [negb].
  - assert (M : the_entry p ∈ filter (fun e => fn_of e = LscCallback) (callbacks d p)) by (apply list_elem_of_filter; done).
    rewrite I in M |- *. destruct (inst p); [done|]. cbn in M. by apply not_elem_of_nil in M.
  - rewrite filter_app, I. destruct (inst p); [|done]. exfalso. apply B.
    assert (M : the_entry p ∈ filter (fun e => fn_of e = LscCallback) (callbacks d p)) by (rewrite I; by left).
    by apply list_elem_of_filter in M as [_ M].
Qed.
Lemma ours_unregister p d rc d' inst :
  rte_eth_dev_callback_unregister p RTE_ETH_EVENT_INTR_LSC LscCallback (CounterOf p) d = (rc, d') ->
  (forall q, ours d q = entries (inst q) q) ->
  forall q, ours d' q = entries (if (p =? q) && (rc =? 0) then false else inst q) q.
Proof.
  intros Er I q. pose proof (lsc_unregister p RTE_ETH_EVENT_INTR_LSC LscCallback (CounterOf p) d) as L. rewrite Er in L. destruct L as [L1 L2].
  unfold ours in *. destruct (Z.eqb_spec p q) as [<-|N]; [|rewrite L2 by done; apply I].
  rewrite L1. clear L1 L2. specialize (I p). cbn [andb]. destruct (rc =? 0); [|done].
  rewrite filter_swap, I. unfold entries. destruct (inst p); [|done].
  rewrite filter_cons, decide_False by (intros N; by apply N). done.
Qed.

Lemma lsc_step s inst ev p en cnt : lsc_inv inst s -> rte_eth_dev_is_valid_port p = true -> ports s !! Z.to_nat p = Some (en, cnt) ->
  exists s', lsc_exec s ev = Some s' /\ lsc_inv (fun q => installed_after q (inst q) (dev s) ev) s' /\ dev s' = snd (answer_of (dev s) ev) /\
    ports s' !! Z.to_nat p = Some (asked_for p en [ev], if inst p && link_change p ev then i64 (cnt + 1) else cnt).
Proof.
  intros I V Hp. pose proof (valid_max p V) as Rp. destruct ev as [q|q|q ev].
  3: { cbn [lsc_exec asked_for answer_of snd link_change installed_after]. rewrite (run_entries inst q ev s I).
    destruct (inst q && (ev =? RTE_ETH_EVENT_INTR_LSC)) eqn:C.
    - apply andb_prop in C as [Iq ->]. pose proof (li_valid _ _ I q Iq) as Vq. pose proof (valid_max q Vq) as Rq.
      destruct (update_run q (add_counter 1) s (li_table _ _ I) Vq) as (x & Hx & ->).
      eexists. split; [done|]. split_and!; [split; cbn; [rewrite length_insert|..]; apply I|done|].
      cbn. rewrite (insert_at p q (add_counter 1) (ports s) x (en, cnt)) by (done || lia).
      destruct (Z.eqb_spec q p) as [->|]; [by rewrite Iq|by rewrite andb_false_r].
    - exists s. split_and!; [done|by destruct I|done|]. destruct (Z.eqb_spec q p) as [->|]; [cbn [andb]; by rewrite C|by rewrite andb_false_r]. }
  1,2: cbn [lsc_exec asked_for answer_of link_change installed_after]; rewrite andb_false_r;
    unfold RegisterCallbackLSC, UnregisterCallbackLSC, int_err, lsc_counters_callback_register, lsc_counters_callback_unregister;
    destruct (rte_eth_dev_is_valid_port q) eqn:Vq; cbn [negb];
    [pose proof (valid_max q Vq) as Rq; destruct (update_run q (set_enabled 1) s (li_table _ _ I) Vq) as (x & Hx & U1);
     destruct (update_run q (set_enabled 0) s (li_table _ _ I) Vq) as (x' & Hx' & U0);
     rewrite Hx in Hx'; injection Hx' as <-; rewrite ?U1, ?U0; unfold call_dev; cbn [dev ports]|].
  2,4: exists s; split; [done|]; split_and!; [|done|destruct (Z.eqb_spec q p) as [->|]; [congruence|done]];
    split; [apply I|intros k; rewrite andb_false_r; apply I|intros k; rewrite andb_false_r; apply I].
  - destruct (rte_eth_dev_callback_register q RTE_ETH_EVENT_INTR_LSC LscCallback (CounterOf q) (dev s)) as [rc d] eqn:Er. cbn [fst snd].
    eexists. split; [done|]. split_and!; [split; cbn|done|].
    + rewrite length_insert. apply I.
    + intros k. rewrite andb_true_r. by apply (ours_register q (dev s) rc d inst Er), I.
    + intros k. destruct (Z.eqb_spec q k) as [<-|]; [done|apply I].
    + cbn. rewrite (insert_at p q (set_enabled 1) (ports s) x (en, cnt)) by (done || lia). by destruct (q =? p).
  - destruct (rte_eth_dev_callback_unregister q RTE_ETH_EVENT_INTR_LSC LscCallback (CounterOf q) (dev s)) as [rc d] eqn:Er. cbn [fst snd].
    eexists. split; [done|]. split_and!; [split; cbn|done|].
    + rewrite length_insert. apply I.
    + intros k. rewrite andb_true_r. by apply (ours_unregister q (dev s) rc d inst Er), I.
    + intros k. destruct (Z.eqb_spec q k) as [<-|]; [done|apply I].
    + cbn. rewrite (insert_at p q (set_enabled 0) (ports s) x (en, cnt)) by (done || lia). by destruct (q =? p).
Qed.

Lemma i64_add a b : i64 (i64 a + b) = i64 (a + b).
Proof. unfold i64. zlia. Qed.

Lemma lsc_runs evs : forall s inst p en cnt, lsc_inv inst s -> rte_eth_dev_is_valid_port p = true -> ports s !! Z.to_nat p = Some (en, i64 cnt) ->
  exists s', lsc_run s evs = Some s' /\ ports s' !! Z.to_nat p = Some (asked_for p en evs, i64 (cnt + Z.of_nat (changes p (inst p) (dev s) evs))).
Proof.
  induction evs as [|ev evs IH]; intros s inst p en cnt I V Hp; cbn [lsc_run changes]; [exists s; by rewrite Z.add_0_r|].
  destruct (lsc_step s inst ev p en (i64 cnt) I V Hp) as (s1 & E1 & I1 & D1 & H1). rewrite E1.
  assert (A : asked_for p en (ev :: evs) = asked_for p (asked_for p en [ev]) evs) by (by destruct ev).
  rewrite A, <- D1. destruct (inst p && link_change p ev).
  - rewrite i64_add in H1. destruct (IH s1 _ p _ (cnt + 1) I1 V H1) as (s' & R & F). exists s'. split; [done|]. rewrite F. do 3 f_equal. lia.
  - destruct (IH s1 _ p _ cnt I1 V H1) as (s' & R & F). exists s'. split; [done|]. rewrite F. do 3 f_equal.
Qed.

Lemma lsc_total evs : forall s inst, lsc_inv inst s -> exists s' inst', lsc_run s evs = Some s' /\ lsc_inv inst' s'.
Proof.
  induction evs as [|ev evs IH]; intros s inst I; cbn [lsc_run]; [by exists s, inst|].
  assert (X : exists s1 i1, lsc_exec s ev = Some s1 /\ lsc_inv i1 s1); [|destruct X as (s1 & i1 & -> & I1); by eapply IH].
  assert (V : forall q, rte_eth_dev_is_valid_port q = true -> exists s1 i1, lsc_exec s ev = Some s1 /\ lsc_inv i1 s1).
  { intros q Vq. destruct (update_run q id s (li_table _ _ I) Vq) as ([en c] & Hx & _).
    destruct (lsc_step s inst ev q en c I Vq Hx) as (s1 & E1 & I1 & _). eauto. }
  destruct ev as [q|q|q ev]; cbn [lsc_exec] in *.
  1,2: destruct (rte_eth_dev_is_valid_port q) eqn:Vq; [by apply (V q)|];
    unfold RegisterCallbackLSC, UnregisterCallbackLSC, int_err, lsc_counters_callback_register, lsc_counters_callback_unregister; rewrite Vq; cbn; eauto.
  destruct (inst q) eqn:In; [apply (V q), (li_valid _ _ I q In)|]. rewrite (run_entries inst q ev s I), In. eauto.
Qed.
End Lsc.
Arguments lsc_counters : clear implicits.

(** C33. From a table of zeros and a device without our callback, whatever callbacks
    are installed and removed and whatever events DPDK raises on its ports: no
    store leaves the table, the counter of a port is the number of link changes of
    that port that came while its callback was installed (other events, and those
    of other ports, do not count), in 64 bits, and [enabled] is whether the
    callback was asked for last, even when DPDK refused it. That valid ports have
    an element in the table is DPDK's; a number in a request that is cut to a
    valid port when it is checked, and is beyond the table, makes the handler read
    outside of it. *)
Theorem lsc_counts {D} `{LscDevLaws D} E EINVAL ENOENT LSC MAX d evs strtoul t n
    (Vm : forall p, rte_eth_dev_is_valid_port p = true -> 0 <= p < Z.of_nat MAX) (Hmax : Z.of_nat MAX < 65536)
    (D0 : forall p e, e ∈ callbacks d p -> fn_of e <> LscCallback) (Ht : t <> []) (Hn : strtoul t = (n, [])) (Rn : 0 <= n < 2 ^ 32) :
  exists s, lsc_run E EINVAL LSC (mkLsc d (replicate MAX (0, 0))) evs = Some s /\
    (forall p, rte_eth_dev_is_valid_port p = true ->
       ports s !! Z.to_nat p = Some (asked_for p 0 evs, i64 (Z.of_nat (changes EINVAL LSC p false d evs)))) /\
    (rte_eth_dev_is_valid_port n = true -> Z.of_nat (changes EINVAL LSC n false d evs) < 2 ^ 63 ->
       ethdev_lsc ENOENT strtoul (Some t) s = Some (inr (asked_for n 0 evs, Z.of_nat (changes EINVAL LSC n false d evs)))) /\
    (Z.of_nat MAX <= n -> rte_eth_dev_is_valid_port (n mod 65536) = true -> ethdev_lsc ENOENT strtoul (Some t) s = None).
Proof.
  assert (I : lsc_inv LSC MAX (fun _ => false) (mkLsc d (replicate MAX (0, 0)))).
  { split; cbn; [apply length_replicate| |done]. intros q. unfold ours. destruct (filter _ (callbacks d q)) as [|e l] eqn:Fe; [done|].
    assert (M : e ∈ filter (fun e => fn_of e = LscCallback) (callbacks d q)) by (rewrite Fe; by left).
    apply list_elem_of_filter in M as [Mf Mi]. by destruct (D0 q e Mi). }
  assert (Rd : forall p, rte_eth_dev_is_valid_port p = true -> exists s, lsc_run E EINVAL LSC (mkLsc d (replicate MAX (0, 0))) evs = Some s /\
      ports s !! Z.to_nat p = Some (asked_for p 0 evs, i64 (Z.of_nat (changes EINVAL LSC p false d evs)))).
  { intros p V. destruct (lsc_runs E EINVAL LSC MAX Vm evs _ _ p 0 0 I V) as (s & R & P); [|by exists s].
    cbn. apply lookup_replicate_2. apply Vm in V. lia. }
  destruct (lsc_total E EINVAL LSC MAX Vm evs _ _ I) as (s & i & R & Is). exists s. split; [done|]. split; [|split].
  - intros p V. destruct (Rd p V) as (s' & R' & P). rewrite R in R'. by injection R' as <-.
  - intros V C. destruct (Rd n V) as (s' & R' & P). rewrite R in R'. injection R' as <-. pose proof (Vm n V).
    unfold ethdev_lsc. destruct t as [|a t]; [done|]. rewrite Hn. assert (Ei : i32 n = n) by (unfold i32; zlia). rewrite Ei, (u16_small n), V by lia. cbn [negb].
    rewrite (proj2 (Z.ltb_ge n 0)), P by lia. rewrite i64_small, u64_small by lia. done.
  - intros L V. unfold ethdev_lsc. destruct t as [|a t]; [done|]. rewrite Hn.
    assert (Ec : u16 (i32 n) = n mod 65536) by (unfold u16, i32; zlia). rewrite Ec, V. cbn [negb].
    destruct (Z.ltb_spec (i32 n) 0) as [N|N]; [done|].
    assert (Ei : i32 n = n) by (unfold i32 in *; zlia). rewrite Ei.
    rewrite (proj2 (lookup_ge_None (ports s) (Z.to_nat n))); [done|]. rewrite (li_table _ _ _ _ Is). lia.
Qed.

(** DPDK with two ports; on port 1 no callback can be installed. *)
#[local] Instance two_ports : LscDev (Z -> list entry) := {
  rte_eth_dev_is_valid_port p := (0 <=? p) && (p <? 2);
  rte_eth_dev_callback_register p ev f a d :=
    if p =? 1 then (-12, d)
    else (0, fun q => if (q =? p) && negb (bool_decide ((ev, f, a) ∈ d p)) then d q ++ [(ev, f, a)] else d q);
  rte_eth_dev_callback_unregister p ev f a d := (0, fun q => if q =? p then filter (.≠ (ev, f, a)) (d q) else d q);
  callbacks d p := d p
}.
#[local] Instance two_ports_laws : LscDevLaws (Z -> list entry).
Proof.
  split; intros p ev f a d; cbn.
  - destruct (p =? 1); cbn; [done|]. rewrite Z.eqb_refl. split; [done|]. intros q N. by rewrite (proj2 (Z.eqb_neq q p)).
  - rewrite Z.eqb_refl. split; [done|]. intros q N. by rewrite (proj2 (Z.eqb_neq q p)).
Qed.

Lemma lsc_counts_witness :
  let evs := [Interrupt 0 3; Reg 0; Reg 1; Interrupt 0 3; Interrupt 1 3; Interrupt 0 1; Reg 0; Interrupt 0 3; Unreg 0; Interrupt 0 3] in
  let d p := if p =? 0 then [(3, OtherCallback 7, OtherPtr 4096)] else [] in
  exists s, lsc_run (D := Z -> list entry) (mkRteNumbers 1002 1001 1003 1000) 22 3 (mkLsc d (replicate 32 (0, 0))) evs = Some s /\
    ports s !! 0%nat = Some (0, 2) /\ ports s !! 1%nat = Some (1, 0) /\
    ethdev_lsc (D := Z -> list entry) 2 (fun _ => (65536, [])) (Some (str "65536"%string)) s = None.
Proof.
  intros evs d.
  destruct (lsc_counts (D := Z -> list entry) (mkRteNumbers 1002 1001 1003 1000) 22 2 3 32 d evs (fun _ => (65536, [])) (str "65536"%string) 65536)
    as (s & R & P & _ & O).
  - intros p V. cbn in V. lia.
  - lia.
  - intros p e M. cbn in M. unfold d in M. destruct (p =? 0); [|by apply not_elem_of_nil in M].
    apply list_elem_of_singleton in M as ->. done.
  - discriminate.
  - reflexivity.
  - lia.
  - exists s. split; [exact R|]. split; [|split].
    + etransitivity; [exact (P 0 eq_refl)|vm_compute; reflexivity].
    + etransitivity; [exact (P 1 eq_refl)|vm_compute; reflexivity].
    + apply O; [lia|reflexivity].
Defined.

(** ** Rings *)

Section Rings.
Variables EINVAL ENOENT : Z.
Variable RTE_RING_MZ_PREFIX : list Z.

(** What the functions of a ring give. *)
Record ring_data := mkRingData {
  mz_name : list Z; is_cons_single : Z; is_prod_single : Z; prod_sync_type : Z; cons_sync_type : Z; rsize : Z; rcount : Z; rcapacity : Z
}.
Variable rte_ring_lookup : list Z -> option ring_data.

(** [s + len * !strncmp(s, pre, len)] *)
(* go: ring/ring_telemetry.h 15-20 trim_prefix *)
Definition trim_prefix (s pre : list Z) : list Z := if decide (take (length pre) s = pre) then drop (length pre) s else s.

Section Array.
(** The data of an answer; what an array has room for is up to DPDK. *)
Context {A : Type}.
Variable rte_tel_data_start_array : A -> A.
Variable rte_tel_data_add_array_string : list Z -> A -> A.

(* go: ring/ring_telemetry.h 22-31 memzone_reap_rings *)
Definition memzone_reap_rings (mz : list Z) (d : A) : A :=
  let name := trim_prefix mz RTE_RING_MZ_PREFIX in
  match rte_ring_lookup name with Some _ => rte_tel_data_add_array_string name d | None => d end.

(** [rte_memzone_walk] visits the zones in their order. *)
(* go: ring/ring_telemetry.h 33-42 ring_list *)
Definition ring_list (zones : list (list Z)) (d : A) : Z * A :=
  (0, foldl (fun d mz => memzone_reap_rings mz d) (rte_tel_data_start_array d) zones).

Lemma trim_prefix_app pre s : trim_prefix (pre ++ s) pre = s.
Proof. unfold trim_prefix. by rewrite take_app_length, decide_True, drop_app_length by done. Qed.

(** Added are the names that DPDK knows as rings among the names of zones without the
    prefix, in the order of the zones; a ring whose zone is there is among them. *)
Lemma ring_list_names zones d :
  exists names, ring_list zones d = (0, foldl (fun d n => rte_tel_data_add_array_string n d) (rte_tel_data_start_array d) names) /\
    names = omap (fun z => let n := trim_prefix z RTE_RING_MZ_PREFIX in (fun _ => n) <$> rte_ring_lookup n) zones /\
    forall n, RTE_RING_MZ_PREFIX ++ n ∈ zones -> is_Some (rte_ring_lookup n) -> n ∈ names.
Proof.
  eexists. split; [|split; [reflexivity|]].
  - unfold ring_list. f_equal. generalize (rte_tel_data_start_array d).
    induction zones as [|z zones IH]; intros acc; cbn; [done|]. rewrite IH. unfold memzone_reap_rings.
    by destruct (rte_ring_lookup (trim_prefix z RTE_RING_MZ_PREFIX)).
  - intros n Hn [r Hr]. apply list_elem_of_omap. exists (RTE_RING_MZ_PREFIX ++ n). split; [done|].
    cbn. by rewrite trim_prefix_app, Hr.
Qed.
End Array.

Inductive tel_value := TStr (s : list Z) | TInt (z : Z).
(** The dictionary, of a successful call. *)
(* go: ring/ring_telemetry.h 44-69 ring_info *)
Definition ring_info (name : option (list Z)) : Z * list (list Z * tel_value) :=
  match name with
  | None | Some [] => (- EINVAL, [])
  | Some name =>
      match rte_ring_lookup name with
      | None => (- ENOENT, [])
      | Some r => (0, [(str "ring_name"%string, TStr name); (str "ring_mz_name"%string, TStr (mz_name r));
                       (str "ring_is_sc"%string, TInt (is_cons_single r)); (str "ring_is_sp"%string, TInt (is_prod_single r));
                       (str "ring_prod_sync_type"%string, TInt (prod_sync_type r)); (str "ring_cons_sync_type"%string, TInt (cons_sync_type r));
                       (str "ring_size"%string, TInt (rsize r)); (str "ring_count"%string, TInt (rcount r));
                       (str "ring_capacity"%string, TInt (rcapacity r))])
      end
  end.

(** The commands of the program; a call-back is named by its function. *)
Inductive telemetry_cb := ring_list_cb | ring_info_cb | ethdev_lsc_cb.
(* go: ring/ring_telemetry.go cmdDesc *)
Record cmdDesc := mkCmdDesc { cmd : list Z; help : list Z; cb : telemetry_cb }.

Context {T : Type}.
Variable rte_telemetry_register_cmd : list Z -> telemetry_cb -> list Z -> T -> Z * T.

(** The C strings live for the call only. *)
(* go: ring/ring_telemetry.go telemetryRegisterCmd *)
Definition telemetryRegisterCmd (path : list Z) (handler : telemetry_cb) (help : list Z) (t : T) : Z * T :=
  rte_telemetry_register_cmd path handler help t.

Fixpoint register_cmds (desc : list cmdDesc) : M T unit :=
  match desc with
  | [] => ret tt
  | d :: desc => fun t =>
      let '(rc, t) := telemetryRegisterCmd (cmd d) (cb d) (help d) t in
      if negb (rc =? 0) then None else register_cmds desc t
  end.
(* go: ring/ring_telemetry.go TelemetryInit *)
Definition TelemetryInit (prefix : list Z) : M T unit :=
  register_cmds
    [mkCmdDesc (prefix ++ str "/list"%string) (str "Show list of rings. Takes no parameters."%string) ring_list_cb;
     mkCmdDesc (prefix ++ str "/info"%string) (str "Show info on the ring. Param: ring name."%string) ring_info_cb].

(** The result of the registration is dropped. *)
(* go: ethdev/lsc_telemetry.h 90-95 lsc_register_telemetry_cmd *)
Definition lsc_register_telemetry_cmd (name : list Z) (t : T) : T :=
  snd (rte_telemetry_register_cmd name ethdev_lsc_cb (str "Returns LSC counter for specified port id"%string) t).
(* go: ethdev/lsc_telemetry.go RegisterTelemetryLSC *)
Definition RegisterTelemetryLSC (name : list Z) (t : T) : T := lsc_register_telemetry_cmd name t.
End Rings.
