(* ===== verification/EalCalls.v ===== *)
(** * A goroutine that calls functions on lcores

    [ExecOnLcore] or [ExecOnMain] in a row, each with a channel of its own
    ([src/eal/eal.go]), while the threads of all lcores go on in between: the
    calls never hang, they take a bounded number of actions, and between two calls
    all lcores are idle, each with the value that the functions called on it so far
    leave. *)

From Stdlib Require Import ZArith Lia.
From stdpp Require Import base list numbers option gmap.
From S2P Require Import Prelude Errno Eal EalSpec.

Open Scope Z_scope.

Section Calls.
Context {V P : Type}.
Variable PanicAsErr : bool.
Abbreviation state := (@ealConfig V P).
Abbreviation ev_t := (@event V P).
Implicit Types (s : state) (evs : list ev_t) (fs : list (Z * @func V P)).

(** The calls of functions on lcores, on the channels from [c] on, and the jobs of
    them that lcore [id] gets. *)
Fixpoint calls (c : nat) fs : list ev_t :=
  match fs with
  | [] => []
  | (m, f) :: fs => ExecOnLcore c m f ++ calls (S c) fs
  end.
Fixpoint call_jobs (id : Z) (c : nat) fs : list (@lcoreJob V P) :=
  match fs with
  | [] => []
  | (m, f) :: fs => if m =? id then mkJob f (Some c) :: call_jobs id (S c) fs else call_jobs id (S c) fs
  end.

(** The events of the goroutines, without those of the threads. *)
Definition own evs : list ev_t := List.filter (fun ev => negb (is_thread ev)) evs.

Lemma own_snoc evs ev : own (evs ++ [ev]) = own evs ++ if is_thread ev then [] else [ev].
Proof. unfold own. rewrite List.filter_app. cbn. by destruct (is_thread ev). Qed.

(** ** What the events of the threads do not change *)

Lemma submitted_own id evs : submitted id evs = submitted id (own evs).
Proof.
  unfold submitted, own. induction evs as [|ev evs IH]; [done|]. destruct ev as [i j|i|c|c n]; cbn; try exact IH.
  destruct (i =? id); [f_equal|]; exact IH.
Qed.
Lemma count_own f evs : (forall i, f (Thread i) = false) -> count f evs = count f (own evs).
Proof.
  intros F. unfold count, own. induction evs as [|ev evs IH]; [done|].
  destruct ev as [i j|i|c|c n]; cbn; rewrite ?F; try exact IH; destruct (f _); cbn; auto.
Qed.
Lemma ask_own c evs : count (is_ask c) evs = count (is_ask c) (own evs).
Proof. by apply count_own. Qed.
Lemma recv_own c evs : count (is_recv c) evs = count (is_recv c) (own evs).
Proof. by apply count_own. Qed.

(** ** The calls *)

Lemma calls_app c fs gs : calls c (fs ++ gs) = calls c fs ++ calls (c + length fs) gs.
Proof.
  revert c. induction fs as [|[m f] fs IH]; intros c; cbn [calls length app]; [by rewrite Nat.add_0_r|].
  rewrite IH, app_assoc. by replace (S c + length fs)%nat with (c + S (length fs))%nat by lia.
Qed.
Lemma call_jobs_snoc id c fs m f : call_jobs id c (fs ++ [(m, f)]) =
  call_jobs id c fs ++ if m =? id then [mkJob f (Some (c + length fs)%nat)] else [].
Proof.
  revert c. induction fs as [|[n g] fs IH]; intros c; cbn [call_jobs length app]; [by rewrite Nat.add_0_r|].
  rewrite IH. replace (S c + length fs)%nat with (c + S (length fs))%nat by lia. by destruct (n =? id).
Qed.
Lemma submitted_calls id c fs : submitted id (calls c fs) = call_jobs id c fs.
Proof.
  revert c. induction fs as [|[m f] fs IH]; intros c; [done|]. cbn [calls call_jobs]. rewrite submitted_app, IH.
  unfold submitted, ExecOnLcore. cbn. by destruct (m =? id).
Qed.
Lemma call_jobs_at id c fs j : j ∈ call_jobs id c fs -> exists k, (c <= k < c + length fs)%nat /\ ret_ j = Some k /\ fn j ∈ map snd fs.
Proof.
  revert c. induction fs as [|[m f] fs IH]; intros c; cbn [call_jobs length map snd]; [by intros ?%elem_of_nil|].
  assert (Rest : j ∈ call_jobs id (S c) fs -> exists k, (c <= k < c + S (length fs))%nat /\ ret_ j = Some k /\ fn j ∈ f :: map snd fs).
  { intros Hj. destruct (IH (S c) Hj) as (k & Hk & E & F). exists k. split_and!; [lia..|done|by right]. }
  destruct (m =? id); [|exact Rest]. intros [->|Hj]%elem_of_cons; [exists c; split_and!; [lia..|done|constructor]|by apply Rest].
Qed.

(** A channel of a call is asked for once and read once. *)
Definition called (c n k : nat) : nat := if decide (c <= k < c + n)%nat then 1 else 0.
Lemma called_S c n k : called c (S n) k = ((if decide (c = k) then 1 else 0) + called (S c) n k)%nat.
Proof. unfold called. repeat case_decide; lia. Qed.
Lemma count_calls c fs k : count (is_ask k) (calls c fs) = called c (length fs) k /\
  count (is_recv k) (calls c fs) = called c (length fs) k.
Proof.
  revert c. induction fs as [|[m f] fs IH]; intros c; cbn [calls].
  - unfold called. rewrite decide_False by (cbn; lia). done.
  - rewrite !count_app. destruct (IH (S c)) as [-> ->]. cbn [length]. rewrite called_S.
    unfold count, ExecOnLcore. cbn. unfold asks. cbn. case_decide as D.
    + rewrite bool_decide_eq_true_2 by congruence. by rewrite (proj2 (Nat.eqb_eq _ _)).
    + rewrite bool_decide_eq_false_2 by congruence. by rewrite (proj2 (Nat.eqb_neq _ _)).
Qed.

Lemma calls_prefix c fs evs : evs `prefix_of` calls c fs -> evs = calls c fs \/
  exists pre m f post, fs = pre ++ (m, f) :: post /\ (evs = calls c pre \/
    evs = calls c pre ++ [Make (c + length pre)%nat 1] \/
    evs = calls c pre ++ [Make (c + length pre)%nat 1; Submit m (mkJob f (Some (c + length pre)%nat))]).
Proof.
  revert c evs. induction fs as [|[m f] fs IH]; intros c evs Pr; cbn [calls] in *; [left; by apply prefix_nil_inv in Pr|].
  unfold ExecOnLcore in Pr. cbn [app] in Pr. destruct evs as [|e1 evs]; [right; exists [], m, f, fs; split; [done|by left]|].
  apply prefix_cons_inv_1 in Pr as E1. apply prefix_cons_inv_2 in Pr. subst e1.
  destruct evs as [|e2 evs]; [right; exists [], m, f, fs; rewrite Nat.add_0_r; split; [done|right; by left]|].
  apply prefix_cons_inv_1 in Pr as E2. apply prefix_cons_inv_2 in Pr. subst e2.
  destruct evs as [|e3 evs]; [right; exists [], m, f, fs; rewrite Nat.add_0_r; split; [done|right; by right]|].
  apply prefix_cons_inv_1 in Pr as E3. apply prefix_cons_inv_2 in Pr. subst e3.
  destruct (IH (S c) evs Pr) as [->|(pre & n & g & post & -> & Q)]; [by left|]. right. exists ((m, f) :: pre), n, g, post.
  split; [done|]. cbn [calls length ExecOnLcore app]. replace (c + S (length pre))%nat with (S c + length pre)%nat by lia.
  destruct Q as [->|[->| ->]]; auto.
Qed.

(** ** Channels *)

Lemma exec_made c s ev s' : exec PanicAsErr s ev = Some s' -> is_Some (chans s' !! c) ->
  is_Some (chans s !! c) \/ exists n, ev = Make c n.
Proof.
  assert (Snd : forall s s' c' e, send s c' e = Some s' -> is_Some (chans s' !! c) -> is_Some (chans s !! c)).
  { intros s2 s2' c' e H. apply send_inv in H as (y & Hy & _ & ->). cbn. destruct (decide (c' = c)) as [->|N]; [by rewrite Hy|by rewrite lookup_insert_ne]. }
  unfold exec. destruct (crashed s); [done|]. intros E Hs. destruct ev as [i j|i|c'|c' n].
  - left. unfold ExecOnLcoreAsync in E. destruct (lcores s !! i); [destruct (_ <? _)%nat; [|done]; by injection E as <-|].
    destruct (ret_ j); [by eapply Snd|by injection E as <-].
  - left. apply thread_inv in E as (ctx & _ & T). destruct T as [j r _ _|j ctx' e _ _|j _|j e s1 _ R]; try done.
    destruct (ret_ j); [by eapply Snd|by subst].
  - left. destruct (receive s c') as [[e s1]|] eqn:R; [|done]. injection E as <-. apply receive_inv in R as (r & n & Hy & ->).
    cbn in Hs. destruct (decide (c' = c)) as [->|N]; [by rewrite Hy|by rewrite lookup_insert_ne in Hs].
  - destruct (chans s !! c') eqn:Hc; [done|]. destruct (0 <? n)%nat; [|done]. injection E as <-. cbn in Hs.
    destruct (decide (c' = c)) as [->|N]; [right; by exists n|left; by rewrite lookup_insert_ne in Hs].
Qed.

Lemma run_made ids (v0 : V) c evs s : run PanicAsErr (ealLaunch ids v0) evs = Some s -> is_Some (chans s !! c) ->
  exists n, Make c n ∈ evs.
Proof.
  revert s. induction evs as [|ev evs IH] using rev_ind; intros s R Hs; [injection R as <-; by destruct Hs|].
  apply run_snoc in R as (s1 & R1 & E & _). destruct (exec_made c s1 ev s E Hs) as [H1|[n ->]].
  - destruct (IH s1 R1 H1) as [n Hn]. exists n. apply elem_of_app. by left.
  - exists n. apply elem_of_app. right. constructor.
Qed.

Lemma run_cap_made ids (v0 : V) c n evs s : run PanicAsErr (ealLaunch ids v0) evs = Some s -> Make c n ∈ evs ->
  exists x, chans s !! c = Some x /\ cap x = n.
Proof.
  intros R (evs1 & evs2 & ->)%list_elem_of_split. rewrite run_app in R. destruct (run _ _ evs1) as [s0|]; [|done]. cbn in R.
  destruct (exec PanicAsErr s0 (Make c n)) as [s1|] eqn:E; [|done]. unfold exec in E. destruct (crashed s0); [done|].
  destruct (chans s0 !! c); [done|]. destruct (0 <? n)%nat; [|done]. injection E as <-.
  destruct (run_cap PanicAsErr c evs2 _ s (mkChan [] n) R) as (x & Hx & Cx); [apply lookup_insert_eq|]. by exists x.
Qed.

Lemma make_own c n evs : Make c n ∈ evs <-> Make c n ∈ own evs.
Proof.
  unfold own. rewrite !list_elem_of_In, filter_In. split; [intros H; by split|by intros [H _]].
Qed.
Lemma make_calls c fs k n : Make k n ∈ calls c fs -> (c <= k < c + length fs)%nat /\ n = 1%nat.
Proof.
  revert c. induction fs as [|[m f] fs IH]; intros c; cbn [calls length]; [by intros ?%elem_of_nil|].
  unfold ExecOnLcore. cbn [app]. rewrite !elem_of_cons. intros [[= -> ->]|[E|[E|H]]]; try done; [lia|].
  apply IH in H. lia.
Qed.

(** ** The state of the caller's lcore *)

Definition user (f : @func V P) : Prop := match f with User _ => True | StopFn => False end.

Lemma pend_pos k (ctx : @LcoreCtx V P) j : ret_ j = Some k -> j ∈ current ctx ++ ch ctx \/ (exists e, ph ctx = Replying j e) -> (1 <= pend k ctx)%nat.
Proof.
  intros E. assert (A : asks k j = true) by (unfold asks; by apply bool_decide_eq_true_2). unfold pend, current.
  intros [[H|H]%elem_of_app|[e H]].
  - destruct (ph ctx); try by apply elem_of_nil in H. apply list_elem_of_singleton in H as ->. rewrite A. lia.
  - assert (In j (List.filter (asks k) (ch ctx))) as I by (apply filter_In; split; [by apply list_elem_of_In|done]).
    destruct (List.filter (asks k) (ch ctx)); [done|]. cbn. lia.
  - rewrite H, A. lia.
Qed.

(** A channel that no job of the lcore asks is not pending there. *)
Lemma pend_zero k (ctx : @LcoreCtx V P) : (forall j, j ∈ current ctx ++ ch ctx \/ (exists e, ph ctx = Replying j e) -> asks k j = false) -> pend k ctx = 0%nat.
Proof.
  intros H. assert (F : List.filter (asks k) (ch ctx) = []).
  { destruct (List.filter (asks k) (ch ctx)) as [|j r] eqn:E; [done|]. exfalso.
    assert (I : In j (List.filter (asks k) (ch ctx))) by (rewrite E; by left). apply filter_In in I as [I A].
    rewrite (H j) in A; [done|]. left. apply elem_of_app. right. by apply list_elem_of_In. }
  unfold pend. rewrite F. unfold current in H. destruct (ph ctx) as [|j|j e|]; [done| | |done].
  - rewrite (H j); [done|]. left. constructor.
  - rewrite (H j); [done|]. right. by eexists.
Qed.

Section Caller.
Variables (ids : list Z) (v0 : V) (c : nat).
Variables (evs : list ev_t) (s : state).
Hypothesis R : run PanicAsErr (ealLaunch ids v0) evs = Some s.
Hypothesis Cr : crashed s = false.

Abbreviation all_user gs := (Forall user (map snd gs)).

(** A lcore, when all jobs submitted to it are calls of [gs]. *)
Lemma caller_ctx id gs : id ∈ ids -> all_user gs -> submitted id (own evs) = call_jobs id c gs -> exists ctx ran,
  lcores s !! id = Some ctx /\ served id v0 ran ctx /\ call_jobs id c gs = ran ++ current ctx ++ ch ctx /\ ph ctx <> Exited.
Proof.
  intros Hm Ug Eg. destruct (lcore_inv PanicAsErr ids v0 evs s id R Cr Hm) as (ctx & ran & Hc & S & Eq).
  rewrite submitted_own, Eg in Eq. exists ctx, ran. split_and!; [done|done|done|]. intros X.
  destruct S as [_ _ Sp]. rewrite X in Sp. destruct Sp as (pre & j & -> & _ & St).
  assert (J : j ∈ call_jobs id c gs) by (rewrite Eq; apply elem_of_app; left; apply elem_of_app; right; by left).
  apply call_jobs_at in J as (k & _ & _ & F). rewrite Forall_forall in Ug. specialize (Ug _ F).
  unfold is_stop in St. by destruct (fn j).
Qed.

(** A job that a lcore has, or has just run, is one of the calls on it. *)
Lemma held_job id gs ctx ran j : served id v0 ran ctx -> call_jobs id c gs = ran ++ current ctx ++ ch ctx ->
  j ∈ current ctx ++ ch ctx \/ (exists e, ph ctx = Replying j e) -> j ∈ call_jobs id c gs.
Proof.
  intros S -> [H|[e Ph]]; apply elem_of_app; [by right|left; by eapply served_pending].
Qed.

(** Between two calls a lcore is idle and has run all of them; making the channel
    of the next call changes nothing. *)
Lemma caller_idle id gs l : id ∈ ids -> all_user gs -> own evs = calls c gs ++ l -> l = [] \/ (exists k n, l = [Make k n]) -> exists ctx,
  lcores s !! id = Some ctx /\ ph ctx = Idle /\ ch ctx = [] /\ Value ctx = fst (serve id v0 (call_jobs id c gs)).
Proof.
  intros Hid Ug O Hl. assert (L : submitted id l = [] /\ forall k, count (is_ask k) l = 0%nat /\ count (is_recv k) l = 0%nat).
  { by destruct Hl as [->|(k & n & ->)]. }
  destruct L as [L1 L2]. assert (Eg : submitted id (own evs) = call_jobs id c gs) by (by rewrite O, submitted_app, submitted_calls, L1, app_nil_r).
  destruct (caller_ctx id gs Hid Ug Eg) as (ctx & ran & Hc & S & Eq & X). exists ctx.
  assert (Z : forall j, ~ (j ∈ current ctx ++ ch ctx \/ exists e, ph ctx = Replying j e)).
  { intros j Pd. pose proof (held_job id gs ctx ran j S Eq Pd) as Hj. apply call_jobs_at in Hj as (k & Hk & Ej & _). pose proof (pend_pos k ctx j Ej Pd) as P1.
    pose proof (msum_lookup (pend k) (lcores s) id ctx Hc). pose proof (balance PanicAsErr ids v0 evs s k R Cr) as B.
    destruct (count_calls c gs k) as [E1 E2]. destruct (L2 k) as [E3 E4].
    rewrite ask_own, recv_own, O, !count_app, E1, E2, E3, E4 in B. lia. }
  assert (N : current ctx ++ ch ctx = []).
  { destruct (current ctx ++ ch ctx) as [|j r] eqn:E; [done|]. exfalso. apply (Z j). left. constructor. }
  apply app_nil in N as [N1 N2]. rewrite N1, N2, !app_nil_r in Eq. split_and!; [done| |done|by rewrite (sv_value _ _ _ _ S), Eq].
  destruct (ph ctx) as [|j|j e|] eqn:Ph; [done| | |done]; exfalso.
  - unfold current in N1. by rewrite Ph in N1.
  - apply (Z j). right. by eexists.
Qed.

(** While a call waits for lcore [m], what is pending is its job. *)
Section Waiting.
Variables (m : Z) (gs : list (Z * @func V P)) (f : @func V P).
Hypothesis Hm : m ∈ ids.
Hypothesis Ug : all_user (gs ++ [(m, f)]).
Abbreviation k := (c + length gs)%nat.
Hypothesis O : own evs = calls c gs ++ [Make k 1; Submit m (mkJob f (Some k))].

Lemma waiting_submitted id : submitted id (own evs) = call_jobs id c (gs ++ [(m, f)]).
Proof. rewrite O, submitted_app, submitted_calls, call_jobs_snoc. unfold submitted. cbn. by destruct (m =? id). Qed.

Lemma waiting_balance k' : (c <= k' <= k)%nat -> (buffered k' s + msum (pend k') (lcores s) = if decide (k' = k) then 1 else 0)%nat.
Proof.
  intros Hk'. pose proof (balance PanicAsErr ids v0 evs s k' R Cr) as B. rewrite ask_own, recv_own, O, !count_app in B.
  destruct (count_calls c gs k') as [E1 E2]. rewrite E1, E2 in B. unfold count in B. cbn in B. unfold asks in B. cbn in B.
  destruct (decide (k' = k)) as [D|D]; [rewrite bool_decide_eq_true_2 in B by congruence|rewrite bool_decide_eq_false_2 in B by congruence]; cbn in B; lia.
Qed.

Lemma waiting_elsewhere i x : i <> m -> lcores s !! i = Some x -> pend k x = 0%nat.
Proof.
  intros Ni Hi. assert (Hid : i ∈ ids) by (apply (run_dom PanicAsErr ids v0 evs s i R); rewrite Hi; eauto).
  destruct (caller_ctx i _ Hid Ug (waiting_submitted i)) as (x' & ran & Hx & S & Eq & _). rewrite Hi in Hx. injection Hx as <-.
  apply pend_zero. intros j Hj. pose proof (held_job i _ x ran j S Eq Hj) as J.
  rewrite call_jobs_snoc, (proj2 (Z.eqb_neq m i)), app_nil_r in J by done. apply call_jobs_at in J as (k' & Hk & E & _).
  unfold asks. rewrite E. apply bool_decide_eq_false_2. intros [= ->]. lia.
Qed.

(** The thread of the lcore is not stuck while a call waits for it. *)
Lemma caller_thread : is_Some (exec PanicAsErr s (Recv k)) \/ is_Some (exec PanicAsErr s (Thread m)).
Proof.
  destruct (caller_ctx m _ Hm Ug (waiting_submitted m)) as (ctx & ran & Hc & S & Eq & X).
  pose proof (waiting_balance k ltac:(lia)) as Bk. rewrite decide_True in Bk by done.
  unfold exec. rewrite Cr. destruct (decide (buffered k s = 0)%nat) as [Bz|Bz].
  2: { left. unfold buffered in Bz. unfold receive. destruct (chans s !! k) as [[[|e r] n]|]; cbn in Bz; [done|by eexists|done]. }
  right. unfold lcoreFuncListener. rewrite Hc. destruct (ph ctx) as [|j|j e|] eqn:Ph; [| | |done].
  - destruct (ch ctx) as [|j r] eqn:Ec; [exfalso|by eexists].
    assert (M : (msum (pend k) (lcores s) = 0)%nat); [|lia]. apply msum_zero. intros i x Hi.
    destruct (decide (i = m)) as [->|Nm]; [|by apply (waiting_elsewhere i)]. rewrite Hc in Hi. injection Hi as <-. unfold pend. by rewrite Ph, Ec.
  - destruct PanicAsErr; [destruct (panicCatcher _ _ _); by eexists|]. destruct (call_fn (fn j) ctx) as [x [p|]]; by eexists.
  - pose proof (held_job m _ ctx ran j S Eq (or_intror (ex_intro _ e Ph))) as Hj.
    apply call_jobs_at in Hj as (k' & Hk' & Ej & _). rewrite length_app in Hk'. cbn in Hk'. rewrite Ej. unfold send.
    pose proof (pend_pos k' ctx j Ej (or_intror (ex_intro _ e Ph))) as P1. pose proof (msum_lookup (pend k') (lcores s) m ctx Hc) as P2.
    pose proof (waiting_balance k' ltac:(lia)) as B. case_decide as D; [|lia]. subst k'.
    destruct (run_cap_made ids v0 k 1 evs s R) as (y & Hy & Cy).
    { apply make_own. rewrite O. set_solver. }
    rewrite Hy. unfold buffered in Bz. rewrite Hy in Bz. rewrite Bz, Cy. by eexists.
Qed.
End Waiting.
End Caller.

(** ** How much the threads do *)

Lemma submit_work s i j s' : exec PanicAsErr s (Submit i j) = Some s' -> (msum work (lcores s') <= msum work (lcores s) + 3)%nat.
Proof.
  unfold exec. destruct (crashed s); [done|]. unfold ExecOnLcoreAsync. destruct (lcores s !! i) as [ctx|] eqn:Hc.
  - destruct (_ <? _)%nat; [|done]. intros [= <-]. cbn [lcores set_lcore].
    set (ctx' := mkCtx _ _ _ _). pose proof (msum_update work (lcores s) i ctx ctx' Hc) as M.
    assert (W : work ctx' = (work ctx + 3)%nat) by (unfold ctx', work; cbn; rewrite length_app; cbn; lia). lia.
  - destruct (ret_ j) as [c|]; [|intros [= <-]; lia]. intros E. apply send_inv in E as (x & _ & _ & ->). cbn. lia.
Qed.

Lemma thread_bound ids (v0 : V) evs s : run PanicAsErr (ealLaunch ids v0) evs = Some s -> crashed s = false ->
  (count is_thread evs + msum work (lcores s) <= 3 * count is_submit evs)%nat.
Proof.
  revert s. induction evs as [|ev evs IH] using rev_ind; intros s R Cr.
  - injection R as <-. rewrite msum_zero; [done|]. intros i x H. unfold ealLaunch in H; cbn in H. apply elem_of_list_to_map_2 in H.
    apply list_elem_of_fmap in H as (k & [= -> ->] & _). done.
  - apply run_snoc in R as (s1 & R1 & E & Cr1). specialize (IH s1 R1 Cr1). rewrite !count_snoc.
    destruct (is_submit ev) eqn:Su.
    + destruct ev as [i j|i|c|c n]; try done. apply submit_work in E. cbn. lia.
    + pose proof (exec_work PanicAsErr s1 ev s E Cr Su). lia.
Qed.

Lemma submits_calls c fs : count is_submit (calls c fs) = length fs.
Proof.
  revert c. induction fs as [|[m f] fs IH]; intros c; [done|]. cbn [calls]. rewrite count_app, IH. done.
Qed.
Lemma count_prefix (f : ev_t -> bool) evs1 evs2 : evs1 `prefix_of` evs2 -> (count f evs1 <= count f evs2)%nat.
Proof. intros [k ->]. rewrite count_app. lia. Qed.

(** The calls of user functions; those on one lcore; and the value that functions
    leave, called one after the other. *)
Definition users (us : list (Z * (V -> V * option P))) : list (Z * @func V P) := map (fun x => (fst x, User (snd x))) us.
Definition on_lcore (id : Z) (us : list (Z * (V -> V * option P))) : list (V -> V * option P) := map snd (List.filter (fun x => fst x =? id) us).
Definition applied (us : list (V -> V * option P)) (v : V) : V := foldl (fun v u => fst (u v)) v us.

Lemma serve_applied id c us : forall v, fst (serve id v (call_jobs id c (users us))) = applied (on_lcore id us) v.
Proof.
  revert c. induction us as [|[m u] us IH]; intros c v; [done|]. unfold on_lcore, users in *. cbn [map call_jobs List.filter fst snd].
  destruct (m =? id); [|apply IH]. cbn [map snd serve serve1 fn]. destruct (u v) as [v1 p] eqn:Eu.
  unfold applied. cbn [foldl]. rewrite Eu. cbn [fst]. specialize (IH (S c) v1). destruct (serve id v1 _) as [v2 es]. exact IH.
Qed.
Lemma all_users us : Forall user (map snd (users us)).
Proof. unfold users. rewrite map_map. apply Forall_forall. intros f Hf. by apply list_elem_of_fmap in Hf as (u & -> & _). Qed.
Lemma length_users us : length (users us) = length us.
Proof. apply length_map. Qed.
Lemma on_lcore_app id us ws : on_lcore id (us ++ ws) = on_lcore id us ++ on_lcore id ws.
Proof. unfold on_lcore. by rewrite List.filter_app, map_app. Qed.
(** All calls on one lcore. *)
Lemma on_lcore_all id us : on_lcore id (map (pair id) us) = us.
Proof. unfold on_lcore. induction us as [|u us IH]; [done|]. cbn. rewrite Z.eqb_refl. cbn. by f_equal. Qed.

(** ** Functions that do not panic *)

Lemma call_jobs_split id us : forall c ran j rest, call_jobs id c (users us) = ran ++ j :: rest -> exists k u,
  us !! k = Some (id, u) /\ fn j = User u /\ ran = call_jobs id c (users (take k us)).
Proof.
  unfold users. induction us as [|[m u] us IH]; intros c ran j rest E; cbn [map call_jobs fst snd] in E; [by destruct ran|]. destruct (Z.eqb_spec m id) as [->|N].
  - destruct ran as [|j' ran]; cbn [app] in E.
    + injection E as <- _. by exists 0%nat, u.
    + injection E as <- E. destruct (IH _ ran j rest E) as (k & w & L & F & Er). exists (S k), w. split_and!; [done|done|].
      cbn [take map call_jobs fst snd]. rewrite Z.eqb_refl. by f_equal.
  - destruct (IH _ ran j rest E) as (k & w & L & F & Er). exists (S k), w. split_and!; [done|done|].
    cbn [take map call_jobs fst snd]. by rewrite (proj2 (Z.eqb_neq m id)).
Qed.

(** The jobs that the calls so far have sent. *)
Lemma submitted_prefix c us id evs : evs `prefix_of` calls c (users us) -> submitted id evs `prefix_of` call_jobs id c (users us).
Proof. intros [rest E]. rewrite <- submitted_calls, E, submitted_app. by eexists. Qed.

(** Only a function that panics ends the process. *)
Lemma exec_crash s ev s' : exec PanicAsErr s ev = Some s' -> crashed s' = true -> exists i ctx j p,
  ev = Thread i /\ lcores s !! i = Some ctx /\ ph ctx = Running j /\ snd (call_fn (fn j) ctx) = Some p.
Proof.
  assert (Snd : forall s s' c' e, send s c' e = Some s' -> crashed s' = crashed s) by (intros s2 s2' c' e H; by apply send_inv in H as (y & _ & _ & ->)).
  intros E Cr'. pose proof (exec_live PanicAsErr s ev s' E) as Cr. unfold exec in E. rewrite Cr in E. destruct ev as [i j|i|c'|c' n].
  - exfalso. unfold ExecOnLcoreAsync in E. destruct (lcores s !! i); [destruct (_ <? _)%nat; [|done]; injection E as <-; cbn in Cr'; congruence|].
    destruct (ret_ j); [apply Snd in E|injection E as <-]; congruence.
  - unfold lcoreFuncListener in E. destruct (lcores s !! i) as [ctx|] eqn:Hc; [|done]. exists i, ctx.
    destruct (ph ctx) as [|j|j e|] eqn:Ph; [exfalso| |exfalso|done].
    + destruct (ch ctx); [done|]. injection E as <-. cbn in Cr'. congruence.
    + exists j. destruct PanicAsErr.
      * exfalso. destruct (panicCatcher i (fn j) ctx). injection E as <-. cbn in Cr'. congruence.
      * destruct (call_fn (fn j) ctx) as [ctx' [p|]] eqn:Er; [by exists p|]. exfalso. injection E as <-. cbn in Cr'. congruence.
    + destruct (ret_ j) as [c|]; [destruct (send s c e) as [s1|] eqn:Es; [|done]; apply Snd in Es|]; injection E as <-; cbn in Cr'; congruence.
  - exfalso. destruct (receive s c') as [[e s1]|] eqn:Rv; [|done]. injection E as <-. apply receive_inv in Rv as (r & n & _ & ->). cbn in Cr'. congruence.
  - exfalso. destruct (chans s !! c'); [done|]. destruct (0 <? n)%nat; [|done]. injection E as <-. cbn in Cr'. congruence.
Qed.

(** When no function panics on the value that those before it on its lcore leave,
    the process goes on. *)
Lemma calls_live ids (v0 : V) c us :
  (forall k m u, us !! k = Some (m, u) -> snd (u (applied (on_lcore m (take k us)) v0)) = None) ->
  forall evs s, run PanicAsErr (ealLaunch ids v0) evs = Some s -> own evs `prefix_of` calls c (users us) -> crashed s = false.
Proof.
  intros Np evs. induction evs as [|ev evs IH] using rev_ind; intros s R O; [by injection R as <-|].
  apply run_snoc in R as (s1 & R1 & E & Cr1). rewrite own_snoc in O.
  assert (O1 : own evs `prefix_of` calls c (users us)) by (etrans; [by eexists|exact O]).
  destruct (crashed s) eqn:Cr; [exfalso|done]. apply exec_crash in E as (i & ctx & j & p & -> & Hc & Ph & Pp); [|done].
  assert (Hi : i ∈ ids) by (apply (run_dom PanicAsErr ids v0 evs s1 i R1); rewrite Hc; eauto).
  destruct (lcore_inv PanicAsErr ids v0 evs s1 i R1 Cr1 Hi) as (x & ran & Hx & Sv & Eq). rewrite Hc in Hx. injection Hx as <-.
  destruct (submitted_prefix c us i (own evs) O1) as [rest Er]. rewrite <- submitted_own in Er.
  rewrite Eq in Er. unfold current in Er. rewrite Ph, <- !app_assoc in Er. cbn [app] in Er.
  destruct (call_jobs_split i us c ran j _ Er) as (k & u & Hu & Fu & Rn). specialize (Np _ _ _ Hu).
  rewrite Fu in Pp. unfold call_fn in Pp. rewrite (sv_value _ _ _ _ Sv), Rn, serve_applied in Pp.
  destruct (u _) as [v p']. cbn in Np, Pp. congruence.
Qed.

(** ** Jobs for idle lcores *)

Lemma submits_accepted c ids s : crashed s = false -> NoDup ids ->
  (forall id, id ∈ ids -> exists ctx, lcores s !! id = Some ctx /\ ch ctx = []) ->
  is_Some (run PanicAsErr s (map (fun id => Submit id (mkJob StopFn (Some c))) ids)).
Proof.
  revert s. induction ids as [|i ids IH]; intros s Cr ND Id; cbn [map run]; [by eexists|]. apply NoDup_cons in ND as [Ni ND].
  destruct (Id i) as (ctx & Hc & Ec); [constructor|]. unfold exec. rewrite Cr. unfold ExecOnLcoreAsync. rewrite Hc, Ec.
  cbn [length Nat.ltb]. apply IH; [exact Cr|done|]. intros id Hid. destruct (Id id) as (x & Hx & Ex); [by right|].
  exists x. split; [|done]. cbn. rewrite lookup_insert_ne; [done|]. by intros ->.
Qed.

(** [StopLcores] finds room for all its jobs. *)
Lemma stop_accepted c ids s : crashed s = false -> NoDup ids -> ids <> [] -> chans s !! c = None ->
  (forall id, id ∈ ids -> exists ctx, lcores s !! id = Some ctx /\ ch ctx = []) ->
  is_Some (run PanicAsErr s (stop_jobs c ids)).
Proof.
  intros Cr ND Ne Hc Id. unfold stop_jobs. cbn [run]. unfold exec. rewrite Cr, Hc. destruct ids as [|i ids]; [done|].
  cbn [length Nat.ltb]. by apply submits_accepted.
Qed.

(** ** Calls in a row *)

Section Run.
Variables (ids : list Z) (v0 : V) (c : nat) (us : list (Z * (V -> V * option P))) (evs : list ev_t) (s : state).
Hypothesis Hm : Forall (fun x => fst x ∈ ids) us.
Hypothesis R : run PanicAsErr (ealLaunch ids v0) evs = Some s.
Hypothesis Cr : crashed s = false.

Lemma calls_bound : own evs `prefix_of` calls c (users us) -> (count is_thread evs <= 3 * length us)%nat.
Proof.
  intros O. pose proof (thread_bound ids v0 evs s R Cr) as B. rewrite (count_own is_submit) in B by done.
  pose proof (count_prefix is_submit _ _ O) as Q. rewrite submits_calls, length_users in Q. lia.
Qed.

Lemma calls_progress : own evs `prefix_of` calls c (users us) -> own evs = calls c (users us) \/
  (exists ev, own evs ++ [ev] `prefix_of` calls c (users us) /\ is_Some (exec PanicAsErr s ev)) \/
  (exists m, m ∈ map fst us /\ is_Some (exec PanicAsErr s (Thread m))).
Proof.
  intros O. destruct (calls_prefix c _ _ O) as [->|(pre & m & f & post & E & Q)]; [by left|right].
  assert (U : Forall user (map snd (pre ++ [(m, f)]))).
  { pose proof (all_users us) as U. rewrite E, map_app in U. cbn in U. rewrite map_app. apply Forall_app in U as [? [? _]%Forall_cons]. apply Forall_app. cbn. auto. }
  assert (Up : Forall user (map snd pre)) by (rewrite map_app in U; by apply Forall_app in U as [? _]). set (k := (c + length pre)%nat) in *.
  assert (Mu : m ∈ map fst us).
  { assert (Mf : map fst (users us) = map fst us) by (unfold users; rewrite map_map; by apply map_ext). rewrite <- Mf, E, map_app. apply elem_of_app. right. constructor. }
  assert (Mi : m ∈ ids). { apply list_elem_of_fmap in Mu as (x & -> & Hx). rewrite Forall_forall in Hm. by apply Hm. }
  assert (Pf : calls c (users us) = calls c pre ++ [Make k 1; Submit m (mkJob f (Some k)); Recv k] ++ calls (S k) post).
  { rewrite E, calls_app. done. }
  assert (Next : forall l, own evs = calls c pre ++ l -> forall ev, (exists rest, [Make k 1; Submit m (mkJob f (Some k)); Recv k] = l ++ ev :: rest) ->
    own evs ++ [ev] `prefix_of` calls c (users us)).
  { intros l -> ev [rest Er]. exists (rest ++ calls (S k) post). rewrite Pf, Er. by rewrite <- !app_assoc. }
  destruct Q as [Q|[Q|Q]].
  - left. exists (Make k 1). split; [apply (Next []); [by rewrite app_nil_r|by eexists]|].
    unfold exec. rewrite Cr. destruct (chans s !! k) as [x|] eqn:Hx; [exfalso|by eexists].
    destruct (run_made ids v0 k evs s R) as [n Hn]; [rewrite Hx; eauto|]. rewrite make_own, Q in Hn. apply make_calls in Hn. lia.
  - left. exists (Submit m (mkJob f (Some k))). split; [apply (Next [Make k 1] Q); by eexists|].
    unfold exec. rewrite Cr. unfold ExecOnLcoreAsync.
    destruct (caller_idle ids v0 c evs s R Cr m pre _ Mi Up Q) as (ctx & Hc & _ & Ec & _); [right; by exists k, 1%nat|].
    rewrite Hc, Ec. by eexists.
  - destruct (caller_thread ids v0 c evs s R Cr m pre f Mi U Q) as [T|T]; [left|right; by exists m].
    exists (Recv k). split; [apply (Next _ Q); by eexists|exact T].
Qed.

Lemma calls_between ws : own evs = calls c (users ws) ->
  (forall id, id ∈ ids -> exists ctx, lcores s !! id = Some ctx /\ ph ctx = Idle /\ ch ctx = [] /\ Value ctx = applied (on_lcore id ws) v0) /\
  forall k, (c + length ws <= k)%nat -> chans s !! k = None.
Proof.
  intros Ew. split.
  - intros id Hid. destruct (caller_idle ids v0 c evs s R Cr id (users ws) [] Hid (all_users ws)) as (ctx & Hc & Ph & Ch & Vl); [by rewrite app_nil_r|by left|].
    exists ctx. by rewrite Vl, serve_applied.
  - intros k Hk. destruct (chans s !! k) as [x|] eqn:Hx; [exfalso|done]. destruct (run_made ids v0 k evs s R) as [n Hn]; [rewrite Hx; eauto|].
    rewrite make_own, Ew in Hn. apply make_calls in Hn. rewrite length_users in Hn. lia.
Qed.
End Run.
End Calls.

(** C5. A goroutine that calls functions on lcores, one after the other, on new
    channels, while nobody else sends jobs: whatever the threads do in between,
    they do at most three actions for each call; until the last call has returned
    either the goroutine or the thread of a lcore that is called can go on; and when
    some calls have returned and the next has not begun, every lcore is idle with an
    empty queue, and its value is what the functions called on it leave, in the
    order of the calls, whether they panic or not. *)
Theorem calls_return V P (PanicAsErr : bool) ids (v0 : V) c (us : list (Z * (V -> V * option P))) evs (s : @ealConfig V P)
    (Hm : Forall (fun x => fst x ∈ ids) us) (R : run PanicAsErr (ealLaunch ids v0) evs = Some s) (Cr : crashed s = false)
    (O : own evs `prefix_of` calls c (users us)) :
  (count is_thread evs <= 3 * length us)%nat /\
  (own evs = calls c (users us) \/
   (exists ev, own evs ++ [ev] `prefix_of` calls c (users us) /\ is_Some (exec PanicAsErr s ev)) \/
   (exists m, m ∈ map fst us /\ is_Some (exec PanicAsErr s (Thread m)))) /\
  (forall ws, own evs = calls c (users ws) -> forall id, id ∈ ids ->
     exists ctx, lcores s !! id = Some ctx /\ ph ctx = Idle /\ ch ctx = [] /\ Value ctx = applied (on_lcore id ws) v0).
Proof.
  split_and!.
  - by apply (calls_bound PanicAsErr ids v0 c us evs s R Cr).
  - by apply (calls_progress PanicAsErr ids v0 c us evs s Hm R Cr).
  - intros ws Ew. by destruct (calls_between PanicAsErr ids v0 c evs s R Cr ws Ew).
Qed.

(** A call on lcore 5 that has returned, and one on lcore 3 that panics; its thread
    waits to report it. *)
Definition sample_us : list (Z * (Z -> Z * option Z)) := [(5, fun v => (v + 1, None)); (3, fun v => (v * 2, Some 7))].
Definition sample_first : list (@event Z Z) :=
  [Make 1 1; Submit 5 (mkJob (User (fun v => (v + 1, None))) (Some 1%nat)); Thread 5; Thread 5; Thread 5; Recv 1].
Definition sample_calls : list (@event Z Z) :=
  sample_first ++ [Make 2 1; Submit 3 (mkJob (User (fun v => (v * 2, Some 7))) (Some 2%nat)); Thread 3; Thread 3].

Lemma calls_return_witness : exists s, run true (ealLaunch [3; 5] 4) sample_calls = Some s /\
  (exec true s (Recv 2) = None /\ exec true s (Thread 5) = None /\ is_Some (exec true s (Thread 3))) /\
  exists s', run true (ealLaunch [3; 5] 4) sample_first = Some s' /\ (exists ctx, lcores s' !! 5 = Some ctx /\ Value ctx = 5) /\
    exists ctx, lcores s' !! 3 = Some ctx /\ Value ctx = 4.
Proof.
  assert (Hm : Forall (fun x : Z * (Z -> Z * option Z) => fst x ∈ [3; 5]) sample_us) by (repeat constructor).
  assert (A : exists s, run true (ealLaunch [3; 5] 4) sample_calls = Some s /\ crashed s = false /\ exec true s (Recv 2) = None /\ exec true s (Thread 5) = None)
    by (eexists; split_and!; vm_compute; reflexivity).
  destruct A as (s & R & Cr & N & N5). exists s. split; [exact R|]. split.
  - split; [exact N|]. split; [exact N5|].
    destruct (calls_return Z Z true [3; 5] 4 1 sample_us sample_calls s Hm R Cr) as (_ & [E|[(ev & Pr & X)|(m & M & T)]] & _).
    + eexists. reflexivity.
    + discriminate E.
    + exfalso. destruct Pr as [rest E]. injection E as <- _. rewrite N in X. by destruct X.
    + cbn in M. apply elem_of_cons in M as [->|M]; [rewrite N5 in T; by destruct T|]. apply list_elem_of_singleton in M as ->. exact T.
  - assert (B : exists s', run true (ealLaunch [3; 5] 4) sample_first = Some s' /\ crashed s' = false)
      by (eexists; split; vm_compute; reflexivity).
    destruct B as (s' & R' & Cr'). exists s'. split; [exact R'|].
    destruct (calls_return Z Z true [3; 5] 4 1 sample_us sample_first s' Hm R' Cr') as (_ & _ & W); [eexists; reflexivity|].
    pose proof (W [(5, fun v => (v + 1, None))] eq_refl) as W1. split.
    + destruct (W1 5) as (ctx & Hc & _ & _ & Vl); [by apply (bool_decide_unpack _)|]. exists ctx. split; [exact Hc|exact Vl].
    + destruct (W1 3) as (ctx & Hc & _ & _ & Vl); [by apply (bool_decide_unpack _)|]. exists ctx. split; [exact Hc|exact Vl].
Defined.
