(* ===== verification/ExporterMain.v ===== *)
(** * The exporter application: its metrics and its life

    The constructors of [src/app/dpdk-exporter/metrics.go], which register the
    gauges that [Exporter] sets ([Prom] has the registry), [StartCollecting] and
    [main.go]: the calls on the main lcore ([Eal], [EalCalls]) that make the metrics
    and then collect them once per tick until the shutdown. What DPDK says may
    differ from tick to tick. Flags, the HTTP server and the time of the ticks are
    not modelled. *)

From Stdlib Require Import ZArith Lia Ascii String.
From stdpp Require Import base list numbers option gmap sets strings.
From S2P Require Import Prelude Text Errno Registry RegistrySpec Pools PoolsSpec Ethdev Exporter ExporterSpec Eal EalSpec EalInit EalCalls Prom.

Open Scope Z_scope.
Open Scope go_scope.

(** ** The metrics *)

(* go: app/dpdk-exporter/metrics.go 21-28 portNameLbl *)
Definition portNameLbl : list Z := str "port_name"%string.
Definition memzoneLbl : list Z := str "memzone_name"%string.
Definition macAddrLbl : list Z := str "mac_addr"%string.
Definition drvNameLbl : list Z := str "driver_name"%string.
Definition ifaceNameLbl : list Z := str "interface_name"%string.
(* go: app/dpdk-exporter/metrics.go 29-32 namespace *)
Definition namespace : list Z := str "dpdk_exporter"%string.

(* go: app/dpdk-exporter/metrics.go LinkMetrics *)
Record LinkMetrics := mkLinkMetrics { link_AutoNeg : desc; link_Duplex : desc; link_Speed : desc; link_Status : desc }.
(* go: app/dpdk-exporter/metrics.go EthDevMetrics *)
Record EthDevMetrics := mkEthDevMetrics {
  dev_AvailablePorts : desc; dev_Link : LinkMetrics; dev_SocketID : desc; dev_NbRxQueues : desc; dev_NbTxQueues : desc;
  dev_RetaSize : desc; dev_Info : desc }.
(* go: app/dpdk-exporter/metrics.go RingMetrics *)
Record RingMetrics := mkRingMetrics {
  ring_MemzoneLen : desc; ring_MemzonePageSize : desc; ring_MemzoneSocketID : desc; ring_Cap : desc; ring_Count : desc }.
(* go: app/dpdk-exporter/metrics.go Metrics *)
Record Metrics := mkMetrics { EthDev : EthDevMetrics; m_Ring : RingMetrics }.

Section New.
Context {R : Type} `{PromRegistry R}.

Definition gauge_desc (subsystem name : list Z) (labels : list (list Z)) : desc := mkDesc (fq [namespace; subsystem; name]) [] labels.
(** [promauto.NewGauge] and [NewGaugeVec]: made and registered. *)
Definition NewGaugeVec (subsystem name : list Z) (labels : list (list Z)) : M R desc :=
  must_register (gauge_desc subsystem name labels) ;; ret (gauge_desc subsystem name labels).

(* go: app/dpdk-exporter/metrics.go NewLinkMetrics *)
Definition NewLinkMetrics (labels : list (list Z)) : M R LinkMetrics :=
  let subsystem := str "eth_dev_link"%string in
  let! autoNeg := NewGaugeVec subsystem (str "auto_negotiation"%string) labels in
  let! duplex := NewGaugeVec subsystem (str "full_duplex"%string) labels in
  let! speed := NewGaugeVec subsystem (str "speed_mbps"%string) labels in
  let! status := NewGaugeVec subsystem (str "status"%string) labels in
  ret (mkLinkMetrics autoNeg duplex speed status).

(** The error is always nil. *)
(* go: app/dpdk-exporter/metrics.go NewEthDevMetrics *)
Definition NewEthDevMetrics : M R (go_error + EthDevMetrics) :=
  let labels := [portNameLbl] in
  let subsystem := str "eth_dev"%string in
  let! availablePorts := NewGaugeVec subsystem (str "available_ports"%string) [] in
  let! link := NewLinkMetrics labels in
  let! socketID := NewGaugeVec subsystem (str "socket_id"%string) labels in
  let! nbRxQueues := NewGaugeVec subsystem (str "nb_rx_queues"%string) labels in
  let! nbTxQueues := NewGaugeVec subsystem (str "nb_tx_queues"%string) labels in
  let! retaSize := NewGaugeVec subsystem (str "redirection_table_size"%string) labels in
  let! info := NewGaugeVec subsystem (str "info"%string) (labels ++ [macAddrLbl; drvNameLbl; ifaceNameLbl]) in
  ret (inr (mkEthDevMetrics availablePorts link socketID nbRxQueues nbTxQueues retaSize info)).

(* go: app/dpdk-exporter/metrics.go NewRingMetrics *)
Definition NewRingMetrics : M R RingMetrics :=
  let labels := [memzoneLbl] in
  let subsystem := str "ring"%string in
  let! memzoneLen := NewGaugeVec subsystem (str "memzone_len"%string) labels in
  let! memzonePageSize := NewGaugeVec subsystem (str "memzone_page_size"%string) labels in
  let! memzoneSocketID := NewGaugeVec subsystem (str "memzone_socket_id"%string) labels in
  let! cap := NewGaugeVec subsystem (str "capacity"%string) labels in
  let! count := NewGaugeVec subsystem (str "count"%string) labels in
  ret (mkRingMetrics memzoneLen memzonePageSize memzoneSocketID cap count).

(* go: app/dpdk-exporter/metrics.go NewMetrics *)
Definition NewMetrics : M R (go_error + Metrics) :=
  let! ethDev := NewEthDevMetrics in
  match ethDev with
  | inl err => ret (inl err)
  | inr ethDev => let! ring := NewRingMetrics in ret (inr (mkMetrics ethDev ring))
  end.
End New.

(** The vector of a gauge of [Exporter]. *)
Definition vec (ms : Metrics) (m : metric) : desc :=
  let e := EthDev ms in let l := dev_Link e in let r := m_Ring ms in
  match m with
  | AvailablePorts => dev_AvailablePorts e | AutoNeg_ => link_AutoNeg l | Duplex_ => link_Duplex l | Speed_ => link_Speed l
  | Status_ => link_Status l | SocketID_ => dev_SocketID e | NbRxQueues_ => dev_NbRxQueues e | NbTxQueues_ => dev_NbTxQueues e
  | RetaSize_ => dev_RetaSize e | Info => dev_Info e
  | MemzoneLen => ring_MemzoneLen r | MemzonePageSize => ring_MemzonePageSize r | MemzoneSocketID => ring_MemzoneSocketID r
  | Cap_ => ring_Cap r | Count_ => ring_Count r
  end.
(** The metrics in the order in which they are registered. *)
Definition all_metrics : list metric :=
  [AvailablePorts; AutoNeg_; Duplex_; Speed_; Status_; SocketID_; NbRxQueues_; NbTxQueues_; RetaSize_; Info;
   MemzoneLen; MemzonePageSize; MemzoneSocketID; Cap_; Count_].

(** The names of the labels that the collections give to [With]: of a port, for its
    link too, and of a memory zone. *)
(* go: app/dpdk-exporter/metrics.go 155-183 EthDevMetrics.Collect *)
Definition port_With_labels (m : metric) : list (list Z) :=
  match m with
  | AvailablePorts => []
  | Info => [portNameLbl; macAddrLbl; drvNameLbl; ifaceNameLbl]
  | _ => [portNameLbl]
  end.
(* go: app/dpdk-exporter/metrics.go 358-366 RingMetrics.Collect *)
Definition zone_With_labels : list (list Z) := [memzoneLbl].
(* go: app/dpdk-exporter/metrics.go 146-183 EthDevMetrics.Collect *)
Definition With_labels (m : metric) : list (list Z) :=
  match m with
  | MemzoneLen | MemzonePageSize | MemzoneSocketID | Cap_ | Count_ => zone_With_labels
  | m => port_With_labels m
  end.

(** ** Registering them *)

Section NewSpec.
Context {R : Type} `{PromRegistryLaws R}.

Lemma NewGaugeVec_run sub name labels new r : can_register (registered r) (gauge_desc sub name labels :: new) ->
  exists r', NewGaugeVec sub name labels r = Some (gauge_desc sub name labels, r') /\
    registered r' = registered r ++ [gauge_desc sub name labels] /\ can_register (registered r') new.
Proof.
  intros C. apply can_register_cons in C as (N & L & C). destruct (must_register_run _ r N L) as (r' & E & Rr).
  exists r'. unfold NewGaugeVec. rewrite (bind_some _ _ _ _ _ E). by rewrite Rr.
Qed.

Definition exporter_metrics : Metrics :=
  let g s n l := gauge_desc (str s) (str n) l in
  let p := [portNameLbl] in let z := [memzoneLbl] in
  mkMetrics
    (mkEthDevMetrics (g "eth_dev" "available_ports" [])
      (mkLinkMetrics (g "eth_dev_link" "auto_negotiation" p) (g "eth_dev_link" "full_duplex" p)
                     (g "eth_dev_link" "speed_mbps" p) (g "eth_dev_link" "status" p))
      (g "eth_dev" "socket_id" p) (g "eth_dev" "nb_rx_queues" p) (g "eth_dev" "nb_tx_queues" p) (g "eth_dev" "redirection_table_size" p)
      (g "eth_dev" "info" [portNameLbl; macAddrLbl; drvNameLbl; ifaceNameLbl]))
    (mkRingMetrics (g "ring" "memzone_len" z) (g "ring" "memzone_page_size" z) (g "ring" "memzone_socket_id" z)
                   (g "ring" "capacity" z) (g "ring" "count" z))%string.
Definition exporter_descs : list desc := map (vec exporter_metrics) all_metrics.

Lemma exporter_names : NoDup (map fqName exporter_descs).
Proof. apply (bool_decide_unpack _). vm_compute. exact I. Qed.

(** A registry without metrics of these names. *)
Definition no_exporter (r : R) : Prop := forall d, d ∈ registered r -> fqName d ∉ map fqName exporter_descs.

Lemma exporter_register r : no_exporter r -> can_register (registered r) exporter_descs.
Proof.
  intros F. pose proof exporter_names as N. split.
  - by apply (NoDup_fmap_1 fqName).
  - intros d Hd Ho. apply (F d Ho). by apply (list_elem_of_fmap_2 fqName).
  - intros d d' Hd Hd' E. apply elem_of_app in Hd' as [Ho|Hn].
    + exfalso. apply (F d' Ho). rewrite E. by apply (list_elem_of_fmap_2 fqName).
    + f_equal. apply list_elem_of_lookup in Hd as [i Hi], Hn as [j Hj].
      assert (i = j) as ->; [|congruence]. eapply NoDup_lookup; [exact N| |].
      * change (map fqName exporter_descs) with (fqName <$> exporter_descs). by rewrite list_lookup_fmap, Hi.
      * change (map fqName exporter_descs) with (fqName <$> exporter_descs). rewrite list_lookup_fmap, Hj. cbn. by rewrite E.
Qed.

Ltac step_gauge :=
  match goal with
  | C : can_register (registered ?r) (gauge_desc ?sub ?name ?labels :: ?new) |- context [bind (NewGaugeVec ?sub' ?name' ?labels') _ ?r] =>
      let r1 := fresh "r" in let E := fresh "E" in let Rr := fresh "Rr" in let C1 := fresh "C" in
      destruct (NewGaugeVec_run sub name labels new r C) as (r1 & E & Rr & C1); clear C;
      rewrite (bind_some (NewGaugeVec sub' name' labels') _ _ _ _ E); clear E; cbv beta
  end.

Lemma NewMetrics_run r : no_exporter r ->
  exists r', NewMetrics r = Some (inr exporter_metrics, r') /\ registered r' = registered r ++ exporter_descs.
Proof.
  intros F. pose proof (exporter_register r F) as C.
  cbv [exporter_descs all_metrics map vec exporter_metrics EthDev m_Ring dev_Link dev_AvailablePorts link_AutoNeg link_Duplex link_Speed
    link_Status dev_SocketID dev_NbRxQueues dev_NbTxQueues dev_RetaSize dev_Info ring_MemzoneLen ring_MemzonePageSize ring_MemzoneSocketID
    ring_Cap ring_Count] in C.
  unfold NewMetrics, NewEthDevMetrics, NewLinkMetrics, NewRingMetrics. cbv zeta.
  repeat (rewrite ?bind_assoc; step_gauge || (rewrite bind_ret_l; cbv beta)).
  eexists. split; [reflexivity|]. repeat match goal with E : registered ?a = registered ?b ++ _ |- context [registered ?a] => rewrite E; clear E end.
  by rewrite <- !app_assoc.
Qed.
End NewSpec.

(** ** The labels of a collection *)

(** Values for all labels of the vector, and no more. *)
Definition labelled_well (f : gauge -> option Z) : Prop :=
  forall k v, f k = Some v -> length (snd k) = length (variableLabels (vec exporter_metrics (fst k))).

Lemma labelled_well_over f g : labelled_well f -> labelled_well g -> labelled_well (over f g).
Proof. intros Hf Hg k v. unfold over. destruct (g k) eqn:E; intros; [by eapply Hg|by eapply Hf]. Qed.
Lemma labelled_well_just m ls v : length ls = length (variableLabels (vec exporter_metrics m)) -> labelled_well (just (m, ls) v).
Proof. intros L k v'. unfold just. case_decide; [by subst k|done]. Qed.

Ltac labels := repeat (apply labelled_well_over || (by apply labelled_well_just) || case_match || done).

Lemma port_labels D p : labelled_well (port_shown D p).
Proof. unfold port_shown, link_shown, info_shown. labels. Qed.
Lemma zone_labels zone cap count prefix z : labelled_well (zone_shown zone cap count prefix z).
Proof. unfold zone_shown. labels. Qed.

(** C22. [NewMetrics] on a registry without metrics of the exporter makes fifteen
    vectors with names of their own and registers them, in order, without a panic;
    each is labelled with the names that the collections give to [With], and
    every gauge that a collection of a port or of a memory zone sets has as many
    values as its vector has labels; a second call panics. *)
Theorem NewMetrics_spec {R} `{PromRegistryLaws R} (r : R) (F : no_exporter r) :
  exists ms r', NewMetrics r = Some (inr ms, r') /\ registered r' = registered r ++ map (vec ms) all_metrics /\
    NoDup (map fqName (map (vec ms) all_metrics)) /\
    (forall m, m ∈ all_metrics /\ variableLabels (vec ms m) = With_labels m) /\
    (forall D p k v, port_shown D p k = Some v -> length (snd k) = length (variableLabels (vec ms (fst k)))) /\
    (forall zone cap count prefix z k v, zone_shown zone cap count prefix z k = Some v -> length (snd k) = length (variableLabels (vec ms (fst k)))) /\
    NewMetrics r' = None.
Proof.
  destruct (NewMetrics_run r F) as (r' & E & Rr). exists exporter_metrics, r'. split_and!.
  - exact E.
  - exact Rr.
  - exact exporter_names.
  - intros m. split; [|by destruct m]. unfold all_metrics. destruct m; set_solver.
  - intros D p. apply port_labels.
  - intros zone cap count prefix z. apply zone_labels.
  - unfold NewMetrics, NewEthDevMetrics, bind at 1 2. unfold NewGaugeVec, bind at 1, must_register. rewrite register_again; [done|].
    rewrite Rr. apply elem_of_app. right. constructor.
Qed.

Lemma NewMetrics_spec_witness :
  exists ms r', NewMetrics (R := list desc) [mkDesc (str "go_goroutines"%string) [] []] = Some (inr ms, r') /\ length r' = 16%nat /\ NewMetrics r' = None.
Proof.
  destruct (NewMetrics_spec (R := list desc) [mkDesc (str "go_goroutines"%string) [] []]) as (ms & r' & E & Rr & _ & _ & _ & _ & N).
  - intros d Hd. apply list_elem_of_singleton in Hd as ->. apply (bool_decide_unpack _). vm_compute. exact I.
  - exists ms, r'. split; [exact E|]. split; [|exact N]. change (length (registered (R := list desc) r') = 16%nat). rewrite Rr. reflexivity.
Defined.

(** ** The life of the application *)

(** The memory that the jobs on the main lcore work on: the Prometheus registry,
    [metrics] of [main], the registry of callbacks of package memzone, the gauges. *)
Record app_mem (R CB G : Type) := mkApp { prom : R; metrics : option Metrics; callbacks : CB; gauges : G }.
Arguments mkApp {R CB G}.
Arguments prom {R CB G}.
Arguments metrics {R CB G}.
Arguments callbacks {R CB G}.
Arguments gauges {R CB G}.

(** What DPDK says at one time. *)
Record world := mkWorld { w_dev : devices; w_zones : list Z; w_zone : Z -> Memzone; w_cap : Z -> Z; w_count : Z -> Z }.

(** What the [select] of the loop takes; when both are ready it may take either. *)
Inductive selected := Ticked | ShutDown.

Section Life.
Context {R CB G V : Type} `{PromRegistry R} `{Registry CB V} `{Gauges G}.
Variables (ENOTSUP : Z) (RING_PREFIX : list Z).
(** The closure that [RingMetrics.Collect] gives to the walk, at a time. *)
Variable closure : V.
Variable as_fn : world -> V -> callback (R := CB) (S := G).
(** What DPDK says at each tick. *)
Variable worlds : nat -> world.

Abbreviation mem := (app_mem R CB G).
Abbreviation ev_t := (@event mem unit).

(** The job that makes the metrics; an error is a panic too. *)
(* go: app/dpdk-exporter/main.go 48-55 main *)
Definition init_metrics (st : mem) : mem * option unit :=
  match NewMetrics (prom st) with
  | None => (st, Some tt)
  | Some (inl _, r) => (mkApp r None (callbacks st) (gauges st), Some tt)
  | Some (inr ms, r) => (mkApp r (Some ms) (callbacks st) (gauges st), None)
  end.

(** The job of tick [k]; [m] may be nil. *)
(* go: app/dpdk-exporter/metrics.go 70-72 Metrics.StartCollecting *)
Definition collect (k : nat) (st : mem) : mem * option unit :=
  match metrics st with
  | None => (st, Some tt)
  | Some ms =>
      let w := worlds k in
      match Metrics_Collect (w_dev w) ENOTSUP (as_fn w) (w_zones w) closure (callbacks st, gauges st) with
      | None => (st, Some tt)
      | Some (cb, g) => (mkApp (prom st) (Some ms) cb g, None)
      end
  end.

(** The loop from tick [k], for what it selects until it returns, or so far. *)
(* go: app/dpdk-exporter/metrics.go Metrics.StartCollecting *)
Fixpoint StartCollecting (main : Z) (k c : nat) (sel : list selected) : list ev_t :=
  match sel with
  | [] | ShutDown :: _ => []
  | Ticked :: sel => ExecOnMain main c (User (collect k)) ++ StartCollecting main (S k) (S c) sel
  end.

Fixpoint ticks (sel : list selected) : nat := match sel with Ticked :: sel => S (ticks sel) | _ => O end.
Fixpoint returned (sel : list selected) : bool := match sel with [] => false | ShutDown :: _ => true | Ticked :: sel => returned sel end.

(** The metrics, the collections, and behind [wg.Wait()] the deferred [StopLcores]. *)
Definition exporter_calls (main : Z) (c : nat) (sel : list selected) : list ev_t :=
  ExecOnMain main c (User init_metrics) ++ StartCollecting main 0 (S c) sel.
(* go: app/dpdk-exporter/main.go 24-83 main *)
Definition exporter_main (main : Z) (ids : list Z) (c : nat) (sel : list selected) : list ev_t :=
  exporter_calls main c sel ++ if returned sel then StopLcores (c + S (ticks sel))%nat ids else [].

Lemma StartCollecting_calls main sel : forall k c, StartCollecting main k c sel = calls c (users (map (pair main) (map collect (seq k (ticks sel))))).
Proof.
  induction sel as [|[|] sel IH]; intros k c; cbn [StartCollecting ticks seq map calls users fst snd]; [done| |done].
  unfold ExecOnMain. by rewrite IH.
Qed.
Lemma exporter_calls_calls main c sel : exporter_calls main c sel = calls c (users (map (pair main) (init_metrics :: map collect (seq 0 (ticks sel))))).
Proof. unfold exporter_calls. by rewrite StartCollecting_calls. Qed.
End Life.

Section LifeSpec.
Context {R CB G V : Type} `{PromRegistryLaws R} `{RL : RegistryLaws CB V} `{GL : GaugesLaws G}.
Variables (ENOTSUP : Z) (RING_PREFIX : list Z) (closure : V) (as_fn : world -> V -> callback (R := CB) (S := G)) (worlds : nat -> world).

(** The closure sets the gauges of one zone. *)
Definition closure_collects (w : world) : Prop :=
  calls_collect_zone (w_zone w) (w_cap w) (w_count w) RING_PREFIX (as_fn w) closure.
Definition world_step (g : G) (w : world) : G :=
  collect_step (w_dev w) ENOTSUP (w_zone w) (w_cap w) (w_count w) RING_PREFIX (w_zones w) g.
(** The gauges after the first [n] ticks. *)
Definition gauges_after (n : nat) (g : G) : G := foldl world_step g (map worlds (seq 0 n)).

Abbreviation mem := (app_mem R CB G).
Abbreviation init := (init_metrics (R := R) (CB := CB) (G := G)).
Abbreviation collect_job := (collect (R := R) ENOTSUP closure as_fn worlds).
Abbreviation jobs n := (init :: map collect_job (seq 0 n)).

Variables (r : R) (cb : CB) (g : G) (mp : gmap Z (option V)) (room : Z).
Hypothesis Fr : no_exporter r.
Hypothesis Hcb : reg_rep cb mp.
Hypothesis Hroom : reg_room cb room.
Hypothesis Cl : forall k, closure_collects (worlds k).

Lemma jobs_applied n : Z.of_nat n <= room -> exists r' cb', 
  applied (jobs n) (mkApp r None cb g) = mkApp r' (Some exporter_metrics) cb' (gauges_after n g) /\
  reg_rep cb' mp /\ reg_room cb' (room - Z.of_nat n) /\ registered r' = registered r ++ exporter_descs.
Proof.
  induction n as [|n IH]; intros Hn.
  - destruct (NewMetrics_run r Fr) as (r' & E & Rr). exists r', cb. unfold applied. cbn. unfold init_metrics. cbn [prom]. rewrite E. cbn.
    split_and!; [done|done|by rewrite Z.sub_0_r|done].
  - destruct IH as (r' & cb' & E & Hr & Ho & Rr); [lia|].
    assert (A : applied (init :: map collect_job (seq 0 (S n))) (mkApp r None cb g) =
      fst (collect_job n (applied (jobs n) (mkApp r None cb g)))).
    { rewrite seq_S, map_app. unfold applied. rewrite app_comm_cons, foldl_app. done. }
    rewrite A, E. unfold collect. cbn [metrics callbacks gauges].
    destruct (Metrics_Collect_run (w_dev (worlds n)) ENOTSUP (w_zone (worlds n)) (w_cap (worlds n)) (w_count (worlds n)) RING_PREFIX
      (as_fn (worlds n)) (w_zones (worlds n)) closure cb' (gauges_after n g) mp (room - Z.of_nat n)) as (cb2 & E2 & Hr2 & Ho2); [apply Cl|done|done|lia|].
    rewrite E2. exists r', cb2. split_and!; [|done| |done].
    + cbn [fst prom]. f_equal. unfold gauges_after. rewrite seq_S, map_app, foldl_app. done.
    + by replace (room - Z.of_nat (S n)) with (room - Z.of_nat n - 1) by lia.
Qed.

Lemma jobs_quiet n : Z.of_nat n <= room -> forall k u, jobs n !! k = Some u -> snd (u (applied (take k (jobs n)) (mkApp r None cb g))) = None.
Proof.
  intros Hn [|k] u Hu.
  - injection Hu as <-. destruct (NewMetrics_run r Fr) as (r' & E & _). cbn. unfold init_metrics. cbn [prom]. by rewrite E.
  - change (map collect_job (seq 0 n) !! k = Some u) in Hu.
    assert (L : map collect_job (seq 0 n) !! k = collect_job <$> (seq 0 n !! k)) by apply list_lookup_fmap. rewrite L in Hu.
    destruct (seq 0 n !! k) as [x|] eqn:X; [|done]. injection Hu as <-. apply lookup_seq in X as [-> Hk]. cbn [plus].
    cbn [take]. rewrite firstn_map, take_seq, Nat.min_l by lia.
    destruct (jobs_applied k) as (r' & cb' & E & Hr & Ho & _); [lia|]. rewrite E. unfold collect. cbn [metrics callbacks gauges].
    destruct (Metrics_Collect_run (w_dev (worlds k)) ENOTSUP (w_zone (worlds k)) (w_cap (worlds k)) (w_count (worlds k)) RING_PREFIX
      (as_fn (worlds k)) (w_zones (worlds k)) closure cb' (gauges_after k g) mp (room - Z.of_nat k)) as (cb2 & E2 & _); [apply Cl|done|done|lia|].
    by rewrite E2.
Qed.
End LifeSpec.

(** C21. The exporter from its start: in every interleaving with the lcore threads the
    process does not panic; the threads do at most three actions per job; the
    loop is never stuck: until the calls are done, it or the thread of the main
    lcore can go on. Between two calls every lcore is idle; behind the [n]-th tick
    the gauges are those that [n] collections leave, each with what DPDK said at
    its own tick, so that they show the last of them; and when the loop returned,
    [StopLcores] finds room for its jobs on all lcores. *)
Theorem exporter_life {R CB G V} `{PromRegistryLaws R} `{RL : RegistryLaws CB V} `{GL : GaugesLaws G} (PanicAsErr : bool)
    ENOTSUP RING_PREFIX (closure : V) as_fn (worlds : nat -> world) (r : R) (cb : CB) (g : G) mp room ids main c sel evs s
    (Fr : no_exporter r) (Hcb : reg_rep cb mp) (Hroom : reg_room cb room) (Room : Z.of_nat (ticks sel) <= room)
    (Cl : forall k, closure_collects RING_PREFIX closure as_fn (worlds k)) (Hm : main ∈ ids) (ND : NoDup ids)
    (Run : run PanicAsErr (ealLaunch ids (mkApp r None cb g)) evs = Some s)
    (Own : own evs `prefix_of` exporter_calls ENOTSUP closure as_fn worlds main c sel) :
  crashed s = false /\
  (count is_thread evs <= 3 * S (ticks sel))%nat /\
  (own evs = exporter_calls ENOTSUP closure as_fn worlds main c sel \/
   (exists ev, own evs ++ [ev] `prefix_of` exporter_calls ENOTSUP closure as_fn worlds main c sel /\ is_Some (exec PanicAsErr s ev)) \/
   is_Some (exec PanicAsErr s (Thread main))) /\
  (forall n, (n <= ticks sel)%nat -> own evs = exporter_calls ENOTSUP closure as_fn worlds main c (replicate n Ticked) ->
     (forall id, id ∈ ids -> exists ctx, lcores s !! id = Some ctx /\ ph ctx = Idle /\ ch ctx = []) /\
     exists ctx, lcores s !! main = Some ctx /\ gauges (Value ctx) = gauges_after ENOTSUP RING_PREFIX worlds n g /\
       (forall k w key x, n = S k -> w = worlds k -> names_apart (w_dev w) (w_zone w) (w_zones w) ->
          (exists p, p ∈ visited (w_dev w) /\ port_shown (w_dev w) p key = Some x) \/
          (exists z, z ∈ w_zones w /\ zone_shown (w_zone w) (w_cap w) (w_count w) RING_PREFIX z key = Some x) ->
          gauge_get (gauges (Value ctx)) key = Some x) /\
       is_Some (run PanicAsErr s (stop_jobs (c + S n)%nat ids))).
Proof.
  rewrite exporter_calls_calls in *. set (us := init_metrics :: _) in *.
  assert (Hms : Forall (fun x => fst x ∈ ids) (map (pair main) us)) by (apply Forall_forall; intros x Hx; by apply list_elem_of_fmap in Hx as (u & -> & _)).
  assert (Cr : crashed s = false).
  { eapply (calls_live PanicAsErr ids _ c (map (pair main) us)); [|exact Run|exact Own]. intros k m u Hu.
    assert (Lu : map (pair main) us !! k = pair main <$> (us !! k)) by apply list_lookup_fmap. rewrite Lu in Hu.
    destruct (us !! k) as [w|] eqn:Hw; [|done]. injection Hu as <- <-. rewrite firstn_map, on_lcore_all.
    by apply (jobs_quiet ENOTSUP RING_PREFIX closure as_fn worlds r cb g mp room Fr Hcb Hroom Cl (ticks sel) Room). }
  split; [exact Cr|]. split; [|split].
  - pose proof (calls_bound PanicAsErr ids _ c _ evs s Run Cr Own) as B. rewrite length_map in B. unfold us in B. cbn [length] in B.
    by rewrite length_map, length_seq in B.
  - destruct (calls_progress PanicAsErr ids _ c _ evs s Hms Run Cr Own) as [D|[D|(m & M & D)]]; [by left|right; by left|]. right. right.
    by apply list_elem_of_fmap in M as (x & -> & (u & -> & _)%list_elem_of_fmap).
  - intros n Hn En. rewrite exporter_calls_calls in En.
    assert (T : ticks (replicate n Ticked) = n) by (clear; induction n; cbn; congruence). rewrite T in En.
    destruct (calls_between PanicAsErr ids _ c evs s Run Cr _ En) as (Id & Ch). rewrite length_map in Ch.
    split; [intros id Hid; destruct (Id id Hid) as (x & ? & ? & ? & _); by exists x|]. destruct (Id main Hm) as (ctx & Hc & _ & _ & Vl). rewrite on_lcore_all in Vl.
    destruct (jobs_applied ENOTSUP RING_PREFIX closure as_fn worlds r cb g mp room Fr Hcb Hroom Cl n) as (r' & cb' & Ea & _); [lia|].
    rewrite Ea in Vl. exists ctx. split; [exact Hc|]. rewrite Vl. cbn [gauges]. split_and!; [done| |].
    + intros k w key x -> -> Ap Sh. unfold gauges_after. rewrite seq_S, map_app, foldl_app. cbn [map foldl plus].
      destruct (collect_shows (w_dev (worlds k)) ENOTSUP (w_zone (worlds k)) (w_cap (worlds k)) (w_count (worlds k)) RING_PREFIX
        (w_zones (worlds k)) (foldl (world_step ENOTSUP RING_PREFIX) g (map worlds (seq 0 k))) Ap) as (_ & P & Zs & _).
      destruct Sh as [(p & Hp & Sp)|(z & Hz & Sz)]; [by apply (P p)|by apply (Zs z)].
    + apply stop_accepted; [exact Cr|exact ND|by intros ->; apply elem_of_nil in Hm| |].
      * apply Ch. cbn [length]. rewrite length_map, length_seq. lia.
      * intros id Hid. destruct (Id id Hid) as (x & Hx & _ & Ex & _). by exists x.
Qed.

(** One tick on main lcore 0 of two, with the device and the ring of [ExporterSpec]. *)
Definition sample_world : world := mkWorld sample_devices [1; 2] sample_zone (fun _ => 63) (fun _ => 5).
Definition sample_as_fn (w : world) : unit -> callback (R := objArray unit) (S := gauge -> option Z) :=
  fun _ mz st => Some (fst st, collect_zone (w_zone w) (w_cap w) (w_count w) [82; 71; 95] mz (snd st)).
Definition sample_life : list (@event (app_mem (list desc) (objArray unit) (gauge -> option Z)) unit) :=
  let job f c := [Make c 1; Submit 0 (mkJob (User f) (Some c)); Thread 0; Thread 0; Thread 0; Recv c] in
  job init_metrics 7%nat ++ job (collect 95 tt sample_as_fn (fun _ => sample_world) 0) 8%nat.

Lemma exporter_life_witness : exists s, run false (ealLaunch [0; 2] (mkApp [] None NewRegistryArray (fun _ => None))) sample_life = Some s /\
  crashed s = false /\ exists ctx, lcores s !! 0 = Some ctx /\ gauges (Value ctx) (Speed_, [[65]]) = Some 10000 /\
    gauges (Value ctx) (Count_, [[82; 71; 95; 49]]) = Some 5 /\ is_Some (run false s (stop_jobs 9 [0; 2])).
Proof.
  destruct (run false (ealLaunch [0; 2] (mkApp [] None NewRegistryArray (fun _ => None))) sample_life) as [s|] eqn:R.
  2: { exfalso. assert (X : match run false (ealLaunch [0; 2] (mkApp [] None NewRegistryArray (fun _ => None))) sample_life with
                             | Some _ => true | None => false end = true) by (vm_compute; reflexivity). rewrite R in X. discriminate X. }
  exists s. split; [reflexivity|].
  destruct (exporter_life (R := list desc) false 95 [82; 71; 95] tt sample_as_fn (fun _ => sample_world) [] NewRegistryArray (fun _ => None) ∅ 100
    [0; 2] 0 7 [Ticked; ShutDown] sample_life s) as (Cr & _ & _ & L).
  - intros d Hd. apply elem_of_nil in Hd. destruct Hd.
  - split; [intros i o Hi; rewrite lookup_empty in Hi; discriminate Hi|reflexivity].
  - split; [lia|simpl; lia].
  - simpl. lia.
  - intros k mz st g. reflexivity.
  - apply list_elem_of_here.
  - apply (bool_decide_unpack _). vm_compute. exact I.
  - exact R.
  - exists []. rewrite app_nil_r. reflexivity.
  - split; [exact Cr|]. destruct (L 1%nat) as (_ & ctx & Hc & _ & Sh & St); [simpl; lia|reflexivity|].
    exists ctx. split; [exact Hc|]. split; [|split; [|exact St]].
    + apply (Sh 0%nat sample_world _ _ eq_refl eq_refl sample_names_apart). left. exists 0. split; [|reflexivity].
      apply (bool_decide_unpack _). vm_compute. exact I.
    + apply (Sh 0%nat sample_world _ _ eq_refl eq_refl sample_names_apart). right. exists 1. split; [apply list_elem_of_here|reflexivity].
Defined.
