(* ===== verification/Hello.v ===== *)
(** * Hello world

    [src/app/helloworld/main.go] on [EalCalls]: behind the initialisation, a call on
    every lcore that logs a line, one after the other, then [StopLcores]. What a
    lcore has logged is its value. *)

From Stdlib Require Import ZArith Lia String.
From stdpp Require Import base list numbers option gmap.
From S2P Require Import Prelude Text Errno Eal EalSpec EalCalls.

Open Scope Z_scope.

Definition line (id : Z) : list Z := str "hello from core " ++ fmt_d id.
(** The function on lcore [id], where [LcoreID] is [id]. *)
Definition hello (id : Z) (logged : list (list Z)) : list (list Z) * option unit := (logged ++ [line id], None).

Abbreviation ev_t := (@event (list (list Z)) unit).

(** The loop over [eal.Lcores()], and the deferred [StopLcores]. *)
Fixpoint hello_calls (c : nat) (lcores : list Z) : list ev_t :=
  match lcores with
  | [] => []
  | id :: lcores => ExecOnLcore c id (User (hello id)) ++ hello_calls (S c) lcores
  end.
(* go: app/helloworld/main.go main *)
Definition hello_main (c : nat) (lcores : list Z) : list ev_t := hello_calls c lcores ++ StopLcores (c + length lcores)%nat lcores.

Abbreviation hellos lcores := (map (fun id => (id, hello id)) lcores).

Lemma hello_calls_calls lcores : forall c, hello_calls c lcores = calls c (users (hellos lcores)).
Proof. induction lcores as [|id l IH]; intros c; [done|]. cbn [hello_calls map users calls fst snd]. by rewrite IH. Qed.

Lemma hello_once lcores id : NoDup lcores -> id ∈ lcores -> on_lcore id (hellos lcores) = [hello id].
Proof.
  unfold on_lcore. induction 1 as [|x l Nx ND IH]; [by intros ?%elem_of_nil|]. cbn [map List.filter fst]. intros [->|H]%elem_of_cons.
  - rewrite Z.eqb_refl. cbn. f_equal. assert (F : List.filter (fun y => fst y =? x) (hellos l) = []); [|by rewrite F].
    clear -Nx. induction l as [|y l IH]; [done|]. apply not_elem_of_cons in Nx as [N Nx]. cbn. rewrite (proj2 (Z.eqb_neq y x)) by done. by apply IH.
  - rewrite (proj2 (Z.eqb_neq x id)) by (intros ->; done). by apply IH.
Qed.

(** Hello world, whatever the threads do in between: it does not panic and is not
    stuck before all lcores were called; then each of them has logged its line,
    once, and [StopLcores] finds room for its jobs. *)
Theorem hello_spec (PanicAsErr : bool) lcores c evs s (ND : NoDup lcores) (Ne : lcores <> [])
    (R : run PanicAsErr (ealLaunch lcores []) evs = Some s) (O : own evs `prefix_of` hello_calls c lcores) :
  crashed s = false /\ (count is_thread evs <= 3 * length lcores)%nat /\
  (own evs = hello_calls c lcores \/ exists ev, is_Some (exec PanicAsErr s ev) /\
     (own evs ++ [ev] `prefix_of` hello_calls c lcores \/ exists id, id ∈ lcores /\ ev = Thread id)) /\
  (own evs = hello_calls c lcores ->
     (forall id, id ∈ lcores -> exists ctx, Eal.lcores s !! id = Some ctx /\ ph ctx = Idle /\ Value ctx = [line id]) /\
     is_Some (run PanicAsErr s (stop_jobs (c + length lcores)%nat lcores))).
Proof.
  rewrite hello_calls_calls in *.
  assert (Hm : Forall (fun x => fst x ∈ lcores) (hellos lcores)) by (apply Forall_forall; intros x Hx; by apply list_elem_of_fmap in Hx as (u & -> & ?)).
  assert (Cr : crashed s = false).
  { eapply (calls_live PanicAsErr lcores [] c (hellos lcores)); [|exact R|exact O]. intros k m u Hu.
    assert (Lu : hellos lcores !! k = (fun id => (id, hello id)) <$> (lcores !! k)) by apply list_lookup_fmap. rewrite Lu in Hu.
    destruct (lcores !! k); [|done]. by injection Hu as <- <-. }
  split; [exact Cr|]. split; [|split].
  - pose proof (calls_bound PanicAsErr lcores [] c _ evs s R Cr O) as B. by rewrite length_map in B.
  - destruct (calls_progress PanicAsErr lcores [] c _ evs s Hm R Cr O) as [D|[(ev & D & X)|(m & M & D)]]; [by left|right..].
    + exists ev. split; [exact X|by left].
    + exists (Thread m). split; [exact D|]. right. exists m. split; [|done]. by apply list_elem_of_fmap in M as (x & -> & (u & -> & ?)%list_elem_of_fmap).
  - intros E. destruct (calls_between PanicAsErr lcores [] c evs s R Cr _ E) as [Id Ch]. rewrite length_map in Ch. split.
    + intros id Hid. destruct (Id id Hid) as (ctx & Hc & Ph & _ & Vl). exists ctx. rewrite hello_once in Vl by done. done.
    + apply stop_accepted; [exact Cr|exact ND|exact Ne|by apply Ch|]. intros id Hid. destruct (Id id Hid) as (x & Hx & _ & Ex & _). by exists x.
Qed.
