(* ===== verification/Views.v ===== *)
(** * Go slices over C memory

    The accessors that set a slice header by hand, through [reflect.SliceHeader],
    so that Go reads and writes C memory in place: the private data and the objects
    of a pool ([src/mempool/mempool.go]), the bytes of a memory zone
    ([src/memzone/memzone.go]), the redirection table and the Ethernet address of a
    device ([src/ethdev/ethdev.go]) and the packets of a transmit buffer
    ([src/ethdev/rxtx.go]); with the three things Go does with a slice. *)

From Stdlib Require Import ZArith Lia.
From stdpp Require Import base list numbers option gmap.
From S2P Require Import Prelude Memory Types Exporter.

Open Scope Z_scope.

(** ** Slices *)

(** The address of the first element, the length and the capacity. *)
Record slice := mkSlice { Data : Z; Len : Z; Cap : Z }.

Section Slices.
(** The size of an element, little-endian. *)
Variable sz : nat.

Definition elem_at (s : slice) (i : Z) : Z := Data s + i * Z.of_nat sz.

(** An index out of range panics ([None]), as unmapped memory does. *)
Definition slice_get (s : slice) (i : Z) (m : mem) : option Z :=
  if (0 <=? i) && (i <? Len s) then load_le m (elem_at s i) sz else None.
Definition slice_set (s : slice) (i v : Z) (m : mem) : option mem :=
  if (0 <=? i) && (i <? Len s) then store_le m (elem_at s i) sz v else None.

(** [append(s, v)]: in place while there is capacity, or else in a new array at
    [fresh] with room for [grown] elements. *)
Definition append (fresh grown : Z) (s : slice) (v : Z) (m : mem) : option (slice * mem) :=
  if Len s <? Cap s then
    (fun m => (mkSlice (Data s) (Len s + 1) (Cap s), m)) <$> store_le m (elem_at s (Len s)) sz v
  else
    match load_bytes m (Data s) (Z.to_nat (Len s) * sz) with
    | None => None
    | Some old =>
        Some (mkSlice fresh (Len s + 1) grown,
              write m fresh (old ++ le_bytes sz v ++ replicate (Z.to_nat (grown - Len s - 1) * sz) 0))
    end.

(** A view of [n] elements at [p]. *)
Definition view (p n : Z) : slice := mkSlice p n n.

Lemma slice_get_set s i v m : 0 <= i < Len s -> 0 <= v < 256 ^ Z.of_nat sz -> mapped m (Data s) (Len s * Z.of_nat sz) ->
  exists m', slice_set s i v m = Some m' /\ slice_get s i m' = Some v /\
    (forall j, 0 <= j < Len s -> j <> i -> slice_get s j m' = slice_get s j m) /\
    (forall q, q < elem_at s i \/ elem_at s i + Z.of_nat sz <= q -> m' !! q = m !! q).
Proof.
  intros Hi Hv Hm. unfold slice_set, slice_get. rewrite (proj2 (andb_true_iff _ _)) by lia.
  assert (Ms : mapped m (elem_at s i) (Z.of_nat (length (le_bytes sz v)))).
  { rewrite length_le_bytes. apply (mapped_sub m (Data s) (Len s * Z.of_nat sz)); [done|unfold elem_at; nia|unfold elem_at; nia]. }
  unfold store_le. rewrite store_bytes_mapped by done. eexists. split; [done|]. split_and!.
  - by apply load_le_write_same.
  - intros j Hj Nj. rewrite (proj2 (andb_true_iff _ _)) by lia. apply load_le_write_disj. rewrite length_le_bytes. unfold elem_at. nia.
  - intros q Hq. apply lookup_write_out. by rewrite length_le_bytes.
Qed.

(** Behind a view nothing is written: the elements are copied. *)
Lemma append_view p n fresh grown v m : 0 <= n -> mapped m p (n * Z.of_nat sz) -> n < grown ->
  (forall q, fresh <= q < fresh + grown * Z.of_nat sz -> m !! q = None) ->
  exists s' m', append fresh grown (view p n) v m = Some (s', m') /\ m ⊆ m' /\ Len s' = n + 1 /\
    forall i, 0 <= i < n -> slice_get s' i m' = slice_get (view p n) i m.
Proof.
  intros Hn Hm Hg Fr. unfold append, view. cbn [Len Cap Data]. rewrite Z.ltb_irrefl.
  destruct (load_bytes_mapped m p (Z.to_nat n * sz)) as (old & Lo & Ll); [by replace (Z.of_nat (Z.to_nat n * sz)) with (n * Z.of_nat sz) by lia|].
  rewrite Lo. set (bs := old ++ _). assert (Lb : Z.of_nat (length bs) = grown * Z.of_nat sz).
  { unfold bs. rewrite !length_app, Ll, length_le_bytes, length_replicate. nia. }
  eexists _, _. split; [done|]. cbn [Len]. split_and!; [|done|].
  - apply map_subseteq_spec. intros q b Hq. rewrite lookup_write. case_decide as D; [|done]. rewrite Fr in Hq by lia. done.
  - intros i Hi. unfold slice_get, elem_at. cbn [Len Data]. rewrite !(proj2 (andb_true_iff _ _)) by lia. unfold load_le. f_equal.
    rewrite load_write_in by nia. destruct (load_bytes_mapped m (p + i * Z.of_nat sz) sz) as (x & Lx & Lxl).
    { apply (mapped_sub m p (n * Z.of_nat sz)); [done|nia|nia]. }
    rewrite Lx. f_equal. apply list_eq. intros k. destruct (decide (k < sz)%nat) as [Hk|Hk].
    + rewrite lookup_take_lt by lia. rewrite lookup_drop. unfold bs. rewrite lookup_app_l by (rewrite Ll; nia).
      rewrite (load_bytes_lookup _ _ _ _ _ Lo) by nia. rewrite (load_bytes_lookup _ _ _ _ _ Lx) by lia. f_equal. nia.
    + rewrite lookup_take_ge by lia. symmetry. apply lookup_ge_None. lia.
Qed.
End Slices.

(** ** The views *)

(** The bytes of an object, which the callback of [ObjIter] gets. *)
(* go: mempool/mempool.go goObjectCb *)
Definition goObjectCb (elt_size obj : Z) : slice := view obj elt_size.
(** A nil slice if there is no private data. *)
(* go: mempool/mempool.go Mempool.PrivBytes *)
Definition PrivBytes (rte_mempool_get_priv private_data_size : Z) : slice :=
  if rte_mempool_get_priv =? 0 then mkSlice 0 0 0 else view rte_mempool_get_priv private_data_size.

(* go: memzone/memzone.go Memzone.Name *)
Definition Mz_Name (mz : Memzone) : list Z := mz_name mz.
(* go: memzone/memzone.go Memzone.Addr *)
Definition Mz_Addr (mz : Memzone) : Z := mz_addr mz.
(* go: memzone/memzone.go Memzone.Len *)
Definition Mz_Len (mz : Memzone) : Z := mz_len mz.
(* go: memzone/memzone.go Memzone.SocketID *)
Definition Mz_SocketID (mz : Memzone) : Z := mz_socket_id mz.
(* go: memzone/memzone.go Memzone.HugePageSz *)
Definition Mz_HugePageSz (mz : Memzone) : Z := mz_hugepage_sz mz.
(* go: memzone/memzone.go Memzone.Bytes *)
Definition Mz_Bytes (mz : Memzone) : slice := view (Mz_Addr mz) (Mz_Len mz).

(** The layout of [rte_eth_rss_reta_entry64] and [rte_eth_dev_tx_buffer]. *)
Record view_layout := mkViewLayout {
  reta_off : Z; mask_off : Z; reta_group : Z; tx_sizeof : Z; tx_size_off : Z; tx_length_off : Z
}.
Section Layout.
Variable L : view_layout.

(** 64 elements of two bytes. *)
(* go: ethdev/ethdev.go RssRetaEntry64.Reta *)
Definition Reta (conf : Z) : slice := view (conf + reta_off L) (reta_group L).
(** The address of the 64-bit mask. *)
(* go: ethdev/ethdev.go RssRetaEntry64.Mask *)
Definition Mask (conf : Z) : Z := conf + mask_off L.

(** Pointers of eight bytes, as many as the buffer holds; the capacity is its size. *)
(* go: ethdev/rxtx.go TxBuffer.Mbufs *)
Definition Mbufs (buf : Z) (m : mem) : option slice :=
  match load_le m (buf + tx_length_off L) 2, load_le m (buf + tx_size_off L) 2 with
  | Some length, Some size => Some (mkSlice (buf + tx_sizeof L) length size)
  | _, _ => None
  end.
(** [rte_eth_tx_buffer_init] writes the size, and a length of zero; the rest of the
    header it fills is not looked at. *)
(* go: ethdev/rxtx.go TxBuffer.Init *)
Definition TxBuffer_Init (buf cnt : Z) (m : mem) : option mem :=
  match store_le m (buf + tx_size_off L) 2 (u16 cnt) with
  | None => None
  | Some m => store_le m (buf + tx_length_off L) 2 0
  end.
End Layout.

(** The six bytes of the address. *)
(* go: ethdev/ethdev.go MACAddr.HardwareAddr *)
Definition HardwareAddr (addr : Z) : slice := view addr 6.
(* go: ethdev/ethdev.go MACAddr.String *)
Definition MACAddr_String (addr : Z) (m : mem) : option (list Z) := MACAddress_String <$> load_bytes m (Data (HardwareAddr addr)) 6.

(** ** What they are good for *)

(** A slice that a view makes over an object in C memory: an element is read and
    written in place, so that DPDK sees it, and nothing else changes; an index
    outside of the object panics instead of reaching other memory; and appending
    copies the elements, so that C memory keeps every byte. *)
Theorem views_edit (sz : nat) p n m (Hn : 0 <= n) (Hm : mapped m p (n * Z.of_nat sz)) :
  (forall i v, 0 <= i < n -> 0 <= v < 256 ^ Z.of_nat sz -> exists m', slice_set sz (view p n) i v m = Some m' /\
     load_le m' (p + i * Z.of_nat sz) sz = Some v /\ slice_get sz (view p n) i m' = Some v /\
     (forall j, 0 <= j < n -> j <> i -> slice_get sz (view p n) j m' = slice_get sz (view p n) j m) /\
     (forall q, q < p + i * Z.of_nat sz \/ p + i * Z.of_nat sz + Z.of_nat sz <= q -> m' !! q = m !! q)) /\
  (forall i v, i < 0 \/ n <= i -> slice_get sz (view p n) i m = None /\ slice_set sz (view p n) i v m = None) /\
  (forall fresh grown v, n < grown -> (forall q, fresh <= q < fresh + grown * Z.of_nat sz -> m !! q = None) ->
     exists s' m', append sz fresh grown (view p n) v m = Some (s', m') /\ m ⊆ m' /\
       forall i, 0 <= i < n -> slice_get sz s' i m' = slice_get sz (view p n) i m).
Proof.
  split_and!.
  - intros i v Hi Hv. destruct (slice_get_set sz (view p n) i v m) as (m' & E & G & O & K); [done|done|done|].
    exists m'. split_and!; [done| |done|done|done]. unfold slice_get in G. by rewrite (proj2 (andb_true_iff _ _)) in G by (cbn; lia).
  - intros i v Hi. unfold slice_get, slice_set, view. cbn [Len]. by rewrite (proj2 (andb_false_iff _ _)) by lia.
  - intros fresh grown v Hg Fr. destruct (append_view sz p n fresh grown v m) as (s' & m' & E & S & _ & G); [done..|]. by exists s', m'.
Qed.

(** The redirection table entry at 100: element 5 is set; the mask stays. *)
Lemma views_edit_witness :
  let L := mkViewLayout 8 0 64 24 16 18 in
  let m := write ∅ 100 (replicate 136 0) in
  exists m', slice_set 2 (Reta L 100) 5 513 m = Some m' /\ load_le m' 118 2 = Some 513 /\ load_le m' (Mask L 100) 8 = Some 0 /\
    slice_set 2 (Reta L 100) 64 1 m = None.
Proof.
  intros L m. assert (Hm : mapped m 108 (64 * Z.of_nat 2)).
  { intros i Hi. unfold m. rewrite lookup_write. cbn in Hi. rewrite decide_True by (rewrite length_replicate; lia).
    apply lookup_lt_is_Some_2. rewrite length_replicate. lia. }
  destruct (views_edit 2 108 64 m) as (A & B & _); [lia|exact Hm|].
  destruct (A 5 513) as (m' & E & Ld & _ & _ & K); [lia|cbn; lia|]. exists m'. split; [exact E|]. split; [exact Ld|]. split.
  - transitivity (load_le m (Mask L 100) 8); [|vm_compute; reflexivity]. unfold load_le. f_equal. apply load_bytes_agree.
    intros q Hq. apply K. unfold Mask, L in Hq; cbn in Hq. left. lia.
  - apply (B 64 1). lia.
Defined.

(** The packets of a transmit buffer have capacity behind them: while the buffer is
    not full, appending writes the slot behind the packets, but the length stays, so
    that DPDK does not know of it and overwrites it with the next packet. *)
Theorem TxBuffer_append L buf s fresh grown v m (Es : Mbufs L buf m = Some s) (Hl : 0 <= Len s < Cap s) (Hv : 0 <= v < 2 ^ 64)
    (Hm : mapped m (Data s) (Cap s * 8)) (Ol : tx_length_off L + 2 <= tx_sizeof L) (Os : tx_size_off L + 2 <= tx_sizeof L) :
  exists s' m', append 8 fresh grown s v m = Some (s', m') /\ Data s' = Data s /\ Len s' = Len s + 1 /\
    slice_get 8 s' (Len s) m' = Some v /\ Mbufs L buf m' = Some s.
Proof.
  unfold append. rewrite (proj2 (Z.ltb_lt _ _)) by lia. unfold store_le. rewrite store_bytes_mapped.
  2: { rewrite length_le_bytes. apply (mapped_sub m (Data s) (Cap s * 8)); [done|unfold elem_at; lia|unfold elem_at; lia]. }
  cbn [fmap option_fmap option_map]. eexists _, _. split; [done|]. split_and!; [done|done| |].
  - unfold slice_get. cbn [Len]. rewrite (proj2 (andb_true_iff _ _)) by lia. unfold elem_at. cbn [Data]. by apply load_le_write_same.
  - unfold Mbufs in *. destruct (load_le m (buf + tx_length_off L) 2) as [ln|] eqn:E1; [|done].
    destruct (load_le m (buf + tx_size_off L) 2) as [si|] eqn:E2; [|done]. injection Es as <-. cbn [Data Len Cap] in *.
    unfold elem_at. cbn [Data]. rewrite !load_le_write_disj, E1, E2 by (rewrite ?length_le_bytes; lia). done.
Qed.
