(* ===== verification/DevQuery.v ===== *)
(** * Ethernet devices: what they answer

    The queries of [src/ethdev/ethdev.go], [stats.go] and [rxtx.go] that hand a
    variable to DPDK and return what it left there. Several do both in one
    [return], as in [return uint16(mtu), errget(f(&mtu))]: Go leaves open whether
    the variable is read before or after the call, so that the order is an
    argument here. The functions of DPDK are arguments too. *)

From Stdlib Require Import ZArith Lia.
From stdpp Require Import base list numbers option gmap sets.
From S2P Require Import Prelude Text Errno Memory EthStats Ethdev Exporter ExporterSpec App Views.

Open Scope Z_scope.

(** When an operand of [return] that is a variable is read, if another operand is a
    call that changes it. *)
Inductive order := Read_first | Call_first.
Definition out {A} (o : order) (before after : A) : A := match o with Read_first => before | Call_first => after end.

(** ** Structures *)

(** The fields of [struct rte_eth_dev_info] that are read; [dev_flags] is a pointer. *)
Record rte_eth_dev_info := mkRteDevInfo {
  i_driver_name : list Z; if_index : Z; i_min_mtu : Z; i_max_mtu : Z; dev_flags : option Z; min_rx_bufsize : Z; max_rx_pktlen : Z;
  max_rx_queues : Z; max_tx_queues : Z; tx_offload_capa : Z; tx_queue_offload_capa : Z; i_reta_size : Z; i_nb_rx_queues : Z; i_nb_tx_queues : Z
}.
(* go: ethdev/ethdev.go DevInfo.MinMTU *)
Definition MinMTU (info : rte_eth_dev_info) : Z := i_min_mtu info.
(* go: ethdev/ethdev.go DevInfo.MaxMTU *)
Definition MaxMTU (info : rte_eth_dev_info) : Z := i_max_mtu info.
(* go: ethdev/ethdev.go DevInfo.MaxRxPktLen *)
Definition MaxRxPktLen (info : rte_eth_dev_info) : Z := max_rx_pktlen info.
(* go: ethdev/ethdev.go DevInfo.MinRxBufSize *)
Definition MinRxBufSize (info : rte_eth_dev_info) : Z := min_rx_bufsize info.
(* go: ethdev/ethdev.go DevInfo.MaxRxQueues *)
Definition MaxRxQueues (info : rte_eth_dev_info) : Z := max_rx_queues info.
(* go: ethdev/ethdev.go DevInfo.MaxTxQueues *)
Definition MaxTxQueues (info : rte_eth_dev_info) : Z := max_tx_queues info.
(* go: ethdev/ethdev.go DevInfo.TxQueueOffloadCapa *)
Definition TxQueueOffloadCapa (info : rte_eth_dev_info) : Z := tx_queue_offload_capa info.
(* go: ethdev/ethdev.go DevInfo.TxOffloadCapa *)
Definition TxOffloadCapa (info : rte_eth_dev_info) : Z := tx_offload_capa info.
(** A nil pointer, before [InfoGet], panics. *)
(* go: ethdev/ethdev.go DevInfo.DevFlags *)
Definition DevFlags (info : rte_eth_dev_info) : option Z := dev_flags info.
(** [RTE_ETH_DEV_INTR_LSC] is one bit. *)
(* go: ethdev/ethdev.go DevFlags.IsIntrLSC *)
Definition IsIntrLSC (INTR_LSC f : Z) : bool := negb (Z.land f INTR_LSC =? 0).

(* go: ethdev/ethdev.go readIntrConf *)
Definition readIntrConf (intr : rte_eth_intr_conf) : Z * Z * Z := (lsc intr, rxq intr, rmv intr).
(* go: ethdev/ethdev.go DevConf.TxOffloadCapa *)
Definition DevConf_TxOffloadCapa (conf : rte_eth_conf) : Z := tx_offloads (txmode conf).

(** [struct rte_eth_fc_conf]: the mode and the rest. *)
(* go: ethdev/ethdev.go FcConf *)
Record FcConf := mkFcConf { fc_mode : Z; fc_rest : list Z }.
(* go: ethdev/ethdev.go FcConf.SetMode *)
Definition SetMode (n : Z) (c : FcConf) : FcConf := mkFcConf n (fc_rest c).

(** [C.GoString] of an array; without a NUL it reads on behind it ([None]). *)
Fixpoint GoString (buf : list Z) : option (list Z) :=
  match buf with [] => None | b :: r => if b =? 0 then Some [] else cons b <$> GoString r end.

Section Queries.
Variable o : order.
Variable E : rte_numbers.

(** ** Numbers and structures that a call fills *)

(** The code, and the variable behind the call. *)
(* go: ethdev/ethdev.go Port.GetMTU *)
Definition GetMTU (rte_eth_dev_get_mtu : Z -> Z -> Z * Z) (pid : Z) : Z * option go_error :=
  let '(rc, mtu) := rte_eth_dev_get_mtu pid 0 in (out o 0 mtu, errget E rc).

Definition zero_link : EthLink := mkEthLink 0 0 0 0.
(** [data] is not initialised, and copied after an error too. *)
(* go: ethdev/ethdev.go 90-99 go_rte_eth_link_get *)
Definition go_rte_eth_link_get (rte_eth_link_get : Z -> EthLink -> Z * EthLink) (uninit : EthLink) (pid : Z) : Z * EthLink :=
  let '(rc, data) := rte_eth_link_get pid uninit in
  (rc, mkEthLink (link_speed data) (link_duplex data) (link_autoneg data) (link_status data)).
(* go: ethdev/ethdev.go Port.EthLinkGet *)
Definition EthLinkGet (rte_eth_link_get : Z -> EthLink -> Z * EthLink) (uninit : EthLink) (pid : Z) : EthLink * option go_error :=
  let '(rc, d) := go_rte_eth_link_get rte_eth_link_get uninit pid in (out o zero_link d, errget E rc).
(** The same with [rte_eth_link_get_nowait]. *)
(* go: ethdev/ethdev.go 101-110 go_rte_eth_link_get_nowait *)
Definition go_rte_eth_link_get_nowait := go_rte_eth_link_get.
(* go: ethdev/ethdev.go Port.EthLinkGetNowait *)
Definition EthLinkGetNowait (rte_eth_link_get_nowait : Z -> EthLink -> Z * EthLink) (uninit : EthLink) (pid : Z) : EthLink * option go_error :=
  let '(rc, d) := go_rte_eth_link_get_nowait rte_eth_link_get_nowait uninit pid in (out o zero_link d, errget E rc).

(** C sees the name up to its first NUL. *)
(* go: ethdev/ethdev.go GetPortByName *)
Definition GetPortByName (rte_eth_dev_get_port_by_name : list Z -> Z -> Z * Z) (name : list Z) : Z * option go_error :=
  let '(rc, p) := rte_eth_dev_get_port_by_name (c_str name) 0 in (out o 0 p, errget E rc).
(** The error comes first here; [buf] has [RTE_ETH_NAME_MAX_LEN] zero bytes. *)
(* go: ethdev/ethdev.go Port.Name *)
Definition Name (MAX : nat) (rte_eth_dev_get_name_by_port : Z -> list Z -> Z * list Z) (pid : Z) : option (list Z * option go_error) :=
  let '(rc, buf) := rte_eth_dev_get_name_by_port pid (replicate MAX 0) in (fun s => (s, errget E rc)) <$> GoString buf.

(** The caller's structure is filled. *)
(* go: ethdev/ethdev.go Port.InfoGet *)
Definition InfoGet (rte_eth_dev_info_get : Z -> rte_eth_dev_info -> Z * rte_eth_dev_info) (pid : Z) (info : rte_eth_dev_info) :
    option go_error * rte_eth_dev_info :=
  let '(rc, info) := rte_eth_dev_info_get pid info in (errget E rc, info).
(* go: ethdev/ethdev.go Port.DevConfGet *)
Definition DevConfGet (rte_eth_dev_conf_get : Z -> rte_eth_conf -> Z * rte_eth_conf) (pid : Z) (conf : rte_eth_conf) :
    option go_error * rte_eth_conf :=
  let '(rc, conf) := rte_eth_dev_conf_get pid conf in (errget E rc, conf).
(* go: ethdev/ethdev.go Port.MACAddrGet *)
Definition MACAddrGet (rte_eth_macaddr_get : Z -> list Z -> Z * list Z) (pid : Z) (addr : list Z) : option go_error * list Z :=
  let '(rc, addr) := rte_eth_macaddr_get pid addr in (errget E rc, addr).
(* go: ethdev/ethdev.go Port.FlowCtrlGet *)
Definition FlowCtrlGet (rte_eth_dev_flow_ctrl_get : Z -> FcConf -> Z * FcConf) (pid : Z) (conf : FcConf) : option go_error * FcConf :=
  let '(rc, conf) := rte_eth_dev_flow_ctrl_get pid conf in (errget E rc, conf).
(* go: ethdev/ethdev.go Port.FlowCtrlSet *)
Definition FlowCtrlSet (rte_eth_dev_flow_ctrl_set : Z -> FcConf -> Z) (pid : Z) (conf : FcConf) : option go_error :=
  errget E (rte_eth_dev_flow_ctrl_set pid conf).
(* go: ethdev/ethdev.go Port.SocketID *)
Definition SocketID (rte_eth_dev_socket_id : Z -> Z) (pid : Z) : Z := rte_eth_dev_socket_id pid.
(* go: ethdev/ethdev.go CountAvail *)
Definition CountAvail (rte_eth_dev_count_avail : Z) : Z := rte_eth_dev_count_avail.
(* go: ethdev/ethdev.go CountTotal *)
Definition CountTotal (rte_eth_dev_count_total : Z) : Z := rte_eth_dev_count_total.

(** The structure starts as zeros: its key pointer is NULL. *)
(* go: ethdev/ethdev.go Port.RssHashConfGet *)
Definition RssHashConfGet (rte_eth_dev_rss_hash_conf_get : Z -> rte_eth_rss_conf -> Z * rte_eth_rss_conf) (pid : Z) :
    option go_error * (slice * Z) :=
  let '(rc, c) := rte_eth_dev_rss_hash_conf_get pid (mkRssC 0 0 0) in
  (errget E rc, (mkSlice (rss_key c) (rss_key_len c) (rss_key_len c), rss_hf c)).

(** [&conf[0]] or NULL; [retaSize] is not compared with the length of the slice. *)
(* go: ethdev/ethdev.go Port.RssRetaUpdate *)
Definition RssRetaUpdate (rte_eth_dev_rss_reta_update : Z -> Z -> Z -> Z) (pid : Z) (conf : slice) (retaSize : Z) : option go_error :=
  errget E (rte_eth_dev_rss_reta_update pid (if 0 <? Len conf then Data conf else 0) retaSize).
(* go: ethdev/ethdev.go Port.RssRetaQuery *)
Definition RssRetaQuery (rte_eth_dev_rss_reta_query : Z -> Z -> Z -> Z) (pid : Z) (conf : slice) (retaSize : Z) : option go_error :=
  errget E (rte_eth_dev_rss_reta_query pid (if 0 <? Len conf then Data conf else 0) retaSize).

(** ** Statistics *)

(* go: ethdev/stats.go Port.StatsGet *)
Definition StatsGet (rte_eth_stats_get : Z -> list Z -> Z * list Z) (pid : Z) (stats : list Z) : option go_error * list Z :=
  let '(rc, stats) := rte_eth_stats_get pid stats in (errget E rc, stats).

(** A name is an array of bytes; the second call writes at most [n] of them. *)
(* go: ethdev/stats.go Port.XstatNames *)
Definition XstatNames (zero_name : list Z) (rte_eth_xstats_get_names : Z -> option Z -> Z * list (list Z)) (pid : Z) :
    option (list (list Z)) * option go_error :=
  let n := fst (rte_eth_xstats_get_names pid None) in
  if n <=? 0 then (None, errget E n)
  else
    let got := snd (rte_eth_xstats_get_names pid (Some n)) in
    (Some (got ++ replicate (Z.to_nat n - length got) zero_name), None).
(* go: ethdev/stats.go XstatName.String *)
Definition XstatName_String (x : list Z) : option (list Z) := GoString x.
(** [id] is the named result. *)
(* go: ethdev/stats.go Port.xstatIDByName *)
Definition xstatIDByName (get_id_by_name : Z -> list Z -> Z -> Z * Z) (pid : Z) (x : list Z) : Z * option go_error :=
  let '(rc, id) := get_id_by_name pid (c_str x) 0 in (out o 0 id, errget E rc).

(** The loop of [EthStats.XstatNameIDs] on these. *)
Definition device_XstatNameIDs zero_name get_names get_id_by_name (pid : Z) : ids_result :=
  XstatNameIDs (match XstatNames zero_name get_names pid with
                | (Some ns, _) => Names (map c_str ns) | (None, Some _) => NamesError | (None, None) => NoNames end)
    (fun x => match xstatIDByName get_id_by_name pid x with (id, None) => Some id | _ => None end).

(** The returned number may exceed the length of [out], which then holds the first. *)
(* go: ethdev/stats.go Port.XstatsGet *)
Definition XstatsGet {X} (rte_eth_xstats_get : Z -> nat -> Z * list X) (pid : Z) (out : list X) : option ((Z * option go_error) * list X) :=
  let '(n, got) := rte_eth_xstats_get pid (length out) in
  (fun r => (r, take (length out) (got ++ drop (length got) out))) <$> IntOrErr E (Some n).
(* go: ethdev/stats.go Port.XstatsReset *)
Definition XstatsReset (rte_eth_xstats_reset : Z -> Z) (pid : Z) : option go_error := errget E (rte_eth_xstats_reset pid).
(* go: ethdev/stats.go Port.StatsReset *)
Definition StatsReset (rte_eth_stats_reset : Z -> Z) (pid : Z) : option go_error := errget E (rte_eth_stats_reset pid).

(** ** The application that [NewApp] returns *)

(** [return app, doOnMain(...)]: [e] is the error of [ExecOnMain], [result] what
    [newApp] gives. *)
(* go: app/test-sniffer/init.go NewApp *)
Definition NewApp {A Er} (e : option Er) (result : option A * option Er) : option A * option Er :=
  (out o None (fst result), doOnMain e (snd result)).
End Queries.

(** ** Bursts *)

(** [burst] is not compared with [len(pkts)]: what DPDK writes behind the slice is
    [None], as is the panic for an empty one. *)
(* go: ethdev/rxtx.go Port.RxBurst *)
Definition RxBurst (rte_eth_rx_burst : Z -> Z -> Z -> list Z) (pid qid : Z) (pkts : list Z) (burst : Z) : option (Z * list Z) :=
  match pkts with
  | [] => None
  | _ =>
      let got := rte_eth_rx_burst pid qid burst in
      if (length got <=? length pkts)%nat then Some (u16 (Z.of_nat (length got)), got ++ drop (length got) pkts) else None
  end.
(** DPDK gets the first [uint16(len(pkts))] of them. *)
(* go: ethdev/rxtx.go Port.TxBurst *)
Definition TxBurst (rte_eth_tx_burst : Z -> Z -> list Z -> Z) (pid qid : Z) (pkts : list Z) : option Z :=
  match pkts with
  | [] => None
  | _ => Some (rte_eth_tx_burst pid qid (take (Z.to_nat (u16 (Z.of_nat (length pkts)))) pkts))
  end.

(** ** The order of the operands *)

(** [EthLinkGet] as the exporter asks for it. *)
Definition link_result (r : EthLink * option go_error) : go_error + EthLink := match snd r with Some e => inl e | None => inr (fst r) end.

Lemma errget_0 E : errget E 0 = None.
Proof. done. Qed.

(** Names that look up to different ids make a map from ids to names. *)
Lemma name_ids_map id ns : forall m, NoDup (map id ns) -> (forall x, x ∈ ns -> m !! id x = None) ->
  exists m', name_ids (fun x => Some (id x)) ns m = Ids m' /\ (forall x, x ∈ ns -> m' !! id x = Some x) /\
    forall i, i ∉ map id ns -> m' !! i = m !! i.
Proof.
  induction ns as [|x ns IH]; intros m ND F; cbn [name_ids]; [by exists m; split_and!; [|intros y Hy; by apply elem_of_nil in Hy|]|].
  cbn [map] in ND. apply NoDup_cons in ND as [Nx ND]. rewrite (F x) by constructor.
  destruct (IH (<[id x := x]> m) ND) as (m' & E & L & K).
  - intros y Hy. rewrite lookup_insert_ne; [apply F; by right|]. intros Eq. apply Nx. rewrite Eq. by apply (list_elem_of_fmap_2 id).
  - exists m'. split_and!; [done| |].
    + intros y [->|Hy]%elem_of_cons; [rewrite (K (id x) Nx); by rewrite lookup_insert_eq|by apply L].
    + intros i Hi. cbn [map] in Hi. apply not_elem_of_cons in Hi as [N1 N2]. rewrite (K i N2). by rewrite lookup_insert_ne.
Qed.

Lemma name_ids_clash ns m : (2 <= length ns)%nat -> m !! 0 = None -> name_ids (fun _ => Some 0) ns m = ErrExist.
Proof.
  intros L F. destruct ns as [|x [|y ns]]; cbn in L; [lia|lia|]. cbn [name_ids]. rewrite F. by rewrite lookup_insert_eq.
Qed.

Section Orders.
Variables (E : rte_numbers) (zero_name : list Z).
Variable get_names : Z -> option Z -> Z * list (list Z).
Variable get_id : Z -> list Z -> Z -> Z * Z.

(** A device that has the names [ns], each with the id [id] says. *)
Record names_device (pid : Z) (ns : list (list Z)) (id : list Z -> Z) : Prop := {
  nd_count : fst (get_names pid None) = Z.of_nat (length ns);
  nd_names : snd (get_names pid (Some (Z.of_nat (length ns)))) = ns;
  nd_some : (0 < length ns)%nat;
  nd_text : forall x, x ∈ ns -> c_str x = x;
  nd_ids : forall x, x ∈ ns -> get_id pid x 0 = (0, id x);
  nd_distinct : NoDup (map id ns)
}.

Lemma device_names pid ns id : names_device pid ns id -> XstatNames E zero_name get_names pid = (Some ns, None).
Proof.
  intros D. unfold XstatNames. rewrite (nd_count _ _ _ D). pose proof (nd_some _ _ _ D). rewrite (proj2 (Z.leb_gt _ _)) by lia.
  by rewrite (nd_names _ _ _ D), Nat2Z.id, Nat.sub_diag, app_nil_r.
Qed.

Lemma name_ids_ext f g ns m : (forall x, x ∈ ns -> f x = g x) -> name_ids f ns m = name_ids g ns m.
Proof.
  revert m. induction ns as [|x ns IH]; intros m Hf; [done|]. cbn [name_ids]. rewrite <- Hf by constructor.
  destruct (f x) as [i|]; [|done]. destruct (m !! i); [done|]. apply IH. intros y Hy. apply Hf. by right.
Qed.

Lemma device_ids o pid ns id : names_device pid ns id ->
  device_XstatNameIDs o E zero_name get_names get_id pid = name_ids (fun x => Some (out o 0 (id x))) ns ∅.
Proof.
  intros D. unfold device_XstatNameIDs. rewrite (device_names pid ns id D). unfold XstatNameIDs.
  rewrite (map_ext_in c_str (fun x => x)), map_id by (intros x Hx; by apply (nd_text _ _ _ D), list_elem_of_In).
  apply name_ids_ext. intros x Hx. unfold xstatIDByName. rewrite (nd_text _ _ _ D x Hx), (nd_ids _ _ _ D x Hx). by destruct o.
Qed.
End Orders.

(** [return] with a variable and a call that changes it: when the call comes
    first, [XstatNameIDs] of a device maps every id to its name, the exporter
    shows the link, and [NewApp] returns what [newApp] made. When the variable is
    read first, which Go allows as well, the same device has names that exist
    twice, its link is down at speed 0, and [NewApp] returns no application and
    no error. *)
Theorem return_order {A Er} E zero_name get_names get_id pid ns id (D : names_device get_names get_id pid ns id)
    link_get uninit link name (devs : order -> devices)
    (Hl : link_get pid uninit = (0, link)) (Hn : forall o, dev_name (devs o) pid = inr name)
    (Hd : forall o, dev_link (devs o) pid = link_result (EthLinkGet o E link_get uninit pid)) (app : A) :
  (exists m, device_XstatNameIDs Call_first E zero_name get_names get_id pid = Ids m /\ forall x, x ∈ ns -> m !! id x = Some x) /\
  ((2 <= length ns)%nat -> device_XstatNameIDs Read_first E zero_name get_names get_id pid = ErrExist) /\
  (forall o, port_shown (devs o) pid (Speed_, [name]) = Some (float64 (link_speed (out o zero_link link))) /\
     port_shown (devs o) pid (Status_, [name]) = Some (bool_val (Status (out o zero_link link)))) /\
  (forall o, NewApp (Er := Er) o None (Some app, None) = (out o None (Some app), None)).
Proof.
  split_and!.
  - rewrite (device_ids _ _ _ _ _ pid ns id D). destruct (name_ids_map id ns ∅) as (m & Em & L & _); [apply (nd_distinct _ _ _ _ _ D)|intros x _; apply lookup_empty|].
    by exists m.
  - intros L. rewrite (device_ids _ _ _ _ _ pid ns id D). by apply name_ids_clash.
  - intros o. unfold port_shown. rewrite Hn, Hd. unfold EthLinkGet, go_rte_eth_link_get. rewrite Hl, errget_0. destruct link as [sp du an st].
    cbn [link_result snd fst link_speed link_duplex link_autoneg link_status].
    destruct (dev_mac (devs o) pid) as [|mac], (dev_info (devs o) pid) as [|i]; unfold info_shown, link_shown, over, just, nothing; split;
      repeat ((rewrite decide_False by congruence) || (rewrite decide_True by done)); done.
  - by intros [].
Qed.

(** A device of two names with ids 4 and 9 and a link of 10 Gbit/s. *)
Lemma return_order_witness :
  let names := [[97; 98]; [99]] in
  let id x := if decide (x = [99]) then 9 else 4 in
  let get_names (_ : Z) (n : option Z) := match n with None => (2, []) | Some _ => (2, names) end in
  let get_id (_ : Z) x (_ : Z) := (0, id x) in
  (exists m, device_XstatNameIDs Call_first (mkRteNumbers 1002 1001 1003 1000) [0] get_names get_id 7 = Ids m /\ m !! 9 = Some [99]) /\
  device_XstatNameIDs Read_first (mkRteNumbers 1002 1001 1003 1000) [0] get_names get_id 7 = ErrExist /\
  (let devs o := mkDevices 1 [7] (fun _ => inr [112])
      (fun p => link_result (EthLinkGet o (mkRteNumbers 1002 1001 1003 1000) (fun _ _ => (0, mkEthLink 10000 1 1 1)) (mkEthLink 5 5 5 5) p))
      (fun _ => 0) (fun _ => inl (Errno 95)) (fun _ => inl (Errno 95)) in
   port_shown (devs Read_first) 7 (Speed_, [[112]]) = Some 0 /\ port_shown (devs Call_first) 7 (Speed_, [[112]]) = Some 10000).
Proof.
  intros names id get_names get_id.
  destruct (return_order (A := unit) (Er := unit) (mkRteNumbers 1002 1001 1003 1000) [0] get_names get_id 7 names id) with
    (link_get := fun (_ : Z) (_ : EthLink) => (0, mkEthLink 10000 1 1 1)) (uninit := mkEthLink 5 5 5 5) (link := mkEthLink 10000 1 1 1) (name := [112])
    (devs := fun o => mkDevices 1 [7] (fun _ => inr [112])
      (fun p => link_result (EthLinkGet o (mkRteNumbers 1002 1001 1003 1000) (fun _ _ => (0, mkEthLink 10000 1 1 1)) (mkEthLink 5 5 5 5) p))
      (fun _ => 0) (fun _ => inl (Errno 95)) (fun _ => inl (Errno 95))) (app := tt) as ((m & Em & L) & C & S & _).
  - split; [reflexivity|reflexivity|cbn; lia| |reflexivity|].
    + intros x Hx. repeat (apply elem_of_cons in Hx as [->|Hx]; [reflexivity|]). by apply elem_of_nil in Hx.
    + apply (bool_decide_unpack _). vm_compute. exact I.
  - reflexivity.
  - reflexivity.
  - reflexivity.
  - split; [exists m; split; [exact Em|apply (L [99]); set_solver]|]. split; [apply C; cbn; lia|].
    split; [apply (S Read_first)|apply (S Call_first)].
Defined.

(** [RssHashConfGet] never gives a key: DPDK writes the key to the buffer that the
    structure points to and leaves the pointer, which is NULL here, so that the
    slice has the length the driver reports over address 0, and reading any
    element of it is a fault. *)
Theorem RssHashConfGet_key E hash_conf_get pid rc c (m : Memory.mem) (Hg : hash_conf_get pid (mkRssC 0 0 0) = (rc, c))
    (Keep : rss_key c = 0) (Len8 : 0 <= rss_key_len c < 256) (Low : forall q, 0 <= q < 256 -> m !! q = None) :
  exists err key hf, RssHashConfGet E hash_conf_get pid = (err, (key, hf)) /\ err = errget E rc /\ hf = rss_hf c /\
    Len key = rss_key_len c /\ forall i, slice_get 1 key i m = None.
Proof.
  unfold RssHashConfGet. rewrite Hg. eexists _, _, _. split_and!; [done|done|done|done|]. intros i.
  unfold slice_get, elem_at. cbn [Len Data]. destruct (_ && _) eqn:B; [|done]. apply andb_true_iff in B. rewrite Keep.
  unfold load_le. cbn. by rewrite Low by lia.
Qed.
