(* ===== verification/AppStart.v ===== *)
(** * The test sniffer put together

    [newApp] of [src/app/test-sniffer/init.go] ([App]) with the mempools, the
    configuration of a port and the distribution of queues that it calls
    ([Sniffer]), on devices that report as many receive queues as they were
    configured with. What this shows of the parts together: the hairpin queues are
    receive queues of the device, so they are given to lcores as well. *)

From Stdlib Require Import ZArith Lia String.
From stdpp Require Import base list numbers option gmap sets.
From S2P Require Import Prelude Text Errno Pools Ethdev EthdevSpec Sniffer SnifferSpec App.

Open Scope Z_scope.

(** ** Flags *)

(* go: app/test-sniffer/init.go 21-29 isolate *)
Record Flags := mkFlags {
  mbufElts : Z; mbufSize : Z; poolCache : Z; rxQueues : Z; txQueues : Z; hairpinQueues : Z; rxDesc : Z; txDesc : Z; isolate : Z
}.
(* go: app/test-sniffer/init.go 70-88 newApp *)
Definition ethdevCfg (f : Flags) : EthdevConfig :=
  mkEthdevConfig (u16 (rxQueues f)) (u16 (txQueues f)) (u16 (hairpinQueues f)) 2 (u16 (rxDesc f)) (u16 (txDesc f)).
(* go: app/test-sniffer/init.go 54-58 newApp *)
Definition pool_opts (f : Flags) : list Pools.Option :=
  [Pools.OptCacheSize (u32 (poolCache f)); Pools.OptOpsName (str "ring_mp_mc"%string); Pools.OptPrivateDataSize 64].

Section Start.
Context {Stats : Type}.
Variable E : rte_numbers.
Variable flags : Flags.
Abbreviation conf := (ethdevCfg flags).
(** The ports, and the calls of each that fail. *)
Variable CountTotal : nat.
Variable IsValid : Z -> bool.
Variable fails : Z -> call -> bool.
Variable lsc : Z -> bool.
Variable info_fails : Z -> bool.
Variable SocketID : Z -> Z.
Variable rte_pktmbuf_pool_create_by_ops : list Z -> Z -> Z -> Z -> Z -> Z -> option (list Z) -> Z * Z.
Variable isolate_port validate : Z -> option unit.
Variable create_flow : Z -> option Z.
Variable new_stats : list Z -> option Stats.
(** The worker lcores. *)
Variable LcoreToSocket : Z -> Z.
Variable workers : list Z.

(** The error is dropped from the result, as [None]. *)
(* go: app/test-sniffer/init.go CmdMempool.NewMempool *)
Definition NewMempool (name : list Z) (opts : list Pools.Option) : option Z :=
  let '(mp, err) := CreateMbufPool E rte_pktmbuf_pool_create_by_ops name (u32 (mbufElts flags)) (u16 (mbufSize flags)) opts in
  match err with None => Some mp | Some _ => None end.
Definition start_pools : option (list Z) :=
  NewMempoolPerPort IsValid SocketID Pools.OptSocket NewMempool CountTotal (str "mbuf_pool"%string) (pool_opts flags).

(** All queues of a port that was configured. *)
Definition all_queues : Z := u16 (RxQueues conf + HairpinQueues conf).
(** [InfoGet] behind [DevConfigure]: [nb_rx_queues] is the number given there. *)
Definition start_nrx (pid : Z) : option Z := if info_fails pid then None else Some all_queues.
Definition start_configure (pid : Z) : option unit := if snd (Configure (fails pid) (lsc pid) conf) then Some tt else None.
Definition start_distribute (ports : list Z) : option (gmap Z PortQueue) :=
  match DistributeQueues LcoreToSocket start_nrx SocketID ports workers with Done t => Some t | Failed _ | Panic => None end.

Definition start : traced (App (list Z) Stats) :=
  newApp CountTotal IsValid (negb (isolate flags =? 0)) start_pools isolate_port start_configure validate
    new_stats start_distribute create_flow.

(** ** Ports *)

Lemma elem_of_valid_ports n : forall i pid, 0 <= i -> i + Z.of_nat n <= 65536 ->
  pid ∈ valid_ports IsValid i n -> i <= pid < i + Z.of_nat n /\ IsValid pid = true.
Proof.
  induction n as [|n IH]; intros i pid Hi Hn; cbn [valid_ports]; [by intros ?%elem_of_nil|]. rewrite u16_small by lia.
  destruct (IsValid i) eqn:V; [intros [->|H]%elem_of_cons; [split; [lia|done]|]|intros H]; apply IH in H; try lia; destruct H; (split; [lia|done]).
Qed.

Lemma NoDup_valid_ports n : forall i, 0 <= i -> i + Z.of_nat n <= 65536 -> NoDup (valid_ports IsValid i n).
Proof.
  induction n as [|n IH]; intros i Hi Hn; cbn [valid_ports]; [constructor|]. rewrite u16_small by lia.
  destruct (IsValid i); [constructor|]; [|apply IH; lia..]. intros H. apply elem_of_valid_ports in H; lia.
Qed.

Lemma configure_ports_all ports : snd (configure_ports (negb (isolate flags =? 0)) isolate_port start_configure ports) = Some tt ->
  forall pid, pid ∈ ports -> snd (Configure (fails pid) (lsc pid) conf) = true.
Proof.
  induction ports as [|p ports IH]; cbn [configure_ports]; [by intros _ ? ?%elem_of_nil|].
  unfold tbind, tcall, tret. intros H pid Hp.
  assert (K : start_configure p = Some tt /\ snd (configure_ports (negb (isolate flags =? 0)) isolate_port start_configure ports) = Some tt).
  { destruct (negb (isolate flags =? 0)); [destruct (isolate_port p); [|done]|]; (destruct (start_configure p) as [[]|]; [|done]);
      by destruct (configure_ports _ _ _ ports) as [? [[]|]]. }
  destruct K as [K1 K2]. apply elem_of_cons in Hp as [->|Hp]; [|by apply IH].
  unfold start_configure in K1. by destruct (snd (Configure _ _ _)).
Qed.

Lemma start_some app : snd start = Some app ->
  let ports := valid_ports IsValid 0 CountTotal in
  Ports app = ports /\ snd (configure_ports (negb (isolate flags =? 0)) isolate_port start_configure ports) = Some tt /\
  DistributeQueues LcoreToSocket start_nrx SocketID ports workers = Done (Work app).
Proof.
  intros S ports. destruct (newApp_spec CountTotal IsValid (negb (isolate flags =? 0)) start_pools isolate_port start_configure
    validate new_stats start_distribute create_flow) as (_ & _ & V).
  destruct (V app S) as (_ & P & _ & D & _). split; [exact P|]. split.
  - unfold start, newApp in S. fold ports in S. unfold tbind, tcall, tret in S. destruct start_pools; [|done].
    by destruct (configure_ports (negb (isolate flags =? 0)) isolate_port start_configure ports) as [t [[]|]].
  - unfold start_distribute in D. fold ports in D. destruct (DistributeQueues _ _ _ _ _) as [T|e|]; [|done|done]. by injection D as ->.
Qed.

(** ** Calls of a configuration *)

Lemma configured_calls pid : snd (Configure (fails pid) (lsc pid) conf) = true ->
  fst (Configure (fails pid) (lsc pid) conf) = config_calls (lsc pid) conf.
Proof.
  intros S. destruct (Configure_spec (fails pid) (lsc pid) conf) as (rest & Eq & T & _). destruct (proj1 T S) as [Rn _]. rewrite Rn, app_nil_r in Eq. by rewrite Eq.
Qed.

(** The queues that [RxqSetup] is called for. *)
Definition rxq_of (c : call) : option Z := match c with RxqSetup q _ => Some q | _ => None end.

Lemma omap_rxq_none {A} (f : A -> call) l : (forall a, rxq_of (f a) = None) -> omap rxq_of (map f l) = [].
Proof. intros H. induction l as [|a l IH]; [done|]. cbn. by rewrite H. Qed.

Lemma rxq_called ls : omap rxq_of (config_calls ls conf) = qids (RxQueues conf).
Proof.
  unfold config_calls. rewrite !omap_app. rewrite (omap_rxq_none (fun q => TxqSetup q (TxDescriptors conf))), (omap_rxq_none OnConfigCall) by done.
  assert (C : omap rxq_of (concat (map (fun q => [GetPool q; RxqSetup q (RxDescriptors conf)]) (qids (RxQueues conf)))) = qids (RxQueues conf)).
  { induction (qids (RxQueues conf)) as [|q l IH]; [done|]. cbn [map concat]. rewrite omap_app, IH. done. }
  rewrite C. destruct ls, (0 <? HairpinQueues conf); cbn; by rewrite ?app_nil_r.
Qed.

Lemma hairpin_called ls : 0 < HairpinQueues conf ->
  HairpinQueueSetup (RxQueues conf) (TxQueues conf) (HairpinQueues conf) (RxDescriptors conf) (TxDescriptors conf) ∈ config_calls ls conf.
Proof.
  intros H. unfold config_calls. rewrite (proj2 (Z.ltb_lt _ _) H). rewrite !elem_of_app. do 6 right. left. by constructor.
Qed.

(** The queue that the [k]-th hairpin set-up is for. *)
Lemma hairpin_queue pid k : 0 <= k < HairpinQueues conf ->
  RxHairpin pid (RxQueues conf + k) (RxDescriptors conf) pid (TxQueues conf + k) ∈
    hairpin_calls pid (RxQueues conf) (TxQueues conf) (RxDescriptors conf) (TxDescriptors conf) (Z.to_nat (HairpinQueues conf)).
Proof.
  intros Hk. apply elem_of_app. left. apply list_elem_of_fmap. exists (Z.to_nat k). split; [f_equal; lia|]. apply elem_of_seq. lia.
Qed.

(** The queues of a socket are those of its ports. *)
Lemma socket_queues_length s ports : (forall pid, pid ∈ ports -> nrx start_nrx pid = all_queues) -> 0 <= all_queues ->
  Z.of_nat (length (socket_queues start_nrx SocketID s ports)) = Z.of_nat (length (filter (fun p => SocketID p = s) ports)) * all_queues.
Proof.
  intros H A. induction ports as [|p ports IH]; [done|]. unfold socket_queues in *. cbn [map concat].
  rewrite length_app, Nat2Z.inj_add, IH by (intros q Hq; apply H; by right). rewrite filter_cons.
  destruct (decide (SocketID p = s)) as [->|N].
  - rewrite Z.eqb_refl, length_port_queues, H by constructor. cbn [length]. lia.
  - rewrite (proj2 (Z.eqb_neq _ _)) by done. done.
Qed.

(** What [HairpinQueueSetup] asks of DPDK when no call fails. *)
Lemma hairpin_made pid fuel : 0 <= RxQueues conf -> 0 <= TxQueues conf -> 0 <= HairpinQueues conf ->
  RxQueues conf + HairpinQueues conf < 65536 -> TxQueues conf + HairpinQueues conf < 65536 -> (Z.to_nat (HairpinQueues conf) < fuel)%nat ->
  Ethdev.HairpinQueueSetup E (fun _ => 0) fuel pid (RxQueues conf) (TxQueues conf) (HairpinQueues conf) (RxDescriptors conf) (TxDescriptors conf) =
    Some (hairpin_calls pid (RxQueues conf) (TxQueues conf) (RxDescriptors conf) (TxDescriptors conf) (Z.to_nat (HairpinQueues conf)), None).
Proof.
  intros R T H B1 B2 F.
  destruct (HairpinQueueSetup_spec E (fun _ => 0) pid (RxQueues conf) (TxQueues conf) (RxDescriptors conf) (TxDescriptors conf)
    (Z.to_nat (HairpinQueues conf)) fuel) as [K _]; [lia..|]. rewrite Z2Nat.id in K by done.
  destruct K as (made & err & rest & Eq & A & [(-> & -> & _)|(_ & pre & c & _ & N & _)]); [lia|lia|lia| |done].
  rewrite app_nil_r in A. by rewrite Eq, A.
Qed.

(** ** Pools *)

Lemma pools_from_lookup prefix opts n : forall i l, 0 <= i -> i + Z.of_nat n <= 65536 ->
  pools_from IsValid SocketID Pools.OptSocket NewMempool prefix opts i n = Some l ->
  forall k : nat, (k < n)%nat -> exists mp, l !! k = Some mp /\
    if IsValid (i + Z.of_nat k) then
      NewMempool (prefix ++ str "_"%string ++ fmt_d (i + Z.of_nat k)) (Pools.OptSocket (SocketID (i + Z.of_nat k)) :: opts) = Some mp
    else mp = 0.
Proof.
  induction n as [|n IH]; intros i l Hi Hn; cbn [pools_from]; [intros _ k Hk; lia|]. rewrite u16_small by lia.
  set (rest := pools_from _ _ _ _ _ _ (i + 1) n). intros L k Hk.
  assert (exists mp l', l = mp :: l' /\ rest = Some l' /\
    if IsValid i then NewMempool (prefix ++ str "_"%string ++ fmt_d i) (Pools.OptSocket (SocketID i) :: opts) = Some mp else mp = 0)
    as (mp & l' & -> & R & M).
  { destruct (IsValid i); [destruct (NewMempool _ _) as [mp|]; [|done]|]; destruct rest as [l'|]; try done;
      injection L as <-; eauto. }
  destruct k as [|k].
  - exists mp. rewrite Z.add_0_r. done.
  - destruct (IH (i + 1) l') with (k := k) as (mp' & Lk & Mk); [lia|lia|exact R|lia|].
    exists mp'. replace (i + Z.of_nat (S k)) with (i + 1 + Z.of_nat k) by lia. done.
Qed.
End Start.
Arguments start {Stats}.

(** The mempools of a sniffer that has started: that of a port has a name with its
    number and lies on its socket; the flags, cut to the widths of C, and the
    ring operations are in the call that made it; slots of ports that do not
    exist are nil. *)
Theorem start_mempools {Stats} E flags CountTotal IsValid fails lsc info_fails SocketID pool_create isolate_port validate create_flow
    (new_stats : list Z -> option Stats) LcoreToSocket workers app pid (Hc : Z.of_nat CountTotal <= 65536) (Hp : 0 <= pid < Z.of_nat CountTotal)
    (S : snd (start E flags CountTotal IsValid fails lsc info_fails SocketID pool_create isolate_port validate create_flow new_stats
           LcoreToSocket workers) = Some app) :
  exists mp, RxqMempooler app !! Z.to_nat pid = Some mp /\
    if IsValid pid then
      fst (pool_create (str "mbuf_pool"%string ++ str "_"%string ++ fmt_d pid) (u32 (mbufElts flags)) (u32 (poolCache flags)) 64
        (u16 (mbufSize flags)) (i32 (SocketID pid)) (Some (str "ring_mp_mc"%string))) = mp
    else mp = 0.
Proof.
  assert (P : start_pools E flags CountTotal IsValid SocketID pool_create = Some (RxqMempooler app)).
  { destruct (newApp_spec CountTotal IsValid (negb (isolate flags =? 0)) (start_pools E flags CountTotal IsValid SocketID pool_create) isolate_port
      (start_configure flags fails lsc) validate new_stats (start_distribute flags info_fails SocketID LcoreToSocket workers) create_flow) as (_ & _ & V).
    by destruct (V app S). }
  unfold start_pools, NewMempoolPerPort in P. apply pools_from_lookup with (k := Z.to_nat pid) in P as (mp & L & M); [|lia..].
  exists mp. split; [done|]. rewrite Z.add_0_l, Z2Nat.id in M by lia. destruct (IsValid pid); [|done].
  unfold NewMempool, CreateMbufPool, pool_opts, mp_conf, pointer_or_err in M. cbn [foldl Pools.OptSocket Pools.OptCacheSize Pools.OptOpsName
    Pools.OptPrivateDataSize cacheSize privDataSize mp_socket opsName] in M.
  change (u16 64) with 64 in M. destruct (pool_create _ _ _ _ _ _ _) as [q e]. cbn [fst snd] in M |- *.
  destruct (Z.eqb_spec q 0) as [->|N]; [|by injection M as <-].
  destruct (RteErrno E e); [done|]. injection M as <-. done.
Qed.

(** C7. The queues of a sniffer that has started: [RxqSetup] was called for the first
    [RxQueues] queues of each port, in order, but each of its [RxQueues] and
    [HairpinQueues] queues has a worker lcore of its own; so the lcores of a
    socket were enough for both, and the lcore of a queue that
    [HairpinQueueSetup] binds to a transmit queue of the device receives from it
    like from any other. *)
Theorem start_queues {Stats} E flags CountTotal IsValid fails lsc info_fails SocketID pool_create isolate_port validate create_flow
    (new_stats : list Z -> option Stats) LcoreToSocket workers app fuel (ND : NoDup workers) (Hc : Z.of_nat CountTotal <= 65536)
    (B1 : RxQueues (ethdevCfg flags) + HairpinQueues (ethdevCfg flags) < 65536)
    (B2 : TxQueues (ethdevCfg flags) + HairpinQueues (ethdevCfg flags) < 65536)
    (F : (Z.to_nat (HairpinQueues (ethdevCfg flags)) < fuel)%nat)
    (S : snd (start E flags CountTotal IsValid fails lsc info_fails SocketID pool_create isolate_port validate create_flow new_stats
           LcoreToSocket workers) = Some app) : let conf := ethdevCfg flags in
  (forall pid, pid ∈ Ports app ->
     omap rxq_of (fst (Configure (fails pid) (lsc pid) conf)) = qids (RxQueues conf) /\
     (forall i, 0 <= i < RxQueues conf + HairpinQueues conf -> exists lc,
        lc ∈ workers /\ LcoreToSocket lc = SocketID pid /\ Work app !! lc = Some (mkPortQueue pid i 0) /\
        forall lc', Work app !! lc' = Some (mkPortQueue pid i 0) -> lc' = lc) /\
     (forall k, 0 <= k < HairpinQueues conf ->
        HairpinQueueSetup (RxQueues conf) (TxQueues conf) (HairpinQueues conf) (RxDescriptors conf) (TxDescriptors conf) ∈
          fst (Configure (fails pid) (lsc pid) conf) /\
        exists l, Ethdev.HairpinQueueSetup E (fun _ => 0) fuel pid (RxQueues conf) (TxQueues conf) (HairpinQueues conf)
            (RxDescriptors conf) (TxDescriptors conf) = Some (l, None) /\
          RxHairpin pid (RxQueues conf + k) (RxDescriptors conf) pid (TxQueues conf + k) ∈ l)) /\
  forall s, Z.of_nat (length (filter (fun p => SocketID p = s) (Ports app))) * (RxQueues conf + HairpinQueues conf) <=
            Z.of_nat (length (filter (fun lc => LcoreToSocket lc = s) workers)).
Proof.
  cbv zeta. apply start_some in S as (Po & Cf & D).
  assert (0 <= RxQueues (ethdevCfg flags) /\ 0 <= TxQueues (ethdevCfg flags) /\ 0 <= HairpinQueues (ethdevCfg flags)) as (R & T & Hh) by (split_and!; apply u16_range).
  assert (Qs : all_queues flags = RxQueues (ethdevCfg flags) + HairpinQueues (ethdevCfg flags)) by (apply u16_small; lia).
  assert (Nr : forall pid n, start_nrx flags info_fails pid = Some n -> 0 <= n < 65536).
  { unfold start_nrx. intros pid n. destruct (info_fails pid); [done|]. intros [= <-]. lia. }
  destruct (distribute_ok LcoreToSocket (start_nrx flags info_fails) SocketID _ workers (Work app) ND Nr D) as [Fit Tb].
  rewrite <- Po in Cf, Fit, Tb.
  assert (Nq : forall pid, pid ∈ Ports app -> nrx (start_nrx flags info_fails) pid = RxQueues (ethdevCfg flags) + HairpinQueues (ethdevCfg flags)).
  { intros pid Hp. destruct (proj1 Fit pid Hp) as (N & _). unfold nrx, start_nrx in *. by destruct (info_fails pid). }
  assert (Np : NoDup (Ports app)) by (rewrite Po; apply NoDup_valid_ports; lia).
  split.
  - intros pid Hp. assert (C : snd (Configure (fails pid) (lsc pid) (ethdevCfg flags)) = true) by (by eapply configure_ports_all).
    pose proof (configured_calls flags fails lsc pid C) as Cc. rewrite Cc. split; [apply rxq_called|]. split.
    + intros i Hi. destruct (queue_served LcoreToSocket (start_nrx flags info_fails) SocketID workers _ _ pid i Fit Tb Hp) as (lc & L1 & L2 & L3);
        [by rewrite Nq|]. exists lc. split_and!; [done|done|done|]. intros lc' L'.
      by apply (table_apart _ _ _ _ _ _ Np Tb lc' lc (mkPortQueue pid i 0)).
    + intros k Hk. split; [apply hairpin_called; lia|]. eexists. split; [by apply hairpin_made|]. by apply hairpin_queue.
  - intros s. pose proof (socket_queues_length flags info_fails SocketID s (Ports app)) as L. rewrite Qs in L. rewrite <- L; [|by apply Nq|lia].
    pose proof (proj2 Fit s) as Fs. unfold socket_lcores in Fs. lia.
Qed.

(** Two ports with one receive queue and one hairpin queue each: four lcores are
    needed, and lcores 2 and 4 poll hairpin queues. *)
Lemma start_queues_witness :
  let flags := mkFlags 100000 3000 512 1 1 1 256 256 1 in
  let E := mkRteNumbers 1002 1001 1003 1000 in
  let pool_create (name : list Z) (_ _ _ _ _ : Z) (_ : option (list Z)) := (default 0 (last name), 0) in
  let sample := start E flags 2 (fun _ => true) (fun _ _ => false) (fun _ => false) (fun _ => false) (fun _ => 0) pool_create
    (fun _ => Some tt) (fun _ => Some tt) (fun pid => Some (200 + pid)) (fun _ => Some tt) (fun _ => 0) [1; 2; 3; 4] in
  exists app, snd sample = Some app /\ Work app !! 2 = Some (mkPortQueue 0 1 0) /\
    omap rxq_of (fst (Configure (fun _ => false) false (ethdevCfg flags))) = [0] /\
    2 * 2 <= Z.of_nat (length (filter (fun lc => 0 = 0) [1; 2; 3; 4])).
Proof.
  intros flags E pool_create sample. destruct (snd sample) as [app|] eqn:S; [|exfalso; revert S; vm_compute; discriminate].
  destruct (start_queues E flags 2 (fun _ => true) (fun _ _ => false) (fun _ => false) (fun _ => false) (fun _ => 0) pool_create
    (fun _ => Some tt) (fun _ => Some tt) (fun pid => Some (200 + pid)) (fun _ => Some tt) (fun _ => 0) [1; 2; 3; 4] app 2)
    as [Q L]; [apply (bool_decide_unpack _); vm_compute; exact I..|exact S|].
  assert (O : Ports <$> snd sample = Some [0; 1]) by (vm_compute; reflexivity). rewrite S in O. injection O as P.
  assert (W : (fun a => Work a !! 2) <$> snd sample = Some (Some (mkPortQueue 0 1 0))) by (vm_compute; reflexivity). rewrite S in W. injection W as W.
  exists app. split; [done|]. split; [exact W|]. split; [apply (Q 0); rewrite P; constructor|]. specialize (L 0). rewrite P in L. exact L.
Defined.
